(* ===== verification/_CoqProject ===== *)
-Q . S2P
Prelude.v
JsString.v
JsNumber.v
Numeric.v
JsList.v
JsDate.v
VisibleInterval.v
SysupgradeApi.v
Firmware.v
FirmwareSafe.v
Constants.v
RingBuffer.v
RingThreads.v
ReplayBuffer.v
AudioRx.v
PollStore.v
SharedData.v
WebSocket.v
Sparkline.v
AudioTx.v
FilePanel.v
Comms.v
Whisper.v
MeshJoin.v
Setup.v
SetupApply.v
SetupRun.v
SetupShell.v
SetupSteps.v
Topology.v
MeshApi.v
DashboardView.v
Dashboard.v
Settings.v
DeviceAudio.v
LatSelect.v
Blos.v
TopologyPage.v
TopologyMap.v
MapPacking.v
ModelManager.v
WhisperInit.v
DataTable.v
WidgetGrid.v
ReleaseNotes.v
FirmwareView.v
NetworkPage.v
DashboardPanels.v
CommsPanel.v
MeshShare.v
Login.v
Logs.v
Gnss.v
GpsView.v
Mgrs.v
Wireless.v
CommsView.v
AudioGraph.v
Charts.v
BlosView.v
AppShell.v
TopologyPanels.v
WirelessView.v
TerminalPage.v
