(* ===== verification/Prelude.v ===== *)
(** * OpenMANET web UI: verification library

    The web interface of openmanetd ([src/frontend/src], JavaScript and React)
    runs in the operator's browser: it plays and sends push-to-talk audio over a
    WebSocket, polls the daemon over ConnectRPC, and configures the node.  This
    library models its stateful logic as state machines and pure functions and
    proves what makes each part correct.  Paths below are relative to
    [src/frontend/src]; Go code of the daemon is modelled only where it is the
    other end of a contract.

    ** How the program fits together

    Audio.  [services/websocketService.js] receives frames and hands them to
    [services/audioEngine.js], which decodes them into the ring of
    [services/ringBuffer.js]; the audio thread ([public/pcm-worklet.js]) drains
    it.  Decoded PCM also goes to [services/replayBuffer.js] and to the captioning
    queue [services/whisperService.js].  In the other direction [pages/Comms.jsx]
    drives the microphone of [audioEngine.js], and [services/audioFileTx.js] sends
    files.

    Data.  Pages read shared stores made by [services/pollStore.js], or poll
    through [hooks/useVisibleInterval.js]; [services/meshApi.js] and
    [services/sysupgradeApi.js] turn messages into plain objects;
    [services/sparklineStore.js] keeps chart histories.

    Pages.  The setup wizard ([contexts/SetupContext.jsx], [pages/setup/],
    [pages/SetupWizard.jsx] behind [components/SetupGate.jsx]), the wireless and
    firmware settings, the node settings, the log viewer, the dashboard, the
    topology view, the BLOS page and the GNSS page.

    ** Files, and what their theorems show

    Shared vocabulary:
    - [Prelude]: JavaScript notations, loops with index, [Int32Array] slots, list
      lemmas, the tactic [bool_simpl], the hint databases [omd].
    - [JsString], [JsNumber], [JsList]: [trim], case, decimal texts and
      [padStart]; doubles with [Math.round] and [toFixed]; [split], stable
      [sort], [Map] in insertion order.
    - [Numeric]: an arithmetic as a class ([Arith], [Rounding]), with doubles to run
      and rationals to reason, for code that computes with fractions; [Mgrs] adds the
      real numbers.
    - [JsDate]: the calendar of a time value and [toISOString], whose first ten and
      first nineteen characters read back as the day and the second.
    - [VisibleInterval]: the polling hook, its interval and its listener.
    - [Constants]: the channel table and message bytes of [constants.js].

    Audio:
    - [RingBuffer] ([services/ringBuffer.js], the worklet's reader): a bounded
      FIFO behind a one-shot start gate is the specification, the class [PcmQueue]
      the interface to clients; both readers refine it.
    - [RingThreads]: the two threads on the same shared memory, one access a step:
      no sample is read before it is published, whatever the interleaving, and an
      undisturbed call is the sequential definition.
    - [ReplayBuffer]: a replay is the last thirty seconds of its channel.
    - [AudioRx] (receive half of [audioEngine.js]): playback refines the queue,
      proved against [PcmQueue]; the reporter and the attribution of PCM.
    - [AudioTx] (microphone half, [audioFileTx.js]): what records is what the
      module holds; file frames are contiguous.
    - [FilePanel] ([components/AudioFileTx.jsx]): while the panel stays on the page
      the radio is keyed exactly while a file plays, and the service of [AudioTx] is
      driven as its invariant asks.
    - [WebSocket] ([websocketService.js] with [internal/websocket/message.go]):
      the byte protocol round-trips, one connection is alive and it comes back.
    - [Comms] ([pages/Comms.jsx]): the push-to-talk protocol over every
      interleaving of awaits, of what the page sends and of what goes out on each
      connection, the channel switches as the server holds them, the microphone the
      page keeps open.
    - [CommsPanel] (the rest of [Comms.jsx], [components/ChannelGrid.jsx],
      [components/Transcript.jsx]): volume and mute against the engine's gain,
      channel names, reception dots, the captioning switch, the transcript.
    - [CommsView] ([components/RxWaveform.jsx], [MicMeter.jsx], [StatusBar.jsx], the
      audio devices and the remaining panels of [Comms.jsx]): the ring behind the
      waveform is a window of the last samples, the meter follows the level within
      its bounds, lists and logs show exactly what the page holds.
    - [AudioGraph] (the graph of [audioEngine.js]): no operation of the engine lets
      the microphone reach the loudspeaker, and amplified audio passes the limiter.
    - [Whisper]: one job per channel, of every third sample, always released.
    - [ModelManager] ([components/WhisperManager.jsx], model requests of
      [whisperService.js]): the two pollers of a model download end together.
    - [WhisperInit] ([initWhisper] of [whisperService.js] and its cache): when
      captions start, what a failure reports, and that a cached model is not fetched.

    Data:
    - [PollStore], [Sparkline], [MeshApi], [SysupgradeApi]: timers and single
      flight of the store, against its own flag on every run and against the tab on
      those where no change of visibility goes unheard; chart windows; the snapshot call and its fallback; the
      promise of an upload.
    - [SharedData] ([hooks/useMeshStatus.js], [useMeshTopology.js], [useGnssStatus.js]):
      the pages that read a store show the same snapshot, and the store polls at the
      smallest interval of those that are mounted.
    - [Topology] ([components/topologyGraph.js]): hosts and segments partition the
      graph the server sent.
    - [TopologyPage] ([pages/Topology.jsx]), [TopologyMap]
      ([components/TopologyMap.jsx]): the inspector lists the links of a host, each
      with its other end; the map gives every host of a segment its own place, in
      the row of its distance from the root.
    - [MapPacking] ([components/TopologyMap.jsx]): relaxation, spacing, boxes and
      packing, over an arithmetic ([Arith]: doubles to run, rationals to reason);
      on rationals no two hosts of the finished map overlap and all are in view.
    - [DataTable] ([components/DataTable.jsx]): the table and the cards show the
      same cells.
    - [TopologyPanels] ([pages/Topology.jsx]): the counts of the page are those of the
      map, and the panel shows the host selected.
    - [Charts] ([SparkBars] of [pages/BLOS.jsx], [components/Sparkline.jsx]): bars and line stay on
      their canvas, on exact numbers.
    - [WidgetGrid] ([components/WidgetGrid.jsx]): every widget shown once within its
      limits, drops, and the layout that is loaded again.

    Pages:
    - [MeshJoin] ([utils/meshJoin.js], [pages/setup/meshChannels.js]), [Setup],
      [SetupApply], [SetupRun], [SetupShell]: decoding of mesh codes, the wizard's
      invariant, the profile against the server's checks (the schema rules of
      [gen/openmanet/setup/v1/setup_pb.js] that its interceptor enforces, then the
      validation of [internal/openmanet/server/handlers/setup.go]), the apply stream
      with its polling fallback, and which page is shown, at every path the router
      matches.
    - [SetupSteps] (the steps under [pages/setup/], [labels.js], [Stepper.jsx]): every
      control of the wizard with the actions it dispatches; without a scanned code
      what the controls leave to the server is the texts and the uplink; selects
      show the state; the review shows what is sent.
    - [Wireless], [WirelessView] ([pages/SettingsWireless.jsx]): drafts, scans and
      joins; the fields show the draft, Save and Join are offered exactly when a
      press sends, and the tables list the stations.
    - [Firmware], [FirmwareSafe] ([pages/SettingsFirmware.jsx] with
      [internal/sysupgrade/factoryreset.go]), [ReleaseNotes]: requests the page
      may send, uploads, resets, and safe rendering of release notes.
    - [FirmwareView] (the panels of [pages/SettingsFirmware.jsx]): what the page
      shows and offers in each state; the install button sends the release and the
      options on display, a permission whose box is gone changes nothing on a daemon
      in the state shown, and nothing that is not offered can be requested.
    - [Logs] ([pages/SettingsLogs.jsx]): requests of the viewer, loading and
      scrolling; removal of colour sequences.
    - [DashboardView], [Dashboard] ([pages/Dashboard.jsx],
      [pages/dashboardAlerts.js]): the peer table as a summary per host, link
      quality, lost peers and acknowledgements.
    - [DashboardPanels] (the panels of [Dashboard.jsx]): what the widgets show of a
      status, the system resources among them.
    - [Settings] ([pages/Settings.jsx] with the defaults of
      [internal/config/config.go]): what the page shows as saved is what the daemon
      has, where no default of the page's own and no lost outcome came between;
      passphrase, restart and preview.
    - [DeviceAudio] ([pages/DeviceAudioPanel.jsx]): drags, commits and polls of the
      device's mixer; the panel always comes back to the device.
    - [Blos] ([pages/BLOS.jsx], [hooks/useBLOSStatus.js]): the event stream and its
      log, the tunnel's form.
    - [BlosView] ([pages/BLOS.jsx]): the page around it, its log and its charts.
    - [AppShell] ([components/Layout.jsx], [SettingsLayout.jsx], [NavIcon.jsx]): the
      navigation names pages that exist, in one tab list, and the sheet of a small
      screen closes when it should.
    - [LatSelect] ([components/LatSelect.jsx]): the select control of the forms.
    - [NetworkPage] ([pages/SettingsNetwork.jsx]): interfaces and DHCP.
    - [MeshShare] ([components/QrScanInput.jsx], [components/MeshJoinQR.jsx]): the
      code a scan delivers, the secrets a node's own code hides.
    - [TerminalPage] ([components/Terminal.jsx], [pages/SettingsTerminal.jsx]): one
      session at a time, the screen shows what the shell wrote, and the shell knows the
      size of the screen before it gets input.
    - [Login] ([pages/LoginPage.jsx], [login] of [contexts/AuthContext.jsx]): a
      session exists exactly after an accepted login.
    - [Gnss], [Mgrs] ([utils/gnss.js], [utils/mgrs.js], the state of
      [pages/GpsStatus.jsx]): fix rate, freshness, and map references that read
      back to the position: the code runs on doubles, its projection is bounded on the
      real numbers.
    - [GpsView] (the panels of [pages/GpsStatus.jsx], [components/SkyPlot.jsx]): the
      globe keeps its zoom, size and latitude in bounds and is centred by the first
      fix only, the bands divide the satellites, and the output controls show what
      is saved.

    ** Conventions

    A component is a record of its state with one function per handler, effect or
    callback; a [..._fire] (or [handle], [step]) function runs one event, an
    [enabled] predicate says when the page or the environment can cause it, and
    theorems about all runs are by induction on [rtc].  Asynchronous code is split
    at its awaits; what is outstanding is part of the state, and the environment
    settles it in any order.  Ghost histories (requests, frames sent, samples
    published) are fields that the code does not read.  React's rules are followed
    where they matter: a render first, effects after it in source order and only
    when their dependencies changed, cleanups before them.  Third-party and
    browser services (base64, protobuf, date parsing, [localeCompare], layout, the
    audio decoder, the router's decoding of paths, the engine's trigonometry) are
    parameters; their laws, where used, are named hypotheses.

    Bounds and fuel.  [ReleaseNotes.inlinePass] recurses at most five levels as
    the code does; [SetupRun.pollForCompletion] takes [POLL_FUEL] = 15 steps, and
    the theorems show that this always reaches an answer or the deadline;
    [SetupShell.settle] follows two redirects, proved to be enough;
    the search and the recursions of [TopologyMap] take one more step than there
    are hosts, which [layout_rows] shows to be enough.  Integers that
    wrap in the program (ring indices and counters in an [Int32Array], timestamps,
    bytes) wrap here; other numbers are integers within double precision, and
    doubles where rounding shows.  Characters are bytes, so string lengths agree
    with JavaScript's on ASCII text.

    ** Not modelled

    - The projections of [GpsStatus.jsx] and [SkyPlot.jsx]: trigonometry on doubles
      for display; of a canvas the strokes and colours; [data/coastlines.js] is data.
    - What rounding adds to exact arithmetic in [MapPacking], [Charts] and [Mgrs]:
      their bounds are on rationals and reals, their definitions run on doubles, and
      where rounding shows there is a theorem ([Mgrs.rounded_up_to_zone_61]).
    - Zooming and panning of the map (d3), a third-party library.
    - Markup and texts that carry no decision.
    - Generated code under [gen/], and clients that only name a service
      ([connectClient.js], [setupClient.js], [commsApi.js], [meshJoinApi.js]). *)
From stdpp Require Export base gmap strings list fin_maps sorting pretty.
From Stdlib Require Export Ascii ZArith Lia.

(** ** JavaScript notations and values *)

Declare Scope js_scope.
Delimit Scope js_scope with js.

(** [a ?? d]: the nullish-coalescing operator; [None] is [null]/[undefined]. *)
Notation "a ?? d" := (default d a) (at level 60, right associativity) : js_scope.

(** Array lengths and loop indices are numbers. *)
Coercion Z.of_nat : nat >-> Z.

(** The value held by an [Int32Array] slot after an integer was stored. *)
Definition int32 (z : Z) : Z := (z + 2 ^ 31) `mod` 2 ^ 32 - 2 ^ 31.

(** [for (let k = i; k < i + n; k++) s = body(k, s)]. *)
Fixpoint for_from {S : Type} (i n : nat) (body : nat → S → S) (s : S) : S :=
  match n with
  | O => s
  | Datatypes.S n' => for_from (Datatypes.S i) n' body (body i s)
  end.

(** [for (let k = 0; k < n; k++) s = body(k, s)]. *)
Definition for_loop {S : Type} (n : nat) (body : nat → S → S) (s : S) : S :=
  for_from 0 n body s.

(** [a.slice(-n)] on an array of any length ([n > 0]). *)
Definition last_n {A : Type} (n : nat) (l : list A) : list A := drop (length l - n) l.

(** ** Loops *)

Lemma for_from_inv {S : Type} (P : nat → S → Prop) n body i (s : S) :
  P i s →
  (∀ k s, i ≤ k < i + n → P k s → P (Datatypes.S k) (body k s)) →
  P (i + n) (for_from i n body s).
Proof.
  revert i s. induction n as [|n IH]; intros i s H0 Hs; simpl.
  - by rewrite Nat.add_0_r.
  - replace (i + Datatypes.S n) with (Datatypes.S i + n) by lia.
    apply IH; [apply Hs; [lia|done]|]. intros k s' Hk. apply Hs. lia.
Qed.

(** Loop invariants: [P k] holds before the iteration of index [k]. *)
Lemma for_loop_inv {S : Type} (P : nat → S → Prop) n body (s : S) :
  P 0 s →
  (∀ k s, k < n → P k s → P (Datatypes.S k) (body k s)) →
  P n (for_loop n body s).
Proof. intros H0 Hs. apply (for_from_inv P n body 0 s); [done|]. intros. apply Hs; [lia|done]. Qed.

Lemma for_loop_S {S : Type} n body (s : S) :
  for_loop (Datatypes.S n) body s = body n (for_loop n body s).
Proof.
  unfold for_loop.
  enough (∀ i s, for_from i (Datatypes.S n) body s = body (i + n) (for_from i n body s)) as H.
  { apply (H 0). }
  induction n as [|n IH]; intros i s'; [by rewrite Nat.add_0_r|].
  change (for_from (Datatypes.S i) (Datatypes.S n) body (body i s')
    = body (i + Datatypes.S n) (for_from (Datatypes.S i) n body (body i s'))).
  rewrite IH. f_equal. lia.
Qed.

(** A loop that stores [f k] at index [k] of a typed array: an index past the
    end stores nothing. *)
Lemma for_from_fill_lookup {A} (f : nat → A) i n (d : list A) j :
  for_from i n (λ k d, <[k := f k]> d) d !! j
  = if decide (i ≤ j < i + n ∧ j < length d) then Some (f j) else d !! j.
Proof.
  revert i d. induction n as [|n IH]; intros i d; simpl.
  - case_decide; [lia|done].
  - rewrite IH, length_insert. destruct (decide (i = j)) as [->|Hne].
    + rewrite decide_False by lia. case_decide.
      * by rewrite list_lookup_insert_eq by lia.
      * by rewrite list_insert_ge by lia.
    + rewrite list_lookup_insert_ne by done.
      destruct (decide (i ≤ j < i + S n ∧ j < length d)) as [?|?];
        [rewrite decide_True by lia|rewrite decide_False by lia]; done.
Qed.

Lemma for_from_fill_length {A} (f : nat → A) i n (d : list A) :
  length (for_from i n (λ k d, <[k := f k]> d) d) = length d.
Proof.
  revert i d. induction n as [|n IH]; intros i d; simpl; [done|].
  by rewrite IH, length_insert.
Qed.

(** ** Machine integers *)

Lemma int32_range z : (- 2 ^ 31 ≤ int32 z < 2 ^ 31)%Z.
Proof. unfold int32. pose proof (Z.mod_pos_bound (z + 2 ^ 31) (2 ^ 32)). lia. Qed.

Lemma int32_id z : (- 2 ^ 31 ≤ z < 2 ^ 31)%Z → int32 z = z.
Proof. intros ?. unfold int32. rewrite Z.mod_small; lia. Qed.

Lemma int32_int32_add z k : int32 (int32 z + k) = int32 (z + k).
Proof.
  unfold int32. f_equal.
  replace ((z + 2 ^ 31) `mod` 2 ^ 32 - 2 ^ 31 + k + 2 ^ 31)%Z
    with ((z + 2 ^ 31) `mod` 2 ^ 32 + k)%Z by lia.
  rewrite Zplus_mod_idemp_l. f_equal. lia.
Qed.

(** ** Lists *)

Lemma last_n_length {A} n (l : list A) : length (last_n n l) = n `min` length l.
Proof. unfold last_n. rewrite length_drop. lia. Qed.

Lemma last_n_all {A} n (l : list A) : length l ≤ n → last_n n l = l.
Proof. intros. unfold last_n. by replace (length l - n) with 0 by lia. Qed.

Lemma last_n_snoc_trim {A} n (l : list A) x :
  last_n (S n) (last_n (S n) l ++ [x]) = last_n (S n) (l ++ [x]).
Proof.
  unfold last_n. rewrite <- (drop_app_le l [x]) by lia.
  rewrite drop_drop, length_drop, !length_app. simpl. f_equal. lia.
Qed.

Lemma prefix_lookup_eq {A} (l1 l2 : list A) :
  length l1 ≤ length l2 → (∀ i, i < length l1 → l1 !! i = l2 !! i) → l1 `prefix_of` l2.
Proof.
  intros Hlen H. exists (drop (length l1) l2).
  apply list_eq. intros i. destruct (decide (i < length l1)).
  - rewrite lookup_app_l by done. by rewrite H.
  - rewrite lookup_app_r, lookup_drop by lia. f_equal. lia.
Qed.

Lemma foldl_inv {A B} (P : A → Prop) (f : A → B → A) a l :
  (∀ a b, P a → P (f a b)) → P a → P (foldl f a l).
Proof. intros Hf. revert a. induction l as [|b l IH]; intros a Ha; simpl; auto. Qed.

Lemma filter_all {A} (P : A → Prop) `{!∀ x, Decision (P x)} l : Forall P l → filter P l = l.
Proof. induction 1 as [|x l Hx _ IH]; [done|]. by rewrite filter_cons_True, IH. Qed.

Lemma filter_none {A} (P : A → Prop) `{!∀ x, Decision (P x)} l : Forall (λ x, ¬ P x) l → filter P l = [].
Proof. induction 1 as [|x l Hx _ IH]; [done|]. by rewrite filter_cons_False, IH. Qed.

Lemma elem_of_concat_map {A B} (f : A → list B) l k : k ∈ concat (map f l) ↔ ∃ i, i ∈ l ∧ k ∈ f i.
Proof.
  induction l as [|x l IH]; cbn [map concat].
  - split; [by intros ?%elem_of_nil|by intros (i & ?%elem_of_nil & _)].
  - rewrite elem_of_app, IH. setoid_rewrite elem_of_cons. naive_solver.
Qed.

Lemma concat_map_perm {A B} (f : A → list B) l k : l ≡ₚ k → concat (map f l) ≡ₚ concat (map f k).
Proof.
  induction 1 as [|x l k _ IH|x y l|l1 l2 l3 _ IH1 _ IH2]; cbn [map concat]; [done|by rewrite IH| |by rewrite IH1].
  rewrite !app_assoc. f_equiv. apply Permutation_app_comm.
Qed.

(** ** Automation *)

(** Case analysis on every match, [decide] and boolean test of the goal. *)
Ltac case_goal := repeat (case_match || case_decide || case_bool_decide).

Ltac bool_simpl :=
  repeat match goal with
  | H : (_ && _) = true |- _ => apply andb_true_iff in H as [? ?]
  | H : (_ || _) = false |- _ => apply orb_false_iff in H as [? ?]
  | H : negb _ = true |- _ => apply negb_true_iff in H
  | H : negb _ = false |- _ => apply negb_false_iff in H
  | H : bool_decide _ = true |- _ => apply bool_decide_eq_true in H
  | H : bool_decide _ = false |- _ => apply bool_decide_eq_false in H
  | H : (_ <? _)%Z = true |- _ => apply Z.ltb_lt in H
  | H : (_ <? _)%Z = false |- _ => apply Z.ltb_ge in H
  | H : (_ <=? _)%Z = true |- _ => apply Z.leb_le in H
  | H : (_ <=? _)%Z = false |- _ => apply Z.leb_gt in H
  | H : (_ =? _)%Z = true |- _ => apply Z.eqb_eq in H
  | H : (_ =? _)%Z = false |- _ => apply Z.eqb_neq in H
  end.

Create HintDb omd.
Create Rewrite HintDb omd.
#[export] Hint Resolve int32_range int32_id : omd.
#[export] Hint Rewrite @length_app @length_drop @length_take @length_insert @last_n_length : omd.
