(* ===== verification/JsString.v ===== *)
(** JavaScript strings, as strings of ASCII characters: [trim()],
    [toLowerCase()] and their laws, shared by every component that normalises
    what an operator typed or a server sent. *)
From S2P Require Import Prelude.

(** The ASCII white space that [trim()] removes. *)
Definition is_space (c : ascii) : bool :=
  existsb (Nat.eqb (nat_of_ascii c)) [9; 10; 11; 12; 13; 32].

Fixpoint trim_start (s : string) : string :=
  match s with
  | String c s' => if is_space c then trim_start s' else s
  | EmptyString => s
  end.

(** Removing trailing space: a character stays when something stays after it. *)
Fixpoint trim_end (s : string) : string :=
  match s with
  | String c s' =>
      match trim_end s' with
      | EmptyString => if is_space c then EmptyString else String c EmptyString
      | r => String c r
      end
  | EmptyString => s
  end.

Definition trim (s : string) : string := trim_end (trim_start s).

(** [s.toLowerCase()] on ASCII. *)
Definition lower (c : ascii) : ascii :=
  let n := nat_of_ascii c in if ((65 <=? n) && (n <=? 90))%nat then ascii_of_nat (n + 32) else c.
Definition toLowerCase (s : string) : string :=
  String.string_of_list_ascii (map lower (String.list_ascii_of_string s)).

Lemma lower_idem c : lower (lower c) = lower c.
Proof. by destruct c as [[] [] [] [] [] [] [] []]; vm_compute. Qed.

Lemma toLowerCase_idem s : toLowerCase (toLowerCase s) = toLowerCase s.
Proof.
  unfold toLowerCase. rewrite String.list_ascii_of_string_of_list_ascii, map_map. f_equal.
  apply map_ext. apply lower_idem.
Qed.

Lemma toLowerCase_empty s : toLowerCase s = "" ↔ s = "".
Proof. by destruct s. Qed.

(** A text that neither starts nor ends with white space. *)
Definition tight (s : string) : Prop :=
  match s with String c _ => is_space c = false | EmptyString => True end
  ∧ trim_end s = s.

Lemma trim_start_pad (ws s : string) :
  Forall (λ c, is_space c = true) (String.list_ascii_of_string ws) →
  trim_start (ws ++ s) = trim_start s.
Proof.
  induction ws as [|c ws IH]; simpl; [done|]. intros [Hc Hw]%Forall_cons. rewrite Hc. by apply IH.
Qed.

Lemma trim_end_spaces (ws : string) :
  Forall (λ c, is_space c = true) (String.list_ascii_of_string ws) → trim_end ws = "".
Proof.
  induction ws as [|c ws IH]; simpl; [done|]. intros [Hc Hw]%Forall_cons. by rewrite IH, Hc.
Qed.

Lemma trim_end_pad (ws s : string) :
  Forall (λ c, is_space c = true) (String.list_ascii_of_string ws) →
  trim_end (s ++ ws) = trim_end s.
Proof.
  intros Hw. induction s as [|c s IH]; simpl; [by apply trim_end_spaces|]. by rewrite IH.
Qed.

Lemma trim_start_spaces (ws : string) :
  Forall (λ c, is_space c = true) (String.list_ascii_of_string ws) → trim_start ws = "".
Proof. induction ws as [|c ws IH]; simpl; [done|]. intros [-> Hw]%Forall_cons. by apply IH. Qed.

Lemma trim_padded (ws1 s ws2 : string) :
  Forall (λ c, is_space c = true) (String.list_ascii_of_string ws1) →
  Forall (λ c, is_space c = true) (String.list_ascii_of_string ws2) →
  tight s → trim (ws1 ++ s ++ ws2) = s.
Proof.
  intros H1 H2 [Hs He]. unfold trim. rewrite trim_start_pad by done.
  destruct s as [|c s]; [by simpl; rewrite trim_start_spaces|].
  change (trim_start (String c s ++ ws2)) with
    (if is_space c then trim_start (s ++ ws2) else (String c s ++ ws2)%string).
  rewrite Hs. by rewrite trim_end_pad.
Qed.

Lemma trim_end_app p s : s ≠ "" → trim_end s = s → trim_end (p ++ s) = (p ++ s)%string.
Proof.
  intros Hne Hs. induction p as [|c p IH]; simpl; [done|]. rewrite IH.
  destruct p; simpl; [|done]. by destruct s.
Qed.

(** ** Case, and numbers as text *)

Definition upper (c : ascii) : ascii :=
  let n := nat_of_ascii c in if ((97 <=? n) && (n <=? 122))%nat then ascii_of_nat (n - 32) else c.
(** [s.toUpperCase()] on ASCII. *)
Definition toUpperCase (s : string) : string :=
  String.string_of_list_ascii (map upper (String.list_ascii_of_string s)).

Definition digit_of (c : ascii) : option Z :=
  let n := nat_of_ascii c in
  if ((48 <=? n) && (n <=? 57))%nat then Some (Z.of_nat n - 48)%Z else None.

Fixpoint read_digits (acc : Z) (s : string) : option Z :=
  match s with
  | EmptyString => Some acc
  | String c s' => match digit_of c with
                   | Some d => read_digits (10 * acc + d) s'
                   | None => None
                   end
  end.

Definition read_unsigned (s : string) : option Z :=
  match s with EmptyString => None | _ => read_digits 0 s end.

(** [Number(s)] on the decimal integers, blank text being 0 and [None] NaN (the
    fractional, exponent and radix forms of JavaScript are not read). *)
Definition Number_of_string (s : string) : option Z :=
  match trim s with
  | EmptyString => Some 0%Z
  | String "-" s' => Z.opp <$> read_unsigned s'
  | String "+" s' => read_unsigned s'
  | s' => read_unsigned s'
  end.

Definition all_digits (s : string) : Prop :=
  Forall (λ c, is_Some (digit_of c)) (String.list_ascii_of_string s).

Lemma digit_char (n : N) : (n < 10)%N → digit_of (pretty_N_char n) = Some (Z.of_N n).
Proof.
  intros Hn. assert (n = 0 ∨ n = 1 ∨ n = 2 ∨ n = 3 ∨ n = 4 ∨ n = 5 ∨ n = 6 ∨ n = 7 ∨ n = 8
    ∨ n = 9)%N as H by lia. naive_solver.
Qed.

Lemma digit_not_special c :
  is_Some (digit_of c) → is_space c = false ∧ c ≠ "-"%char ∧ c ≠ "+"%char.
Proof. destruct c as [[] [] [] [] [] [] [] []]; vm_compute; intros [? H]; try discriminate H; done. Qed.

Lemma trim_digits s : all_digits s → trim s = s.
Proof.
  intros H. unfold trim. assert (trim_start s = s) as ->.
  { destruct s as [|c s]; [done|]. simpl. apply Forall_cons in H as [H _].
    by rewrite (proj1 (digit_not_special c H)). }
  induction s as [|c s IH]; [done|]. apply Forall_cons in H as [Hc Hs]. simpl. rewrite IH by done.
  destruct s; [|done]. by rewrite (proj1 (digit_not_special c Hc)).
Qed.

Lemma pretty_go_digits n s : all_digits s → all_digits (pretty_N_go n s).
Proof.
  revert s. induction (N.lt_wf_0 n) as [n _ IH]; intros s Hs.
  destruct (decide (n = 0)%N) as [->|]; [by rewrite pretty_N_go_0|].
  rewrite pretty_N_go_step by lia. apply IH; [by apply N.div_lt; lia|].
  constructor; [|done]. rewrite digit_char by (by apply N.mod_lt). done.
Qed.

Lemma read_pretty_go n s :
  (0 < n)%N → read_digits 0 (pretty_N_go n s) = read_digits (Z.of_N n) s.
Proof.
  revert s. induction (N.lt_wf_0 n) as [n _ IH]; intros s Hn.
  rewrite pretty_N_go_step by done.
  assert (digit_of (pretty_N_char (n mod 10)) = Some (Z.of_N (n mod 10))) as Hd
    by (by apply digit_char, N.mod_lt).
  assert (10 * Z.of_N (n / 10) + Z.of_N (n mod 10) = Z.of_N n)%Z as Hz
    by (pose proof (N.div_mod n 10 ltac:(lia)); lia).
  destruct (decide (n / 10 = 0)%N) as [H0|].
  - rewrite H0, pretty_N_go_0. cbn [read_digits]. rewrite Hd. f_equal. lia.
  - rewrite IH; [|by apply N.div_lt; lia|by apply N.neq_0_lt_0]. cbn [read_digits]. by rewrite Hd, Hz.
Qed.

Lemma pretty_N_text n :
  all_digits (pretty n) ∧ read_unsigned (pretty n) = Some (Z.of_N n)
  ∧ ∃ c s, pretty n = String c s.
Proof.
  unfold pretty, pretty_N. case_decide as H0.
  - subst. split_and!; [by repeat constructor|done|by eexists _, _].
  - assert (all_digits (pretty_N_go n "")) as Hd by (by apply pretty_go_digits, Forall_nil).
    pose proof (read_pretty_go n "" ltac:(lia)) as Hr. simpl in Hr.
    destruct (pretty_N_go n "") as [|c s] eqn:He; [simpl in Hr; injection Hr; lia|].
    split_and!; [done|done|by eexists _, _].
Qed.

(** A number read back from its decimal text. *)
Lemma Number_pretty (z : Z) : Number_of_string (pretty z) = Some z.
Proof.
  assert (∀ n : N, Number_of_string (pretty n) = Some (Z.of_N n)) as HN.
  { intros n. destruct (pretty_N_text n) as (Hd & Hr & c & s & He). unfold Number_of_string.
    rewrite trim_digits by done. rewrite He in *. apply Forall_cons in Hd as [Hc _].
    destruct (digit_not_special c Hc) as (_ & H1 & H2).
    rewrite <- Hr. destruct c as [[] [] [] [] [] [] [] []]; done. }
  destruct z as [|p|p]; [done|apply (HN (Npos p))|].
  change (pretty (Z.neg p)) with (String "-" (pretty (Npos p))).
  destruct (pretty_N_text (Npos p)) as (Hd & Hr & c & s & He). unfold Number_of_string.
  assert (trim (String "-" (pretty (N.pos p))) = String "-" (pretty (N.pos p))) as ->.
  { unfold trim. cbn [trim_start]. change (is_space "-") with false. cbn iota. cbn [trim_end].
    assert (trim_end (pretty (N.pos p)) = pretty (N.pos p)) as ->.
    { pose proof (trim_digits _ Hd) as Ht. unfold trim in Ht. rewrite He in *.
      apply Forall_cons in Hd as [Hc _]. simpl in Ht.
      by rewrite (proj1 (digit_not_special c Hc)) in Ht. }
    by rewrite He. }
  cbn iota. by rewrite Hr.
Qed.

(** ** Decimal digits of a fixed width *)

Fixpoint zeros (n : nat) : string := match n with O => "" | S n => String "0" (zeros n) end.

(** [s.padStart(width, '0')]. *)
Definition padStart0 (width : nat) (s : string) : string :=
  (zeros (width - String.length s) ++ s)%string.

(** The last [k] digits of [n], in front of [s]. *)
Fixpoint digits_of (k : nat) (n : N) (s : string) : string :=
  match k with
  | O => s
  | S k => digits_of k (n / 10) (String (pretty_N_char (n mod 10)) s)
  end.

Lemma zeros_snoc k s : (zeros k ++ String "0" s)%string = String "0" (zeros k ++ s).
Proof. induction k as [|k IH]; [done|]. exact (f_equal (String "0") IH). Qed.

Lemma digits_of_0 k s : digits_of k 0 s = (zeros k ++ s)%string.
Proof.
  revert s. induction k as [|k IH]; intros s; [done|]. cbn [digits_of zeros].
  change (0 / 10)%N with 0%N. change (pretty_N_char (0 mod 10)) with "0"%char.
  by rewrite IH, zeros_snoc.
Qed.

Lemma div_pow10 n k : (n < 10 ^ N.of_nat (S k) → n / 10 < 10 ^ N.of_nat k)%N.
Proof. intros H. apply N.Div0.div_lt_upper_bound. rewrite Nat2N.inj_succ, N.pow_succ_r' in H. lia. Qed.

Lemma pad_go k n s :
  (n < 10 ^ N.of_nat k)%N →
  ∃ j, j ≤ k ∧ String.length (pretty_N_go n s) = j + String.length s
    ∧ (zeros (k - j) ++ pretty_N_go n s)%string = digits_of k n s.
Proof.
  revert n s. induction k as [|k IH]; intros n s Hn.
  - assert (n = 0)%N as -> by (simpl in Hn; lia). by exists 0.
  - destruct (decide (n = 0)%N) as [->|H0].
    + exists 0. rewrite pretty_N_go_0, digits_of_0. split; [lia|done].
    + rewrite pretty_N_go_step by lia.
      destruct (IH (n / 10)%N (String (pretty_N_char (n mod 10)) s) (div_pow10 _ _ Hn))
        as (j & Hj & Hl & He).
      exists (S j). split; [lia|]. split; [rewrite Hl; simpl; lia|]. exact He.
Qed.

Lemma padStart0_pretty k n :
  0 < k → (n < 10 ^ N.of_nat k)%N → padStart0 k (pretty n) = digits_of k n "".
Proof.
  intros Hk Hn. unfold padStart0, pretty, pretty_N. case_decide as H0.
  - subst. rewrite digits_of_0. destruct k as [|k]; [lia|]. simpl. rewrite Nat.sub_0_r.
    by rewrite zeros_snoc.
  - destruct (pad_go k n "" Hn) as (j & Hj & Hl & He). rewrite Hl. simpl. by rewrite Nat.add_0_r.
Qed.

Lemma digits_of_app k n s : digits_of k n s = (digits_of k n "" ++ s)%string.
Proof.
  revert n s. induction k as [|k IH]; intros n s; [done|]. cbn [digits_of].
  rewrite IH, (IH _ (String _ "")). generalize (digits_of k (n / 10) ""). intros u.
  induction u as [|c u IHu]; [done|]. exact (f_equal (String c) IHu).
Qed.

Lemma digits_of_length k n s : String.length (digits_of k n s) = k + String.length s.
Proof. revert n s. induction k as [|k IH]; intros n s; simpl; [done|]. rewrite IH. simpl. lia. Qed.

Lemma digits_of_digits k n s : all_digits s → all_digits (digits_of k n s).
Proof.
  revert n s. induction k as [|k IH]; intros n s Hs; simpl; [done|]. apply IH. constructor; [|done].
  by rewrite digit_char by (by apply N.mod_lt).
Qed.

(** The upper [p] of [q + p] digits. *)
Lemma digits_of_split q p n s : ∃ t, digits_of (q + p) n s = digits_of p (n / 10 ^ N.of_nat q) t.
Proof.
  revert n s. induction q as [|q IH]; intros n s.
  - exists s. by rewrite N.div_1_r.
  - destruct (IH (n / 10)%N (String (pretty_N_char (n mod 10)) s)) as (t & Ht). exists t.
    cbn [digits_of Nat.add]. rewrite Ht, Nat2N.inj_succ, N.pow_succ_r', N.Div0.div_div. done.
Qed.

Lemma substring_app u t : String.substring 0 (String.length u) (u ++ t) = u.
Proof. induction u as [|c u IH]; [by destruct t|]. exact (f_equal (String c) IH). Qed.

(** [s.slice(0, p)] of a fixed-width number keeps its upper digits. *)
Lemma slice_digits q p n :
  String.substring 0 p (digits_of (q + p) n "") = digits_of p (n / 10 ^ N.of_nat q) "".
Proof.
  destruct (digits_of_split q p n "") as (t & ->). rewrite digits_of_app.
  pose proof (substring_app (digits_of p (n / 10 ^ N.of_nat q) "") t) as H.
  by rewrite digits_of_length, Nat.add_0_r in H.
Qed.

Lemma read_digits_of k n a s :
  (n < 10 ^ N.of_nat k)%N →
  read_digits a (digits_of k n s) = read_digits (a * 10 ^ Z.of_nat k + Z.of_N n)%Z s.
Proof.
  revert n a s. induction k as [|k IH]; intros n a s Hn.
  - simpl in *. f_equal. lia.
  - cbn [digits_of]. rewrite (IH _ _ _ (div_pow10 _ _ Hn)). cbn [read_digits].
    rewrite digit_char by (by apply N.mod_lt). f_equal.
    rewrite (Nat2Z.inj_succ k), Z.pow_succ_r by lia.
    pose proof (N.div_mod n 10 ltac:(lia)). lia.
Qed.
