(* ===== verification/JsNumber.v ===== *)
(** JavaScript numbers where rounding shows: IEEE 754 doubles with the operations
    of [SpecFloat], [Math.round] and [toFixed] on the exact value of a double. *)
From S2P Require Import Prelude JsString.
From Stdlib Require Import Floats.SpecFloat.

Local Open Scope Z_scope.

Abbreviation number := spec_float.

(** The double nearest to an integer. *)
Definition of_int (z : Z) : number := binary_normalize 53 1024 z 0 false.

Definition fdiv : number → number → number := SFdiv 53 1024.
Definition fmul : number → number → number := SFmul 53 1024.
Definition fsub : number → number → number := SFsub 53 1024.
Definition fadd : number → number → number := SFadd 53 1024.

(** A decimal literal, [n / 10^k]. *)
Definition decimal (n k : Z) : number := fdiv (of_int n) (of_int (10 ^ k)).

(** [x < y]; false with a NaN. *)
Definition flt (x y : number) : bool :=
  match SFcompare x y with Some Lt => true | _ => false end.
Definition fle (x y : number) : bool :=
  match SFcompare x y with Some Lt | Some Eq => true | _ => false end.

(** [floor(x * scale + 1/2)] of the exact value of [x]; [None] for NaN and the
    infinities. *)
Definition round_scaled (scale : Z) (x : number) : option Z :=
  match x with
  | S754_zero _ => Some 0
  | S754_finite s m e =>
      let z := scale * (if s then Z.neg m else Z.pos m) in
      if 0 <=? e then Some (z * 2 ^ e) else Some ((2 * z + 2 ^ (- e)) / 2 ^ (1 - e))
  | _ => None
  end.

(** [Math.round(x)]. *)
Definition Math_round (x : number) : option Z := round_scaled 1 x.

Definition is_negative (x : number) : bool := flt x (S754_zero false).

(** [x.toFixed(digits)] below 10{^21}. *)
Definition toFixed (digits : nat) (x : number) : string :=
  let magnitude (n : Z) :=
    if decide (digits = 0%nat) then pretty n
    else (pretty (n / 10 ^ Z.of_nat digits) ++ "."
          ++ padStart0 digits (pretty (n mod 10 ^ Z.of_nat digits)))%string in
  match round_scaled (10 ^ Z.of_nat digits) (SFabs x) with
  | Some n => ((if is_negative x then "-" else "") ++ magnitude n)%string
  | None =>
      match x with
      | S754_infinity false => "Infinity" | S754_infinity true => "-Infinity" | _ => "NaN"
      end
  end.

(** A quotient of integers as JavaScript rounds and prints it. *)
Example toFixed_half_down : toFixed 2 (fdiv (of_int 1005000) (of_int 1000000)) = "1.00"%string.
Proof. vm_compute. reflexivity. Qed.
Example toFixed_plain : toFixed 1 (fdiv (of_int 1536) (of_int 1024)) = "1.5"%string.
Proof. vm_compute. reflexivity. Qed.
