(* ===== verification/Numeric.v ===== *)
(** Arithmetic as an interface: code on numbers is written once over [Arith] and
    [Rounding], and read twice, on the doubles it runs on and on exact rationals,
    for which bounds are proved. *)
From S2P Require Import Prelude JsNumber.
From Stdlib Require Import QArith Qround Lqa Floats.SpecFloat.

Local Close Scope Q_scope.

(** The exact value of a finite double. *)
Definition finite_value (x : number) : option Q :=
  match x with
  | S754_zero _ => Some 0%Q
  | S754_finite s m e =>
      let z := if s then Z.neg m else Z.pos m in
      Some (if (0 <=? e)%Z then inject_Z (z * 2 ^ e) else (z # Z.to_pos (2 ^ (- e)))%Q)
  | _ => None
  end.

(** [lit n k] is the literal n / 10^k. *)
Class Arith (N : Type) := {
  lit : Z → Z → N;
  add : N → N → N; sub : N → N → N; mul : N → N → N; div : N → N → N;
  lt : N → N → bool; le : N → N → bool
}.

#[export] Instance doubles : Arith number :=
  {| lit := decimal; add := fadd; sub := fsub; mul := fmul; div := fdiv; lt := flt; le := fle |}.

#[export] Instance rationals : Arith Q :=
  {| lit n k := Qmake n (Z.to_pos (10 ^ k)); add := Qplus; sub := Qminus; mul := Qmult; div := Qdiv;
     lt x y := negb (Qle_bool y x); le := Qle_bool |}.

(** [Math.floor] and [Math.round]; a number that is not finite compares with no
    index, as 0 does. *)
Class Rounding (N : Type) := { floor : N → Z; round : N → Z }.

#[export] Instance doubles_round : Rounding number :=
  {| floor x := match finite_value x with Some q => Qfloor q | None => 0%Z end;
     round x := default 0%Z (Math_round x) |}.

#[export] Instance rationals_round : Rounding Q :=
  {| floor := Qfloor; round x := Qfloor (x + (1 # 2))%Q |}.

Section Arithmetic.
Context {N : Type} `{Arith N}.

Definition int (z : Z) : N := lit z 0.
Definition Math_abs (x : N) : N := if lt x (int 0) then sub (int 0) x else x.
Definition Math_sign (x : N) : N := if lt (int 0) x then int 1 else if lt x (int 0) then int (-1) else int 0.
Definition Math_max (x y : N) : N := if lt x y then y else x.
Definition Math_min (x y : N) : N := if lt y x then y else x.
(** [Math.abs(x) || d]. *)
Definition abs_or (x d : N) : N := let a := Math_abs x in if lt (int 0) a then a else d.
(** [x !== 0]. *)
Definition nonzero (x : N) : bool := lt x (int 0) || lt (int 0) x.
(** What [sort] makes of the difference of two numbers. *)
Definition cmp_of (d : N) : Z := if lt d (int 0) then -1 else if lt (int 0) d then 1 else 0.
End Arithmetic.

(** ** The exact instance *)

(** The whole constants, as [lra] reads them. *)
Ltac eval_ints :=
  repeat match goal with
  | |- context [@int Q _ ?z] => let v := eval vm_compute in (@int Q _ z) in change (@int Q _ z) with v
  | H : context [@int Q _ ?z] |- _ => let v := eval vm_compute in (@int Q _ z) in change (@int Q _ z) with v in H
  end.

Section Exact.
Local Open Scope Q_scope.

Lemma lt_Q (x y : Q) : lt x y = true ↔ x < y.
Proof.
  cbn. rewrite negb_true_iff, <- not_true_iff_false, Qle_bool_iff. split; [apply Qnot_le_lt|apply Qlt_not_le].
Qed.
Lemma nlt_Q (x y : Q) : lt x y = false ↔ y <= x.
Proof. cbn. by rewrite negb_false_iff, Qle_bool_iff. Qed.

Lemma nle_Q (x y : Q) : le x y = false → y < x.
Proof. cbn. rewrite <- not_true_iff_false, Qle_bool_iff. apply Qnot_le_lt. Qed.

Lemma int_le (a b c : Z) : (a <= b - c)%Z → (a # 1) <= int (N := Q) b - int (N := Q) c.
Proof. intros Hz. unfold Qle. cbn. lia. Qed.

Lemma abs_Q (x : Q) : 0 <= Math_abs x ∧ (Math_abs x == x ∨ Math_abs x == - x).
Proof.
  unfold Math_abs. destruct (lt x _) eqn:E; [apply lt_Q in E|apply nlt_Q in E]; eval_ints; cbn in *; split; lra.
Qed.

Lemma min_Q (x y : Q) : Math_min x y <= x ∧ Math_min x y <= y ∧ (Math_min x y = x ∨ Math_min x y = y).
Proof.
  unfold Math_min. destruct (lt y x) eqn:E; [apply lt_Q in E|apply nlt_Q in E]; split_and!; auto; lra.
Qed.

Lemma max_Q (x y : Q) : x <= Math_max x y ∧ y <= Math_max x y ∧ (Math_max x y = x ∨ Math_max x y = y).
Proof.
  unfold Math_max. destruct (lt x y) eqn:E; [apply lt_Q in E|apply nlt_Q in E]; split_and!; auto; lra.
Qed.

Lemma round_Q (x : Q) (a b : Z) : inject_Z a <= x <= inject_Z b → (a <= round x <= b)%Z.
Proof.
  intros [Ha Hb]. change (round x) with (Qfloor (x + (1 # 2))). split.
  - rewrite <- (Qfloor_Z a). apply Qfloor_resp_le. lra.
  - replace b with (Qfloor (inject_Z b + (1 # 2))).
    + apply Qfloor_resp_le. lra.
    + unfold Qfloor, inject_Z, Qplus. cbn. symmetry. apply (Z.div_unique _ _ _ 1); lia.
Qed.
End Exact.
