(* ===== verification/JsList.v ===== *)
(** JavaScript's [split], [join], array sort and [Map], shared by the components
    that group and order what a server sent. *)
From S2P Require Import Prelude.
Open Scope js_scope.

(** [s.split(c)] for a one-character separator. *)
Fixpoint split (c : ascii) (s : string) : list string :=
  match s with
  | EmptyString => [""]
  | String a s' =>
      if bool_decide (a = c) then "" :: split c s'
      else match split c s' with
           | p :: ps => String a p :: ps
           | [] => [String a ""]
           end
  end.

(** [l.join(sep)]. *)
Definition join (sep : string) (l : list string) : string := String.concat sep l.

Definition or_str (a d : string) : string := if decide (a = "") then d else a.

(** [l.sort(cmp)]: stable. *)
Fixpoint sort_insert {A} (cmp : A → A → Z) (x : A) (l : list A) : list A :=
  match l with
  | [] => [x]
  | y :: l' => if (cmp x y <=? 0)%Z then x :: l else y :: sort_insert cmp x l'
  end.
Definition sort {A} (cmp : A → A → Z) (l : list A) : list A := foldr (sort_insert cmp) [] l.

(** The order of [sort()] without a comparator. *)
Definition compare_units (a b : string) : Z :=
  match String.compare a b with Lt => -1 | Eq => 0 | Gt => 1 end.

(** JavaScript's [Map]: a key keeps the place of its first insertion. *)
Fixpoint map_set {A} (k : string) (v : A) (m : list (string * A)) : list (string * A) :=
  match m with
  | [] => [(k, v)]
  | (k', v') :: m' => if decide (k' = k) then (k, v) :: m' else (k', v') :: map_set k v m'
  end.
Fixpoint map_get {A} (k : string) (m : list (string * A)) : option A :=
  match m with
  | [] => None
  | (k', v) :: m' => if decide (k' = k) then Some v else map_get k m'
  end.

(** ** Sorting *)

Lemma sort_insert_perm {A} (cmp : A → A → Z) x l : sort_insert cmp x l ≡ₚ x :: l.
Proof.
  induction l as [|y l IH]; simpl; [done|]. destruct (cmp x y <=? 0)%Z; [done|].
  rewrite IH. apply Permutation_swap.
Qed.

Lemma sort_perm {A} (cmp : A → A → Z) l : sort cmp l ≡ₚ l.
Proof. induction l as [|x l IH]; simpl; [done|]. by rewrite sort_insert_perm, IH. Qed.

(** A comparator [sort] can rely on. *)
Definition cmp_laws {A} (cmp : A → A → Z) : Prop :=
  (∀ x y, (cmp x y <= 0)%Z ∨ (cmp y x <= 0)%Z)
  ∧ (∀ x y z, (cmp x y <= 0)%Z → (cmp y z <= 0)%Z → (cmp x z <= 0)%Z).

Lemma sort_sorted {A} (cmp : A → A → Z) l :
  cmp_laws cmp → StronglySorted (λ x y, (cmp x y <= 0)%Z) (sort cmp l).
Proof.
  intros [Htot Htr]. induction l as [|x l IH]; simpl; [constructor|].
  induction (sort cmp l) as [|y r IHr]; simpl; [by repeat constructor|].
  apply StronglySorted_inv in IH as [IH1 IH2].
  destruct (Z.leb_spec (cmp x y) 0).
  - constructor; [by constructor|]. constructor; [done|]. eapply Forall_impl; [exact IH2|].
    simpl. intros z. by apply Htr.
  - constructor; [by apply IHr|]. rewrite sort_insert_perm. constructor; [|done].
    destruct (Htot x y); [lia|done].
Qed.

(** ** Maps *)

Lemma map_set_keys {A} k (v : A) m : k ∈ map fst m → map fst (map_set k v m) = map fst m.
Proof.
  induction m as [|[k' v'] m IH]; simpl; [by intros ?%elem_of_nil|].
  intros [->|H]%elem_of_cons; [by rewrite decide_True|]. case_decide; [by subst|]. simpl. by rewrite IH.
Qed.

Lemma map_set_new {A} k (v : A) m : k ∉ map fst m → map_set k v m = m ++ [(k, v)].
Proof.
  induction m as [|[k' v'] m IH]; simpl; [done|]. intros [H1 H2]%not_elem_of_cons.
  rewrite decide_False by done. by rewrite IH.
Qed.

Lemma map_set_elem {A} k (v : A) m e : e ∈ map_set k v m → e = (k, v) ∨ e ∈ m.
Proof.
  induction m as [|[k' v'] m IH]; simpl; [rewrite list_elem_of_singleton; auto|].
  case_decide; rewrite !elem_of_cons; naive_solver.
Qed.

Lemma map_get_Some {A} k (m : list (string * A)) v : map_get k m = Some v → (k, v) ∈ m.
Proof.
  induction m as [|[k' v'] m IH]; simpl; [done|]. case_decide; [|intros Hg; right; by apply IH].
  intros [= ->]. subst. by left.
Qed.

Lemma map_get_None {A} k (m : list (string * A)) : map_get k m = None ↔ k ∉ map fst m.
Proof.
  induction m as [|[k' v'] m IH]; simpl; [split; [by intros _ ?%elem_of_nil|done]|].
  rewrite not_elem_of_cons. case_decide; [naive_solver|]. rewrite IH. naive_solver.
Qed.

Lemma map_get_elem {A} k v (m : list (string * A)) :
  NoDup (map fst m) → (k, v) ∈ m → map_get k m = Some v.
Proof.
  induction m as [|[k' v'] m IH]; simpl; [by intros _ ?%elem_of_nil|].
  intros [Hn Hd]%NoDup_cons [[= -> ->]|H]%elem_of_cons; [by rewrite decide_True|].
  rewrite decide_False; [by apply IH|]. intros ->. apply Hn. by apply (list_elem_of_fmap_2 fst) in H.
Qed.

Lemma map_set_key_in {A} k (v : A) m id : id ∈ map fst (map_set k v m) ↔ id = k ∨ id ∈ map fst m.
Proof.
  destruct (decide (k ∈ map fst m)) as [Hin|Hin].
  - rewrite map_set_keys by done. naive_solver.
  - rewrite map_set_new, map_app, elem_of_app by done. simpl. rewrite list_elem_of_singleton. naive_solver.
Qed.

Lemma sorted_lookup {A} (R : A → A → Prop) l i j a b :
  StronglySorted R l → l !! i = Some a → l !! j = Some b → i < j → R a b.
Proof.
  intros Hs. revert i j. induction Hs as [|x l Hs IH Hx]; intros i j; [done|].
  destruct i as [|i], j as [|j]; simpl; try lia.
  - intros [= ->] Hb _. rewrite Forall_forall in Hx. eapply Hx, list_elem_of_lookup_2, Hb.
  - intros Ha Hb ?. eapply IH; [exact Ha|exact Hb|lia].
Qed.

Lemma map_get_set {A} k k' (v : A) m :
  map_get k (map_set k' v m) = if decide (k' = k) then Some v else map_get k m.
Proof.
  induction m as [|[k1 v1] m IH]; simpl; [done|].
  destruct (decide (k1 = k')) as [->|]; simpl; [by case_decide|].
  destruct (decide (k1 = k)) as [->|]; [by rewrite decide_False|]. exact IH.
Qed.

Lemma map_set_NoDup {A} k (v : A) m : NoDup (map fst m) → NoDup (map fst (map_set k v m)).
Proof.
  intros Hm. destruct (decide (k ∈ map fst m)) as [Hin|Hin]; [by rewrite map_set_keys|].
  rewrite map_set_new, map_app by done. apply NoDup_app. split_and?; [done| |apply NoDup_singleton].
  by intros x Hx ->%list_elem_of_singleton.
Qed.
