(* ===== verification/JsDate.v ===== *)
(** JavaScript's calendar: the UTC fields of a time in milliseconds, and the text of
    [toISOString].  The year is found from an estimate and one correction, proved
    to be enough for every day. *)
From S2P Require Import Prelude JsString.
Open Scope js_scope.
Open Scope Z_scope.

(** ** Days, years and months *)

Definition msPerDay : Z := 86400000.
Definition Day (t : Z) : Z := t / msPerDay.
Definition TimeWithinDay (t : Z) : Z := t mod msPerDay.

(** The day number of January 1. *)
Definition DayFromYear (y : Z) : Z :=
  365 * (y - 1970) + (y - 1969) / 4 - (y - 1901) / 100 + (y - 1601) / 400.

Definition leap (y : Z) : bool :=
  (y mod 4 =? 0) && (negb (y mod 100 =? 0) || (y mod 400 =? 0)).

Definition YearFromDay (d : Z) : Z :=
  let y := 1970 + d * 400 / 146097 in
  if d <? DayFromYear y then y - 1 else if DayFromYear (y + 1) <=? d then y + 1 else y.

(** The days of a year before each of its months. *)
Definition month_starts (l : bool) : list Z :=
  let b := Z.b2z l in [0; 31; 59 + b; 90 + b; 120 + b; 151 + b; 181 + b; 212 + b; 243 + b; 273 + b; 304 + b; 334 + b].

Record fields := mk_fields { year : Z; month : Z; day : Z; hours : Z; minutes : Z; seconds : Z; millis : Z }.

(** The month whose start is the last one not after [d], and the day in it. *)
Definition month_of (l : bool) (d : Z) : Z * Z :=
  let before := filter (λ s, s <= d) (month_starts l) in
  (Z.of_nat (length before), d - List.last before 0 + 1).

Definition utc (t : Z) : fields :=
  let y := YearFromDay (Day t) in
  let (m, d) := month_of (leap y) (Day t - DayFromYear y) in
  let r := TimeWithinDay t in
  mk_fields y m d (r / 3600000) (r / 60000 mod 60) (r / 1000 mod 60) (r mod 1000).

(** ** Text *)

Definition pad (k : nat) (n : Z) : string := padStart0 k (pretty n).

Definition iso_year (y : Z) : string :=
  if (0 <=? y) && (y <=? 9999) then pad 4 y
  else ((if (y <? 0)%Z then "-" else "+") ++ pad 6 (Z.abs y))%string.

Definition toISOString (t : Z) : string :=
  let f := utc t in
  (iso_year (year f) ++ "-" ++ pad 2 (month f) ++ "-" ++ pad 2 (day f) ++ "T"
   ++ pad 2 (hours f) ++ ":" ++ pad 2 (minutes f) ++ ":" ++ pad 2 (seconds f)
   ++ "." ++ pad 3 (millis f) ++ "Z")%string.

(** [s.slice(i, j)], for [0 <= i <= j]. *)
Definition slice (i j : nat) (s : string) : string := String.substring i (j - i) s.

(** ** Lemmas *)

Lemma year_length y : DayFromYear (y + 1) - DayFromYear y = 365 + Z.b2z (leap y).
Proof.
  unfold DayFromYear, leap.
  destruct (Z.eqb_spec (y mod 4) 0), (Z.eqb_spec (y mod 100) 0), (Z.eqb_spec (y mod 400) 0);
    cbn [andb orb negb Z.b2z]; Z.div_mod_to_equations; lia.
Qed.

Lemma YearFromDay_spec d : DayFromYear (YearFromDay d) <= d < DayFromYear (YearFromDay d + 1).
Proof.
  unfold YearFromDay. cbv zeta. destruct (Z.ltb_spec d (DayFromYear (1970 + d * 400 / 146097))) as [H|H];
    [|destruct (Z.leb_spec (DayFromYear (1970 + d * 400 / 146097 + 1)) d) as [H'|H']].
  - split; [|by rewrite Z.sub_add]. clear H. unfold DayFromYear. Z.div_mod_to_equations. lia.
  - split; [done|]. clear H H'. unfold DayFromYear. Z.div_mod_to_equations. lia.
  - lia.
Qed.

(** The day of a year on which its month [m] begins; month 13 is the next year. *)
Definition month_start (l : bool) (m : Z) : Z := nth (Z.to_nat (m - 1)) (month_starts l) (365 + Z.b2z l).

Ltac pick_filter := repeat first [rewrite filter_cons_True by lia | rewrite filter_cons_False by lia].

Ltac eval_to_nat :=
  repeat match goal with |- context [Z.to_nat ?e] => let v := eval vm_compute in (Z.to_nat e) in change (Z.to_nat e) with v end.

Lemma month_of_spec l d :
  0 <= d < 365 + Z.b2z l →
  let (m, e) := month_of l d in
  1 <= m <= 12 ∧ d = month_start l m + e - 1 ∧ 1 <= e ∧ d < month_start l (m + 1).
Proof.
  intros Hd. unfold month_of, month_starts. cbv zeta. destruct l; cbn [Z.b2z] in Hd |- *; simpl Z.add;
    (assert (d < 31 ∨ 31 <= d < 59 ∨ 59 <= d < 60 ∨ 60 <= d < 90 ∨ 90 <= d < 91 ∨ 91 <= d < 120 ∨ 120 <= d < 121
      ∨ 121 <= d < 151 ∨ 151 <= d < 152 ∨ 152 <= d < 181 ∨ 181 <= d < 182 ∨ 182 <= d < 212 ∨ 212 <= d < 213
      ∨ 213 <= d < 243 ∨ 243 <= d < 244 ∨ 244 <= d < 273 ∨ 273 <= d < 274 ∨ 274 <= d < 304 ∨ 304 <= d < 305
      ∨ 305 <= d < 334 ∨ 334 <= d < 335 ∨ 335 <= d) as H by lia;
     repeat (destruct H as [H|H]); pick_filter; rewrite filter_nil; unfold month_start; cbn; eval_to_nat; cbn; lia).
Qed.

(** ** Properties *)

(** The fields of a time are a date of the calendar and a time of day, and they
    determine it. *)
Theorem utc_calendar t :
  let f := utc t in let l := leap (year f) in
  1 <= month f <= 12 ∧ 1 <= day f <= month_start l (month f + 1) - month_start l (month f)
  ∧ 0 <= hours f < 24 ∧ 0 <= minutes f < 60 ∧ 0 <= seconds f < 60 ∧ 0 <= millis f < 1000
  ∧ (DayFromYear (year f) + month_start l (month f) + day f - 1) * msPerDay
    + hours f * 3600000 + minutes f * 60000 + seconds f * 1000 + millis f = t.
Proof.
  intros f l. pose proof (YearFromDay_spec (Day t)) as Hy. pose proof (year_length (YearFromDay (Day t))) as Hl.
  pose proof (month_of_spec (leap (YearFromDay (Day t))) (Day t - DayFromYear (YearFromDay (Day t))) ltac:(lia)) as Hm.
  subst f l. unfold utc. cbv zeta. destruct (month_of _ _) as [m e]. cbn [year month day hours minutes seconds millis].
  destruct Hm as (Hm & He & He1 & Hn). split; [lia|]. split; [lia|]. clear Hy Hl. revert He.
  generalize (DayFromYear (YearFromDay (Day t))) (month_start (leap (YearFromDay (Day t))) m). intros a b He.
  clear Hm Hn He1. unfold TimeWithinDay, Day, msPerDay in *.
  split_and!; Z.div_mod_to_equations; lia.
Qed.

Lemma pad_digits k n : (0 < k)%nat → 0 <= n < 10 ^ Z.of_nat k → pad k n = digits_of k (Z.to_N n) "".
Proof.
  intros Hk Hn. unfold pad. rewrite <- padStart0_pretty; [|done|].
  - f_equal. by destruct n as [|p|p]; [|done|lia].
  - apply N2Z.inj_lt. rewrite Z2N.id, N2Z.inj_pow, nat_N_Z by lia. change (Z.of_N 10) with 10. lia.
Qed.

Lemma pad_length k n : (0 < k)%nat → 0 <= n < 10 ^ Z.of_nat k → String.length (pad k n) = k.
Proof. intros Hk Hn. rewrite pad_digits, digits_of_length by done. cbn. lia. Qed.

Lemma read_pad k n : (0 < k)%nat → 0 <= n < 10 ^ Z.of_nat k → read_digits 0 (pad k n) = Some n.
Proof.
  intros Hk Hn. rewrite pad_digits by done. rewrite read_digits_of.
  - cbn [read_digits]. f_equal. lia.
  - apply N2Z.inj_lt. rewrite Z2N.id, N2Z.inj_pow, nat_N_Z by lia. change (Z.of_N 10) with 10. lia.
Qed.

Lemma substring_mid u v w : String.substring (String.length u) (String.length v) (u ++ v ++ w)%string = v.
Proof. induction u as [|c u IH]; [exact (substring_app v w)|exact IH]. Qed.

Lemma string_app_assoc (u v w : string) : ((u ++ v) ++ w = u ++ (v ++ w))%string.
Proof. induction u as [|c u IH]; [done|]. exact (f_equal (String c) IH). Qed.

Lemma length_append u v : String.length (u ++ v)%string = (String.length u + String.length v)%nat.
Proof. induction u as [|c u IH]; [done|]. exact (f_equal S IH). Qed.

(** In the years of four digits the text starts with the date, ten characters long,
    and the time of day stands at the eleventh, eight characters long; the digits
    read back. *)
Theorem iso_slices t :
  0 <= year (utc t) <= 9999 →
  let f := utc t in
  slice 0 10 (toISOString t) = (pad 4 (year f) ++ "-" ++ pad 2 (month f) ++ "-" ++ pad 2 (day f))%string
  ∧ slice 11 19 (toISOString t) = (pad 2 (hours f) ++ ":" ++ pad 2 (minutes f) ++ ":" ++ pad 2 (seconds f))%string
  ∧ read_digits 0 (pad 4 (year f)) = Some (year f) ∧ read_digits 0 (pad 2 (month f)) = Some (month f)
  ∧ read_digits 0 (pad 2 (day f)) = Some (day f).
Proof.
  intros Hy f. change (0 <= year f <= 9999) in Hy. destruct (utc_calendar t) as (Hm & Hd & Hh & Hmi & Hs & _ & _). cbv zeta in *. fold f in Hm, Hd, Hh, Hmi, Hs.
  assert (1 <= day f <= 31) as Hd'.
  { destruct Hd as [H1 H2]. split; [done|]. revert H2. generalize (day f). intros e H2.
    assert (1 <= month f < 1 + 12) as Hm' by lia.
    assert (∀ l, Forall (λ m, month_start l (m + 1) - month_start l m <= 31) (seqZ 1 12)) as Hall
      by (intros []; vm_compute; repeat constructor; discriminate).
    pose proof (proj1 (Forall_forall _ _) (Hall (leap (year f))) (month f) (proj2 (elem_of_seqZ _ _ _) Hm')) as H3.
    cbv beta in H3. lia. }
  assert (toISOString t = (pad 4 (year f) ++ "-" ++ pad 2 (month f) ++ "-" ++ pad 2 (day f)) ++ "T"
    ++ (pad 2 (hours f) ++ ":" ++ pad 2 (minutes f) ++ ":" ++ pad 2 (seconds f))
    ++ "." ++ pad 3 (millis f) ++ "Z")%string as He.
  { unfold toISOString. fold f. cbv zeta. unfold iso_year.
    rewrite (proj2 (Z.leb_le 0 _)), (proj2 (Z.leb_le _ 9999)) by lia. cbn [andb]. by rewrite !string_app_assoc. }
  rewrite He. clear He. clearbody f. unfold slice. split_and!.
  - match goal with |- String.substring 0 _ (?u ++ _) = _ => rewrite <- (substring_app u) at 2; f_equal end.
    rewrite !length_append, !pad_length by (cbn; lia). done.
  - match goal with |- String.substring _ _ (?u ++ "T" ++ ?v ++ ?w) = _ =>
      rewrite <- (string_app_assoc u "T"); rewrite <- (substring_mid (u ++ "T") v w) at 2; f_equal end;
      rewrite !length_append, !pad_length by (cbn; lia); done.
  - apply read_pad; cbn; lia.
  - apply read_pad; cbn; lia.
  - apply read_pad; cbn; lia.
Qed.

Example iso_epoch :
  toISOString 0 = "1970-01-01T00:00:00.000Z" ∧ toISOString 951782400000 = "2000-02-29T00:00:00.000Z"
  ∧ toISOString (-1) = "1969-12-31T23:59:59.999Z" ∧ toISOString 253402300800000 = "+010000-01-01T00:00:00.000Z".
Proof. vm_compute. done. Qed.
