(* ===== verification/VisibleInterval.v ===== *)
(** [hooks/useVisibleInterval.js]: the polling hook that pauses while the tab is
    hidden.

    The second effect of the hook closes over its own [intervalId]; the effect in
    force is its period with that variable.  [intervals] are the intervals that
    run in the browser and [listeners] the number of registered
    [visibilitychange] handlers, which only this hook touches.  Every operation
    also returns the callbacks it called; what a callback throws is swallowed. *)
From S2P Require Import Prelude.

Section hook.
  Context {C : Type}.

Record visible_interval := mk_visible_interval {
  savedCallback : C;
  effect : option (Z * option nat);
  intervals : gmap nat Z;
  nextId : nat;
  listeners : nat
}.

(** [useRef(callback)]: no effect has run yet. *)
Definition useVisibleInterval (callback : C) : visible_interval :=
  mk_visible_interval callback None ∅ 0 0.

Definition save_callback (callback : C) (h : visible_interval) : visible_interval :=
  mk_visible_interval callback (effect h) (intervals h) (nextId h) (listeners h).

Definition tick (h : visible_interval) : list C := [savedCallback h].

Definition start (h : visible_interval) : visible_interval * list C :=
  match effect h with
  | Some (ms, None) =>
      (mk_visible_interval (savedCallback h) (Some (ms, Some (nextId h)))
         (<[nextId h := ms]> (intervals h)) (S (nextId h)) (listeners h), tick h)
  | _ => (h, [])
  end.

Definition stop (h : visible_interval) : visible_interval :=
  match effect h with
  | Some (ms, Some i) =>
      mk_visible_interval (savedCallback h) (Some (ms, None)) (delete i (intervals h))
        (nextId h) (listeners h)
  | _ => h
  end.

Definition handleVisibility (visible : bool) (h : visible_interval) : visible_interval * list C :=
  if visible then start h else (stop h, []).

(** The event: nothing happens when no handler is registered. *)
Definition visibilitychange (visible : bool) (h : visible_interval) : visible_interval * list C :=
  match listeners h with O => (h, []) | S _ => handleVisibility visible h end.

Definition add_listener (h : visible_interval) : visible_interval :=
  mk_visible_interval (savedCallback h) (effect h) (intervals h) (nextId h) (S (listeners h)).

(** The body of the effect. *)
Definition interval_effect (intervalMs : Z) (visible : bool) (h : visible_interval)
  : visible_interval * list C :=
  if (intervalMs <=? 0)%Z then (h, [])
  else
    let h := mk_visible_interval (savedCallback h) (Some (intervalMs, None)) (intervals h)
               (nextId h) (listeners h) in
    let (h, ticks) := if visible then start h else (h, []) in
    (add_listener h, ticks).

(** The function the effect returned, if it returned one. *)
Definition interval_cleanup (h : visible_interval) : visible_interval :=
  match effect h with
  | None => h
  | Some _ =>
      let h := stop (mk_visible_interval (savedCallback h) (effect h) (intervals h) (nextId h)
                       (pred (listeners h))) in
      mk_visible_interval (savedCallback h) None (intervals h) (nextId h) (listeners h)
  end.

(** A render with a new callback and changed dependencies: the cleanup of the
    old effect, then both effects. *)
Definition rerun (callback : C) (intervalMs : Z) (visible : bool) (h : visible_interval)
  : visible_interval * list C :=
  interval_effect intervalMs visible (save_callback callback (interval_cleanup h)).

(** ** The invariant *)

(** One interval exactly while the hook polls and the tab is visible, one
    handler exactly while it polls. *)
Record hook_ok (intervalMs : Z) (visible : bool) (h : visible_interval) : Prop := {
  ok_off : (intervalMs <= 0)%Z → effect h = None ∧ intervals h = ∅ ∧ listeners h = 0;
  ok_visible : (0 < intervalMs)%Z → visible = true →
    ∃ i, effect h = Some (intervalMs, Some i) ∧ intervals h = {[ i := intervalMs ]} ∧ listeners h = 1;
  ok_hidden : (0 < intervalMs)%Z → visible = false →
    effect h = Some (intervalMs, None) ∧ intervals h = ∅ ∧ listeners h = 1
}.

Lemma hook_ok_effect ms visible h :
  effect h = None → intervals h = ∅ → listeners h = 0 →
  hook_ok ms visible (interval_effect ms visible h).1
  ∧ (interval_effect ms visible h).2 = (if visible && (0 <? ms)%Z then [savedCallback h] else [])
  ∧ savedCallback (interval_effect ms visible h).1 = savedCallback h.
Proof.
  intros He Hi Hl. unfold interval_effect, start. destruct (ms <=? 0)%Z eqn:Hms; bool_simpl.
  - rewrite (proj2 (Z.ltb_ge 0 ms)), andb_false_r by lia. split; [|done].
    split; intros; [done|lia|lia].
  - rewrite (proj2 (Z.ltb_lt 0 ms)), andb_true_r by lia.
    destruct visible; cbn [effect fst snd add_listener tick savedCallback]; (split; [|done]);
      split; cbn; intros; try lia; try done; rewrite ?Hi, ?Hl; eauto using insert_empty.
Qed.

Lemma interval_cleanup_clear ms visible h :
  hook_ok ms visible h →
  effect (interval_cleanup h) = None ∧ intervals (interval_cleanup h) = ∅
  ∧ listeners (interval_cleanup h) = 0 ∧ savedCallback (interval_cleanup h) = savedCallback h.
Proof.
  intros [Hoff Hv Hh]. unfold interval_cleanup, stop.
  destruct (decide (ms <= 0)%Z) as [Hms|Hms].
  - by destruct (Hoff Hms) as (He & Hi & Hl); rewrite He.
  - destruct visible.
    + destruct (Hv ltac:(lia) eq_refl) as (i & He & Hi & Hl). rewrite He. cbn.
      by rewrite Hi, Hl, delete_singleton_eq.
    + destruct (Hh ltac:(lia) eq_refl) as (He & Hi & Hl). rewrite He. cbn. by rewrite Hl.
Qed.

Lemma rerun_ok callback ms ms' visible h :
  hook_ok ms visible h →
  hook_ok ms' visible (rerun callback ms' visible h).1
  ∧ (rerun callback ms' visible h).2 = (if visible && (0 <? ms')%Z then [callback] else [])
  ∧ savedCallback (rerun callback ms' visible h).1 = callback.
Proof.
  intros (He & Hi & Hl & _)%interval_cleanup_clear. unfold rerun.
  by apply (hook_ok_effect ms' visible (save_callback callback (interval_cleanup h))).
Qed.

Lemma useVisibleInterval_ok callback ms visible :
  let hl := interval_effect ms visible (useVisibleInterval callback) in
  hook_ok ms visible hl.1
  ∧ hl.2 = (if visible && (0 <? ms)%Z then [callback] else [])
  ∧ savedCallback hl.1 = callback.
Proof. by apply (hook_ok_effect ms visible (useVisibleInterval callback)). Qed.

(** The tab becoming visible calls back at once; a repeated event does not. *)
Lemma visibilitychange_ok ms visible visible' h :
  hook_ok ms visible h →
  hook_ok ms visible' (visibilitychange visible' h).1
  ∧ (visibilitychange visible' h).2
    = (if negb visible && visible' && (0 <? ms)%Z then [savedCallback h] else [])
  ∧ savedCallback (visibilitychange visible' h).1 = savedCallback h.
Proof.
  intros [Hoff Hv Hh]. unfold visibilitychange, handleVisibility, start, stop.
  destruct (decide (ms <= 0)%Z) as [Hms|Hms].
  - destruct (Hoff Hms) as (He & Hi & Hl). rewrite (proj2 (Z.ltb_ge 0 ms)), andb_false_r, Hl by lia.
    split_and!; try done. split; intros; [done|lia|lia].
  - rewrite (proj2 (Z.ltb_lt 0 ms)), andb_true_r by lia. destruct visible.
    + destruct (Hv ltac:(lia) eq_refl) as (i & He & Hi & Hl). rewrite Hl, He.
      destruct visible'; cbn; (split_and!; [|done|done]);
        split; cbn; intros; try lia; try done; rewrite ?Hi, ?delete_singleton_eq; eauto.
    + destruct (Hh ltac:(lia) eq_refl) as (He & Hi & Hl). rewrite Hl, He.
      destruct visible'; cbn; (split_and!; [|done|done]);
        split; cbn; intros; try lia; try done; rewrite ?Hi, ?Hl; eauto using insert_empty.
Qed.

End hook.

Arguments visible_interval : clear implicits.
