(* ===== verification/SysupgradeApi.v ===== *)
(** [services/sysupgradeApi.js]: what the firmware page receives.

    The mappers turn wire messages, whose fields may be missing, into plain
    objects whose fields never are; [uploadFirmware] is a promise settled by
    the events of an [XMLHttpRequest].  The Go side of the two ways a staged
    image reaches the page (the [GetStagedImage] RPC and the JSON answer of
    [/api/sysupgrade/upload]) is modelled as the other end of the contract. *)
From S2P Require Import Prelude JsString.
From Stdlib Require Import DecimalString DecimalPos DecimalZ.
Open Scope js_scope.

(** ** Numbers and dates *)

(** [Number(b)] for an int64 that arrives as a [BigInt]: the nearest double,
    ties to even, as an integer. *)
Definition Number (z : Z) : Z :=
  let n := Z.abs z in
  if (n <? 2 ^ 53)%Z then z
  else
    let u := (2 ^ (Z.log2 n - 52))%Z in
    let q := (n / u)%Z in let r := (n mod u)%Z in
    let up := ((u <? 2 * r) || ((2 * r =? u) && Z.odd q))%Z in
    (Z.sgn z * (u * (if up then q + 1 else q)))%Z.

(** A [Date], by its time value in milliseconds. *)
Inductive date := Time (ms : Z) | InvalidDate.
#[export] Instance date_eq_dec : EqDecision date.
Proof. solve_decision. Defined.

(** [new Date(ms)]. *)
Definition newDate (ms : Z) : date :=
  if (Z.abs ms <=? 8640000000000000)%Z then Time ms else InvalidDate.

(** A protobuf [Timestamp]. *)
Record timestamp := { seconds : option Z; nanos : option Z }.

Definition timestampToDate (ts : option timestamp) : option date :=
  match ts with
  | None => None
  | Some ts => let seconds := Number (seconds ts ?? 0%Z) in Some (newDate (seconds * 1000))
  end.

(** ** Messages

    A message is a family of fields: with [option] it is what the wire gives,
    with no wrapper it is the object a mapper returns. *)

Notation plain := (λ A : Type, A).

Record system_info (F : Type → Type) := {
  hostname : F string; distribution : F string; sys_release : F string; revision : F string;
  target : F string; boardName : F string; model : F string; description : F string;
  openmanetVersion : F string; kernel : F string; architecture : F string;
  buildDate : F string; sysupgradeCapable : F bool; sysupgradeCapableReason : F string;
  rootfsType : F string
}.
Arguments hostname {F}. Arguments distribution {F}. Arguments sys_release {F}.
Arguments revision {F}. Arguments target {F}. Arguments boardName {F}. Arguments model {F}.
Arguments description {F}. Arguments openmanetVersion {F}. Arguments kernel {F}.
Arguments architecture {F}. Arguments buildDate {F}. Arguments sysupgradeCapable {F}.
Arguments sysupgradeCapableReason {F}. Arguments rootfsType {F}.

Definition mapSystemInfo (info : option (system_info option)) : option (system_info plain) :=
  match info with
  | None => None
  | Some info => Some (Build_system_info plain
      (hostname info ?? "") (distribution info ?? "") (sys_release info ?? "")
      (revision info ?? "") (target info ?? "") (boardName info ?? "") (model info ?? "")
      (description info ?? "") (openmanetVersion info ?? "") (kernel info ?? "")
      (architecture info ?? "") (buildDate info ?? "") (sysupgradeCapable info ?? false)
      (sysupgradeCapableReason info ?? "") (rootfsType info ?? ""))
  end.

Record asset (F : Type → Type) := { a_name : F string; downloadUrl : F string; a_sizeBytes : F Z }.
Arguments a_name {F}. Arguments downloadUrl {F}. Arguments a_sizeBytes {F}.

Definition mapAsset (a : option (asset option)) : option (asset plain) :=
  match a with
  | None => None
  | Some a => Some (Build_asset plain (a_name a ?? "") (downloadUrl a ?? "")
                      (Number (a_sizeBytes a ?? 0%Z)))
  end.

(** On the wire [publishedAt] is a timestamp, and the elements of [assets] are
    messages; in the object they are a date and mapped assets. *)
Record release_wire := {
  w_tag : option string; w_name : option string; w_body : option string;
  w_publishedAt : option timestamp; w_prerelease : option bool; w_version : option string;
  w_assets : option (list (option (asset option)))
}.

Record release := {
  tag : string; rel_name : string; body : string; publishedAt : option date;
  prerelease : bool; version : string; assets : list (option (asset plain))
}.

Definition mapRelease (r : option release_wire) : option release :=
  match r with
  | None => None
  | Some r => Some {|
      tag := w_tag r ?? ""; rel_name := w_name r ?? ""; body := w_body r ?? "";
      publishedAt := timestampToDate (w_publishedAt r);
      prerelease := w_prerelease r ?? false; version := w_version r ?? "";
      assets := map mapAsset (w_assets r ?? []) |}
  end.

Record update_wire := {
  w_release : option release_wire; w_matchedAsset : option (asset option);
  w_newerThanCurrent : option bool
}.

Record update := {
  u_release : option release; matchedAsset : option (asset plain); newerThanCurrent : bool
}.

Definition mapUpdate (u : option update_wire) : option update :=
  match u with
  | None => None
  | Some u => Some {|
      u_release := mapRelease (w_release u); matchedAsset := mapAsset (w_matchedAsset u);
      newerThanCurrent := w_newerThanCurrent u ?? false |}
  end.

(** A staged image; [T] is what the time of the upload is told with. *)
Record staged_image (F : Type → Type) (T : Type) := {
  filename : F string; sizeBytes : F Z; sha256 : F string; uploadedAt : option T;
  metadataPresent : F bool; compatVersion : F string; compatMessage : F string;
  supportedDevices : F (list string); deviceCompat : F string; imageCompatible : F bool;
  preflightOk : F bool; preflightError : F string
}.
Arguments filename {F T}. Arguments sizeBytes {F T}. Arguments sha256 {F T}.
Arguments uploadedAt {F T}. Arguments metadataPresent {F T}. Arguments compatVersion {F T}.
Arguments compatMessage {F T}. Arguments supportedDevices {F T}. Arguments deviceCompat {F T}.
Arguments imageCompatible {F T}. Arguments preflightOk {F T}. Arguments preflightError {F T}.

Definition mapStagedImage (image : option (staged_image option timestamp))
    : option (staged_image plain date) :=
  match image with
  | None => None
  | Some i => Some (Build_staged_image plain date
      (filename i ?? "") (Number (sizeBytes i ?? 0%Z)) (sha256 i ?? "")
      (timestampToDate (uploadedAt i)) (metadataPresent i ?? false) (compatVersion i ?? "")
      (compatMessage i ?? "") (supportedDevices i ?? []) (deviceCompat i ?? "")
      (imageCompatible i ?? false) (preflightOk i ?? false) (preflightError i ?? ""))
  end.

(** The enum of the manager's phases; an unknown number is kept as it is. *)
Inductive Phase :=
| UNSPECIFIED | IDLE | CHECKING | DOWNLOADING | VERIFYING | READY | UPGRADING | FAILED
| OtherPhase (n : Z).
#[export] Instance Phase_eq_dec : EqDecision Phase.
Proof. solve_decision. Defined.

Record progress_event (F : Type → Type) (T : Type) := {
  phase : F Phase; percent : F Z; bytesDone : F Z; bytesTotal : F Z; message : F string;
  ev_error : F string; releaseTag : F string; assetName : F string; childPid : F Z;
  logTail : F string; updatedAt : option T
}.
Arguments phase {F T}. Arguments percent {F T}. Arguments bytesDone {F T}.
Arguments bytesTotal {F T}. Arguments message {F T}. Arguments ev_error {F T}.
Arguments releaseTag {F T}. Arguments assetName {F T}. Arguments childPid {F T}.
Arguments logTail {F T}. Arguments updatedAt {F T}.

Definition mapProgressEvent (ev : option (progress_event option timestamp))
    : option (progress_event plain date) :=
  match ev with
  | None => None
  | Some e => Some (Build_progress_event plain date
      (phase e ?? UNSPECIFIED) (percent e ?? 0%Z) (Number (bytesDone e ?? 0%Z))
      (Number (bytesTotal e ?? 0%Z)) (message e ?? "") (ev_error e ?? "")
      (releaseTag e ?? "") (assetName e ?? "") (childPid e ?? 0%Z) (logTail e ?? "")
      (timestampToDate (updatedAt e)))
  end.

Record capability (F : Type → Type) := {
  capable : F bool; reason : F string; overlayMountpoint : F string; backingFs : F string;
  firstbootPath : F string; cap_hostname : F string
}.
Arguments capable {F}. Arguments reason {F}. Arguments overlayMountpoint {F}.
Arguments backingFs {F}. Arguments firstbootPath {F}. Arguments cap_hostname {F}.

(** Never null: a missing capability is one that cannot reset. *)
Definition mapFactoryResetCapability (cap : option (capability option)) : capability plain :=
  match cap with
  | None => Build_capability plain false "capability not yet detected" "" "" "" ""
  | Some c => Build_capability plain (capable c ?? false) (reason c ?? "")
      (overlayMountpoint c ?? "") (backingFs c ?? "") (firstbootPath c ?? "")
      (cap_hostname c ?? "")
  end.

(** ** Uploading an image *)

(** What the page reads of an exception. *)
Inductive js_code := CNum (n : Z) | CStr (s : string).
#[export] Instance js_code_eq_dec : EqDecision js_code.
Proof. solve_decision. Defined.

Record js_error := {
  err_name : string; err_message : string; err_code : option js_code; err_status : option Z
}.
#[export] Instance js_error_eq_dec : EqDecision js_error.
Proof. solve_decision. Defined.

Definition Error (msg : string) : js_error :=
  {| err_name := "Error"; err_message := msg; err_code := None; err_status := None |}.

(** A parsed JSON body: the fields of an image, and [error]. *)
Record upload_body := { b_image : staged_image option string; b_error : option string }.

(** [xhr.response]. *)
Inductive xhr_response := RespNull | RespText (s : string) | RespJson (b : upload_body).

Inductive xhr_event :=
| XProgress (lengthComputable : bool) (loaded total : Z)
| XLoad (status : Z) (response : xhr_response)
| XError
| XAbort.

Section Upload.
(** The runtime's [JSON.parse] ([None] when it throws or gives [null]) and
    [new Date(text)]. *)
Context (JSON_parse : string → option upload_body) (parseDate : string → date).

Definition safeJSON (s : string) : option upload_body :=
  if decide (s = "") then None else JSON_parse s.

Definition mapUploadResponse (body : option upload_body) : option (staged_image plain date) :=
  match body with
  | None => None
  | Some b =>
      let i := b_image b in
      Some (Build_staged_image plain date
        (filename i ?? "") (sizeBytes i ?? 0%Z) (sha256 i ?? "")
        (match uploadedAt i with
         | Some t => if decide (t = "") then None else Some (parseDate t)
         | None => None
         end)
        (metadataPresent i ?? false) (compatVersion i ?? "") (compatMessage i ?? "")
        (supportedDevices i ?? []) (deviceCompat i ?? "") (imageCompatible i ?? false)
        (preflightOk i ?? false) (preflightError i ?? ""))
  end.

Definition outcome : Type := option (staged_image plain date) + js_error.

Definition response_body (r : xhr_response) : option upload_body :=
  match r with RespNull => None | RespText s => safeJSON s | RespJson b => Some b end.

(** The executor's closure: the promise and the calls of [onProgress]. *)
Record xhr_upload := { promise : option outcome; progressed : list (Z * Z) }.

Definition settle (r : outcome) (x : xhr_upload) : xhr_upload :=
  match promise x with
  | Some _ => x
  | None => {| promise := Some r; progressed := progressed x |}
  end.

Definition onprogress (lengthComputable : bool) (loaded total : Z) (x : xhr_upload) : xhr_upload :=
  if lengthComputable
  then {| promise := promise x; progressed := progressed x ++ [(loaded, total)] |} else x.

Definition onload_outcome (status : Z) (response : xhr_response) : outcome :=
  if ((200 <=? status) && (status <? 300))%Z then
    inl (mapUploadResponse (response_body response))
  else
    let errBody := response_body response in
    let default_message := ("upload failed (" ++ pretty status ++ ")")%string in
    let message := match errBody ≫= b_error with
                   | Some m => if decide (m = "") then default_message else m
                   | None => default_message
                   end in
    inr {| err_name := "Error"; err_message := message; err_code := None;
           err_status := Some status |}.

Definition xhr_fire (e : xhr_event) (x : xhr_upload) : xhr_upload :=
  match e with
  | XProgress c l t => onprogress c l t x
  | XLoad status response => settle (onload_outcome status response) x
  | XError => settle (inr (Error "upload network error")) x
  | XAbort =>
      settle (inr {| err_name := "AbortError"; err_message := "upload aborted";
                     err_code := None; err_status := None |}) x
  end.

(** A signal that is aborted already returns before [xhr.send]: no request, so
    no event.  Otherwise the request's events arrive in turn. *)
Definition uploadFirmware (aborted : bool) (events : list xhr_event) : xhr_upload :=
  let x := {| promise := None; progressed := [] |} in
  if aborted then x else foldl (λ x e, xhr_fire e x) x events.

(** ** The server's side *)

(** [sysupgrade.StagedImage]: the time of the upload in nanoseconds, [None] for
    Go's zero time. *)
Definition server_image : Type := staged_image plain Z.

(** [timestamppb.New]. *)
Definition timestamppb_New (ns : Z) : timestamp :=
  {| seconds := Some (ns / 10 ^ 9)%Z; nanos := Some (ns mod 10 ^ 9)%Z |}.

Definition stagedImageToProto (s : option server_image) : option (staged_image option timestamp) :=
  match s with
  | None => None
  | Some s => Some (Build_staged_image option timestamp
      (Some (filename s)) (Some (sizeBytes s)) (Some (sha256 s))
      (timestamppb_New <$> uploadedAt s) (Some (metadataPresent s)) (Some (compatVersion s))
      (Some (compatMessage s)) (Some (supportedDevices s)) (Some (deviceCompat s))
      (Some (imageCompatible s)) (Some (preflightOk s)) (Some (preflightError s)))
  end.

(** [time.Time] as JSON, a parameter; the seconds of Go's zero time. *)
Context (formatTime : Z → string).
Definition zero_time : Z := (-62135596800 * 10 ^ 9)%Z.

Definition omitempty (s : string) : option string := if decide (s = "") then None else Some s.

(** [uploadResponse] as the browser parses it. *)
Definition uploadResponse (s : server_image) : upload_body :=
  {| b_image := Build_staged_image option string
      (Some (filename s)) (Some (Number (sizeBytes s))) (Some (sha256 s))
      (Some (formatTime (uploadedAt s ?? zero_time))) (Some (metadataPresent s))
      (omitempty (compatVersion s)) (omitempty (compatMessage s))
      (match supportedDevices s with [] => None | l => Some l end)
      (omitempty (deviceCompat s)) (Some (imageCompatible s)) (Some (preflightOk s))
      (omitempty (preflightError s));
     b_error := None |}.
End Upload.

(** ** Theorems *)

Lemma Number_exact z : (Z.abs z < 2 ^ 53)%Z → Number z = z.
Proof. intros H. unfold Number. by rewrite (proj2 (Z.ltb_lt _ _) H). Qed.

Lemma omitempty_default s : omitempty s ?? "" = s.
Proof. unfold omitempty. by case_decide. Qed.

Lemma settled_stays JP pd x es r :
  promise x = Some r → promise (foldl (λ x e, xhr_fire JP pd e x) x es) = Some r.
Proof.
  revert x. induction es as [|e es IH]; intros x H; simpl; [done|]. apply IH.
  destruct e as [[] l t|st rp| |]; simpl; unfold settle; by rewrite ?H.
Qed.

(** What an event settles the promise with. *)
Definition event_outcome (JP : string → option upload_body) (pd : string → date) (e : xhr_event)
    : option outcome :=
  match e with
  | XProgress _ _ _ => None
  | XLoad status response => Some (onload_outcome JP pd status response)
  | XError => Some (inr (Error "upload network error"))
  | XAbort => Some (inr {| err_name := "AbortError"; err_message := "upload aborted";
                           err_code := None; err_status := None |})
  end.

Definition terminal (e : xhr_event) : bool :=
  match e with XProgress _ _ _ => false | _ => true end.

Definition progress_of (e : xhr_event) : option (Z * Z) :=
  match e with XProgress true l t => Some (l, t) | _ => None end.

Definition first_terminal (es : list xhr_event) : option xhr_event :=
  head (filter (λ e, terminal e = true) es).

Section Spec.
Context (JP : string → option upload_body) (pd : string → date) (fmt : Z → string).

(** The response carries the JSON body [b], parsed by the browser or as text. *)
Definition carries (response : xhr_response) (b : upload_body) : Prop :=
  response = RespJson b ∨ ∃ t, response = RespText t ∧ t ≠ "" ∧ JP t = Some b.

(** The server's image as the page shows it. *)
Definition page_image (s : server_image) : staged_image plain date :=
  Build_staged_image plain date (filename s) (Number (sizeBytes s)) (sha256 s)
    (Some (newDate ((uploadedAt s ?? zero_time) / 10 ^ 6))) (metadataPresent s) (compatVersion s)
    (compatMessage s) (supportedDevices s) (deviceCompat s) (imageCompatible s)
    (preflightOk s) (preflightError s).

(** What the caller is promised for the event that ends the request. *)
Definition upload_spec (e : xhr_event) (r : outcome) : Prop :=
  match e with
  | XProgress _ _ _ => False
  | XLoad status response =>
      if decide (200 ≤ status < 300)%Z then
        ∃ img, r = inl img
          ∧ (img = None ↔ ∀ b, ¬ carries response b)
          ∧ ∀ s, carries response (uploadResponse fmt s) → img = Some (page_image s)
      else
        ∃ err, r = inr err ∧ err_name err = "Error" ∧ err_code err = None
          ∧ err_status err = Some status
          ∧ (∀ b m, carries response b → b_error b = Some m → m ≠ "" → err_message err = m)
          ∧ ((∀ b m, carries response b → b_error b = Some m → m = "") →
               err_message err = ("upload failed (" ++ pretty status ++ ")")%string)
  | XError => r = inr (Error "upload network error")
  | XAbort => ∃ err, r = inr err ∧ err_name err = "AbortError"
                ∧ err_code err = None ∧ err_status err = None
  end.

Hypothesis dates : ∀ t, fmt t ≠ "" ∧ pd (fmt t) = newDate (t / 10 ^ 6).

Lemma carries_body response b : carries response b ↔ response_body JP response = Some b.
Proof.
  unfold carries. destruct response as [|t|b']; simpl; [naive_solver| |naive_solver].
  unfold safeJSON. case_decide; naive_solver.
Qed.

Lemma mapUploadResponse_server s :
  mapUploadResponse pd (Some (uploadResponse fmt s)) = Some (page_image s).
Proof.
  simpl. unfold page_image. rewrite !omitempty_default.
  destruct (dates (uploadedAt s ?? zero_time)) as [Hne Hpd].
  rewrite decide_False, Hpd by done. by destruct (supportedDevices s).
Qed.

Lemma onload_spec status response :
  upload_spec (XLoad status response) (onload_outcome JP pd status response).
Proof.
  unfold upload_spec, onload_outcome.
  destruct ((200 <=? status) && (status <? 300))%Z eqn:Hs.
  - rewrite decide_True by lia. eexists. split; [done|]. split.
    + setoid_rewrite carries_body. destruct (response_body JP response); naive_solver.
    + intros s ->%carries_body. apply mapUploadResponse_server.
  - rewrite decide_False by lia. eexists. split; [done|]. cbn [err_name err_code err_status err_message].
    setoid_rewrite carries_body.
    split_and?; [done..| |].
    + intros b m -> Hb Hm. simpl. by rewrite Hb, decide_False.
    + intros H. destruct (response_body JP response) as [b|]; [|done]. simpl.
      destruct (b_error b) as [m|] eqn:Hb; [|done]. by rewrite (H b m), decide_True.
Qed.

Lemma settle_new x r : promise x = None → promise (settle r x) = Some r.
Proof. intros H. unfold settle. by rewrite H. Qed.

(** The first event that ends the request settles the promise. *)
Lemma upload_first x es :
  promise x = None →
  match first_terminal es with
  | None => promise (foldl (λ x e, xhr_fire JP pd e x) x es) = None
  | Some e => ∃ r, promise (foldl (λ x e, xhr_fire JP pd e x) x es) = Some r ∧ upload_spec e r
  end.
Proof.
  unfold first_terminal. revert x. induction es as [|e es IH]; intros x H; [done|].
  destruct e as [b l t|st rp| |]; simpl;
    try (eexists; split; [apply settled_stays; by apply settle_new|]).
  - apply IH. by destruct b.
  - apply onload_spec.
  - done.
  - by eexists.
Qed.
End Spec.

Lemma upload_progressed JP pd x es :
  progressed (foldl (λ x e, xhr_fire JP pd e x) x es) = progressed x ++ omap progress_of es.
Proof.
  revert x. induction es as [|e es IH]; intros x; simpl; [by rewrite app_nil_r|]. rewrite IH.
  destruct e as [[] l t|st rp| |]; simpl; unfold settle; destruct (promise x); simpl;
    rewrite <-?app_assoc; done.
Qed.

Lemma first_terminal_None es : first_terminal es = None ↔ Forall (λ e, terminal e = false) es.
Proof.
  unfold first_terminal. induction es as [|e es IH]; [by split|].
  rewrite Forall_cons. destruct e; simpl; [rewrite <- IH; naive_solver|naive_solver..].
Qed.

(** C26: the promise of [uploadFirmware] is settled by the first event that ends
    its request, and stays so.  A status from 200 to 299 resolves it: with the
    server's image, every field as the server has it and the date to the
    millisecond, when the answer carries one, and with null exactly when it
    carries no body.  Any other status rejects it with an error that has that
    status and the server's message, or a message naming the status when there
    is none.  A network failure and an abort have errors of their own, and only
    an abort has the name the page takes for a cancellation.  Until such an
    event the promise is pending, every progress event is reported, and aborted
    before the call, the upload never settles. *)
Theorem upload_promise JP pd fmt events :
  (∀ t, fmt t ≠ "" ∧ pd (fmt t) = newDate (t / 10 ^ 6)) →
  let x := uploadFirmware JP pd false events in
  (promise x = None ↔ Forall (λ e, terminal e = false) events)
  ∧ (∀ r, promise x = Some r →
       (∃ e, first_terminal events = Some e ∧ upload_spec JP fmt e r)
       ∧ ∀ more, promise (uploadFirmware JP pd false (events ++ more)) = Some r)
  ∧ (∀ err, promise x = Some (inr err) →
       (err_name err = "AbortError" ↔ first_terminal events = Some XAbort))
  ∧ progressed x = omap progress_of events
  ∧ promise (uploadFirmware JP pd true events) = None.
Proof.
  intros Hd x. subst x. unfold uploadFirmware.
  pose proof (upload_first JP pd fmt Hd {| promise := None; progressed := [] |} events eq_refl) as H.
  set (x := foldl _ _ events) in *. split_and!; [| | |apply upload_progressed|done].
  - rewrite <- first_terminal_None. destruct (first_terminal events); [|done].
    destruct H as (r & Hr & _). rewrite Hr. done.
  - intros r Hr. split; [|intros more; rewrite foldl_app; by apply settled_stays].
    destruct (first_terminal events) as [e|]; [|congruence].
    destruct H as (r' & Hr' & Hs). exists e. split; [done|]. congruence.
  - intros err Hr. destruct (first_terminal events) as [e|]; [|congruence].
    destruct H as (r & Hr' & Hs). rewrite Hr in Hr'. injection Hr' as <-.
    destruct e as [b l t|st rp| |]; simpl in Hs; [done| |naive_solver|naive_solver].
    destruct (decide _) in Hs; [by destruct Hs as (? & ? & _)|].
    destruct Hs as (err' & [= <-] & Hn & _). by rewrite Hn.
Qed.

Definition with_time (i : staged_image plain date) (d : date) : staged_image plain date :=
  Build_staged_image plain date (filename i) (sizeBytes i) (sha256 i) (Some d)
    (metadataPresent i) (compatVersion i) (compatMessage i) (supportedDevices i)
    (deviceCompat i) (imageCompatible i) (preflightOk i) (preflightError i).

Lemma newDate_small z : (Z.abs z ≤ 8640000000000000)%Z → newDate z = Time z.
Proof. intros H. unfold newDate. by rewrite (proj2 (Z.leb_le _ _) H). Qed.

(** The server's times, in nanoseconds, are dates of the page. *)
Lemma server_times ns :
  (Z.abs ns < 2 ^ 63)%Z →
  newDate (ns / 10 ^ 6) = Time (ns / 10 ^ 6)
  ∧ newDate (Number (ns / 10 ^ 9) * 1000) = Time (ns / 10 ^ 6 / 1000 * 1000).
Proof.
  intros Hb. rewrite Z.div_div by lia. change (10 ^ 6 * 1000)%Z with (10 ^ 9)%Z.
  rewrite Number_exact, !newDate_small; [done|..];
    Z.to_euclidean_division_equations; lia.
Qed.

(** The two ways the page learns of a staged image agree: the answer of the
    upload and the [GetStagedImage] RPC give the same object for the same image
    of the server, except that the RPC's date is cut to the second. *)
Theorem staged_sources_agree JP pd fmt (s : server_image) ns :
  (∀ t, fmt t ≠ "" ∧ pd (fmt t) = newDate (t / 10 ^ 6)) →
  uploadedAt s = Some ns → (Z.abs ns < 2 ^ 63)%Z →
  ∃ i ms, mapStagedImage (stagedImageToProto (Some s)) = Some i
    ∧ onload_outcome JP pd 200 (RespJson (uploadResponse fmt s))
      = inl (Some (with_time i (Time ms)))
    ∧ uploadedAt i = Some (Time (ms / 1000 * 1000)).
Proof.
  intros Hfmt Hns Hb. simpl. rewrite Hns. simpl.
  destruct (server_times ns Hb) as [Hms Hs].
  eexists _, (ns / 10 ^ 6)%Z. split; [done|]. destruct (Hfmt ns) as [Hne Hpd]. split.
  - unfold onload_outcome. simpl. do 2 f_equal. unfold with_time; simpl.
    rewrite Hns; simpl. rewrite !omitempty_default, decide_False, Hpd, Hms by done.
    by destruct (supportedDevices s).
  - simpl. by rewrite Hs.
Qed.

(** A text form of time and its parser, for the examples: the decimal count of
    nanoseconds. *)
Definition sample_format (ns : Z) : string := NilZero.string_of_int (Z.to_int ns).
Definition sample_date (s : string) : date :=
  match NilZero.int_of_string s with
  | Some d => newDate (Z.of_int d / 10 ^ 6)
  | None => InvalidDate
  end.

Lemma sample_time t :
  sample_format t ≠ "" ∧ sample_date (sample_format t) = newDate (t / 10 ^ 6).
Proof.
  assert (NilZero.int_of_string (sample_format t) = Some (Z.to_int t)) as H.
  { apply NilZero.isi; destruct t as [|p|p]; simpl; try done; intros [= Hd];
      by apply (DecimalPos.Unsigned.to_uint_nonnil p). }
  unfold sample_date. rewrite H, DecimalZ.of_to. split; [|done].
  intros Hs. by rewrite Hs in H.
Qed.

Lemma staged_sources_agree_witness :
  let s := Build_staged_image plain Z "a.img.gz" 9007199254740993 "00ff"
             (Some 1700000000123456789%Z) true "1.0" "" ["vendor,board"] "vendor,board"
             true true "" in
  ∃ i ms, mapStagedImage (stagedImageToProto (Some s)) = Some i
    ∧ onload_outcome (λ _, None) sample_date 200 (RespJson (uploadResponse sample_format s))
      = inl (Some (with_time i (Time ms)))
    ∧ uploadedAt i = Some (Time (ms / 1000 * 1000)).
Proof.
  intros s. apply (staged_sources_agree (λ _, None) sample_date sample_format s 1700000000123456789).
  - apply sample_time.
  - reflexivity.
  - lia.
Defined.

Definition sample_image : server_image :=
  Build_staged_image plain Z "a.img.gz" 4096 "00ff" (Some 1700000000123456789%Z) true "1.0" ""
    ["vendor,board"] "vendor,board" true true "".

Lemma upload_promise_witness :
  let up := uploadFirmware (λ _, None) sample_date false in
  promise (up [XProgress true 10 20; XLoad 201 (RespJson (uploadResponse sample_format sample_image))])
    = Some (inl (Some (page_image sample_image)))
  ∧ (∃ err, promise (up [XLoad 503 RespNull]) = Some (inr err) ∧ err_status err = Some 503%Z
       ∧ err_message err = "upload failed (503)").
Proof.
  intros up. split.
  - destruct (upload_promise (λ _, None) sample_date sample_format
      [XProgress true 10 20; XLoad 201 (RespJson (uploadResponse sample_format sample_image))]
      sample_time) as (_ & H & _).
    change (up _) with (uploadFirmware (λ _, None) sample_date false
      [XProgress true 10 20; XLoad 201 (RespJson (uploadResponse sample_format sample_image))]).
    destruct (promise _) as [r|] eqn:E; [|discriminate E].
    destruct (H r eq_refl) as [(e & He & Hs) _].
    injection He as <-. destruct Hs as (img & -> & _ & Himg).
    rewrite (Himg sample_image (or_introl eq_refl)). reflexivity.
  - destruct (upload_promise (λ _, None) sample_date sample_format [XLoad 503 RespNull] sample_time)
      as (_ & H & _).
    change (up _) with (uploadFirmware (λ _, None) sample_date false [XLoad 503 RespNull]).
    destruct (promise _) as [r|] eqn:E; [|discriminate E].
    destruct (H r eq_refl) as [(e & He & Hs) _].
    injection He as <-. destruct Hs as (err & -> & _ & _ & Hst & _ & Hm).
    exists err. split; [reflexivity|]. split; [exact Hst|].
    apply Hm. intros b m [Hc|(t & Hc & _)]; discriminate Hc.
Defined.
