(* ===== verification/Firmware.v ===== *)
(** [pages/SettingsFirmware.jsx]: the firmware page as a state machine.

    The page's [useState] cells are grouped by the flow they belong to: the
    four loaders, the selection and its install form, the release detail, the
    upload, the upgrade's progress and the factory reset.  An event is a click
    or a keystroke on a control that is rendered and enabled, or the answer of
    a call; effects run after the event that changed their dependencies, and
    the continuations of promises rejected by an abort run at the end of the
    event that aborted.  [page_log] records what the page sent and was offered. *)
From S2P Require Import Prelude JsString SysupgradeApi.
Open Scope js_scope.

(** ** Loaders: reloadInfo, reloadUpdates, reloadStaged, reloadResetCap *)

Record loader (A : Type) := mk_loader { value : option A; loading : bool; load_error : option js_error }.
Arguments mk_loader {A}. Arguments value {A}. Arguments loading {A}. Arguments load_error {A}.

Definition load_start {A} (l : loader A) : loader A := mk_loader (value l) true (load_error l).
Definition load_settled {A} (r : option A + js_error) (l : loader A) : loader A :=
  match r with
  | inl v => mk_loader v false None
  | inr e => mk_loader (value l) false (Some e)
  end.
Definition set_load_error {A} (e : option js_error) (l : loader A) : loader A :=
  mk_loader (value l) (loading l) e.
Definition set_value {A} (v : option A) (l : loader A) : loader A :=
  mk_loader v (loading l) (load_error l).

(** ** The selection and the install form *)

Definition image : Type := staged_image plain date.

(** An update with the identity of its object. *)
Definition offer : Type := nat * update.

Inductive source := SRelease | SLocal.
#[export] Instance source_eq_dec : EqDecision source.
Proof. solve_decision. Defined.

Record install_options := {
  noPreserveConfig : bool; testOnly : bool; force : bool; quiet : bool; verbose : bool
}.

Definition DEFAULT_OPTIONS : install_options :=
  {| noPreserveConfig := false; testOnly := false; force := false; quiet := false;
     verbose := false |}.

Inductive option_key := KNoPreserveConfig | KTestOnly | KForce | KQuiet | KVerbose.

(** [{ ...prev, [key]: value }]. *)
Definition set_option (key : option_key) (v : bool) (o : install_options) : install_options :=
  match key with
  | KNoPreserveConfig => Build_install_options v (testOnly o) (force o) (quiet o) (verbose o)
  | KTestOnly => Build_install_options (noPreserveConfig o) v (force o) (quiet o) (verbose o)
  | KForce => Build_install_options (noPreserveConfig o) (testOnly o) v (quiet o) (verbose o)
  | KQuiet => Build_install_options (noPreserveConfig o) (testOnly o) (force o) v (verbose o)
  | KVerbose => Build_install_options (noPreserveConfig o) (testOnly o) (force o) (quiet o) v
  end.

Record selection := mk_sel {
  selectionSource : option source; selected : option offer; options : install_options;
  forceUnknown : bool; skipPreflight : bool; startError : option js_error; startBusy : bool
}.

Inductive request :=
| StartUpgrade (releaseTag assetName : string) (options : install_options)
    (forceInstallUnknownCurrent : bool)
| StartLocalUpgrade (options : install_options) (forceInstallUnknownCurrent skipPreflight : bool).

Definition handleSelect (u : offer) (s : selection) : selection :=
  mk_sel (Some SRelease) (Some u) DEFAULT_OPTIONS false false None (startBusy s).

Definition handleSelectLocal (s : selection) : selection :=
  mk_sel (Some SLocal) None DEFAULT_OPTIONS false false None (startBusy s).

(** The selection's part of [handleCancelSelection]. *)
Definition cancel_selection (s : selection) : selection :=
  mk_sel None None (options s) (forceUnknown s) false None (startBusy s).

Definition handleChangeOption (key : option_key) (v : bool) (s : selection) : selection :=
  mk_sel (selectionSource s) (selected s) (set_option key v (options s)) (forceUnknown s)
    (skipPreflight s) (startError s) (startBusy s).

Definition setForceUnknown (v : bool) (s : selection) : selection :=
  mk_sel (selectionSource s) (selected s) (options s) v (skipPreflight s) (startError s)
    (startBusy s).

Definition setSkipPreflight (v : bool) (s : selection) : selection :=
  mk_sel (selectionSource s) (selected s) (options s) (forceUnknown s) v (startError s)
    (startBusy s).

Definition set_start (err : option js_error) (busy : bool) (s : selection) : selection :=
  mk_sel (selectionSource s) (selected s) (options s) (forceUnknown s) (skipPreflight s) err busy.

(** [a?.b] on a string that may be missing, tested for truth. *)
Definition truthy (s : option string) : option string :=
  s ≫= λ t, if decide (t = "") then None else Some t.

Definition offer_tag (u : offer) : option string := tag <$> u_release u.2.
Definition offer_asset (u : offer) : option string := a_name <$> matchedAsset u.2.

(** The try block of [handleConfirm] up to its call: the call, nothing (the
    early return), or the exception. *)
Definition confirm_call (staged : option image) (s : selection) : option request + js_error :=
  match selectionSource s with
  | Some SLocal =>
      match staged with
      | None => inr (Error "No staged image available.")
      | Some _ => inl (Some (StartLocalUpgrade (options s) (forceUnknown s) (skipPreflight s)))
      end
  | _ =>
      match selected s with
      | None => inl None
      | Some u =>
          match truthy (offer_tag u), truthy (offer_asset u) with
          | Some t, Some a => inl (Some (StartUpgrade t a (options s) (forceUnknown s)))
          | _, _ => inr (Error "Selected release is missing a matching asset.")
          end
      end
  end.

Definition handleConfirm (staged : option image) (s : selection) : selection * option request :=
  match confirm_call staged s with
  | inl (Some r) => (set_start None true s, Some r)
  | inl None => (set_start None false s, None)
  | inr e => (set_start (Some e) false s, None)
  end.

(** The rest of [handleConfirm], once the call answered or threw. *)
Definition confirm_settled (r : option js_error) (s : selection) : selection :=
  set_start (match r with Some e => Some e | None => startError s end) false s.

(** ** The release detail *)

Record fetch := { f_id : nat; f_tag : string; f_cancelled : bool }.

(** [effect_fetch] is the fetch the effect's cleanup cancels. *)
Record detail := mk_detail {
  release_of : option release; releaseLoading : bool; releaseError : option js_error;
  lastFetchedTagRef : option string; effect_fetch : option nat; fetches : list fetch;
  nfetch : nat
}.

Definition cancel_fetch (i : nat) (f : fetch) : fetch :=
  if decide (f_id f = i) then {| f_id := f_id f; f_tag := f_tag f; f_cancelled := true |} else f.

Definition detail_cleanup (d : detail) : detail :=
  match effect_fetch d with
  | None => d
  | Some i =>
      mk_detail (release_of d) (releaseLoading d) (releaseError d) (lastFetchedTagRef d) None
        (cancel_fetch i <$> fetches d) (nfetch d)
  end.

Definition start_fetch (t : string) (d : detail) : detail :=
  mk_detail None true None (Some t) (Some (nfetch d))
    (fetches d ++ [{| f_id := nfetch d; f_tag := t; f_cancelled := false |}]) (S (nfetch d)).

(** The effect on [selected]. *)
Definition detail_effect (sel : option offer) (d : detail) : detail :=
  match sel ≫= λ u, truthy (offer_tag u) with
  | None => d
  | Some t => if decide (lastFetchedTagRef d = Some t) then d else start_fetch t d
  end.

(** React runs the effect when the object changed: the old cleanup first. *)
Definition selected_changed (old new : option offer) (d : detail) : detail :=
  if decide (fst <$> old = fst <$> new) then d else detail_effect new (detail_cleanup d).

Definition fetch_settled (i : nat) (r : option release + js_error) (d : detail) : detail :=
  match list_find (λ f, f_id f = i) (fetches d) with
  | None => d
  | Some (_, f) =>
      let rest := filter (λ f, f_id f ≠ i) (fetches d) in
      if f_cancelled f then
        mk_detail (release_of d) (releaseLoading d) (releaseError d) (lastFetchedTagRef d)
          (effect_fetch d) rest (nfetch d)
      else
        match r with
        | inl v => mk_detail v false (releaseError d) (lastFetchedTagRef d) (effect_fetch d) rest
                     (nfetch d)
        | inr e => mk_detail (release_of d) false (Some e) (lastFetchedTagRef d) (effect_fetch d)
                     rest (nfetch d)
        end
  end.

(** The detail's part of [handleCancelSelection]. *)
Definition detail_cancelled (d : detail) : detail :=
  mk_detail None (releaseLoading d) None None (effect_fetch d) (fetches d) (nfetch d).

Definition forget_tag (d : detail) : detail :=
  mk_detail (release_of d) (releaseLoading d) (releaseError d) None (effect_fetch d) (fetches d)
    (nfetch d).

(** ** The upload *)

Inductive upload_status := UIdle | UUploading | UError.
#[export] Instance upload_status_eq_dec : EqDecision upload_status.
Proof. solve_decision. Defined.

Record upload_state := mk_upload {
  status : upload_status; up_filename : string; loaded : Z; total : Z; up_error : option js_error
}.

Definition upload_idle : upload_state := mk_upload UIdle "" 0 0 None.

(** An upload in progress: the number of its controller, whether the controller
    was aborted, and whether a release was selected when it began (what the
    closure of [handlePickFile] captured). *)
Record upload := { up_id : nat; up_aborted : bool; from_release : bool }.

Record uploads := mk_uploads {
  uploadState : upload_state; uploadAbortRef : option nat; live : list upload;
  idle_timers : nat; nupload : nat
}.

Definition set_upload (st : upload_state) (u : uploads) : uploads :=
  mk_uploads st (uploadAbortRef u) (live u) (idle_timers u) (nupload u).

Definition abort_upload (i : nat) (u : upload) : upload :=
  if decide (up_id u = i)
  then {| up_id := up_id u; up_aborted := true; from_release := from_release u |} else u.

(** [uploadAbortRef.current.abort()]. *)
Definition abort_ref (u : uploads) : uploads :=
  match uploadAbortRef u with
  | None => u
  | Some i => mk_uploads (uploadState u) (uploadAbortRef u) (abort_upload i <$> live u)
                (idle_timers u) (nupload u)
  end.

(** [handlePickFile] up to the await on [uploadFirmware]. *)
Definition pick_file (name : string) (size : Z) (fromRelease : bool) (u : uploads) : uploads :=
  let u := abort_ref u in
  mk_uploads
    (mk_upload UUploading (if decide (name = "") then "uploaded-image.bin" else name) 0 size None)
    (Some (nupload u))
    (live u ++ [{| up_id := nupload u; up_aborted := false; from_release := fromRelease |}])
    (idle_timers u) (S (nupload u)).

Definition upload_progress (l t : Z) (u : uploads) : uploads :=
  let st := uploadState u in
  if decide (status st = UUploading)
  then set_upload (mk_upload UUploading (up_filename st) l t (up_error st)) u else u.

(** The finally block, and the end of the upload. *)
Definition upload_ended (i : nat) (u : uploads) : uploads :=
  mk_uploads (uploadState u) (if decide (uploadAbortRef u = Some i) then None else uploadAbortRef u)
    (filter (λ x, up_id x ≠ i) (live u)) (idle_timers u) (nupload u).

Definition upload_failed (i : nat) (e : js_error) (u : uploads) : uploads :=
  let st := uploadState u in
  upload_ended i
    (mk_uploads (mk_upload UError (up_filename st) (loaded st) (total st) (Some e))
       (uploadAbortRef u) (live u) (S (idle_timers u)) (nupload u)).

(** The timer of a failed upload, four seconds later. *)
Definition idle_timer (u : uploads) : uploads :=
  match idle_timers u with
  | O => u
  | S n => mk_uploads upload_idle (uploadAbortRef u) (live u) n (nupload u)
  end.

Definition handleCancelUpload (u : uploads) : uploads :=
  match uploadAbortRef u with
  | None => u
  | Some _ => let u := abort_ref u in
              mk_uploads (uploadState u) None (live u) (idle_timers u) (nupload u)
  end.

(** The AbortError continuations that an abort made ready. *)
Definition drain_aborts (u : uploads) : uploads :=
  foldl (λ u x, if up_aborted x then upload_ended (up_id x) (set_upload upload_idle u) else u)
    u (live u).

(** ** The upgrade's progress *)

Definition progress : Type := progress_event plain date.

(** The loop of the mount effect: the snapshot, then the stream, then nothing. *)
Inductive stream_stage := Snapshot | Streaming | StreamEnded.
#[export] Instance stream_stage_eq_dec : EqDecision stream_stage.
Proof. solve_decision. Defined.

Record monitor := mk_monitor {
  progress_of_page : option progress; streamLost : bool; stage : stream_stage;
  cancelBusy : bool; cancelError : option js_error
}.

Definition ACTIVE_PHASES (ph : Phase) : bool :=
  bool_decide (ph ∈ [CHECKING; DOWNLOADING; VERIFYING; READY; UPGRADING]).

Definition snapshot_settled (r : option progress + js_error) (m : monitor) : monitor :=
  mk_monitor (match r with inl p => p | inr _ => progress_of_page m end) (streamLost m) Streaming
    (cancelBusy m) (cancelError m).
Definition stream_frame (ev : option progress) (m : monitor) : monitor :=
  mk_monitor ev false (stage m) (cancelBusy m) (cancelError m).
Definition stream_threw (m : monitor) : monitor :=
  mk_monitor (progress_of_page m) true StreamEnded (cancelBusy m) (cancelError m).
Definition stream_closed (m : monitor) : monitor :=
  mk_monitor (progress_of_page m) (streamLost m) StreamEnded (cancelBusy m) (cancelError m).
Definition handleCancelUpgrade (m : monitor) : monitor :=
  mk_monitor (progress_of_page m) (streamLost m) (stage m) true None.
Definition cancel_settled (r : option js_error) (m : monitor) : monitor :=
  mk_monitor (progress_of_page m) (streamLost m) (stage m) false
    (match r with Some e => Some e | None => cancelError m end).

(** ** The factory reset *)

Record reset := mk_reset {
  resetExpanded : bool; resetTypedHostname : string; resetAck : bool; resetBusy : bool;
  resetTriggered : bool; resetError : option js_error
}.

Definition handleBeginReset (r : reset) : reset :=
  mk_reset true "" false (resetBusy r) (resetTriggered r) None.
Definition handleCancelReset (r : reset) : reset :=
  mk_reset false "" false (resetBusy r) (resetTriggered r) None.
Definition setResetTypedHostname (s : string) (r : reset) : reset :=
  mk_reset (resetExpanded r) s (resetAck r) (resetBusy r) (resetTriggered r) (resetError r).
Definition setResetAck (b : bool) (r : reset) : reset :=
  mk_reset (resetExpanded r) (resetTypedHostname r) b (resetBusy r) (resetTriggered r)
    (resetError r).
(** [handleConfirmReset] up to its call. *)
Definition handleConfirmReset (r : reset) : reset :=
  mk_reset (resetExpanded r) (resetTypedHostname r) (resetAck r) true (resetTriggered r) None.

Definition isExplicitRPCError (e : js_error) : bool :=
  bool_decide (err_code e ∈ (λ s, Some (CStr s)) <$>
    ["invalid_argument"; "failed_precondition"; "unauthenticated"; "permission_denied"]).

(** The rest of [handleConfirmReset]. *)
Definition reset_settled (o : option js_error) (r : reset) : reset :=
  match o with
  | None => mk_reset (resetExpanded r) (resetTypedHostname r) (resetAck r) false true (resetError r)
  | Some e =>
      if isExplicitRPCError e
      then mk_reset (resetExpanded r) (resetTypedHostname r) (resetAck r) false (resetTriggered r)
             (Some e)
      else mk_reset (resetExpanded r) (resetTypedHostname r) (resetAck r) false true (resetError r)
  end.

(** ** The page *)

Record page_log := mk_log {
  requests : list request; pending : nat;    (* start calls sent, and not answered yet *)
  offered : list offer;                      (* every update the server ever listed *)
  resets : list string;
  discards : list bool    (* discard calls not answered, with what their closures captured *)
}.

Record page := mk_page {
  info : loader (system_info plain); updates : loader (list offer * option date);
  includePrerelease : bool; staged : loader image; cap : loader (capability plain);
  sel : selection; det : detail; upl : uploads; mon : monitor; rst : reset; log : page_log
}.

Definition set_info v p := mk_page v (updates p) (includePrerelease p) (staged p) (cap p) (sel p) (det p) (upl p) (mon p) (rst p) (log p).
Definition set_updates v p := mk_page (info p) v (includePrerelease p) (staged p) (cap p) (sel p) (det p) (upl p) (mon p) (rst p) (log p).
Definition setIncludePrerelease v p := mk_page (info p) (updates p) v (staged p) (cap p) (sel p) (det p) (upl p) (mon p) (rst p) (log p).
Definition set_staged v p := mk_page (info p) (updates p) (includePrerelease p) v (cap p) (sel p) (det p) (upl p) (mon p) (rst p) (log p).
Definition set_cap v p := mk_page (info p) (updates p) (includePrerelease p) (staged p) v (sel p) (det p) (upl p) (mon p) (rst p) (log p).
Definition set_sel v p := mk_page (info p) (updates p) (includePrerelease p) (staged p) (cap p) v (det p) (upl p) (mon p) (rst p) (log p).
Definition set_det v p := mk_page (info p) (updates p) (includePrerelease p) (staged p) (cap p) (sel p) v (upl p) (mon p) (rst p) (log p).
Definition set_upl v p := mk_page (info p) (updates p) (includePrerelease p) (staged p) (cap p) (sel p) (det p) v (mon p) (rst p) (log p).
Definition set_mon v p := mk_page (info p) (updates p) (includePrerelease p) (staged p) (cap p) (sel p) (det p) (upl p) v (rst p) (log p).
Definition set_rst v p := mk_page (info p) (updates p) (includePrerelease p) (staged p) (cap p) (sel p) (det p) (upl p) (mon p) v (log p).
Definition set_log v p := mk_page (info p) (updates p) (includePrerelease p) (staged p) (cap p) (sel p) (det p) (upl p) (mon p) (rst p) v.

(** The first render's cells; [reloadInfo] and [reloadResetCap] have begun. *)
Definition SettingsFirmware : page :=
  mk_page (mk_loader None true None) (mk_loader None false None) false
    (mk_loader None true None) (mk_loader None true None)
    (mk_sel None None DEFAULT_OPTIONS false false None false)
    (mk_detail None false None None None [] 0)
    (mk_uploads upload_idle None [] 0 0)
    (mk_monitor None false Snapshot false None)
    (mk_reset false "" false false false None)
    (mk_log [] 0 [] [] []).

(** *** What the page renders *)

Definition sysupgrade_capable (p : page) : bool :=
  match value (info p) with Some i => sysupgradeCapable i | None => false end.

Definition inFlight (p : page) : bool :=
  match progress_of_page (mon p) with Some e => ACTIVE_PHASES (phase e) | None => false end.

Definition installDisabled (p : page) : bool := inFlight p || negb (sysupgrade_capable p).

Definition unknownVersion (p : page) : bool :=
  match value (info p) with Some i => bool_decide (openmanetVersion i = "") | None => true end.

Definition uploading (p : page) : bool := bool_decide (status (uploadState (upl p)) = UUploading).

Definition listed (p : page) : list offer :=
  match value (updates p) with Some (l, _) => l | None => [] end.

(** [selectionSource === 'release' ? (selected?.release?.tag ?? null) : null] *)
Definition selectedTag (p : page) : option string :=
  match selectionSource (sel p) with
  | Some SRelease => selected (sel p) ≫= offer_tag
  | _ => None
  end.

(** A row of the table that shows the chip instead of its Install button. *)
Definition row_selected (p : page) (u : offer) : bool :=
  match truthy (selectedTag p) with
  | Some t => bool_decide (offer_tag u ?? "" = t)
  | None => false
  end.

Definition optionConflict (s : selection) : bool := testOnly (options s) && force (options s).

Definition preflightBlock (p : page) : bool :=
  match value (staged p) with
  | Some i => negb (preflightOk i) && negb (skipPreflight (sel p))
  | None => false
  end.

(** The staged image's panel body, its buttons and its install form. *)
Definition staged_shown (p : page) : bool :=
  sysupgrade_capable p && negb (uploading p) && bool_decide (is_Some (value (staged p))).

Definition installSelected (p : page) : bool :=
  bool_decide (selectionSource (sel p) = Some SLocal).

Definition form_shown (p : page) : bool := staged_shown p && installSelected p.

Definition card_shown (p : page) : bool :=
  bool_decide (selectionSource (sel p) = Some SRelease)
  && bool_decide (is_Some (selected (sel p))) && sysupgrade_capable p && negb (inFlight p).

Definition form_confirm_enabled (p : page) : bool :=
  form_shown p && negb (startBusy (sel p) || optionConflict (sel p) || preflightBlock p).

Definition card_confirm_enabled (p : page) : bool :=
  card_shown p && negb (startBusy (sel p) || optionConflict (sel p)).

(** The progress panel and its Cancel button. *)
Definition panel_shown (m : monitor) : bool :=
  match progress_of_page m with
  | Some e => negb (bool_decide (phase e = IDLE) || bool_decide (phase e = UNSPECIFIED))
  | None => false
  end.

Definition cancelable (m : monitor) : bool :=
  match progress_of_page m with
  | Some e => bool_decide (phase e = DOWNLOADING) || bool_decide (phase e = VERIFYING)
  | None => false
  end.

(** The reset panel. *)
Definition hostnameMatches (c : capability plain) (typed : string) : bool :=
  bool_decide (cap_hostname c ≠ "")
  && bool_decide (toLowerCase (trim typed) = toLowerCase (trim (cap_hostname c))).

Definition reset_capable (p : page) : bool :=
  match value (cap p) with Some c => capable c | None => false end.

Definition reset_form_shown (p : page) : bool :=
  reset_capable p && negb (resetTriggered (rst p)) && resetExpanded (rst p).

Definition armed (p : page) : bool :=
  match value (cap p) with
  | Some c => capable c && hostnameMatches c (resetTypedHostname (rst p)) && resetAck (rst p)
              && negb (resetBusy (rst p))
  | None => false
  end.

(** *** Events *)

Inductive event :=
| InfoSettled (r : option (system_info plain) + js_error)
| ClickRefresh
| UpdatesSettled (r : (list update * option date) + js_error)
| ClickCheck
| TogglePrerelease (b : bool)
| StagedSettled (r : option image + js_error)
| CapSettled (r : capability plain + js_error)
| ClickInstall (row : nat)
| ClickInstallStaged
| ClickCancelSelection
| ToggleOption (key : option_key) (v : bool)
| ToggleForceUnknown (v : bool)
| ToggleSkipPreflight (v : bool)
| ClickConfirm
| ConfirmSettled (r : option js_error)
| FetchSettled (i : nat) (r : option release + js_error)
| PickFile (name : string) (size : Z)
| UploadEvent (i : nat) (e : xhr_event)
| IdleTimer
| ClickCancelUpload
| ClickDiscard
| DiscardSettled (r : option js_error)
| SnapshotSettled (r : option progress + js_error)
| StreamFrame (e : option progress)
| StreamThrew
| StreamClosed
| ClickCancelUpgrade
| CancelSettled (r : option js_error)
| ClickBeginReset
| ClickCancelReset
| TypeHostname (s : string)
| ToggleAck (b : bool)
| ClickConfirmReset
| ResetSettled (r : option js_error).

Section Page.
Context (JSON_parse : string → option upload_body) (parseDate : string → date).

Definition when (b : bool) (f : page → page) (p : page) : page := if b then f p else p.

(** The answer of [listAvailableUpdates]: its objects are new. *)
Definition number_offers (n : nat) (l : list update) : list offer :=
  imap (λ i u, (n + i, u)) l.

Definition updates_settled (r : (list update * option date) + js_error) (p : page) : page :=
  match r with
  | inl (l, fetchedAt) =>
      let offers := number_offers (length (offered (log p))) l in
      set_log (mk_log (requests (log p)) (pending (log p)) (offered (log p) ++ offers)
                 (resets (log p)) (discards (log p)))
        (set_updates (load_settled (inl (Some (offers, fetchedAt))) (updates p)) p)
  | inr e => set_updates (load_settled (inr e) (updates p)) p
  end.

Definition click_install (row : nat) (p : page) : page :=
  match listed p !! row with
  | Some u => when (sysupgrade_capable p && negb (installDisabled p) && negb (row_selected p u))
                (set_sel (handleSelect u (sel p))) p
  | None => p
  end.

Definition handleCancelSelection (p : page) : page :=
  set_det (detail_cancelled (det p)) (set_sel (cancel_selection (sel p)) p).

Definition send_request (r : option request) (p : page) : page :=
  match r with
  | None => p
  | Some r => set_log (mk_log (requests (log p) ++ [r]) (S (pending (log p))) (offered (log p))
                         (resets (log p)) (discards (log p))) p
  end.

Definition click_confirm (p : page) : page :=
  let '(s, r) := handleConfirm (value (staged p)) (sel p) in send_request r (set_sel s p).

Definition confirm_answered (r : option js_error) (p : page) : page :=
  match pending (log p) with
  | O => p
  | S n => set_sel (confirm_settled r (sel p))
             (set_log (mk_log (requests (log p)) n (offered (log p)) (resets (log p)) (discards (log p))) p)
  end.

Definition handlePickFile (name : string) (size : Z) (p : page) : page :=
  set_staged (set_load_error None (staged p))
    (set_upl (drain_aborts
       (pick_file name size (bool_decide (selectionSource (sel p) = Some SRelease)) (upl p))) p).

(** The upload resolved: the image is staged and a release selected when the
    upload began is dropped. *)
Definition upload_done (x : upload) (img : option image) (p : page) : page :=
  let p := set_upl (upload_ended (up_id x) (set_upload upload_idle (upl p)))
             (set_staged (set_value img (staged p)) p) in
  if from_release x then
    let s := sel p in
    set_det (forget_tag (det p))
      (set_sel (mk_sel None None (options s) (forceUnknown s) (skipPreflight s) (startError s)
                  (startBusy s)) p)
  else p.

Definition upload_event (i : nat) (e : xhr_event) (p : page) : page :=
  match list_find (λ x, up_id x = i) (live (upl p)) with
  | None => p
  | Some (_, x) =>
      match event_outcome JSON_parse parseDate e with
      | None => match progress_of e with
                | Some (l, t) => set_upl (upload_progress l t (upl p)) p
                | None => p
                end
      | Some (inl img) => upload_done x img p
      | Some (inr err) =>
          if decide (err_name err = "AbortError")
          then set_upl (upload_ended i (set_upload upload_idle (upl p))) p
          else set_staged (set_load_error (Some err) (staged p))
                 (set_upl (upload_failed i err (upl p)) p)
      end
  end.

(** [handleDiscardStaged] up to its call, whose closure has the selection of
    this render, and the rest of it. *)
Definition handleDiscardStaged (p : page) : page :=
  set_log (mk_log (requests (log p)) (pending (log p)) (offered (log p)) (resets (log p))
             (discards (log p) ++ [installSelected p]))
    (set_staged (set_load_error None (staged p)) p).

Definition discard_settled (r : option js_error) (p : page) : page :=
  match discards (log p) with
  | [] => p
  | from_local :: rest =>
      let p := set_log (mk_log (requests (log p)) (pending (log p)) (offered (log p))
                          (resets (log p)) rest) p in
      match r with
      | Some e => set_staged (set_load_error (Some e) (staged p)) p
      | None =>
          let p := set_staged (set_value None (staged p)) p in
          if from_local then
            let s := sel p in
            set_sel (mk_sel None (selected s) (options s) (forceUnknown s) (skipPreflight s) None
                       (startBusy s)) p
          else p
      end
  end.

Definition option_shown (p : page) : bool := (form_shown p || card_shown p) && negb (startBusy (sel p)).

Definition handle (e : event) (p : page) : page :=
  match e with
  | InfoSettled r => set_info (load_settled r (info p)) p
  | ClickRefresh => when (negb (loading (info p))) (set_info (load_start (info p))) p
  | UpdatesSettled r => updates_settled r p
  | ClickCheck =>
      when (sysupgrade_capable p && negb (installDisabled p || loading (updates p)))
        (set_updates (load_start (updates p))) p
  | TogglePrerelease b =>
      when (sysupgrade_capable p && negb (installDisabled p || loading (updates p)))
        (setIncludePrerelease b) p
  | StagedSettled r => set_staged (load_settled r (staged p)) p
  | CapSettled r =>
      set_cap (load_settled (match r with inl c => inl (Some c) | inr e => inr e end) (cap p)) p
  | ClickInstall row => click_install row p
  | ClickInstallStaged =>
      when (staged_shown p && negb (installSelected p) && negb (installDisabled p || inFlight p))
        (set_sel (handleSelectLocal (sel p))) p
  | ClickCancelSelection => when (option_shown p) handleCancelSelection p
  | ToggleOption key v => when (option_shown p) (set_sel (handleChangeOption key v (sel p))) p
  | ToggleForceUnknown v =>
      when (option_shown p && unknownVersion p) (set_sel (setForceUnknown v (sel p))) p
  | ToggleSkipPreflight v =>
      when (form_shown p && negb (startBusy (sel p))
            && match value (staged p) with Some i => negb (preflightOk i) | None => false end)
        (set_sel (setSkipPreflight v (sel p))) p
  | ClickConfirm => when (form_confirm_enabled p || card_confirm_enabled p) click_confirm p
  | ConfirmSettled r => confirm_answered r p
  | FetchSettled i r => set_det (fetch_settled i r (det p)) p
  | PickFile name size =>
      when (sysupgrade_capable p && negb (installDisabled p || uploading p))
        (handlePickFile name size) p
  | UploadEvent i e => upload_event i e p
  | IdleTimer => set_upl (idle_timer (upl p)) p
  | ClickCancelUpload =>
      when (sysupgrade_capable p && uploading p)
        (set_upl (drain_aborts (handleCancelUpload (upl p)))) p
  | ClickDiscard =>
      when (staged_shown p && negb (installSelected p) && negb (installDisabled p || inFlight p))
        handleDiscardStaged p
  | DiscardSettled r => discard_settled r p
  | SnapshotSettled r => when (bool_decide (stage (mon p) = Snapshot)) (set_mon (snapshot_settled r (mon p))) p
  | StreamFrame ev => when (bool_decide (stage (mon p) = Streaming)) (set_mon (stream_frame ev (mon p))) p
  | StreamThrew => when (bool_decide (stage (mon p) = Streaming)) (set_mon (stream_threw (mon p))) p
  | StreamClosed => when (bool_decide (stage (mon p) = Streaming)) (set_mon (stream_closed (mon p))) p
  | ClickCancelUpgrade =>
      when (panel_shown (mon p) && cancelable (mon p) && negb (cancelBusy (mon p)))
        (set_mon (handleCancelUpgrade (mon p))) p
  | CancelSettled r => when (cancelBusy (mon p)) (set_mon (cancel_settled r (mon p))) p
  | ClickBeginReset =>
      when (reset_capable p && negb (resetTriggered (rst p)) && negb (resetExpanded (rst p))
            && negb (resetBusy (rst p))) (set_rst (handleBeginReset (rst p))) p
  | ClickCancelReset =>
      when (reset_form_shown p && negb (resetBusy (rst p))) (set_rst (handleCancelReset (rst p))) p
  | TypeHostname s =>
      when (reset_form_shown p && negb (resetBusy (rst p)))
        (set_rst (setResetTypedHostname s (rst p))) p
  | ToggleAck b =>
      when (reset_form_shown p && negb (resetBusy (rst p))) (set_rst (setResetAck b (rst p))) p
  | ClickConfirmReset =>
      when (reset_form_shown p && armed p)
        (λ p, set_log (mk_log (requests (log p)) (pending (log p)) (offered (log p))
                         (resets (log p) ++ [resetTypedHostname (rst p)]) (discards (log p)))
                (set_rst (handleConfirmReset (rst p)) p)) p
  | ResetSettled r => when (resetBusy (rst p)) (set_rst (reset_settled r (rst p))) p
  end.

(** The effects whose dependencies the event changed. *)
Definition run_effects (old p : page) : page :=
  let p := set_det (selected_changed (selected (sel old)) (selected (sel p)) (det p)) p in
  let known := λ q, sysupgradeCapable <$> value (info q) in
  let capability := negb (bool_decide (known old = known p)) in
  let p := when (sysupgrade_capable p
                 && (capability || negb (bool_decide (includePrerelease old = includePrerelease p))))
             (set_updates (load_start (updates p))) p in
  when (sysupgrade_capable p && capability) (set_staged (load_start (staged p))) p.

Definition fire (e : event) (p : page) : page := run_effects p (handle e p).

(** The release server answers [getReleaseDetail] with what it has for the tag. *)
Context (server : string → option release).

Definition answers (p : page) (e : event) : Prop :=
  match e with
  | FetchSettled i (inl v) => ∀ f, f ∈ fetches (det p) → f_id f = i → v = server (f_tag f)
  | _ => True
  end.

Definition step (p p' : page) : Prop := ∃ e, answers p e ∧ p' = fire e p.
Definition reachable : page → Prop := rtc step SettingsFirmware.
End Page.
