(* ===== verification/FirmwareSafe.v ===== *)
(** The firmware page is safe: invariants of its reachable states, what it asks
    the server for, which release detail and which upload it shows, and the
    factory reset against the manager's own checks; runs that exhibit its
    defects close the file. *)
From S2P Require Import Prelude JsString SysupgradeApi Firmware.
Open Scope js_scope.

(** ** Frames *)

Lemma run_effects_frame old p :
  let q := run_effects old p in
  sel q = sel p ∧ log q = log p ∧ upl q = upl p ∧ rst q = rst p ∧ mon q = mon p
  ∧ info q = info p ∧ cap q = cap p
  ∧ det q = selected_changed (selected (sel old)) (selected (sel p)) (det p)
  ∧ value (updates q) = value (updates p) ∧ value (staged q) = value (staged p)
  ∧ load_error (staged q) = load_error (staged p).
Proof. unfold run_effects, when. simpl. by repeat case_match. Qed.

(** ** Installing *)

Record sel_inv (p : page) : Prop := {
  si_pending : pending (log p) = if startBusy (sel p) then 1 else 0;
  si_selected : ∀ u, selected (sel p) = Some u → u ∈ offered (log p);
  si_listed : listed p ⊆ offered (log p);
  si_ids : ∀ i u, offered (log p) !! i = Some u → u.1 = i
}.

Lemma sel_inv_ext p q :
  pending (log q) = pending (log p) → startBusy (sel q) = startBusy (sel p) →
  (selected (sel q) = None ∨ selected (sel q) = selected (sel p)) →
  offered (log q) = offered (log p) → value (updates q) = value (updates p) →
  sel_inv p → sel_inv q.
Proof.
  intros H1 H2 H3 H4 H5 []. split.
  - by rewrite H1, H2.
  - intros u Hu. rewrite H4. destruct H3; [congruence|]. apply si_selected0. congruence.
  - unfold listed. by rewrite H4, H5.
  - by rewrite H4.
Qed.

Lemma sel_inv_confirm p : startBusy (sel p) = false → sel_inv p → sel_inv (click_confirm p).
Proof.
  intros Hb [H1 H2 H3 H4]. unfold click_confirm, handleConfirm. rewrite Hb in H1.
  destruct (confirm_call _ _) as [[r|]|e]; split; simpl; auto.
Qed.

Lemma sel_inv_updates r p : sel_inv p → sel_inv (updates_settled r p).
Proof.
  intros [H1 H2 H3 H4]. destruct r as [[l d]|e]; split; simpl; auto.
  - intros u Hu. set_solver.
  - unfold listed; simpl. set_solver.
  - intros i u [Hi|[Hi Hu]]%lookup_app_Some; [by apply H4|].
    unfold number_offers in Hu. rewrite list_lookup_imap in Hu.
    apply fmap_Some in Hu as (v & _ & ->). unfold offer in *. simpl. lia.
Qed.

Lemma confirm_enabled_idle p :
  form_confirm_enabled p || card_confirm_enabled p = true → startBusy (sel p) = false.
Proof.
  unfold form_confirm_enabled, card_confirm_enabled. destruct (startBusy (sel p)); [|done].
  simpl. by rewrite !andb_false_r.
Qed.

Section Invariants.
Context (JP : string → option upload_body) (PD : string → date).

Lemma sel_inv_handle e p : sel_inv p → sel_inv (handle JP PD e p).
Proof.
  intros H. destruct e; simpl; unfold when; try (case_match; [|exact H]);
    try (by apply (sel_inv_ext p); auto).
  - by apply sel_inv_updates.
  - unfold click_install, when. destruct (listed p !! row) as [u|] eqn:Hu; [|done].
    case_match; [|done]. destruct H as [H1 H2 H3 H4]. split; simpl; auto.
    intros ? [= <-]. apply H3. by eapply list_elem_of_lookup_2.
  - apply sel_inv_confirm; [by apply confirm_enabled_idle|done].
  - unfold confirm_answered. destruct (pending (log p)) as [|n] eqn:Hn; [done|].
    destruct H as [H1 H2 H3 H4]. split; simpl; auto. destruct (startBusy (sel p)); congruence.
  - unfold upload_event, upload_done. repeat case_match; try done; by apply (sel_inv_ext p); auto.
  - unfold discard_settled. repeat case_match; try done; by apply (sel_inv_ext p); auto.
Qed.

Lemma sel_inv_fire e p : sel_inv p → sel_inv (fire JP PD e p).
Proof.
  intros H%(sel_inv_handle e). unfold fire.
  destruct (run_effects_frame p (handle JP PD e p)) as (Hs & Hl & _ & _ & _ & _ & _ & _ & Hu & _).
  eapply sel_inv_ext; [by rewrite Hl|by rewrite Hs|right; by rewrite Hs|by rewrite Hl|done|done].
Qed.

Lemma same_offer p u v :
  sel_inv p → u ∈ offered (log p) → v ∈ offered (log p) → u.1 = v.1 → u = v.
Proof.
  intros H [i Hi]%list_elem_of_lookup_1 [j Hj]%list_elem_of_lookup_1 Huv.
  rewrite (si_ids p H _ _ Hi), (si_ids p H _ _ Hj) in Huv. congruence.
Qed.

(** ** The release detail *)

Context (server : string → option release).

Definition det_weak (d : detail) : Prop :=
  (∀ f, f ∈ fetches d → f_id f < nfetch d)
  ∧ (∀ f, f ∈ fetches d → f_cancelled f = false → effect_fetch d = Some (f_id f))
  ∧ (∀ t r, lastFetchedTagRef d = Some t → release_of d = Some r → server t = Some r).

Definition sel_tag (s : option offer) : option string := s ≫= λ u, truthy (offer_tag u).

Record det_inv (s : option offer) (d : detail) : Prop := {
  di_weak : det_weak d;
  di_tag : ∀ f, f ∈ fetches d → f_cancelled f = false → lastFetchedTagRef d = Some (f_tag f);
  di_last : ∀ t, sel_tag s = Some t → lastFetchedTagRef d = Some t;
  di_none : s = None → effect_fetch d = None
}.

Lemma detail_cleanup_spec d :
  det_weak d →
  let d' := detail_cleanup d in
  effect_fetch d' = None ∧ det_weak d' ∧ (∀ f, f ∈ fetches d' → f_cancelled f = true).
Proof.
  intros Hw. pose proof Hw as (H1 & H2 & H3). unfold detail_cleanup.
  destruct (effect_fetch d) as [i|] eqn:He; simpl.
  - assert (∀ f, f ∈ cancel_fetch i <$> fetches d → f_cancelled f = true ∧ f_id f < nfetch d) as Hf.
    { intros f (g & -> & Hg)%list_elem_of_fmap. unfold cancel_fetch.
      case_decide as Hi; simpl; [auto|]. split; [|by apply H1].
      destruct (f_cancelled g) eqn:Hc; [done|]. apply H2 in Hc; [|done]. congruence. }
    split; [done|]. split; [split_and!|]; simpl.
    + intros f Hin. by apply Hf.
    + intros f Hin Hc. apply Hf in Hin as [? _]. congruence.
    + done.
    + intros f Hin. by apply Hf.
  - split; [done|]. split; [done|]. intros f Hin.
    destruct (f_cancelled f) eqn:Hc; [done|].
    apply H2 in Hc; congruence.
Qed.

Lemma selected_changed_inv old new d :
  fst <$> old ≠ fst <$> new → det_weak d → det_inv new (selected_changed old new d).
Proof.
  intros Hne Hd. unfold selected_changed. rewrite decide_False by done.
  destruct (detail_cleanup_spec d Hd) as (He & Hw & Hc).
  set (d' := detail_cleanup d) in *. clearbody d'. pose proof Hw as (W1 & W2 & W3).
  unfold detail_effect. fold (sel_tag new). destruct (sel_tag new) as [t|] eqn:Ht.
  - assert (new ≠ None) by (destruct new; done).
    case_decide as Hl.
    + split; [done| |naive_solver|done]. intros f Hf Hx. apply Hc in Hf. congruence.
    + split; simpl; [split_and!| |naive_solver|done]; simpl.
      * intros f [Hf%W1| ->%list_elem_of_singleton]%elem_of_app; simpl; lia.
      * intros f [Hf| ->%list_elem_of_singleton]%elem_of_app Hx; [|done]. apply Hc in Hf. congruence.
      * done.
      * intros f [Hf| ->%list_elem_of_singleton]%elem_of_app Hx; [|done]. apply Hc in Hf. congruence.
  - split; [done| |congruence|done]. intros f Hf Hx. apply Hc in Hf. congruence.
Qed.

Lemma selected_changed_same s d : selected_changed s s d = d.
Proof. unfold selected_changed. by rewrite decide_True. Qed.

(** An event that forgets the tag drops the selection. *)
Lemma det_inv_dropped s d d' :
  det_inv s d → fetches d' = fetches d → nfetch d' = nfetch d → effect_fetch d' = effect_fetch d →
  lastFetchedTagRef d' = None → det_inv None (selected_changed s None d').
Proof.
  intros [(W1 & W2 & W3) T L N] H1 H2 H3 H4.
  assert (det_weak d') as Hw.
  { unfold det_weak. rewrite H1, H2, H3. split_and!; [done|done|]. intros. congruence. }
  destruct s as [u|]; [by apply selected_changed_inv|]. rewrite selected_changed_same.
  split; [done| |done|]; rewrite ?H3; [|auto]. rewrite H1. intros f Hf Hc.
  apply W2 in Hc; [|done]. rewrite N in Hc by done. done.
Qed.

Lemma fetch_settled_inv s i r d :
  (∀ v, r = inl v → ∀ f, f ∈ fetches d → f_id f = i → v = server (f_tag f)) →
  det_inv s d → det_inv s (fetch_settled i r d).
Proof.
  intros Hr [(W1 & W2 & W3) T L N]. unfold fetch_settled.
  destruct (list_find _ (fetches d)) as [[k f]|] eqn:Hf; [|by split].
  apply list_find_Some in Hf as (Hf & Hi & _). apply list_elem_of_lookup_2 in Hf.
  assert (∀ g, g ∈ filter (λ f, f_id f ≠ i) (fetches d) → g ∈ fetches d) as Hsub.
  { by intros g [_ ?]%list_elem_of_filter. }
  destruct (f_cancelled f) eqn:Hc; [|destruct r as [v|e]].
  - split; [split_and!|..]; simpl; eauto.
  - split; [split_and!|..]; simpl; eauto.
    intros t rel Ht ->. rewrite (T f Hf Hc) in Ht. injection Ht as <-. symmetry. by eapply Hr.
  - split; [split_and!|..]; simpl; eauto.
Qed.

(** The events that reach the selection or its detail. *)
Definition selects (e : event) : bool :=
  match e with
  | ClickInstall _ | ClickInstallStaged | ClickCancelSelection | FetchSettled _ _
  | UploadEvent _ _ => true
  | _ => false
  end.

Lemma handle_keeps e p :
  selects e = false →
  det (handle JP PD e p) = det p
  ∧ selected (sel (handle JP PD e p)) = selected (sel p).
Proof.
  intros He. destruct e; try done; simpl; unfold when, updates_settled, confirm_answered,
    discard_settled, click_confirm, handleConfirm, send_request;
    by repeat case_match; simplify_eq.
Qed.

(** The selection after a click that changed it: another offer, or none. *)
Lemma det_inv_selects p s' d' :
  det_inv (selected (sel p)) (det p) → d' = det p →
  (fst <$> selected (sel p) = fst <$> s' → selected (sel p) = s') →
  det_inv s' (selected_changed (selected (sel p)) s' d').
Proof.
  intros H -> Hs. destruct (decide (fst <$> selected (sel p) = fst <$> s')) as [Heq|Hne].
  - rewrite <- (Hs Heq), selected_changed_same. done.
  - apply selected_changed_inv; [done|]. apply H.
Qed.

Lemma upload_event_det i e p :
  let q := upload_event JP PD i e p in
  (det q = det p ∧ selected (sel q) = selected (sel p))
  ∨ (det q = forget_tag (det p) ∧ selected (sel q) = None).
Proof. unfold upload_event, upload_done. repeat case_match; simpl; auto. Qed.

Lemma det_inv_fire e p :
  sel_inv p → answers server p e → det_inv (selected (sel p)) (det p) →
  det_inv (selected (sel (fire JP PD e p))) (det (fire JP PD e p)).
Proof.
  intros HI Ha H. unfold fire.
  destruct (run_effects_frame p (handle JP PD e p)) as (-> & _ & _ & _ & _ & _ & _ & -> & _).
  destruct (selects e) eqn:He; cycle 1.
  { destruct (handle_keeps e p He) as [-> ->]. by rewrite selected_changed_same. }
  destruct e; try done; simpl.
  - unfold click_install, when. destruct (listed p !! row) as [u|] eqn:Hu;
      [destruct (_ && _)|]; simpl; apply det_inv_selects; auto.
    simpl. intros Heq. destruct (selected (sel p)) as [v|] eqn:Hv; [|done]. f_equal.
    apply (same_offer p); [done|by apply si_selected| |by injection Heq].
    apply si_listed; [done|]. by eapply list_elem_of_lookup_2.
  - unfold when. destruct (_ && _); simpl; apply det_inv_selects; auto. simpl.
    by destruct (selected (sel p)).
  - unfold when. destruct (option_shown p); simpl; [|by apply det_inv_selects].
    by eapply det_inv_dropped.
  - rewrite selected_changed_same. apply fetch_settled_inv; [|done]. by intros v ->.
  - destruct (upload_event_det i e p) as [[-> ->]|[-> ->]];
      [by rewrite selected_changed_same|by eapply det_inv_dropped].
Qed.

(** ** The upload *)

(** The uploads in progress are the one the ref names, if any. *)
Definition only_live (r : option nat) (l : list upload) : Prop :=
  match r with
  | None => l = []
  | Some i => ∃ fr, l = [{| up_id := i; up_aborted := false; from_release := fr |}]
  end.

Record upl_inv (u : uploads) : Prop := {
  ui_live : only_live (uploadAbortRef u) (live u);
  ui_status : status (uploadState u) = UUploading → is_Some (uploadAbortRef u);
  ui_fresh : ∀ i, uploadAbortRef u = Some i → i < nupload u
}.

Lemma upl_inv_ended i u :
  upl_inv u → uploadAbortRef u = Some i → status (uploadState u) ≠ UUploading →
  upl_inv (upload_ended i u).
Proof.
  intros [H1 H2 H3] Hr Hs. rewrite Hr in H1. destruct H1 as [fr Hl].
  split; simpl; rewrite ?(decide_True _ _ Hr); simpl; try done.
  rewrite Hl. by rewrite filter_cons_False by (simpl; tauto).
Qed.

(** What is left of an aborted upload, with or without a successor. *)
Lemma drain_aborted u i fr rest :
  live u = {| up_id := i; up_aborted := true; from_release := fr |} :: rest →
  Forall (λ x, up_aborted x = false ∧ up_id x ≠ i) rest →
  let u' := drain_aborts u in
  uploadState u' = upload_idle ∧ live u' = rest ∧ nupload u' = nupload u
  ∧ uploadAbortRef u' = (if decide (uploadAbortRef u = Some i) then None else uploadAbortRef u).
Proof.
  intros Hl Hr. unfold drain_aborts. rewrite Hl. cbn [foldl up_aborted up_id].
  set (u1 := upload_ended i _).
  assert (∀ u, foldl (λ u x, if up_aborted x
      then upload_ended (up_id x) (set_upload upload_idle u) else u) u rest = u) as ->.
  { clear Hl u1. induction Hr as [|x l [Hx _] _ IH]; intros v; [done|]. simpl. by rewrite Hx. }
  split_and!; try done. simpl. rewrite Hl, filter_cons_False by (simpl; tauto).
  clear Hl u1. induction Hr as [|x l [_ Hx] _ IH]; [done|].
  rewrite filter_cons_True by done. by f_equal.
Qed.

Lemma abort_single i fr :
  abort_upload i {| up_id := i; up_aborted := false; from_release := fr |}
  = {| up_id := i; up_aborted := true; from_release := fr |}.
Proof. unfold abort_upload. simpl. by rewrite decide_True. Qed.

Tactic Notation "drain" "as" simple_intropattern(pat) "for" constr(i) constr(fr) :=
  match goal with
  | |- context [drain_aborts ?v] =>
      destruct (drain_aborted v i fr (tail (live v)) eq_refl) as pat;
      [|let w := fresh in set (w := drain_aborts v) in *; clearbody w; simpl in *]
  end.

Lemma pick_file_inv name size fr u : upl_inv u → upl_inv (drain_aborts (pick_file name size fr u)).
Proof.
  intros [H1 H2 H3]. unfold pick_file, abort_ref.
  destruct (uploadAbortRef u) as [i|] eqn:Hr; simpl in *.
  - destruct H1 as [fr' Hl]. pose proof (H3 i eq_refl) as Hi. rewrite Hl. simpl.
    rewrite abort_single. drain as (Hs & Hv & Hn & Hf) for i fr'.
    { repeat constructor. simpl. lia. }
    rewrite decide_False in Hf by (intros [= <-]; lia).
    split; rewrite ?Hs, ?Hv, ?Hn, ?Hf; simpl; [by eexists|done|]. intros ? [= <-]. lia.
  - rewrite H1. split; simpl; [by eexists|by eexists|]. intros ? [= <-]. lia.
Qed.

Lemma cancel_upload_inv u : upl_inv u → upl_inv (drain_aborts (handleCancelUpload u)).
Proof.
  intros [H1 H2 H3]. unfold handleCancelUpload, abort_ref.
  destruct (uploadAbortRef u) as [i|] eqn:Hr; simpl in *.
  - destruct H1 as [fr' Hl]. rewrite Hl. simpl.
    rewrite abort_single. drain as (Hs & Hv & Hn & Hf) for i fr'; [done|].
    split; rewrite ?Hs, ?Hv, ?Hn, ?Hf; done.
  - unfold drain_aborts. rewrite H1. simpl. split; rewrite ?H1, ?Hr; done.
Qed.

Lemma upload_lookup u i k x :
  upl_inv u → list_find (λ x, up_id x = i) (live u) = Some (k, x) →
  uploadAbortRef u = Some i ∧ up_id x = i ∧ live u = [x].
Proof.
  intros [H1 _ _] (Hx & Hi & _)%list_find_Some. unfold only_live in H1.
  destruct (uploadAbortRef u) as [j|]; [destruct H1 as [fr H1]; rewrite H1 in *|by rewrite H1 in Hx].
  destruct k; [|done]. simpl in Hx. injection Hx as <-. simpl in *. by subst.
Qed.

Lemma upl_inv_ext u v :
  uploadAbortRef v = uploadAbortRef u → live v = live u → nupload v = nupload u →
  (status (uploadState v) = UUploading → status (uploadState u) = UUploading) →
  upl_inv u → upl_inv v.
Proof. intros H1 H2 H3 H4 []. split; rewrite ?H1, ?H2, ?H3; auto. Qed.

Lemma upload_event_inv i e p : upl_inv (upl p) → upl_inv (upl (upload_event JP PD i e p)).
Proof.
  intros H. unfold upload_event.
  destruct (list_find _ _) as [[k x]|] eqn:Hx; [|done].
  destruct (upload_lookup _ _ _ _ H Hx) as (Hr & Hi & _).
  assert (∀ st, status st ≠ UUploading → upl_inv (upload_ended i (set_upload st (upl p)))) as Hend.
  { intros st Hst. apply upl_inv_ended; simpl; [|done..]. by apply (upl_inv_ext (upl p)). }
  destruct (event_outcome JP PD e) as [[img|err]|].
  - unfold upload_done. rewrite Hi. by destruct (from_release x); apply Hend.
  - case_decide; simpl; [by apply Hend|]. unfold upload_failed.
    apply upl_inv_ended; simpl; [|done..]. by apply (upl_inv_ext (upl p)).
  - destruct (progress_of e) as [[l t]|]; [|done]. simpl. unfold upload_progress.
    case_decide; [|done]. by apply (upl_inv_ext (upl p)).
Qed.

Lemma upl_inv_fire e p : upl_inv (upl p) → upl_inv (upl (fire JP PD e p)).
Proof.
  intros H. unfold fire.
  destruct (run_effects_frame p (handle JP PD e p)) as (_ & _ & -> & _).
  destruct e; simpl; unfold updates_settled, click_install, click_confirm, handleConfirm,
    send_request, confirm_answered, discard_settled, when; try (by repeat case_match; simplify_eq).
  - case_match; [|done]. by apply pick_file_inv.
  - by apply upload_event_inv.
  - unfold idle_timer. destruct (idle_timers (upl p)); [done|]. by apply (upl_inv_ext (upl p)).
  - case_match; [|done]. by apply cancel_upload_inv.
Qed.

Lemma upload_settles p x ev out :
  upl_inv (upl p) → x ∈ live (upl p) → event_outcome JP PD ev = Some out →
  let q := upload_event JP PD (up_id x) ev p in
  live (upl q) = [] ∧ bool_decide (status (uploadState (upl q)) = UUploading) = false
  ∧ match out with
    | inl img => value (staged q) = img
    | inr err => value (staged q) = value (staged p)
                 ∧ (err_name err ≠ "AbortError" → load_error (staged q) = Some err)
    end.
Proof.
  intros [H1 _ _] Hx Hout. unfold only_live in H1.
  destruct (uploadAbortRef (upl p)) as [i|];
    [destruct H1 as [fr Hl]|by rewrite H1 in Hx; apply not_elem_of_nil in Hx].
  rewrite Hl in Hx. apply list_elem_of_singleton in Hx as ->. unfold upload_event. simpl.
  assert (∀ P, list_find (λ x, up_id x = i) (live (upl p)) = P →
    P = Some (0, {| up_id := i; up_aborted := false; from_release := fr |})) as Hf.
  { intros P <-. rewrite Hl. simpl. by rewrite decide_True. }
  rewrite (Hf _ eq_refl), Hout. simpl.
  destruct out as [img|err]; [|case_decide as Hn]; simpl; unfold upload_done; simpl;
    [destruct fr|..]; simpl; rewrite Hl, filter_cons_False by (simpl; tauto); done.
Qed.
End Invariants.

Lemma reachable_inv JP PD server (P : page → Prop) p :
  P SettingsFirmware → (∀ e q, answers server q e → P q → P (fire JP PD e q)) →
  reachable JP PD server p → P p.
Proof.
  intros H0 Hs. revert p. apply rtc_ind_r; [done|]. intros q q' _ (e & Ha & ->). by apply Hs.
Qed.

Lemma reachable_sel_inv JP PD server p : reachable JP PD server p → sel_inv p.
Proof.
  apply reachable_inv; [|intros; by apply sel_inv_fire].
  by split.
Qed.

Lemma reachable_upl_inv JP PD server p : reachable JP PD server p → upl_inv (upl p).
Proof.
  apply (reachable_inv JP PD server (λ p, upl_inv (upl p))); [by split|].
  intros. by apply upl_inv_fire.
Qed.

Lemma reachable_det_inv JP PD server p :
  reachable JP PD server p → det_inv server (selected (sel p)) (det p).
Proof.
  intros H. apply (reachable_inv JP PD server (λ p, sel_inv p ∧ det_inv server (selected (sel p)) (det p))) in H;
    [by destruct H| |intros e q Ha [H1 H2]; split; [by apply sel_inv_fire|by apply det_inv_fire]].
  split; [by apply (reachable_sel_inv JP PD server), rtc_refl|].
  split; simpl; [|set_solver|done|done]. split_and!; simpl; [set_solver..|done].
Qed.

(** The only event that sends a start call. *)
Lemma handle_requests JP PD e p :
  e ≠ ClickConfirm → requests (log (handle JP PD e p)) = requests (log p).
Proof.
  intros He. destruct e; try done; simpl; unfold updates_settled, click_install, confirm_answered,
    upload_event, upload_done, discard_settled, when; by repeat case_match.
Qed.

(** What a start call asks for. *)
Definition request_ok (p : page) (r : request) : Prop :=
  sysupgrade_capable p = true
  ∧ match r with
    | StartUpgrade t a o f =>
        (testOnly o && force o) = false ∧ inFlight p = false
        ∧ ∃ u, u ∈ offered (log p) ∧ selected (sel p) = Some u
             ∧ offer_tag u = Some t ∧ offer_asset u = Some a ∧ t ≠ "" ∧ a ≠ ""
    | StartLocalUpgrade o f k =>
        (testOnly o && force o) = false ∧ uploading p = false
        ∧ ∃ img, value (staged p) = Some img ∧ (preflightOk img || k) = true
    end.

Lemma truthy_Some o t : truthy o = Some t ↔ o = Some t ∧ t ≠ "".
Proof. unfold truthy. destruct o; simpl; [case_decide|]; naive_solver. Qed.

Lemma confirm_request_ok p r :
  sel_inv p → form_confirm_enabled p || card_confirm_enabled p = true →
  confirm_call (value (staged p)) (sel p) = inl (Some r) → request_ok p r.
Proof.
  intros HI. unfold form_confirm_enabled, card_confirm_enabled, form_shown, staged_shown,
    installSelected, card_shown, confirm_call, optionConflict, preflightBlock, request_ok.
  intros He. destruct (selectionSource (sel p)) as [[]|]; [| |by rewrite ?andb_false_r in He].
  - rewrite !andb_false_r in He; simpl in He.
    destruct (selected (sel p)) as [u|] eqn:Hu; [|done]. simpl in He.
    destruct (truthy (offer_tag u)) as [t|] eqn:Ht; [|done].
    destruct (truthy (offer_asset u)) as [a|] eqn:Ha; [|done]. intros [= <-].
    apply truthy_Some in Ht as [Ht Ht0], Ha as [Ha Ha0]. bool_simpl.
    split; [done|]. split; [done|]. split; [done|]. exists u. split_and!; try done.
    by apply si_selected.
  - rewrite orb_comm in He. simpl in He.
    destruct (value (staged p)) as [img|] eqn:Hv; [|done]. intros [= <-].
    rewrite !andb_true_r in He. bool_simpl. split; [done|]. split; [done|]. split; [done|].
    exists img. split; [done|]. by destruct (preflightOk img), (skipPreflight (sel p)).
Qed.

(** C23: the page never has two start calls outstanding; the only event that sends
    one is a click on an enabled Install button, on a device that can upgrade and
    with options that do not conflict.  A release is installed by the tag and
    asset of the update selected, one that the server listed, and not during an
    upgrade; a staged image, when no upload is running and the image passed its
    preflight or the operator chose to skip it. *)
Theorem firmware_requests JP PD server p e :
  reachable JP PD server p →
  let p' := fire JP PD e p in
  (pending (log p') = if startBusy (sel p') then 1 else 0)
  ∧ (requests (log p') = requests (log p)
     ∨ e = ClickConfirm ∧ pending (log p) = 0 ∧ pending (log p') = 1
       ∧ ∃ r, requests (log p') = requests (log p) ++ [r] ∧ request_ok p r).
Proof.
  intros HI%reachable_sel_inv p'. split; [by apply sel_inv_fire|]. subst p'. unfold fire.
  destruct (run_effects_frame p (handle JP PD e p)) as (_ & -> & _).
  destruct e; try (left; by apply handle_requests). simpl. unfold when.
  destruct (_ || _) eqn:He; [|by left].
  pose proof (si_pending p HI) as Hp. rewrite (confirm_enabled_idle p He) in Hp.
  unfold click_confirm, handleConfirm.
  destruct (confirm_call _ _) as [[r|]|err] eqn:Hc; [|by left..].
  right. simpl. rewrite Hp. split_and!; [done..|].
  exists r. split; [done|]. by apply confirm_request_ok.
Qed.

(** While the server answers for the tag it is asked about, the release shown
    next to a selected update is that update's own: whatever was selected,
    cancelled or uploaded before, a late answer never appears under another
    tag. *)
Theorem release_detail_fresh JP PD server p u t r :
  reachable JP PD server p → selected (sel p) = Some u → offer_tag u = Some t → t ≠ "" →
  release_of (det p) = Some r → server t = Some r.
Proof.
  intros [(_ & _ & H3) _ Hl _]%reachable_det_inv Hu Ht Hne. apply H3, Hl.
  rewrite Hu. by apply truthy_Some.
Qed.

(** C24: at most one upload is running, it is the one the Cancel button aborts, and
    the panel never shows an upload when none runs.  When the upload's request
    ends, no upload is shown: on success the staged image is the answer's, and
    otherwise it is as it was, with the error shown unless the operator
    cancelled. *)
Theorem firmware_upload JP PD server p :
  reachable JP PD server p →
  length (live (upl p)) ≤ 1
  ∧ (∀ x, x ∈ live (upl p) → uploadAbortRef (upl p) = Some (up_id x) ∧ up_aborted x = false)
  ∧ (uploading p = true → live (upl p) ≠ [])
  ∧ ∀ x ev out, x ∈ live (upl p) → event_outcome JP PD ev = Some out →
      let p' := fire JP PD (UploadEvent (up_id x) ev) p in
      live (upl p') = [] ∧ uploading p' = false
      ∧ match out with
        | inl img => value (staged p') = img
        | inr err => value (staged p') = value (staged p)
                     ∧ (err_name err ≠ "AbortError" → load_error (staged p') = Some err)
        end.
Proof.
  intros H%reachable_upl_inv. pose proof H as [H1 H2 _]. unfold only_live in H1.
  split_and!.
  - destruct (uploadAbortRef _); [destruct H1 as [? ->]|rewrite H1]; simpl; lia.
  - destruct (uploadAbortRef _); [destruct H1 as [fr ->]|rewrite H1; by intros ? ?%not_elem_of_nil].
    by intros x ->%list_elem_of_singleton.
  - unfold uploading. intros [i Hi]%bool_decide_eq_true%H2. rewrite Hi in H1.
    by destruct H1 as [? ->].
  - intros x ev out Hx Hout. unfold fire.
    destruct (run_effects_frame p (handle JP PD (UploadEvent (up_id x) ev) p))
      as (_ & _ & Hu & _ & _ & _ & _ & _ & _ & Hv & He). unfold uploading. rewrite Hu, Hv, He.
    simpl. unfold upload_event. by apply upload_settles.
Qed.


(** ** The factory reset *)

(** The manager's side: what [PerformFactoryReset] looks at, and its errors. *)
Record reset_server := {
  runner : bool; detected : capability plain; server_hostname : option string;
  upgrading : bool; firstboot_starts : bool
}.

Inductive reset_refusal :=
| ErrFactoryResetNotCapable | ErrFactoryResetHostnameUnknown | ErrFactoryResetHostnameMismatch
| ErrBusy | ErrRunner.

Definition hostnamesMatch (typed actual : string) : bool :=
  let t := toLowerCase (trim typed) in
  let a := toLowerCase (trim actual) in
  if bool_decide (t = "") || bool_decide (a = "") then false else bool_decide (t = a).

Definition PerformFactoryReset (confirmHostname : string) (s : reset_server)
    : option reset_refusal :=
  if negb (runner s) then Some ErrFactoryResetNotCapable
  else if negb (capable (detected s)) then Some ErrFactoryResetNotCapable
  else
    let actual := server_hostname s ?? "" in
    if bool_decide (trim actual = "") then Some ErrFactoryResetHostnameUnknown
    else if negb (hostnamesMatch confirmHostname actual) then Some ErrFactoryResetHostnameMismatch
    else if upgrading s then Some ErrBusy
    else if negb (firstboot_starts s) then Some ErrRunner
    else None.

(** [mapManagerError], with the numbers of Connect's [Code] enum, which is what
    the client library puts in the [code] of its errors. *)
Definition connect_code (e : reset_refusal) : Z :=
  match e with
  | ErrFactoryResetNotCapable | ErrFactoryResetHostnameUnknown | ErrBusy => 9
  | ErrFactoryResetHostnameMismatch => 3
  | ErrRunner => 13
  end.

Definition ConnectError (msg : string) (code : Z) : js_error :=
  {| err_name := "ConnectError"; err_message := msg; err_code := Some (CNum code);
     err_status := None |}.

Lemma handle_resets JP PD e p :
  e ≠ ClickConfirmReset → resets (log (handle JP PD e p)) = resets (log p).
Proof.
  intros He. destruct e; try done; simpl; unfold updates_settled, click_install, confirm_answered,
    upload_event, upload_done, discard_settled, click_confirm, handleConfirm, send_request, when;
    by repeat case_match; simplify_eq.
Qed.

Lemma lower_empty s : toLowerCase s = "" ↔ s = "".
Proof. destruct s; [done|]. by split. Qed.

Lemma matches_server c typed :
  hostnameMatches c typed = true → trim (cap_hostname c) ≠ "" →
  hostnamesMatch typed (cap_hostname c) = true.
Proof.
  unfold hostnameMatches, hostnamesMatch. intros [_ H]%andb_true_iff Hne. bool_simpl. rewrite H.
  rewrite bool_decide_false by (by rewrite lower_empty). simpl. by apply bool_decide_eq_true.
Qed.

(** C25: a factory reset is only asked for by a click that the panel arms: on a
    capable device, with the acknowledgement ticked, no reset call outstanding,
    and the hostname typed as the device's, up to case and the white space
    around it.  The server does not then refuse it for its hostname, unless the
    hostname is blank. *)
Theorem factory_reset_confirmed JP PD p e :
  let p' := fire JP PD e p in
  resets (log p') = resets (log p)
  ∨ e = ClickConfirmReset
    ∧ resetBusy (rst p) = false ∧ resetBusy (rst p') = true
    ∧ resets (log p') = resets (log p) ++ [resetTypedHostname (rst p)]
    ∧ ∃ c, value (cap p) = Some c ∧ capable c = true ∧ resetAck (rst p) = true
      ∧ resetExpanded (rst p) = true
      ∧ toLowerCase (trim (resetTypedHostname (rst p))) = toLowerCase (trim (cap_hostname c))
      ∧ ∀ s, server_hostname s = Some (cap_hostname c) → trim (cap_hostname c) ≠ "" →
          PerformFactoryReset (resetTypedHostname (rst p)) s ∉
            [Some ErrFactoryResetHostnameUnknown; Some ErrFactoryResetHostnameMismatch].
Proof.
  cbv zeta. unfold fire.
  destruct (run_effects_frame p (handle JP PD e p)) as (_ & -> & _ & -> & _).
  destruct e; try (left; by apply handle_resets). simpl. unfold when.
  destruct (_ && _) eqn:He; [|by left]. right. apply andb_true_iff in He as [Hf Ha].
  unfold armed in Ha. destruct (value (cap p)) as [c|]; [|done].
  unfold reset_form_shown in Hf. bool_simpl. split_and!; try done. exists c.
  split_and!; try done.
  - unfold hostnameMatches in *. by bool_simpl.
  - intros s Hs Hne. unfold PerformFactoryReset. rewrite Hs. simpl.
    rewrite bool_decide_false, matches_server by done. simpl.
    repeat case_match; rewrite not_elem_of_cons, list_elem_of_singleton; naive_solver.
Qed.

(** ** Runs *)

Definition run_page (es : list event) (p : page) : page :=
  foldl (λ p e, fire (λ _, None) (λ _, InvalidDate) e p) p es.

Fixpoint all_answered (server : string → option release) (es : list event) (p : page) : Prop :=
  match es with
  | [] => True
  | e :: es => answers server p e
               ∧ all_answered server es (fire (λ _, None) (λ _, InvalidDate) e p)
  end.

Lemma run_page_rtc server es p :
  all_answered server es p →
  rtc (step (λ _, None) (λ _, InvalidDate) server) p (run_page es p).
Proof.
  unfold run_page. revert p. induction es as [|e es IH]; intros p; simpl; [done|].
  intros [He Hes]. eapply rtc_l; [by exists e|]. by apply IH.
Qed.

Lemma run_page_reachable server es :
  all_answered server es SettingsFirmware →
  reachable (λ _, None) (λ _, InvalidDate) server (run_page es SettingsFirmware).
Proof. apply run_page_rtc. Qed.

Definition sample_info : system_info plain :=
  Build_system_info plain "node-1" "OpenWrt" "24.10" "" "" "" "" "" "1.2.0" "" "" "" true "" "".
Definition sample_release : release :=
  {| tag := "v1.3.0"; rel_name := "1.3.0"; body := "Fixes"; publishedAt := None;
     prerelease := false; version := "1.3.0"; assets := [] |}.
Definition sample_update : update :=
  {| u_release := Some sample_release;
     matchedAsset := Some (Build_asset plain "fw.img.gz" "" 1024); newerThanCurrent := true |}.
Definition sample_image (ok : bool) : image :=
  Build_staged_image plain date "local.img" 2048 "ab" None true "1.0" "" [] "" true ok "".
Definition sample_body (ok : bool) : xhr_event :=
  XLoad 200 (RespJson {| b_image := Build_staged_image option string (Some "local.img")
    (Some 2048%Z) (Some "ab") None (Some true) (Some "1.0") None None None (Some true) (Some ok) None;
    b_error := None |}).
Definition sample_event (ph : Phase) : progress :=
  Build_progress_event plain date ph 10 0 0 "" "" "" "" 0 "" None.

(** The page of a device that can upgrade, with one update and a staged image. *)
Definition sample_start (ok : bool) : list event :=
  [InfoSettled (inl (Some sample_info)); UpdatesSettled (inl ([sample_update], None));
   StagedSettled (inl (Some (sample_image ok)))].

Lemma firmware_requests_witness :
  let p := run_page (sample_start true ++ [ClickInstall 0]) SettingsFirmware in
  reachable (λ _, None) (λ _, InvalidDate) (λ _, Some sample_release) p
  ∧ requests (log (fire (λ _, None) (λ _, InvalidDate) ClickConfirm p))
    = requests (log p) ++ [StartUpgrade "v1.3.0" "fw.img.gz" DEFAULT_OPTIONS false]
  ∧ request_ok p (StartUpgrade "v1.3.0" "fw.img.gz" DEFAULT_OPTIONS false).
Proof.
  intros p. assert (reachable (λ _, None) (λ _, InvalidDate) (λ _, Some sample_release) p) as Hp.
  { apply run_page_reachable. simpl. tauto. }
  split; [exact Hp|].
  destruct (firmware_requests _ _ _ p ClickConfirm Hp) as [_ [H|(_ & _ & _ & r & H & Hok)]].
  - vm_compute in H. discriminate H.
  - assert (r = StartUpgrade "v1.3.0" "fw.img.gz" DEFAULT_OPTIONS false) as <-.
    { vm_compute in H. injection H as <-. reflexivity. }
    split; [exact H|exact Hok].
Defined.

Definition sample_server (t : string) : option release :=
  if decide (t = "v1.3.0") then Some sample_release else None.

Lemma release_detail_fresh_witness :
  let p := run_page (sample_start true ++ [ClickInstall 0;
             FetchSettled 0 (inl (Some sample_release))]) SettingsFirmware in
  release_of (det p) = Some sample_release ∧ sample_server "v1.3.0" = Some sample_release.
Proof.
  intros p. assert (reachable (λ _, None) (λ _, InvalidDate) sample_server p) as Hp.
  { apply run_page_reachable. simpl. repeat split.
    intros f Hf _. vm_compute in Hf. apply list_elem_of_singleton in Hf as ->. reflexivity. }
  split; [reflexivity|].
  exact (release_detail_fresh _ _ _ p (0, sample_update) "v1.3.0" sample_release Hp
    eq_refl eq_refl ltac:(discriminate) eq_refl).
Defined.

Lemma firmware_upload_witness :
  let p := run_page (sample_start true ++ [PickFile "new.img" 4096]) SettingsFirmware in
  let x := {| up_id := 0; up_aborted := false; from_release := false |} in
  live (upl p) = [x]
  ∧ value (staged (fire (λ _, None) (λ _, InvalidDate) (UploadEvent (up_id x) (sample_body false)) p))
    = Some (sample_image false).
Proof.
  intros p x. assert (reachable (λ _, None) (λ _, InvalidDate) (λ _, Some sample_release) p) as Hp.
  { apply run_page_reachable. simpl. repeat split. }
  assert (live (upl p) = [x]) as Hl by (vm_compute; reflexivity).
  split; [exact Hl|].
  destruct (firmware_upload _ _ _ p Hp) as (_ & _ & _ & H).
  specialize (H x (sample_body false) (inl (Some (sample_image false)))).
  clearbody p. rewrite Hl in H.
  destruct H as (_ & _ & Hv); [apply list_elem_of_singleton; reflexivity|vm_compute; reflexivity|].
  exact Hv.
Defined.

(** ** What the page gets wrong *)

(** A refused reset is shown as a triggered one: the codes of Connect's errors
    are numbers, and the page compares them with names. *)
Theorem reset_refusal_hidden typed s err msg r :
  PerformFactoryReset typed s = Some err →
  let r' := reset_settled (Some (ConnectError msg (connect_code err))) r in
  resetTriggered r' = true ∧ resetError r' = resetError r.
Proof. intros _. by destruct err. Qed.

(** Selecting a release, then the staged image before its detail arrived, then
    the release again leaves the card loading for ever: no fetch is running. *)
Theorem release_detail_stuck :
  let p := run_page (sample_start true ++ [ClickInstall 0; ClickInstallStaged;
             FetchSettled 0 (inl (Some sample_release)); ClickInstall 0]) SettingsFirmware in
  card_shown p = true ∧ releaseLoading (det p) = true ∧ fetches (det p) = [].
Proof. by vm_compute. Qed.

(** The timer of a failed upload hides the next one. *)
Theorem upload_hidden :
  let p := run_page (sample_start true ++ [PickFile "a.img" 1; UploadEvent 0 XError;
             PickFile "b.img" 2; IdleTimer]) SettingsFirmware in
  uploading p = false ∧ length (live (upl p)) = 1.
Proof. by vm_compute. Qed.

(** The permission to skip the preflight of one image is kept for the next. *)
Theorem skip_preflight_kept :
  let p := run_page (sample_start false ++ [ClickInstallStaged; ToggleSkipPreflight true;
             PickFile "b.img" 2; UploadEvent 0 (sample_body false)]) SettingsFirmware in
  value (staged p) = Some (sample_image false) ∧ form_confirm_enabled p = true.
Proof. by vm_compute. Qed.

(** The staged image's install form stays armed while an upgrade runs. *)
Theorem local_install_during_upgrade :
  let p := run_page (sample_start true ++ [ClickInstallStaged; SnapshotSettled (inl None);
             StreamFrame (Some (sample_event DOWNLOADING))]) SettingsFirmware in
  inFlight p = true ∧ form_confirm_enabled p = true.
Proof. by vm_compute. Qed.

(** A hostname of spaces arms the reset with nothing typed; the server refuses. *)
Theorem blank_hostname_arms (s : reset_server) :
  server_hostname s = Some "  " →
  hostnameMatches (Build_capability plain true "" "" "" "" "  ") "" = true
  ∧ PerformFactoryReset "" s ≠ None.
Proof.
  intros Hs. split; [done|]. unfold PerformFactoryReset. rewrite Hs. by repeat case_match.
Qed.
