(* ===== verification/Constants.v ===== *)
(** Constants of [frontend/src/constants.js] that the modelled components use,
    with the channel table and the message bytes of the comms protocol. *)
From S2P Require Import Prelude.

Definition SAMPLE_RATE : Z := 48000.
Definition WHISPER_RATE : Z := 16000.

(** A row of [CHANNELS_DEF]. *)
Record channel_def := { ch : Z; port : Z }.

Definition CHANNELS_DEF : list channel_def :=
  [ {| ch := 1; port := 38801 |};
    {| ch := 2; port := 38803 |};
    {| ch := 3; port := 38805 |};
    {| ch := 4; port := 38807 |};
    {| ch := 5; port := 38809 |} ].

Definition PCM_RING_SIZE : Z := 16384.
Definition JITTER_PREFILL : Z := 11520.

Definition WHISPER_SILENCE_MS : Z := 1500.
(** [WHISPER_MIN_SEC * WHISPER_RATE]: the code writes 0.5 s; the product is exact. *)
Definition WHISPER_MIN_SAMPLES : Z := WHISPER_RATE / 2.
Definition WHISPER_MAX_SEC : Z := 30.
Definition VOX_HANGTIME_MS : Z := 300.

(** [MSG_TYPE]. *)
Definition MSG_RX_AUDIO : Z := 1.
Definition MSG_TX_AUDIO : Z := 2.
Definition MSG_TX_TOGGLE : Z := 3.
Definition MSG_RX_TOGGLE : Z := 4.
Definition MSG_RX_ALL_ON : Z := 5.
Definition MSG_RX_ALL_OFF : Z := 6.
Definition MSG_TX_ALL_ON : Z := 7.
Definition MSG_TX_ALL_OFF : Z := 8.
Definition MSG_PTT_DOWN : Z := 9.
Definition MSG_PTT_UP : Z := 10.
