(* ===== verification/RingBuffer.v ===== *)
(** The PCM ring of [services/ringBuffer.js] and its second reader, the audio
    thread's [public/pcm-worklet.js].

    A buffer is the shared Float32Array with the five Int32 slots of its state
    array; the sample type is a parameter, with [zero] the sample 0 and [nan]
    what a typed array stores for [undefined].  The abstract specification is a
    bounded FIFO with a one-shot start gate ([pcm_queue]); the class
    [PcmQueue] states what any implementation promises to its clients. *)
From S2P Require Import Prelude Constants.

(** ** The specification: a bounded queue behind a pre-fill gate *)

Record pcm_queue (A : Type) := {
  q_samples : list A;
  q_started : bool;
  q_drops : Z;
  q_underruns : Z
}.
Arguments Build_pcm_queue {A}. Arguments q_samples {A}. Arguments q_started {A}.
Arguments q_drops {A}. Arguments q_underruns {A}.

Section Spec.
Context {A : Type} (zero : A).

Definition q_empty : pcm_queue A := Build_pcm_queue [] false 0 0.

(** A frame is accepted whole, or counted as dropped. *)
Definition q_write (cap : nat) (src : list A) (q : pcm_queue A) : pcm_queue A :=
  if decide (cap < length (q_samples q) + length src) then
    Build_pcm_queue (q_samples q) (q_started q) (q_drops q + 1) (q_underruns q)
  else
    let samples := q_samples q ++ src in
    Build_pcm_queue samples (q_started q || bool_decide (JITTER_PREFILL ≤ length samples)%Z)
      (q_drops q) (q_underruns q).

(** Silence until started; then the oldest samples, zero-filled. *)
Definition q_read (count : nat) (q : pcm_queue A) : pcm_queue A * list A :=
  if q_started q then
    let got := take count (q_samples q) in
    (Build_pcm_queue (drop count (q_samples q)) true (q_drops q)
       (q_underruns q + (count - length got)%nat),
     got ++ replicate (count - length got) zero)
  else (q, replicate count zero).

Inductive pcm_op := OpWrite (src : list A) | OpRead (count : nat).

Definition q_step (cap : nat) (q : pcm_queue A) (o : pcm_op) : pcm_queue A * list A :=
  match o with
  | OpWrite src => (q_write cap src q, [])
  | OpRead count => q_read count q
  end.
End Spec.

(** The samples an operation sequence delivers, in order. *)
Fixpoint run_ops {S O B : Type} (step : S → O → S * list B) (s : S) (ops : list O) : S * list B :=
  match ops with
  | [] => (s, [])
  | o :: ops' =>
      let '(s1, out1) := step s o in
      let '(s2, out2) := run_ops step s1 ops' in
      (s2, out1 ++ out2)
  end.

(** What a ring promises its clients: a representation of the queue that its
    operations respect; [pcm_stats] are the drop counter, the underrun counter
    and the occupancy as the diagnostic reporter reads them, the counters at
    their 32-bit width. *)
Class PcmQueue (A R : Type) (zero : A) := {
  pcm_cap : nat;
  pcm_repr : R → pcm_queue A → Prop;
  pcm_new : R;
  pcm_write : R → list A → R;
  pcm_read : R → nat → R * list A;
  pcm_stats : R → Z * Z * Z;
  pcm_new_ok : pcm_repr pcm_new q_empty;
  pcm_write_ok r q src : pcm_repr r q → pcm_repr (pcm_write r src) (q_write pcm_cap src q);
  pcm_read_ok r q count : pcm_repr r q →
    pcm_repr (pcm_read r count).1 (q_read zero count q).1
    ∧ (pcm_read r count).2 = (q_read zero count q).2;
  pcm_stats_ok r q : pcm_repr r q →
    pcm_stats r = (int32 (q_drops q), int32 (q_underruns q), Z.of_nat (length (q_samples q)))
}.

(** ** The implementation *)

(** The Int32Array [state]. *)
Record ring_state := {
  writeIndex : Z;
  readIndex : Z;
  prefilled : Z;
  droppedFrames : Z;
  underrunSamples : Z
}.

(** [{ ringBuf, ring, state }]; [ringBuf] is the memory [ring] views. *)
Record ring_buffer (A : Type) := { ring : list A; state : ring_state }.
Arguments Build_ring_buffer {A}. Arguments ring {A}. Arguments state {A}.

(** [Atomics.store] and [Atomics.add] on one slot. *)
Definition store_write (v : Z) (s : ring_state) : ring_state :=
  Build_ring_state (int32 v) (readIndex s) (prefilled s) (droppedFrames s) (underrunSamples s).
Definition store_read (v : Z) (s : ring_state) : ring_state :=
  Build_ring_state (writeIndex s) (int32 v) (prefilled s) (droppedFrames s) (underrunSamples s).
Definition store_prefilled (v : Z) (s : ring_state) : ring_state :=
  Build_ring_state (writeIndex s) (readIndex s) (int32 v) (droppedFrames s) (underrunSamples s).
Definition add_dropped (v : Z) (s : ring_state) : ring_state :=
  Build_ring_state (writeIndex s) (readIndex s) (prefilled s)
    (int32 (droppedFrames s + v)) (underrunSamples s).
Definition add_underrun (v : Z) (s : ring_state) : ring_state :=
  Build_ring_state (writeIndex s) (readIndex s) (prefilled s)
    (droppedFrames s) (int32 (underrunSamples s + v)).

Definition ringAvail (s : ring_state) (ringSize : Z) : Z :=
  Z.rem (writeIndex s - readIndex s + ringSize) ringSize.

Definition ringFree (s : ring_state) (ringSize : Z) : Z :=
  ringSize - 1 - ringAvail s ringSize.

(** The array index [i % ringSize]. *)
Definition slot (ringSize i : Z) : nat := Z.to_nat (Z.rem i ringSize).

Section Ring.
Context {A : Type} (zero nan : A).

(** Both branches allocate zeroed memory of the same size; they differ in the
    kind of memory only. *)
Definition createRingBuffer : ring_buffer A :=
  Build_ring_buffer (replicate (Z.to_nat PCM_RING_SIZE) zero)
    (Build_ring_state 0 0 0 0 0).

Definition ringWrite (rb : ring_buffer A) (ringSize : Z) (src : list A) : ring_buffer A :=
  let n := Z.of_nat (length src) in
  if decide (ringFree (state rb) ringSize < n)%Z then
    Build_ring_buffer (ring rb) (add_dropped 1 (state rb))
  else
    let wr := writeIndex (state rb) in
    let ring' := for_loop (length src)
      (λ i r, <[slot ringSize (wr + i) := default nan (src !! i)]> r) (ring rb) in
    let st := store_write (Z.rem (wr + n) ringSize) (state rb) in
    Build_ring_buffer ring'
      (if decide (prefilled st = 0 ∧ JITTER_PREFILL ≤ ringAvail st ringSize)%Z
       then store_prefilled 1 st else st).

Definition ringRead (rb : ring_buffer A) (ringSize : Z) (dst : list A) (count : nat) :
    ring_buffer A * list A :=
  if decide (prefilled (state rb) = 0%Z) then
    (rb, for_loop count (λ i d, <[i := zero]> d) dst)
  else
    let avail := ringAvail (state rb) ringSize in
    let rd := readIndex (state rb) in
    let n := Z.to_nat (Z.min count avail) in
    let dst1 := for_loop n
      (λ i d, <[i := default nan (ring rb !! slot ringSize (rd + i))]> d) dst in
    let st := store_read (Z.rem (rd + n) ringSize) (state rb) in
    if decide (n < count) then
      (Build_ring_buffer (ring rb) (add_underrun (count - n) st),
       for_from n (count - n) (λ i d, <[i := zero]> d) dst1)
    else (Build_ring_buffer (ring rb) st, dst1).

(** *** The worklet *)

(** [PCMWorkletProcessor]: detached until the 'init' message, then a view of
    the shared memory and its size. *)
Definition processor := option Z.

Definition new_processor : processor := None.

(** The message handler: [ringSize] is the length of the received ring. *)
Definition onmessage (type : string) (rb : ring_buffer A) (p : processor) : processor :=
  if decide (type = "init"%string) then Some (Z.of_nat (length (ring rb))) else p.

Definition process (p : processor) (rb : ring_buffer A) (out : list A) : ring_buffer A * list A :=
  match p with
  | None => (rb, for_loop (length out) (λ i d, <[i := zero]> d) out)
  | Some ringSize =>
      if decide (prefilled (state rb) = 0%Z) then
        (rb, for_loop (length out) (λ i d, <[i := zero]> d) out)
      else
        let wr := writeIndex (state rb) in
        let rd := readIndex (state rb) in
        let avail := Z.rem (wr - rd + ringSize) ringSize in
        let n := Z.to_nat (Z.min (length out) avail) in
        let out1 := for_loop n
          (λ i d, <[i := default nan (ring rb !! slot ringSize (rd + i))]> d) out in
        let st := store_read (Z.rem (rd + n) ringSize) (state rb) in
        if decide (n < length out) then
          (Build_ring_buffer (ring rb) (add_underrun (length out - n) st),
           for_from n (length out - n) (λ i d, <[i := zero]> d) out1)
        else (Build_ring_buffer (ring rb) st, out1)
  end.

(** *** Invariant and abstraction *)

Definition ring_wf (ringSize : Z) (rb : ring_buffer A) : Prop :=
  (0 < ringSize < 2 ^ 30)%Z
  ∧ Z.of_nat (length (ring rb)) = ringSize
  ∧ (0 ≤ writeIndex (state rb) < ringSize)%Z
  ∧ (0 ≤ readIndex (state rb) < ringSize)%Z
  ∧ (prefilled (state rb) = 0%Z ∨ prefilled (state rb) = 1%Z).

(** The ring holds the samples [l], oldest first. *)
Definition holds (ringSize : Z) (rb : ring_buffer A) (l : list A) : Prop :=
  Z.of_nat (length l) = ringAvail (state rb) ringSize
  ∧ ∀ i, i < length l → ring rb !! slot ringSize (readIndex (state rb) + i) = l !! i.

Definition ring_repr (ringSize : Z) (rb : ring_buffer A) (q : pcm_queue A) : Prop :=
  ring_wf ringSize rb
  ∧ holds ringSize rb (q_samples q)
  ∧ (q_started q = true ↔ prefilled (state rb) = 1%Z)
  ∧ droppedFrames (state rb) = int32 (q_drops q)
  ∧ underrunSamples (state rb) = int32 (q_underruns q).
End Ring.

(** ** Index arithmetic *)

Section Slots.
Local Open Scope Z_scope.

Lemma slot_mod size i : 0 < size → 0 ≤ i → slot size i = Z.to_nat (i `mod` size).
Proof. intros. unfold slot. by rewrite Z.rem_mod_nonneg by lia. Qed.

Lemma slot_lt size i : 0 < size → 0 ≤ i → Z.of_nat (slot size i) < size.
Proof. intros. rewrite slot_mod by done. pose proof (Z.mod_pos_bound i size). lia. Qed.

(** Two indices of one window of [size] consecutive positions collide only
    when they are equal. *)
Lemma slot_inj size a i j :
  0 < size → 0 ≤ a → 0 ≤ i < size → 0 ≤ j < size →
  slot size (a + i) = slot size (a + j) → i = j.
Proof.
  intros Hs Ha Hi Hj. rewrite !slot_mod by lia. intros H.
  apply Z2Nat.inj in H; [|apply Z.mod_pos_bound; lia..].
  pose proof (Z.div_mod (a + i) size ltac:(lia)) as Hi'. pose proof (Z.div_mod (a + j) size ltac:(lia)) as Hj'.
  rewrite H in Hi'. clear H. revert Hi' Hj'. generalize ((a + j) `mod` size).
  generalize ((a + i) `div` size), ((a + j) `div` size). intros q1 q2 r ? ?.
  assert (q1 = q2 ∨ q1 < q2 ∨ q2 < q1) as [->|[?|?]] by lia; nia.
Qed.

Lemma slot_shift size a b i :
  0 < size → 0 ≤ a → 0 ≤ b → 0 ≤ i → a `mod` size = b `mod` size →
  slot size (a + i) = slot size (b + i).
Proof.
  intros. rewrite !slot_mod by lia. f_equal.
  by rewrite <- (Zplus_mod_idemp_l a), <- (Zplus_mod_idemp_l b), H3.
Qed.

Lemma ringAvail_mod s size :
  0 < size → 0 ≤ writeIndex s < size → 0 ≤ readIndex s < size →
  ringAvail s size = (writeIndex s - readIndex s) `mod` size.
Proof.
  intros. unfold ringAvail. rewrite Z.rem_mod_nonneg by lia.
  by rewrite <- Zplus_mod_idemp_r, Z_mod_same_full, Z.add_0_r.
Qed.

Lemma ringAvail_bound s size :
  0 < size → 0 ≤ writeIndex s < size → 0 ≤ readIndex s < size →
  0 ≤ ringAvail s size < size.
Proof. intros. rewrite ringAvail_mod by done. apply Z.mod_pos_bound. lia. Qed.

(** The write position is [avail] slots after the read position. *)
Lemma slot_write_read s size i :
  0 < size → 0 ≤ writeIndex s < size → 0 ≤ readIndex s < size → 0 ≤ i →
  slot size (writeIndex s + i) = slot size (readIndex s + (ringAvail s size + i)).
Proof.
  intros. pose proof (ringAvail_bound s size). rewrite Z.add_assoc.
  apply slot_shift; [lia..|]. rewrite ringAvail_mod by done.
  rewrite Zplus_mod_idemp_r. f_equal. lia.
Qed.

(** Advancing an index inside the window advances the occupancy. *)
Lemma avail_advance_write size wr rd n :
  0 < size → 0 ≤ wr < size → 0 ≤ rd < size → 0 ≤ n →
  (wr - rd) `mod` size + n < size →
  ((wr + n) `mod` size - rd) `mod` size = (wr - rd) `mod` size + n.
Proof.
  intros. rewrite Zminus_mod_idemp_l. replace (wr + n - rd) with (wr - rd + n) by lia.
  rewrite <- Zplus_mod_idemp_l. apply Z.mod_small.
  pose proof (Z.mod_pos_bound (wr - rd) size). lia.
Qed.

Lemma avail_advance_read size wr rd n :
  0 < size → 0 ≤ n ≤ (wr - rd) `mod` size →
  (wr - (rd + n) `mod` size) `mod` size = (wr - rd) `mod` size - n.
Proof.
  intros. rewrite Zminus_mod_idemp_r. replace (wr - (rd + n)) with (wr - rd - n) by lia.
  rewrite <- Zminus_mod_idemp_l. apply Z.mod_small.
  pose proof (Z.mod_pos_bound (wr - rd) size). lia.
Qed.
End Slots.

(** ** The copy loops *)

Section Copy.
Context {A : Type} (zero nan : A).

(** What the write loop leaves in the array. *)
Lemma copy_in_spec size wr (src r : list A) :
  (0 < size)%Z → Z.of_nat (length r) = size → (0 ≤ wr)%Z → (Z.of_nat (length src) < size)%Z →
  let r' := for_loop (length src)
    (λ i r, <[slot size (wr + i) := default nan (src !! i)]> r) r in
  Z.of_nat (length r') = size
  ∧ (∀ j, j < length src → r' !! slot size (wr + j) = src !! j)
  ∧ (∀ p, (∀ j, j < length src → p ≠ slot size (wr + j)) → r' !! p = r !! p).
Proof.
  intros Hs Hr Hwr Hn.
  apply (for_loop_inv (λ k r', Z.of_nat (length r') = size
    ∧ (∀ j, j < k → r' !! slot size (wr + j) = src !! j)
    ∧ (∀ p, (∀ j, j < k → p ≠ slot size (wr + j)) → r' !! p = r !! p))).
  { split_and!; [done|lia|done]. }
  intros k r' Hk (Hlen & Hin & Hout). rewrite length_insert. split_and!; [done| |].
  - intros j Hj. destruct (decide (j = k)) as [->|Hne].
    + pose proof (slot_lt size (wr + k)). rewrite list_lookup_insert_eq by lia.
      destruct (lookup_lt_is_Some_2 src k) as [x ->]; [lia|done].
    + rewrite list_lookup_insert_ne; [apply Hin; lia|].
      intros He%slot_inj; lia.
  - intros p Hp. rewrite list_lookup_insert_ne; [|apply not_eq_sym, Hp; lia].
    apply Hout. intros j Hj. apply Hp. lia.
Qed.

Lemma fill_zero n (dst : list A) :
  n ≤ length dst →
  for_loop n (λ i d, <[i := zero]> d) dst = replicate n zero ++ drop n dst.
Proof.
  intros Hn. apply list_eq. intros i. unfold for_loop.
  rewrite (for_from_fill_lookup (λ _, zero)). case_decide.
  - rewrite lookup_app_l by (rewrite length_replicate; lia).
    by rewrite lookup_replicate_2 by lia.
  - destruct (decide (i < n)).
    + rewrite lookup_app_l by (rewrite length_replicate; lia). lia.
    + rewrite lookup_app_r, length_replicate, lookup_drop by (rewrite length_replicate; lia).
      f_equal. lia.
Qed.

Lemma copy_out_spec (f : nat → A) (l dst : list A) n count :
  n ≤ count → count ≤ length dst → n ≤ length l → (∀ i, i < n → l !! i = Some (f i)) →
  for_from n (count - n) (λ i d, <[i := zero]> d) (for_loop n (λ i d, <[i := f i]> d) dst)
  = take n l ++ replicate (count - n) zero ++ drop count dst.
Proof.
  intros Hnc Hc Hl Hf. apply list_eq. intros i.
  rewrite (for_from_fill_lookup (λ _, zero)).
  unfold for_loop. rewrite (for_from_fill_length f), (for_from_fill_lookup f).
  destruct (decide (i < n)).
  - rewrite decide_False by lia. rewrite decide_True by lia.
    rewrite lookup_app_l by (rewrite length_take; lia).
    rewrite lookup_take_lt by lia. symmetry. by apply Hf.
  - rewrite lookup_app_r by (rewrite length_take; lia).
    replace (length (take n l)) with n by (rewrite length_take; lia).
    destruct (decide (i < count)).
    + rewrite decide_True by lia.
      rewrite lookup_app_l by (rewrite length_replicate; lia).
      by rewrite lookup_replicate_2 by lia.
    + rewrite !decide_False by lia.
      rewrite lookup_app_r, length_replicate, lookup_drop by (rewrite length_replicate; lia).
      f_equal. lia.
Qed.
End Copy.

(** ** The operations implement the queue *)

Section Refinement.
Context {A : Type} (zero nan : A).

Lemma ring_wf_avail size (rb : ring_buffer A) :
  ring_wf size rb → (0 ≤ ringAvail (state rb) size < size)%Z.
Proof. intros (? & _ & ? & ? & _). apply ringAvail_bound; lia. Qed.

(** A frame that fits is appended to the held samples. *)
Lemma ringWrite_holds size (rb : ring_buffer A) src l :
  ring_wf size rb → holds size rb l →
  (length src ≤ ringFree (state rb) size)%Z →
  let rb' := ringWrite nan rb size src in
  ring_wf size rb' ∧ holds size rb' (l ++ src)
  ∧ droppedFrames (state rb') = droppedFrames (state rb)
  ∧ underrunSamples (state rb') = underrunSamples (state rb)
  ∧ (prefilled (state rb') = 1%Z ↔
     prefilled (state rb) = 1%Z ∨ (JITTER_PREFILL ≤ length (l ++ src))%Z).
Proof.
  intros Hwf [Hlen Hl] Hfit rb'. pose proof (ring_wf_avail _ _ Hwf) as Hav.
  destruct Hwf as (Hs & Hr & Hw & Hrd & Hp). unfold ringFree in Hfit.
  unfold rb', ringWrite. rewrite decide_False by (unfold ringFree; lia).
  destruct (copy_in_spec nan size (writeIndex (state rb)) src (ring rb)) as (Hr' & Hin & Hout);
    [lia..|].
  set (ring' := for_loop _ _ _) in *. clearbody ring'.
  set (st := store_write _ _).
  assert (writeIndex st = (writeIndex (state rb) + length src) `mod` size)%Z as Hst.
  { unfold st. simpl. rewrite Z.rem_mod_nonneg by lia. apply int32_id.
    pose proof (Z.mod_pos_bound (writeIndex (state rb) + length src) size). lia. }
  assert (0 ≤ writeIndex st < size)%Z as Hwst
    by (rewrite Hst; apply Z.mod_pos_bound; lia).
  assert (ringAvail st size = ringAvail (state rb) size + length src)%Z as Hav'.
  { rewrite (ringAvail_mod st) by (simpl in *; lia). rewrite Hst. simpl.
    rewrite avail_advance_write; rewrite ?(ringAvail_mod (state rb)) in * by lia; lia. }
  assert (holds size (Build_ring_buffer ring' st) (l ++ src)) as [HhL Hh].
  { split; simpl; [rewrite length_app; lia|]. intros i Hi. rewrite length_app in Hi.
    destruct (decide (i < length l)).
    - rewrite lookup_app_l, <- Hl by lia. apply Hout. intros j Hj Heq.
      rewrite slot_write_read in Heq by lia. apply slot_inj in Heq; lia.
    - rewrite lookup_app_r by lia. rewrite <- Hin by lia.
      rewrite slot_write_read by lia. do 2 f_equal. lia. }
  clear Hin Hout Hl.
  case_decide as Hpre; simpl in *; rewrite HhL.
  - split; [split_and!; simpl; auto; lia|]. split; [by split|].
    split_and!; [done..|]. rewrite int32_id by lia. tauto.
  - split; [split_and!; simpl; auto; lia|]. split; [by split|].
    split_and!; [done..|]. destruct Hp as [Hp|Hp]; [|tauto]. rewrite Hp. lia.
Qed.

Lemma ringWrite_refines size (rb : ring_buffer A) src q :
  ring_repr size rb q →
  ring_repr size (ringWrite nan rb size src) (q_write (Z.to_nat (size - 1)) src q).
Proof.
  intros (Hwf & Hh & Hst & Hd & Hu). pose proof (ring_wf_avail _ _ Hwf).
  pose proof (proj1 Hh) as Hlen. unfold q_write. case_decide as Hcap.
  - unfold ringWrite, ringFree. rewrite decide_True by lia.
    unfold ring_repr; simpl; split_and?; try done. by rewrite Hd, int32_int32_add.
  - destruct (ringWrite_holds size rb src (q_samples q)) as (Hwf' & Hh' & Hd' & Hu' & Hp');
      [done..|unfold ringFree; lia|].
    unfold ring_repr; simpl; split_and?; try done; [|congruence..].
    rewrite Hp', <- Hst, orb_true_iff, bool_decide_eq_true. done.
Qed.

(** Advancing the read index drops the oldest samples. *)
Lemma read_advance size (rb : ring_buffer A) l n :
  ring_wf size rb → holds size rb l → n ≤ length l →
  let rb' := Build_ring_buffer (ring rb)
    (store_read (Z.rem (readIndex (state rb) + n) size) (state rb)) in
  ring_wf size rb' ∧ holds size rb' (drop n l).
Proof.
  intros Hwf [Hlen Hl] Hn rb'. pose proof (ring_wf_avail _ _ Hwf) as Hav.
  pose proof Hwf as (Hs & Hr & Hw & Hrd & Hp).
  assert (readIndex (state rb') = (readIndex (state rb) + n) `mod` size)%Z as Hrd'.
  { simpl. rewrite Z.rem_mod_nonneg by lia. apply int32_id.
    pose proof (Z.mod_pos_bound (readIndex (state rb) + n) size). lia. }
  assert (0 ≤ readIndex (state rb') < size)%Z as Hb
    by (rewrite Hrd'; apply Z.mod_pos_bound; lia).
  split; [done|]. split.
  - rewrite length_drop, ringAvail_mod by (simpl in *; lia). rewrite Hrd'. simpl.
    rewrite ringAvail_mod in Hlen by lia. rewrite avail_advance_read; lia.
  - intros i Hi. rewrite length_drop in Hi. rewrite Hrd', lookup_drop, <- Hl by lia.
    rewrite Nat2Z.inj_add, Z.add_assoc. simpl. f_equal.
    apply slot_shift; [lia| |lia..|by rewrite Z.mod_mod by lia]. apply Z.mod_pos_bound. lia.
Qed.

(** The read loop copies the oldest samples and the rest is zero-filled. *)
Lemma ringRead_refines size (rb : ring_buffer A) dst count q :
  ring_repr size rb q → count ≤ length dst →
  ring_repr size (ringRead zero nan rb size dst count).1 (q_read zero count q).1
  ∧ (ringRead zero nan rb size dst count).2 = (q_read zero count q).2 ++ drop count dst.
Proof.
  intros (Hwf & Hh & Hst & Hd & Hu) Hc. pose proof (ring_wf_avail _ _ Hwf) as Hav.
  destruct (proj2 (proj2 (proj2 (proj2 Hwf)))) as [Hp|Hp]; unfold ringRead, q_read.
  { rewrite decide_True by done. destruct (q_started q) eqn:Hq;
      [pose proof (proj1 Hst eq_refl); lia|].
    split; [|by apply fill_zero]. simpl. unfold ring_repr. rewrite Hq. by split_and?. }
  rewrite decide_False by lia. rewrite (proj2 Hst Hp).
  set (n := Z.to_nat (count `min` ringAvail (state rb) size)%Z).
  set (f := λ i : nat, default nan (ring rb !! slot size (readIndex (state rb) + i))).
  assert (n = count `min` length (q_samples q)) as Hn by (destruct Hh; lia).
  assert (∀ i, i < n → q_samples q !! i = Some (f i)) as Hf.
  { intros i Hi. unfold f. rewrite (proj2 Hh) by lia.
    destruct (lookup_lt_is_Some_2 (q_samples q) i) as [x ->]; [lia|done]. }
  pose proof (copy_out_spec zero f (q_samples q) dst n count ltac:(lia) Hc ltac:(lia) Hf)
    as Hcopy. unfold f in Hcopy. clear Hf f.
  destruct (read_advance size rb (q_samples q) n) as [Hwf' Hh']; [done..|lia|].
  rewrite length_take, <- Hn.
  assert (take n (q_samples q) = take count (q_samples q)
    ∧ drop n (q_samples q) = drop count (q_samples q)) as [Htk Hdr].
  { destruct (decide (count ≤ length (q_samples q))); [by replace n with count by lia|].
    rewrite !firstn_all2, !drop_ge by lia. done. }
  rewrite Hdr in Hh'. case_decide as Hnc; simpl.
  - split; [|by rewrite Hcopy, Htk, <- app_assoc].
    split; [done|]. split_and?; try done. simpl. rewrite Hu, int32_int32_add. f_equal. lia.
  - assert (count = n) as Hcn by lia.
    split; [|rewrite <- Htk, <- app_assoc, <- Hcopy; by rewrite Hcn, Nat.sub_diag].
    split; [done|]. split_and?; try done. simpl. rewrite Hu. f_equal. lia.
Qed.

(** Both readers are the same function of the shared memory. *)
Lemma process_ringRead (rb : ring_buffer A) out :
  process zero nan (onmessage "init" rb new_processor) rb out
  = ringRead zero nan rb (length (ring rb)) out (length out).
Proof. done. Qed.

Lemma create_repr :
  ring_repr PCM_RING_SIZE (createRingBuffer zero) q_empty.
Proof.
  assert (0 < PCM_RING_SIZE < 2 ^ 30)%Z by (unfold PCM_RING_SIZE; lia).
  unfold ring_repr, ring_wf, holds, createRingBuffer. cbn [ring state].
  rewrite length_replicate. cbn. split_and?; auto with lia; try done.
Qed.
End Refinement.

(** ** The two instances *)

Section Instances.
Context {A : Type} (zero nan : A).

(** The ScriptProcessor callback reads into the node's output buffer. *)
Definition onaudioprocess_read (rb : ring_buffer A) (count : nat) : ring_buffer A * list A :=
  ringRead zero nan rb PCM_RING_SIZE (replicate count zero) count.

(** The worklet's render callback, after its 'init' message. *)
Definition worklet_read (rb : ring_buffer A) (count : nat) : ring_buffer A * list A :=
  process zero nan (onmessage "init" rb new_processor) rb (replicate count zero).

Lemma ring_repr_length (rb : ring_buffer A) q :
  ring_repr PCM_RING_SIZE rb q → Z.of_nat (length (ring rb)) = PCM_RING_SIZE.
Proof. by intros ((_ & ? & _) & _). Qed.

Lemma onaudioprocess_read_ok rb q count :
  ring_repr PCM_RING_SIZE rb q →
  ring_repr PCM_RING_SIZE (onaudioprocess_read rb count).1 (q_read zero count q).1
  ∧ (onaudioprocess_read rb count).2 = (q_read zero count q).2.
Proof.
  intros Hr. unfold onaudioprocess_read.
  destruct (ringRead_refines zero nan PCM_RING_SIZE rb (replicate count zero) count q)
    as [H1 ->]; [done|by rewrite length_replicate|].
  split; [done|]. by rewrite drop_ge, app_nil_r by (rewrite length_replicate; lia).
Qed.

Lemma worklet_read_ok rb q count :
  ring_repr PCM_RING_SIZE rb q →
  ring_repr PCM_RING_SIZE (worklet_read rb count).1 (q_read zero count q).1
  ∧ (worklet_read rb count).2 = (q_read zero count q).2.
Proof.
  intros Hr. unfold worklet_read. rewrite process_ringRead, (ring_repr_length rb q Hr).
  rewrite length_replicate. by apply onaudioprocess_read_ok.
Qed.

Definition ring_stats (rb : ring_buffer A) : Z * Z * Z :=
  (droppedFrames (state rb), underrunSamples (state rb), ringAvail (state rb) PCM_RING_SIZE).

Lemma ring_stats_ok rb q :
  ring_repr PCM_RING_SIZE rb q →
  ring_stats rb = (int32 (q_drops q), int32 (q_underruns q), Z.of_nat (length (q_samples q))).
Proof. intros (_ & [Hl _] & _ & Hd & Hu). unfold ring_stats. by rewrite Hd, Hu, Hl. Qed.

#[export] Instance ring_queue : PcmQueue A (ring_buffer A) zero := {|
  pcm_cap := Z.to_nat (PCM_RING_SIZE - 1);
  pcm_repr := ring_repr PCM_RING_SIZE;
  pcm_write := λ rb src, ringWrite nan rb PCM_RING_SIZE src;
  pcm_new := createRingBuffer zero;
  pcm_read := onaudioprocess_read;
  pcm_stats := ring_stats;
  pcm_new_ok := create_repr zero;
  pcm_stats_ok := ring_stats_ok;
  pcm_write_ok := λ rb q src, ringWrite_refines nan PCM_RING_SIZE rb src q;
  pcm_read_ok := onaudioprocess_read_ok
|}.

Definition worklet_queue : PcmQueue A (ring_buffer A) zero := {|
  pcm_cap := Z.to_nat (PCM_RING_SIZE - 1);
  pcm_repr := ring_repr PCM_RING_SIZE;
  pcm_write := λ rb src, ringWrite nan rb PCM_RING_SIZE src;
  pcm_new := createRingBuffer zero;
  pcm_read := worklet_read;
  pcm_stats := ring_stats;
  pcm_new_ok := create_repr zero;
  pcm_stats_ok := ring_stats_ok;
  pcm_write_ok := λ rb q src, ringWrite_refines nan PCM_RING_SIZE rb src q;
  pcm_read_ok := worklet_read_ok
|}.
End Instances.

(** ** Clients of a queue *)

Definition pcm_step {A R : Type} {zero : A} (Q : PcmQueue A R zero) (r : R) (o : pcm_op) :
    R * list A :=
  match o with
  | OpWrite src => (pcm_write (PcmQueue := Q) r src, [])
  | OpRead count => pcm_read (PcmQueue := Q) r count
  end.

Section Clients.
Context {A R : Type} {zero : A} (Q : PcmQueue A R zero).

Lemma run_refines ops r q :
  pcm_repr r q →
  pcm_repr (run_ops (pcm_step Q) r ops).1 (run_ops (q_step zero pcm_cap) q ops).1
  ∧ (run_ops (pcm_step Q) r ops).2 = (run_ops (q_step zero pcm_cap) q ops).2.
Proof.
  revert r q. induction ops as [|o ops IH]; intros r q Hr; [done|]. simpl.
  assert (pcm_repr (pcm_step Q r o).1 (q_step zero pcm_cap q o).1
    ∧ (pcm_step Q r o).2 = (q_step zero pcm_cap q o).2) as [H1 H2].
  { destruct o; simpl; [split; [by apply pcm_write_ok|done]|by apply pcm_read_ok]. }
  destruct (pcm_step Q r o) as [r1 o1], (q_step zero pcm_cap q o) as [q1 o1'].
  simpl in *. destruct (IH r1 q1 H1) as [IH1 IH2].
  destruct (run_ops _ r1 ops), (run_ops _ q1 ops). simpl in *. by subst.
Qed.

(** The samples an operation sequence tries to write. *)
Definition written (ops : list (pcm_op (A := A))) : nat :=
  sum_list (map (λ o, match o with OpWrite src => length src | OpRead _ => 0 end) ops).

Lemma q_silent_until_prefill cap ops q :
  q_started q = false →
  (length (q_samples q) + written ops < JITTER_PREFILL)%Z →
  Forall (eq zero) (run_ops (q_step zero cap) q ops).2.
Proof.
  revert q. induction ops as [|o ops IH]; intros q Hs Hw; [by constructor|].
  unfold written in *. simpl in *.
  destruct o as [src|count]; simpl in *.
  - specialize (IH (q_write cap src q)). destruct (run_ops _ (q_write cap src q) ops) as [q2 out].
    apply IH; unfold q_write; case_decide; simpl; try done; try lia.
    + rewrite Hs. apply bool_decide_eq_false. rewrite length_app. lia.
    + rewrite length_app. lia.
  - unfold q_read. rewrite Hs. specialize (IH q Hs ltac:(lia)).
    destruct (run_ops _ q ops) as [q2 out]. simpl in *.
    apply Forall_app. split; [|done]. by apply Forall_replicate.
Qed.

Lemma q_started_sticky cap ops q :
  q_started q = true → q_started (run_ops (q_step zero cap) q ops).1 = true.
Proof.
  revert q. induction ops as [|o ops IH]; intros q Hs; [done|]. simpl.
  assert (q_started (q_step zero cap q o).1 = true) as H1.
  { destruct o; simpl; [unfold q_write; case_decide; simpl; by rewrite ?Hs|].
    unfold q_read. by rewrite Hs. }
  destruct (q_step zero cap q o) as [q1 o1]. specialize (IH q1 H1).
  by destruct (run_ops _ q1 ops).
Qed.
End Clients.

(** ** Properties *)

Section Properties.
Context {A : Type} (zero nan : A).

(** C1: the ring implements the bounded queue behind the pre-fill gate: for
    every sequence of writes and reads on a fresh ring, the samples played by
    the ScriptProcessor reader and by the worklet reader are those of the
    specification (whole frames kept or dropped, oldest first, silence before
    the gate opens, zero-fill on underrun). *)
Theorem ring_refines_queue (ops : list pcm_op) :
  (run_ops (pcm_step (ring_queue zero nan)) (createRingBuffer zero) ops).2
    = (run_ops (q_step zero (Z.to_nat (PCM_RING_SIZE - 1))) q_empty ops).2
  ∧ (run_ops (pcm_step (worklet_queue zero nan)) (createRingBuffer zero) ops).2
    = (run_ops (q_step zero (Z.to_nat (PCM_RING_SIZE - 1))) q_empty ops).2.
Proof.
  split; [apply (run_refines (ring_queue zero nan))|apply (run_refines (worklet_queue zero nan))];
    apply create_repr.
Qed.

(** The jitter gate.  While fewer than [JITTER_PREFILL] samples were ever
    written the ring plays silence only, and once the [prefilled] flag is set
    no later operation clears it. *)
Theorem ring_prefill_gate (ops more : list pcm_op) :
  let run := run_ops (pcm_step (ring_queue zero nan)) in
  let rb := (run (createRingBuffer zero) ops).1 in
  ((written ops < JITTER_PREFILL)%Z → Forall (eq zero) (run (createRingBuffer zero) ops).2)
  ∧ (prefilled (state rb) = 1%Z → prefilled (state (run rb more).1) = 1%Z).
Proof.
  intros run rb. subst run rb.
  destruct (run_refines (ring_queue zero nan) ops _ _ (create_repr zero)) as [Hr Ho]. split.
  - intros Hw. rewrite Ho. by apply q_silent_until_prefill.
  - intros Hp. destruct (run_refines (ring_queue zero nan) more _ _ Hr) as [Hr' _].
    destruct Hr as (_ & _ & Hst & _), Hr' as (_ & _ & Hst' & _).
    apply Hst'. apply q_started_sticky. by apply Hst.
Qed.
End Properties.

Lemma ring_prefill_gate_witness :
  (written [OpWrite [1; 2; 3]%Z; OpRead 2] < JITTER_PREFILL)%Z
  ∧ Forall (eq 0%Z) (run_ops (pcm_step (ring_queue 0%Z (-1)%Z)) (createRingBuffer 0%Z)
      [OpWrite [1; 2; 3]%Z; OpRead 2]).2.
Proof.
  split; [vm_compute; reflexivity|].
  apply (ring_prefill_gate 0%Z (-1)%Z [OpWrite [1; 2; 3]%Z; OpRead 2] []).
  vm_compute. reflexivity.
Defined.
