(* ===== verification/RingThreads.v ===== *)
(** The two threads of the PCM ring: the main thread runs [ringWrite]
    ([services/ringBuffer.js]) while the audio thread runs [process]
    ([public/pcm-worklet.js]) on the same SharedArrayBuffer.

    One step is one access to shared memory: an [Atomics] operation on the state
    array, or one plain load or store of a sample.  The writer's index is stored
    by the writer only and the reader's by the reader only, so a thread's load
    of its own index is not a separate step.  [published] and [delivered] are
    ghost histories of the frames made visible and the samples consumed. *)
From S2P Require Import Prelude Constants RingBuffer.

(** Where the writer is inside [ringWrite(src)]. *)
Inductive writer_pc (A : Type) :=
| WIdle
| WCheck (src : list A)
| WCopy (src : list A) (i : nat)
| WGate
| WArm.
Arguments WIdle {A}. Arguments WCheck {A}. Arguments WCopy {A}.
Arguments WGate {A}. Arguments WArm {A}.

(** Where the reader is inside [process] with an output of [count] samples. *)
Inductive reader_pc (A : Type) :=
| RIdle
| RAvail (count : nat)
| RCopy (count n i : nat) (acc : list A)
| RFill (missing : nat).
Arguments RIdle {A}. Arguments RAvail {A}. Arguments RCopy {A}. Arguments RFill {A}.

Record config (A : Type) := Config {
  mem : ring_buffer A;
  writer : writer_pc A;
  reader : reader_pc A;
  published : list A;
  delivered : list A;
  played : list A
}.
Arguments Config {A}. Arguments mem {A}. Arguments writer {A}. Arguments reader {A}.
Arguments published {A}. Arguments delivered {A}. Arguments played {A}.

Section Threads.
Context {A : Type} (zero nan : A) (size : Z).

Definition set_state (m : ring_buffer A) (s : ring_state) : ring_buffer A :=
  Build_ring_buffer (ring m) s.

Inductive thread_step : config A → config A → Prop :=
| w_call m r p d o src :
    thread_step (Config m WIdle r p d o) (Config m (WCheck src) r p d o)
| w_drop m r p d o src :
    (ringFree (state m) size < length src)%Z →
    thread_step (Config m (WCheck src) r p d o)
      (Config (set_state m (add_dropped 1 (state m))) WIdle r p d o)
| w_enter m r p d o src :
    ¬ (ringFree (state m) size < length src)%Z →
    thread_step (Config m (WCheck src) r p d o) (Config m (WCopy src 0) r p d o)
| w_store m r p d o src i :
    i < length src →
    thread_step (Config m (WCopy src i) r p d o)
      (Config (Build_ring_buffer
          (<[slot size (writeIndex (state m) + i) := default nan (src !! i)]> (ring m)) (state m))
        (WCopy src (S i)) r p d o)
| w_publish m r p d o src :
    thread_step (Config m (WCopy src (length src)) r p d o)
      (Config (set_state m
          (store_write (Z.rem (writeIndex (state m) + length src) size) (state m)))
        WGate r (p ++ src) d o)
| w_gate_keep m r p d o :
    ¬ (prefilled (state m) = 0 ∧ JITTER_PREFILL ≤ ringAvail (state m) size)%Z →
    thread_step (Config m WGate r p d o) (Config m WIdle r p d o)
| w_gate_open m r p d o :
    (prefilled (state m) = 0 ∧ JITTER_PREFILL ≤ ringAvail (state m) size)%Z →
    thread_step (Config m WGate r p d o) (Config m WArm r p d o)
| w_arm m r p d o :
    thread_step (Config m WArm r p d o)
      (Config (set_state m (store_prefilled 1 (state m))) WIdle r p d o)
| r_silent m w p d o count :
    prefilled (state m) = 0%Z →
    thread_step (Config m w RIdle p d o)
      (Config m w RIdle p d (o ++ replicate count zero))
| r_call m w p d o count :
    prefilled (state m) ≠ 0%Z →
    thread_step (Config m w RIdle p d o) (Config m w (RAvail count) p d o)
| r_avail m w p d o count :
    thread_step (Config m w (RAvail count) p d o)
      (Config m w (RCopy count (Z.to_nat (count `min` ringAvail (state m) size)%Z) 0 []) p d o)
| r_load m w p d o count n i acc :
    i < n →
    thread_step (Config m w (RCopy count n i acc) p d o)
      (Config m w (RCopy count n (S i)
        (acc ++ [default nan (ring m !! slot size (readIndex (state m) + i))])) p d o)
| r_store m w p d o count n acc :
    thread_step (Config m w (RCopy count n n acc) p d o)
      (Config (set_state m (store_read (Z.rem (readIndex (state m) + n) size) (state m)))
        w (RFill (count - n)) p (d ++ acc) (o ++ acc))
| r_fill m w p d o missing :
    thread_step (Config m w (RFill missing) p d o)
      (Config (if decide (0 < missing) then set_state m (add_underrun missing (state m)) else m)
        w RIdle p d (o ++ replicate missing zero)).

Definition init_config : config A :=
  Config (Build_ring_buffer (replicate (Z.to_nat size) zero) (Build_ring_state 0 0 0 0 0))
    WIdle RIdle [] [] [].

Definition reachable (c : config A) : Prop := rtc thread_step init_config c.

(** The slots the threads access next without synchronisation. *)
Definition next_store (c : config A) : option nat :=
  match writer c with
  | WCopy src i =>
      if decide (i < length src) then Some (slot size (writeIndex (state (mem c)) + i)) else None
  | _ => None
  end.

Definition next_load (c : config A) : option nat :=
  match reader c with
  | RCopy _ n i _ =>
      if decide (i < n) then Some (slot size (readIndex (state (mem c)) + i)) else None
  | _ => None
  end.

(** ** The invariant *)

Definition shared_inv (m : ring_buffer A) (p d : list A) : Prop :=
  (0 < size < 2 ^ 30)%Z
  ∧ Z.of_nat (length (ring m)) = size
  ∧ writeIndex (state m) = (length p `mod` size)%Z
  ∧ readIndex (state m) = (length d `mod` size)%Z
  ∧ length d ≤ length p
  ∧ (length p < length d + size)%Z
  ∧ d `prefix_of` p
  ∧ ∀ k, length d ≤ k < length p → ring m !! slot size k = p !! k.

Definition writer_inv (m : ring_buffer A) (w : writer_pc A) (p d : list A) : Prop :=
  match w with
  | WCopy src i =>
      i ≤ length src
      ∧ (length p + length src < length d + size)%Z
      ∧ ∀ j, j < i → ring m !! slot size (length p + j) = src !! j
  | _ => True
  end.

Definition reader_inv (r : reader_pc A) (p d : list A) : Prop :=
  match r with
  | RCopy _ n i acc =>
      i ≤ n ∧ length d + n ≤ length p ∧ acc = take i (drop (length d) p)
  | _ => True
  end.

Definition threads_inv (c : config A) : Prop :=
  shared_inv (mem c) (published c) (delivered c)
  ∧ writer_inv (mem c) (writer c) (published c) (delivered c)
  ∧ reader_inv (reader c) (published c) (delivered c).
End Threads.

(** ** The invariant holds in every interleaving *)

Section Invariant.
Context {A : Type} (zero nan : A) (size : Z) (Hsize : (0 < size < 2 ^ 30)%Z).

#[local] Abbreviation step := (thread_step zero nan size).
#[local] Abbreviation inv := (threads_inv size).
Implicit Types (m : ring_buffer A) (p d src acc : list A).

Lemma slot_index (k : Z) j :
  (0 ≤ k)%Z → (0 ≤ j)%Z → slot size (k `mod` size + j) = slot size (k + j).
Proof.
  intros. apply slot_shift; [lia| |lia..|by rewrite Z.mod_mod by lia].
  apply Z.mod_pos_bound. lia.
Qed.

Lemma shared_avail m (p d : list A) :
  shared_inv size m p d →
  ringAvail (state m) size = (length p - length d)%Z.
Proof.
  intros (_ & _ & Hw & Hr & ? & ? & _). rewrite ringAvail_mod;
    rewrite ?Hw, ?Hr; try (apply Z.mod_pos_bound; lia); [|lia].
  rewrite <- Zminus_mod. apply Z.mod_small. lia.
Qed.

Lemma int32_mod (k : Z) : (0 ≤ k)%Z → int32 (Z.rem k size) = (k `mod` size)%Z.
Proof.
  intros. rewrite Z.rem_mod_nonneg by lia. apply int32_id.
  pose proof (Z.mod_pos_bound k size). lia.
Qed.

(** Publishing a copied frame. *)
Lemma publish_inv m p d src :
  shared_inv size m p d → writer_inv size m (WCopy src (length src)) p d →
  shared_inv size
    (set_state m (store_write (Z.rem (writeIndex (state m) + length src) size) (state m)))
    (p ++ src) d.
Proof.
  intros (_ & Hl & Hw & Hr & Hdp & Hfree & Hpre & Hring) (_ & Hcap & Hsrc).
  unfold shared_inv, set_state; cbn [ring state store_write writeIndex readIndex];
    split; [done|]; split_and?; try done.
  - rewrite Hw, int32_mod, length_app, Nat2Z.inj_add, Zplus_mod_idemp_l; [done|].
    pose proof (Z.mod_pos_bound (length p) size). lia.
  - rewrite length_app. lia.
  - rewrite length_app. lia.
  - by apply prefix_app_r.
  - intros k. rewrite length_app. intros Hk. destruct (decide (k < length p)).
    + rewrite lookup_app_l by done. apply Hring. lia.
    + rewrite lookup_app_r by lia. rewrite <- Hsrc by lia. do 2 f_equal. lia.
Qed.

(** A store into a free slot disturbs no live sample. *)
Lemma store_inv m p d src i :
  shared_inv size m p d → writer_inv size m (WCopy src i) p d → i < length src →
  let m' := Build_ring_buffer
    (<[slot size (writeIndex (state m) + i) := default nan (src !! i)]> (ring m)) (state m) in
  shared_inv size m' p d ∧ writer_inv size m' (WCopy src (S i)) p d.
Proof.
  intros (_ & Hl & Hw & Hr & Hdp & Hfree & Hpre & Hring) (_ & Hcap & Hsrc) Hi.
  assert (slot size (writeIndex (state m) + i) = slot size (length d + (length p - length d + i)))
    as -> by (rewrite Hw, slot_index by lia; f_equal; lia).
  set (x := default nan (src !! i)). cbn zeta.
  assert (∀ k, (0 ≤ k < size)%Z → k ≠ (length p - length d + i)%Z →
    (<[slot size (length d + (length p - length d + i)) := x]> (ring m))
      !! slot size (length d + k) = ring m !! slot size (length d + k)) as Hother.
  { intros k Hk Hne. apply list_lookup_insert_ne. intros He%slot_inj; lia. }
  split.
  - unfold shared_inv; cbn [ring state]; split; [done|]; split_and?; try done; [by rewrite length_insert|].
    intros k Hk. rewrite <- Hring by done.
    replace (Z.of_nat k) with (length d + (k - length d))%Z by lia. apply Hother; lia.
  - unfold writer_inv; cbn [ring]. split_and?; try done. intros j Hj.
    destruct (decide (j = i)) as [->|Hne].
    + replace (length p + i)%Z with (length d + (length p - length d + i))%Z by lia.
      rewrite list_lookup_insert_eq.
      * unfold x. destruct (lookup_lt_is_Some_2 src i) as [y ->]; [lia|done].
      * pose proof (slot_lt size (length d + (length p - length d + i))). lia.
    + rewrite <- Hsrc by lia.
      replace (length p + j)%Z with (length d + (length p - length d + j))%Z by lia.
      apply Hother; lia.
Qed.

(** Consuming what the reader copied. *)
Lemma consume_inv m w p d n :
  shared_inv size m p d → writer_inv size m w p d → length d + n ≤ length p →
  let m' := set_state m (store_read (Z.rem (readIndex (state m) + n) size) (state m)) in
  let d' := d ++ take n (drop (length d) p) in
  shared_inv size m' p d' ∧ writer_inv size m' w p d'.
Proof.
  intros (_ & Hl & Hw & Hr & Hdp & Hfree & Hpre & Hring) Hwi Hn m' d'.
  assert (length d' = length d + n) as Hd'.
  { unfold d'. rewrite length_app, length_take, length_drop. lia. }
  split.
  - unfold shared_inv, m', set_state; cbn [ring state store_read writeIndex readIndex];
      split; [done|]; split_and?; try done.
    + rewrite Hd', Hr, int32_mod, Nat2Z.inj_add, Zplus_mod_idemp_l; [done|].
      pose proof (Z.mod_pos_bound (length d) size). lia.
    + lia.
    + lia.
    + destruct Hpre as [l ->]. unfold d'. rewrite drop_app_length.
      apply prefix_app. apply prefix_take.
    + intros k Hk. apply Hring. lia.
  - destruct w; try done. destruct Hwi as (? & ? & ?). cbn [writer_inv]. split_and?; try done. lia.
Qed.

Lemma threads_inv_init : inv (init_config zero size).
Proof.
  unfold threads_inv, shared_inv; cbn. rewrite length_replicate.
  split_and?; try done; try lia.
Qed.

Lemma threads_inv_step c c' : inv c → step c c' → inv c'.
Proof.
  intros (Hs & Hw & Hr) Hstep. pose proof (shared_avail _ _ _ Hs) as Hav.
  destruct Hstep; cbn [mem writer reader published delivered] in *;
    unfold threads_inv; cbn [mem writer reader published delivered]; try by split_and?.
  - split; [done|]. split; [|done]. cbn. split; [lia|]. split; [|lia].
    unfold ringFree in *. lia.
  - split; [|split]; [apply (store_inv m p d src i)..|]; done.
  - split; [by apply publish_inv|]. split; [done|].
    destruct r; try done. destruct Hr as (? & ? & ->). cbn. rewrite length_app. split; [done|].
    split; [lia|]. rewrite drop_app_le, take_app_le; [done| |]; rewrite ?length_drop; lia.
  - split; [done|]. split; [done|]. cbn. split; [lia|]. split; [|done].
    destruct Hs as (_ & _ & _ & _ & ? & _). lia.
  - destruct Hr as (? & Hn & ->). split; [done|]. split; [done|]. cbn.
    split; [lia|]. split; [done|].
    destruct Hs as (_ & _ & _ & Hrd & Hdp & _ & _ & Hring).
    rewrite Hrd, slot_index by lia.
    replace (length d + i)%Z with (Z.of_nat (length d + i)) by lia.
    rewrite Hring by lia.
    destruct (lookup_lt_is_Some_2 p (length d + i)) as [x Hx]; [lia|]. rewrite Hx. cbn.
    symmetry. apply take_S_r. by rewrite lookup_drop.
  - destruct Hr as (_ & Hn & ->).
    destruct (consume_inv m w p d n) as [? ?]; done.
  - case_decide; by split_and?.
Qed.

Lemma threads_inv_reachable c : reachable zero nan size c → inv c.
Proof.
  revert c. apply rtc_ind_r; [apply threads_inv_init|].
  intros c c' _ Hstep Hc. eapply threads_inv_step; eauto.
Qed.
End Invariant.

(** ** A thread that is not interrupted runs the sequential operation *)

Section Solo.
Context {A : Type} (zero nan : A) (size : Z).

Lemma writer_copies m src r p d o i :
  i ≤ length src →
  rtc (thread_step zero nan size) (Config m (WCopy src 0) r p d o)
    (Config (Build_ring_buffer
        (for_loop i (λ i rg, <[slot size (writeIndex (state m) + i) := default nan (src !! i)]> rg)
          (ring m)) (state m))
      (WCopy src i) r p d o).
Proof.
  induction i as [|i IH]; intros Hi; [by destruct m|].
  eapply rtc_r; [apply IH; lia|]. rewrite for_loop_S.
  apply (w_store zero nan size (Build_ring_buffer _ (state m))). lia.
Qed.

(** [ringWrite] called with nothing interleaved. *)
Lemma writer_solo m src r p d o :
  ∃ p', rtc (thread_step zero nan size) (Config m WIdle r p d o)
    (Config (ringWrite nan m size src) WIdle r p' d o).
Proof.
  unfold ringWrite. case_decide as Hfull.
  - exists p. eapply rtc_l; [apply (w_call _ _ _ _ _ _ _ _ src)|].
    eapply rtc_l; [by apply w_drop|]. done.
  - exists (p ++ src). eapply rtc_l; [apply (w_call _ _ _ _ _ _ _ _ src)|].
    eapply rtc_l; [by apply w_enter|].
    etrans; [by apply (writer_copies m src r p d o (length src))|].
    eapply rtc_l; [apply w_publish|]. unfold set_state. cbn [ring state].
    case_decide as Hgate.
    + eapply rtc_l; [by apply w_gate_open|]. eapply rtc_l; [apply w_arm|]. done.
    + eapply rtc_l; [by apply w_gate_keep|]. done.
Qed.

Lemma reader_copies m w p d o count n i :
  i ≤ n →
  rtc (thread_step zero nan size) (Config m w (RCopy count n 0 []) p d o)
    (Config m w (RCopy count n i
      (map (λ i : nat, default nan (ring m !! slot size (readIndex (state m) + i))) (seq 0 i)))
      p d o).
Proof.
  induction i as [|i IH]; intros Hi; [done|].
  eapply rtc_r; [apply IH; lia|]. rewrite seq_S, map_app. cbn. apply r_load. lia.
Qed.

Lemma process_output m count :
  (process zero nan (Some size) m (replicate count zero)).2 =
  if decide (prefilled (state m) = 0%Z) then replicate count zero else
    let n := Z.to_nat (count `min` ringAvail (state m) size)%Z in
    map (λ i : nat, default nan (ring m !! slot size (readIndex (state m) + i))) (seq 0 n)
    ++ replicate (count - n) zero.
Proof.
  unfold process. rewrite !length_replicate.
  destruct (decide (prefilled (state m) = 0%Z)) as [Hp|Hp]; simpl.
  { by rewrite fill_zero, drop_ge, app_nil_r by (rewrite length_replicate; lia). }
  fold (ringAvail (state m) size). set (n := Z.to_nat _).
  set (f := λ i : nat, default nan (ring m !! slot size (readIndex (state m) + i))).
  pose proof (copy_out_spec zero f (map f (seq 0 n)) (replicate count zero) n count) as Hc.
  rewrite length_map, length_seq, length_replicate in Hc.
  specialize (Hc ltac:(lia) ltac:(lia) ltac:(lia)).
  rewrite drop_ge, app_nil_r, firstn_all2 in Hc
    by (rewrite ?length_map, ?length_seq, ?length_replicate; lia).
  case_decide; simpl; rewrite <- Hc; try done.
  all: try (intros i Hi; rewrite list_lookup_fmap, lookup_seq_lt by lia; done).
  by replace (count - n) with 0 by lia.
Qed.

(** [process] called with nothing interleaved. *)
Lemma reader_solo m w p d o count :
  ∃ d', rtc (thread_step zero nan size) (Config m w RIdle p d o)
    (Config (process zero nan (Some size) m (replicate count zero)).1 w RIdle p d'
      (o ++ (process zero nan (Some size) m (replicate count zero)).2)).
Proof.
  rewrite process_output. unfold process. rewrite !length_replicate. case_decide as Hp; simpl.
  { exists d. apply rtc_once. by apply r_silent. }
  fold (ringAvail (state m) size). set (n := Z.to_nat _).
  eexists. eapply rtc_l; [by apply (r_call _ _ _ _ _ _ _ _ count)|].
  eapply rtc_l; [apply r_avail|]. etrans; [by apply (reader_copies m w p d o count n n)|].
  eapply rtc_l; [apply r_store|]. eapply rtc_l; [apply r_fill|]. rewrite <- app_assoc.
  replace (Z.of_nat count - Z.of_nat n)%Z with (Z.of_nat (count - n)) by lia.
  case_decide; [rewrite decide_True by lia|rewrite decide_False by lia]; done.
Qed.
End Solo.

(** ** Properties *)

Section Properties.
Context {A : Type} (zero nan : A) (size : Z).

(** C2: in every interleaving of the two threads the samples consumed are a
    prefix of the samples published (none lost, repeated, torn or reordered),
    the occupancy never exceeds the ring, and the plain accesses never race:
    the slot the writer stores next is not the slot the reader loads next. *)
Theorem ring_threads_safe (c : config A) :
  (0 < size < 2 ^ 30)%Z →
  reachable zero nan size c →
  delivered c `prefix_of` published c
  ∧ (length (published c) - length (delivered c) < size)%Z
  ∧ (∀ i j, next_store size c = Some i → next_load size c = Some j → i ≠ j).
Proof.
  intros Hsize Hc. destruct (threads_inv_reachable zero nan size Hsize c Hc) as (Hs & Hw & Hr).
  destruct Hs as (_ & _ & Hwi & Hri & ? & ? & ? & _). split_and?; [done|lia|].
  intros i j. unfold next_store, next_load.
  destruct (writer c) as [| |src k| |]; try done. destruct (reader c) as [| |count n l acc|]; try done.
  cbn in Hw, Hr. case_decide; [|done]. case_decide; [|done]. intros [= <-] [= <-].
  rewrite Hwi, Hri, !slot_index by (done || lia).
  replace (length (published c) + k)%Z
    with (length (delivered c) + (length (published c) - length (delivered c) + k))%Z by lia.
  intros He%slot_inj; lia.
Qed.

(** The step relation contains the sequential code.  A [ringWrite], or a
    worklet [process], that is not interrupted takes the shared memory exactly
    to the result of the sequential definition and plays exactly its output,
    from any memory and wherever the other thread stands. *)
Theorem ring_threads_sequential (m : ring_buffer A) (p d o src : list A) (count : nat) :
  (∀ r, ∃ p', rtc (thread_step zero nan size) (Config m WIdle r p d o)
    (Config (ringWrite nan m size src) WIdle r p' d o))
  ∧ (∀ w, ∃ d', rtc (thread_step zero nan size) (Config m w RIdle p d o)
    (Config (process zero nan (Some size) m (replicate count zero)).1 w RIdle p d'
      (o ++ (process zero nan (Some size) m (replicate count zero)).2))).
Proof. split; intros; [apply writer_solo|apply reader_solo]. Qed.
End Properties.

Lemma ring_threads_safe_witness :
  let c := Config (Build_ring_buffer [0; 0]%Z (Build_ring_state 0 0 0 0 0))
    (WCopy [7%Z] 0) RIdle [] [] [] in
  delivered c `prefix_of` published c.
Proof.
  intros c. apply (ring_threads_safe 0%Z (-1)%Z 2%Z c); [lia|].
  eapply rtc_l; [apply (w_call _ _ _ _ _ _ _ _ [7%Z])|].
  eapply rtc_l; [apply w_enter; vm_compute; by intros|]. apply rtc_refl.
Defined.
