(* ===== verification/ReplayBuffer.v ===== *)
(** [services/replayBuffer.js]: per-channel circular buffers that keep the last
    thirty seconds of decoded PCM, and the theorem that a replay returns exactly
    the most recent samples of its own channel. *)
From S2P Require Import Prelude Constants.

Definition REPLAY_SECONDS : Z := 30.
Definition REPLAY_SIZE : Z := SAMPLE_RATE * REPLAY_SECONDS.

Record replay_buf (A : Type) := { data : list A; writePos : Z; totalWritten : Z }.
Arguments Build_replay_buf {A}. Arguments data {A}. Arguments writePos {A}.
Arguments totalWritten {A}.

Section Replay.
Context {A : Type} (zero nan : A).

(** The module's [buffers] object, keyed by channel number. *)
Definition new_buf : replay_buf A :=
  Build_replay_buf (replicate (Z.to_nat REPLAY_SIZE) zero) 0 0.

Definition init_buffers : gmap Z (replay_buf A) :=
  foldr (λ c m, <[ch c := new_buf]> m) ∅ CHANNELS_DEF.

(** One iteration of the append loop. *)
Definition put_sample (x : A) (buf : replay_buf A) : replay_buf A :=
  Build_replay_buf (<[Z.to_nat (Z.rem (writePos buf) REPLAY_SIZE) := x]> (data buf))
    (writePos buf + 1) (totalWritten buf).

Definition append_buf (pcm : list A) (buf : replay_buf A) : replay_buf A :=
  let buf' := for_loop (length pcm) (λ i b, put_sample (default nan (pcm !! i)) b) buf in
  Build_replay_buf (data buf') (writePos buf') (totalWritten buf' + length pcm).

Definition appendReplay (ch : Z) (pcm : list A) (buffers : gmap Z (replay_buf A)) :
    gmap Z (replay_buf A) :=
  match buffers !! ch with
  | None => buffers
  | Some buf => <[ch := append_buf pcm buf]> buffers
  end.

Definition getReplayPcm (ch : Z) (buffers : gmap Z (replay_buf A)) : option (list A) :=
  match buffers !! ch with
  | None => None
  | Some buf =>
      if decide (totalWritten buf = 0%Z) then None
      else
        let len := Z.to_nat (Z.min (totalWritten buf) REPLAY_SIZE) in
        let start := (writePos buf - len)%Z in
        Some (for_loop len
          (λ i out, <[i := default nan
             (data buf !! Z.to_nat (Z.rem (start + i + REPLAY_SIZE) REPLAY_SIZE))]> out)
          (replicate len zero))
  end.

Definition hasReplayData (ch : Z) (buffers : gmap Z (replay_buf A)) : bool :=
  match buffers !! ch with
  | None => false
  | Some buf => bool_decide (0 < totalWritten buf)%Z
  end.

(** The frames one channel received, and the run that stores a whole history. *)
Definition channel_history (c : Z) (frames : list (Z * list A)) : list A :=
  concat (map snd (filter (λ f, f.1 = c) frames)).

Definition append_all (frames : list (Z * list A)) : gmap Z (replay_buf A) :=
  foldl (λ m f, appendReplay f.1 f.2 m) init_buffers frames.

(** The buffer holds the end of the history [hist]. *)
Definition replay_inv (buf : replay_buf A) (hist : list A) : Prop :=
  Z.of_nat (length (data buf)) = REPLAY_SIZE
  ∧ writePos buf = length hist
  ∧ totalWritten buf = length hist
  ∧ ∀ k : nat, (length hist - REPLAY_SIZE ≤ k < length hist)%Z →
      data buf !! Z.to_nat (k `mod` REPLAY_SIZE) = hist !! k.
End Replay.

Lemma REPLAY_SIZE_pos : (0 < REPLAY_SIZE)%Z.
Proof. done. Qed.

#[local] Opaque REPLAY_SIZE.

Section Proofs.
Context {A : Type} (zero nan : A).
Implicit Types (buf : replay_buf A) (hist pcm : list A).

Lemma replay_inv_new : replay_inv (new_buf zero) [].
Proof.
  pose proof REPLAY_SIZE_pos. unfold replay_inv, new_buf. cbn [data writePos totalWritten].
  rewrite length_replicate. split; [apply Z2Nat.id; lia|]. split; [done|]. split; [done|].
  cbn. lia.
Qed.

(** Indices of the last [REPLAY_SIZE] positions have distinct slots. *)
Lemma recent_slot_inj (n k : Z) :
  (0 ≤ k < n)%Z → (n - REPLAY_SIZE < k)%Z →
  Z.to_nat (k `mod` REPLAY_SIZE) ≠ Z.to_nat (n `mod` REPLAY_SIZE).
Proof.
  intros Hk Hn He. pose proof REPLAY_SIZE_pos.
  apply Z2Nat.inj in He; [|apply Z.mod_pos_bound; lia..].
  pose proof (Z.mod_small (n - k) REPLAY_SIZE) as Hs.
  rewrite Zminus_mod, <- He, Z.sub_diag, Zmod_0_l in Hs. lia.
Qed.

Lemma put_sample_inv x buf hist :
  replay_inv buf hist →
  let buf' := put_sample x buf in
  replay_inv (Build_replay_buf (data buf') (writePos buf') (length hist + 1)) (hist ++ [x]).
Proof.
  pose proof REPLAY_SIZE_pos. intros (Hl & Hw & _ & Hd). unfold replay_inv, put_sample.
  cbn [data writePos totalWritten]. rewrite length_insert, length_app. cbn.
  split_and?; [done|lia|lia|]. intros k Hk. rewrite Hw, Z.rem_mod_nonneg by lia.
  destruct (decide (k = length hist)) as [->|Hne].
  - rewrite list_lookup_insert_eq.
    + by rewrite lookup_app_r, Nat.sub_diag by lia.
    + pose proof (Z.mod_pos_bound (length hist) REPLAY_SIZE). lia.
  - rewrite list_lookup_insert_ne by (apply not_eq_sym, recent_slot_inj; lia).
    rewrite lookup_app_l by lia. apply Hd. lia.
Qed.

Lemma append_buf_inv pcm buf hist :
  replay_inv buf hist → replay_inv (append_buf nan pcm buf) (hist ++ pcm).
Proof.
  intros Hinv. unfold append_buf.
  pose proof (for_loop_inv (λ i b, totalWritten b = length hist ∧
    replay_inv (Build_replay_buf (data b) (writePos b) (length hist + i)) (hist ++ take i pcm))
    (length pcm) (λ i b, put_sample (default nan (pcm !! i)) b) buf) as Hloop.
  destruct Hloop as (Ht & H).
  - cbn. rewrite app_nil_r. destruct Hinv as (? & ? & ? & ?). split; [done|].
    unfold replay_inv. cbn. by rewrite Z.add_0_r.
  - intros k b Hk (Ht & H). split; [done|]. destruct (lookup_lt_is_Some_2 pcm k Hk) as [x Hx].
    rewrite Hx. cbn [default]. rewrite (take_S_r _ _ x), app_assoc by done.
    pose proof (put_sample_inv x _ _ H) as Hp. cbn [totalWritten] in Hp.
    rewrite length_app, length_take_le in Hp by lia.
    by replace (length hist + S k)%Z with ((length hist + k)%nat + 1)%Z by lia.
  - rewrite firstn_all in H. destruct H as (? & ? & ? & ?). cbn in *.
    unfold replay_inv. cbn. rewrite Ht. rewrite length_app in *. split_and?; try done; lia.
Qed.

(** Reading back the end of the history. *)
Lemma getReplayPcm_inv ch (buffers : gmap Z (replay_buf A)) buf hist :
  buffers !! ch = Some buf → replay_inv buf hist →
  getReplayPcm zero nan ch buffers
  = if decide (hist = []) then None else Some (last_n (Z.to_nat REPLAY_SIZE) hist).
Proof.
  pose proof REPLAY_SIZE_pos. intros Hb (Hl & Hw & Ht & Hd). unfold getReplayPcm. rewrite Hb, Ht.
  case_decide as H0; [rewrite decide_True by (by apply nil_length_inv; lia); done|].
  rewrite decide_False by (by intros ->). f_equal. rewrite Hw.
  set (len := Z.to_nat (Z.min (length hist) REPLAY_SIZE)).
  apply list_eq. intros i. unfold for_loop.
  rewrite (for_from_fill_lookup (λ i, default nan (data buf !!
    Z.to_nat (Z.rem (length hist - len + i + REPLAY_SIZE) REPLAY_SIZE)))), length_replicate.
  case_decide.
  - rewrite Z.rem_mod_nonneg by lia.
    rewrite <- Zplus_mod_idemp_r, Z_mod_same_full, Z.add_0_r.
    replace (length hist - len + i)%Z with (Z.of_nat (length hist - len + i)) by lia.
    rewrite Hd by lia. unfold last_n. rewrite lookup_drop.
    replace (length hist - Z.to_nat REPLAY_SIZE + i) with (length hist - len + i) by lia.
    destruct (lookup_lt_is_Some_2 hist (length hist - len + i)) as [x ->]; [lia|done].
  - rewrite !lookup_ge_None_2; [done|rewrite last_n_length; lia|rewrite length_replicate; lia].
Qed.

Lemma channel_history_cons c f (frames : list (Z * list A)) :
  channel_history c (f :: frames)
  = (if decide (f.1 = c) then f.2 else []) ++ channel_history c frames.
Proof. unfold channel_history. rewrite filter_cons. by case_decide. Qed.

Lemma append_all_inv c frames (m : gmap Z (replay_buf A)) buf hist :
  m !! c = Some buf → replay_inv buf hist →
  ∃ buf', foldl (λ m f, appendReplay nan f.1 f.2 m) m frames !! c = Some buf'
    ∧ replay_inv buf' (hist ++ channel_history c frames).
Proof.
  revert m buf hist. induction frames as [|[c' pcm] frames IH]; intros m buf hist Hm Hinv.
  { exists buf. by rewrite app_nil_r. }
  rewrite channel_history_cons, app_assoc. simpl. unfold appendReplay at 2.
  case_decide as Hc; [subst c'|].
  - rewrite Hm. eapply IH; [by rewrite lookup_insert_eq|]. by apply append_buf_inv.
  - rewrite app_nil_r. destruct (m !! c'); [|by eapply IH].
    eapply IH; [by rewrite lookup_insert_ne|done].
Qed.

(** ** Properties *)

(** C3: a replay of a configured channel returns exactly the last thirty seconds
    (1 440 000 samples) of what was appended to that channel, in order, whatever
    was appended to other channels in between, and [null] when it received
    nothing; a channel outside the table never has anything to replay. *)
Theorem replay_last_samples (c : Z) (frames : list (Z * list A)) :
  let hist := channel_history c frames in
  getReplayPcm zero nan c (append_all zero nan frames)
  = if decide (c ∈ map ch CHANNELS_DEF ∧ hist ≠ [])
    then Some (last_n (Z.to_nat REPLAY_SIZE) hist) else None.
Proof.
  cbn zeta. destruct (decide (c ∈ map ch CHANNELS_DEF)) as [Hin|Hout].
  - assert (init_buffers zero !! c = Some (new_buf zero)) as Hi.
    { unfold init_buffers. simpl in *. set_unfold in Hin.
      destruct Hin as [->|[->|[->|[->|[->|[]]]]]]; by simplify_map_eq. }
    destruct (append_all_inv c frames _ _ [] Hi replay_inv_new) as (buf & Hb & Hinv).
    unfold append_all. rewrite (getReplayPcm_inv _ _ _ _ Hb Hinv), app_nil_l.
    destruct (decide (channel_history c frames = [])) as [He|He];
      [rewrite decide_False by tauto|rewrite decide_True by tauto]; done.
  - rewrite decide_False by tauto.
    assert (append_all zero nan frames !! c = None) as Hn.
    { unfold append_all. assert (init_buffers zero !! c = None) as Hi.
      { unfold init_buffers. simpl in *. set_unfold in Hout.
        rewrite !lookup_insert_ne by (intros <-; tauto). done. }
      revert Hi. generalize (init_buffers zero).
      induction frames as [|[c' pcm] frames IH]; intros m Hm; [done|]. simpl.
      apply IH. unfold appendReplay. destruct (m !! c') eqn:E; [|done].
      rewrite lookup_insert_ne; congruence. }
    unfold getReplayPcm. by rewrite Hn.
Qed.
End Proofs.
