(* ===== verification/AudioRx.v ===== *)
(** The receive path of [services/audioEngine.js]: [initAudio] (with the await on
    the worklet module as a step of its own), [decodeAndPlay] with its bounded
    queue of frames that arrive before the decoder exists, the decoder's output
    callback, and the two-second diagnostic reporter.

    The ring is any implementation of [PcmQueue], so the playback theorems are
    proved against that interface.  What the browser offers is the argument
    [audio_env]; whether [AudioDecoder.decode] throws on a chunk is a parameter. *)
From S2P Require Import Prelude Constants RingBuffer ReplayBuffer.

Definition PENDING_RX_MAX : nat := 50.

(** What the browser offers to [initAudio]. *)
Record audio_env := {
  hasWorklet : bool;        (* AudioWorkletNode and SharedArrayBuffer exist *)
  hasDecoder : bool;        (* AudioDecoder exists *)
  decoderConfigures : bool; (* its construction and configure() do not throw *)
  hasEncoder : bool;
  encoderConfigures : bool
}.

Inductive codec_state := Configured | Closed.
#[export] Instance codec_state_eq_dec : EqDecision codec_state.
Proof. solve_decision. Defined.

Record rx_frame := { f_data : list Z; f_ch : Z; f_ip : string }.

(** A call [opusDecoder.decode(new EncodedAudioChunk({timestamp, data}))] that
    returned, with the source of its frame. *)
Record rx_chunk := { c_timestamp : Z; c_frame : rx_frame }.

Inductive init_phase := NotStarted | AwaitModule | Initialised.

(** What [logFn] receives. *)
Inductive rx_log :=
| LogWorkletActive
| LogWorkletUnavailable
| LogDecoderReady
| LogDecoderUnavailable
| LogNoWebCodecs
| LogEncoderReady
| LogEncoderUnavailable
| LogDecodeError
| LogDropped (delta total : Z)
| LogUnderran (samples occupancy : Z)
| LogStages (ws decIn decOut occupancy : Z).

(** The reporter's last observed values. *)
Record reporter := {
  lastDropCount : Z;
  lastUnderrunSamples : Z;
  lastRxFramesIn : Z;
  lastDecodeIn : Z;
  lastDecodeOut : Z
}.

(** The module state of the receive path; [submitted] and [notified] record the
    calls made to the decoder and to the consumer's [onPcm]. *)
Record rx_state (A R : Type) := mk_rx {
  phase : init_phase;
  useWorklet : bool;
  ringState : option R;
  opusDecoder : option codec_state;
  opusEncoder : option codec_state;
  rxFramesIn : Z;
  decodeIn : Z;
  decodeOut : Z;
  lastDecodeCh : Z;
  lastDecodeIP : string;
  rxTimestamp : Z;
  pendingRxFrames : list rx_frame;
  replay : gmap Z (replay_buf A);
  submitted : list rx_chunk;
  notified : list (list A * Z * string);
  log : list rx_log
}.
Arguments mk_rx {A R}. Arguments phase {A R}. Arguments useWorklet {A R}.
Arguments ringState {A R}. Arguments opusDecoder {A R}. Arguments opusEncoder {A R}.
Arguments rxFramesIn {A R}. Arguments decodeIn {A R}. Arguments decodeOut {A R}.
Arguments lastDecodeCh {A R}. Arguments lastDecodeIP {A R}. Arguments rxTimestamp {A R}.
Arguments pendingRxFrames {A R}. Arguments replay {A R}. Arguments submitted {A R}.
Arguments notified {A R}. Arguments log {A R}.

Section Rx.
Context {A R : Type} {zero : A} (nan : A) (Q : PcmQueue A R zero).
Context (decode_throws : rx_chunk → bool).

Definition rx_init : rx_state A R :=
  mk_rx NotStarted false None None None 0 0 0 0 "" 0 [] (init_buffers zero) [] [] [].

(** [decodeAndPlay(opusData, ch, srcIP)]. *)
Definition decodeAndPlay (f : rx_frame) (s : rx_state A R) : rx_state A R :=
  let frames := (rxFramesIn s + 1)%Z in
  match opusDecoder s with
  | Some Configured =>
      let ts := if decide (f_ch f ≠ lastDecodeCh s ∨ f_ip f ≠ lastDecodeIP s)
                then 0%Z else rxTimestamp s in
      let c := {| c_timestamp := ts; c_frame := f |} in
      if decode_throws c then
        mk_rx (phase s) (useWorklet s) (ringState s) (opusDecoder s) (opusEncoder s)
          frames (decodeIn s) (decodeOut s) (f_ch f) (f_ip f) ts (pendingRxFrames s)
          (replay s) (submitted s) (notified s) (log s ++ [LogDecodeError])
      else
        mk_rx (phase s) (useWorklet s) (ringState s) (opusDecoder s) (opusEncoder s)
          frames (decodeIn s + 1) (decodeOut s) (f_ch f) (f_ip f) (ts + 20000)
          (pendingRxFrames s) (replay s) (submitted s ++ [c]) (notified s) (log s)
  | Some Closed =>
      mk_rx (phase s) (useWorklet s) (ringState s) (opusDecoder s) (opusEncoder s)
        frames (decodeIn s) (decodeOut s) (lastDecodeCh s) (lastDecodeIP s) (rxTimestamp s)
        (pendingRxFrames s) (replay s) (submitted s) (notified s) (log s)
  | None =>
      mk_rx (phase s) (useWorklet s) (ringState s) (opusDecoder s) (opusEncoder s)
        frames (decodeIn s) (decodeOut s) (lastDecodeCh s) (lastDecodeIP s) (rxTimestamp s)
        (if decide (length (pendingRxFrames s) < PENDING_RX_MAX)
         then pendingRxFrames s ++ [f] else pendingRxFrames s)
        (replay s) (submitted s) (notified s) (log s)
  end.

(** The decoder's [output] callback on a decoded frame; [onPcm] is the
    consumer's callback being registered. *)
Definition decoder_output (onPcm : bool) (pcm : list A) (s : rx_state A R) : rx_state A R :=
  mk_rx (phase s) (useWorklet s)
    ((λ r, pcm_write (PcmQueue := Q) r pcm) <$> ringState s) (opusDecoder s) (opusEncoder s)
    (rxFramesIn s) (decodeIn s) (decodeOut s + 1) (lastDecodeCh s) (lastDecodeIP s)
    (rxTimestamp s) (pendingRxFrames s)
    (if decide (lastDecodeCh s = 0%Z) then replay s
     else appendReplay nan (lastDecodeCh s) pcm (replay s))
    (submitted s)
    (if onPcm then notified s ++ [(pcm, lastDecodeCh s, lastDecodeIP s)] else notified s)
    (log s).

Definition set_setup (ph : init_phase) (wk : bool) (ring : option R)
    (dec enc : option codec_state) (pending : list rx_frame) (l : list rx_log)
    (s : rx_state A R) : rx_state A R :=
  mk_rx ph wk ring dec enc (rxFramesIn s) (decodeIn s) (decodeOut s) (lastDecodeCh s)
    (lastDecodeIP s) (rxTimestamp s) pending (replay s) (submitted s) (notified s) (log s ++ l).

(** The part of [initAudio] after the ring: decoder, flush, encoder. *)
Definition initAudio_codecs (env : audio_env) (s : rx_state A R) : rx_state A R :=
  let '(dec, l1) :=
    if hasDecoder env then
      if decoderConfigures env then (Some Configured, [LogDecoderReady])
      else (None, [LogDecoderUnavailable])
    else (opusDecoder s, [LogNoWebCodecs]) in
  let s1 := set_setup Initialised (useWorklet s) (ringState s) dec (opusEncoder s)
    (pendingRxFrames s) l1 s in
  let s2 :=
    match dec with
    | Some _ =>
        foldl (λ s f, decodeAndPlay f s)
          (set_setup Initialised (useWorklet s1) (ringState s1) dec (opusEncoder s1) [] [] s1)
          (pendingRxFrames s1)
    | None => s1
    end in
  let '(enc, l2) :=
    if hasEncoder env then
      if encoderConfigures env then (Some Configured, [LogEncoderReady])
      else (None, [LogEncoderUnavailable])
    else (opusEncoder s2, []) in
  set_setup Initialised (useWorklet s2) (ringState s2) (opusDecoder s2) enc
    (pendingRxFrames s2) l2 s2.

(** [initAudio] up to its first await; without a worklet there is none and it
    runs to the end. *)
Definition initAudio (env : audio_env) (s : rx_state A R) : rx_state A R :=
  match phase s with
  | NotStarted =>
      if hasWorklet env then
        set_setup AwaitModule false (Some (pcm_new (PcmQueue := Q))) (opusDecoder s)
          (opusEncoder s) (pendingRxFrames s) [] s
      else
        initAudio_codecs env
          (set_setup AwaitModule false (Some (pcm_new (PcmQueue := Q))) (opusDecoder s)
             (opusEncoder s) (pendingRxFrames s) [] s)
  | _ => s
  end.

(** [initAudio] after [addModule] resolved ([ok]) or threw. *)
Definition initAudio_resume (env : audio_env) (ok : bool) (s : rx_state A R) : rx_state A R :=
  match phase s with
  | AwaitModule =>
      initAudio_codecs env
        (if ok then
           set_setup AwaitModule true (ringState s) (opusDecoder s) (opusEncoder s)
             (pendingRxFrames s) [LogWorkletActive] s
         else
           set_setup AwaitModule false (Some (pcm_new (PcmQueue := Q))) (opusDecoder s)
             (opusEncoder s) (pendingRxFrames s) [LogWorkletUnavailable] s)
  | _ => s
  end.

(** One tick of the ring diagnostic reporter. *)
Definition dropWatch (s : rx_state A R) (rep : reporter) : reporter * list rx_log :=
  match ringState s with
  | None => (rep, [])
  | Some r =>
      let '(totalDrops, totalUnderruns, avail) := pcm_stats (PcmQueue := Q) r in
      let dropDelta := (totalDrops - lastDropCount rep)%Z in
      let underrunDelta := (totalUnderruns - lastUnderrunSamples rep)%Z in
      let rxDelta := (rxFramesIn s - lastRxFramesIn rep)%Z in
      let decInDelta := (decodeIn s - lastDecodeIn rep)%Z in
      let decOutDelta := (decodeOut s - lastDecodeOut rep)%Z in
      let active := bool_decide (0 < rxDelta ∨ 0 < decInDelta ∨ 0 < decOutDelta
                                 ∨ 0 < underrunDelta)%Z in
      (Build_reporter
         (if decide (0 < dropDelta)%Z then totalDrops else lastDropCount rep)
         (if decide (0 < underrunDelta)%Z then totalUnderruns else lastUnderrunSamples rep)
         (if active then rxFramesIn s else lastRxFramesIn rep)
         (if active then decodeIn s else lastDecodeIn rep)
         (if active then decodeOut s else lastDecodeOut rep),
       (if decide (0 < dropDelta)%Z then [LogDropped dropDelta totalDrops] else [])
       ++ (if decide (0 < underrunDelta)%Z then [LogUnderran underrunDelta avail] else [])
       ++ (if active then [LogStages rxDelta decInDelta decOutDelta avail] else []))
  end.

(** ** Events after initialisation *)

Inductive rx_event :=
| EvFrame (f : rx_frame)
| EvPcm (pcm : list A)
| EvRead (count : nat).

(** A websocket frame, a decoded frame, or the audio node asking for samples;
    the second component is what is played. *)
Definition rx_step (s : rx_state A R) (e : rx_event) : rx_state A R * list A :=
  match e with
  | EvFrame f => (decodeAndPlay f s, [])
  | EvPcm pcm => (decoder_output true pcm s, [])
  | EvRead count =>
      match ringState s with
      | None => (s, [])
      | Some r =>
          let '(r', out) := pcm_read (PcmQueue := Q) r count in
          (mk_rx (phase s) (useWorklet s) (Some r') (opusDecoder s) (opusEncoder s)
             (rxFramesIn s) (decodeIn s) (decodeOut s) (lastDecodeCh s) (lastDecodeIP s)
             (rxTimestamp s) (pendingRxFrames s) (replay s) (submitted s) (notified s) (log s),
           out)
      end
  end.

(** The writes and reads an event sequence asks of the ring. *)
Definition ring_ops (es : list rx_event) : list (pcm_op (A := A)) :=
  omap (λ e, match e with
             | EvFrame _ => None
             | EvPcm pcm => Some (OpWrite pcm)
             | EvRead count => Some (OpRead count)
             end) es.

(** Two chunks come from the same channel and speaker. *)
Definition same_source (a b : rx_chunk) : Prop :=
  f_ch (c_frame a) = f_ch (c_frame b) ∧ f_ip (c_frame a) = f_ip (c_frame b).

#[export] Instance same_source_dec a b : Decision (same_source a b).
Proof. unfold same_source. apply _. Defined.

(** A chunk after another restarts at zero, or continues the same source 20 ms
    later. *)
Definition stamp_ok (a b : rx_chunk) : Prop :=
  c_timestamp b = 0%Z ∨ (same_source a b ∧ c_timestamp b = (c_timestamp a + 20000)%Z).

(** The same when every chunk was accepted: the source decides which. *)
Definition stamp_exact (a b : rx_chunk) : Prop :=
  c_timestamp b = if decide (same_source a b) then (c_timestamp a + 20000)%Z else 0%Z.

Definition adjacent (P : rx_chunk → rx_chunk → Prop) (l : list rx_chunk) : Prop :=
  ∀ i a b, l !! i = Some a → l !! S i = Some b → P a b.
End Rx.

(** ** Lemmas *)

Section Lemmas.
Context {A R : Type} {zero : A} (nan : A) (Q : PcmQueue A R zero).
Context (decode_throws : rx_chunk → bool).
#[local] Abbreviation play := (decodeAndPlay (A := A) (R := R) decode_throws).
Implicit Types (s : rx_state A R) (fs : list rx_frame).

Lemma decodeAndPlay_frame f s :
  phase (play f s) = phase s ∧ ringState (play f s) = ringState s
  ∧ opusDecoder (play f s) = opusDecoder s ∧ useWorklet (play f s) = useWorklet s
  ∧ opusEncoder (play f s) = opusEncoder s.
Proof.
  unfold decodeAndPlay. destruct (opusDecoder s) as [[]|]; [|done..].
  by case_match.
Qed.

Lemma play_all_frame fs s :
  let s' := foldl (λ s f, play f s) s fs in
  phase s' = phase s ∧ ringState s' = ringState s ∧ opusDecoder s' = opusDecoder s.
Proof.
  revert s. induction fs as [|f fs IH]; intros s; [done|].
  destruct (decodeAndPlay_frame f s) as (H1 & H2 & H3 & _). simpl.
  destruct (IH (play f s)) as (-> & -> & ->). by rewrite H1, H2, H3.
Qed.

(** Submitting a frame makes its source the current one, even when it throws. *)
Lemma play_source f s :
  opusDecoder s = Some Configured →
  lastDecodeCh (play f s) = f_ch f ∧ lastDecodeIP (play f s) = f_ip f
  ∧ replay (play f s) = replay s.
Proof. intros Hd. unfold decodeAndPlay. rewrite Hd. by case_match. Qed.

(** Frames without a decoder: the oldest [PENDING_RX_MAX] are kept, in order. *)
Lemma play_all_pending fs s :
  opusDecoder s = None → length (pendingRxFrames s) ≤ PENDING_RX_MAX →
  let s' := foldl (λ s f, play f s) s fs in
  pendingRxFrames s' = take PENDING_RX_MAX (pendingRxFrames s ++ fs)
  ∧ submitted s' = submitted s.
Proof.
  revert s. induction fs as [|f fs IH]; intros s Hd Hl; simpl.
  { by rewrite app_nil_r, firstn_all2. }
  destruct (decodeAndPlay_frame f s) as (_ & _ & Hd' & _). rewrite Hd in Hd'.
  assert (submitted (play f s) = submitted s ∧ pendingRxFrames (play f s)
    = take PENDING_RX_MAX (pendingRxFrames s ++ [f])) as [Hs Hp].
  { unfold decodeAndPlay. rewrite Hd. split; [done|]. cbn [pendingRxFrames]. case_decide.
    - rewrite firstn_all2; [done|]. rewrite length_app. cbn. lia.
    - rewrite take_app_le by lia. by rewrite firstn_all2 by lia. }
  destruct (IH (play f s) Hd') as [-> ->].
  { rewrite Hp, length_take. lia. }
  split; [|done]. rewrite Hp. destruct (decide (length (pendingRxFrames s) < PENDING_RX_MAX)).
  - rewrite (firstn_all2 (pendingRxFrames s ++ [f])) by (rewrite length_app; cbn; lia).
    by rewrite <- app_assoc.
  - rewrite !take_app_le by (rewrite ?length_take, ?length_app; lia).
    by rewrite take_take, Nat.min_id.
Qed.

(** Frames on a working decoder that accepts everything. *)
Lemma play_all_submitted fs s :
  (∀ c, decode_throws c = false) → opusDecoder s = Some Configured →
  let s' := foldl (λ s f, play f s) s fs in
  map c_frame (submitted s') = map c_frame (submitted s) ++ fs
  ∧ pendingRxFrames s' = pendingRxFrames s.
Proof.
  intros Ht. revert s. induction fs as [|f fs IH]; intros s Hd; simpl.
  { by rewrite app_nil_r. }
  destruct (decodeAndPlay_frame f s) as (_ & _ & Hd' & _). rewrite Hd in Hd'.
  destruct (IH (play f s) Hd') as [-> ->]. unfold decodeAndPlay. rewrite Hd, Ht.
  cbn [submitted pendingRxFrames]. by rewrite map_app, <- app_assoc.
Qed.

(** The decoder input's timestamps. *)
Definition stamps_inv s : Prop :=
  adjacent stamp_ok (submitted s)
  ∧ (∀ a, last (submitted s) = Some a →
      rxTimestamp s = 0%Z
      ∨ (lastDecodeCh s = f_ch (c_frame a) ∧ lastDecodeIP s = f_ip (c_frame a)
         ∧ rxTimestamp s = (c_timestamp a + 20000)%Z)).

Definition stamps_exact_inv s : Prop :=
  adjacent stamp_exact (submitted s)
  ∧ (∀ a, last (submitted s) = Some a →
      lastDecodeCh s = f_ch (c_frame a) ∧ lastDecodeIP s = f_ip (c_frame a)
      ∧ rxTimestamp s = (c_timestamp a + 20000)%Z).

Lemma adjacent_snoc (P : rx_chunk → rx_chunk → Prop) l b :
  adjacent P l → (∀ a, last l = Some a → P a b) → adjacent P (l ++ [b]).
Proof.
  intros Hl Hb i x y Hx Hy. apply lookup_snoc_Some in Hy as [[Hi Hy]|[Hi <-]].
  - apply (Hl i); [|done]. by rewrite lookup_app_l in Hx by lia.
  - apply Hb. rewrite lookup_app_l in Hx by lia. by rewrite last_lookup, <- Hi.
Qed.

Lemma stamps_inv_play f s : stamps_inv s → stamps_inv (play f s).
Proof.
  intros [Ha Hl]. unfold decodeAndPlay. destruct (opusDecoder s) as [[]|]; [|by split..].
  set (ts := if decide _ then _ else _).
  assert (∀ a, last (submitted s) = Some a → ts = 0%Z ∨
    (f_ch f = f_ch (c_frame a) ∧ f_ip f = f_ip (c_frame a) ∧ ts = (c_timestamp a + 20000)%Z)) as Hts.
  { intros a Ha'. unfold ts. case_decide as Hd; [by left|].
    destruct (Hl a Ha') as [?|(? & ? & ?)]; [by left|]. right.
    destruct (decide (f_ch f = lastDecodeCh s)), (decide (f_ip f = lastDecodeIP s)); try tauto.
    split_and?; congruence. }
  case_match; split; cbn [submitted rxTimestamp lastDecodeCh lastDecodeIP]; try done.
  - apply adjacent_snoc; [done|]. intros a Ha'. unfold stamp_ok, same_source.
    cbn [c_timestamp c_frame]. destruct (Hts a Ha') as [?|(? & ? & ?)]; [by left|right].
    split_and?; congruence.
  - intros a. rewrite last_snoc. intros [= <-]. by right.
Qed.

Lemma stamps_exact_play f s :
  (∀ c, decode_throws c = false) → stamps_exact_inv s → stamps_exact_inv (play f s).
Proof.
  intros Ht [Ha Hl]. unfold decodeAndPlay. destruct (opusDecoder s) as [[]|]; [|by split..].
  rewrite Ht. split; cbn [submitted rxTimestamp lastDecodeCh lastDecodeIP].
  - apply adjacent_snoc; [done|]. intros a Ha'. unfold stamp_exact, same_source.
    cbn [c_timestamp c_frame]. destruct (Hl a Ha') as (-> & -> & ->).
    destruct (decide (f_ch f = f_ch (c_frame a))), (decide (f_ip f = f_ip (c_frame a)));
      case_decide as H1; case_decide as H2; try done; naive_solver.
  - intros a. rewrite last_snoc. by intros [= <-].
Qed.

Lemma play_all_inv (P : rx_state A R → Prop) fs s :
  (∀ f s, P s → P (play f s)) → P s → P (foldl (λ s f, play f s) s fs).
Proof. intros HP. revert s. induction fs; simpl; auto. Qed.

(** What the ring sees of a run of events. *)
Lemma rx_run_ring es s r :
  ringState s = Some r →
  ringState (run_ops (rx_step nan Q decode_throws) s es).1
    = Some (run_ops (pcm_step Q) r (ring_ops es)).1
  ∧ (run_ops (rx_step nan Q decode_throws) s es).2 = (run_ops (pcm_step Q) r (ring_ops es)).2.
Proof.
  revert s r. induction es as [|e es IH]; intros s r Hr; [done|].
  unfold ring_ops in *. destruct e as [f|pcm|count]; simpl.
  - specialize (IH (play f s) r). destruct (run_ops _ (play f s) es).
    destruct (run_ops (pcm_step Q) r _). apply IH.
    by destruct (decodeAndPlay_frame f s) as (_ & -> & _).
  - specialize (IH (decoder_output nan Q true pcm s) (pcm_write r pcm)).
    destruct (run_ops _ (decoder_output nan Q true pcm s) es).
    destruct (run_ops (pcm_step Q) (pcm_write r pcm) _). apply IH. simpl. by rewrite Hr.
  - rewrite Hr. destruct (pcm_read r count) as [r' out]. simpl.
    match goal with |- context [run_ops _ ?s' es] => specialize (IH s' r' eq_refl) end.
    destruct (run_ops _ _ es), (run_ops (pcm_step Q) r' _). simpl in *.
    destruct IH as [-> ->]. done.
Qed.

Lemma codecs_ring env s : ringState (initAudio_codecs decode_throws env s) = ringState s.
Proof.
  unfold initAudio_codecs. destruct (hasDecoder env), (decoderConfigures env), (hasEncoder env),
    (encoderConfigures env), (opusDecoder s); simpl; try done.
  all: match goal with |- context [foldl _ ?s0 ?fs] =>
    destruct (play_all_frame fs s0) as (_ & -> & _) end; done.
Qed.

Lemma codecs_phase env s : phase (initAudio_codecs decode_throws env s) = Initialised.
Proof. unfold initAudio_codecs. repeat case_match; done. Qed.

Lemma initialised_ring env ok :
  ringState (initAudio_resume Q decode_throws env ok (initAudio Q decode_throws env (rx_init (zero := zero))))
  = Some pcm_new.
Proof.
  unfold initAudio, rx_init at 1. cbn [phase]. destruct (hasWorklet env).
  - unfold initAudio_resume. cbn [phase set_setup]. rewrite codecs_ring. by destruct ok.
  - unfold initAudio_resume. rewrite codecs_phase. by rewrite codecs_ring.
Qed.

Lemma codecs_submitted env s :
  pendingRxFrames s = [] → submitted (initAudio_codecs decode_throws env s) = submitted s.
Proof.
  intros Hp. unfold initAudio_codecs. destruct (hasDecoder env), (decoderConfigures env),
    (hasEncoder env), (encoderConfigures env), (opusDecoder s); simpl; by rewrite ?Hp.
Qed.

Lemma initialised_submitted env ok :
  submitted (initAudio_resume Q decode_throws env ok (initAudio Q decode_throws env (rx_init (zero := zero))))
  = [].
Proof.
  unfold initAudio, rx_init at 1. cbn [phase]. destruct (hasWorklet env).
  - unfold initAudio_resume. cbn [phase set_setup].
    rewrite codecs_submitted by (by destruct ok). by destruct ok.
  - unfold initAudio_resume. rewrite codecs_phase. by rewrite codecs_submitted.
Qed.
End Lemmas.

(** ** Properties *)

Section Properties.
Context {A R : Type} {zero : A} (nan : A) (Q : PcmQueue A R zero).
Context (decode_throws : rx_chunk → bool).
#[local] Abbreviation play := (decodeAndPlay (A := A) (R := R) decode_throws).
#[local] Abbreviation rx0 := (rx_init (A := A) (R := R) (zero := zero)).

(** Frames received before the decoder exists ([early], then [late] while
    the worklet module loads) are bounded by [PENDING_RX_MAX]: the oldest ones
    are kept, and initialisation hands exactly those to the decoder, in arrival
    order, leaving the queue empty. *)
Theorem rx_pending_flush (env : audio_env) (ok : bool) (early late : list rx_frame) :
  hasWorklet env = true → hasDecoder env = true → decoderConfigures env = true →
  (∀ c, decode_throws c = false) →
  let before := foldl (λ s f, play f s) rx0 early in
  let waiting := foldl (λ s f, play f s) (initAudio Q decode_throws env before) late in
  let after := initAudio_resume Q decode_throws env ok waiting in
  pendingRxFrames waiting = take PENDING_RX_MAX (early ++ late)
  ∧ map c_frame (submitted after) = take PENDING_RX_MAX (early ++ late)
  ∧ pendingRxFrames after = [] ∧ phase after = Initialised.
Proof.
  intros Hw Hd Hdc Ht before waiting after.
  assert (length (pendingRxFrames rx0) ≤ PENDING_RX_MAX) as Hl0 by (simpl; lia).
  destruct (play_all_pending decode_throws early rx0 eq_refl Hl0) as [Hp Hs].
  destruct (play_all_frame decode_throws early rx0) as (Hph & _ & Hdec).
  fold before in Hp, Hs, Hph, Hdec. simpl in Hp, Hs, Hph, Hdec.
  assert (∃ s1, initAudio Q decode_throws env before = s1 ∧ opusDecoder s1 = None
    ∧ pendingRxFrames s1 = pendingRxFrames before ∧ submitted s1 = []
    ∧ phase s1 = AwaitModule) as (s1 & Hs1 & Hd1 & Hp1 & Hsub1 & Hph1).
  { eexists. split; [done|]. unfold initAudio. by rewrite Hph, Hw. }
  subst after waiting. rewrite Hs1 in *.
  destruct (play_all_pending decode_throws late s1 Hd1) as [Hp2 Hs2].
  { rewrite Hp1, Hp, length_take. lia. }
  destruct (play_all_frame decode_throws late s1) as (Hph2 & _ & Hd2).
  set (s2 := foldl _ s1 late) in *. clearbody s2.
  rewrite Hp1, Hp in Hp2. rewrite Hsub1 in Hs2. rewrite Hph1 in Hph2. rewrite Hd1 in Hd2.
  assert (pendingRxFrames s2 = take PENDING_RX_MAX (early ++ late)) as Hp3.
  { rewrite Hp2. destruct (decide (length early ≤ PENDING_RX_MAX)).
    - by rewrite (firstn_all2 early).
    - rewrite !take_app_le by (rewrite ?length_take; lia). by rewrite take_take, Nat.min_id. }
  split; [done|]. unfold initAudio_resume. rewrite Hph2.
  set (s3 := if ok then _ else _).
  assert (pendingRxFrames s3 = take PENDING_RX_MAX (early ++ late) ∧ submitted s3 = [])
    as [Hp4 Hs4] by (unfold s3; destruct ok; done).
  clearbody s3. unfold initAudio_codecs. rewrite Hd, Hdc.
  match goal with |- context [foldl _ ?s0 (pendingRxFrames ?s1)] =>
    destruct (play_all_submitted decode_throws (pendingRxFrames s1) s0 Ht eq_refl) as [Hf Hf'];
    set (s5 := foldl _ s0 (pendingRxFrames s1)) in * end.
  simpl in Hf, Hf'. rewrite Hs4, Hp4 in Hf.
  destruct (hasEncoder env), (encoderConfigures env); cbn; split_and?; done.
Qed.

(** The decoder never sees a stale clock.  From initialisation on, over any
    frames and whatever [decode] throws, each chunk accepted after another
    restarts at zero or continues the same channel and speaker exactly 20 ms
    later; and when nothing throws the clock restarts exactly at a change of
    source. *)
Theorem rx_timestamps (env : audio_env) (ok : bool) (fs : list rx_frame) :
  let s0 := initAudio_resume Q decode_throws env ok (initAudio Q decode_throws env rx0) in
  let chunks := submitted (foldl (λ s f, play f s) s0 fs) in
  adjacent stamp_ok chunks
  ∧ ((∀ c, decode_throws c = false) → adjacent stamp_exact chunks).
Proof.
  cbn zeta. pose proof (initialised_submitted Q decode_throws env ok) as H0.
  split; [apply (play_all_inv decode_throws stamps_inv)|
    intros Ht; apply (play_all_inv decode_throws stamps_exact_inv)];
    eauto using stamps_inv_play, stamps_exact_play.
  all: split; [intros i a b Hi|intros a Hi]; by rewrite H0 in Hi.
Qed.

(** C4: what the speaker plays.  After [initAudio], for every interleaving of
    received frames, decoded frames and reads of the audio node, the samples
    played are those of the bounded pre-filled queue fed with the decoded
    frames in decoder order, for any ring that implements the queue. *)
Theorem rx_playback (env : audio_env) (ok : bool) (es : list rx_event) :
  let s0 := initAudio_resume Q decode_throws env ok (initAudio Q decode_throws env rx0) in
  (run_ops (rx_step nan Q decode_throws) s0 es).2
  = (run_ops (q_step zero pcm_cap) q_empty (ring_ops es)).2.
Proof.
  cbn zeta.
  destruct (rx_run_ring nan Q decode_throws es _ _ (initialised_ring Q decode_throws env ok))
    as [_ ->].
  apply (run_refines Q). apply pcm_new_ok.
Qed.

(** Attribution: a decoded frame is credited to the source of the frame
    submitted last, not of the frame it was decoded from: with two frames in
    the decoder's queue the first output is reported, and stored for replay,
    under the second frame's channel and speaker. *)
Theorem rx_attribution_is_last (s : rx_state A R) (f1 f2 : rx_frame) (pcm : list A) :
  opusDecoder s = Some Configured → f_ch f2 ≠ 0%Z →
  let s' := decoder_output nan Q true pcm (play f2 (play f1 s)) in
  last (notified s') = Some (pcm, f_ch f2, f_ip f2)
  ∧ replay s' = appendReplay nan (f_ch f2) pcm (replay s).
Proof.
  intros Hd Hch s'.
  destruct (decodeAndPlay_frame decode_throws f1 s) as (_ & _ & Hd1 & _). rewrite Hd in Hd1.
  destruct (play_source decode_throws f1 s Hd) as (_ & _ & Hr1).
  destruct (play_source decode_throws f2 (play f1 s) Hd1) as (Hc2 & Hi2 & Hr2).
  unfold s', decoder_output. cbn [notified replay].
  by rewrite last_snoc, Hc2, Hi2, Hr2, Hr1, decide_False.
Qed.
End Properties.

(** The reporter and the 32-bit counters.  Below 2^31 an underrun total is
    reported exactly once, as the difference to the last report; once the total
    passes 2^31 the counter the reporter loads is negative, so no underrun is
    reported and the last observed value is kept. *)
Theorem reporter_underruns {A R : Type} {zero : A} (Q : PcmQueue A R zero)
    (s : rx_state A R) (rep : reporter) (r : R) (q : pcm_queue A) :
  ringState s = Some r → pcm_repr r q → (0 ≤ lastUnderrunSamples rep)%Z →
  ((lastUnderrunSamples rep ≤ q_underruns q < 2 ^ 31)%Z →
     lastUnderrunSamples (dropWatch Q s rep).1 = q_underruns q
     ∧ ((lastUnderrunSamples rep < q_underruns q)%Z →
        LogUnderran (q_underruns q - lastUnderrunSamples rep) (length (q_samples q))
          ∈ (dropWatch Q s rep).2))
  ∧ ((2 ^ 31 ≤ q_underruns q < 2 ^ 32)%Z →
     lastUnderrunSamples (dropWatch Q s rep).1 = lastUnderrunSamples rep
     ∧ ∀ n occ, LogUnderran n occ ∉ (dropWatch Q s rep).2).
Proof.
  intros Hr Hq H0. unfold dropWatch. rewrite Hr, (pcm_stats_ok r q Hq). cbn. split.
  - intros Hlt. rewrite (int32_id (q_underruns q)) by lia.
    destruct (decide (0 < q_underruns q - lastUnderrunSamples rep)%Z); split; try done; try lia.
    intros _. rewrite !elem_of_app. right; left. set_solver.
  - intros Hov. assert (int32 (q_underruns q) < 0)%Z as Hneg.
    { unfold int32. replace (q_underruns q + 2 ^ 31)%Z
        with (q_underruns q - 2 ^ 31 + 1 * 2 ^ 32)%Z by lia.
      rewrite Z_mod_plus_full, Z.mod_small; lia. }
    rewrite !(decide_False (P := (0 < int32 (q_underruns q) - _)%Z)) by lia.
    split; [done|]. intros n occ. rewrite !elem_of_app. intros [H|[H|H]];
      repeat case_match; clear -H; set_solver.
Qed.

(** ** Witnesses *)

Definition full_env : audio_env := Build_audio_env true true true true true.
Definition frame1 : rx_frame := Build_rx_frame [7%Z] 1 "10.41.0.2".

Lemma rx_pending_flush_witness :
  ∃ s : rx_state Z (ring_buffer Z),
    map c_frame (submitted s) = [frame1; frame1] ∧ pendingRxFrames s = [] ∧ phase s = Initialised.
Proof.
  eexists.
  exact (proj2 (rx_pending_flush (ring_queue 0%Z 0%Z) (λ _, false) full_env true [frame1] [frame1]
    eq_refl eq_refl eq_refl (λ _, eq_refl))).
Defined.

Lemma rx_timestamps_witness :
  ∃ s : rx_state Z (ring_buffer Z), adjacent stamp_exact (submitted s).
Proof.
  eexists.
  exact (proj2 (rx_timestamps (ring_queue 0%Z 0%Z) (λ _, false) full_env true [frame1; frame1])
    (λ _, eq_refl)).
Defined.

Lemma reporter_underruns_witness :
  let Q := ring_queue 0%Z 0%Z in
  let s := initAudio Q (λ _, false) full_env (rx_init (zero := 0%Z)) in
  lastUnderrunSamples (dropWatch Q s (Build_reporter 0 0 0 0 0)).1 = 0%Z.
Proof.
  intros Q s.
  refine (proj1 (proj1 (reporter_underruns Q s (Build_reporter 0 0 0 0 0) (createRingBuffer 0%Z)
    q_empty _ (create_repr 0%Z) _) _)); [reflexivity|cbn; lia|cbn; lia].
Defined.
