(* ===== verification/PollStore.v ===== *)
(** [services/pollStore.js]: the reference-counted polling store behind every
    shared page hook.

    The store is a state machine.  Its inputs are the calls of the hooks
    (subscribe, the returned cleanup, refresh), the interval timer, the tab's
    visibility, and the outcomes of the fetches it started; a fetch is an
    outstanding call identified by its number.  [docVisible], [outstanding],
    [calls], [published] and [delivered] are the environment's view: what the
    browser would show and what the store has done to it. *)
From S2P Require Import Prelude.

Record subscriber := { sid : nat; intervalMs : Z }.
#[export] Instance subscriber_eq_dec : EqDecision subscriber.
Proof. solve_decision. Defined.

(** [V] is the type of the fetcher's values; [None] is JavaScript's [null]. *)
Record poll_store (V : Type) := mk_poll {
  snapshot : option V;
  subscribers : list subscriber;       (* the Set, in insertion order *)
  timerId : option Z;                  (* the period of the running interval *)
  inFlight : bool;
  visible : bool;
  visibilityBound : bool;
  docVisible : bool;
  outstanding : list nat;              (* fetches started and not settled *)
  calls : nat;                         (* fetches started *)
  published : list (nat * option V);   (* results stored, with their fetch *)
  delivered : list (nat * option V)    (* onChange calls, by subscriber *)
}.
Arguments mk_poll {V}. Arguments snapshot {V}. Arguments subscribers {V}. Arguments timerId {V}.
Arguments inFlight {V}. Arguments visible {V}. Arguments visibilityBound {V}.
Arguments docVisible {V}. Arguments outstanding {V}. Arguments calls {V}.
Arguments published {V}. Arguments delivered {V}.

Section Poll.
Context {V : Type}.
Implicit Types (s : poll_store V).

Definition createPollStore (doc : bool) : poll_store V :=
  mk_poll None [] None false doc false doc [] 0 [] [].

(** [notify()]: every subscriber's [onChange(snapshot)]. *)
Definition notify (s : poll_store V) : poll_store V :=
  mk_poll (snapshot s) (subscribers s) (timerId s) (inFlight s) (visible s) (visibilityBound s)
    (docVisible s) (outstanding s) (calls s) (published s)
    (delivered s ++ map (λ sub, (sid sub, snapshot s)) (subscribers s)).

(** [tick()] up to the await on the fetcher. *)
Definition tick (s : poll_store V) : poll_store V :=
  if inFlight s then s
  else
    mk_poll (snapshot s) (subscribers s) (timerId s) true (visible s) (visibilityBound s)
      (docVisible s) (outstanding s ++ [calls s]) (S (calls s)) (published s) (delivered s).

(** [tick()] after the await: the fetch resolved to [next], or threw. *)
Definition tick_resolved (id : nat) (next : option V) (s : poll_store V) : poll_store V :=
  let s1 := notify
    (mk_poll next (subscribers s) (timerId s) (inFlight s) (visible s) (visibilityBound s)
       (docVisible s) (filter (λ i, i ≠ id) (outstanding s)) (calls s)
       (published s ++ [(id, next)]) (delivered s)) in
  mk_poll (snapshot s1) (subscribers s1) (timerId s1) false (visible s1) (visibilityBound s1)
    (docVisible s1) (outstanding s1) (calls s1) (published s1) (delivered s1).

Definition tick_rejected (id : nat) (s : poll_store V) : poll_store V :=
  mk_poll (snapshot s) (subscribers s) (timerId s) false (visible s) (visibilityBound s)
    (docVisible s) (filter (λ i, i ≠ id) (outstanding s)) (calls s) (published s) (delivered s).

(** [minInterval()]: 0 when there is no subscriber. *)
Definition min_step (min : option Z) (sub : subscriber) : option Z :=
  match min with
  | None => Some (intervalMs sub)
  | Some m => if decide (intervalMs sub < m)%Z then Some (intervalMs sub) else Some m
  end.

Definition minInterval (subs : list subscriber) : Z := default 0%Z (foldl min_step None subs).

Definition set_timer (t : option Z) (s : poll_store V) : poll_store V :=
  mk_poll (snapshot s) (subscribers s) t (inFlight s) (visible s) (visibilityBound s)
    (docVisible s) (outstanding s) (calls s) (published s) (delivered s).

Definition restartTimer (s : poll_store V) : poll_store V :=
  if decide (visible s = false ∨ subscribers s = []) then set_timer None s
  else
    let ms := minInterval (subscribers s) in
    if decide (0 < ms)%Z then set_timer (Some ms) s else set_timer None s.

Definition set_visible (v : bool) (s : poll_store V) : poll_store V :=
  mk_poll (snapshot s) (subscribers s) (timerId s) (inFlight s) v (visibilityBound s)
    (docVisible s) (outstanding s) (calls s) (published s) (delivered s).

Definition onVisibilityChange (s : poll_store V) : poll_store V :=
  let nowVisible := docVisible s in
  if decide (nowVisible = visible s) then s
  else
    let s1 := restartTimer (set_visible nowVisible s) in
    if decide (visible s1 = true ∧ subscribers s1 ≠ []) then tick s1 else s1.

Definition set_bound (b : bool) (s : poll_store V) : poll_store V :=
  mk_poll (snapshot s) (subscribers s) (timerId s) (inFlight s) (visible s) b
    (docVisible s) (outstanding s) (calls s) (published s) (delivered s).

Definition bindVisibility (s : poll_store V) : poll_store V := set_bound true s.
Definition unbindVisibility (s : poll_store V) : poll_store V := set_bound false s.

Definition set_subscribers (subs : list subscriber) (s : poll_store V) : poll_store V :=
  mk_poll (snapshot s) subs (timerId s) (inFlight s) (visible s) (visibilityBound s)
    (docVisible s) (outstanding s) (calls s) (published s) (delivered s).

Definition set_inFlight (b : bool) (s : poll_store V) : poll_store V :=
  mk_poll (snapshot s) (subscribers s) (timerId s) b (visible s) (visibilityBound s)
    (docVisible s) (outstanding s) (calls s) (published s) (delivered s).

(** Hand the cached snapshot to one subscriber. *)
Definition prime (sub : subscriber) (s : poll_store V) : poll_store V :=
  match snapshot s with
  | None => s
  | Some v =>
      mk_poll (snapshot s) (subscribers s) (timerId s) (inFlight s) (visible s)
        (visibilityBound s) (docVisible s) (outstanding s) (calls s) (published s)
        (delivered s ++ [(sid sub, Some v)])
  end.

Definition subscribe (sub : subscriber) (s : poll_store V) : poll_store V :=
  let firstSubscriber := bool_decide (subscribers s = []) in
  let s1 := restartTimer (bindVisibility (set_subscribers (subscribers s ++ [sub]) s)) in
  let s2 := prime sub s1 in
  if firstSubscriber && visible s2 then tick s2 else s2.

(** The cleanup that [subscribe] returned. *)
Definition unsubscribe (sub : subscriber) (s : poll_store V) : poll_store V :=
  let s1 := set_subscribers (filter (λ x, x ≠ sub) (subscribers s)) s in
  if decide (subscribers s1 = []) then
    set_inFlight false (unbindVisibility (set_timer None s1))
  else restartTimer s1.

Definition getSnapshot (s : poll_store V) : option V := snapshot s.

Definition refresh (s : poll_store V) : poll_store V := if visible s then tick s else s.

(** The browser tells the document's visibility to the bound listener. *)
Definition visibilitychange (v : bool) (s : poll_store V) : poll_store V :=
  let s1 := mk_poll (snapshot s) (subscribers s) (timerId s) (inFlight s) (visible s)
    (visibilityBound s) v (outstanding s) (calls s) (published s) (delivered s) in
  if visibilityBound s then onVisibilityChange s1 else s1.

(** ** The machine *)

Inductive poll_event :=
| Subscribe (sub : subscriber)
| Unsubscribe (sub : subscriber)
| Refresh
| Visibility (v : bool)
| TimerFires
| Resolved (id : nat) (next : option V)
| Rejected (id : nat).

Definition fire (e : poll_event) (s : poll_store V) : poll_store V :=
  match e with
  | Subscribe sub => subscribe sub s
  | Unsubscribe sub => unsubscribe sub s
  | Refresh => refresh s
  | Visibility v => visibilitychange v s
  | TimerFires => tick s
  | Resolved id next => tick_resolved id next s
  | Rejected id => tick_rejected id s
  end.

(** A subscriber object is added once, the timer fires only while it runs, and
    only a started fetch settles, once. *)
Definition enabled (e : poll_event) (s : poll_store V) : bool :=
  match e with
  | Subscribe sub => bool_decide (sid sub ∉ map sid (subscribers s))
  | TimerFires => bool_decide (timerId s ≠ None)
  | Resolved id _ | Rejected id => bool_decide (id ∈ outstanding s)
  | _ => true
  end.

Definition poll_step (s s' : poll_store V) : Prop :=
  ∃ e, enabled e s = true ∧ s' = fire e s.

(** A step that does not empty the store while a fetch is outstanding. *)
Definition calm (e : poll_event) (s : poll_store V) : Prop :=
  match e with
  | Unsubscribe _ => subscribers (fire e s) ≠ [] ∨ outstanding s = []
  | _ => True
  end.

Definition calm_step (s s' : poll_store V) : Prop :=
  ∃ e, enabled e s = true ∧ calm e s ∧ s' = fire e s.

(** The document's visibility changes only while the store listens to it. *)
Definition heard (e : poll_event) (s : poll_store V) : Prop :=
  match e with
  | Visibility v => visibilityBound s = true ∨ v = docVisible s
  | _ => True
  end.

Definition heard_step (s s' : poll_store V) : Prop :=
  ∃ e, enabled e s = true ∧ heard e s ∧ s' = fire e s.

(** The interval runs exactly while [up], with the smallest positive period
    that a subscriber asks for. *)
Definition interval_while (up : bool) (s : poll_store V) : Prop :=
  ∀ ms, timerId s = Some ms ↔
    up = true ∧ (0 < ms)%Z ∧ ms ∈ map intervalMs (subscribers s)
    ∧ ∀ x, x ∈ subscribers s → (ms ≤ intervalMs x)%Z.

(** A run of events from a new store, [None] when one is not enabled. *)
Fixpoint run_events (es : list poll_event) (s : poll_store V) : option (poll_store V) :=
  match es with
  | [] => Some s
  | e :: es' => if enabled e s then run_events es' (fire e s) else None
  end.

(** ** Invariants *)

(** The timer the store means to have. *)
Definition wanted_timer (s : poll_store V) : option Z :=
  if decide (visible s = true ∧ subscribers s ≠ [] ∧ 0 < minInterval (subscribers s))%Z
  then Some (minInterval (subscribers s)) else None.

Definition poll_inv (s : poll_store V) : Prop :=
  timerId s = wanted_timer s
  ∧ visibilityBound s = bool_decide (subscribers s ≠ []).

Definition flight_inv (s : poll_store V) : Prop :=
  outstanding s = (if inFlight s then [Nat.pred (calls s)] else [])
  ∧ (inFlight s = true → 0 < calls s)
  ∧ StronglySorted lt (map fst (published s))
  ∧ Forall (λ p, p.1 < calls s ∧ p.1 ∉ outstanding s) (published s).
End Poll.
Arguments poll_event V : clear implicits.

(** ** Lemmas *)

Lemma min_step_fold subs m :
  ∃ k, foldl min_step (Some m) subs = Some k
    ∧ (k ≤ m)%Z ∧ (k = m ∨ k ∈ map intervalMs subs) ∧ ∀ x, x ∈ subs → (k ≤ intervalMs x)%Z.
Proof.
  revert m. induction subs as [|x subs IH]; intros m; simpl.
  { exists m. split_and?; [done|lia|by left|set_solver]. }
  case_decide as Hlt.
  - destruct (IH (intervalMs x)) as (k & -> & Hk & Hin & Hle). exists k.
    split_and?; [done|lia| |set_solver]. destruct Hin as [->|Hin]; set_solver.
  - destruct (IH m) as (k & -> & Hk & Hin & Hle). exists k.
    split_and?; [done|lia|set_solver|]. intros y [->|Hy]%elem_of_cons; [lia|by apply Hle].
Qed.

(** The period is the smallest one requested. *)
Lemma minInterval_min subs :
  subs ≠ [] →
  minInterval subs ∈ map intervalMs subs ∧ ∀ x, x ∈ subs → (minInterval subs ≤ intervalMs x)%Z.
Proof.
  destruct subs as [|x subs]; [done|]. intros _. unfold minInterval. simpl.
  destruct (min_step_fold subs (intervalMs x)) as (k & -> & Hk & Hin & Hle). simpl.
  split; [set_solver|]. intros y [->|Hy]%elem_of_cons; [lia|by apply Hle].
Qed.

Section Lemmas.
Context {V : Type}.
Implicit Types (s : poll_store V).

Lemma restartTimer_wanted s : restartTimer s = set_timer (wanted_timer s) s.
Proof.
  unfold restartTimer, wanted_timer.
  destruct (visible s) eqn:Hv, (decide (subscribers s = [])) as [Hs|Hs];
    repeat case_decide; try done; naive_solver.
Qed.

Lemma tick_fields s :
  subscribers (tick s) = subscribers s ∧ visible (tick s) = visible s
  ∧ timerId (tick s) = timerId s ∧ visibilityBound (tick s) = visibilityBound s.
Proof. unfold tick. by case_match. Qed.

Lemma wanted_timer_ext s s' :
  subscribers s' = subscribers s → visible s' = visible s → wanted_timer s' = wanted_timer s.
Proof. intros H1 H2. unfold wanted_timer. by rewrite H1, H2. Qed.

Lemma poll_inv_ext s s' :
  subscribers s' = subscribers s → visible s' = visible s → timerId s' = timerId s →
  visibilityBound s' = visibilityBound s → poll_inv s → poll_inv s'.
Proof.
  intros H1 H2 H3 H4 [Ht Hb]. split; [|by rewrite H4, H1].
  by rewrite H3, (wanted_timer_ext s s').
Qed.

Lemma poll_inv_tick s : poll_inv s → poll_inv (tick s).
Proof. destruct (tick_fields s) as (? & ? & ? & ?). by apply poll_inv_ext. Qed.

Lemma poll_inv_restart s :
  visibilityBound s = bool_decide (subscribers s ≠ []) → poll_inv (restartTimer s).
Proof. intros Hb. rewrite restartTimer_wanted. by split. Qed.

Lemma poll_inv_fire e s : poll_inv s → poll_inv (fire e s).
Proof.
  intros Hi. destruct e as [sub|sub| |v| |id next|id]; simpl.
  - unfold subscribe.
    assert (poll_inv (prime sub (restartTimer
      (bindVisibility (set_subscribers (subscribers s ++ [sub]) s))))) as H1.
    { eapply poll_inv_ext; [..|apply poll_inv_restart]; try by (unfold prime; case_match).
      simpl. symmetry. apply bool_decide_eq_true_2. by destruct (subscribers s). }
    case_match; [by apply poll_inv_tick|done].
  - unfold unsubscribe. case_decide as He.
    + split; simpl in *.
      * unfold wanted_timer. simpl. rewrite decide_False; [done|naive_solver].
      * symmetry. apply bool_decide_eq_false_2. naive_solver.
    + apply poll_inv_restart. simpl in *. destruct Hi as [_ ->].
      rewrite !bool_decide_eq_true_2; [done..|]. intros Hs. by rewrite Hs in He.
  - unfold refresh. case_match; [by apply poll_inv_tick|done].
  - unfold visibilitychange. destruct (visibilityBound s) eqn:Hb;
      [|eapply poll_inv_ext; [..|exact Hi]; done].
    unfold onVisibilityChange. case_decide; [eapply poll_inv_ext; [..|exact Hi]; done|].
    set (s1 := set_visible _ _).
    assert (poll_inv (restartTimer s1)) as H1 by (apply poll_inv_restart; simpl; by rewrite <- (proj2 Hi)).
    case_decide; [by apply poll_inv_tick|done].
  - by apply poll_inv_tick.
  - done.
  - done.
Qed.

Lemma poll_inv_reachable doc s : rtc poll_step (createPollStore doc) s → poll_inv s.
Proof.
  revert s. apply rtc_ind_r; [|intros s s' _ (e & _ & ->); apply poll_inv_fire].
  split; [|done]. unfold wanted_timer. simpl. rewrite decide_False; [done|tauto].
Qed.

Lemma restartTimer_calls s : calls (restartTimer s) = calls s.
Proof. by rewrite restartTimer_wanted. Qed.

Lemma prime_calls sub s : calls (prime sub s) = calls s.
Proof. unfold prime. by destruct (snapshot s). Qed.

(** A step that starts a fetch leaves the store visible. *)
Lemma fire_calls_visible e s :
  poll_inv s → enabled e s = true → calls (fire e s) ≠ calls s → visible (fire e s) = true.
Proof.
  intros [Ht _] He Hc. destruct e as [sub|sub| |v| |id next|id]; simpl in *.
  - unfold subscribe in *. set (s2 := prime _ _) in *.
    assert (calls s2 = calls s) as H2.
    { unfold s2. by rewrite prime_calls, restartTimer_calls. }
    destruct (bool_decide _ && visible s2) eqn:Hb; [|by rewrite H2 in Hc].
    apply andb_true_iff in Hb as [_ Hv]. by rewrite (proj1 (proj2 (tick_fields s2))).
  - unfold unsubscribe in *. case_decide; [done|]. by rewrite restartTimer_calls in Hc.
  - unfold refresh in *. destruct (visible s) eqn:Hv; [|done].
    by rewrite (proj1 (proj2 (tick_fields s))).
  - unfold visibilitychange in *. destruct (visibilityBound s); [|done].
    unfold onVisibilityChange in *. case_decide; [done|]. set (s1 := restartTimer _) in *.
    case_decide as Hv; [rewrite (proj1 (proj2 (tick_fields s1))); by apply Hv|].
    destruct Hc. unfold s1. by rewrite restartTimer_calls.
  - rewrite (proj1 (proj2 (tick_fields s))). apply bool_decide_eq_true in He.
    rewrite Ht in He. unfold wanted_timer in He. case_decide; [tauto|done].
  - done.
  - done.
Qed.

Lemma poll_inv_interval s : poll_inv s → interval_while (visible s) s.
Proof.
  intros [Ht _] ms. rewrite Ht. unfold wanted_timer. case_decide as Hw; split.
  - intros [= <-]. destruct (minInterval_min (subscribers s)); [tauto|]. naive_solver.
  - intros (_ & _ & (x & -> & Hx)%list_elem_of_fmap & Hle). f_equal.
    destruct (minInterval_min (subscribers s)) as [(y & Hy & Hin)%list_elem_of_fmap Hmin]; [tauto|].
    specialize (Hmin x Hx). specialize (Hle y Hin). lia.
  - done.
  - intros (Hv & Hpos & (x & -> & Hx)%list_elem_of_fmap & Hle). destruct Hw.
    assert (subscribers s ≠ []) as Hne by (intros He; rewrite He in Hx; by apply not_elem_of_nil in Hx).
    split_and?; [done|done|].
    destruct (minInterval_min (subscribers s) Hne) as [(y & Hy & Hin)%list_elem_of_fmap _].
    specialize (Hle y Hin). lia.
Qed.

Lemma tick_doc s : docVisible (tick s) = docVisible s.
Proof. unfold tick. by case_match. Qed.

(** The flag and the document, after each event. *)
Lemma fire_visible e s :
  visible (fire e s)
  = (match e with Visibility v => if visibilityBound s then v else visible s | _ => visible s end)
  ∧ docVisible (fire e s) = match e with Visibility v => v | _ => docVisible s end.
Proof.
  destruct e as [sub|sub| |v| |id next|id]; simpl; try done.
  - unfold subscribe. set (s1 := restartTimer _).
    assert (visible (prime sub s1) = visible s ∧ docVisible (prime sub s1) = docVisible s) as [? ?].
    { assert (visible s1 = visible s ∧ docVisible s1 = docVisible s) as [? ?]
        by (unfold s1; by rewrite restartTimer_wanted).
      unfold prime. by case_match. }
    case_match; [|done]. by rewrite tick_doc, (proj1 (proj2 (tick_fields _))).
  - unfold unsubscribe. case_decide; [done|]. rewrite restartTimer_wanted. by split.
  - unfold refresh. case_match eqn:Hv; [|done].
    by rewrite tick_doc, (proj1 (proj2 (tick_fields _))).
  - unfold visibilitychange. destruct (visibilityBound s); [|done].
    unfold onVisibilityChange. case_decide as Hd; simpl in *; [done|].
    set (s1 := restartTimer _).
    assert (visible s1 = v ∧ docVisible s1 = v) as [? ?] by (unfold s1; by rewrite restartTimer_wanted).
    case_decide; [|done]. by rewrite tick_doc, (proj1 (proj2 (tick_fields _))).
  - by rewrite tick_doc, (proj1 (proj2 (tick_fields _))).
Qed.

Lemma heard_in_sync s s' :
  visible s = docVisible s → rtc heard_step s s' →
  rtc poll_step s s' ∧ visible s' = docVisible s'.
Proof.
  intros Hs Hr. revert s' Hr. apply (rtc_ind_r (λ s', rtc poll_step s s' ∧ visible s' = docVisible s'));
    [done|].
  intros s1 s2 _ (e & He & Hh & ->) [IH Hv]. split; [eapply rtc_r; [done|by exists e]|].
  destruct (fire_visible e s1) as [-> ->]. destruct e; try done. simpl in Hh.
  destruct (visibilityBound s1); naive_solver.
Qed.

Lemma flight_inv_restart s : flight_inv s → flight_inv (restartTimer s).
Proof. by rewrite restartTimer_wanted. Qed.

Lemma flight_inv_prime sub s : flight_inv s → flight_inv (prime sub s).
Proof. unfold prime. by destruct (snapshot s). Qed.

Lemma flight_inv_tick s : flight_inv s → flight_inv (tick s).
Proof.
  intros Hi. unfold tick. destruct (inFlight s) eqn:Hf; [done|].
  destruct Hi as (Ho & Hc & Hs & Hp). unfold flight_inv. simpl. rewrite Ho, Hf.
  split_and?; [done|lia|done|].
  eapply Forall_impl; [exact Hp|]. intros p [? _]. simpl. split; [lia|].
  rewrite list_elem_of_singleton. lia.
Qed.

Lemma StronglySorted_snoc_lt (l : list nat) x :
  StronglySorted lt l → Forall (λ y, y < x) l → StronglySorted lt (l ++ [x]).
Proof.
  induction 1 as [|y l Hl IH Hy]; simpl; [repeat constructor|].
  intros [Hx Hf]%Forall_cons. constructor; [by apply IH|].
  apply Forall_app. split; [done|by constructor].
Qed.

Lemma flight_inv_settle id s :
  flight_inv s → id ∈ outstanding s →
  inFlight s = true ∧ S id = calls s ∧ filter (λ i, i ≠ id) (outstanding s) = []
  ∧ Forall (λ p, p.1 < id) (published s).
Proof.
  intros (Ho & Hc & Hs & Hp) Hid. rewrite Ho in Hid.
  destruct (inFlight s) eqn:Hf; [|by apply not_elem_of_nil in Hid].
  apply list_elem_of_singleton in Hid. specialize (Hc eq_refl).
  split_and?; [done|lia| |].
  - rewrite Ho, filter_cons_False, filter_nil; [done|]. intros Hne. by apply Hne.
  - eapply Forall_impl; [exact Hp|]. simpl. intros p [Hlt Hne].
    rewrite Ho in Hne. assert (p.1 ≠ Nat.pred (calls s)) by set_solver. lia.
Qed.

Lemma flight_inv_fire e s :
  flight_inv s → enabled e s = true → calm e s → flight_inv (fire e s).
Proof.
  intros Hi He Hcalm. destruct e as [sub|sub| |v| |id next|id]; simpl in *.
  - unfold subscribe. set (s2 := prime _ _).
    assert (flight_inv s2) by (by apply flight_inv_prime, flight_inv_restart).
    destruct (bool_decide _ && _); [by apply flight_inv_tick|done].
  - unfold unsubscribe in *. case_decide as Hs.
    + destruct Hi as (Ho & Hc & Hs' & Hp). destruct Hcalm as [?|Hout]; [done|].
      unfold flight_inv. simpl. split_and?; [by rewrite Hout|done|done|].
      eapply Forall_impl; [exact Hp|]. done.
    + by apply flight_inv_restart.
  - unfold refresh. case_match; [by apply flight_inv_tick|done].
  - unfold visibilitychange. destruct (visibilityBound s); [|done].
    unfold onVisibilityChange. case_decide; [done|]. set (s1 := restartTimer _).
    assert (flight_inv s1) by (by apply flight_inv_restart).
    destruct (decide (visible s1 = true ∧ _)); [by apply flight_inv_tick|done].
  - by apply flight_inv_tick.
  - apply bool_decide_eq_true in He.
    destruct (flight_inv_settle _ _ Hi He) as (Hf & Hid & Hout & Hlt).
    destruct Hi as (Ho & Hc & Hs & Hp). simpl. unfold flight_inv. simpl. rewrite Hout.
    split_and?; [done|done| |].
    + rewrite map_app. apply StronglySorted_snoc_lt; [done|]. by apply Forall_fmap.
    + apply Forall_app. split; [|repeat constructor; [simpl; lia|set_solver]].
      eapply Forall_impl; [exact Hp|]. intros p [? _]. split; [done|set_solver].
  - apply bool_decide_eq_true in He.
    destruct (flight_inv_settle _ _ Hi He) as (Hf & Hid & Hout & Hlt).
    destruct Hi as (Ho & Hc & Hs & Hp). unfold flight_inv. simpl. rewrite Hout.
    split_and?; [done|done|done|].
    eapply Forall_impl; [exact Hp|]. intros p [? _]. split; [done|set_solver].
Qed.

(** The snapshot is the last stored result. *)
Definition snapshot_inv s : Prop := snapshot s = default None (snd <$> last (published s)).

Lemma snapshot_inv_prime sub s : snapshot_inv s → snapshot_inv (prime sub s).
Proof. unfold snapshot_inv, prime. intros Hi. destruct (snapshot s) eqn:E; simpl; by rewrite <- Hi. Qed.

Lemma snapshot_inv_fire e s : snapshot_inv s → snapshot_inv (fire e s).
Proof.
  intros Hi.
  assert (∀ s, snapshot_inv s → snapshot_inv (tick s)) as Ht
    by (intros s'; unfold tick; by destruct (inFlight s')).
  destruct e as [sub|sub| |v| |id next|id]; simpl.
  - unfold subscribe. rewrite restartTimer_wanted. set (s2 := prime _ _).
    assert (snapshot_inv s2) by (by apply snapshot_inv_prime).
    destruct (bool_decide _ && _); auto.
  - unfold unsubscribe. rewrite restartTimer_wanted. by case_decide.
  - unfold refresh. destruct (visible s); auto.
  - unfold visibilitychange. destruct (visibilityBound s); [|done].
    unfold onVisibilityChange. case_decide; [done|]. rewrite restartTimer_wanted.
    case_decide; [by apply Ht|done].
  - by apply Ht.
  - unfold snapshot_inv. simpl. by rewrite last_snoc.
  - done.
Qed.

Lemma calm_reachable doc s :
  rtc calm_step (createPollStore doc) s → flight_inv s ∧ snapshot_inv s.
Proof.
  revert s. apply rtc_ind_r.
  - split; [|done]. unfold flight_inv; simpl; split_and?; [done|done|constructor|constructor].
  - intros s s' _ (e & He & Hc & ->) [Hf Hs].
    split; [by apply flight_inv_fire|by apply snapshot_inv_fire].
Qed.
End Lemmas.

(** ** Properties *)

(** C5: In every reachable state of the store the interval runs exactly when
    the store's visibility flag is set and the smallest interval its
    subscribers ask for is positive, and its period is that smallest interval;
    the visibility listener is bound exactly while there is a subscriber; and
    no event starts a fetch while the flag is unset.  The flag is the tab's
    visibility after every change heard while the listener is bound, and from
    any state where it is, it stays so as long as the tab is not hidden or
    shown while nobody is subscribed: on such runs the interval runs exactly
    while the tab itself is visible and no event starts a fetch in a hidden
    tab.  A change that nobody was subscribed to hear is what this excludes
    ([poll_hidden_tab], [poll_stale_visibility]). *)
Theorem poll_invariant V doc (s : poll_store V) (e : poll_event V) :
  rtc poll_step (createPollStore doc) s →
  interval_while (visible s) s
  ∧ (visibilityBound s = true ↔ subscribers s ≠ [])
  ∧ (enabled e s = true → calls (fire e s) ≠ calls s → visible (fire e s) = true)
  ∧ (∀ v, visibilityBound s = true →
       visible (fire (Visibility v) s) = v ∧ docVisible (fire (Visibility v) s) = v)
  ∧ (visible s = docVisible s → ∀ s', rtc heard_step s s' →
       visible s' = docVisible s'
       ∧ interval_while (docVisible s') s'
       ∧ (enabled e s' = true → calls (fire e s') ≠ calls s' → docVisible (fire e s') = true)).
Proof.
  intros Hr. pose proof (poll_inv_reachable _ _ Hr) as Hi. split_and?.
  - by apply poll_inv_interval.
  - by rewrite (proj2 Hi), bool_decide_eq_true.
  - by apply fire_calls_visible.
  - intros v Hb. destruct (fire_visible (Visibility v) s) as [-> ->]. by rewrite Hb.
  - intros Hv s' [Hr' Hv']%heard_in_sync; [|done].
    assert (poll_inv s') as Hi' by (apply (poll_inv_reachable doc); by etrans).
    split_and?; [done|rewrite <- Hv'; by apply poll_inv_interval|].
    intros He Hc. pose proof (fire_calls_visible e s' Hi' He Hc) as Hf.
    destruct (fire_visible e s') as [Hfv Hfd]. destruct e; try congruence.
    simpl in *. unfold visibilitychange in *. destruct (visibilityBound s') eqn:Hb; [congruence|by destruct Hc].
Qed.

(** While the store is never emptied during a fetch, at most one fetch is
    outstanding and [inFlight] says so, results are stored in the order their
    fetches started, and the snapshot is the newest of them. *)
Theorem poll_single_flight V doc (s : poll_store V) :
  rtc calm_step (createPollStore doc) s →
  length (outstanding s) ≤ 1
  ∧ (inFlight s = true ↔ outstanding s ≠ [])
  ∧ StronglySorted lt (map fst (published s))
  ∧ snapshot s = default None (snd <$> last (published s)).
Proof.
  intros ((Ho & _ & Hs & _) & Hsnap)%calm_reachable.
  rewrite Ho. split_and?; [by case_match; simpl; lia|by case_match|done|done].
Qed.

(** A resolved fetch becomes the snapshot and reaches every subscriber
    exactly once, in the order they subscribed; a failed fetch changes neither
    the snapshot nor what was delivered; either way the guard is released.  A
    new subscriber is handed the cached snapshot, if there is one, before
    anything else, and starts a fetch only when it is the first, the store is
    visible and none is in flight. *)
Theorem poll_delivery V id next sub (s : poll_store V) :
  (snapshot (tick_resolved id next s) = next
   ∧ delivered (tick_resolved id next s)
     = delivered s ++ map (λ x, (sid x, next)) (subscribers s)
   ∧ inFlight (tick_resolved id next s) = false)
  ∧ (getSnapshot (tick_rejected id s) = getSnapshot s
     ∧ delivered (tick_rejected id s) = delivered s
     ∧ inFlight (tick_rejected id s) = false)
  ∧ subscribers (subscribe sub s) = subscribers s ++ [sub]
  ∧ delivered (subscribe sub s)
    = delivered s ++ (match snapshot s with Some v => [(sid sub, Some v)] | None => [] end)
  ∧ calls (subscribe sub s)
    = calls s + (if bool_decide (subscribers s = [] ∧ visible s = true ∧ inFlight s = false)
                 then 1 else 0).
Proof.
  split_and?; try done; unfold subscribe, prime, tick; rewrite restartTimer_wanted; simpl;
    destruct (snapshot s), (visible s) eqn:Hv, (inFlight s) eqn:Hf; simpl;
    rewrite ?Hv, ?Hf, ?andb_false_r, ?andb_true_r; simpl;
    rewrite ?app_nil_r; try by case_bool_decide.
  all: repeat case_bool_decide; simpl; naive_solver lia.
Qed.

(** ** Witnesses and what the calm hypothesis excludes *)

Definition sub0 := {| sid := 0; intervalMs := 5000 |}.
Definition sub1 := {| sid := 1; intervalMs := 1000 |}.

Lemma run_events_rtc {V} (es : list (poll_event V)) s s' :
  run_events es s = Some s' → rtc poll_step s s'.
Proof.
  revert s. induction es as [|e es IH]; simpl; intros s H; [by simplify_eq|].
  destruct (enabled e s) eqn:He; [|done]. eapply rtc_l; [by exists e|by apply IH].
Qed.

Definition run_ex : list (poll_event nat) :=
  [Subscribe sub0; Subscribe sub1; Resolved 0 (Some 7); TimerFires].

Lemma poll_invariant_witness :
  ∃ s s' : poll_store nat, run_events run_ex (createPollStore true) = Some s
  ∧ timerId s = Some 1000%Z
  ∧ (visibilityBound s = true ↔ subscribers s ≠ [])
  ∧ fire (Visibility false) s = s' ∧ timerId s' = None ∧ interval_while (docVisible s') s'.
Proof.
  do 2 eexists. split; [vm_compute; reflexivity|]. split; [reflexivity|].
  destruct (poll_invariant nat true
    (default (createPollStore true) (run_events run_ex (createPollStore true))) Refresh)
    as (_ & Hb & _ & _ & Hh);
    [apply (run_events_rtc run_ex); vm_compute; reflexivity|].
  split; [exact Hb|]. split; [reflexivity|]. split; [reflexivity|].
  eapply Hh; [reflexivity|]. apply rtc_once.
  exists (Visibility false). split; [reflexivity|]. split; [by left|reflexivity].
Defined.

Lemma poll_single_flight_witness :
  let s := fire (Resolved 0 (Some 7)) (fire (Subscribe sub0) (createPollStore true)) in
  length (outstanding s) ≤ 1 ∧ snapshot s = Some 7.
Proof.
  intros s.
  assert (rtc calm_step (createPollStore true) s) as H.
  { eapply rtc_l; [exists (Subscribe sub0); split_and?; [reflexivity|exact I|reflexivity]|].
    eapply rtc_l; [exists (Resolved 0 (Some 7)); split_and?; [reflexivity|exact I|reflexivity]|].
    apply rtc_refl. }
  destruct (poll_single_flight nat true s H) as (H1 & _ & _ & H4).
  split; [exact H1|exact H4].
Defined.

(** Removing the last subscriber clears [inFlight] although the fetch is still
    running: a page that comes back starts a second one, and the older result,
    arriving last, replaces the newer one. *)
Theorem poll_remount_overlap :
  ∃ s s' : poll_store nat,
    run_events [Subscribe sub0; Unsubscribe sub0; Subscribe sub1] (createPollStore true) = Some s
    ∧ outstanding s = [0; 1]
    ∧ run_events [Resolved 1 (Some 2); Resolved 0 (Some 1)] s = Some s'
    ∧ published s' = [(1, Some 2); (0, Some 1)] ∧ snapshot s' = Some 1.
Proof.
  do 2 eexists. split; [vm_compute; reflexivity|]. split; [reflexivity|].
  split; [vm_compute; reflexivity|]. vm_compute. repeat split.
Qed.

(** The last unsubscribe also unbinds the visibility listener, and [visible] is
    not read again on the next subscribe: after a tab was hidden, left by its
    last page and shown again, a subscriber gets no timer, no fetch and no
    effect from [refresh]. *)
Theorem poll_stale_visibility :
  ∃ s : poll_store nat,
    run_events [Subscribe sub0; Resolved 0 (Some 1); Visibility false; Unsubscribe sub0;
                Visibility true; Subscribe sub1] (createPollStore true) = Some s
    ∧ docVisible s = true ∧ subscribers s = [sub1]
    ∧ timerId s = None ∧ outstanding s = [] ∧ refresh s = s.
Proof. eexists. split; [vm_compute; reflexivity|]. vm_compute. repeat split. Qed.

(** The same gap the other way round: a tab hidden after its last page left
    starts a fetch and an interval when a page subscribes, and the interval
    goes on fetching in the hidden tab. *)
Theorem poll_hidden_tab :
  ∃ s : poll_store nat,
    run_events [Subscribe sub0; Resolved 0 (Some 1); Unsubscribe sub0;
                Visibility false; Subscribe sub1; Resolved 1 (Some 2); TimerFires]
      (createPollStore true) = Some s
    ∧ docVisible s = false ∧ visible s = true
    ∧ timerId s = Some 1000%Z ∧ calls s = 3 ∧ outstanding s = [2].
Proof. eexists. split; [vm_compute; reflexivity|]. vm_compute. repeat split. Qed.
