(* ===== verification/SharedData.v ===== *)
(** [hooks/useMeshStatus.js], [useMeshTopology.js] and [useGnssStatus.js]: the hooks
    through which pages read a shared store of [PollStore].

    A [hook] is one use of such a hook by a mounted component.  Its first render reads
    the snapshot; its effect subscribes later; [setData] is called by the store.  The
    three hooks differ in what they fetch only. *)
From S2P Require Import Prelude PollStore.

Open Scope js_scope.

(** ** What the stores fetch; [None] on the right is a rejected promise *)

(** The GNSS store turns a failure into [null]. *)
Definition gnss_fetch {A} (r : option A) : option (option A) := match r with Some a => Some (Some a) | None => Some None end.
(** The topology store needs both answers. *)
Definition topology_fetch {A B} (topology : option A) (delta : option B) : option (option (A * B)) :=
  match topology, delta with Some t, Some d => Some (Some (t, d)) | _, _ => None end.

Section Hooks.
Context {V : Type}.

Record hook := mk_hook { h_ms : Z; h_data : option V; h_sub : option subscriber }.

(** [next_sid] names the next subscriber object. *)
Record shared_data := mk_shared { store : poll_store V; hooks : list hook; next_sid : nat }.

Definition no_hooks (doc : bool) : shared_data := mk_shared (createPollStore doc) [] 0.

(** [setData] of the hook that [onChange] belongs to. *)
Definition setData (i : nat) (v : option V) (h : hook) : hook :=
  match h_sub h with
  | Some sub => if decide (sid sub = i) then mk_hook (h_ms h) v (h_sub h) else h
  | None => h
  end.
Definition deliver_data (news : list (nat * option V)) (hs : list hook) : list hook :=
  foldl (λ hs n, map (setData n.1 n.2) hs) hs news.

(** An operation of the store, and the calls of [onChange] it makes. *)
Definition on_store (e : poll_event V) (w : shared_data) : shared_data :=
  let s := fire e (store w) in
  mk_shared s (deliver_data (drop (length (delivered (store w))) (delivered s)) (hooks w)) (next_sid w).

Definition set_hooks (hs : list hook) (w : shared_data) : shared_data := mk_shared (store w) hs (next_sid w).

(** The first render. *)
Definition use_data (ms : Z) (w : shared_data) : shared_data :=
  set_hooks (hooks w ++ [mk_hook ms (getSnapshot (store w)) None]) w.

(** The effect. *)
Definition sub_effect (k : nat) (w : shared_data) : shared_data :=
  match hooks w !! k with
  | Some h =>
      let sub := {| sid := next_sid w; intervalMs := h_ms h |} in
      on_store (Subscribe sub)
        (mk_shared (store w) (<[k := mk_hook (h_ms h) (h_data h) (Some sub)]> (hooks w)) (S (next_sid w)))
  | None => w
  end.

(** Its cleanup. *)
Definition sub_cleanup (k : nat) (w : shared_data) : shared_data :=
  match hooks w !! k with
  | Some (mk_hook ms d (Some sub)) => on_store (Unsubscribe sub) (set_hooks (<[k := mk_hook ms d None]> (hooks w)) w)
  | _ => w
  end.

(** A render with another interval. *)
Definition change_interval (k : nat) (ms : Z) (w : shared_data) : shared_data :=
  let w := sub_cleanup k w in
  sub_effect k (set_hooks (alter (λ h, mk_hook ms (h_data h) (h_sub h)) k (hooks w)) w).

Definition unmount_hook (k : nat) (w : shared_data) : shared_data :=
  let w := sub_cleanup k w in set_hooks (delete k (hooks w)) w.

Inductive hook_event :=
| Mounts (ms : Z) | Effect (k : nat) | Interval (k : nat) (ms : Z) | Unmounts (k : nat) | Store (e : poll_event V).

Definition hook_fire (e : hook_event) (w : shared_data) : shared_data :=
  match e with
  | Mounts ms => use_data ms w
  | Effect k => sub_effect k w
  | Interval k ms => change_interval k ms w
  | Unmounts k => unmount_hook k w
  | Store e => on_store e w
  end.

(** The effect runs once after the first render; only the hooks subscribe. *)
Definition hook_enabled (e : hook_event) (w : shared_data) : bool :=
  match e with
  | Mounts _ => true
  | Effect k => match hooks w !! k with Some h => bool_decide (h_sub h = None) | None => false end
  | Interval k _ => match hooks w !! k with Some h => bool_decide (h_sub h ≠ None) | None => false end
  | Unmounts k => bool_decide (is_Some (hooks w !! k))
  | Store (Subscribe _ | Unsubscribe _) => false
  | Store e => enabled e (store w)
  end.

Definition hook_step (w w' : shared_data) : Prop := ∃ e, hook_enabled e w = true ∧ w' = hook_fire e w.

(** A fetch that does not resolve to [null]. *)
Definition some_fetch (e : hook_event) : Prop := match e with Store (Resolved _ None) => False | _ => True end.
Definition data_step (w w' : shared_data) : Prop := ∃ e, hook_enabled e w = true ∧ some_fetch e ∧ w' = hook_fire e w.

(** ** Lemmas *)

Implicit Types (s : poll_store V) (w : shared_data).

Definition news (e : poll_event V) s : list (nat * option V) :=
  match e with
  | Subscribe sub => match snapshot s with Some v => [(sid sub, Some v)] | None => [] end
  | Resolved _ next => map (λ x, (sid x, next)) (subscribers s)
  | _ => []
  end.
Definition snapshot_after (e : poll_event V) s : option V :=
  match e with Resolved _ next => next | _ => snapshot s end.
Definition subscribers_after (e : poll_event V) s : list subscriber :=
  match e with
  | Subscribe sub => subscribers s ++ [sub]
  | Unsubscribe sub => filter (λ x, x ≠ sub) (subscribers s)
  | _ => subscribers s
  end.

Lemma tick_shared s : delivered (tick s) = delivered s ∧ snapshot (tick s) = snapshot s ∧ subscribers (tick s) = subscribers s.
Proof. unfold tick. by destruct (inFlight s). Qed.

Lemma fire_shared e s :
  delivered (fire e s) = delivered s ++ news e s ∧ snapshot (fire e s) = snapshot_after e s
  ∧ subscribers (fire e s) = subscribers_after e s.
Proof.
  destruct e as [sub|sub| |v| |id next|id]; cbn [fire news snapshot_after subscribers_after].
  - unfold subscribe. rewrite restartTimer_wanted. set (s2 := prime _ _).
    assert (delivered s2 = delivered s ++ news (Subscribe sub) s ∧ snapshot s2 = snapshot s ∧ subscribers s2 = subscribers s ++ [sub])
      as (E1 & E2 & E3) by (unfold s2, prime; cbn; destruct (snapshot s) eqn:E; cbn; by rewrite ?app_nil_r, ?E).
    case_match; [destruct (tick_shared s2) as (-> & -> & ->)|]; done.
  - unfold unsubscribe. rewrite restartTimer_wanted, app_nil_r. by case_decide.
  - unfold refresh. rewrite app_nil_r. case_match; [apply tick_shared|done].
  - unfold visibilitychange, onVisibilityChange. rewrite app_nil_r. destruct (visibilityBound s); [|done].
    case_decide; [done|]. rewrite restartTimer_wanted. case_decide; [|done].
    match goal with |- context [tick ?x] => destruct (tick_shared x) as (-> & -> & ->) end. done.
  - rewrite app_nil_r. apply tick_shared.
  - done.
  - by rewrite app_nil_r.
Qed.

Definition update (l : list (nat * option V)) (h : hook) : hook := foldl (λ h n, setData n.1 n.2 h) h l.

Lemma deliver_map l hs : deliver_data l hs = map (update l) hs.
Proof.
  unfold deliver_data. revert hs. induction l as [|n l IH]; intros hs; cbn [foldl]; [by rewrite map_id|].
  rewrite IH, map_map. done.
Qed.

Lemma setData_fields i v h :
  h_sub (setData i v h) = h_sub h ∧ h_ms (setData i v h) = h_ms h
  ∧ (h_data (setData i v h) = h_data h ∨ h_data (setData i v h) = v)
  ∧ (∀ sub, h_sub h = Some sub → sid sub = i → h_data (setData i v h) = v).
Proof.
  unfold setData. destruct (h_sub h) as [sub|] eqn:E; [case_decide|]; cbn; split_and!; auto.
  - intros sub' [= <-]. done.
  - by intros sub' [= <-].
Qed.

(** After news that all say the same, a hook has what it had or that; and that, if the
    news are for it. *)
Lemma update_same x l h :
  Forall (λ n, n.2 = x) l →
  h_sub (update l h) = h_sub h ∧ h_ms (update l h) = h_ms h
  ∧ (h_data (update l h) = h_data h ∨ h_data (update l h) = x)
  ∧ (∀ sub, h_sub h = Some sub → sid sub ∈ map fst l → h_data (update l h) = x).
Proof.
  intros Hl. revert h. induction Hl as [|[i v] l Hn _ IH]; intros h; [cbn; split_and!; auto; set_solver|].
  cbn in Hn. subst v. change (update ((i, x) :: l) h) with (update l (setData i x h)). destruct (setData_fields i x h) as (E1 & E2 & E3 & E4). destruct (IH (setData i x h)) as (F1 & F2 & F3 & F4).
  rewrite F1, F2. split_and!; [done|done| |].
  - destruct F3 as [-> | ->]; auto.
  - intros sub Hs [Hi|Hi]%elem_of_cons; [|by apply (F4 sub); [congruence|]].
    cbn in Hi. destruct F3 as [-> | ->]; [by apply (E4 sub)|done].
Qed.

Lemma news_same e s : ∃ x, Forall (λ n : nat * option V, n.2 = x) (news e s)
  ∧ (news e s = [] ∨ x = snapshot (fire e s)).
Proof.
  destruct (fire_shared e s) as (_ & -> & _).
  destruct e as [sub|sub| |v| |id next|id]; cbn [news snapshot_after]; try (exists None; by split; [|left]).
  - destruct (snapshot s) as [v|]; [exists (Some v)|exists None]; (split; [by repeat constructor|by auto]).
  - exists next. split; [|by right]. by apply Forall_fmap, Forall_true.
Qed.

Lemma on_store_hooks e w : hooks (on_store e w) = map (update (news e (store w))) (hooks w).
Proof. unfold on_store. cbn. rewrite deliver_map. destruct (fire_shared e (store w)) as (-> & _ & _). by rewrite drop_app_length. Qed.

(** *** Who is subscribed *)

Definition shape (hs : list hook) : list (option subscriber * Z) := map (λ h, (h_sub h, h_ms h)) hs.

Lemma on_store_shape e w : shape (hooks (on_store e w)) = shape (hooks w).
Proof.
  rewrite on_store_hooks. unfold shape. rewrite map_map. apply map_ext. intros h.
  destruct (news_same e (store w)) as (x & Hx & _). by destruct (update_same x _ h Hx) as (-> & -> & _).
Qed.

(** Subscribers and subscribed hooks correspond, with their intervals. *)
Definition linked_at (l : list (option subscriber * Z)) (subs : list subscriber) (n : nat) : Prop :=
  (∀ k sub ms, l !! k = Some (Some sub, ms) → sub ∈ subs ∧ sid sub < n ∧ intervalMs sub = ms)
  ∧ (∀ sub, sub ∈ subs → ∃ k ms, l !! k = Some (Some sub, ms))
  ∧ (∀ k k' sub ms ms', l !! k = Some (Some sub, ms) → l !! k' = Some (Some sub, ms') → k = k').
Definition linked w : Prop := linked_at (shape (hooks w)) (subscribers (store w)) (next_sid w).

Lemma linked_mount l subs n ms : linked_at l subs n → linked_at (l ++ [(None, ms)]) subs n.
Proof.
  intros (A & B & C).
  assert (∀ k x m, (l ++ [(None, ms)]) !! k = Some (Some x, m) → l !! k = Some (Some x, m)) as Hk.
  { intros k x m [?|[_ E]]%lookup_app_Some; [done|]. apply list_lookup_singleton_Some in E as [_ E]. congruence. }
  split_and!.
  - intros k x m ?%Hk. by apply (A k).
  - intros x Hx. destruct (B x Hx) as (k & m & E). exists k, m. by apply lookup_app_l_Some.
  - intros k k' x m m' ?%Hk ?%Hk. by apply (C k k' x m m').
Qed.

Lemma linked_subscribe l subs n k ms :
  l !! k = Some (None, ms) → linked_at l subs n →
  let sub := {| sid := n; intervalMs := ms |} in
  linked_at (<[k := (Some sub, ms)]> l) (subs ++ [sub]) (S n).
Proof.
  intros Hk (A & B & C) sub. pose proof (lookup_lt_Some _ _ _ Hk) as Hlt. split_and!.
  - intros k' x m [(-> & E & _)|[Hne E]]%list_lookup_insert_Some; [|destruct (A _ _ _ E) as (? & ? & ?); split_and!; [set_solver|lia|done]].
    injection E as <- <-. cbn. split_and!; [set_solver|lia|done].
  - intros x [Hx|Hx]%elem_of_app.
    + destruct (B x Hx) as (k' & m & E). exists k', m. rewrite list_lookup_insert_ne; [done|]. intros ->. congruence.
    + apply list_elem_of_singleton in Hx as ->. exists k, ms. by apply list_lookup_insert_eq.
  - intros k1 k2 x m m' [(-> & E & _)|[Hne E]]%list_lookup_insert_Some [(-> & E' & _)|[Hne' E']]%list_lookup_insert_Some.
    + done.
    + injection E as <- <-. destruct (A _ _ _ E') as (_ & Hs & _). cbn in Hs. lia.
    + injection E' as <- <-. destruct (A _ _ _ E) as (_ & Hs & _). cbn in Hs. lia.
    + by apply (C k1 k2 x m m').
Qed.

Lemma linked_cleanup l subs n k sub ms :
  l !! k = Some (Some sub, ms) → linked_at l subs n →
  linked_at (<[k := (None, ms)]> l) (filter (λ x, x ≠ sub) subs) n.
Proof.
  intros Hk (A & B & C).
  assert (∀ k' x m, <[k := (None, ms)]> l !! k' = Some (Some x, m) → k' ≠ k ∧ l !! k' = Some (Some x, m)) as Hi.
  { intros k' x m [(_ & E & _)|[Hne E]]%list_lookup_insert_Some; [done|]. by split. }
  split_and!.
  - intros k' x m [Hne E]%Hi. destruct (A _ _ _ E) as (? & ? & ?). split_and!; [|done|done].
    apply list_elem_of_filter. split; [|done]. intros ->. by apply Hne, (C k' k sub m ms).
  - intros x [Hx Hin]%list_elem_of_filter. destruct (B x Hin) as (k' & m & E). exists k', m.
    rewrite list_lookup_insert_ne; [done|]. intros ->. congruence.
  - intros k1 k2 x m m' [_ E]%Hi [_ E']%Hi. by apply (C k1 k2 x m m').
Qed.

Lemma linked_interval l subs n k ms ms' :
  l !! k = Some (None, ms) → linked_at l subs n → linked_at (<[k := (None, ms')]> l) subs n.
Proof.
  intros Hk (A & B & C).
  assert (∀ k' x m, <[k := (None, ms')]> l !! k' = Some (Some x, m) ↔ l !! k' = Some (Some x, m)) as Hi.
  { intros k' x m. rewrite list_lookup_insert_Some. split; [naive_solver|]. intros E. right. split; [|done]. intros ->. congruence. }
  split_and!; setoid_rewrite Hi; done.
Qed.

Lemma linked_delete l subs n k ms :
  l !! k = Some (None, ms) → linked_at l subs n → linked_at (delete k l) subs n.
Proof.
  intros Hk (A & B & C).
  assert (∀ j x, delete k l !! j = Some x → ∃ i, l !! i = Some x ∧ i = if decide (j < k) then j else S j) as Hd.
  { intros j x E. case_decide; [rewrite list_lookup_delete_lt in E by done|rewrite list_lookup_delete_ge in E by lia]; eauto. }
  split_and!.
  - intros j x m (i & E & _)%Hd. by apply (A i).
  - intros x Hx. destruct (B x Hx) as (i & m & E). assert (i ≠ k) by congruence.
    exists (if decide (i < k) then i else pred i), m.
    case_decide; [by rewrite list_lookup_delete_lt|]. rewrite list_lookup_delete_ge by lia. by replace (S (pred i)) with i by lia.
  - intros j j' x m m' (i & E & Hi)%Hd (i' & E' & Hi')%Hd. pose proof (C _ _ _ _ _ E E'). repeat case_decide; lia.
Qed.

Lemma shape_lookup hs k h : hs !! k = Some h → shape hs !! k = Some (h_sub h, h_ms h).
Proof. intros E. unfold shape. by rewrite list_lookup_fmap, E. Qed.
Lemma shape_insert hs k h : shape (<[k := h]> hs) = <[k := (h_sub h, h_ms h)]> (shape hs).
Proof. apply (list_fmap_insert (λ h, (h_sub h, h_ms h))). Qed.
Lemma shape_delete hs k : shape (delete k hs) = delete k (shape hs).
Proof. apply (list_fmap_delete (λ h, (h_sub h, h_ms h))). Qed.
Lemma alter_insert f (k : nat) (hs : list hook) h : hs !! k = Some h → alter f k hs = <[k := f h]> hs.
Proof. revert k. induction hs as [|h' hs IH]; intros [|k] E; cbn in *; [done|done|congruence|]. f_equal. by apply IH. Qed.

Lemma linked_store e w :
  linked_at (shape (hooks w)) (subscribers_after e (store w)) (next_sid w) → linked (on_store e w).
Proof.
  intros H. unfold linked. rewrite on_store_shape. cbn. destruct (fire_shared e (store w)) as (_ & _ & ->). done.
Qed.

Lemma cleanup_linked k w :
  linked w → linked (sub_cleanup k w)
  ∧ (∀ h, hooks w !! k = Some h → shape (hooks (sub_cleanup k w)) !! k = Some (None, h_ms h)).
Proof.
  intros H. unfold sub_cleanup. destruct (hooks w !! k) as [[ms d [sub|]]|] eqn:E.
  - pose proof (shape_lookup _ _ _ E) as Hs. split.
    + unfold linked. rewrite on_store_shape. cbn [set_hooks hooks]. rewrite shape_insert. cbn [h_sub h_ms].
      destruct (fire_shared (Unsubscribe sub) (store (set_hooks (<[k:=mk_hook ms d None]> (hooks w)) w))) as (_ & _ & Hx).
      unfold on_store. cbn [store next_sid set_hooks] in *. rewrite Hx. by apply linked_cleanup.
    + intros h [= <-]. rewrite on_store_shape. cbn [set_hooks hooks]. rewrite shape_insert. apply list_lookup_insert_eq.
      by apply lookup_lt_Some in Hs.
  - split; [done|]. intros h [= <-]. by apply shape_lookup in E.
  - by split.
Qed.

Lemma effect_linked k w h : hooks w !! k = Some h → h_sub h = None → linked w → linked (sub_effect k w).
Proof.
  intros E Hn H. unfold sub_effect. rewrite E. set (sub := {| sid := next_sid w; intervalMs := h_ms h |}).
  unfold linked. rewrite on_store_shape. cbn [hooks]. rewrite shape_insert. cbn [h_sub h_ms].
  unfold on_store. cbn [store next_sid]. destruct (fire_shared (Subscribe sub) (store w)) as (_ & _ & ->).
  apply linked_subscribe; [|done]. apply shape_lookup in E. by rewrite E, Hn.
Qed.

Lemma hook_fire_linked e w : hook_enabled e w = true → linked w → linked (hook_fire e w).
Proof.
  intros He H. destruct e as [ms|k|k ms|k|e]; cbn [hook_fire].
  - unfold linked, use_data, set_hooks, shape. cbn. rewrite map_app. by apply linked_mount.
  - cbn in He. destruct (hooks w !! k) as [h|] eqn:E; [|done]. apply bool_decide_eq_true in He. by apply (effect_linked k w h).
  - cbn in He. destruct (hooks w !! k) as [h|] eqn:E; [|done]. destruct (cleanup_linked k w H) as [H1 Hk].
    specialize (Hk h E). unfold change_interval. set (w1 := sub_cleanup k w) in *.
    unfold shape in Hk. rewrite list_lookup_fmap in Hk. apply fmap_Some in Hk as (h1 & Hk & Hs). injection Hs as Hs Hm.
    apply (effect_linked k _ (mk_hook ms (h_data h1) (h_sub h1))); [|by cbn|].
    + cbn. rewrite list_lookup_alter_eq, Hk. done.
    + unfold linked, set_hooks. cbn. rewrite (alter_insert _ k _ h1) by done. rewrite shape_insert. cbn. rewrite <- Hs.
      eapply linked_interval; [|done]. rewrite (shape_lookup _ _ _ Hk), <- Hs. done.
  - cbn in He. apply bool_decide_eq_true in He as [h E]. destruct (cleanup_linked k w H) as [H1 Hk]. specialize (Hk h E).
    unfold unmount_hook, linked, set_hooks. cbn. rewrite shape_delete. by eapply linked_delete.
  - apply linked_store. by destruct e.
Qed.

(** *** What the hooks hold *)

(** Before the first answer nothing; afterwards every subscribed hook the snapshot. *)
Definition shown w : Prop :=
  (snapshot (store w) = None → Forall (λ h, h_data h = None) (hooks w))
  ∧ Forall (λ h, h_sub h ≠ None → h_data h = snapshot (store w)) (hooks w).

Lemma shown_quiet e w :
  news e (store w) = [] → snapshot_after e (store w) = snapshot (store w) → shown w → shown (on_store e w).
Proof.
  intros Hn Hs [H1 H2]. unfold shown. rewrite on_store_hooks, Hn. unfold on_store. cbn [store].
  destruct (fire_shared e (store w)) as (_ & -> & _). rewrite Hs. cbn. by rewrite map_id.
Qed.

Lemma shown_resolved id v w : linked w → shown w → shown (on_store (Resolved id (Some v)) w).
Proof.
  intros (A & _) _. unfold shown. rewrite on_store_hooks. split; [done|]. apply Forall_map, Forall_lookup. intros k h E Hs.
  destruct (update_same (Some v) (news (Resolved id (Some v)) (store w)) h) as (Es & _ & _ & Hd); [by apply Forall_fmap, Forall_true|].
  cbn. rewrite Es in Hs. destruct (h_sub h) as [sub|] eqn:E'; [|done]. apply (Hd sub eq_refl).
  destruct (A k sub (h_ms h)) as (Hin & _); [by rewrite (shape_lookup _ _ _ E), E'|].
  cbn. rewrite map_map. cbn. apply list_elem_of_fmap. by exists sub.
Qed.

Lemma shown_effect k w : shown w → shown (sub_effect k w).
Proof.
  intros [H1 H2]. unfold sub_effect. destruct (hooks w !! k) as [h|] eqn:E; [|done].
  set (sub := {| sid := next_sid w; intervalMs := h_ms h |}). unfold shown. rewrite on_store_hooks. unfold on_store.
  cbn [store hooks]. destruct (fire_shared (Subscribe sub) (store w)) as (_ & -> & _). cbn [snapshot_after news].
  destruct (snapshot (store w)) as [v|] eqn:Ev.
  - split; [done|]. apply Forall_map, Forall_insert.
    + eapply Forall_impl; [exact H2|]. intros h' Hh Hs.
      destruct (update_same (Some v) [(sid sub, Some v)] h') as (Es & _ & [-> | ->] & _); [by repeat constructor| |done].
      apply Hh. by rewrite Es in Hs.
    + intros _. unfold update, setData. cbn. by rewrite decide_True.
  - specialize (H1 eq_refl). pose proof (proj1 (Forall_lookup _ _) H1 k h E) as Hd.
    assert (Forall (λ h, h_data h = None) (<[k:=mk_hook (h_ms h) (h_data h) (Some sub)]> (hooks w))) as H by by apply Forall_insert.
    cbn. rewrite map_id. split; [done|]. eapply Forall_impl; [exact H|done].
Qed.

Lemma shown_cleanup k w : shown w → shown (sub_cleanup k w).
Proof.
  intros [H1 H2]. unfold sub_cleanup. destruct (hooks w !! k) as [[ms d [sub|]]|] eqn:E; try done.
  apply shown_quiet; [done|done|]. split; cbn.
  - intros Hn. specialize (H1 Hn). apply Forall_insert; [done|]. exact (proj1 (Forall_lookup _ _) H1 k _ E).
  - by apply Forall_insert.
Qed.

Lemma shown_fire e w : hook_enabled e w = true → some_fetch e → linked w → shown w → shown (hook_fire e w).
Proof.
  intros He Hf Hl H. destruct e as [ms|k|k ms|k|e]; cbn [hook_fire].
  - destruct H as [H1 H2]. split; cbn; [intros Hn|]; (apply Forall_app; split; [by auto|]); by repeat constructor.
  - by apply shown_effect.
  - unfold change_interval. apply shown_effect. destruct (shown_cleanup k w H) as [H1 H2]. split; cbn; [intros Hn|];
      by apply Forall_alter; auto.
  - unfold unmount_hook. destruct (shown_cleanup k w H) as [H1 H2]. split; cbn; [intros Hn|]; by apply Forall_delete; auto.
  - destruct e as [sub|sub| |v| |id [v|]|id]; try done; [by apply shown_quiet..|by apply shown_resolved|by apply shown_quiet].
Qed.

(** ** Properties *)

Lemma linked_reachable doc w : rtc hook_step (no_hooks doc) w → linked w.
Proof.
  revert w. apply rtc_ind_r.
  - split_and!; [by intros ? ? ? E| |by intros ? ? ? ? ? E]. intros sub H. by apply elem_of_nil in H.
  - intros w w' _ (e & He & ->). by apply hook_fire_linked.
Qed.

(** While no fetch answers [null], every page shows the same data: a hook whose effect
    has run holds the snapshot of its store, whenever it was mounted and whatever its
    interval became. *)
Theorem pages_agree doc w h :
  rtc data_step (no_hooks doc) w → h ∈ hooks w → h_sub h ≠ None → h_data h = snapshot (store w).
Proof.
  intros Hr Hin Hs. assert (linked w ∧ shown w) as [_ [_ H]].
  { clear Hin Hs. revert w Hr. apply (rtc_ind_r (λ w, linked w ∧ shown w)).
    - split; [apply (linked_reachable doc), rtc_refl|]. by split.
    - intros w w' _ (e & He & Hf & ->) [Hl Hsh]. split; [by apply hook_fire_linked|by apply shown_fire]. }
  rewrite Forall_forall in H. by apply H.
Qed.

Lemma poll_inv_on_store e w : poll_inv (store w) → poll_inv (store (on_store e w)).
Proof. apply poll_inv_fire. Qed.
Lemma poll_inv_effect k w : poll_inv (store w) → poll_inv (store (sub_effect k w)).
Proof. unfold sub_effect. destruct (hooks w !! k); [|done]. intros H. by apply poll_inv_on_store. Qed.
Lemma poll_inv_cleanup k w : poll_inv (store w) → poll_inv (store (sub_cleanup k w)).
Proof. unfold sub_cleanup. destruct (hooks w !! k) as [[? ? [?|]]|]; try done. intros H. by apply poll_inv_on_store. Qed.

(** The store polls for the pages that are mounted and no others: its interval is the
    smallest that a subscribed hook asks for, there is one whenever the tab is visible
    and a hook is subscribed, and none when no hook is. *)
Theorem polls_for_pages doc w :
  rtc hook_step (no_hooks doc) w →
  let ms := omap (λ h, (λ _, h_ms h) <$> h_sub h) (hooks w) in
  (∀ t, timerId (store w) = Some t → visible (store w) = true ∧ t ∈ ms ∧ ∀ m, m ∈ ms → (t ≤ m)%Z)
  ∧ (visible (store w) = true → ms ≠ [] → (∀ m, m ∈ ms → (0 < m)%Z) → is_Some (timerId (store w))).
Proof.
  intros Hr ms. pose proof (linked_reachable doc w Hr) as (A & B & _).
  assert (poll_inv (store w)) as [Ht _].
  { revert Hr. clear. revert w. apply rtc_ind_r; [by apply (poll_inv_reachable doc), rtc_refl|]. intros w w' _ ([] & He & ->) IH; cbn [hook_fire].
    - done.
    - by apply poll_inv_effect.
    - by apply poll_inv_effect, poll_inv_cleanup.
    - by apply poll_inv_cleanup.
    - by apply poll_inv_on_store. }
  assert (∀ m, m ∈ ms ↔ m ∈ map intervalMs (subscribers (store w))) as Hms.
  { intros m. unfold ms. rewrite list_elem_of_omap, list_elem_of_fmap. split.
    - intros (h & Hin & E). destruct (h_sub h) as [sub|] eqn:Es; [|done]. injection E as <-.
      apply list_elem_of_lookup in Hin as [k Hk]. exists sub. destruct (A k sub (h_ms h)) as (? & _ & ?); [|done].
      by rewrite (shape_lookup _ _ _ Hk), Es.
    - intros (sub & -> & Hin). destruct (B sub Hin) as (k & m & E). destruct (A k sub m E) as (_ & _ & ->).
      unfold shape in E. rewrite list_lookup_fmap in E. apply fmap_Some in E as (h & Hk & E). injection E as E1 E2.
      exists h. split; [by apply list_elem_of_lookup_2 in Hk|]. rewrite <- E1. cbn. by rewrite E2. }
  split.
  - intros t E. rewrite E in Ht. unfold wanted_timer in Ht. case_decide as Hc; [|done]. injection Ht as ->. destruct Hc as (Hv & Hn & _).
    destruct (minInterval_min _ Hn) as [Hin Hle]. split_and!; [done|by apply Hms|].
    intros m (sub & -> & Hs)%Hms%list_elem_of_fmap. by apply Hle.
  - intros Hv Hn Hp. rewrite Ht. unfold wanted_timer. assert (subscribers (store w) ≠ []) as Hs.
    { intros Hs. destruct ms as [|m l]; [done|]. assert (m ∈ map intervalMs (subscribers (store w))) as Hm by (apply Hms; by left).
      rewrite Hs in Hm. by apply elem_of_nil in Hm. }
    rewrite decide_True; [by eexists|]. split_and!; [done|done|]. by apply Hp, Hms, minInterval_min.
Qed.
End Hooks.
Arguments hook V : clear implicits.
Arguments shared_data V : clear implicits.
Arguments hook_event V : clear implicits.

(** Runs of events, [None] when one is not enabled. *)
Fixpoint hook_run {V} (es : list (hook_event V)) (w : shared_data V) : option (shared_data V) :=
  match es with
  | [] => Some w
  | e :: es => if hook_enabled e w then hook_run es (hook_fire e w) else None
  end.

(** The topology store never answers [null]. *)
Lemma topology_not_null {A B} (t : option A) (d : option B) : topology_fetch t d ≠ Some None.
Proof. by destruct t, d. Qed.

(** The GNSS store does answer [null]: a page mounted just before keeps the old fix, the
    other pages show none. *)
Example null_not_primed :
  (λ w, map h_data (hooks w)) <$>
    hook_run [Mounts 1000; Effect 0; Store (Resolved 0 (Some "fix")); Store TimerFires; Mounts 5000;
              Store (Resolved 1 None); Effect 1]%Z (no_hooks true)
  = Some [None; Some "fix"].
Proof. vm_compute. done. Qed.
