(* ===== verification/WebSocket.v ===== *)
(** [services/websocketService.js]: the connection to the backend and its binary
    protocol, with the server's half of the protocol,
    [internal/websocket/message.go].

    Sockets are objects that outlive the variable [ws]: the state keeps every
    socket that was opened, with its [readyState] and the handlers it still has,
    and the browser's events are addressed to one of them.  [out] is everything
    the module did: frames sent and callbacks called. *)
From S2P Require Import Prelude Constants.

(** ** The protocol *)

(** [`${a}.${b}.${c}.${d}`]. *)
Definition dotted (a b c d : Z) : string :=
  (pretty a ++ "." ++ pretty b ++ "." ++ pretty c ++ "." ++ pretty d)%string.

(** The RX_AUDIO branch of [onmessage] on the bytes of the frame. *)
Definition parse_rx (v : list Z) : option (Z * string * list Z) :=
  if decide (v !! 0 = Some MSG_RX_AUDIO ∧ 12 < length v)
  then Some (nth 1 v 0%Z, dotted (nth 8 v 0%Z) (nth 9 v 0%Z) (nth 10 v 0%Z) (nth 11 v 0%Z),
             drop 12 v)
  else None.

(** An element stored in a [Uint8Array]. *)
Definition uint8 (z : Z) : Z := z `mod` 256.

(** [new Uint8Array([type, ch, on ? 1 : 0])]. *)
Definition toggle_bytes (type ch : Z) (on : bool) : list Z :=
  [uint8 type; uint8 ch; uint8 (if on then 1 else 0)].

(** The TX_AUDIO frame that the page builds around an encoded chunk. *)
Definition tx_frame (encoded : list Z) : list Z := uint8 MSG_TX_AUDIO :: encoded.

(** The server's messages. *)
Record AudioRXMessage := {
  Channel : Z; SSRC : Z; Seq : Z; SrcIP : Z * Z * Z * Z; OpusData : list Z
}.

Definition AudioRXHeaderSize : nat := 12.

(** [binary.BigEndian.PutUint32] and [PutUint16]. *)
Definition be32 (z : Z) : list Z :=
  [uint8 (Z.shiftr z 24); uint8 (Z.shiftr z 16); uint8 (Z.shiftr z 8); uint8 z].
Definition be16 (z : Z) : list Z := [uint8 (Z.shiftr z 8); uint8 z].

(** [EncodeAudioRX(dst, msg)]: the buffer afterwards and the count it returns.
    A [dst] shorter than the header panics ([None]: [dst[0]], [dst[1]] and
    [dst[12:]] are checked against its length); one too short for the payload
    takes what fits of it, and the count is of the whole message. *)
Definition EncodeAudioRX (dst : list Z) (msg : AudioRXMessage) : option (list Z * nat) :=
  if decide (length dst < AudioRXHeaderSize) then None
  else
    let '(a, b, c, d) := SrcIP msg in
    let copied := take (length dst - AudioRXHeaderSize) (OpusData msg) in
    Some ([MSG_RX_AUDIO; Channel msg] ++ be32 (SSRC msg) ++ be16 (Seq msg) ++ [a; b; c; d]
            ++ copied ++ drop (AudioRXHeaderSize + length copied) dst,
          AudioRXHeaderSize + length (OpusData msg)).

Definition DecodeToggle (data : list Z) : option (Z * bool) :=
  match data with
  | _ :: ch :: on :: _ => Some (ch, bool_decide (on ≠ 0%Z))
  | _ => None
  end.

Definition ExtractAudioTXPayload (data : list Z) : option (list Z) :=
  if decide (length data < 2) then None else Some (drop 1 data).

(** ** The connection *)

Inductive ready_state := CONNECTING | OPEN | CLOSING | CLOSED.
#[export] Instance ready_state_eq_dec : EqDecision ready_state.
Proof. solve_decision. Defined.

(** [readyState <= WebSocket.OPEN]. *)
Definition live (r : ready_state) : bool :=
  match r with CONNECTING | OPEN => true | CLOSING | CLOSED => false end.

(** [onopen] and [onmessage] stay attached; the other handlers can be removed. *)
Record socket := { url : string; readyState : ready_state; onclose : bool; onerror : bool }.

Definition set_ready (r : ready_state) (k : socket) : socket :=
  {| url := url k; readyState := r; onclose := onclose k; onerror := onerror k |}.

Definition detach (k : socket) : socket :=
  {| url := url k; readyState := readyState k; onclose := false; onerror := false |}.

Inductive ws_status := Connecting | Connected | Disconnected.
Inductive msg_data := Text (s : string) | ArrayBuffer (bytes : list Z).

Inductive ws_out :=
| StatusChange (st : ws_status)
| RxAudio (ch : Z) (srcIP : string) (opusData : list Z)
| ErrorCb (msg : string)
| LogCb (msg cls : string)
| SentTo (id : nat) (bytes : list Z).

(** Which callbacks the consumer registered. *)
Record callbacks := {
  statusChange : bool; rxAudio : bool; error : bool; logged : bool
}.

Record ws_state := mk_ws {
  sockets : list socket;
  ws : option nat;              (* index of the current socket *)
  reconnectTimer : bool;
  cbs : callbacks;
  out : list ws_out
}.

Definition ws_init : ws_state := mk_ws [] None false (Build_callbacks false false false false) [].

Definition emit (registered : bool) (o : ws_out) (s : ws_state) : ws_state :=
  mk_ws (sockets s) (ws s) (reconnectTimer s) (cbs s) (if registered then out s ++ [o] else out s).

Definition set_timer (b : bool) (s : ws_state) : ws_state :=
  mk_ws (sockets s) (ws s) b (cbs s) (out s).

Definition set_sockets (l : list socket) (s : ws_state) : ws_state :=
  mk_ws l (ws s) (reconnectTimer s) (cbs s) (out s).

Definition setCallbacks (c : callbacks) (s : ws_state) : ws_state :=
  mk_ws (sockets s) (ws s) (reconnectTimer s) c (out s).

Definition current (s : ws_state) : option socket := ws s ≫= λ i, sockets s !! i.

(** [ws && ws.readyState <= WebSocket.OPEN]. *)
Definition is_live (s : ws_state) : bool :=
  match current s with Some k => live (readyState k) | None => false end.

Definition isOpen (s : ws_state) : bool :=
  match current s with Some k => bool_decide (readyState k = OPEN) | None => false end.

Definition connect (https : bool) (host : string) (s : ws_state) : ws_state :=
  if is_live s then s
  else
    let proto := if https then "wss:" else "ws:" in
    let k := {| url := (proto ++ "//" ++ host ++ "/ws")%string; readyState := CONNECTING;
                onclose := true; onerror := true |} in
    emit (statusChange (cbs s)) (StatusChange Connecting)
      (mk_ws (sockets s ++ [k]) (Some (length (sockets s))) (reconnectTimer s) (cbs s) (out s)).

Definition scheduleReconnect (s : ws_state) : ws_state :=
  if reconnectTimer s then s else set_timer true s.

Definition on_open (s : ws_state) : ws_state :=
  let s1 := emit (statusChange (cbs s)) (StatusChange Connected) s in
  let s2 := emit (logged (cbs s)) (LogCb "Connected" "info") s1 in
  if reconnectTimer s2 then set_timer false s2 else s2.

Definition on_close (s : ws_state) : ws_state :=
  scheduleReconnect (emit (statusChange (cbs s)) (StatusChange Disconnected) s).

Definition on_error (s : ws_state) : ws_state :=
  emit (logged (cbs s)) (LogCb "WebSocket error" "err")
    (emit (error (cbs s)) (ErrorCb "WebSocket error") s).

Definition on_message (data : msg_data) (s : ws_state) : ws_state :=
  match data with
  | Text _ => s
  | ArrayBuffer v =>
      match parse_rx v with
      | Some (ch, ip, opus) => emit (rxAudio (cbs s)) (RxAudio ch ip opus) s
      | None => s
      end
  end.

(** The handlers are detached before [close()], whose effect on [readyState] is
    immediate. *)
Definition disconnect (s : ws_state) : ws_state :=
  let s1 := if reconnectTimer s then set_timer false s else s in
  match ws s1 with
  | None => s1
  | Some i =>
      let close := λ k, if live (readyState k) then set_ready CLOSING k else k in
      mk_ws (alter (λ k, close (detach k)) i (sockets s1)) None (reconnectTimer s1) (cbs s1) (out s1)
  end.

Definition send (data : list Z) (s : ws_state) : ws_state :=
  match ws s with
  | Some i => if isOpen s then emit true (SentTo i data) s else s
  | None => s
  end.

Definition sendToggle (type ch : Z) (on : bool) (s : ws_state) : ws_state :=
  send (toggle_bytes type ch on) s.

Definition sendByte (b : Z) (s : ws_state) : ws_state := send [uint8 b] s.

(** ** The machine *)

Inductive ws_event :=
(* calls *)
| ESetCallbacks (c : callbacks)
| EConnect
| EDisconnect
| ESend (data : list Z)
(* the browser, on socket [i] *)
| EOpened (i : nat)
| EClosing (i : nat)
| EClosed (i : nat)
| EErrored (i : nat)
| EMessage (i : nat) (data : msg_data)
| ETimer.

Definition ready_is (P : ready_state → bool) (i : nat) (s : ws_state) : bool :=
  match sockets s !! i with Some k => P (readyState k) | None => false end.

Definition enabled (e : ws_event) (s : ws_state) : bool :=
  match e with
  | EOpened i => ready_is (λ r, bool_decide (r = CONNECTING)) i s
  | EClosing i => ready_is live i s
  | EClosed i => ready_is (λ r, negb (bool_decide (r = CLOSED))) i s
  | EErrored i => ready_is (λ _, true) i s
  | EMessage i _ => ready_is (λ r, bool_decide (r = OPEN)) i s
  | ETimer => reconnectTimer s
  | _ => true
  end.

Definition moves (r : ready_state) (i : nat) (s : ws_state) : ws_state :=
  set_sockets (alter (set_ready r) i (sockets s)) s.

Definition handler (P : socket → bool) (i : nat) (s : ws_state) : bool :=
  match sockets s !! i with Some k => P k | None => false end.

Section Machine.
Context (https : bool) (host : string).

Definition fire (e : ws_event) (s : ws_state) : ws_state :=
  match e with
  | ESetCallbacks c => setCallbacks c s
  | EConnect => connect https host s
  | EDisconnect => disconnect s
  | ESend data => send data s
  | EOpened i => on_open (moves OPEN i s)
  | EClosing i => moves CLOSING i s
  | EClosed i => let s1 := moves CLOSED i s in if handler onclose i s then on_close s1 else s1
  | EErrored i => if handler onerror i s then on_error s else s
  | EMessage _ data => on_message data s
  | ETimer => connect https host (set_timer false s)
  end.

Fixpoint run (es : list ws_event) (s : ws_state) : option ws_state :=
  match es with
  | [] => Some s
  | e :: es' => if enabled e s then run es' (fire e s) else None
  end.

(** Events of the browser and sends: everything but the consumer's connect,
    disconnect and registration. *)
Definition passive (e : ws_event) : bool :=
  match e with ESetCallbacks _ | EConnect | EDisconnect => false | _ => true end.

Definition step (s s' : ws_state) : Prop := ∃ e, enabled e s = true ∧ s' = fire e s.
End Machine.

(** ** Invariants *)

(** At most the current socket is alive, and a current socket that has closed
    has a reconnect timer running. *)
Definition ws_inv (s : ws_state) : Prop :=
  (∀ i k, sockets s !! i = Some k → live (readyState k) = true → ws s = Some i)
  ∧ (∀ i, ws s = Some i → ∃ k, sockets s !! i = Some k ∧ onclose k = true
       ∧ (readyState k = CLOSED → reconnectTimer s = true)).

(** No socket other than the current one can still report its close. *)
Definition settled (s : ws_state) : Prop :=
  ∀ i k, sockets s !! i = Some k → ws s ≠ Some i → readyState k ≠ CLOSED → onclose k = false.

(** ** Lemmas *)

Lemma moves_lookup r i s j :
  sockets (moves r i s) !! j
  = if decide (i = j) then set_ready r <$> sockets s !! i else sockets s !! j.
Proof. apply list_lookup_alter. Qed.

Lemma on_open_fields s :
  sockets (on_open s) = sockets s ∧ ws (on_open s) = ws s ∧ reconnectTimer (on_open s) = false.
Proof. unfold on_open. destruct (reconnectTimer _) eqn:Ht; by rewrite ?Ht. Qed.

Lemma on_close_fields s :
  sockets (on_close s) = sockets s ∧ ws (on_close s) = ws s ∧ reconnectTimer (on_close s) = true.
Proof. unfold on_close, scheduleReconnect. destruct (reconnectTimer _) eqn:Ht; by rewrite ?Ht. Qed.

Lemma send_fields data s :
  sockets (send data s) = sockets s ∧ ws (send data s) = ws s
  ∧ reconnectTimer (send data s) = reconnectTimer s.
Proof. unfold send. destruct (ws s) eqn:E; [destruct (isOpen s)|]; by rewrite ?E. Qed.

Lemma on_message_fields data s :
  sockets (on_message data s) = sockets s ∧ ws (on_message data s) = ws s
  ∧ reconnectTimer (on_message data s) = reconnectTimer s.
Proof. destruct data as [t|v]; simpl; [done|]. by destruct (parse_rx v) as [[[c ip] opus]|]. Qed.

Lemma ws_inv_ext s s' :
  sockets s' = sockets s → ws s' = ws s → reconnectTimer s' = reconnectTimer s →
  ws_inv s → ws_inv s'.
Proof. intros H1 H2 H3. unfold ws_inv. by rewrite H1, H2, H3. Qed.

Lemma is_live_spec s :
  is_live s = true ↔ ∃ i k, ws s = Some i ∧ sockets s !! i = Some k ∧ live (readyState k) = true.
Proof.
  unfold is_live, current. destruct (ws s) as [i|]; simpl; [|naive_solver].
  destruct (sockets s !! i) eqn:E; naive_solver.
Qed.

Lemma connect_fields https host s :
  is_live s = false →
  ∃ k, readyState k = CONNECTING ∧ onclose k = true
    ∧ sockets (connect https host s) = sockets s ++ [k]
    ∧ ws (connect https host s) = Some (length (sockets s))
    ∧ reconnectTimer (connect https host s) = reconnectTimer s.
Proof.
  intros Hl. unfold connect. rewrite Hl.
  by exists (Build_socket ((if https then "wss:" else "ws:") ++ "//" ++ host ++ "/ws") CONNECTING true true).
Qed.

(** Opening a socket is safe whatever the timer, as long as none is alive. *)
Lemma ws_inv_connect https host s :
  (∀ i k, sockets s !! i = Some k → live (readyState k) = true → ws s = Some i) →
  is_live s = false → ws_inv (connect https host s).
Proof.
  intros H1 Hl. destruct (connect_fields https host s Hl) as (k & Hr & Ho & Hs & Hw & _).
  split; rewrite Hs, Hw.
  - intros i k' [Hi|[-> _]]%lookup_snoc_Some Hk; [|done]. destruct Hi as [_ Hi].
    pose proof (H1 _ _ Hi Hk) as Hwi. assert (is_live s = true) as Ht; [|congruence].
    apply is_live_spec. eauto.
  - intros i [= <-]. exists k. rewrite lookup_app_r, Nat.sub_diag by lia.
    split_and?; [done|done|congruence].
Qed.

Lemma ready_is_spec P i s :
  ready_is P i s = true ↔ ∃ k, sockets s !! i = Some k ∧ P (readyState k) = true.
Proof. unfold ready_is. destruct (sockets s !! i); naive_solver. Qed.

(** A socket changes its state: only the current one may stay or become alive,
    and closing it needs the timer. *)
Lemma ws_inv_moves r i s b :
  ws_inv s → (live r = true → ws s = Some i) →
  (reconnectTimer s = true → b = true ∨ ∃ k, current s = Some k ∧ ws s = Some i) →
  (r = CLOSED → ws s = Some i → b = true) →
  ws_inv (set_timer b (moves r i s)).
Proof.
  intros [H1 H2] Hr Ht Hc. split; simpl.
  - intros j k Hj Hk. unfold moves in Hj; simpl in Hj. rewrite list_lookup_alter in Hj.
    case_decide as Hij; [subst j|by eapply H1].
    apply fmap_Some in Hj as (k0 & Hk0 & ->). by apply Hr.
  - intros j Hj. destruct (H2 j Hj) as (k & Hk & Ho & Htk).
    rewrite list_lookup_alter. case_decide as Hij.
    + subst j. rewrite Hk. eexists. split; [done|]. split; [done|]. intros Hcl. by apply Hc.
    + exists k. split_and?; [done|done|]. intros Hcl.
      destruct (Ht (Htk Hcl)) as [Hb|(? & _ & Hw)]; [done|congruence].
Qed.

Section Inv.
Context (https : bool) (host : string).

Lemma ws_inv_fire e s : ws_inv s → enabled e s = true → ws_inv (fire https host e s).
Proof.
  intros Hi He. destruct e as [c| | |data|i|i|i|i|i data|]; simpl in *.
  - done.
  - destruct (is_live s) eqn:Hl; [by unfold connect; rewrite Hl|]. by apply ws_inv_connect; [apply Hi|].
  - unfold disconnect. set (s1 := if reconnectTimer s then _ else s).
    assert (sockets s1 = sockets s ∧ ws s1 = ws s) as [Hs Hw]
      by (unfold s1; by destruct (reconnectTimer s)).
    destruct Hi as [H1 H2]. destruct (ws s1) as [i|] eqn:Hw1.
    + split; [|done]. simpl. intros j k Hj Hk. rewrite list_lookup_alter, Hs in Hj.
      case_decide as Hij.
      * apply fmap_Some in Hj as (k0 & _ & ->).
        simpl in Hk. destruct (live (readyState k0)) eqn:Hd; simpl in Hk; congruence.
      * pose proof (H1 _ _ Hj Hk). congruence.
    + split; [|by rewrite Hw1]. rewrite Hs, Hw1. intros j k Hj Hk. rewrite Hw. by apply H1 with k.
  - destruct (send_fields data s) as (? & ? & ?). by eapply ws_inv_ext.
  - apply ready_is_spec in He as (k & Hk & Hr%bool_decide_eq_true).
    destruct (on_open_fields (moves OPEN i s)) as (F1 & F2 & F3).
    assert (ws s = Some i) as Hw by (apply (proj1 Hi i k); [done|by rewrite Hr]).
    eapply (ws_inv_ext (set_timer false (moves OPEN i s))); [done..|].
    apply ws_inv_moves; [done|done| |done].
    intros _. right. unfold current. rewrite Hw. simpl. eauto.
  - apply ready_is_spec in He as (k & Hk & Hr).
    eapply (ws_inv_ext (set_timer (reconnectTimer s) (moves CLOSING i s))); [done..|].
    apply ws_inv_moves; [done|done|by left|done].
  - destruct (handler onclose i s) eqn:Hh.
    + destruct (on_close_fields (moves CLOSED i s)) as (F1 & F2 & F3).
      eapply (ws_inv_ext (set_timer true (moves CLOSED i s))); [done..|].
      apply ws_inv_moves; [done|done|by left|done].
    + eapply (ws_inv_ext (set_timer (reconnectTimer s) (moves CLOSED i s))); [done..|].
      apply ws_inv_moves; [done|done|by left|]. intros _ Hw.
      destruct (proj2 Hi i Hw) as (k & Hk & Ho & _). unfold handler in Hh.
      rewrite Hk in Hh. congruence.
  - destruct (handler onerror i s); by eapply ws_inv_ext; [..|exact Hi].
  - destruct (on_message_fields data s) as (? & ? & ?). by eapply ws_inv_ext.
  - destruct (is_live (set_timer false s)) eqn:Hl.
    + unfold connect. rewrite Hl. split; [apply Hi|]. simpl. intros j Hj.
      destruct (proj2 Hi j Hj) as (k & Hk & Ho & _). exists k. split_and?; [done|done|].
      apply is_live_spec in Hl as (i & k' & Hw & Hk' & Hlive). simpl in *.
      assert (k = k') as -> by congruence. intros Hc. by rewrite Hc in Hlive.
    + apply ws_inv_connect; [apply Hi|done].
Qed.

Lemma ws_inv_reachable s : rtc (step https host) ws_init s → ws_inv s.
Proof.
  revert s. apply rtc_ind_r.
  - split; simpl; [intros i k Hk; by rewrite lookup_nil in Hk|done].
  - intros s s' _ (e & He & ->). by auto using ws_inv_fire.
Qed.
End Inv.

(** *** The consumer's discipline *)

(** The comms page registers its callbacks and connects on mount, and
    disconnects on unmount: it never connects over an existing socket. *)
Definition page_ok (e : ws_event) (s : ws_state) : Prop :=
  match e with
  | EConnect => ws s = None ∧ statusChange (cbs s) = true
  | ESetCallbacks _ => ws s = None
  | _ => True
  end.

Definition page_step (https : bool) (host : string) (s s' : ws_state) : Prop :=
  ∃ e, enabled e s = true ∧ page_ok e s ∧ s' = fire https host e s.

(** The last status reported. *)
Definition last_status (os : list ws_out) : option ws_status :=
  last (omap (λ o, match o with StatusChange st => Some st | _ => None end) os).

Definition status_ok (r : ready_state) (st : option ws_status) : Prop :=
  match r with
  | CONNECTING => st = Some Connecting
  | OPEN => st = Some Connected
  | CLOSING => st = Some Connecting ∨ st = Some Connected
  | CLOSED => st = Some Disconnected
  end.

Definition page_inv (s : ws_state) : Prop :=
  ws_inv s ∧ settled s
  ∧ (reconnectTimer s = true → ∃ k, current s = Some k ∧ readyState k = CLOSED)
  ∧ (∀ k, current s = Some k →
       statusChange (cbs s) = true ∧ status_ok (readyState k) (last_status (out s))).

(** What a closed-down module may still do: nothing that reports a status, plays
    audio or sends. *)
Definition quiet (o : ws_out) : Prop :=
  match o with StatusChange _ | RxAudio _ _ _ | SentTo _ _ => False | _ => True end.

Definition down (n : nat) (s : ws_state) : Prop :=
  length (sockets s) = n ∧ ws s = None ∧ reconnectTimer s = false
  ∧ ∀ i k, sockets s !! i = Some k → live (readyState k) = false
             ∧ (readyState k = CLOSED ∨ onclose k = false).

Lemma last_status_snoc os o :
  last_status (os ++ [o])
  = match o with StatusChange st => Some st | _ => last_status os end.
Proof.
  unfold last_status. rewrite omap_app. destruct o; simpl; rewrite ?app_nil_r; try done.
  apply last_snoc.
Qed.

Lemma send_frame data s :
  cbs (send data s) = cbs s ∧ last_status (out (send data s)) = last_status (out s).
Proof.
  unfold send. destruct (ws s); [|done]. destruct (isOpen s); [|done].
  split; [done|]. apply last_status_snoc.
Qed.

Lemma on_message_frame data s :
  cbs (on_message data s) = cbs s ∧ last_status (out (on_message data s)) = last_status (out s).
Proof.
  destruct data as [t|v]; simpl; [done|]. destruct (parse_rx v) as [[[c ip] opus]|]; [|done].
  simpl. split; [done|]. destruct (rxAudio (cbs s)); [|done]. apply last_status_snoc.
Qed.

Lemma page_inv_ext s s' :
  sockets s' = sockets s → ws s' = ws s → reconnectTimer s' = reconnectTimer s →
  cbs s' = cbs s → last_status (out s') = last_status (out s) → page_inv s → page_inv s'.
Proof.
  intros H1 H2 H3 H4 H5. unfold page_inv, ws_inv, settled, current. by rewrite H1, H2, H3, H4, H5.
Qed.

Lemma current_moves r i s :
  current (moves r i s) = if decide (ws s = Some i) then set_ready r <$> current s else current s.
Proof.
  unfold current. change (ws (moves r i s)) with (ws s). destruct (ws s) as [j|]; [simpl|done].
  change (alter _ _ _ !! j) with (sockets (moves r i s) !! j). rewrite moves_lookup.
  destruct (decide (i = j)) as [->|Hne]; [by rewrite decide_True|].
  rewrite decide_False; [done|congruence].
Qed.

Lemma settled_moves r i s :
  settled s → (ws s = Some i ∨ r = CLOSED ∨ handler onclose i s = false) → settled (moves r i s).
Proof.
  intros Hset Hr j k Hj Hne Hcl. rewrite moves_lookup in Hj.
  change (ws (moves r i s)) with (ws s) in Hne. case_decide as Hij; [|by eapply Hset].
  subst j. apply fmap_Some in Hj as (k0 & Hk0 & ->). unfold handler in Hr. rewrite Hk0 in Hr.
  simpl in *. naive_solver.
Qed.

Lemma settled_ext s s' : sockets s' = sockets s → ws s' = ws s → settled s → settled s'.
Proof. intros H1 H2. unfold settled. by rewrite H1, H2. Qed.

Section Page.
Context (https : bool) (host : string).

Lemma page_inv_connect s :
  page_inv s → statusChange (cbs s) = true → settled (connect https host s) →
  reconnectTimer s = false → page_inv (connect https host s).
Proof.
  intros (Hi & Hset & Ht & Hst) Hc Hs' Htm. destruct (is_live s) eqn:Hl.
  { unfold connect. by rewrite Hl. }
  destruct (connect_fields https host s Hl) as (k & Hr & Ho & Hs & Hw & Htf).
  unfold page_inv; split_and?; [by apply ws_inv_connect; [apply Hi|]|done|congruence|].
  intros k' Hk'. unfold current in Hk'. rewrite Hw in Hk'. simpl in Hk'.
  rewrite Hs, lookup_app_r, Nat.sub_diag in Hk' by lia. injection Hk' as <-.
  rewrite Hr. unfold connect. rewrite Hl, Hc. simpl. split; [done|]. by rewrite last_status_snoc.
Qed.

(** A new socket is opened where nothing but closed sockets is left behind. *)
Lemma settled_connect s :
  settled s → (∀ k, current s = Some k → readyState k = CLOSED) → settled (connect https host s).
Proof.
  intros Hset Hc. unfold connect. destruct (is_live s) eqn:Hl; [done|].
  intros j k Hj Hne Hr. simpl in *. apply lookup_snoc_Some in Hj as [[_ Hj]|[-> _]]; [|done].
  destruct (decide (ws s = Some j)) as [Hw|Hw]; [|by eapply Hset].
  destruct Hr. apply Hc. unfold current. by rewrite Hw.
Qed.

Lemma settled_disconnect s : settled s → settled (disconnect s) ∧ ws (disconnect s) = None.
Proof.
  intros Hset. unfold disconnect. set (s1 := if reconnectTimer s then _ else s).
  assert (settled s1) as H1 by (unfold s1; by destruct (reconnectTimer s)).
  destruct (ws s1) as [i|] eqn:Hw; [|done]. split; [|done].
  intros j k Hj _ Hr. simpl in *. rewrite list_lookup_alter in Hj. case_decide as Hij.
  - apply fmap_Some in Hj as (k0 & _ & ->). simpl. by destruct (live (readyState k0)).
  - eapply H1; [done|congruence|done].
Qed.

Lemma disconnect_timer s : reconnectTimer (disconnect s) = false.
Proof.
  unfold disconnect. destruct (reconnectTimer s) eqn:Ht; simpl; by destruct (ws s).
Qed.

Lemma page_inv_live i k s :
  page_inv s → sockets s !! i = Some k → live (readyState k) = true →
  ws s = Some i ∧ current s = Some k ∧ reconnectTimer s = false.
Proof.
  intros (Hi & _ & Ht & _) Hk Hl. pose proof (proj1 Hi i k Hk Hl) as Hw.
  assert (current s = Some k) as Hc by (unfold current; by rewrite Hw).
  split_and?; [done|done|]. destruct (reconnectTimer s) eqn:Htm; [|done].
  destruct (Ht eq_refl) as (k' & Hk' & Hr). assert (k = k') as -> by congruence.
  by rewrite Hr in Hl.
Qed.

Lemma page_inv_fire e s :
  page_inv s → enabled e s = true → page_ok e s → page_inv (fire https host e s).
Proof.
  intros Hp He Hok. pose proof Hp as (Hi & Hset & Ht & Hst).
  assert (ws_inv (fire https host e s)) as Hi' by (by apply ws_inv_fire).
  destruct e as [c| | |data|i|i|i|i|i data|]; simpl in *.
  - unfold page_inv; split_and?; [done|done|done|]. unfold current. simpl. by rewrite Hok.
  - destruct Hok as [Hw Hc]. apply page_inv_connect; [done|done| |].
    + apply settled_connect; [done|]. unfold current. by rewrite Hw.
    + destruct (reconnectTimer s); [|done]. destruct Ht as (k & Hk & _); [done|].
      unfold current in Hk. by rewrite Hw in Hk.
  - destruct (settled_disconnect s Hset) as [Hd Hw]. unfold page_inv; split_and?; [done|done| |].
    + by rewrite disconnect_timer.
    + unfold current. by rewrite Hw.
  - destruct (send_fields data s) as (? & ? & ?), (send_frame data s) as [? ?].
    by eapply page_inv_ext.
  - apply ready_is_spec in He as (k & Hk & Hr%bool_decide_eq_true).
    destruct (page_inv_live i k s Hp Hk) as (Hw & Hcur & _); [by rewrite Hr|].
    destruct (on_open_fields (moves OPEN i s)) as (F1 & F2 & F3).
    unfold page_inv; split_and?; [done| |by rewrite F3|].
    + eapply settled_ext; [done..|]. apply settled_moves; [done|by left].
    + intros k' Hk'. unfold current in Hk'. rewrite F1, F2 in Hk'. fold (current (moves OPEN i s)) in Hk'.
      rewrite current_moves, decide_True, Hcur in Hk' by done. injection Hk' as <-.
      destruct (Hst k Hcur) as [Hcb _]. unfold on_open. simpl. rewrite Hcb.
      case_match; simpl; destruct (logged (cbs s)); rewrite ?last_status_snoc; done.
  - apply ready_is_spec in He as (k & Hk & Hr).
    destruct (page_inv_live i k s Hp Hk Hr) as (Hw & Hcur & Htm). destruct (Hst k Hcur) as [Hcb Hs].
    unfold page_inv; split_and?; [done|by apply settled_moves; [|left]|simpl; congruence|].
    rewrite current_moves, decide_True, Hcur by done. intros k' [= <-]. split; [done|].
    simpl. destruct (readyState k); simpl in *; [by left|by right|done|done].
  - apply ready_is_spec in He as (k & Hk & Hr%negb_true_iff%bool_decide_eq_false).
    destruct (decide (ws s = Some i)) as [Hw|Hw].
    + assert (current s = Some k) as Hcur by (unfold current; by rewrite Hw).
      destruct (Hst k Hcur) as [Hcb _]. destruct (proj2 Hi i Hw) as (k' & Hk' & Ho & _).
      assert (handler onclose i s = true) as Hh by (unfold handler; by rewrite Hk').
      rewrite Hh in *. destruct (on_close_fields (moves CLOSED i s)) as (F1 & F2 & F3).
      assert (current (on_close (moves CLOSED i s)) = Some (set_ready CLOSED k)) as Hcur'.
      { unfold current. rewrite F1, F2. fold (current (moves CLOSED i s)).
        by rewrite current_moves, decide_True, Hcur. }
      unfold page_inv; split_and?; [done| |by eexists|].
      * eapply settled_ext; [done..|]. apply settled_moves; [done|by left].
      * intros k0. rewrite Hcur'. intros [= <-]. unfold on_close, scheduleReconnect. simpl.
        rewrite Hcb. case_match; simpl; by rewrite last_status_snoc.
    + assert (handler onclose i s = false) as Hh
        by (unfold handler; rewrite Hk; by eapply Hset).
      rewrite Hh in *. unfold page_inv; split_and?; [done| | |].
      * apply settled_moves; [done|by right; right].
      * rewrite current_moves, decide_False by done. apply Ht.
      * rewrite current_moves, decide_False by done. apply Hst.
  - destruct (handler onerror i s); [|done]. eapply page_inv_ext; [..|exact Hp]; try done.
    unfold on_error. simpl. by destruct (logged (cbs s)), (error (cbs s)); rewrite ?last_status_snoc.
  - destruct (on_message_fields data s) as (? & ? & ?), (on_message_frame data s) as [? ?].
    by eapply page_inv_ext.
  - destruct (Ht He) as (k & Hk & Hr). destruct (Hst k Hk) as [Hcb _].
    assert (is_live (set_timer false s) = false) as Hl.
    { unfold is_live. change (current (set_timer false s)) with (current s).
      by rewrite Hk, Hr. }
    assert (settled (connect https host (set_timer false s))) as Hs'.
    { apply settled_connect; [done|]. change (current (set_timer false s)) with (current s).
      naive_solver. }
    destruct (connect_fields https host _ Hl) as (k' & Hr' & _ & Hs & Hw & Htf).
    unfold page_inv; split_and?; [done|done|simpl in Htf; congruence|]. intros k0 Hk0. unfold current in Hk0.
    rewrite Hw in Hk0. simpl in Hk0. rewrite Hs, lookup_app_r, Nat.sub_diag in Hk0 by (simpl; lia).
    injection Hk0 as <-. rewrite Hr'. unfold connect. rewrite Hl. simpl. rewrite Hcb.
    split; [done|]. by rewrite last_status_snoc.
Qed.

Lemma page_inv_reachable s : rtc (page_step https host) ws_init s → page_inv s.
Proof.
  revert s. apply rtc_ind_r.
  - unfold page_inv; split_and?; [apply (ws_inv_reachable https host ws_init); apply rtc_refl|done..].
  - intros s s' _ (e & He & Hok & ->). by auto using page_inv_fire.
Qed.
End Page.

(** *** The address text *)

Fixpoint no_dot (s : string) : bool :=
  match s with
  | EmptyString => true
  | String c s' => negb (bool_decide (c = "."%char)) && no_dot s'
  end.

Lemma cut_at_dot s1 s2 r1 r2 :
  no_dot s1 = true → no_dot s2 = true →
  (s1 ++ "." ++ r1 = s2 ++ "." ++ r2)%string → s1 = s2 ∧ r1 = r2.
Proof.
  revert s2. induction s1 as [|c s1 IH]; intros [|c2 s2] H1 H2 H; simpl in *.
  - by injection H.
  - injection H as <- _. done.
  - injection H as -> _. done.
  - injection H as -> H. bool_simpl. destruct (IH s2) as [-> ->]; done.
Qed.

Definition octet (a : Z) : Prop := (0 <= a < 256)%Z.

Lemma octet_no_dot a : octet a → no_dot (pretty a) = true.
Proof.
  intros Ha. assert (forallb (λ n, no_dot (pretty (Z.of_nat n))) (seq 0 256) = true) as H
    by (vm_compute; reflexivity).
  rewrite forallb_forall in H. specialize (H (Z.to_nat a)). unfold octet in Ha.
  rewrite Z2Nat.id in H by lia. apply H, in_seq. lia.
Qed.

Lemma dotted_inj a b c d a' b' c' d' :
  octet a → octet b → octet c → octet a' → octet b' → octet c' →
  dotted a b c d = dotted a' b' c' d' → a = a' ∧ b = b' ∧ c = c' ∧ d = d'.
Proof.
  intros Ha Hb Hc Ha' Hb' Hc' H. unfold dotted in H.
  apply cut_at_dot in H as [H1 H]; [|by apply octet_no_dot..].
  apply cut_at_dot in H as [H2 H]; [|by apply octet_no_dot..].
  apply cut_at_dot in H as [H3 H]; [|by apply octet_no_dot..].
  by apply (inj pretty) in H1, H2, H3, H.
Qed.

(** The header of a frame with its payload. *)
Definition rx_frame_bytes (msg : AudioRXMessage) (payload : list Z) : list Z :=
  [MSG_RX_AUDIO; Channel msg] ++ be32 (SSRC msg) ++ be16 (Seq msg)
  ++ [(SrcIP msg).1.1.1; (SrcIP msg).1.1.2; (SrcIP msg).1.2; (SrcIP msg).2] ++ payload.

Lemma encoded_frame dst msg buf n :
  EncodeAudioRX dst msg = Some (buf, n) →
  n = AudioRXHeaderSize + length (OpusData msg) ∧ length buf = length dst
  ∧ take n buf = rx_frame_bytes msg (take (length dst - AudioRXHeaderSize) (OpusData msg)).
Proof.
  unfold EncodeAudioRX. case_decide as Hl; [done|]. unfold AudioRXHeaderSize in *.
  destruct msg as [ch ssrc sq [[[a b] c] d] opus]. simpl. intros [= <- <-].
  split_and?; [done| |].
  - simpl. rewrite length_app, length_drop, length_take. lia.
  - unfold rx_frame_bytes. simpl. do 12 f_equal. rewrite take_app.
    destruct (decide (length opus ≤ length dst - 12)).
    + rewrite (take_ge opus (length dst - 12)) by lia.
      by rewrite take_ge, Nat.sub_diag, app_nil_r by lia.
    + rewrite (drop_ge dst) by (rewrite length_take; lia).
      by rewrite take_nil, app_nil_r, take_ge by (rewrite length_take; lia).
Qed.

Lemma encoded_some dst msg :
  AudioRXHeaderSize ≤ length dst ↔ is_Some (EncodeAudioRX dst msg).
Proof.
  unfold EncodeAudioRX. case_decide; [split; [lia|by intros [? ?]]|].
  destruct (SrcIP msg) as [[[a b] c] d]. split; [by eexists|lia].
Qed.

(** ** Properties *)

(** C6: the two ends of the protocol agree.  A frame the server encodes into a
    buffer that holds it reaches [onRxAudio] with its channel, its payload and
    its source address as a dotted quad, whatever the buffer held before, and a
    frame without payload is dropped; two sources have the same text only if
    they are the same address.  Encoding into a shorter buffer panics exactly
    when the header does not fit, and otherwise sends the part of the payload
    that fits, never anything else.  What the page sends decodes in the server
    to the channel and switch position that were meant, and to the encoded
    audio. *)
Theorem ws_protocol_agrees (s : ws_state) (dst : list Z) (msg : AudioRXMessage)
    (type ch : Z) (on : bool) (encoded : list Z) (a b c d a' b' c' d' : Z) :
  (EncodeAudioRX dst msg = None ↔ length dst < AudioRXHeaderSize)
  ∧ (∀ buf n, EncodeAudioRX dst msg = Some (buf, n) →
       let opus := take (length dst - AudioRXHeaderSize) (OpusData msg) in
       (AudioRXHeaderSize + length (OpusData msg) ≤ length dst → opus = OpusData msg)
       ∧ length buf = length dst
       ∧ n = AudioRXHeaderSize + length (OpusData msg)
       ∧ out (on_message (ArrayBuffer (take n buf)) s)
         = out s ++ (if rxAudio (cbs s) && bool_decide (opus ≠ [])
                     then [RxAudio (Channel msg)
                             (dotted (SrcIP msg).1.1.1 (SrcIP msg).1.1.2 (SrcIP msg).1.2 (SrcIP msg).2)
                             opus]
                     else []))
  ∧ (octet a → octet b → octet c → octet a' → octet b' → octet c' →
     dotted a b c d = dotted a' b' c' d' → (a, b, c, d) = (a', b', c', d'))
  ∧ (octet ch → DecodeToggle (toggle_bytes type ch on) = Some (ch, on))
  ∧ ExtractAudioTXPayload (tx_frame encoded) = (if encoded is [] then None else Some encoded).
Proof.
  split_and?.
  - rewrite eq_None_not_Some, <- encoded_some. lia.
  - intros buf n (Hn & Hlen & Hf)%encoded_frame opus.
    split_and?; [intros; apply take_ge; lia|done|done|]. rewrite Hf. fold opus.
    simpl. unfold parse_rx. simpl. clear Hf. destruct opus as [|x opus].
    + rewrite decide_False by (simpl; lia). simpl. by rewrite andb_false_r, app_nil_r.
    + rewrite decide_True by (split; [done|simpl; lia]). simpl.
      rewrite andb_true_r.
      destruct (rxAudio (cbs s)); simpl; by rewrite ?app_nil_r.
  - intros Ha Hb Hc Ha' Hb' Hc' H.
    by destruct (dotted_inj a b c d a' b' c' d' Ha Hb Hc Ha' Hb' Hc' H) as (-> & -> & -> & ->).
  - intros [H1 H2]. unfold toggle_bytes, uint8. simpl. rewrite (Z.mod_small ch) by lia.
    by destruct on.
  - destruct encoded; [done|]. unfold ExtractAudioTXPayload, tx_frame. simpl. done.
Qed.

(** C7: whatever the consumer and the browser do, in whatever order, at most one
    socket is connecting or open, and it is the one frames are sent on; and a
    module that was not disconnected never gets stuck without a connection: once
    its current socket has closed, the timer brings up a new one. *)
Theorem ws_one_connection https host s :
  rtc (step https host) ws_init s →
  (∀ i k, sockets s !! i = Some k → live (readyState k) = true → ws s = Some i)
  ∧ (∀ data, send data s ≠ s → ∃ i, ws s = Some i ∧ ready_is (λ r, bool_decide (r = OPEN)) i s = true
       ∧ out (send data s) = out s ++ [SentTo i data])
  ∧ (∀ i, ws s = Some i → is_live s = false →
       ∃ es s', es ∈ [[ETimer]; [EClosed i; ETimer]] ∧ run https host es s = Some s'
         ∧ is_live s' = true).
Proof.
  intros Hi%ws_inv_reachable. split_and?; [apply Hi| |].
  - intros data. unfold send, isOpen, current. destruct (ws s) as [i|] eqn:Hw; [|done]. simpl.
    unfold ready_is. destruct (sockets s !! i) as [k|] eqn:Hk; simpl; [|done].
    destruct (bool_decide (readyState k = OPEN)) eqn:Ho; [|done]. intros _. exists i. by rewrite Hk.
  - intros i Hw Hl.
    assert (∀ s', is_live (connect https host s') = true) as Hc.
    { intros s'. destruct (is_live s') eqn:Hl'; [by unfold connect; rewrite Hl'|].
      destruct (connect_fields https host s' Hl') as (k & Hr & _ & Hs & Hw' & _).
      apply is_live_spec. exists (length (sockets s')), k.
      rewrite Hw', Hs, lookup_app_r, Nat.sub_diag by lia. by rewrite Hr. }
    destruct (proj2 Hi i Hw) as (k & Hk & Ho & Ht).
    unfold is_live, current in Hl. rewrite Hw in Hl. simpl in Hl. rewrite Hk in Hl.
    destruct (readyState k) eqn:Hr; [done|done| |].
    + eexists [EClosed i; ETimer], _. split; [set_solver|]. simpl.
      unfold ready_is. rewrite Hk, Hr. simpl. unfold handler. rewrite Hk, Ho.
      destruct (on_close_fields (moves CLOSED i s)) as (_ & _ & ->). split; [done|apply Hc].
    + eexists [ETimer], _. split; [set_solver|]. simpl. rewrite Ht by done.
      split; [done|apply Hc].
Qed.

Lemma down_fire https host n e s :
  down n s → enabled e s = true → passive e = true →
  down n (fire https host e s)
  ∧ ∃ os, out (fire https host e s) = out s ++ os ∧ Forall quiet os.
Proof.
  intros (Hn & Hw & Ht & Hk) He Hp.
  assert (∀ P i, ready_is P i s = true → (∀ r, P r = true → live r = true) → False) as Hdead.
  { intros P i (k & Hki & Hr)%ready_is_spec HP. apply Hk in Hki as [Hl _].
    by rewrite (HP _ Hr) in Hl. }
  destruct e as [c| | |data|i|i|i|i|i data|]; simpl in *; try done.
  - unfold send. rewrite Hw. split; [done|]. exists []. by rewrite app_nil_r.
  - exfalso. eapply Hdead; [exact He|]. intros r Hr. by apply bool_decide_eq_true in Hr as ->.
  - exfalso. by eapply Hdead.
  - apply ready_is_spec in He as (k & Hki & Hr%negb_true_iff%bool_decide_eq_false).
    unfold handler. rewrite Hki. destruct (Hk i k Hki) as [_ [Hb|Ho]]; [done|]. rewrite Ho.
    split; [|exists []; by rewrite app_nil_r].
    unfold down. split_and?; [simpl; by rewrite length_alter|done|done|].
    intros j k' Hj. rewrite moves_lookup in Hj. case_decide; [|by apply (Hk j)].
    rewrite Hki in Hj. injection Hj as <-. split; [done|by left].
  - destruct (handler onerror i s); [|split; [done|exists []; by rewrite app_nil_r]].
    split; [done|]. unfold on_error. simpl. destruct (logged (cbs s)), (error (cbs s)); simpl.
    + eexists [_; _]. rewrite <- app_assoc. split; [done|by repeat constructor].
    + eexists [_]. split; [done|by repeat constructor].
    + eexists [_]. split; [done|by repeat constructor].
    + exists []. by rewrite app_nil_r.
  - exfalso. eapply Hdead; [exact He|]. intros r Hr. by apply bool_decide_eq_true in Hr as ->.
  - congruence.
Qed.

Lemma down_run https host n es s s' :
  down n s → Forall (λ e, passive e = true) es → run https host es s = Some s' →
  down n s' ∧ ∃ os, out s' = out s ++ os ∧ Forall quiet os.
Proof.
  revert s. induction es as [|e es IH]; intros s Hd Hp Hr; simpl in Hr.
  { injection Hr as <-. split; [done|]. exists []. by rewrite app_nil_r. }
  apply Forall_cons in Hp as [Hpe Hp]. destruct (enabled e s) eqn:He; [|done].
  destruct (down_fire https host n e s Hd He Hpe) as [Hd' (os1 & Ho1 & Hq1)].
  destruct (IH _ Hd' Hp Hr) as [Hd2 (os2 & Ho2 & Hq2)]. split; [done|].
  exists (os1 ++ os2). rewrite Ho2, Ho1, <- app_assoc. split; [done|by apply Forall_app].
Qed.

Lemma disconnect_down s :
  ws_inv s → settled s → down (length (sockets s)) (disconnect s) ∧ out (disconnect s) = out s.
Proof.
  intros Hi Hset. pose proof (disconnect_timer s) as Ht.
  destruct (settled_disconnect s Hset) as [Hs Hw]. unfold down.
  assert (length (sockets (disconnect s)) = length (sockets s) ∧ out (disconnect s) = out s) as [Hlen Ho].
  { unfold disconnect. by destruct (reconnectTimer s); simpl; destruct (ws s); simpl;
      rewrite ?length_alter. }
  split_and?; [done|done|done| |done]. intros i k Hk.
  assert (live (readyState k) = false) as Hl.
  { destruct (live (readyState k)) eqn:Hl; [|done].
    pose proof (ws_inv_fire false "" EDisconnect s Hi eq_refl) as [H1 _].
    pose proof (H1 i k Hk Hl) as Hw'. simpl in Hw'. congruence. }
  split; [done|]. destruct (decide (readyState k = CLOSED)) as [?|Hne]; [by left|right].
  eapply Hs; [done|congruence|done].
Qed.

(** C8: as the comms page uses the module (callbacks registered, then one
    connect per mount), the status it was last told is the state of the socket,
    a reconnect is only pending while the socket is closed, and after disconnect
    nothing that the browser still delivers opens a socket, reports a status,
    plays audio or sends. *)
Theorem ws_page_contract https host s :
  rtc (page_step https host) ws_init s →
  (∀ k, current s = Some k → status_ok (readyState k) (last_status (out s)))
  ∧ (reconnectTimer s = true → ∃ k, current s = Some k ∧ readyState k = CLOSED)
  ∧ (∀ es s', Forall (λ e, passive e = true) es →
       run https host es (fire https host EDisconnect s) = Some s' →
       length (sockets s') = length (sockets s) ∧ ws s' = None ∧ reconnectTimer s' = false
       ∧ ∃ os, out s' = out s ++ os ∧ Forall quiet os).
Proof.
  intros (Hi & Hset & Ht & Hst)%page_inv_reachable. split_and?; [apply Hst|done|].
  intros es s' Hp Hr. destruct (disconnect_down s Hi Hset) as [Hd Ho].
  destruct (down_run _ _ _ _ _ _ Hd Hp Hr) as [(H1 & H2 & H3 & _) (os & Hos & Hq)].
  split_and?; [done|done|done|]. exists os. by rewrite Hos, <- Ho.
Qed.

(** ** Witnesses and what the page's discipline excludes *)

Definition all_callbacks := Build_callbacks true true true true.
Definition rx_msg : AudioRXMessage := Build_AudioRXMessage 3 77 9 (10, 41, 0, 2)%Z [1; 2; 3]%Z.

Lemma ws_protocol_agrees_witness :
  let buf := default [] (fst <$> EncodeAudioRX (replicate 20 255%Z) rx_msg) in
  out (on_message (ArrayBuffer (take 15 buf)) (setCallbacks all_callbacks ws_init))
    = [RxAudio 3 "10.41.0.2" [1; 2; 3]%Z]
  ∧ DecodeToggle (toggle_bytes MSG_TX_TOGGLE 4 true) = Some (4%Z, true).
Proof.
  intros buf.
  destruct (ws_protocol_agrees (setCallbacks all_callbacks ws_init) (replicate 20 255%Z) rx_msg
    MSG_TX_TOGGLE 4 true [] 1 2 3 4 1 2 3 4) as (_ & H1 & _ & H3 & _).
  split; [|apply H3; unfold octet; lia].
  destruct (H1 buf 15 eq_refl) as (_ & _ & _ & H). exact H.
Defined.

Lemma run_rtc https host es s s' : run https host es s = Some s' → rtc (step https host) s s'.
Proof.
  revert s. induction es as [|e es IH]; simpl; intros s H; [by simplify_eq|].
  destruct (enabled e s) eqn:He; [|done]. eapply rtc_l; [by exists e|by apply IH].
Qed.

Lemma ws_one_connection_witness :
  ∃ s, run true "node" [EConnect; EOpened 0; EClosing 0] ws_init = Some s
  ∧ ∃ es s', es ∈ [[ETimer]; [EClosed 0; ETimer]] ∧ run true "node" es s = Some s'
      ∧ is_live s' = true.
Proof.
  eexists. split; [reflexivity|].
  eapply (ws_one_connection true "node"); [|reflexivity|reflexivity].
  apply (run_rtc true "node" [EConnect; EOpened 0; EClosing 0]). reflexivity.
Defined.

Lemma ws_page_contract_witness :
  ∃ s, rtc (page_step true "node") ws_init s ∧ isOpen s = true
  ∧ last_status (out s) = Some Connected
  ∧ ∀ s', run true "node" [EClosed 0] (fire true "node" EDisconnect s) = Some s' → ws s' = None.
Proof.
  assert (rtc (page_step true "node") ws_init
    (fire true "node" (EOpened 0) (fire true "node" EConnect
       (fire true "node" (ESetCallbacks all_callbacks) ws_init)))) as H.
  { eapply rtc_l; [exists (ESetCallbacks all_callbacks); split_and?; [reflexivity|exact eq_refl|reflexivity]|].
    eapply rtc_l; [exists EConnect; split_and?; [reflexivity|exact (conj eq_refl eq_refl)|reflexivity]|].
    eapply rtc_l; [exists (EOpened 0); split_and?; [reflexivity|exact I|reflexivity]|].
    apply rtc_refl. }
  eexists. split; [exact H|]. destruct (ws_page_contract true "node" _ H) as (H1 & _ & H3).
  split; [reflexivity|]. split; [apply (H1 _ eq_refl)|].
  intros s' Hr. by apply (H3 [EClosed 0] s'); [repeat constructor|].
Defined.

(** Connecting while the old socket is closing leaves that socket's [onclose] in
    place: it reports a disconnection over an open connection, and it revives a
    module that was disconnected on purpose. *)
Theorem ws_connect_while_closing :
  (∃ s, run true "node" [ESetCallbacks all_callbacks; EConnect; EOpened 0; EClosing 0; EConnect;
                         EOpened 1; EClosed 0] ws_init = Some s
     ∧ isOpen s = true ∧ last_status (out s) = Some Disconnected)
  ∧ (∃ s, run true "node" [EConnect; EOpened 0; EClosing 0; EConnect; EDisconnect; EClosed 0;
                           ETimer] ws_init = Some s
       ∧ is_live s = true).
Proof. split; eexists; (split; [vm_compute; reflexivity|]); repeat split. Qed.
