(* ===== verification/Sparkline.v ===== *)
(** [services/sparklineStore.js]: the rolling sample history behind the charts,
    a map from keys to a window of samples and a set of listeners. *)
From S2P Require Import Prelude.

Record series (V : Type) := { samples : list V; listeners : list nat }.
Arguments Build_series {V}. Arguments samples {V}. Arguments listeners {V}.

Section Spark.
Context {V : Type} (zero : V) (is_finite : V → bool).
Implicit Types (st : gmap string (series V)) (called : list nat).

Definition ensure (key : string) st : series V * gmap string (series V) :=
  match st !! key with
  | Some s => (s, st)
  | None => let s := Build_series [] [] in (s, <[key := s]> st)
  end.

(** [notify(s)] over a copy of the set; a listener that throws is skipped. *)
Definition notify (s : series V) called : list nat := called ++ listeners s.

(** [samples.length >= cap ? [...samples.slice(samples.length - cap + 1), v]
    : [...samples, v]]. *)
Definition next_samples (old : list V) (numeric : V) (cap : nat) : list V :=
  if decide (cap ≤ length old) then drop (length old - cap + 1) old ++ [numeric]
  else old ++ [numeric].

Definition pushSparklineSample (key : string) (value : V) (cap : nat)
    (w : gmap string (series V) * list nat) : gmap string (series V) * list nat :=
  let '(s, st) := ensure key w.1 in
  let numeric := if is_finite value then value else zero in
  let s' := Build_series (next_samples (samples s) numeric cap) (listeners s) in
  (<[key := s']> st, notify s' w.2).

Definition getSparklineSamples (key : string) (w : gmap string (series V) * list nat) : list V :=
  samples (ensure key w.1).1.

(** The subscription of [useSparklineSamples] and its cleanup. *)
Definition addListener (key : string) (cb : nat) (w : gmap string (series V) * list nat) :
    gmap string (series V) * list nat :=
  let '(s, st) := ensure key w.1 in
  (<[key := Build_series (samples s)
              (if decide (cb ∈ listeners s) then listeners s else listeners s ++ [cb])]> st, w.2).

Definition removeListener (key : string) (cb : nat) (w : gmap string (series V) * list nat) :
    gmap string (series V) * list nat :=
  match w.1 !! key with
  | None => w
  | Some s => (<[key := Build_series (samples s) (filter (λ x, x ≠ cb) (listeners s))]> w.1, w.2)
  end.

Definition resetSparklineSeries (key : string) (w : gmap string (series V) * list nat) :
    gmap string (series V) * list nat :=
  match w.1 !! key with
  | None => w
  | Some s => let s' := Build_series [] (listeners s) in (<[key := s']> w.1, notify s' w.2)
  end.

Inductive spark_op :=
| Push (key : string) (value : V) (cap : nat)
| Listen (key : string) (cb : nat)
| Unlisten (key : string) (cb : nat)
| Reset (key : string).

Definition spark_step (w : gmap string (series V) * list nat) (o : spark_op) :
    gmap string (series V) * list nat :=
  match o with
  | Push key value cap => pushSparklineSample key value cap w
  | Listen key cb => addListener key cb w
  | Unlisten key cb => removeListener key cb w
  | Reset key => resetSparklineSeries key w
  end.

Definition coerce (v : V) : V := if is_finite v then v else zero.

(** What was pushed to [key] since it was last reset. *)
Fixpoint history (key : string) (h : list V) (os : list spark_op) : list V :=
  match os with
  | [] => h
  | Push k v _ :: os' => history key (if decide (k = key) then h ++ [coerce v] else h) os'
  | Reset k :: os' => history key (if decide (k = key) then [] else h) os'
  | _ :: os' => history key h os'
  end.

Definition caps_are (key : string) (cap : nat) (os : list spark_op) : Prop :=
  Forall (λ o, match o with Push k _ c => k = key → c = cap | _ => True end) os.

Lemma next_samples_last old v cap :
  next_samples old v (S cap) = last_n (S cap) (old ++ [v]).
Proof.
  unfold next_samples, last_n. rewrite length_app. simpl. case_decide.
  - rewrite <- drop_app_le by lia. f_equal. lia.
  - by replace (length old + 1 - S cap) with 0 by lia.
Qed.

Lemma ensure_lookup key st :
  ensure key st = (default (Build_series [] []) (st !! key),
                   <[key := default (Build_series [] []) (st !! key)]> st).
Proof. unfold ensure. destruct (st !! key) eqn:E; simpl; [by rewrite insert_id|done]. Qed.

Lemma get_insert key k s st called :
  getSparklineSamples key (<[k := s]> st, called)
  = if decide (k = key) then samples s else getSparklineSamples key (st, called).
Proof.
  unfold getSparklineSamples. rewrite !ensure_lookup. simpl. rewrite lookup_insert.
  by case_decide.
Qed.

Lemma spark_step_samples key cap (w : gmap string (series V) * list nat) o h :
  (∀ v c, o = Push key v c → c = S cap) →
  getSparklineSamples key w = last_n (S cap) h →
  getSparklineSamples key (spark_step w o) = last_n (S cap) (history key h [o]).
Proof.
  destruct w as [st called]. intros Hc Hw.
  assert (Hget : ∀ k, samples (default (Build_series [] []) (st !! k))
    = getSparklineSamples k (st, called))
    by (intros k; unfold getSparklineSamples; by rewrite ensure_lookup).
  destruct o as [k v c|k cb|k cb|k]; simpl.
  - unfold pushSparklineSample. rewrite ensure_lookup. simpl. rewrite !get_insert. simpl.
    case_decide as Hk; [|done]. subst k. rewrite (Hc v c eq_refl), Hget, Hw, next_samples_last.
    apply last_n_snoc_trim.
  - unfold addListener. rewrite ensure_lookup. simpl. rewrite !get_insert. simpl.
    case_decide; [subst; by rewrite Hget|done].
  - unfold removeListener. simpl. destruct (st !! k) as [s|] eqn:Hs; [|done].
    rewrite get_insert. simpl. case_decide; [subst|done]. specialize (Hget key).
    rewrite Hs in Hget. simpl in Hget. congruence.
  - unfold resetSparklineSeries. simpl. destruct (st !! k) as [s|] eqn:Hs; simpl.
    + rewrite get_insert. simpl. by case_decide.
    + case_decide; [subst|done]. specialize (Hget key). rewrite Hs in Hget. by rewrite <- Hget.
Qed.

(** A chart that always pushes with the same capacity shows, after any
    operations on any series, exactly the last samples pushed to it since its
    last reset (non-finite ones as zero), never more than the capacity; and a
    push calls each listener of that series once, and no other. *)
Theorem spark_window (key : string) (cap : nat) (os : list spark_op) :
  0 < cap → caps_are key cap os →
  let w := foldl spark_step (∅, []) os in
  getSparklineSamples key w = last_n cap (history key [] os)
  ∧ length (getSparklineSamples key w) ≤ cap
  ∧ ∀ v c, (pushSparklineSample key v c w).2
      = w.2 ++ default [] (listeners <$> (w.1 !! key)).
Proof.
  intros Hpos Hcaps w. destruct cap as [|cap]; [lia|].
  assert (getSparklineSamples key w = last_n (S cap) (history key [] os)) as Hw.
  { assert (∀ os0 w0 h, caps_are key (S cap) os0 → getSparklineSamples key w0 = last_n (S cap) h →
      getSparklineSamples key (foldl spark_step w0 os0) = last_n (S cap) (history key h os0)) as H.
    { induction os0 as [|o os0 IH]; intros w0 h Hc H0; [done|].
      apply Forall_cons in Hc as [Ho Hc]. cbn [foldl].
      rewrite (IH _ (history key h [o]) Hc); [by destruct o|].
      apply spark_step_samples; [|done]. intros v c ->. by apply Ho. }
    by apply H. }
  split_and?; [done|rewrite Hw, last_n_length; lia|].
  intros v c. unfold pushSparklineSample. rewrite ensure_lookup. simpl. unfold notify. simpl.
  by destruct (w.1 !! key).
Qed.
End Spark.
Arguments spark_op V : clear implicits.

(** A capacity of 0 keeps one sample. *)
Lemma next_samples_cap_zero {V} (old : list V) v : next_samples old v 0 = [v].
Proof. unfold next_samples. rewrite decide_True by lia. by rewrite drop_ge by lia. Qed.

Definition spark_ops : list (spark_op Z) :=
  [Listen "rx" 4; Push "rx" 1%Z 2; Push "rx" (-1)%Z 2; Push "tx" 9%Z 5; Push "rx" 3%Z 2].

Lemma spark_window_witness :
  let w := foldl (spark_step 0%Z (λ z, bool_decide (0 ≤ z)%Z)) (∅, []) spark_ops in
  getSparklineSamples "rx" w = [0; 3]%Z ∧ (pushSparklineSample 0%Z (λ _, true) "rx" 8%Z 2 w).2 = [4; 4; 4; 4].
Proof.
  split; [|reflexivity].
  destruct (spark_window 0%Z (λ z, bool_decide (0 ≤ z)%Z) "rx" 2 spark_ops) as (-> & _ & _).
  - lia.
  - unfold caps_are, spark_ops. repeat constructor; intros; congruence.
  - reflexivity.
Defined.
