(* ===== verification/AudioTx.v ===== *)
(** The transmit path: the microphone part of [services/audioEngine.js]
    ([startMic], [startMicMonitor], [stopMic]) and [services/audioFileTx.js].

    [getUserMedia] is asynchronous: a start that needs a new stream leaves an
    acquisition pending, which the environment resolves (with a stream) or
    rejects later.  [recording] is the set of streams whose tracks run, which is
    what the browser's recording indicator shows. *)
From S2P Require Import Prelude Constants.

(** ** The microphone *)

Inductive mic_mode := Encode | Meter.
#[export] Instance mic_mode_eq_dec : EqDecision mic_mode.
Proof. solve_decision. Defined.

(** Whose callback [_onEncodedChunk] is: the push-to-talk page's or the file
    transmitter's. *)
Inductive chunk_cb := PttChunk | FileChunk.
#[export] Instance chunk_cb_eq_dec : EqDecision chunk_cb.
Proof. solve_decision. Defined.

(** [micGainNode], [micSource], [micSilentGain] and [micLimiter] are created and
    dropped with [micProcessor]; [micProcessor] is what its callback does. *)
Record mic_state := mk_mic {
  audioCtx : bool;
  mediaDevices : bool;
  micStream : option nat;
  micProcessor : option mic_mode;
  onEncodedChunk : option chunk_cb;
  pending : list mic_mode;        (* getUserMedia calls not settled *)
  recording : list nat;
  nextStream : nat;
  selectedMicId : string;
  micGain : Z;                    (* percent; the code divides by 100 *)
  micErrors : nat                 (* error lines logged *)
}.

Definition mic_init (ctx devices : bool) : mic_state :=
  mk_mic ctx devices None None None [] [] 0 "" 80 0.

Definition initCtx (m : mic_state) : mic_state :=
  mk_mic true (mediaDevices m) (micStream m) (micProcessor m) (onEncodedChunk m) (pending m)
    (recording m) (nextStream m) (selectedMicId m) (micGain m) (micErrors m).

Definition setEncoderCallback (cb : chunk_cb) (m : mic_state) : mic_state :=
  mk_mic (audioCtx m) (mediaDevices m) (micStream m) (micProcessor m) (Some cb) (pending m)
    (recording m) (nextStream m) (selectedMicId m) (micGain m) (micErrors m).

Definition clearEncoderCallback (m : mic_state) : mic_state :=
  mk_mic (audioCtx m) (mediaDevices m) (micStream m) (micProcessor m) None (pending m)
    (recording m) (nextStream m) (selectedMicId m) (micGain m) (micErrors m).

Definition setMicDevice (deviceId : string) (m : mic_state) : mic_state :=
  mk_mic (audioCtx m) (mediaDevices m) (micStream m) (micProcessor m) (onEncodedChunk m)
    (pending m) (recording m) (nextStream m) deviceId (micGain m) (micErrors m).

Definition setMicGain (value : Z) (m : mic_state) : mic_state :=
  mk_mic (audioCtx m) (mediaDevices m) (micStream m) (micProcessor m) (onEncodedChunk m)
    (pending m) (recording m) (nextStream m) (selectedMicId m) value (micErrors m).

Definition set_processor (p : option mic_mode) (m : mic_state) : mic_state :=
  mk_mic (audioCtx m) (mediaDevices m) (micStream m) p (onEncodedChunk m) (pending m)
    (recording m) (nextStream m) (selectedMicId m) (micGain m) (micErrors m).

Definition acquire (mode : mic_mode) (m : mic_state) : mic_state :=
  mk_mic (audioCtx m) (mediaDevices m) (micStream m) (micProcessor m) (onEncodedChunk m)
    (pending m ++ [mode]) (recording m) (nextStream m) (selectedMicId m) (micGain m) (micErrors m).

Definition mic_error (m : mic_state) : mic_state :=
  mk_mic (audioCtx m) (mediaDevices m) (micStream m) (micProcessor m) (onEncodedChunk m)
    (pending m) (recording m) (nextStream m) (selectedMicId m) (micGain m) (S (micErrors m)).

(** [startMic(onEncodedChunk, ...)] up to its await. *)
Definition startMic (cb : chunk_cb) (m : mic_state) : mic_state :=
  let m1 := setEncoderCallback cb m in
  match micStream m1 with
  | Some _ =>
      match micProcessor m1 with
      | Some _ => set_processor (Some Encode) m1
      | None => m1
      end
  | None => if mediaDevices m1 then acquire Encode m1 else mic_error m1
  end.

(** [startMicMonitor(...)] up to its await. *)
Definition startMicMonitor (m : mic_state) : mic_state :=
  match micStream m with
  | Some _ => m
  | None =>
      if mediaDevices m then if audioCtx m then acquire Meter m else m else m
  end.

Definition drop_pending (k : nat) (m : mic_state) : mic_state :=
  mk_mic (audioCtx m) (mediaDevices m) (micStream m) (micProcessor m) (onEncodedChunk m)
    (delete k (pending m)) (recording m) (nextStream m) (selectedMicId m) (micGain m) (micErrors m).

(** The [k]-th pending [getUserMedia] resolves with a new stream: the rest of
    the function that awaited it runs.  Without an AudioContext the first node
    throws, after [micStream] was assigned. *)
Definition mic_resolved (k : nat) (m : mic_state) : mic_state :=
  match pending m !! k with
  | None => m
  | Some mode =>
      let id := nextStream m in
      let m1 := mk_mic (audioCtx m) (mediaDevices m) (Some id) (micProcessor m)
        (onEncodedChunk m) (delete k (pending m)) (recording m ++ [id]) (S id)
        (selectedMicId m) (micGain m) (micErrors m) in
      if audioCtx m then set_processor (Some mode) m1 else mic_error m1
  end.

Definition mic_rejected (k : nat) (m : mic_state) : mic_state := mic_error (drop_pending k m).

Definition stopMic (m : mic_state) : mic_state :=
  let m1 := set_processor None (clearEncoderCallback m) in
  match micStream m1 with
  | None => m1
  | Some id =>
      mk_mic (audioCtx m1) (mediaDevices m1) None None (onEncodedChunk m1) (pending m1)
        (filter (λ i, i ≠ id) (recording m1)) (nextStream m1) (selectedMicId m1) (micGain m1)
        (micErrors m1)
  end.

Definition isMicActive (m : mic_state) : bool := bool_decide (micStream m ≠ None).

(** [getMicConstraints().deviceId]. *)
Definition mic_deviceId (m : mic_state) : option string :=
  if decide (selectedMicId m = ""%string) then None else Some (selectedMicId m).

Inductive mic_call :=
| StartMic | StartMonitor | StopMic | GotStream (k : nat) | NoStream (k : nat).

Definition mic_fire (c : mic_call) (m : mic_state) : mic_state :=
  match c with
  | StartMic => startMic PttChunk m
  | StartMonitor => startMicMonitor m
  | StopMic => stopMic m
  | GotStream k => mic_resolved k m
  | NoStream k => mic_rejected k m
  end.

Definition mic_enabled (c : mic_call) (m : mic_state) : bool :=
  match c with
  | GotStream k | NoStream k => bool_decide (k < length (pending m))
  | _ => true
  end.

(** Nothing is called while an acquisition is pending. *)
Definition mic_calm (c : mic_call) (m : mic_state) : bool :=
  match c with
  | GotStream _ | NoStream _ => true
  | _ => bool_decide (pending m = [])
  end.

Fixpoint mic_run (cs : list mic_call) (m : mic_state) : option mic_state :=
  match cs with
  | [] => Some m
  | c :: cs' => if mic_enabled c m then mic_run cs' (mic_fire c m) else None
  end.

Definition mic_step (m m' : mic_state) : Prop := ∃ c, mic_enabled c m = true ∧ m' = mic_fire c m.
Definition mic_calm_step (m m' : mic_state) : Prop :=
  ∃ c, mic_enabled c m = true ∧ mic_calm c m = true ∧ m' = mic_fire c m.

(** Streams are numbered as they come; the current one records. *)
Definition mic_inv (m : mic_state) : Prop :=
  NoDup (recording m)
  ∧ Forall (λ i, i < nextStream m) (recording m)
  ∧ (∀ i, micStream m = Some i → i ∈ recording m)
  ∧ (micProcessor m ≠ None → micStream m ≠ None).

Definition mic_calm_inv (m : mic_state) : Prop :=
  recording m = option_list (micStream m)
  ∧ length (pending m) ≤ 1 ∧ (pending m ≠ [] → micStream m = None)
  ∧ (audioCtx m = true → micStream m ≠ None → micProcessor m ≠ None)
  ∧ (micProcessor m ≠ None → micStream m ≠ None).

(** ** File transmission *)

(** A source started by [startPlayback]: whether it loops, and whether its
    capture node is still connected. *)
Record file_source := { f_loop : bool; f_connected : bool; f_ended : bool }.

Record file_state := mk_file {
  filePlaying : bool;
  current : option nat;            (* sourceNode, captureNode and silentGain *)
  f_txTimestamp : Z;               (* in units of 1/48000 s; the code uses us *)
  sources : list file_source;
  encoded : list (nat * Z * Z)     (* source, timestamp, samples *)
}.

Definition file_init : file_state := mk_file false None 0 [] [].

Definition disconnect_source (k : file_source) : file_source :=
  {| f_loop := f_loop k; f_connected := false; f_ended := f_ended k |}.

Definition stopPlayback (f : file_state) : file_state :=
  match current f with
  | Some i =>
      mk_file false None (f_txTimestamp f) (alter disconnect_source i (sources f)) (encoded f)
  | None => mk_file false None (f_txTimestamp f) (sources f) (encoded f)
  end.

(** [startPlayback] with a buffer, a working encoder and a context. *)
Definition startPlayback (loop : bool) (f : file_state) : file_state :=
  mk_file true (Some (length (sources f))) 0
    (sources f ++ [{| f_loop := loop; f_connected := true; f_ended := false |}]) (encoded f).

(** [captureNode.onaudioprocess] of source [i] with [n] samples. *)
Definition capture (i : nat) (n : Z) (f : file_state) : file_state :=
  if filePlaying f then
    mk_file (filePlaying f) (current f) (f_txTimestamp f + n) (sources f)
      (encoded f ++ [(i, f_txTimestamp f, n)])
  else f.

(** [sourceNode.onended] of source [i], fired once, after it ran out or was
    stopped. *)
Definition onended (i : nat) (f : file_state) : file_state :=
  let f1 := mk_file (filePlaying f) (current f) (f_txTimestamp f)
    (alter (λ k, {| f_loop := f_loop k; f_connected := f_connected k; f_ended := true |}) i (sources f))
    (encoded f) in
  match sources f !! i with
  | Some k => if negb (f_loop k) && filePlaying f then stopPlayback f1 else f1
  | None => f1
  end.

Definition isPlaying (f : file_state) : bool := filePlaying f.

Inductive file_event :=
| FStart (loop : bool) | FStop | FCapture (i : nat) (n : Z) | FEnded (i : nat).

Definition file_fire (e : file_event) (f : file_state) : file_state :=
  match e with
  | FStart loop => startPlayback loop f
  | FStop => stopPlayback f
  | FCapture i n => capture i n f
  | FEnded i => onended i f
  end.

(** A disconnected capture node is silent, and [onended] comes once. *)
Definition file_enabled (e : file_event) (f : file_state) : bool :=
  match e with
  | FCapture i n => match sources f !! i with Some k => f_connected k | None => false end
  | FEnded i => match sources f !! i with Some k => negb (f_ended k) | None => false end
  | _ => true
  end.

(** The page starts a file only when none plays. *)
Definition file_page_ok (e : file_event) (f : file_state) : bool :=
  match e with FStart _ => negb (filePlaying f) | _ => true end.

Fixpoint file_run (es : list file_event) (f : file_state) : option file_state :=
  match es with
  | [] => Some f
  | e :: es' => if file_enabled e f then file_run es' (file_fire e f) else None
  end.

Definition file_step (f f' : file_state) : Prop :=
  ∃ e, file_enabled e f = true ∧ file_page_ok e f = true ∧ f' = file_fire e f.

(** The frames of one source, most recent first, count up from zero. *)
Definition stamps_from (l : list (nat * Z * Z)) (i : nat) : list (Z * Z) :=
  omap (λ x, if decide (x.1.1 = i) then Some (x.1.2, x.2) else None) l.

Fixpoint consecutive (t : Z) (l : list (Z * Z)) : Prop :=
  match l with [] => True | (t', n) :: l' => t' = t ∧ consecutive (t + n) l' end.

Definition total (l : list (Z * Z)) : Z := foldr (λ x a, (x.2 + a)%Z) 0%Z l.

(** ** Lemmas *)

Lemma mic_calm_inv_fire c m :
  mic_calm_inv m → mic_enabled c m = true → mic_calm c m = true → mic_calm_inv (mic_fire c m).
Proof.
  intros (Hr & Hp & Hw & Hc & Hpr) He Hk. unfold mic_calm_inv. destruct c as [| | |k|k]; simpl in *.
  - apply bool_decide_eq_true in Hk. unfold startMic. simpl.
    destruct (micStream m) as [i|] eqn:Hm.
    + destruct (micProcessor m) eqn:Hmp; simpl; rewrite ?Hm, ?Hmp, ?Hk; naive_solver lia.
    + destruct (mediaDevices m); simpl; rewrite ?Hm, ?Hk; simpl; naive_solver lia.
  - apply bool_decide_eq_true in Hk. unfold startMicMonitor.
    destruct (micStream m) as [i|] eqn:Hm; [by rewrite ?Hm|].
    destruct (mediaDevices m), (audioCtx m); simpl; rewrite ?Hm, ?Hk; simpl; naive_solver lia.
  - apply bool_decide_eq_true in Hk. unfold stopMic. simpl.
    destruct (micStream m) as [i|] eqn:Hm; simpl; rewrite ?Hm, Hk, Hr; simpl; [|naive_solver lia].
    rewrite filter_cons_False, filter_nil by naive_solver. naive_solver lia.
  - apply bool_decide_eq_true in He. unfold mic_resolved.
    destruct (pending m) as [|mode [|]] eqn:Hpend; simpl in *; [lia| |lia].
    assert (k = 0) as -> by lia. simpl. rewrite Hw in Hr by done. rewrite Hr.
    destruct (audioCtx m) eqn:Hctx; simpl; rewrite ?Hctx; naive_solver lia.
  - apply bool_decide_eq_true in He. destruct (pending m) as [|mode [|]] eqn:Hpend; simpl in *; [lia| |lia].
    assert (k = 0) as -> by lia. simpl. rewrite Hw in * by done. naive_solver lia.
Qed.

Lemma mic_calm_reachable ctx devices m :
  rtc mic_calm_step (mic_init ctx devices) m → mic_calm_inv m.
Proof.
  revert m. apply rtc_ind_r.
  - unfold mic_calm_inv. simpl. naive_solver lia.
  - intros m m' _ (c & He & Hk & ->). by auto using mic_calm_inv_fire.
Qed.

Definition file_inv (f : file_state) : Prop :=
  (filePlaying f = true ↔ current f ≠ None)
  ∧ (∀ i, current f = Some i → i < length (sources f))
  ∧ (∀ i k, sources f !! i = Some k → f_connected k = true → current f = Some i)
  ∧ (∀ i, consecutive 0 (stamps_from (encoded f) i))
  ∧ (∀ i, current f = Some i → total (stamps_from (encoded f) i) = f_txTimestamp f)
  ∧ (∀ i, length (sources f) ≤ i → stamps_from (encoded f) i = []).

Lemma stamps_from_snoc l x i :
  stamps_from (l ++ [x]) i
  = stamps_from l i ++ (if decide (x.1.1 = i) then [(x.1.2, x.2)] else []).
Proof. unfold stamps_from. rewrite omap_app. simpl. by case_decide. Qed.

Lemma consecutive_snoc t l n : consecutive t l → consecutive t (l ++ [((t + total l)%Z, n)]).
Proof.
  revert t. induction l as [|[t' n'] l IH]; intros t; simpl.
  - intros _. split; [lia|done].
  - intros [-> H]. split; [done|]. specialize (IH _ H).
    by replace (t + (n' + total l))%Z with (t + n' + total l)%Z by lia.
Qed.

Lemma total_snoc l x : total (l ++ [x]) = (total l + x.2)%Z.
Proof. unfold total. induction l as [|y l IH]; simpl in *; [lia|]. rewrite IH. lia. Qed.

Lemma file_inv_stop f : file_inv f → file_inv (stopPlayback f).
Proof.
  intros (H1 & H2 & H3 & H4 & H5 & H6). unfold stopPlayback, file_inv.
  destruct (current f) as [i|] eqn:Hc; simpl.
  - split_and?; [naive_solver|done| |done|done|by rewrite length_alter].
    intros j k Hj Hk. rewrite list_lookup_alter in Hj. case_decide as Hij.
    + apply fmap_Some in Hj as (k0 & _ & ->). done.
    + pose proof (H3 _ _ Hj Hk). congruence.
  - split_and?; [naive_solver|done|done|done|done|done].
Qed.

Lemma file_inv_fire e f :
  file_inv f → file_enabled e f = true → file_page_ok e f = true → file_inv (file_fire e f).
Proof.
  intros Hi He Hk. pose proof Hi as (H1 & H2 & H3 & H4 & H5 & H6).
  destruct e as [loop| |i n|i]; simpl in *.
  - apply negb_true_iff in Hk. assert (current f = None) as Hc.
    { destruct (current f); [|done]. destruct H1 as [_ H1]. rewrite H1 in Hk; done. }
    unfold file_inv. simpl. rewrite length_app. simpl. split_and?.
    + naive_solver.
    + intros i [= <-]. lia.
    + intros i k [[_ Hj]|[-> _]]%lookup_snoc_Some Hkc; [|done].
      pose proof (H3 _ _ Hj Hkc). congruence.
    + done.
    + intros i [= <-]. by rewrite H6.
    + intros i Hle. apply H6. lia.
  - by apply file_inv_stop.
  - unfold capture. destruct (filePlaying f) eqn:Hp; [|done].
    destruct (sources f !! i) as [k|] eqn:Hs; [|done]. pose proof (H3 _ _ Hs He) as Hc.
    unfold file_inv. simpl. split_and?; [done|done|done| | |].
    + intros j. rewrite stamps_from_snoc. simpl. case_decide as Hj; [|by rewrite app_nil_r].
      subst j. rewrite <- (H5 i Hc). apply (consecutive_snoc 0). apply H4.
    + intros j Hj. rewrite stamps_from_snoc. simpl. rewrite decide_True by congruence.
      rewrite total_snoc. simpl. rewrite H5 by done. lia.
    + intros j Hle. rewrite stamps_from_snoc, H6 by done. simpl.
      pose proof (lookup_lt_Some _ _ _ Hs). by rewrite decide_False by lia.
  - unfold onended. set (f1 := mk_file _ _ _ _ _).
    assert (file_inv f1) as Hf1.
    { unfold f1, file_inv. simpl. rewrite length_alter. split_and?; [done|done| |done|done|done].
      intros j k Hj Hkc. rewrite list_lookup_alter in Hj. case_decide as Hij; [|by eapply H3].
      subst j. apply fmap_Some in Hj as (k0 & Hk0 & ->). simpl in Hkc. by eapply H3. }
    destruct (sources f !! i) as [k|]; [|done]. by case_match; [apply file_inv_stop|].
Qed.

Lemma file_reachable f : rtc file_step file_init f → file_inv f.
Proof.
  revert f. apply rtc_ind_r.
  - unfold file_inv. simpl. split_and?; try done.
  - intros f f' _ (e & He & Hk & ->). by auto using file_inv_fire.
Qed.

(** ** Properties *)

(** C9: as long as no call is made while [getUserMedia] is pending, the streams
    that record are exactly the one the module holds: the microphone is reported
    active iff something records, a working stream always feeds the encoder or
    the meter, [stopMic] leaves nothing recording, and starting to transmit ends
    with the stream encoding. *)
Theorem mic_tracks_recording ctx devices m :
  rtc mic_calm_step (mic_init ctx devices) m →
  recording m = option_list (micStream m)
  ∧ (audioCtx m = true → isMicActive m = true → micProcessor m ≠ None)
  ∧ (pending m = [] → recording (stopMic m) = [] ∧ isMicActive (stopMic m) = false)
  ∧ (pending m = [] → audioCtx m = true → devices = true →
     let m1 := startMic PttChunk m in
     micProcessor (if decide (pending m1 = []) then m1 else mic_resolved 0 m1) = Some Encode).
Proof.
  intros Hm. assert (mediaDevices m = devices) as Hd.
  { revert m Hm. apply rtc_ind_r; [done|]. intros m m' _ (c & _ & _ & ->) IH.
    rewrite <- IH. clear. destruct c; simpl; unfold startMic, startMicMonitor, stopMic, mic_resolved;
      simpl; by repeat case_match. }
  apply mic_calm_reachable in Hm as (Hr & Hp & Hw & Hc & Hpr). split_and?.
  - done.
  - intros Hctx Ha%bool_decide_eq_true. by apply Hc.
  - intros _. unfold stopMic, isMicActive. simpl.
    destruct (micStream m) as [i|] eqn:Hi; simpl; rewrite ?Hi, Hr; simpl.
    + by rewrite filter_cons_False by naive_solver.
    + done.
  - intros Hpend Hctx ->. unfold startMic. simpl. rewrite Hd.
    destruct (micStream m) as [i|] eqn:Hms.
    + destruct (micProcessor m) eqn:Hmp; [|by destruct Hc].
      simpl. by rewrite decide_True.
    + simpl. rewrite Hpend. simpl. unfold mic_resolved. simpl. rewrite Hpend. simpl. by rewrite Hctx.
Qed.

(** Every file the page transmits is encoded with timestamps that count its
    own samples from zero, only the current file is encoded, and once stopped
    nothing is encoded until the next start. *)
Theorem file_timestamps f :
  rtc file_step file_init f →
  (∀ i, consecutive 0 (stamps_from (encoded f) i))
  ∧ (∀ i n, file_enabled (FCapture i n) f = true → filePlaying f = true ∧ current f = Some i)
  ∧ (filePlaying f = false → ∀ e, file_enabled e f = true → (∀ loop, e ≠ FStart loop) →
     encoded (file_fire e f) = encoded f ∧ isPlaying (file_fire e f) = false).
Proof.
  intros (H1 & H2 & H3 & H4 & _)%file_reachable. split_and?; [done| |].
  - intros i n He. simpl in He. destruct (sources f !! i) as [k|] eqn:Hs; [|done].
    pose proof (H3 _ _ Hs He) as Hc. split; [|done]. apply H1. by rewrite Hc.
  - intros Hp e He Hne. unfold isPlaying. destruct e as [loop| |i n|i]; simpl.
    + by destruct (Hne loop).
    + unfold stopPlayback. by destruct (current f).
    + unfold capture. by rewrite Hp.
    + unfold onended. destruct (sources f !! i); [|done]. by rewrite Hp, andb_false_r.
Qed.

Lemma mic_tracks_recording_witness :
  let m := mic_fire (GotStream 0) (mic_fire StartMonitor (mic_init true true)) in
  recording m = [0] ∧ recording (stopMic m) = [].
Proof.
  intros m. assert (rtc mic_calm_step (mic_init true true) m) as H.
  { eapply rtc_l; [exists StartMonitor; split_and?; reflexivity|].
    eapply rtc_l; [exists (GotStream 0); split_and?; reflexivity|]. apply rtc_refl. }
  destruct (mic_tracks_recording true true m H) as (H1 & _ & H3 & _).
  split; [exact H1|apply H3; reflexivity].
Defined.

Lemma file_timestamps_witness :
  let f := file_fire (FCapture 0 1024) (file_fire (FCapture 0 1024) (file_fire (FStart false) file_init)) in
  encoded f = [(0, 0%Z, 1024%Z); (0, 1024%Z, 1024%Z)] ∧ consecutive 0 (stamps_from (encoded f) 0).
Proof.
  intros f. split; [reflexivity|]. apply (file_timestamps f).
  eapply rtc_l; [exists (FStart false); split_and?; reflexivity|].
  eapply rtc_l; [exists (FCapture 0 1024); split_and?; reflexivity|].
  eapply rtc_l; [exists (FCapture 0 1024); split_and?; reflexivity|]. apply rtc_refl.
Defined.

(** Outside that discipline: a stop during the permission prompt does not cancel
    the acquisition, so the microphone opens after it; and two overlapping
    acquisitions leave a stream recording that no stop releases. *)
Theorem mic_stop_while_pending :
  (∃ m, mic_run [StartMic; StopMic; GotStream 0] (mic_init true true) = Some m
     ∧ recording m = [0] ∧ micProcessor m = Some Encode)
  ∧ (∃ m, mic_run [StartMic; StartMonitor; GotStream 0; GotStream 0; StopMic] (mic_init true true)
            = Some m ∧ recording m = [0] ∧ isMicActive m = false).
Proof. split; eexists; (split; [vm_compute; reflexivity|]); repeat split. Qed.

(** The [onended] of a file that was stopped arrives later and stops the file
    that plays by then. *)
Theorem file_stale_onended :
  ∃ f, file_run [FStart false; FStop; FStart false; FCapture 1 1024; FEnded 0] file_init = Some f
    ∧ filePlaying f = false ∧ f_ended <$> sources f !! 1 = Some false.
Proof. eexists. split; [vm_compute; reflexivity|]. repeat split. Qed.
