(* ===== verification/FilePanel.v ===== *)
(** [components/AudioFileTx.jsx]: the panel that sends an audio file, over the
    service of [AudioTx]; [pages/Comms.jsx] shows it inside the audio section,
    which the operator can collapse.

    [D] is a duration and [toFixed1] its text; a decoded buffer is its duration.
    [ptt] is the last value given to [onPttSet], which keys the radio. *)
From S2P Require Import Prelude AudioTx.
Open Scope js_scope.

Section file_panel.
Context {D : Type} (toFixed1 : D → string).

Record tx_panel := mk_panel {
  fileLoaded : bool; playing : bool; loop : bool; statusText : string;
  audioBuffer : option D;                (* audioBufferRef *)
  polling : bool                         (* pollIdRef *)
}.

Definition AudioFileTxPanel : tx_panel := mk_panel false false false "" None false.

(** The page around it: the panel while it is mounted, and the files being
    decoded, each with whether the panel that asked is still there. *)
Record file_page := mk_page {
  pan : option tx_panel;
  svc : file_state;
  ptt : bool;
  ctx_ready : bool;                      (* getAudioContext() *)
  decodes : list (bool * string);
  file_logs : list string
}.

Definition file_page_init : file_page := mk_page (Some AudioFileTxPanel) file_init false false [] [].

Definition set_pan (p : tx_panel) (w : file_page) : file_page :=
  mk_page (Some p) (svc w) (ptt w) (ctx_ready w) (decodes w) (file_logs w).
Definition set_svc (f : file_state) (w : file_page) : file_page :=
  mk_page (pan w) f (ptt w) (ctx_ready w) (decodes w) (file_logs w).
Definition onPttSet (b : bool) (w : file_page) : file_page :=
  mk_page (pan w) (svc w) b (ctx_ready w) (decodes w) (file_logs w).
Definition set_decodes (l : list (bool * string)) (w : file_page) : file_page :=
  mk_page (pan w) (svc w) (ptt w) (ctx_ready w) l (file_logs w).
Definition onLog (msg : string) (w : file_page) : file_page :=
  mk_page (pan w) (svc w) (ptt w) (ctx_ready w) (decodes w) (file_logs w ++ [msg]).

Definition set_text (t : string) (p : tx_panel) : tx_panel :=
  mk_panel (fileLoaded p) (playing p) (loop p) t (audioBuffer p) (polling p).
Definition set_file (loaded : bool) (t : string) (b : option D) (p : tx_panel) : tx_panel :=
  mk_panel loaded (playing p) (loop p) t b (polling p).
Definition set_playing (b : bool) (t : string) (q : bool) (p : tx_panel) : tx_panel :=
  mk_panel (fileLoaded p) b (loop p) t (audioBuffer p) q.

(** [handleFileChange], up to the await of [loadFile]. *)
Definition handleFileChange (file : option string) (p : tx_panel) (w : file_page) : file_page :=
  match file with
  | None => set_pan (set_file false (statusText p) (audioBuffer p) p) w
  | Some name =>
      if ctx_ready w then set_decodes (decodes w ++ [(true, name)]) (set_pan (set_text "Decoding..." p) w)
      else onLog "Audio not initialized for file TX" (set_pan (set_text "Audio not initialized" p) w)
  end.

(** The rest of it: a duration and a sample rate, or an error. *)
Definition decode_answered (i : nat) (r : D * Z + string) (w : file_page) : file_page :=
  match (decodes w !! i : option (bool * string)) with
  | None => w
  | Some (mine, name) =>
      let w := set_decodes (delete i (decodes w)) w in
      let w :=
        match r with
        | inl (d, _) => onLog ("File loaded: " ++ name ++ " (" ++ toFixed1 d ++ "s)") w
        | inr msg => onLog ("File decode error: " ++ msg) w
        end in
      match pan w with
      | Some p =>
          if mine then
            match r with
            | inl (d, rate) =>
                set_pan (set_file true (name ++ " — " ++ toFixed1 d ++ "s, " ++ pretty rate ++ "Hz") (Some d) p) w
            | inr msg => set_pan (set_file false ("Error: " ++ msg) None p) w
            end
          else w
      | None => w
      end
  end.

Definition handleStop (p : tx_panel) (w : file_page) : file_page :=
  let text := match audioBuffer p with Some d => (toFixed1 d ++ "s ready")%string | None => statusText p end in
  onLog "File TX stop" (onPttSet false (set_svc (stopPlayback (svc w)) (set_pan (set_playing false text false p) w))).

(** [handlePlay]: [tx] tells whether a channel transmits, [enc] whether there is
    an encoder that is not closed. *)
Definition handlePlay (tx enc : bool) (p : tx_panel) (w : file_page) : file_page :=
  match audioBuffer p with
  | None => w
  | Some d =>
      if playing p then w
      else if negb tx then onLog "No TX channels!" w
      else if negb enc then onLog "Encoder not available" w
      else
        let text := "Playing" ++ (if loop p then " (looping)" else "") ++ " — " ++ toFixed1 d ++ "s" in
        let w := onPttSet true (set_pan (set_playing true text (if loop p then polling p else true) p) w) in
        if ctx_ready w then onLog "File TX start" (set_svc (startPlayback (loop p) (svc w)) w) else w
  end%string.

Definition toggleLoop (p : tx_panel) (w : file_page) : file_page :=
  set_pan (mk_panel (fileLoaded p) (playing p) (negb (loop p)) (statusText p) (audioBuffer p) (polling p)) w.

(** The poll of a file that does not loop. *)
Definition file_poll (p : tx_panel) (w : file_page) : file_page :=
  if isPlaying (svc w) then w else handleStop p w.

(** The unmount cleanup: the poll ends, and nothing else. *)
Definition collapse (w : file_page) : file_page :=
  mk_page None (svc w) (ptt w) (ctx_ready w) (map (λ e : bool * string, (false, e.2)) (decodes w)) (file_logs w).

(** [onended] of a source. *)
Definition source_ended (i : nat) (w : file_page) : file_page :=
  let w' := set_svc (file_fire (FEnded i) (svc w)) w in
  if filePlaying (svc w) && negb (filePlaying (svc w')) then onLog "File TX complete" w' else w'.

Inductive tx_event :=
| ChooseFile (file : option string)
| Decoded (i : nat) (r : D * Z + string)
| Play (tx enc : bool)
| Stop
| ToggleLoop
| PollTick
| SourceEnded (i : nat)
| Captured (i : nat) (n : Z)
| Collapse
| Expand
| AudioReady.

Definition on_panel (f : tx_panel → file_page → file_page) (w : file_page) : file_page :=
  match pan w with Some p => f p w | None => w end.

Definition tx_fire (e : tx_event) (w : file_page) : file_page :=
  match e with
  | ChooseFile file => on_panel (handleFileChange file) w
  | Decoded i r => decode_answered i r w
  | Play tx enc => on_panel (handlePlay tx enc) w
  | Stop => on_panel handleStop w
  | ToggleLoop => on_panel toggleLoop w
  | PollTick => on_panel file_poll w
  | SourceEnded i => source_ended i w
  | Captured i n => set_svc (file_fire (FCapture i n) (svc w)) w
  | Collapse => collapse w
  | Expand => mk_page (Some AudioFileTxPanel) (svc w) (ptt w) (ctx_ready w) (decodes w) (file_logs w)
  | AudioReady => mk_page (pan w) (svc w) (ptt w) true (decodes w) (file_logs w)
  end.

(** What can happen: the buttons that are enabled, the interval while it runs. *)
Definition tx_enabled (e : tx_event) (w : file_page) : bool :=
  match e, pan w with
  | (ChooseFile _ | ToggleLoop | Collapse), Some _ => true
  | Decoded i _, _ => (i <? length (decodes w))%nat
  | Play _ _, Some p => fileLoaded p && negb (playing p)
  | Stop, Some p => playing p
  | PollTick, Some p => polling p
  | SourceEnded i, _ => file_enabled (FEnded i) (svc w)
  | Captured i n, _ => file_enabled (FCapture i n) (svc w)
  | Expand, None => true
  | AudioReady, _ => true
  | _, _ => false
  end.

(** Every started source has reported its end. *)
Definition ends_reported (f : file_state) : bool := forallb f_ended (sources f).

(** The section stays expanded, and the end of a stopped file is reported before
    the next one starts. *)
Definition calm_event (e : tx_event) (w : file_page) : bool :=
  match e with
  | Collapse | Expand => false
  | Play _ _ => ends_reported (svc w)
  | _ => true
  end.

Definition panel_step (w w' : file_page) : Prop :=
  ∃ e, tx_enabled e w = true ∧ calm_event e w = true ∧ w' = tx_fire e w.

Fixpoint panel_run (es : list tx_event) (w : file_page) : option file_page :=
  match es with
  | [] => Some w
  | e :: es => if tx_enabled e w then panel_run es (tx_fire e w) else None
  end.

(** Whether the source started last loops. *)
Definition last_loop (f : file_state) : option bool :=
  f_loop <$> sources f !! (length (sources f) - 1).

(** Sources before the last one have ended. *)
Definition earlier_ended (f : file_state) : Prop :=
  ∀ i k, sources f !! i = Some k → S i < length (sources f) → f_ended k = true.

(** The panel keys the radio exactly while it plays, the service plays nothing
    else, and a file that has run out is being polled for. *)
Definition panel_inv (w : file_page) : Prop :=
  ∃ p, pan w = Some p
  ∧ ptt w = playing p
  ∧ (playing p = false → filePlaying (svc w) = false ∧ polling p = false)
  ∧ (playing p = true → last_loop (svc w) = Some (negb (polling p))
       ∧ (filePlaying (svc w) = false → polling p = true))
  ∧ (filePlaying (svc w) = true → earlier_ended (svc w))
  ∧ (audioBuffer p ≠ None → ctx_ready w = true)
  ∧ (decodes w ≠ [] → ctx_ready w = true).

(** ** Lemmas *)

Lemma last_loop_alter g i f b c t e :
  (∀ k, f_loop (g k) = f_loop k) →
  last_loop (mk_file b c t (alter g i (sources f)) e) = last_loop f.
Proof.
  intros Hg. unfold last_loop. simpl. rewrite length_alter.
  destruct (decide (i = length (sources f) - 1)) as [->|Hi].
  - rewrite list_lookup_alter_eq. destruct (sources f !! _); simpl; [by rewrite Hg|done].
  - by rewrite list_lookup_alter_ne.
Qed.

Lemma last_loop_stop f : last_loop (stopPlayback f) = last_loop f.
Proof. unfold stopPlayback. destruct (current f); [by apply last_loop_alter|done]. Qed.

Lemma last_loop_ended i f : last_loop (onended i f) = last_loop f.
Proof.
  unfold onended. destruct (sources f !! i) as [k|]; [case_match; [rewrite last_loop_stop|]|];
    by apply last_loop_alter.
Qed.

Lemma earlier_ended_start b f :
  ends_reported f = true → earlier_ended (startPlayback b f).
Proof.
  unfold ends_reported. intros H i k Hk Hi. simpl in *. rewrite length_app in Hi. simpl in Hi.
  rewrite lookup_app_l in Hk by lia. rewrite forallb_forall in H.
  by eapply H, list_elem_of_In, list_elem_of_lookup_2.
Qed.

(** An end reported while a file plays is the end of that file. *)
Lemma ended_spec i f :
  file_enabled (FEnded i) f = true → (filePlaying f = true → earlier_ended f) →
  (filePlaying (onended i f) = true → filePlaying f = true ∧ earlier_ended (onended i f))
  ∧ (filePlaying f = true → filePlaying (onended i f) = false → last_loop f = Some false).
Proof.
  intros He Hearly. simpl in He. unfold onended. destruct (sources f !! i) as [k|] eqn:Hk; [|done].
  apply negb_true_iff in He.
  destruct (negb (f_loop k) && filePlaying f) eqn:Hc.
  - apply andb_true_iff in Hc as [Hl%negb_true_iff Hp]. split.
    + unfold stopPlayback. simpl. by destruct (current f).
    + intros _ _. pose proof (lookup_lt_Some _ _ _ Hk) as Hlt.
      assert (i = length (sources f) - 1) as ->.
      { destruct (decide (S i < length (sources f))) as [Hs|]; [|lia].
        specialize (Hearly Hp i k Hk Hs). congruence. }
      unfold last_loop. rewrite Hk. simpl. by rewrite Hl.
  - simpl. split; [|congruence]. intros Hp. split; [done|]. intros j kj Hj Hlt. simpl in *.
    rewrite length_alter in Hlt. destruct (decide (i = j)) as [->|Hij].
    + rewrite list_lookup_alter_eq, Hk in Hj. by injection Hj as <-.
    + rewrite list_lookup_alter_ne in Hj by done. by eapply Hearly.
Qed.

Lemma panel_inv_init : panel_inv file_page_init.
Proof. eexists. split; [done|]. split_and!; naive_solver. Qed.

Lemma panel_inv_same w w' :
  panel_inv w → pan w' = pan w → ptt w' = ptt w → svc w' = svc w → ctx_ready w' = ctx_ready w →
  (decodes w' ≠ [] → ctx_ready w = true) → panel_inv w'.
Proof.
  intros (p & H1 & H2 & H3 & H4 & H5 & H6 & H7) Hp Ht Hs Hc Hd. exists p.
  rewrite Hp, Ht, Hs, Hc. by split_and!.
Qed.

Lemma panel_inv_stop p w : panel_inv w → pan w = Some p → panel_inv (handleStop p w).
Proof.
  intros (p' & H1 & H2 & H3 & H4 & H5 & H6 & H7) Hp. rewrite Hp in H1. injection H1 as <-.
  eexists. split; [done|]. split_and!; simpl; try done.
  - intros _. split; [|done]. unfold stopPlayback. by destruct (current _).
  - unfold stopPlayback. by destruct (current _).
Qed.

Lemma panel_inv_play tx enc p w :
  panel_inv w → pan w = Some p → ends_reported (svc w) = true → panel_inv (handlePlay tx enc p w).
Proof.
  intros Hinv Hp Hends. pose proof Hinv as (p' & H1 & H2 & H3 & H4 & H5 & H6 & H7).
  rewrite Hp in H1. injection H1 as <-. unfold handlePlay.
  destruct (audioBuffer p) as [d|] eqn:Hb; [|done]. destruct (playing p) eqn:Hpl; [done|].
  destruct (H3 eq_refl) as [Hf Hq]. assert (ctx_ready w = true) as Hc by (by apply H6).
  destruct tx, enc; cbn [negb]; try (by apply (panel_inv_same w)).
  cbn [ctx_ready onPttSet set_pan]. rewrite Hc.
  eexists. split; [done|]. split_and!; simpl; try done.
  - intros _. split; [|done]. unfold last_loop. simpl. rewrite length_app. simpl.
    rewrite lookup_app_r by lia. replace (_ - _) with 0 by lia. simpl. rewrite Hq. by destruct (loop p).
  - intros _. by apply earlier_ended_start.
Qed.

Lemma panel_inv_text w p p' :
  panel_inv w → pan w = Some p → playing p' = playing p → polling p' = polling p →
  (audioBuffer p' ≠ None → ctx_ready w = true) → panel_inv (set_pan p' w).
Proof.
  intros (q & H1 & H2 & H3 & H4 & H5 & H6 & H7) Hp Hpl Hpo Hb. rewrite Hp in H1. injection H1 as <-.
  exists p'. split; [done|]. rewrite Hpl, Hpo. by split_and!.
Qed.

Lemma panel_inv_fire e w :
  panel_inv w → tx_enabled e w = true → calm_event e w = true → panel_inv (tx_fire e w).
Proof.
  intros Hinv He Hcalm. pose proof Hinv as (p & H1 & H2 & H3 & H4 & H5 & H6 & H7).
  destruct e; simpl in *; unfold on_panel; rewrite ?H1 in *; try done.
  - unfold handleFileChange. destruct file as [name|]; [|by apply (panel_inv_text w p)].
    assert (panel_inv (set_pan (set_text "Decoding..." p) w)) as Hd by (by apply (panel_inv_text w p)).
    assert (panel_inv (set_pan (set_text "Audio not initialized" p) w)) as Hn by (by apply (panel_inv_text w p)).
    destruct (ctx_ready w) eqn:Hc; 
      [by apply (panel_inv_same _ _ Hd)|apply (panel_inv_same _ _ Hn); simpl; by rewrite ?Hc].
  - unfold decode_answered. destruct (decodes w !! i) as [[mine name]|] eqn:Hi; [|done].
    assert (ctx_ready w = true) as Hc by (apply H7; by intros Hn; rewrite Hn in Hi).
    set (w1 := set_decodes (delete i (decodes w)) w).
    set (w2 := match r with inl _ => _ | inr _ => _ end).
    assert (pan w2 = Some p ∧ ctx_ready w2 = true) as [Hp2 Hc2] by (unfold w2; by destruct r as [[]|]).
    assert (panel_inv w2) as Hw2 by (unfold w2; destruct r as [[]|]; by apply (panel_inv_same w)).
    rewrite Hp2. destruct mine; [|done]. destruct r as [[d rate]|]; by apply (panel_inv_text w2 p).
  - by apply panel_inv_play.
  - by apply panel_inv_stop.
  - by apply (panel_inv_text w p).
  - unfold file_poll. destruct (isPlaying (svc w)); [done|]. by apply panel_inv_stop.
  - destruct (ended_spec i (svc w) He H5) as [E1 E2].
    assert (panel_inv (set_svc (onended i (svc w)) w)) as Hs.
    { exists p. split; [done|]. split_and!; simpl; try done.
      - intros Hpl. destruct (H3 Hpl) as [Hf Hq]. split; [|done].
        destruct (filePlaying (onended i (svc w))) eqn:Hn; [|done]. destruct (E1 eq_refl). congruence.
      - intros Hpl. destruct (H4 Hpl) as [Hl Hq]. rewrite last_loop_ended. split; [done|]. intros Hn.
        destruct (filePlaying (svc w)) eqn:Hf; [|by apply Hq].
        rewrite E2 in Hl by done. by destruct (polling p).
      - intros Hn. by destruct (E1 Hn). }
    unfold source_ended. destruct (_ && _); [apply (panel_inv_same _ _ Hs); try done; exact H7|exact Hs].
  - exists p. split; [done|]. unfold capture. destruct (filePlaying (svc w)) eqn:Hf; simpl; rewrite ?Hf; by split_and!.
  - exists p. split; [done|]. by split_and!.
Qed.

(** The service as the panel drives it. *)
Lemma panel_drives_service e w :
  panel_inv w → tx_enabled e w = true → rtc file_step (svc w) (svc (tx_fire e w)).
Proof.
  intros (p & H1 & H2 & H3 & _) He.
  assert (∀ e' f, file_enabled e' f = true → file_page_ok e' f = true → rtc file_step f (file_fire e' f)) as Hone
    by (intros e' f Hen Hok; apply rtc_once; by exists e').
  destruct e; simpl in *; unfold on_panel; rewrite ?H1 in *; try done.
  - unfold handleFileChange. destruct file; [|done]. by destruct (ctx_ready w).
  - unfold decode_answered. destruct (decodes w !! i) as [[mine name]|]; [|done].
    set (w2 := match r with inl _ => _ | inr _ => _ end).
    assert (svc w2 = svc w) as <- by (unfold w2; by destruct r as [[]|]).
    destruct (pan w2); [|done]. destruct mine; [|done]. by destruct r as [[]|].
  - unfold handlePlay. destruct (audioBuffer p); [|done]. destruct (playing p) eqn:Hpl; [done|].
    destruct tx, enc; simpl; try done. destruct (ctx_ready w); [|done].
    apply (Hone (FStart (loop p))); [done|]. simpl. by rewrite (proj1 (H3 eq_refl)).
  - by apply (Hone FStop).
  - unfold file_poll. destruct (isPlaying (svc w)); [done|]. by apply (Hone FStop).
  - unfold source_ended. destruct (_ && _); by apply (Hone (FEnded i)).
  - by apply (Hone (FCapture i n)).
Qed.

Lemma panel_reached w :
  rtc panel_step file_page_init w → panel_inv w ∧ rtc file_step file_init (svc w).
Proof.
  revert w. apply rtc_ind_r; [split; [apply panel_inv_init|done]|].
  intros w w' _ (e & He & Hc & ->) [Hinv Hsvc]. split; [by apply panel_inv_fire|].
  etrans; [exact Hsvc|]. by apply panel_drives_service.
Qed.

(** ** Properties *)

(** While the panel stays on the page, and unless a file is started before the
    end of the previous one was reported, the radio is keyed exactly while the
    panel shows a file playing; the service plays only then, and is driven as its
    invariant asks; and a file that has run out is released by the next poll. *)
Theorem file_ptt (w : file_page) :
  rtc panel_step file_page_init w →
  rtc file_step file_init (svc w)
  ∧ ∃ p, pan w = Some p
    ∧ ptt w = playing p
    ∧ (filePlaying (svc w) = true → playing p = true)
    ∧ (playing p = true → filePlaying (svc w) = false →
         tx_enabled PollTick w = true
         ∧ ptt (tx_fire PollTick w) = false
         ∧ (playing <$> pan (tx_fire PollTick w)) = Some false).
Proof.
  intros [(p & H1 & H2 & H3 & H4 & _) Hsvc]%panel_reached. split; [done|]. exists p.
  split; [done|]. split; [done|]. split.
  - intros Hf. destruct (playing p); [done|]. destruct (H3 eq_refl). congruence.
  - intros Hp Hf. simpl. unfold on_panel. rewrite H1. destruct (H4 Hp) as [_ Hq].
    unfold file_poll, isPlaying. rewrite Hf. split; [by apply Hq|done].
Qed.

(** Collapsing the audio section removes the panel and nothing else: until it is
    opened again, whatever happens, the radio stays as it was keyed, also when the
    file has long run out. *)
Theorem collapsed_keeps_ptt (es : list tx_event) (w w' : file_page) :
  pan w = None → Expand ∉ es → panel_run es w = Some w' → ptt w' = ptt w ∧ pan w' = None.
Proof.
  revert w. induction es as [|e es IH]; intros w Hp Hne Hr; simpl in Hr; [by simplify_eq|].
  destruct (tx_enabled e w) eqn:He; [|done].
  assert (ptt (tx_fire e w) = ptt w ∧ pan (tx_fire e w) = None) as [<- Hp'].
  { destruct e; simpl in *; unfold on_panel; rewrite ?Hp in *; try done.
    - unfold decode_answered. destruct (decodes w !! i) as [[mine name]|]; [|done].
      set (w2 := match r with inl _ => _ | inr _ => _ end).
      assert (pan w2 = None ∧ ptt w2 = ptt w) as [Hp2 Ht2] by (unfold w2; by destruct r as [[]|]).
      rewrite Hp2. by split.
    - unfold source_ended. by destruct (_ && _).
    - by destruct Hne; left. }
  apply IH; [done|set_solver|done].
Qed.
End file_panel.

(** ** Examples *)

Definition seconds (d : Z) : string := pretty d ++ ".0".

(** A file of three seconds is loaded and started. *)
Definition loaded_and_started : list (tx_event (D:=Z)) :=
  [AudioReady; ChooseFile (Some "alert.wav"); Decoded 0 (inl (3%Z, 48000%Z)); Play true true].

Ltac panel_does e := eapply rtc_l; [exists e; split; [reflexivity|split; reflexivity]|].

Theorem file_ptt_witness :
  ∃ w, panel_run seconds (loaded_and_started ++ [SourceEnded 0]) file_page_init = Some w
  ∧ ptt w = true ∧ filePlaying (svc w) = false ∧ ptt (tx_fire seconds PollTick w) = false.
Proof.
  destruct (panel_run seconds (loaded_and_started ++ [SourceEnded 0]) file_page_init) as [w|] eqn:Hw; [|done].
  exists w. split; [done|]. injection Hw as <-. split; [reflexivity|]. split; [reflexivity|].
  match goal with |- ptt (tx_fire _ _ ?v) = _ => set (w := v) end.
  assert (rtc (panel_step seconds) file_page_init w) as Hr.
  { panel_does (AudioReady (D:=Z)). panel_does (ChooseFile (D:=Z) (Some "alert.wav")).
    panel_does (Decoded 0 (inl (3%Z, 48000%Z))). panel_does (Play (D:=Z) true true).
    panel_does (SourceEnded (D:=Z) 0). apply rtc_refl. }
  destruct (file_ptt seconds w Hr) as (_ & p & Hp & _ & _ & H). injection Hp as <-.
  by apply H.
Defined.

(** The section is collapsed while the file plays: when the file has ended the
    radio is still keyed, and the panel that opens again offers no STOP. *)
Theorem collapse_holds_the_radio :
  (λ w, (ptt w, filePlaying (svc w), tx_enabled Stop w, tx_enabled PollTick w)) <$>
    panel_run seconds (loaded_and_started ++ [Collapse; SourceEnded 0; Expand]) file_page_init
  = Some (true, false, false, false).
Proof. vm_compute. reflexivity. Qed.

(** A looping file started before the end of the previous one was reported is
    stopped by that report: the radio stays keyed with nothing sent. *)
Theorem late_end_stops_the_next :
  (λ w, (ptt w, filePlaying (svc w), tx_enabled PollTick w)) <$>
    panel_run seconds (loaded_and_started ++ [Stop; ToggleLoop; Play true true; SourceEnded 0]) file_page_init
  = Some (true, false, false).
Proof. vm_compute. reflexivity. Qed.

(** Of two files chosen in a row the one decoded last is kept, not the one chosen
    last. *)
Theorem slow_decode_wins :
  (λ w, (λ p, (audioBuffer p, statusText p)) <$> pan w) <$>
    panel_run seconds
      [AudioReady; ChooseFile (Some "long.wav"); ChooseFile (Some "short.wav");
       Decoded 1 (inl (1%Z, 48000%Z)); Decoded 0 (inl (60%Z, 48000%Z))] file_page_init
  = Some (Some (Some 60%Z, "long.wav — 60.0s, 48000Hz")).
Proof. vm_compute. reflexivity. Qed.
