(* ===== verification/Comms.v ===== *)
(** [pages/Comms.jsx]: push-to-talk, voice activation, the channel switches and
    what they send, on top of [AudioTx] (the microphone) and the protocol bytes
    of [WebSocket].

    The handlers are asynchronous: each is split at its awaits, and the part
    after an await waits in [conts] until the environment resumes it.  Refs and
    the state they mirror are one field.  [traffic] is every control byte and
    audio frame the page sent, with the connection it went out on ([None] when
    the socket was closed and it was dropped); [session] is what the server
    received on the current connection, and [opened] is whether the key was
    down when each connection opened. *)
From S2P Require Import Prelude Constants WebSocket AudioTx.

Inductive comms_msg :=
| MDown | MUp
| MAudio (encoded : list Z)
| MRx (ch : Z) (on : bool) | MTx (ch : Z) (on : bool)
| MRxAll (on : bool) | MTxAll (on : bool).

(** The bytes on the wire. *)
Definition msg_bytes (m : comms_msg) : list Z :=
  match m with
  | MDown => [uint8 MSG_PTT_DOWN]
  | MUp => [uint8 MSG_PTT_UP]
  | MAudio encoded => tx_frame encoded
  | MRx ch on => toggle_bytes MSG_RX_TOGGLE ch on
  | MTx ch on => toggle_bytes MSG_TX_TOGGLE ch on
  | MRxAll on => [uint8 (if on then MSG_RX_ALL_ON else MSG_RX_ALL_OFF)]
  | MTxAll on => [uint8 (if on then MSG_TX_ALL_ON else MSG_TX_ALL_OFF)]
  end.

(** What runs after an await: the rest of [pttDown], of the key handler, or of
    [handleVoxToggle(true)]. *)
Inductive cont := PttStart | KeyPtt | VoxStart.

Record comms := mk_comms {
  pttActive : bool;
  voxEnabled : bool;
  voxActive : bool;
  voxTimer : bool;
  spaceDown : bool;
  audioInit : bool;
  conts : list cont;
  mic : mic_state;
  wsOpen : bool;
  rxEnabled : gmap Z bool;
  txEnabled : gmap Z bool;
  traffic : list (comms_msg * option nat);
  session : list (list Z);
  opened : list bool
}.

(** [CHANNELS_DEF.forEach((c) => { init[c.ch] = f(c.ch); })]. *)
Definition for_channels (f : Z → bool) : gmap Z bool :=
  list_to_map (map (λ c, (ch c, f (ch c))) CHANNELS_DEF).

Definition comms_init (devices : bool) : comms :=
  mk_comms false false false false false false [] (mic_init false devices) false
    (for_channels (λ c, bool_decide (c = 1%Z))) (for_channels (λ c, bool_decide (c = 1%Z))) [] [] [].

Definition set_ptt (b : bool) (s : comms) : comms :=
  mk_comms b (voxEnabled s) (voxActive s) (voxTimer s) (spaceDown s) (audioInit s) (conts s)
    (mic s) (wsOpen s) (rxEnabled s) (txEnabled s) (traffic s) (session s) (opened s).

Definition set_vox (e a t : bool) (s : comms) : comms :=
  mk_comms (pttActive s) e a t (spaceDown s) (audioInit s) (conts s)
    (mic s) (wsOpen s) (rxEnabled s) (txEnabled s) (traffic s) (session s) (opened s).

Definition set_space (b : bool) (s : comms) : comms :=
  mk_comms (pttActive s) (voxEnabled s) (voxActive s) (voxTimer s) b (audioInit s) (conts s)
    (mic s) (wsOpen s) (rxEnabled s) (txEnabled s) (traffic s) (session s) (opened s).

Definition set_conts (l : list cont) (s : comms) : comms :=
  mk_comms (pttActive s) (voxEnabled s) (voxActive s) (voxTimer s) (spaceDown s) (audioInit s) l
    (mic s) (wsOpen s) (rxEnabled s) (txEnabled s) (traffic s) (session s) (opened s).

Definition on_mic (f : mic_state → mic_state) (s : comms) : comms :=
  mk_comms (pttActive s) (voxEnabled s) (voxActive s) (voxTimer s) (spaceDown s) (audioInit s)
    (conts s) (f (mic s)) (wsOpen s) (rxEnabled s) (txEnabled s) (traffic s) (session s) (opened s).

Definition set_channels (rx tx : gmap Z bool) (s : comms) : comms :=
  mk_comms (pttActive s) (voxEnabled s) (voxActive s) (voxTimer s) (spaceDown s) (audioInit s)
    (conts s) (mic s) (wsOpen s) rx tx (traffic s) (session s) (opened s).

(** The open connection: connections are numbered in the order they opened. *)
Definition conn (s : comms) : option nat :=
  if wsOpen s then Some (pred (length (opened s))) else None.

(** [wsSendByte], [wsSendToggle] and [wsSend]: dropped while closed. *)
Definition ws_send (m : comms_msg) (s : comms) : comms :=
  mk_comms (pttActive s) (voxEnabled s) (voxActive s) (voxTimer s) (spaceDown s) (audioInit s)
    (conts s) (mic s) (wsOpen s) (rxEnabled s) (txEnabled s) (traffic s ++ [(m, conn s)])
    (if wsOpen s then session s ++ [msg_bytes m] else session s) (opened s).

(** ** Handlers *)

(** [initAudioOnce] up to its await; [initAudio] creates the context at once. *)
Definition initAudioOnce (s : comms) : comms :=
  if audioInit s then s
  else
    let s1 := on_mic initCtx s in
    mk_comms (pttActive s1) (voxEnabled s1) (voxActive s1) (voxTimer s1) (spaceDown s1) true
      (conts s1) (mic s1) (wsOpen s1) (rxEnabled s1) (txEnabled s1) (traffic s1) (session s1) (opened s1).

Definition any_tx (s : comms) : bool :=
  existsb (λ c, default false (txEnabled s !! ch c)) CHANNELS_DEF.

Definition pttDown (s : comms) : comms :=
  if pttActive s then s
  else if negb (any_tx s) then s
  else
    let s1 := initAudioOnce (ws_send MDown (set_ptt true s)) in
    set_conts (conts s1 ++ [PttStart]) s1.

Definition pttUp (s : comms) : comms :=
  if negb (pttActive s) then s
  else
    let s1 := set_ptt false s in
    let s2 := if voxEnabled s1 then on_mic startMicMonitor (on_mic stopMic s1)
              else on_mic stopMic s1 in
    ws_send MUp s2.

Definition handleKeyDown (repeat typing : bool) (s : comms) : comms :=
  if repeat || spaceDown s || typing then s
  else
    let s1 := initAudioOnce (set_space true s) in
    set_conts (conts s1 ++ [KeyPtt]) s1.

Definition handleKeyUp (s : comms) : comms := pttUp (set_space false s).

Definition handleVoxToggle (on : bool) (s : comms) : comms :=
  let s0 := set_vox on (voxActive s) (voxTimer s) s in
  if on then
    let s1 := initAudioOnce s0 in
    set_conts (conts s1 ++ [VoxStart]) s1
  else
    let s1 :=
      if voxActive s0 then
        let s1 := set_vox (voxEnabled s0) false (voxTimer s0) s0 in
        if pttActive s1 then ws_send MUp (on_mic stopMic (set_ptt false s1)) else s1
      else if negb (pttActive s0) then on_mic stopMic s0 else s0 in
    set_vox (voxEnabled s1) (voxActive s1) false s1.

(** The rest of a handler after its await. *)
Definition resume (c : cont) (s : comms) : comms :=
  match c with
  | PttStart => on_mic (startMic PttChunk) s
  | KeyPtt => pttDown s
  | VoxStart => on_mic startMicMonitor s
  end.

(** [voxTick] with the level above ([loud]) or below the threshold. *)
Definition voxTick (loud : bool) (s : comms) : comms :=
  if loud then
    let s1 := set_vox (voxEnabled s) (voxActive s) false s in
    if negb (pttActive s1) then pttDown (set_vox (voxEnabled s1) true (voxTimer s1) s1) else s1
  else if voxActive s && pttActive s then
    if voxTimer s then s else set_vox (voxEnabled s) (voxActive s) true s
  else s.

(** The hang-time timer. *)
Definition voxTimeout (s : comms) : comms :=
  let s1 := set_vox (voxEnabled s) (voxActive s) false s in
  if voxActive s1 && pttActive s1 then pttUp (set_vox (voxEnabled s1) false (voxTimer s1) s1) else s1.

Definition handleFilePttSet (active : bool) (s : comms) : comms :=
  let s1 := set_ptt active s in
  if active then ws_send MDown (on_mic (setEncoderCallback FileChunk) s1)
  else ws_send MUp (on_mic clearEncoderCallback s1).

(** The encoder's output reaches the callback that is set. *)
Definition encoded_chunk (encoded : list Z) (s : comms) : comms :=
  match onEncodedChunk (mic s) with
  | Some PttChunk => if wsOpen s && pttActive s then ws_send (MAudio encoded) s else s
  | Some FileChunk => if wsOpen s then ws_send (MAudio encoded) s else s
  | None => s
  end.

Definition flip (c : Z) (m : gmap Z bool) : bool := negb (default false (m !! c)).

Definition handleToggleRx (c : Z) (s : comms) : comms :=
  let next := flip c (rxEnabled s) in
  ws_send (MRx c next) (set_channels (<[c := next]> (rxEnabled s)) (txEnabled s) s).

Definition handleToggleTx (c : Z) (s : comms) : comms :=
  let next := flip c (txEnabled s) in
  ws_send (MTx c next) (set_channels (rxEnabled s) (<[c := next]> (txEnabled s)) s).

Definition handleRxAll (on : bool) (s : comms) : comms :=
  ws_send (MRxAll on) (set_channels (for_channels (λ _, on)) (txEnabled s) s).

Definition handleTxAll (on : bool) (s : comms) : comms :=
  ws_send (MTxAll on) (set_channels (rxEnabled s) (for_channels (λ _, on)) s).

(** [statusChange('connected')]: a new session, told every switch. *)
Definition set_ws (open : bool) (s : comms) : comms :=
  mk_comms (pttActive s) (voxEnabled s) (voxActive s) (voxTimer s) (spaceDown s) (audioInit s)
    (conts s) (mic s) open (rxEnabled s) (txEnabled s) (traffic s)
    (if open then [] else session s)
    (if open then opened s ++ [pttActive s] else opened s).

Definition on_connected (s : comms) : comms :=
  foldl (λ s c, ws_send (MTx (ch c) (default false (txEnabled s !! ch c)))
                  (ws_send (MRx (ch c) (default false (rxEnabled s !! ch c))) s))
    (set_ws true s) CHANNELS_DEF.

(** ** The machine *)

Inductive comms_event :=
| PttDown | PttUp
| KeyDown (repeat typing : bool) | KeyUp
| VoxToggle (on : bool) | VoxTick (loud : bool) | VoxTimeout
| FilePtt (active : bool)
| ToggleRx (c : Z) | ToggleTx (c : Z) | RxAll (on : bool) | TxAll (on : bool)
| Resume (k : nat)              (* the k-th waiting handler goes on *)
| Mic (got : bool) (k : nat)    (* getUserMedia settles *)
| Chunk (encoded : list Z)
| WsUp | WsDown.

Definition fire (e : comms_event) (s : comms) : comms :=
  match e with
  | PttDown => pttDown s
  | PttUp => pttUp s
  | KeyDown repeat typing => handleKeyDown repeat typing s
  | KeyUp => handleKeyUp s
  | VoxToggle on => handleVoxToggle on s
  | VoxTick loud => voxTick loud s
  | VoxTimeout => voxTimeout s
  | FilePtt active => handleFilePttSet active s
  | ToggleRx c => handleToggleRx c s
  | ToggleTx c => handleToggleTx c s
  | RxAll on => handleRxAll on s
  | TxAll on => handleTxAll on s
  | Resume k =>
      match conts s !! k with
      | Some c => resume c (set_conts (delete k (conts s)) s)
      | None => s
      end
  | Mic true k => on_mic (mic_resolved k) s
  | Mic false k => on_mic (mic_rejected k) s
  | Chunk encoded => encoded_chunk encoded s
  | WsUp => on_connected s
  | WsDown => set_ws false s
  end.

(** The voice-activation interval runs while it is enabled, the timer fires when
    it was set, and the switches are those of the channel table. *)
Definition enabled (e : comms_event) (s : comms) : bool :=
  match e with
  | VoxTick _ => voxEnabled s
  | VoxTimeout => voxTimer s
  | ToggleRx c | ToggleTx c => bool_decide (c ∈ map ch CHANNELS_DEF)
  | Resume k => bool_decide (k < length (conts s))
  | Mic _ k => bool_decide (k < length (pending (mic s)))
  | WsUp => negb (wsOpen s)
  | WsDown => wsOpen s
  | _ => true
  end.

Definition is_file (e : comms_event) : bool := match e with FilePtt _ => true | _ => false end.

Definition step (s s' : comms) : Prop := ∃ e, enabled e s = true ∧ s' = fire e s.
Definition voice_step (s s' : comms) : Prop :=
  ∃ e, enabled e s = true ∧ is_file e = false ∧ s' = fire e s.

Fixpoint run (es : list comms_event) (s : comms) : option comms :=
  match es with
  | [] => Some s
  | e :: es' => if enabled e s then run es' (fire e s) else None
  end.

(** ** Specifications *)

(** The talk protocol: PTT_DOWN and PTT_UP alternate and audio is only sent
    between them; the result is whether the server believes the key is down. *)
Fixpoint talk (down : bool) (ms : list comms_msg) : option bool :=
  match ms with
  | [] => Some down
  | MDown :: ms' => if down then None else talk true ms'
  | MUp :: ms' => if down then talk false ms' else None
  | MAudio _ :: ms' => if down then talk down ms' else None
  | _ :: ms' => talk down ms'
  end.

Definition is_talk (m : comms_msg) : bool :=
  match m with MDown | MUp | MAudio _ => true | _ => false end.

(** What went out on the [n]-th connection. *)
Definition wire (n : nat) (s : comms) : list comms_msg :=
  omap (λ p : comms_msg * option nat, if decide (p.2 = Some n) then Some p.1 else None) (traffic s).

(** The server's switches for one client ([bridge.go], [client.go]). *)
Record client_view := { rx_on : Z → bool; tx_on : Z → bool }.

Definition MaxChannels : Z := 16.

Definition server_init : client_view := {| rx_on := λ _, false; tx_on := λ _, false |}.

Definition set_switch (f : Z → bool) (c : Z) (on : bool) : Z → bool :=
  if decide (MaxChannels <= c)%Z then f else λ x, if decide (x = c) then on else f x.

Definition server_receive (v : client_view) (data : list Z) : client_view :=
  match data with
  | [] => v
  | op :: _ =>
      if decide (op = MSG_TX_TOGGLE) then
        match DecodeToggle data with
        | Some (c, on) => {| rx_on := rx_on v; tx_on := set_switch (tx_on v) c on |}
        | None => v
        end
      else if decide (op = MSG_RX_TOGGLE) then
        match DecodeToggle data with
        | Some (c, on) => {| rx_on := set_switch (rx_on v) c on; tx_on := tx_on v |}
        | None => v
        end
      else if decide (op = MSG_RX_ALL_ON) then {| rx_on := λ _, true; tx_on := tx_on v |}
      else if decide (op = MSG_RX_ALL_OFF) then {| rx_on := λ _, false; tx_on := tx_on v |}
      else if decide (op = MSG_TX_ALL_ON) then {| rx_on := rx_on v; tx_on := λ _, true |}
      else if decide (op = MSG_TX_ALL_OFF) then {| rx_on := rx_on v; tx_on := λ _, false |}
      else v
  end.

Definition server_view (data : list (list Z)) : client_view := foldl server_receive server_init data.

(** ** One user action at a time *)

(** Every await that an action started completes, and the microphone is granted. *)
Definition settle (s : comms) : comms :=
  let resume0 s := fire (Resume 0) s in
  fire (Mic true 0) (resume0 (resume0 s)).

Definition act (e : comms_event) (s : comms) : comms := settle (fire e s).

(** Disabling voice activation that was triggered without the key down. *)
Definition leaks (e : comms_event) (s : comms) : bool :=
  match e with VoxToggle on => negb on && voxActive s && negb (pttActive s) | _ => false end.

Definition quiet_event (e : comms_event) : bool :=
  match e with FilePtt _ | Resume _ | Mic _ _ => false | _ => true end.

Definition act_step (s s' : comms) : Prop :=
  ∃ e, enabled e s = true ∧ quiet_event e = true ∧ leaks e s = false ∧ s' = act e s.

(** ** Lemmas *)

Lemma talk_app d ms1 ms2 : talk d (ms1 ++ ms2) = talk d ms1 ≫= λ d', talk d' ms2.
Proof.
  revert d. induction ms1 as [|m ms1 IH]; intros d; [done|].
  destruct m; simpl; try (by destruct d); apply IH.
Qed.

(** What was sent follows the talk protocol and leaves the key [d]; so does what
    went out on each connection, from the key the connection opened with, and on
    the open one it leaves the key [d] too. *)
Definition talk_ok (s : comms) (d : bool) : Prop :=
  talk false (map fst (traffic s)) = Some d
  ∧ (wsOpen s = true → opened s ≠ [])
  ∧ Forall (λ p : comms_msg * option nat, ∀ n, p.2 = Some n → n < length (opened s)) (traffic s)
  ∧ ∀ n k, opened s !! n = Some k →
      ∃ d', talk k (wire n s) = Some d' ∧ (wsOpen s = true → S n = length (opened s) → d' = d).

Definition talk_inv (s : comms) : Prop :=
  talk_ok s (pttActive s) ∧ onEncodedChunk (mic s) ≠ Some FileChunk.

Lemma talk_ok_ext s s' d :
  traffic s' = traffic s → wsOpen s' = wsOpen s → opened s' = opened s →
  talk_ok s d → talk_ok s' d.
Proof. intros H1 H2 H3. unfold talk_ok, wire. by rewrite H1, H2, H3. Qed.

Lemma wire_send n m s :
  wire n (ws_send m s) = wire n s ++ (if decide (conn s = Some n) then [m] else []).
Proof. unfold wire. simpl. rewrite omap_app. simpl. by case_decide. Qed.

(** Sending [m] is a step of the talk protocol. *)
Lemma talk_send m s d d' : talk_ok s d → talk d [m] = Some d' → talk_ok (ws_send m s) d'.
Proof.
  intros (Ht & Ho & Hf & Hw) Hm. unfold talk_ok. split_and?; simpl.
  - by rewrite map_app, talk_app, Ht.
  - done.
  - apply Forall_app. split; [done|]. constructor; [|done]. simpl. unfold conn. intros n.
    destruct (wsOpen s) eqn:E; [|done]. intros [= <-]. specialize (Ho eq_refl).
    destruct (opened s); [done|simpl; lia].
  - intros n k Hn. destruct (Hw n k Hn) as (d0 & Hd & Hlast). rewrite wire_send, talk_app, Hd. simpl.
    apply lookup_lt_Some in Hn. unfold conn. destruct (wsOpen s) eqn:E.
    + destruct (decide (Some _ = Some n)) as [Hc|Hc].
      * apply (inj Some) in Hc. rewrite (Hlast eq_refl) by lia. exists d'. by rewrite Hm.
      * exists d0. split; [done|]. intros _ Hs. destruct Hc. f_equal. lia.
    + rewrite decide_False by done. by exists d0.
Qed.

(** A new connection has carried nothing. *)
Lemma talk_open b s d : pttActive s = d → talk_ok s d → talk_ok (set_ws b s) d.
Proof.
  intros Hp (Ht & Ho & Hf & Hw). unfold talk_ok. destruct b; [|split_and?; [done|done|done|]].
  - split_and?; simpl; [done|by destruct (opened s)| |].
    + eapply Forall_impl; [exact Hf|]. simpl. intros p Hn n En. rewrite length_app. simpl.
      specialize (Hn n En). lia.
    + intros n k [Hn|[-> ?]]%lookup_snoc_Some; [|].
      * destruct (Hw n k (proj2 Hn)) as (d' & ? & _). exists d'. split; [done|].
        rewrite length_app. simpl. lia.
      * exists d. split; [|done]. subst k d. simpl. enough (wire (length (opened s)) s = []) as H by
          (unfold wire in *; simpl; by rewrite H).
        unfold wire. revert Hf. clear. generalize (length (opened s)). intros k.
        induction 1 as [|p tr Hp Hf IH]; [done|]. simpl.
        rewrite decide_False; [apply IH|intros E; specialize (Hp _ E); lia].
  - intros n k Hn. destruct (Hw n k Hn) as (d' & ? & _). by exists d'.
Qed.

Lemma mic_chunk m :
  onEncodedChunk (startMicMonitor m) = onEncodedChunk m
  ∧ (∀ k, onEncodedChunk (mic_resolved k m) = onEncodedChunk m)
  ∧ onEncodedChunk (stopMic m) = None
  ∧ ∀ cb, onEncodedChunk (startMic cb m) = Some cb.
Proof.
  unfold startMicMonitor, mic_resolved, stopMic, startMic. simpl.
  split_and?; intros; by repeat case_match.
Qed.

Lemma initAudioOnce_fields s :
  pttActive (initAudioOnce s) = pttActive s ∧ traffic (initAudioOnce s) = traffic s
  ∧ onEncodedChunk (mic (initAudioOnce s)) = onEncodedChunk (mic s)
  ∧ wsOpen (initAudioOnce s) = wsOpen s ∧ opened (initAudioOnce s) = opened s.
Proof. unfold initAudioOnce. by destruct (audioInit s). Qed.

Lemma talk_pttDown s : talk_inv s → talk_inv (pttDown s).
Proof.
  intros Hi. pose proof Hi as [Ht Hc]. unfold pttDown.
  destruct (pttActive s) eqn:Hp; [done|].
  destruct (negb (any_tx s)); [done|]. set (s1 := ws_send _ _).
  destruct (initAudioOnce_fields s1) as (F1 & F2 & F3 & F4 & F5).
  split; cbn [set_conts pttActive mic]; rewrite ?F1, ?F3; [|done].
  eapply (talk_ok_ext s1); [done..|]. by apply (talk_send MDown _ false).
Qed.

Lemma talk_pttUp s : talk_inv s → talk_inv (pttUp s).
Proof.
  intros Hi. pose proof Hi as [Ht Hc]. unfold pttUp.
  destruct (pttActive s) eqn:Hp; [|done]. simpl.
  split; [|by destruct (voxEnabled s); simpl; rewrite ?(proj1 (mic_chunk _)), (proj1 (proj2 (proj2 (mic_chunk _))))].
  by destruct (voxEnabled s); apply (talk_send MUp _ true).
Qed.

Lemma talk_inv_ext s s' :
  traffic s' = traffic s → wsOpen s' = wsOpen s → opened s' = opened s →
  pttActive s' = pttActive s → onEncodedChunk (mic s') = onEncodedChunk (mic s) →
  talk_inv s → talk_inv s'.
Proof.
  intros H1 H2 H3 H4 H5 [Ht Hc]. split; [|by rewrite H5]. rewrite H4. by eapply talk_ok_ext.
Qed.

Lemma talk_inv_send m s :
  (∀ d, talk d [m] = Some d) → talk_inv s → talk_inv (ws_send m s).
Proof. intros Hm [Ht Hc]. split; [|done]. by eapply talk_send. Qed.

Lemma talk_voxOff s : talk_inv s → talk_inv (handleVoxToggle false s).
Proof.
  intros [Ht Hc]. unfold handleVoxToggle. simpl. split; simpl.
  - destruct (voxActive s), (pttActive s) eqn:Hp; simpl; rewrite ?Hp; try exact Ht.
    by eapply talk_ok_ext; [..|apply (talk_send MUp (set_ptt false s) true)].
  - destruct (voxActive s), (pttActive s) eqn:Hp; simpl; try done;
      by rewrite (proj1 (proj2 (proj2 (mic_chunk _)))).
Qed.

Lemma talk_fire e s : talk_inv s → is_file e = false → talk_inv (fire e s).
Proof.
  intros Hi Hf. pose proof Hi as [Ht Hc]. destruct e; simpl in *; try done.
  - by apply talk_pttDown.
  - by apply talk_pttUp.
  - unfold handleKeyDown. destruct (_ || _); [done|].
    destruct (initAudioOnce_fields (set_space true s)) as (F1 & F2 & F3 & F4 & F5).
    by eapply talk_inv_ext; [..|exact Hi].
  - unfold handleKeyUp. apply talk_pttUp. by eapply talk_inv_ext; [..|exact Hi].
  - destruct on; [|by apply talk_voxOff]. unfold handleVoxToggle.
    destruct (initAudioOnce_fields (set_vox true (voxActive s) (voxTimer s) s)) as (F1 & F2 & F3 & F4 & F5).
    by eapply talk_inv_ext; [..|exact Hi].
  - unfold voxTick. destruct loud.
    + destruct (negb _); [apply talk_pttDown|]; by eapply talk_inv_ext; [..|exact Hi].
    + destruct (voxActive s && pttActive s); [|done]. destruct (voxTimer s); [done|].
      by eapply talk_inv_ext; [..|exact Hi].
  - unfold voxTimeout. destruct (voxActive _ && _); [apply talk_pttUp|];
      by eapply talk_inv_ext; [..|exact Hi].
  - by apply talk_inv_send.
  - by apply talk_inv_send.
  - by apply talk_inv_send.
  - by apply talk_inv_send.
  - destruct (conts s !! k) as [c|]; [|done]. set (s1 := set_conts _ _).
    assert (talk_inv s1) as H1 by (by eapply talk_inv_ext; [..|exact Hi]).
    destruct c; simpl; [|by apply talk_pttDown|].
    + split; [apply H1|]. simpl. by rewrite (proj2 (proj2 (proj2 (mic_chunk _)))).
    + eapply talk_inv_ext; [..|exact H1]; try done. simpl. apply mic_chunk.
  - destruct got; (eapply talk_inv_ext; [..|exact Hi]; try done); apply mic_chunk.
  - unfold encoded_chunk. destruct (onEncodedChunk (mic s)) as [[]|]; [|done..].
    destruct (wsOpen s && pttActive s) eqn:Hb; [|done]. apply andb_true_iff in Hb as [_ Hp].
    split; [|apply Hi]. rewrite Hp in Ht. simpl. rewrite Hp. by apply (talk_send _ s true).
  - unfold on_connected. apply (foldl_inv talk_inv).
    + intros s0 c H0. by do 2 (apply talk_inv_send; [done|]).
    + split; [|done]. by apply talk_open.
  - split; [|done]. by apply talk_open.
Qed.

(** *** The server's view of the switches *)

Definition view_inv (s : comms) : Prop :=
  wsOpen s = true → ∀ c, c ∈ map ch CHANNELS_DEF →
  rx_on (server_view (session s)) c = default false (rxEnabled s !! c)
  ∧ tx_on (server_view (session s)) c = default false (txEnabled s !! c).

Lemma server_view_snoc data d : server_view (data ++ [d]) = server_receive (server_view data) d.
Proof. unfold server_view. by rewrite foldl_snoc. Qed.

Lemma channel_range c : c ∈ map ch CHANNELS_DEF → (0 <= c < MaxChannels)%Z.
Proof.
  intros Hc. assert (Forall (λ c, 0 <= c < MaxChannels)%Z (map ch CHANNELS_DEF)) as H
    by (apply (bool_decide_unpack _); by vm_compute).
  rewrite Forall_forall in H. by apply H.
Qed.

(** What each message does to the server's switches. *)
Lemma server_receive_msg v m :
  server_receive v (msg_bytes m) =
  match m with
  | MDown | MUp | MAudio _ => v
  | MRx c on =>
      {| rx_on := set_switch (rx_on v) (uint8 c) on; tx_on := tx_on v |}
  | MTx c on =>
      {| rx_on := rx_on v; tx_on := set_switch (tx_on v) (uint8 c) on |}
  | MRxAll on => {| rx_on := λ _, on; tx_on := tx_on v |}
  | MTxAll on => {| rx_on := rx_on v; tx_on := λ _, on |}
  end.
Proof. by destruct m as [| |enc|c []|c []|[]|[]]. Qed.

Lemma set_switch_lookup f c on x :
  (0 <= c < MaxChannels)%Z → set_switch f (uint8 c) on x = if decide (x = c) then on else f x.
Proof.
  unfold MaxChannels. intros Hc. unfold set_switch, uint8, MaxChannels. rewrite Z.mod_small by lia.
  by rewrite decide_False by lia.
Qed.

Lemma view_other s s' :
  wsOpen s' = wsOpen s → session s' = session s → rxEnabled s' = rxEnabled s →
  txEnabled s' = txEnabled s → view_inv s → view_inv s'.
Proof. intros H1 H2 H3 H4. unfold view_inv. by rewrite H1, H2, H3, H4. Qed.

Lemma view_send m s :
  match m with MDown | MUp | MAudio _ => True | _ => False end →
  view_inv s → view_inv (ws_send m s).
Proof.
  intros Hm Hv Ho. simpl in Ho. specialize (Hv Ho). intros c Hc. simpl. rewrite Ho.
  rewrite server_view_snoc, server_receive_msg. destruct m; try done; by apply Hv.
Qed.

Lemma pttDown_view s : view_inv s → view_inv (pttDown s).
Proof.
  intros Hv. unfold pttDown. destruct (pttActive s); [done|]. destruct (negb (any_tx s)); [done|].
  set (s1 := ws_send _ _). assert (view_inv s1) as H1 by (by apply view_send).
  eapply view_other; [..|exact H1]; unfold initAudioOnce; by destruct (audioInit s1).
Qed.

Lemma pttUp_view s : view_inv s → view_inv (pttUp s).
Proof.
  intros Hv. unfold pttUp. destruct (pttActive s); [|done]. simpl.
  apply view_send; [done|]. by destruct (voxEnabled s).
Qed.

Lemma view_toggle rx tx m s :
  (wsOpen s = true → ∀ c, c ∈ map ch CHANNELS_DEF →
     rx_on (server_receive (server_view (session s)) (msg_bytes m)) c = default false (rx !! c)
     ∧ tx_on (server_receive (server_view (session s)) (msg_bytes m)) c = default false (tx !! c)) →
  view_inv (ws_send m (set_channels rx tx s)).
Proof.
  intros H Ho c Hc. simpl in *. rewrite Ho. rewrite server_view_snoc. by apply H.
Qed.

Lemma for_channels_lookup f c :
  c ∈ map ch CHANNELS_DEF → for_channels f !! c = Some (f c).
Proof.
  intros Hc. unfold for_channels. apply elem_of_list_to_map_1.
  - apply (bool_decide_unpack _). by vm_compute.
  - apply list_elem_of_fmap in Hc as (d & -> & Hd). apply list_elem_of_fmap. by exists d.
Qed.

Lemma view_ws_send m s :
  wsOpen s = true →
  server_view (session (ws_send m s)) = server_receive (server_view (session s)) (msg_bytes m).
Proof. intros Ho. simpl. by rewrite Ho, server_view_snoc. Qed.

Lemma connected_view s cs :
  wsOpen s = true → (∀ c, c ∈ map ch cs → 0 <= c < MaxChannels)%Z →
  let s' := foldl (λ s c, ws_send (MTx (ch c) (default false (txEnabled s !! ch c)))
                     (ws_send (MRx (ch c) (default false (rxEnabled s !! ch c))) s)) s cs in
  rxEnabled s' = rxEnabled s ∧ txEnabled s' = txEnabled s
  ∧ ∀ c, rx_on (server_view (session s')) c
           = (if decide (c ∈ map ch cs) then default false (rxEnabled s !! c)
              else rx_on (server_view (session s)) c)
       ∧ tx_on (server_view (session s')) c
           = (if decide (c ∈ map ch cs) then default false (txEnabled s !! c)
              else tx_on (server_view (session s)) c).
Proof.
  revert s. induction cs as [|d cs IH]; intros s Ho Hr; [by simpl|]. cbn [foldl].
  set (s1 := ws_send _ (ws_send _ s)).
  destruct (IH s1) as (H1 & H2 & H3); [done|intros c Hc; apply Hr; set_solver|].
  assert (0 <= ch d < MaxChannels)%Z as Hd by (apply Hr; set_solver).
  split_and?; [by rewrite H1|by rewrite H2|]. intros c. destruct (H3 c) as [-> ->].
  assert (rx_on (server_view (session s1)) c
    = (if decide (c = ch d) then default false (rxEnabled s !! ch d)
       else rx_on (server_view (session s)) c)
    ∧ tx_on (server_view (session s1)) c
    = (if decide (c = ch d) then default false (txEnabled s !! ch d)
       else tx_on (server_view (session s)) c)) as [-> ->].
  { unfold s1. rewrite !view_ws_send, !server_receive_msg by done. cbn [rx_on tx_on].
    by rewrite !set_switch_lookup. }
  change (rxEnabled s1) with (rxEnabled s). change (txEnabled s1) with (txEnabled s).
  cbn [map]. destruct (decide (c = ch d)) as [->|Hne].
  - rewrite !(decide_True (P := ch d ∈ ch d :: _)) by by left. by case_decide.
  - assert (c ∈ ch d :: map ch cs ↔ c ∈ map ch cs) as Hin
      by (rewrite elem_of_cons; naive_solver).
    destruct (decide (c ∈ map ch cs)) as [Hc|Hc];
      [rewrite !(decide_True (P := c ∈ ch d :: _)) by tauto
      |rewrite !(decide_False (P := c ∈ ch d :: _)) by tauto]; done.
Qed.

Lemma view_connected s : view_inv (on_connected s).
Proof.
  intros _ c Hc. destruct (connected_view (set_ws true s) CHANNELS_DEF eq_refl channel_range)
    as (H1 & H2 & H3). fold (on_connected s) in H1, H2, H3. rewrite H1, H2.
  destruct (H3 c) as [-> ->]. by rewrite !decide_True.
Qed.

Lemma view_fire e s : view_inv s → enabled e s = true → view_inv (fire e s).
Proof.
  intros Hv He. destruct e; simpl in *.
  - by apply pttDown_view.
  - by apply pttUp_view.
  - unfold handleKeyDown. destruct (_ || _); [done|].
    eapply view_other; [..|exact Hv]; unfold initAudioOnce; by destruct (audioInit (set_space true s)).
  - apply pttUp_view. by eapply view_other; [..|exact Hv].
  - unfold handleVoxToggle. destruct on.
    + eapply view_other; [..|exact Hv]; simpl; unfold initAudioOnce; simpl; by destruct (audioInit s).
    + simpl. set (s1 := if voxActive s then _ else _).
      assert (view_inv s1) as H1; [|by eapply view_other; [..|exact H1]].
      unfold s1. destruct (voxActive s), (pttActive s); simpl;
        [apply view_send; [done|]|..]; by eapply view_other; [..|exact Hv].
  - unfold voxTick. destruct loud.
    + destruct (negb _); [apply pttDown_view|]; by eapply view_other; [..|exact Hv].
    + destruct (voxActive s && pttActive s); [|done]. destruct (voxTimer s); [done|].
      by eapply view_other; [..|exact Hv].
  - unfold voxTimeout. destruct (voxActive _ && _); [apply pttUp_view|];
      by eapply view_other; [..|exact Hv].
  - unfold handleFilePttSet. destruct active; (apply view_send; [done|]);
      by eapply view_other; [..|exact Hv].
  - apply bool_decide_eq_true, channel_range in He. apply view_toggle. intros Ho x Hx.
    rewrite server_receive_msg. simpl. rewrite set_switch_lookup by done.
    destruct (Hv Ho x Hx) as [-> ->]. rewrite lookup_insert. split; [|done].
    destruct (decide (x = c)) as [->|]; [by rewrite decide_True|by rewrite decide_False].
  - apply bool_decide_eq_true, channel_range in He. apply view_toggle. intros Ho x Hx.
    rewrite server_receive_msg. simpl. rewrite set_switch_lookup by done.
    destruct (Hv Ho x Hx) as [-> ->]. rewrite lookup_insert. split; [done|].
    destruct (decide (x = c)) as [->|]; [by rewrite decide_True|by rewrite decide_False].
  - apply view_toggle. intros Ho x Hx. rewrite server_receive_msg. simpl.
    destruct (Hv Ho x Hx) as [_ ->]. by rewrite for_channels_lookup.
  - apply view_toggle. intros Ho x Hx. rewrite server_receive_msg. simpl.
    destruct (Hv Ho x Hx) as [-> _]. by rewrite for_channels_lookup.
  - destruct (conts s !! k) as [[]|]; simpl; [|apply pttDown_view| |done];
      by eapply view_other; [..|exact Hv].
  - destruct got; by eapply view_other; [..|exact Hv].
  - unfold encoded_chunk. destruct (onEncodedChunk (mic s)) as [[]|]; [| |done];
      case_match; try done; by apply view_send.
  - apply view_connected.
  - by intros Ho.
Qed.

(** *** Between user actions *)

Definition mode_of (s : comms) : option mic_mode :=
  if pttActive s then Some Encode else if voxEnabled s then Some Meter else None.

(** The microphone is open exactly for the mode the page is in. *)
Definition idle_inv (s : comms) : Prop :=
  conts s = [] ∧ pending (mic s) = [] ∧ mediaDevices (mic s) = true
  ∧ audioCtx (mic s) = audioInit s
  ∧ (mode_of s ≠ None → audioInit s = true)
  ∧ micProcessor (mic s) = mode_of s
  ∧ (micStream (mic s) = None ↔ mode_of s = None)
  ∧ recording (mic s) = option_list (micStream (mic s))
  ∧ onEncodedChunk (mic s) = (if pttActive s then Some PttChunk else None).

Lemma idle_same s s' :
  conts s' = conts s → mic s' = mic s → audioInit s' = audioInit s →
  pttActive s' = pttActive s → voxEnabled s' = voxEnabled s → idle_inv s → idle_inv (settle s').
Proof.
  intros H1 H2 H3 H4 H5 Hi. assert (settle s' = s') as ->.
  { destruct Hi as (Hc & Hp & _). unfold settle. simpl. rewrite H1, Hc. simpl. rewrite H1, Hc. simpl.
    destruct s'; simpl in *. unfold on_mic, mic_resolved. simpl. subst. by rewrite Hp. }
  unfold idle_inv, mode_of. by rewrite H1, H2, H3, H4, H5.
Qed.

(** Opening the page's state into its cases. *)
Ltac idle_cases s Hi :=
  destruct s as [p v a t sp ai cs m ws rx tx tr se op];
  destruct m as [cx dev ms mp cb pe rec n sel g er];
  unfold idle_inv, mode_of in Hi;
  destruct Hi as (Hcs & Hpe & Hdev & Hcx & Hai & Hmp & Hms & Hrec & Hcb);
  cbn in Hcs, Hpe, Hdev, Hcx, Hai, Hmp, Hms, Hrec, Hcb; subst cs pe dev cx mp rec cb;
  destruct p; [|destruct v];
  try (assert (ai = true) as -> by (by apply Hai));
  (destruct ms as [i|]; [try (by destruct Hms as [_ Hms]; specialize (Hms eq_refl))
                        |try (by destruct Hms as [Hms _]; specialize (Hms eq_refl))]);
  clear Hai Hms; try destruct ai.

Lemma filter_single (i : nat) : filter (λ j, j ≠ i) [i] = [].
Proof. by rewrite filter_cons_False by naive_solver. Qed.

#[local] Opaque any_tx.

Ltac idle_done :=
  unfold idle_inv, mode_of; cbn -[filter]; rewrite ?filter_single; split_and?; try done.

Lemma idle_act_ptt s : idle_inv s → idle_inv (settle (pttDown s)).
Proof.
  intros Hi. idle_cases s Hi; unfold settle, pttDown; cbn -[filter];
    try destruct (any_tx _); idle_done.
Qed.

Lemma idle_act_pttUp s : idle_inv s → idle_inv (settle (pttUp s)).
Proof.
  intros Hi. idle_cases s Hi; unfold settle, pttUp, stopMic; try destruct v; cbn -[filter]; idle_done.
Qed.

Lemma idle_act_key s repeat typing : idle_inv s → idle_inv (settle (handleKeyDown repeat typing s)).
Proof.
  intros Hi. unfold handleKeyDown. destruct (_ || _); [by apply (idle_same s)|].
  idle_cases s Hi; unfold settle; cbn -[filter]; try destruct (any_tx _); idle_done.
Qed.

Lemma idle_act_vox s on :
  idle_inv s → leaks (VoxToggle on) s = false → idle_inv (settle (handleVoxToggle on s)).
Proof.
  intros Hi Hl. idle_cases s Hi; unfold settle, handleVoxToggle, stopMic; simpl in Hl;
    destruct on, a; try done; cbn -[filter]; idle_done.
Qed.

Lemma idle_ext s s' :
  conts s' = conts s → mic s' = mic s → audioInit s' = audioInit s →
  pttActive s' = pttActive s → voxEnabled s' = voxEnabled s → idle_inv s → idle_inv s'.
Proof. intros H1 H2 H3 H4 H5. unfold idle_inv, mode_of. by rewrite H1, H2, H3, H4, H5. Qed.

Lemma on_connected_fields s :
  let s' := on_connected s in
  conts s' = conts s ∧ mic s' = mic s ∧ audioInit s' = audioInit s
  ∧ pttActive s' = pttActive s ∧ voxEnabled s' = voxEnabled s.
Proof.
  unfold on_connected. apply (foldl_inv (λ s', conts s' = conts s ∧ mic s' = mic s
    ∧ audioInit s' = audioInit s ∧ pttActive s' = pttActive s ∧ voxEnabled s' = voxEnabled s)); done.
Qed.

Lemma idle_act e s :
  idle_inv s → quiet_event e = true → leaks e s = false → idle_inv (act e s).
Proof.
  intros Hi Hq Hl. unfold act. destruct e; try done; cbn [fire].
  - by apply idle_act_ptt.
  - by apply idle_act_pttUp.
  - by apply idle_act_key.
  - unfold handleKeyUp. apply idle_act_pttUp. by eapply idle_ext; [..|exact Hi].
  - by apply idle_act_vox.
  - unfold voxTick. destruct loud.
    + destruct (negb _); [apply idle_act_ptt; by eapply idle_ext; [..|exact Hi]|].
      by apply (idle_same s).
    + destruct (voxActive s && pttActive s); [|by apply (idle_same s)].
      by destruct (voxTimer s); apply (idle_same s).
  - unfold voxTimeout. destruct (voxActive _ && _); [|by apply (idle_same s)].
    apply idle_act_pttUp. by eapply idle_ext; [..|exact Hi].
  - by apply (idle_same s).
  - by apply (idle_same s).
  - by apply (idle_same s).
  - by apply (idle_same s).
  - unfold encoded_chunk. destruct (onEncodedChunk (mic s)) as [[]|]; try case_match;
      by apply (idle_same s).
  - destruct (on_connected_fields s) as (? & ? & ? & ? & ?). by apply (idle_same s).
  - by apply (idle_same s).
Qed.

Lemma idle_reachable s : rtc act_step (comms_init true) s → idle_inv s.
Proof.
  revert s. apply rtc_ind_r.
  - unfold idle_inv. by split_and?.
  - intros s s' _ (e & _ & Hq & Hl & ->). intros Hi. by apply idle_act.
Qed.

(** ** Properties *)

(** C10: however handlers, timers, awaits, permission prompts, encoder output and
    reconnects interleave, the voice handlers follow the talk protocol: what
    they send has PTT_DOWN and PTT_UP alternating, starting with PTT_DOWN, with
    audio only between them, and the page shows the key down exactly when the
    last of them was PTT_DOWN.  The same holds of what really goes out on each
    connection, messages dropped while the socket is closed apart: a connection
    that opens with the key up starts with PTT_DOWN and carries audio only
    between PTT_DOWN and PTT_UP; one that opens with the key held continues that
    press, its first talk byte is PTT_UP; and on the open connection the last
    talk byte is what the page shows.  A press that is not announced to the
    server is therefore only one during which the connection was opened, which
    does happen ([reconnect_mid_talk]). *)
Theorem ptt_protocol devices s :
  rtc voice_step (comms_init devices) s →
  talk false (map fst (traffic s)) = Some (pttActive s)
  ∧ (∀ n keyDown, opened s !! n = Some keyDown →
       ∃ d, talk keyDown (wire n s) = Some d
         ∧ (conn s = Some n → d = pttActive s))
  ∧ (∀ n, conn s = Some n → is_Some (opened s !! n))
  ∧ (∀ m n, (m, Some n) ∈ traffic s → is_Some (opened s !! n)).
Proof.
  intros Hs. enough (talk_inv s) as [(Ht & Ho & Hf & Hw) _].
  { split_and?; [done|..].
    - intros n k Hn. destruct (Hw n k Hn) as (d & Hd & Hl). exists d. split; [done|].
      apply lookup_lt_Some in Hn. unfold conn. destruct (wsOpen s); [|done].
      intros [= <-]. apply Hl; [done|]. lia.
    - unfold conn. intros n. destruct (wsOpen s); [|done]. intros [= <-]. apply lookup_lt_is_Some.
      specialize (Ho eq_refl). destruct (opened s); [done|simpl; lia].
    - intros m n Hin. rewrite Forall_forall in Hf. apply lookup_lt_is_Some. by apply (Hf _ Hin). }
  revert s Hs. apply rtc_ind_r; [|intros s s' _ (e & _ & Hf & ->) Hi; by apply talk_fire].
  split; [|done]. unfold talk_ok. by split_and?.
Qed.

(** C11: while the connection is up, whatever was toggled and however often it
    was re-established, the switches the server holds for this client are the
    ones the page shows. *)
Theorem channels_in_sync devices s c :
  rtc step (comms_init devices) s → wsOpen s = true → c ∈ map ch CHANNELS_DEF →
  rx_on (server_view (session s)) c = default false (rxEnabled s !! c)
  ∧ tx_on (server_view (session s)) c = default false (txEnabled s !! c).
Proof.
  intros Hs. enough (view_inv s) as H by (intros; by apply H).
  revert s Hs. apply rtc_ind_r; [done|]. intros s s' _ (e & He & ->) Hi. by apply view_fire.
Qed.

(** When each action's prompts and awaits complete before the next action,
    and voice activation is not switched off while it is triggered without the
    key down, the microphone is what the page shows: encoding while
    transmitting, metering while only voice activation is on, and otherwise no
    stream records at all. *)
Theorem mic_follows_page s :
  rtc act_step (comms_init true) s →
  micProcessor (mic s) = mode_of s
  ∧ (recording (mic s) = [] ↔ pttActive s = false ∧ voxEnabled s = false)
  ∧ (onEncodedChunk (mic s) = Some PttChunk ↔ pttActive s = true).
Proof.
  intros (_ & _ & _ & _ & _ & Hp & Hms & Hrec & Hcb)%idle_reachable.
  split_and?; [done| |].
  - rewrite Hrec. unfold mode_of in Hms.
    destruct (micStream (mic s)), (pttActive s), (voxEnabled s); naive_solver.
  - rewrite Hcb. by destruct (pttActive s).
Qed.

(** ** Witnesses and what the hypotheses exclude *)

Lemma comms_run_rtc es s s' : run es s = Some s' → rtc step s s'.
Proof.
  revert s. induction es as [|e es IH]; simpl; intros s H; [by simplify_eq|].
  destruct (enabled e s) eqn:He; [|done]. eapply rtc_l; [by exists e|by apply IH].
Qed.

Lemma run_voice_rtc es s s' :
  run es s = Some s' → forallb (λ e, negb (is_file e)) es = true → rtc voice_step s s'.
Proof.
  revert s. induction es as [|e es IH]; simpl; intros s H Hf; [by simplify_eq|].
  apply andb_true_iff in Hf as [Hf Hfs]. apply negb_true_iff in Hf.
  destruct (enabled e s) eqn:He; [|done]. eapply rtc_l; [by exists e|by apply IH].
Qed.

Definition talk_run : list comms_event :=
  [WsUp; KeyDown false false; Resume 0; Resume 0; Mic true 0; Chunk [7; 8]%Z; KeyUp; Chunk [9]%Z].

Definition after (es : list comms_event) (s : comms) : comms := default s (run es s).

Lemma ptt_protocol_witness :
  let s := after talk_run (comms_init true) in
  pttActive s = false ∧ talk false (map fst (traffic s)) = Some false
  ∧ opened s = [false] ∧ talk false (wire 0 s) = Some false
  ∧ filter is_talk (wire 0 s) = [MDown; MAudio [7; 8]%Z; MUp].
Proof.
  intros s. split; [vm_compute; reflexivity|].
  destruct (ptt_protocol true s) as (Ht & Hw & _);
    [apply (run_voice_rtc talk_run); vm_compute; reflexivity|].
  split; [exact Ht|]. split; [vm_compute; reflexivity|]. split; [|vm_compute; reflexivity].
  destruct (Hw 0 false eq_refl) as (d & Hd & Hl). rewrite Hd. f_equal. exact (Hl eq_refl).
Defined.

Lemma channels_in_sync_witness :
  let s := after [ToggleTx 3; WsUp; ToggleRx 2; RxAll false; ToggleRx 5] (comms_init true) in
  rx_on (server_view (session s)) 5%Z = default false (rxEnabled s !! 5%Z)
  ∧ tx_on (server_view (session s)) 5%Z = default false (txEnabled s !! 5%Z).
Proof.
  intros s. apply (channels_in_sync true s 5).
  - apply (comms_run_rtc [ToggleTx 3; WsUp; ToggleRx 2; RxAll false; ToggleRx 5]). vm_compute. reflexivity.
  - vm_compute. reflexivity.
  - apply (bool_decide_unpack _). vm_compute. reflexivity.
Defined.

Lemma mic_follows_page_witness :
  let s := act VoxTimeout (act (VoxTick false) (act (VoxTick true) (act (VoxToggle true) (comms_init true)))) in
  micProcessor (mic s) = Some Meter ∧ voxEnabled s = true.
Proof.
  intros s. assert (rtc act_step (comms_init true) s) as H.
  { eapply rtc_l; [exists (VoxToggle true); split_and?; vm_compute; reflexivity|].
    eapply rtc_l; [exists (VoxTick true); split_and?; vm_compute; reflexivity|].
    eapply rtc_l; [exists (VoxTick false); split_and?; vm_compute; reflexivity|].
    eapply rtc_l; [exists VoxTimeout; split_and?; vm_compute; reflexivity|]. apply rtc_refl. }
  split; [rewrite (proj1 (mic_follows_page s H)); vm_compute; reflexivity|vm_compute; reflexivity].
Defined.

(** Voice activation that triggered, and whose transmission ended by the key,
    keeps its flag; switching it off then takes the branch that does not close
    the microphone. *)
Theorem vox_off_leaves_mic_open :
  let s := act (VoxToggle false) (act KeyUp (act (VoxTick true) (act (VoxToggle true) (comms_init true)))) in
  pttActive s = false ∧ voxEnabled s = false ∧ isMicActive (mic s) = true.
Proof. by vm_compute. Qed.

(** The key released during the permission prompt: the prompt still opens the
    microphone, with the key up. *)
Theorem ptt_released_during_prompt :
  ∃ s, run [PttDown; Resume 0; PttUp; Mic true 0] (comms_init true) = Some s
    ∧ pttActive s = false ∧ voxEnabled s = false
    ∧ micProcessor (mic s) = Some Encode ∧ recording (mic s) = [0].
Proof. eexists. split; [vm_compute; reflexivity|]. repeat split. Qed.

(** Releasing the key while a file is transmitted ends the transmission: the
    file plays on, but its frames have no callback, and its own stop sends a
    second PTT_UP. *)
Theorem file_tx_cut_by_key :
  ∃ s, run [WsUp; FilePtt true; Chunk [1]%Z; KeyUp; Chunk [2]%Z; FilePtt false] (comms_init true) = Some s
    ∧ talk false (map fst (traffic s)) = None
    ∧ filter is_talk (map fst (traffic s))
      = [MDown; MAudio [1]%Z; MUp; MUp].
Proof. eexists. split; [vm_compute; reflexivity|]. by vm_compute. Qed.

(** A key pressed before the connection opens: the PTT_DOWN is dropped, and the
    new connection carries audio that no PTT_DOWN announced. *)
Theorem reconnect_mid_talk :
  ∃ s, run [PttDown; WsUp; Resume 0; Mic true 0; Chunk [1]%Z] (comms_init true) = Some s
    ∧ opened s = [true] ∧ filter is_talk (wire 0 s) = [MAudio [1]%Z]
    ∧ talk false (wire 0 s) = None.
Proof. eexists. split; [vm_compute; reflexivity|]. by vm_compute. Qed.

(** A key released while the connection is down: the PTT_UP is dropped, and the
    next connection does not send it, so the server was told PTT_DOWN last. *)
Theorem release_while_closed :
  ∃ s, run [WsUp; PttDown; WsDown; PttUp; WsUp] (comms_init true) = Some s
    ∧ pttActive s = false ∧ opened s = [false; false]
    ∧ filter is_talk (wire 0 s) = [MDown] ∧ filter is_talk (wire 1 s) = [].
Proof. eexists. split; [vm_compute; reflexivity|]. by vm_compute. Qed.
