(* ===== verification/Whisper.v ===== *)
(** [services/whisperService.js]: the captioning queue.  Decoded frames are
    decimated into a buffer per channel; a channel that fell silent becomes a
    job; jobs run one at a time through the WASM engine, whose output arrives
    line by line through one global hook.

    The engine is the environment: it prints lines and may throw.  Loading the
    model ([initWhisper]) is the event that makes the service ready. *)
From S2P Require Import Prelude Constants.

(** ** Extracting the text of a line *)

Definition is_digit (c : ascii) : bool := (48 <=? nat_of_ascii c) && (nat_of_ascii c <=? 57).
(** The ASCII part of the white space of [\s] and [trim()]. *)
Definition is_space (c : ascii) : bool :=
  existsb (Nat.eqb (nat_of_ascii c)) [9; 10; 11; 12; 13; 32].
Definition is_newline (c : ascii) : bool := existsb (Nat.eqb (nat_of_ascii c)) [10; 13].

(** One element of the pattern: a digit or a character. *)
Inductive pat := Digit | Char (c : ascii).

Fixpoint eat (ps : list pat) (s : list ascii) : option (list ascii) :=
  match ps, s with
  | [], _ => Some s
  | Digit :: ps', c :: s' => if is_digit c then eat ps' s' else None
  | Char d :: ps', c :: s' => if bool_decide (c = d) then eat ps' s' else None
  | _ :: _, [] => None
  end.

Fixpoint skip_space (s : list ascii) : list ascii :=
  match s with c :: s' => if is_space c then skip_space s' else s | [] => [] end.

(** [\d{2}:\d{2}:\d{2}\.\d{3}]. *)
Definition stamp : list pat :=
  [Digit; Digit; Char ":"; Digit; Digit; Char ":"; Digit; Digit; Char "."; Digit; Digit; Digit].

(** [(.* )]: up to the end of the line. *)
Fixpoint to_newline (s : list ascii) : list ascii :=
  match s with c :: s' => if is_newline c then [] else c :: to_newline s' | [] => [] end.

(** The pattern at one position: [\[stamp\s*-->\s*stamp\]\s*(.* )]. *)
Definition match_at (s : list ascii) : option (list ascii) :=
  eat (Char "[" :: stamp) s ≫= λ s1,
  eat [Char "-"; Char "-"; Char ">"] (skip_space s1) ≫= λ s2,
  eat (stamp ++ [Char "]"]) (skip_space s2) ≫= λ s3,
  Some (to_newline (skip_space s3)).

Fixpoint find_match (s : list ascii) : option (list ascii) :=
  match match_at s with
  | Some m => Some m
  | None => match s with [] => None | _ :: s' => find_match s' end
  end.

Definition trim (s : list ascii) : list ascii := rev (skip_space (rev (skip_space s))).

(** [text.indexOf(sub) !== -1]. *)
Fixpoint contains (sub s : list ascii) : bool :=
  bool_decide (take (length sub) s = sub)
  || match s with [] => false | _ :: s' => contains sub s' end.

(** ** State *)

Definition WHISPER_MAX_SAMPLES : Z := WHISPER_MAX_SEC * WHISPER_RATE.
Definition POLL_MS : Z := 200.
Definition MAX_MS : Z := 30000.

Record job (A : Type) := { j_ch : Z; j_ip : string; j_audio : list A }.
Arguments Build_job {A}. Arguments j_ch {A}. Arguments j_ip {A}. Arguments j_audio {A}.

Record chan (A : Type) := {
  audioBuf : list (list A); srcIP : string; lastRx : Z; pendingTranscribe : bool
}.
Arguments Build_chan {A}. Arguments audioBuf {A}. Arguments srcIP {A}. Arguments lastRx {A}.
Arguments pendingTranscribe {A}.

(** The running job: before its timeout fires, or polling. *)
Inductive phase := Scheduled | Polling (elapsed : Z).

Record running (A : Type) := {
  r_job : job A; r_phase : phase; transcript : list ascii; finished : bool
}.
Arguments Build_running {A}. Arguments r_job {A}. Arguments r_phase {A}.
Arguments transcript {A}. Arguments finished {A}.

Record whisper (A : Type) := mk_whisper {
  whisperReady : bool;
  whisperBusy : option (running A);      (* the running job, when busy *)
  chState : gmap Z (chan A);
  transcribeQueue : list (job A);
  delivered : list (Z * string * list ascii)
}.
Arguments mk_whisper {A}. Arguments whisperReady {A}. Arguments whisperBusy {A}.
Arguments chState {A}. Arguments transcribeQueue {A}. Arguments delivered {A}.

Section Whisper.
Context {A : Type} (zero : A).
Implicit Types (s : whisper A) (cs : chan A).

Definition new_chan : chan A := Build_chan [] "" 0 false.

Definition whisper_init : whisper A :=
  mk_whisper false None (list_to_map (map (λ c, (ch c, new_chan)) CHANNELS_DEF)) [] [].

Definition set_chan (c : Z) cs s : whisper A :=
  mk_whisper (whisperReady s) (whisperBusy s) (<[c := cs]> (chState s)) (transcribeQueue s)
    (delivered s).

Definition set_run (b : option (running A)) (q : list (job A)) s : whisper A :=
  mk_whisper (whisperReady s) b (chState s) q (delivered s).

Definition whisper_ready s : whisper A :=
  mk_whisper true (whisperBusy s) (chState s) (transcribeQueue s) (delivered s).

(** [ds[i] = pcm48k[Math.floor(i * 3)]]. *)
Definition downsample (pcm48k : list A) : list A :=
  map (λ i, nth (3 * i) pcm48k zero) (seq 0 (length pcm48k / 3)).

Definition feedAudio (c : Z) (pcm48k : list A) (ip : string) (now : Z) s : whisper A :=
  match chState s !! c with
  | None => s
  | Some cs =>
      set_chan c (Build_chan (audioBuf cs ++ [downsample pcm48k]) ip now (pendingTranscribe cs)) s
  end.

(** [audio.set(src, offset)] on an array that is long enough. *)
Definition blit (offset : nat) (src audio : list A) : list A :=
  take offset audio ++ src ++ drop (offset + length src) audio.

Fixpoint concat_chunks (chunks : list (list A)) (total offset : nat) (audio : list A) : list A :=
  match chunks with
  | [] => audio
  | chunk :: chunks' =>
      let copyLen := Nat.min (length chunk) (total - offset) in
      let audio' := blit offset (take copyLen chunk) audio in
      let offset' := offset + copyLen in
      if total <=? offset' then audio' else concat_chunks chunks' total offset' audio'
  end.

Definition processQueue s : whisper A :=
  match whisperBusy s with
  | Some _ => s
  | None =>
      match transcribeQueue s with
      | [] => s
      | j :: q => set_run (Some (Build_running j Scheduled [] false)) q s
      end
  end.

Definition queueTranscribe (c : Z) s : whisper A :=
  match chState s !! c with
  | None => s
  | Some cs =>
      if pendingTranscribe cs then s
      else
        let totalLen := foldl (λ n chunk, n + length chunk) 0 (audioBuf cs) in
        if decide (totalLen < WHISPER_MIN_SAMPLES)%Z then
          set_chan c (Build_chan [] (srcIP cs) (lastRx cs) false) s
        else
          let total := Z.to_nat (Z.min totalLen WHISPER_MAX_SAMPLES) in
          let audio := concat_chunks (audioBuf cs) total 0 (replicate total zero) in
          let s1 := set_chan c (Build_chan [] (srcIP cs) (lastRx cs) true) s in
          processQueue
            (set_run (whisperBusy s1) (transcribeQueue s1 ++ [Build_job c (srcIP cs) audio]) s1)
  end.

(** One channel of the tick. *)
Definition check_channel (now c : Z) s : whisper A :=
  match chState s !! c with
  | None => s
  | Some cs =>
      if decide (audioBuf cs = []) then s
      else if decide (now - lastRx cs < WHISPER_SILENCE_MS)%Z then s
      else queueTranscribe c s
  end.

Definition checkSilenceAndTranscribe (now : Z) s : whisper A :=
  if whisperReady s then foldl (λ s d, check_channel now (ch d) s) s CHANNELS_DEF else s.

(** [chState[job.ch].pendingTranscribe = false; whisperBusy = false;
    processQueue()]. *)
Definition release (j : job A) s : whisper A :=
  processQueue
    (mk_whisper (whisperReady s) None
       (alter (λ cs, Build_chan (audioBuf cs) (srcIP cs) (lastRx cs) false) (j_ch j) (chState s))
       (transcribeQueue s) (delivered s)).

(** The 50 ms timeout: [full_default] returns or throws. *)
Definition run_inference (throws : bool) s : whisper A :=
  match whisperBusy s with
  | Some r =>
      match r_phase r with
      | Scheduled =>
          if throws then release (r_job r) s
          else set_run (Some (Build_running (r_job r) (Polling 0) (transcript r) (finished r)))
                 (transcribeQueue s) s
      | Polling _ => s
      end
  | None => s
  end.

(** [window._whisperOutputHook(text)]. *)
Definition whisper_print (text : list ascii) s : whisper A :=
  match whisperBusy s with
  | Some r =>
      let t :=
        match find_match text with
        | Some m => match trim m with [] => transcript r | w => transcript r ++ w ++ [" "%char] end
        | None => transcript r
        end in
      let f := finished r || contains (String.list_ascii_of_string "whisper_print_timings") text in
      set_run (Some (Build_running (r_job r) (r_phase r) t f)) (transcribeQueue s) s
  | None => s
  end.

Definition finalize (r : running A) s : whisper A :=
  let cleaned := trim (transcript r) in
  let meaningful := bool_decide (cleaned ≠ [] ∧ cleaned ≠ String.list_ascii_of_string "[BLANK_AUDIO]"
                                 ∧ 1 < length cleaned) in
  release (r_job r)
    (if meaningful then
       mk_whisper (whisperReady s) (whisperBusy s) (chState s) (transcribeQueue s)
         (delivered s ++ [(j_ch (r_job r), j_ip (r_job r), cleaned)])
     else s).

(** One tick of the completion poll. *)
Definition poll_tick s : whisper A :=
  match whisperBusy s with
  | Some r =>
      match r_phase r with
      | Scheduled => s
      | Polling e =>
          let elapsed := (e + POLL_MS)%Z in
          let r' := Build_running (r_job r) (Polling elapsed) (transcript r) (finished r) in
          if decide (finished r = true ∨ MAX_MS <= elapsed)%Z then finalize r' s
          else set_run (Some r') (transcribeQueue s) s
      end
  | None => s
  end.

Definition reset s : whisper A :=
  foldl (λ s d, match chState s !! ch d with
                | Some _ => set_chan (ch d) new_chan s
                | None => s
                end) s CHANNELS_DEF.

(** ** The machine *)

Inductive whisper_event :=
| Ready
| Feed (c : Z) (pcm48k : list A) (ip : string) (now : Z)
| Tick (now : Z)
| Inference (throws : bool)
| PrintLine (text : list ascii)
| PollTick
| Reset_.

Definition fire (e : whisper_event) s : whisper A :=
  match e with
  | Ready => whisper_ready s
  | Feed c pcm ip now => feedAudio c pcm ip now s
  | Tick now => checkSilenceAndTranscribe now s
  | Inference throws => run_inference throws s
  | PrintLine text => whisper_print text s
  | PollTick => poll_tick s
  | Reset_ => reset s
  end.

Definition is_reset (e : whisper_event) : bool := match e with Reset_ => true | _ => false end.

Definition step s s' : Prop := ∃ e, is_reset e = false ∧ s' = fire e s.

(** Every job: the running one first. *)
Definition jobs s : list (job A) :=
  (if whisperBusy s is Some r then [r_job r] else []) ++ transcribeQueue s.

Definition job_ok (j : job A) : Prop :=
  (WHISPER_MIN_SAMPLES ≤ length (j_audio j) ≤ WHISPER_MAX_SAMPLES)%Z.

Definition whisper_inv s : Prop :=
  NoDup (map j_ch (jobs s))
  ∧ (∀ c, c ∈ map j_ch (jobs s) ↔ pendingTranscribe <$> chState s !! c = Some true)
  ∧ Forall job_ok (jobs s)
  ∧ (whisperBusy s = None → transcribeQueue s = [])
  ∧ (∀ r e, whisperBusy s = Some r → r_phase r = Polling e → (0 <= e < MAX_MS)%Z ∧ (POLL_MS | e)%Z).
End Whisper.
Arguments whisper_event A : clear implicits.

(** ** Lemmas *)

Section Lemmas.
Context {A : Type} (zero : A).
Implicit Types (s : whisper A) (cs : chan A).

Lemma downsample_lookup (pcm : list A) i :
  i < length pcm / 3 → downsample zero pcm !! i = pcm !! (3 * i).
Proof.
  intros Hi. unfold downsample. rewrite list_lookup_fmap, lookup_seq_lt by done. simpl.
  assert (3 * i < length pcm) as Hlt by (pose proof (Nat.div_mod_eq (length pcm) 3); lia).
  destruct (lookup_lt_is_Some_2 pcm (3 * i) Hlt) as [x Hx].
  change (i + (i + (i + 0))) with (3 * i). rewrite Hx. f_equal.
  by apply nth_lookup_Some.
Qed.

Lemma downsample_length (pcm : list A) : length (downsample zero pcm) = length pcm / 3.
Proof. unfold downsample. by rewrite length_map, length_seq. Qed.

Lemma total_length (chunks : list (list A)) n :
  foldl (λ n chunk, n + length chunk) n chunks = n + length (concat chunks).
Proof.
  revert n. induction chunks as [|c chunks IH]; intros n; simpl; [lia|].
  rewrite IH, length_app. lia.
Qed.

(** The copy loop fills the array with the first samples of the chunks. *)
Lemma concat_chunks_take chunks total offset (audio : list A) :
  length audio = total → offset ≤ total → total - offset ≤ length (concat chunks) →
  concat_chunks chunks total offset audio
  = take offset audio ++ take (total - offset) (concat chunks).
Proof.
  revert offset audio. induction chunks as [|c chunks IH]; intros offset audio Hl Ho Hc; simpl in *.
  { replace offset with total by lia. by rewrite take_nil, app_nil_r, firstn_all2 by lia. }
  rewrite length_app in Hc. set (copyLen := Nat.min (length c) (total - offset)).
  assert (length (take copyLen c) = copyLen) as Hlc by (rewrite length_take; lia).
  destruct (total <=? offset + copyLen) eqn:Hb.
  - apply Nat.leb_le in Hb. unfold blit. rewrite drop_ge by lia. rewrite app_nil_r.
    rewrite take_app_le by lia. do 2 f_equal. lia.
  - apply Nat.leb_gt in Hb. assert (copyLen = length c) as Hcl by lia.
    unfold blit. rewrite Hlc. rewrite IH.
    + rewrite Hcl, firstn_all. rewrite (app_assoc (take offset audio) c), take_app_length'
        by (rewrite length_app, length_take; lia).
      rewrite <- app_assoc. f_equal.
      rewrite take_app_ge by lia. do 2 f_equal. lia.
    + rewrite !length_app, length_take, length_drop, Hlc. lia.
    + lia.
    + lia.
Qed.

Lemma jobs_set_run b q s :
  jobs (set_run b q s) = (if b is Some r then [r_job r] else []) ++ q.
Proof. done. Qed.

Lemma processQueue_jobs s : jobs (processQueue s) = jobs s ∧ chState (processQueue s) = chState s.
Proof.
  unfold processQueue, jobs. destruct (whisperBusy s) as [r|] eqn:Hb; [by rewrite Hb|].
  destruct (transcribeQueue s) as [|j q] eqn:Hq; [by rewrite Hb, Hq|done].
Qed.

Lemma processQueue_idle s :
  whisperBusy (processQueue s) = None → transcribeQueue (processQueue s) = [].
Proof.
  unfold processQueue. destruct (whisperBusy s) eqn:Hb; [congruence|].
  destruct (transcribeQueue s) eqn:Hq; [done|discriminate].
Qed.

(** What [processQueue] needs to re-establish the invariant. *)
Definition pre_inv s : Prop :=
  NoDup (map j_ch (jobs s))
  ∧ (∀ c, c ∈ map j_ch (jobs s) ↔ pendingTranscribe <$> chState s !! c = Some true)
  ∧ Forall job_ok (jobs s)
  ∧ (∀ r e, whisperBusy s = Some r → r_phase r = Polling e → (0 <= e < MAX_MS)%Z ∧ (POLL_MS | e)%Z).

Lemma whisper_inv_process s : pre_inv s → whisper_inv (processQueue s).
Proof.
  intros (H1 & H2 & H3 & H5). destruct (processQueue_jobs s) as [Hj Hc].
  unfold whisper_inv. rewrite Hj, Hc. split_and?; [done|done|done|apply processQueue_idle|].
  unfold processQueue. intros r e. destruct (whisperBusy s) eqn:Hb; [rewrite Hb; eauto|].
  destruct (transcribeQueue s); [congruence|]. simpl. by intros [= <-].
Qed.

Lemma whisper_inv_chan c cs cs0 s :
  whisper_inv s → chState s !! c = Some cs0 → pendingTranscribe cs = pendingTranscribe cs0 →
  whisper_inv (set_chan c cs s).
Proof.
  intros (H1 & H2 & H3 & H4 & H5) Hc Hp. unfold whisper_inv.
  split_and?; [done| |done|done|done]. intros c'. rewrite H2. simpl. rewrite lookup_insert.
  case_decide; [subst; by rewrite Hc; simpl; rewrite Hp|done].
Qed.

Lemma queueTranscribe_inv c s : whisper_inv s → whisper_inv (queueTranscribe zero c s).
Proof.
  intros Hi. unfold queueTranscribe. destruct (chState s !! c) as [cs|] eqn:Hc; [|done].
  destruct (pendingTranscribe cs) eqn:Hp; [done|]. rewrite total_length. simpl.
  case_decide as Hmin; [by eapply whisper_inv_chan|].
  apply whisper_inv_process. destruct Hi as (H1 & H2 & H3 & H4 & H5).
  set (total := Z.to_nat _). set (j := Build_job c (srcIP cs) _).
  set (s' := set_run _ _ _). assert (jobs s' = jobs s ++ [j]) as Hj
    by (unfold s', jobs; simpl; by rewrite app_assoc).
  assert (c ∉ map j_ch (jobs s)) as Hnc by (rewrite H2, Hc; simpl; congruence).
  unfold pre_inv. rewrite Hj, map_app. change (map j_ch [j]) with [c]. split_and?.
  - apply NoDup_app. split_and?; [done| |apply NoDup_singleton]. intros x Hx ->%list_elem_of_singleton.
    done.
  - intros c'. rewrite elem_of_app, list_elem_of_singleton, H2. unfold s'. simpl.
    rewrite lookup_insert. case_decide; [subst; by split; [|right]|]. naive_solver.
  - apply Forall_app. split; [done|]. apply Forall_singleton. unfold job_ok, j. simpl.
    rewrite concat_chunks_take; [|by rewrite length_replicate|lia|unfold total; lia].
    rewrite length_app, !length_take, length_replicate.
    unfold total, WHISPER_MAX_SAMPLES, WHISPER_MAX_SEC, WHISPER_MIN_SAMPLES, WHISPER_RATE in *.
    change (16000 / 2)%Z with 8000%Z in *. lia.
  - exact H5.
Qed.

Lemma release_inv (r : running A) s :
  whisper_inv s → whisperBusy s = Some r → whisper_inv (release (r_job r) s).
Proof.
  intros (H1 & H2 & H3 & H4 & H5) Hb. apply whisper_inv_process.
  assert (jobs s = r_job r :: transcribeQueue s) as Hj by (unfold jobs; by rewrite Hb).
  rewrite Hj in *. simpl in H1. apply NoDup_cons in H1 as [Hnc H1]. apply Forall_cons in H3 as [_ H3].
  unfold pre_inv, jobs. simpl. split_and?; [done| |done|done].
  intros c. destruct (decide (c = j_ch (r_job r))) as [->|Hne].
  - rewrite lookup_alter_eq. split; [done|]. destruct (chState s !! _); simpl; congruence.
  - rewrite lookup_alter_ne by done. rewrite <- H2. simpl. set_solver.
Qed.

Lemma foldl_channels_inv (P : whisper A → Prop) (f : Z → whisper A → whisper A) s :
  (∀ c s, P s → P (f c s)) → P s → P (foldl (λ s d, f (ch d) s) s CHANNELS_DEF).
Proof. intros Hf. apply foldl_inv. intros. by apply Hf. Qed.

(** The running job's output does not touch the queue's invariant. *)
Lemma set_run_inv (r r' : running A) s :
  whisper_inv s → whisperBusy s = Some r → r_job r' = r_job r →
  (∀ e, r_phase r' = Polling e → (0 <= e < MAX_MS)%Z ∧ (POLL_MS | e)%Z) →
  whisper_inv (set_run (Some r') (transcribeQueue s) s).
Proof.
  intros (H1 & H2 & H3 & H4 & H5) Hb Hr He. unfold whisper_inv.
  assert (jobs (set_run (Some r') (transcribeQueue s) s) = jobs s) as ->
    by (unfold jobs; simpl; by rewrite Hb, Hr).
  split_and?; [done|done|done|done|]. simpl. intros r0 e [= <-]. by apply He.
Qed.

Lemma whisper_inv_fire e s : whisper_inv s → is_reset e = false → whisper_inv (fire zero e s).
Proof.
  intros Hi He. destruct e as [|c pcm ip now|now|throws|text| |]; simpl; [done| | | | | |done].
  - unfold feedAudio. destruct (chState s !! c) as [cs|] eqn:Hc; [|done].
    by eapply whisper_inv_chan.
  - unfold checkSilenceAndTranscribe. destruct (whisperReady s); [|done].
    apply foldl_channels_inv; [|done]. intros c s' Hs'. unfold check_channel.
    destruct (chState s' !! c); [|done]. do 2 (case_decide; [done|]). by apply queueTranscribe_inv.
  - unfold run_inference. destruct (whisperBusy s) as [r|] eqn:Hb; [|done].
    destruct (r_phase r); [|done]. destruct throws; [by apply release_inv|].
    eapply set_run_inv; [done..|]. simpl. intros e [= <-]. split; [unfold MAX_MS; lia|apply Z.divide_0_r].
  - unfold whisper_print. destruct (whisperBusy s) as [r|] eqn:Hb; [|done].
    eapply set_run_inv; [done..|]. simpl. intros e Hr. by eapply Hi.
  - unfold poll_tick. destruct (whisperBusy s) as [r|] eqn:Hb; [|done].
    destruct (r_phase r) as [|e] eqn:Hr; [done|]. destruct (proj2 (proj2 (proj2 (proj2 Hi))) r e Hb Hr) as [He1 He2].
    case_decide as Hd.
    + unfold finalize. set (r' := Build_running _ _ _ _). change (r_job r') with (r_job r).
      apply release_inv; [|by case_match]. by case_match.
    + eapply set_run_inv; [done..|]. simpl. intros e' [= <-].
      split; [unfold POLL_MS in *; lia|].
      by apply Z.divide_add_r; [|apply Z.divide_refl].
Qed.

Lemma whisper_inv_reachable s : rtc (step zero) whisper_init s → whisper_inv s.
Proof.
  revert s. apply rtc_ind_r; [|intros s s' _ (e & He & ->) Hi; by apply whisper_inv_fire].
  assert (∀ c cs, chState (whisper_init (A := A)) !! c = Some cs → cs = new_chan) as Hnew.
  { intros c cs Hcs%elem_of_list_to_map_2. by apply list_elem_of_fmap in Hcs as (d & [= -> ->] & _). }
  unfold whisper_inv. split_and?; [constructor| |constructor|done|done].
  intros c. split; [by intros ?%elem_of_nil|]. intros (cs & Hcs & Hp)%fmap_Some.
  by rewrite (Hnew _ _ Hcs) in Hp.
Qed.
End Lemmas.

(** ** Properties *)

Definition utterance {A} (zero : A) (frames : list (list A)) : list A :=
  concat (map (downsample zero) frames).

Lemma feed_all {A} (zero : A) c ip now frames (s : whisper A) cs :
  chState s !! c = Some cs → frames ≠ [] →
  foldl (λ s pcm, feedAudio zero c pcm ip now s) s frames
  = set_chan c (Build_chan (audioBuf cs ++ map (downsample zero) frames) ip now (pendingTranscribe cs)) s.
Proof.
  intros Hc Hne. assert (∀ frames s cs, chState s !! c = Some cs →
    foldl (λ s pcm, feedAudio zero c pcm ip now s) s frames
    = match frames with
      | [] => s
      | _ => set_chan c (Build_chan (audioBuf cs ++ map (downsample zero) frames) ip now (pendingTranscribe cs)) s
      end) as H.
  { clear. induction frames as [|pcm frames IH]; intros s cs Hc; [done|]. cbn [foldl].
    unfold feedAudio at 2. rewrite Hc. set (cs1 := Build_chan _ _ _ _).
    rewrite (IH _ cs1); [|simpl; by rewrite lookup_insert_eq].
    destruct frames as [|pcm' frames]; [done|].
    unfold set_chan. simpl. by rewrite insert_insert_eq, <- app_assoc. }
  rewrite (H _ _ _ Hc). by destruct frames.
Qed.

(** C12: an utterance becomes captions input intact.  Frames fed to an idle
    channel that then stays silent for [WHISPER_SILENCE_MS] are queued as one
    job holding every third sample of each frame, in order, cut at thirty
    seconds and attributed to the speaker; less than half a second is discarded;
    before that nothing happens, and the channel's buffer is empty afterwards. *)
Theorem whisper_utterance {A} (zero : A) (s : whisper A) cs c ip now later (frames : list (list A)) :
  chState s !! c = Some cs → audioBuf cs = [] → pendingTranscribe cs = false → frames ≠ [] →
  let s1 := foldl (λ s pcm, feedAudio zero c pcm ip now s) s frames in
  let s2 := check_channel zero later c s1 in
  let u := utterance zero frames in
  (∀ pcm i, i < length pcm / 3 → downsample zero pcm !! i = pcm !! (3 * i))
  ∧ ((later - now < WHISPER_SILENCE_MS)%Z → s2 = s1)
  ∧ ((WHISPER_SILENCE_MS <= later - now)%Z →
     jobs s2 = jobs s ++ (if decide (length u < WHISPER_MIN_SAMPLES)%Z then []
                          else [Build_job c ip (take (Z.to_nat WHISPER_MAX_SAMPLES) u)])
     ∧ audioBuf <$> chState s2 !! c = Some []).
Proof.
  intros Hc Hbuf Hp Hne s1 s2 u.
  assert (s1 = set_chan c (Build_chan (map (downsample zero) frames) ip now false) s) as Hs1
    by (unfold s1; rewrite (feed_all zero c ip now frames s cs) by done; by rewrite Hbuf, Hp).
  assert (chState s1 !! c = Some (Build_chan (map (downsample zero) frames) ip now false)) as Hc1
    by (rewrite Hs1; simpl; by rewrite lookup_insert_eq).
  assert (map (downsample zero) frames ≠ []) as Hne' by (by destruct frames).
  split_and?; [apply downsample_lookup| |]; intros Hsil; unfold s2, check_channel; rewrite Hc1; simpl.
  - rewrite (decide_False (P := _ = [])) by done. by rewrite decide_True.
  - rewrite (decide_False (P := _ = [])) by done. rewrite decide_False by lia. unfold queueTranscribe. rewrite Hc1. simpl.
    rewrite total_length. simpl. fold u. change (concat _) with u. case_decide as Hmin.
    + rewrite Hs1. unfold jobs. simpl. by rewrite app_nil_r, lookup_insert_eq.
    + set (j := Build_job _ _ _). set (s' := set_run _ _ _).
      destruct (processQueue_jobs s') as [-> ->]. split.
      * unfold s', jobs. simpl. rewrite Hs1. simpl. rewrite app_assoc. do 2 f_equal.
        unfold j. f_equal. rewrite concat_chunks_take; [|by rewrite length_replicate|lia|].
        -- simpl. rewrite Nat.sub_0_r. fold (utterance zero frames). fold u.
           destruct (decide (length u ≤ Z.to_nat WHISPER_MAX_SAMPLES)).
           ++ rewrite !firstn_all2; [done|lia|]. lia.
           ++ f_equal. lia.
        -- fold (utterance zero frames). fold u. lia.
      * unfold s'. simpl. by rewrite lookup_insert_eq.
Qed.

Lemma poll_ticks {A} (n : nat) e (r : running A) (s : whisper A) :
  whisperBusy s = Some r → r_phase r = Polling e → finished r = false →
  (e + n * POLL_MS < MAX_MS)%Z →
  let s' := Nat.iter n poll_tick s in
  whisperBusy s' = Some (Build_running (r_job r) (Polling (e + n * POLL_MS)) (transcript r) false)
  ∧ chState s' = chState s ∧ transcribeQueue s' = transcribeQueue s.
Proof.
  intros Hb Hr Hf. induction n as [|n IH]; intros Hn.
  - simpl. split_and?; [|done|done]. rewrite Hb. destruct r; simpl in *. subst. do 3 f_equal. lia.
  - destruct IH as (H1 & H2 & H3); [unfold POLL_MS in *; lia|]. simpl.
    set (s0 := Nat.iter n poll_tick s) in *. unfold poll_tick. rewrite H1. simpl.
    rewrite decide_False by (intros [?|?]; [done|unfold POLL_MS, MAX_MS in *; lia]).
    simpl. split_and?; [|done|done]. do 3 f_equal. lia.
Qed.

(** C13: over any operations but [reset], each channel has at most one job, the
    pending flag says exactly which channels have one, every job is between half
    a second and thirty seconds long, and no job waits while none runs.  A job
    whose inference threw, or that was polled for thirty seconds, releases its
    channel and lets the next one start, whatever the engine printed. *)
Theorem whisper_jobs {A} (zero : A) (s : whisper A) :
  rtc (step zero) whisper_init s →
  NoDup (map j_ch (jobs s))
  ∧ (∀ c, c ∈ map j_ch (jobs s) ↔ pendingTranscribe <$> chState s !! c = Some true)
  ∧ Forall job_ok (jobs s)
  ∧ (whisperBusy s = None → transcribeQueue s = [])
  ∧ (∀ r, whisperBusy s = Some r →
       let s1 := if r_phase r is Scheduled then run_inference false s else s in
       let s2 := run_inference true s in
       (r_phase r = Scheduled → jobs s2 = transcribeQueue s
          ∧ pendingTranscribe <$> chState s2 !! j_ch (r_job r) = Some false)
       ∧ ∃ n, n ≤ 150 ∧ jobs (Nat.iter n poll_tick s1) = transcribeQueue s
            ∧ pendingTranscribe <$> chState (Nat.iter n poll_tick s1) !! j_ch (r_job r) = Some false).
Proof.
  intros Hi%whisper_inv_reachable. pose proof Hi as (H1 & H2 & H3 & H4 & H5).
  split_and?; [done|done|done|done|]. intros r Hb s1 s2.
  assert (jobs s = r_job r :: transcribeQueue s) as Hj by (unfold jobs; by rewrite Hb).
  assert (pendingTranscribe <$> chState s !! j_ch (r_job r) = Some true) as Hp
    by (apply H2; rewrite Hj; set_solver).
  assert (∀ s', transcribeQueue s' = transcribeQueue s → chState s' = chState s →
    jobs (release (r_job r) s') = transcribeQueue s
    ∧ pendingTranscribe <$> chState (release (r_job r) s') !! j_ch (r_job r) = Some false) as Hrel.
  { intros s' Hq Hc. unfold release. destruct (processQueue_jobs (mk_whisper (whisperReady s') None
      (alter (λ cs, Build_chan (audioBuf cs) (srcIP cs) (lastRx cs) false) (j_ch (r_job r)) (chState s'))
      (transcribeQueue s') (delivered s'))) as [-> ->].
    unfold jobs. simpl. rewrite Hq, Hc, lookup_alter_eq. split; [done|].
    apply fmap_Some in Hp as (cs & -> & _). done. }
  split.
  - intros Hs. unfold s2, run_inference. rewrite Hb, Hs. by apply Hrel.
  - assert (∃ r1 e, whisperBusy s1 = Some r1 ∧ r_phase r1 = Polling e ∧ r_job r1 = r_job r
      ∧ (0 <= e < MAX_MS)%Z ∧ (POLL_MS | e)%Z
      ∧ transcribeQueue s1 = transcribeQueue s ∧ chState s1 = chState s)
      as (r1 & e & Hb1 & Hr1 & Hj1 & He & [q Hq] & Hq1 & Hc1).
    { unfold s1. destruct (r_phase r) as [|e] eqn:Hr.
      - unfold run_inference. rewrite Hb, Hr. simpl. eexists _, 0%Z.
        split_and?; [done..|unfold MAX_MS; lia|unfold MAX_MS; lia|apply Z.divide_0_r|done|done].
      - exists r, e. destruct (H5 r e Hb Hr). naive_solver. }
    assert (∀ s' r' e', whisperBusy s' = Some r' → r_job r' = r_job r → r_phase r' = Polling e' →
      (finished r' = true ∨ MAX_MS <= e' + POLL_MS)%Z → transcribeQueue s' = transcribeQueue s →
      chState s' = chState s → jobs (poll_tick s') = transcribeQueue s
      ∧ pendingTranscribe <$> chState (poll_tick s') !! j_ch (r_job r) = Some false) as Hend.
    { intros s' r' e' Hb' Hj' Hr' Hd Hq' Hc'. unfold poll_tick. rewrite Hb', Hr'.
      rewrite decide_True by done. unfold finalize. simpl. rewrite Hj'.
      by apply Hrel; case_match. }
    destruct (finished r1) eqn:Hf.
    { exists 1. split; [lia|]. simpl. eapply Hend; eauto. }
    unfold POLL_MS, MAX_MS in *. set (n := Z.to_nat (149 - q)).
    destruct (poll_ticks n e r1 s1) as (G1 & G2 & G3); [done..|unfold POLL_MS, MAX_MS; lia|].
    exists (S n). split; [lia|]. simpl. eapply Hend; [exact G1|done|done| |congruence|congruence].
    right. unfold POLL_MS. lia.
Qed.

(** ** Witnesses and what [reset] breaks *)

Lemma whisper_utterance_witness :
  let s := whisper_init (A := Z) in
  let s1 := foldl (λ s pcm, feedAudio 0%Z 1 pcm "10.41.0.2" 100 s) s [[1; 2; 3; 4; 5; 6]; [7; 8; 9]]%Z in
  let s2 := check_channel 0%Z 1600 1 s1 in
  downsample 0%Z [1; 2; 3; 4; 5; 6]%Z = [1; 4]%Z ∧ audioBuf <$> chState s2 !! 1%Z = Some [].
Proof.
  intros s s1 s2. split; [reflexivity|].
  destruct (whisper_utterance 0%Z s (new_chan (A := Z)) 1 "10.41.0.2" 100 1600
    [[1; 2; 3; 4; 5; 6]; [7; 8; 9]]%Z) as (_ & _ & H); [vm_compute; reflexivity|reflexivity..|congruence|].
  apply H. unfold WHISPER_SILENCE_MS. lia.
Defined.

(** Half a second of audio at 48 kHz, in one frame. *)
Definition loud_frame : list Z := replicate 24000 1%Z.

Definition whisper_ex : list (whisper_event Z) :=
  [Ready; Feed 2 loud_frame "10.41.0.3" 0; Tick 2000].

Definition after {A} (zero : A) (es : list (whisper_event A)) : whisper A :=
  foldl (λ s e, fire zero e s) whisper_init es.

Lemma after_step {A} (zero : A) es :
  forallb (λ e, negb (is_reset e)) es = true → rtc (step zero) whisper_init (after zero es).
Proof.
  unfold after. generalize (whisper_init (A := A)) as s.
  induction es as [|e es IH]; intros s H; [apply rtc_refl|].
  simpl in H. apply andb_true_iff in H as [He H]. apply negb_true_iff in He.
  eapply rtc_l; [by exists e|by apply IH].
Qed.

Lemma whisper_jobs_witness :
  let s := after 0%Z whisper_ex in
  map j_ch (jobs s) = [2%Z] ∧ NoDup (map j_ch (jobs s)).
Proof.
  intros s. split; [vm_compute; reflexivity|].
  apply (whisper_jobs 0%Z s). apply (after_step 0%Z whisper_ex). reflexivity.
Defined.

Example whisper_line :
  find_match (String.list_ascii_of_string "[00:00:00.000 --> 00:00:02.000]   Hello world")
  = Some (String.list_ascii_of_string "Hello world").
Proof. reflexivity. Qed.

(** [reset] clears the pending flags of channels whose jobs still run: such a
    channel gets a second job. *)
Theorem whisper_reset_duplicates :
  map j_ch (jobs (after 0%Z (whisper_ex ++ [Reset_; Feed 2 loud_frame "10.41.0.3" 4000; Tick 6000])))
  = [2; 2]%Z.
Proof. by vm_compute. Qed.
