(* ===== verification/MeshJoin.v ===== *)
(** [utils/meshJoin.js] and the regulatory helpers of
    [pages/setup/meshChannels.js]: decoding a scanned mesh code, checking its
    credentials against a radio, channel widths and the 2.4 GHz backhaul.

    Text is a string of code units (the dashes and dots outside ASCII in the
    messages are written as [-]); base64 and the protobuf decoder are library
    code and arguments of [decodeMeshJoinText]. *)
From S2P Require Import Prelude JsString.

(** ** The enums of the wireless API *)

Inductive WifiEncryption :=
| ENC_UNSPECIFIED | SAE | PSK2 | PSK | PSK_MIXED | ENC_NONE | OWE | SAE_MIXED.
#[export] Instance WifiEncryption_eq_dec : EqDecision WifiEncryption.
Proof. solve_decision. Defined.

Inductive WifiHTMode :=
| HT_UNSPECIFIED | NOHT | HT20 | HT40_MINUS | HT40_PLUS | HT40
| VHT20 | VHT40 | VHT80 | VHT160 | HE20 | HE40 | HE80 | HE160
| S1G_1MHZ | S1G_2MHZ | S1G_4MHZ | S1G_8MHZ.
#[export] Instance WifiHTMode_eq_dec : EqDecision WifiHTMode.
Proof. solve_decision. Defined.

Record MeshCredentials := {
  meshId : string; passphrase : string; encryption : WifiEncryption;
  bandwidthMhz : Z; channel : Z; countryCode : string
}.

Record MeshJoinPayload := {
  sourceHostname : string; halow : option MeshCredentials; backhaul : option MeshCredentials
}.

(** ** Strings *)

Definition str_len (s : string) : Z := Z.of_nat (String.length s).

(** [s.startsWith(p)] and then [s.slice(p.length)]. *)
Fixpoint strip_prefix (p s : string) : option string :=
  match p, s with
  | EmptyString, _ => Some s
  | String a p', String b s' => if bool_decide (a = b) then strip_prefix p' s' else None
  | _, EmptyString => None
  end.

Definition is_digit (c : ascii) : bool := (48 <=? nat_of_ascii c) && (nat_of_ascii c <=? 57).

(** [\d+:] at the start of the string. *)
Fixpoint digits_colon (seen : bool) (s : string) : bool :=
  match s with
  | String c s' =>
      if is_digit c then digits_colon true s' else seen && bool_decide (c = ":"%char)
  | EmptyString => false
  end.

(** ** Decoding *)

Definition MESH_JOIN_PREFIX : string := "OPENMANET1:".

(** [/^OPENMANET\d+:/.test(s)]. *)
Definition VERSION_MARKER (s : string) : bool :=
  match strip_prefix "OPENMANET" s with Some r => digits_colon false r | None => false end.

Inductive join_error := NoQr | NotMeshJoin | UnsupportedVersion | Corrupt | NoCanvas.

Definition MESH_JOIN_ERROR_MESSAGES (e : join_error) : string :=
  match e with
  | NoQr => "No QR code found. Retake the photo with the whole code in frame."
  | NotMeshJoin => "This QR code is not an OpenMANET mesh code."
  | UnsupportedVersion => "This code is from a newer OpenMANET build. Update this node first."
  | Corrupt => "Code unreadable. Retake the photo or paste the code text."
  | NoCanvas => "This browser cannot decode photos here. Paste the code text instead."
  end.

Section Decode.
Context {bytes : Type} (base64Decode : string → option bytes)
  (fromBinary : bytes → option MeshJoinPayload).

(** [None] for the text is [null]/[undefined]; a library call that throws is
    [None]. *)
Definition decodeMeshJoinText (text : option string) : MeshJoinPayload + join_error :=
  let trimmed := trim (default "" text) in
  match strip_prefix MESH_JOIN_PREFIX trimmed with
  | None => inr (if VERSION_MARKER trimmed then UnsupportedVersion else NotMeshJoin)
  | Some EmptyString => inr Corrupt
  | Some body =>
      match base64Decode body with
      | None => inr Corrupt
      | Some b =>
          match fromBinary b with
          | None => inr Corrupt
          | Some payload => if halow payload is Some _ then inl payload else inr Corrupt
          end
      end
  end.
End Decode.

(** ** Checking credentials *)

Inductive field := FPayload | FEncryption | FPassphrase | FMeshId | FBandwidth | FChannel | FCountry.
#[export] Instance field_eq_dec : EqDecision field.
Proof. solve_decision. Defined.

Record issue := { i_field : field; i_message : string }.

Record check_opts := {
  isHalow : bool; bandwidths : list Z;
  channels : list (option Z);                    (* [channels.map(Number)]; [None] is NaN *)
  countries : list string;
  countryMaxLen : Z                              (* 0 when absent *)
}.

Definition HALOW_WIDTHS : list Z := [1; 2; 4; 8]%Z.
Definition BACKHAUL_WIDTHS : list Z := [20; 40]%Z.

Definition widths_of (opts : check_opts) : list Z :=
  match bandwidths opts with
  | [] => if isHalow opts then HALOW_WIDTHS else BACKHAUL_WIDTHS
  | ws => ws
  end.

Definition when (b : bool) (i : issue) : list issue := if b then [i] else [].

Definition checkMeshCredentials (creds : option MeshCredentials) (opts : check_opts) : list issue :=
  match creds with
  | None => [{| i_field := FPayload; i_message := "Missing mesh credentials." |}]
  | Some c =>
      let country := countryCode c in
      let bw := bandwidthMhz c in
      when (bool_decide (encryption c ≠ SAE))
        {| i_field := FEncryption; i_message := "Mesh must be WPA3 (SAE)." |}
      ++ when (bool_decide (str_len (passphrase c) < 8 ∨ 63 < str_len (passphrase c))%Z)
        {| i_field := FPassphrase; i_message := "Passphrase must be 8–63 characters." |}
      ++ when (bool_decide (str_len (meshId c) < 1 ∨ 32 < str_len (meshId c))%Z)
        {| i_field := FMeshId; i_message := "Mesh ID must be 1–32 characters." |}
      ++ (if negb (bool_decide (bw ∈ widths_of opts)) then
            [{| i_field := FBandwidth;
                i_message := pretty bw ++ " MHz is not available on this radio." |}]
          else
            when (bool_decide (channels opts ≠ [] ∧ Some (channel c) ∉ channels opts))
              {| i_field := FChannel;
                 i_message := "Channel " ++ pretty (channel c) ++ " is not legal at " ++ pretty bw
                   ++ " MHz" ++ (if bool_decide (country = "") then "" else " in " ++ country) ++ "." |})
      ++ when (bool_decide (country ≠ "" ∧ countries opts ≠ [] ∧ country ∉ countries opts))
        {| i_field := FCountry;
           i_message := "Country " ++ country ++ " is not in this device's regulatory list." |}
      ++ when (bool_decide (country ≠ "" ∧ countryMaxLen opts ≠ 0 ∧ countryMaxLen opts < str_len country)%Z)
        {| i_field := FCountry;
           i_message := "Country code " ++ country ++ " cannot be set here ("
             ++ pretty (countryMaxLen opts) ++ " letters max)." |}
  end.

(** ** Widths and modes *)

Definition S1G_MODES : list (Z * WifiHTMode) :=
  [(1%Z, S1G_1MHZ); (2%Z, S1G_2MHZ); (4%Z, S1G_4MHZ); (8%Z, S1G_8MHZ)].

Definition WIDTH_MODES : list (Z * list WifiHTMode) :=
  [(20%Z, [HE20; VHT20; HT20; NOHT]);
   (40%Z, [HE40; VHT40; HT40; HT40_PLUS; HT40_MINUS]);
   (80%Z, [HE80; VHT80]);
   (160%Z, [HE160; VHT160])].

(** [obj[key]]. *)
Fixpoint prop {A} (key : Z) (obj : list (Z * A)) : option A :=
  match obj with
  | [] => None
  | (k, v) :: obj' => if decide (k = key) then Some v else prop key obj'
  end.

Definition htModeForBandwidth (mhz : Z) (available : list WifiHTMode) : WifiHTMode :=
  match prop mhz S1G_MODES with
  | Some m => m
  | None =>
      let candidates := default [] (prop mhz WIDTH_MODES) in
      match List.find (λ m, bool_decide (m ∈ available)) candidates with
      | Some m => m
      | None => default HT_UNSPECIFIED (head candidates)
      end
  end.

(** [MODE_WIDTHS]: the later entry wins. *)
Definition MODE_WIDTHS : list (WifiHTMode * Z) :=
  rev (map (λ e, (e.2, e.1)) S1G_MODES
       ++ concat (map (λ e, map (λ m, (m, e.1)) e.2) WIDTH_MODES)).

Definition bandwidthMhzForHTMode (mode : WifiHTMode) : Z :=
  match List.find (λ e, bool_decide (e.1 = mode)) MODE_WIDTHS with
  | Some e => e.2
  | None => 0
  end.

(** ** Regulatory helpers *)

Record SetupBandwidth := { mhz : Z; bw_channels : list Z }.
Record SetupCountry := { code : string; c_name : string; c_bandwidths : list SetupBandwidth }.

Definition FALLBACK_US_CHANNELS (bandwidth : Z) : list Z :=
  if decide (bandwidth = 1%Z) then
    [1; 3; 5; 7; 9; 11; 13; 15; 17; 19; 21; 23; 25; 27; 29; 31;
     33; 35; 37; 39; 41; 43; 45; 47; 49; 51]%Z
  else if decide (bandwidth = 2%Z) then [2; 6; 10; 14; 18; 22; 26; 30; 34; 38; 42; 46; 50]%Z
  else if decide (bandwidth = 4%Z) then [8; 16; 24; 32; 40; 48]%Z
  else if decide (bandwidth = 8%Z) then [12; 28; 44]%Z
  else [].

Definition findCountryEntry (cs : list SetupCountry) (c : string) : option SetupCountry :=
  if decide (c = "") then None else List.find (λ e, bool_decide (code e = c)) cs.

Definition channelsForCountryBandwidth (entry : option SetupCountry) (bandwidth : Z) : list Z :=
  let found := entry ≫= λ e, List.find (λ b, bool_decide (mhz b = bandwidth)) (c_bandwidths e) in
  match found with
  | Some b => if decide (bw_channels b = []) then FALLBACK_US_CHANNELS bandwidth else bw_channels b
  | None => FALLBACK_US_CHANNELS bandwidth
  end.

Definition bandwidthsForCountry (entry : option SetupCountry) : list Z :=
  match entry with
  | Some e => match c_bandwidths e with
              | [] => HALOW_WIDTHS
              | bs => merge_sort Z.le (map mhz bs)
              end
  | None => HALOW_WIDTHS
  end.

(** ** The 2.4 GHz backhaul *)

Definition BACKHAUL_BANDWIDTHS : list Z := [20; 40]%Z.
Definition BACKHAUL_CHANNELS_2G : list Z := [1; 2; 3; 4; 5; 6; 7; 8; 9; 10; 11]%Z.

Record footprint := { fp_channel : Z; secondary : option Z; startMhz : Z; endMhz : Z }.

Definition backhaulFootprint (ch bandwidth : Z) : option footprint :=
  if negb (bool_decide (ch ∈ BACKHAUL_CHANNELS_2G))
     || negb (bool_decide (bandwidth ∈ BACKHAUL_BANDWIDTHS)) then None
  else
    let primaryMhz := (2407 + 5 * ch)%Z in
    if decide (bandwidth = 20%Z) then
      Some {| fp_channel := ch; secondary := None;
              startMhz := primaryMhz - 10; endMhz := primaryMhz + 10 |}
    else
      let sec := if decide (ch <= 7)%Z then (ch + 4)%Z else (ch - 4)%Z in
      let secondaryMhz := (2407 + 5 * sec)%Z in
      Some {| fp_channel := ch; secondary := Some sec;
              startMhz := Z.min primaryMhz secondaryMhz - 10;
              endMhz := Z.max primaryMhz secondaryMhz + 10 |}.

Definition formatBackhaulFootprint (fp : option footprint) : string :=
  match fp with
  | None => ""
  | Some f =>
      let chans :=
        match secondary f with
        | None => "ch " ++ pretty (fp_channel f)
        | Some s => "ch " ++ pretty (fp_channel f) ++ " + ch " ++ pretty s
        end in
      chans ++ " · " ++ pretty (startMhz f) ++ "–" ++ pretty (endMhz f) ++ " MHz"
  end%string.

(** ** Lemmas *)

Lemma strip_prefix_app p s : strip_prefix p (p ++ s) = Some s.
Proof. induction p as [|a p IH]; simpl; [done|]. by rewrite bool_decide_eq_true_2. Qed.

Lemma strip_prefix_spec p s r : strip_prefix p s = Some r → s = (p ++ r)%string.
Proof.
  revert s. induction p as [|a p IH]; intros [|b s] H; simpl in *; try by simplify_eq.
  case_bool_decide; [|done]. subst. by rewrite (IH _ H).
Qed.

Lemma when_nil b i : when b i = [] ↔ b = false.
Proof. by destruct b. Qed.

(** What a radio accepts. *)
Definition acceptable (c : MeshCredentials) (opts : check_opts) : Prop :=
  encryption c = SAE
  ∧ (8 <= str_len (passphrase c) <= 63)%Z
  ∧ (1 <= str_len (meshId c) <= 32)%Z
  ∧ bandwidthMhz c ∈ widths_of opts
  ∧ (channels opts ≠ [] → Some (channel c) ∈ channels opts)
  ∧ (countryCode c ≠ "" →
       (countries opts ≠ [] → countryCode c ∈ countries opts)
       ∧ (countryMaxLen opts ≠ 0%Z → str_len (countryCode c) <= countryMaxLen opts)%Z).

Lemma check_nil c opts : checkMeshCredentials (Some c) opts = [] ↔ acceptable c opts.
Proof.
  unfold checkMeshCredentials, acceptable.
  rewrite !app_nil, !when_nil, !bool_decide_eq_false.
  assert (¬ encryption c ≠ SAE ↔ encryption c = SAE) as -> by (split; [apply dec_stable|tauto]).
  assert (∀ x a b, ¬ (x < a ∨ b < x)%Z ↔ (a <= x <= b)%Z) as Hr by (intros; lia).
  rewrite !Hr. clear Hr.
  assert (∀ (P Q : Prop) (_ : Decision Q), ¬ (P ∧ ¬ Q) ↔ (P → Q)) as Hi
    by (intros P Q HQ; split; [intros Hn HP; apply dec_stable; tauto|tauto]).
  assert (¬ (countryCode c ≠ "" ∧ countries opts ≠ [] ∧ countryCode c ∉ countries opts)
    ↔ (countryCode c ≠ "" → countries opts ≠ [] → countryCode c ∈ countries opts)) as ->
    by (rewrite <- Hi by apply _; tauto).
  assert (¬ (countryCode c ≠ "" ∧ countryMaxLen opts ≠ 0 ∧ countryMaxLen opts < str_len (countryCode c))%Z
    ↔ (countryCode c ≠ "" → countryMaxLen opts ≠ 0 → str_len (countryCode c) <= countryMaxLen opts)%Z) as ->
    by (split; [intros H H1 H2; destruct (Z.le_gt_cases (str_len (countryCode c)) (countryMaxLen opts));
                  [done|tauto]|intros H (H1 & H2 & H3); specialize (H H1 H2); lia]).
  destruct (decide (bandwidthMhz c ∈ widths_of opts)) as [Hb|Hb].
  - rewrite (bool_decide_eq_true_2 _ Hb). simpl. rewrite when_nil, bool_decide_eq_false, Hi by apply _.
    tauto.
  - rewrite (bool_decide_eq_false_2 _ Hb). simpl. split; [|tauto]. by intros (_ & _ & _ & ? & _).
Qed.

(** Which issues are reported. *)
Lemma check_fields c opts f :
  f ∈ map i_field (checkMeshCredentials (Some c) opts) ↔
  match f with
  | FPayload => False
  | FEncryption => encryption c ≠ SAE
  | FPassphrase => (str_len (passphrase c) < 8 ∨ 63 < str_len (passphrase c))%Z
  | FMeshId => (str_len (meshId c) < 1 ∨ 32 < str_len (meshId c))%Z
  | FBandwidth => bandwidthMhz c ∉ widths_of opts
  | FChannel => bandwidthMhz c ∈ widths_of opts ∧ channels opts ≠ [] ∧ Some (channel c) ∉ channels opts
  | FCountry => countryCode c ≠ "" ∧ ((countries opts ≠ [] ∧ countryCode c ∉ countries opts)
      ∨ (countryMaxLen opts ≠ 0 ∧ countryMaxLen opts < str_len (countryCode c))%Z)
  end.
Proof.
  assert (∀ b i, f ∈ map i_field (when b i) ↔ b = true ∧ f = i_field i) as Hw.
  { intros b i. destruct b; simpl; [rewrite list_elem_of_singleton; naive_solver|].
    rewrite elem_of_nil. naive_solver. }
  unfold checkMeshCredentials. rewrite !map_app, !elem_of_app, !Hw, !bool_decide_eq_true. simpl.
  case_bool_decide as Hb; simpl.
  - rewrite Hw, bool_decide_eq_true. simpl. destruct f; naive_solver.
  - rewrite list_elem_of_singleton. destruct f; naive_solver.
Qed.

Lemma tight_body s : s ≠ "" → trim_end s = s → tight (MESH_JOIN_PREFIX ++ s).
Proof. intros Hne Hs. split; [done|]. by apply trim_end_app. Qed.

(** The widths the tables know. *)
Definition known_widths : list Z := [1; 2; 4; 8; 20; 40; 80; 160]%Z.

Lemma find_available (cands available : list WifiHTMode) d w :
  (∀ m, m ∈ d :: cands → bandwidthMhzForHTMode m = w) →
  let r := match List.find (λ m, bool_decide (m ∈ available)) cands with
           | Some m => m
           | None => d
           end in
  bandwidthMhzForHTMode r = w ∧ ((∃ m, m ∈ cands ∧ m ∈ available) → r ∈ available).
Proof.
  intros Hw r. unfold r. destruct (List.find _ cands) as [m|] eqn:Hf.
  - apply List.find_some in Hf as [Hin Hm%bool_decide_eq_true].
    split; [|done]. apply Hw. right. by apply list_elem_of_In.
  - split; [apply Hw; by left|]. intros (m & Hm & Ha).
    pose proof (List.find_none _ _ Hf m (proj1 (list_elem_of_In _ _) Hm)) as Hn.
    simpl in Hn. by rewrite bool_decide_eq_true_2 in Hn.
Qed.

Lemma htMode_wide w d rest available :
  prop w S1G_MODES = None → prop w WIDTH_MODES = Some (d :: rest) →
  (∀ m, m ∈ d :: rest → bandwidthMhzForHTMode m = w) →
  bandwidthMhzForHTMode (htModeForBandwidth w available) = w
  ∧ ((∃ m, m ∈ default [] (prop w WIDTH_MODES) ∧ m ∈ available) →
     htModeForBandwidth w available ∈ available).
Proof.
  intros H1 H2 Hw. unfold htModeForBandwidth. rewrite H1, H2. cbn [default from_option id head].
  apply (find_available (d :: rest) available d w). intros m [->|Hm]%elem_of_cons; [apply Hw; by left|].
  by apply Hw.
Qed.

(** ** Properties *)

(** C14: reading a scanned code.  A text made of the prefix and a body that the
    base64 and protobuf libraries decode to a payload with HaLow credentials
    decodes to that payload, with any white space around it; a decoded payload
    always carries HaLow credentials and comes from such a text; a text with
    another OPENMANET version is told apart from a text that is no mesh code,
    and nothing else is reported than those two errors and a corrupt code. *)
Theorem mesh_code_decodes {bytes} (base64Decode : string → option bytes)
    (fromBinary : bytes → option MeshJoinPayload) :
  let decode := decodeMeshJoinText base64Decode fromBinary in
  (∀ p b body ws1 ws2, base64Decode body = Some b → fromBinary b = Some p → halow p ≠ None →
     body ≠ "" → trim_end body = body →
     Forall (λ c, is_space c = true) (String.list_ascii_of_string ws1) →
     Forall (λ c, is_space c = true) (String.list_ascii_of_string ws2) →
     decode (Some (ws1 ++ (MESH_JOIN_PREFIX ++ body) ++ ws2)%string) = inl p)
  ∧ (∀ text p, decode text = inl p → halow p ≠ None
       ∧ ∃ body b, trim (default "" text) = (MESH_JOIN_PREFIX ++ body)%string
           ∧ base64Decode body = Some b ∧ fromBinary b = Some p)
  ∧ (∀ text, let t := trim (default "" text) in
       (decode text = inr UnsupportedVersion ↔ strip_prefix MESH_JOIN_PREFIX t = None ∧ VERSION_MARKER t = true)
       ∧ (decode text = inr NotMeshJoin ↔ VERSION_MARKER t = false)).
Proof.
  intros decode. split_and?.
  - intros p b body ws1 ws2 Hb Hp Hh Hne Htr H1 H2. unfold decode, decodeMeshJoinText.
    cbn [default from_option id].
    rewrite (trim_padded ws1 _ ws2) by (try apply tight_body; done).
    rewrite strip_prefix_app, Hb, Hp. destruct body; [done|]. by destruct (halow p).
  - intros text p. unfold decode, decodeMeshJoinText.
    destruct (strip_prefix MESH_JOIN_PREFIX _) as [body|] eqn:Hs; [|done].
    apply strip_prefix_spec in Hs. destruct body as [|c body]; [done|].
    destruct (base64Decode _) as [b|] eqn:Hb; [|done].
    destruct (fromBinary b) as [q|] eqn:Hq; [|done]. destruct (halow q) eqn:Hh; [|done].
    intros [= <-]. split; [by rewrite Hh|]. by eexists _, b.
  - intros text t. unfold decode, decodeMeshJoinText. fold t.
    assert (strip_prefix MESH_JOIN_PREFIX t ≠ None → VERSION_MARKER t = true) as Hv.
    { destruct (strip_prefix MESH_JOIN_PREFIX t) as [body|] eqn:Hs; [|done]. intros _.
      apply strip_prefix_spec in Hs. rewrite Hs. done. }
    destruct (strip_prefix MESH_JOIN_PREFIX t) as [body|] eqn:Hs.
    + rewrite Hv by done. assert (∀ e, e ≠ Corrupt →
        (match body with
         | "" => inr Corrupt
         | _ => match base64Decode body with
                | None => inr Corrupt
                | Some b => match fromBinary b with
                            | None => inr Corrupt
                            | Some payload => if halow payload is Some _ then inl payload else inr Corrupt
                            end
                end
         end : MeshJoinPayload + join_error) ≠ inr e) as Hne.
      { intros e He. destruct body; [congruence|]. destruct (base64Decode _); [|congruence].
        destruct (fromBinary _) as [q|]; [|congruence]. destruct (halow q); congruence. }
      split; (split; [intros H; exfalso; by eapply Hne; [|exact H]|]); [by intros [? _]|done].
    + destruct (VERSION_MARKER t); split; naive_solver.
Qed.

(** Credentials raise no issue exactly when the radio accepts them: WPA3, a
    passphrase of 8 to 63 and an ID of 1 to 32 characters, a width of the radio,
    a channel legal at that width where the channels are known, and a country
    the device knows and can store; and each issue names the field that is
    wrong. *)
Theorem mesh_credentials_checked (c : MeshCredentials) (opts : check_opts) (f : field) :
  (checkMeshCredentials (Some c) opts = [] ↔ acceptable c opts)
  ∧ (f ∈ map i_field (checkMeshCredentials (Some c) opts) ↔
     match f with
     | FPayload => False
     | FEncryption => encryption c ≠ SAE
     | FPassphrase => (str_len (passphrase c) < 8 ∨ 63 < str_len (passphrase c))%Z
     | FMeshId => (str_len (meshId c) < 1 ∨ 32 < str_len (meshId c))%Z
     | FBandwidth => bandwidthMhz c ∉ widths_of opts
     | FChannel => bandwidthMhz c ∈ widths_of opts ∧ channels opts ≠ [] ∧ Some (channel c) ∉ channels opts
     | FCountry => countryCode c ≠ "" ∧ ((countries opts ≠ [] ∧ countryCode c ∉ countries opts)
         ∨ (countryMaxLen opts ≠ 0 ∧ countryMaxLen opts < str_len (countryCode c))%Z)
     end)
  ∧ checkMeshCredentials None opts ≠ [].
Proof. split_and?; [apply check_nil|apply check_fields|done]. Qed.

(** Channel widths and radio modes translate back and forth.  The mode
    chosen for a known width has that width, whatever the radio advertises, and
    is one it advertises if it advertises any of that width; a mode the radio
    advertises alone is the mode chosen for its width. *)
Theorem ht_mode_roundtrip (w : Z) (available : list WifiHTMode) (mode : WifiHTMode) :
  w ∈ known_widths →
  bandwidthMhzForHTMode (htModeForBandwidth w available) = w
  ∧ ((∃ m, m ∈ default [] (prop w WIDTH_MODES) ∧ m ∈ available) →
     htModeForBandwidth w available ∈ available)
  ∧ (mode ≠ HT_UNSPECIFIED →
     bandwidthMhzForHTMode mode ∈ known_widths
     ∧ htModeForBandwidth (bandwidthMhzForHTMode mode) [mode] = mode).
Proof.
  intros Hw.
  assert (bandwidthMhzForHTMode (htModeForBandwidth w available) = w
    ∧ ((∃ m, m ∈ default [] (prop w WIDTH_MODES) ∧ m ∈ available) →
       htModeForBandwidth w available ∈ available)) as Hpair.
  { unfold known_widths in Hw.
    do 4 (apply elem_of_cons in Hw as [->|Hw];
      [split; [reflexivity|intros (m & Hm & _); by apply not_elem_of_nil in Hm]|]).
    do 4 (apply elem_of_cons in Hw as [->|Hw];
      [eapply htMode_wide; [reflexivity|reflexivity|];
       intros m Hm; repeat (apply elem_of_cons in Hm as [->|Hm]; [reflexivity|]);
       by apply not_elem_of_nil in Hm|]).
    by apply not_elem_of_nil in Hw. }
  split; [|split].
  - apply Hpair.
  - apply Hpair.
  - intros Hm. destruct mode; try done; (split; [apply (bool_decide_unpack _); reflexivity|reflexivity]).
Qed.

(** The 2.4 GHz span of a backhaul choice is given exactly for channels 1 to
    11 at 20 or 40 MHz, is as wide as the choice, contains the primary channel,
    and stays inside the band; at 40 MHz the secondary channel is four away and
    itself one of the eleven. *)
Theorem backhaul_footprint_legal (ch bandwidth : Z) :
  match backhaulFootprint ch bandwidth with
  | None => ¬ (1 <= ch <= 11)%Z ∨ (bandwidth ≠ 20 ∧ bandwidth ≠ 40)%Z
  | Some fp =>
      (1 <= ch <= 11)%Z ∧ (bandwidth = 20 ∨ bandwidth = 40)%Z
      ∧ (endMhz fp - startMhz fp = bandwidth)%Z
      ∧ (2402 <= startMhz fp ∧ endMhz fp <= 2472)%Z
      ∧ (startMhz fp + 10 <= 2407 + 5 * ch <= endMhz fp - 10)%Z
      ∧ (bandwidth = 40 → ∃ s, secondary fp = Some s ∧ 1 <= s <= 11 ∧ Z.abs (s - ch) = 4)%Z
      ∧ (bandwidth = 20%Z → secondary fp = None)
  end.
Proof.
  assert (∀ z, z ∈ BACKHAUL_CHANNELS_2G ↔ (1 <= z <= 11)%Z) as Hch.
  { intros z. unfold BACKHAUL_CHANNELS_2G. rewrite !elem_of_cons, elem_of_nil. lia. }
  assert (∀ z, z ∈ BACKHAUL_BANDWIDTHS ↔ (z = 20 ∨ z = 40)%Z) as Hbw.
  { intros z. unfold BACKHAUL_BANDWIDTHS. rewrite !elem_of_cons, elem_of_nil. tauto. }
  unfold backhaulFootprint.
  destruct (negb _ || negb _) eqn:Hb.
  - apply orb_true_iff in Hb as [Hb|Hb]; apply negb_true_iff, bool_decide_eq_false in Hb;
      [rewrite Hch in Hb; by left|rewrite Hbw in Hb; right; tauto].
  - apply orb_false_iff in Hb as [H1%negb_false_iff H2%negb_false_iff].
    apply bool_decide_eq_true, Hch in H1. apply bool_decide_eq_true, Hbw in H2.
    case_decide; simpl; [split_and?; lia || done|].
    split_and?; try lia; try by destruct H2.
    all: case_decide; try lia.
    all: intros _; eexists; split; [done|lia].
Qed.

(** ** Witnesses *)

Definition example_creds : MeshCredentials :=
  {| meshId := "openmanet"; passphrase := "correct horse"; encryption := SAE;
     bandwidthMhz := 2; channel := 42; countryCode := "US" |}.

Definition example_payload : MeshJoinPayload :=
  {| sourceHostname := "node-1"; halow := Some example_creds; backhaul := None |}.

Lemma mesh_code_decodes_witness :
  decodeMeshJoinText (λ s, if bool_decide (s = "QUJD") then Some 7 else None)
    (λ b, if bool_decide (b = 7) then Some example_payload else None)
    (Some "  OPENMANET1:QUJD ") = inl example_payload.
Proof.
  apply (mesh_code_decodes _ _) with (b := 7) (body := "QUJD") (ws1 := "  ") (ws2 := " ");
    [reflexivity|reflexivity|discriminate|discriminate|reflexivity|repeat constructor|repeat constructor].
Defined.

Lemma mesh_credentials_checked_witness :
  checkMeshCredentials (Some example_creds) (Build_check_opts true [] [] [] 2) = [].
Proof.
  apply (mesh_credentials_checked example_creds (Build_check_opts true [] [] [] 2) FMeshId).
  unfold acceptable. vm_compute. repeat split; try congruence. right. by left.
Defined.

Lemma ht_mode_roundtrip_witness :
  htModeForBandwidth 40 [HE20; HT40_PLUS] ∈ [HE20; HT40_PLUS]
  ∧ bandwidthMhzForHTMode (htModeForBandwidth 40 [HE20; HT40_PLUS]) = 40%Z.
Proof.
  destruct (ht_mode_roundtrip 40 [HE20; HT40_PLUS] VHT80) as (H1 & H2 & _).
  - apply (bool_decide_unpack _). reflexivity.
  - split; [|exact H1]. apply H2. exists HT40_PLUS. split; apply (bool_decide_unpack _); reflexivity.
Defined.
