(* ===== verification/Setup.v ===== *)
(** [contexts/SetupContext.jsx] and [contexts/apDefaults.js]: the state of the
    setup wizard and its reducer, with the effects of [pages/setup/StepMesh.jsx]
    and [StepUplink.jsx] that keep it legal and the field edits of
    [StepAPs.jsx].

    Fields of the slices carry the slice's first letters ([m_] mesh, [u_] and
    [w_] uplink, [ap_] access point). *)
From S2P Require Import Prelude MeshJoin.
Open Scope js_scope.

(** ** Enums *)

Inductive MeshRole := ROLE_UNSPECIFIED | MESH_POINT | MESH_GATE.
Inductive MeshPointMode := MP_UNSPECIFIED | MP_NONE | EXTENDER.
Inductive MeshGateMode := MG_UNSPECIFIED | ROUTER | ROUTER_FIREWALL.
Inductive UplinkType := UP_UNSPECIFIED | ETHERNET | WIRELESS_STA.
#[export] Instance MeshRole_eq_dec : EqDecision MeshRole.
Proof. solve_decision. Defined.
#[export] Instance MeshPointMode_eq_dec : EqDecision MeshPointMode.
Proof. solve_decision. Defined.
#[export] Instance MeshGateMode_eq_dec : EqDecision MeshGateMode.
Proof. solve_decision. Defined.
#[export] Instance UplinkType_eq_dec : EqDecision UplinkType.
Proof. solve_decision. Defined.

(** ** State *)

Record mesh_slice := {
  m_radioName : string; m_meshId : string; m_passphrase : string; m_encryption : WifiEncryption;
  m_bandwidthMhz : Z; m_channel : Z; m_countryCode : string; m_fromScan : bool
}.

Record wireless_slice := {
  w_radioName : string; w_ssid : string; w_passphrase : string; w_encryption : WifiEncryption
}.

Record uplink_slice := { u_type : UplinkType; u_ethernetPort : string; u_wireless : wireless_slice }.

Record ap_profile := {
  ap_radioName : string; ap_enabled : bool; ap_ssid : string; ap_passphrase : string;
  ap_encryption : WifiEncryption; ap_meshBackhaul : bool; ap_backhaulMeshId : string;
  ap_backhaulPassphrase : string; ap_backhaulBandwidthMhz : Z; ap_backhaulChannel : Z;
  ap_backhaulCountryCode : string; ap_backhaulFromScan : bool
}.

Record mesh_join := {
  mj_sourceHostname : string; mj_backhaulRadio : string; mj_backhaulSkippedReason : string
}.

Record setup_state := mk_setup {
  hostname : string;
  adminPassword : string;
  role : MeshRole;
  meshpointMode : MeshPointMode;
  meshgateMode : MeshGateMode;
  mesh : mesh_slice;
  uplink : uplink_slice;
  aps : list ap_profile;
  adminPasswordConfirm : string;
  timezone : string;
  meshJoin : option mesh_join
}.

(** What [GetSetupStatus] reports. *)
Record setup_radio := {
  r_name : string; r_isHalow : bool; r_supportsMeshBackhaul : bool; r_band : string;
  r_hardwareName : string
}.

Record setup_status := {
  isEnabled : bool; isSetupComplete : bool; hasHalowRadio : bool; alreadyConfigured : bool;
  currentHostname : string; radios : list setup_radio; ethernetPorts : list string;
  s_countries : list SetupCountry; currentCountry : string; timezones : list string;
  currentTimezone : string
}.

Definition initial_uplink : uplink_slice :=
  {| u_type := UP_UNSPECIFIED; u_ethernetPort := "";
     u_wireless := {| w_radioName := ""; w_ssid := ""; w_passphrase := ""; w_encryption := PSK2 |} |}.

Definition initialState : setup_state :=
  {| hostname := ""; adminPassword := ""; role := MESH_POINT; meshpointMode := EXTENDER;
     meshgateMode := MG_UNSPECIFIED;
     mesh := {| m_radioName := ""; m_meshId := "openmanet"; m_passphrase := ""; m_encryption := SAE;
                m_bandwidthMhz := 2; m_channel := 42; m_countryCode := ""; m_fromScan := false |};
     uplink := initial_uplink; aps := []; adminPasswordConfirm := ""; timezone := "";
     meshJoin := None |}.

Definition apDefaults (radioName : string) : ap_profile :=
  {| ap_radioName := radioName; ap_enabled := false; ap_ssid := ""; ap_passphrase := "";
     ap_encryption := PSK2; ap_meshBackhaul := false; ap_backhaulMeshId := "";
     ap_backhaulPassphrase := ""; ap_backhaulBandwidthMhz := 0; ap_backhaulChannel := 0;
     ap_backhaulCountryCode := ""; ap_backhaulFromScan := false |}.

(** ** Actions *)

Inductive mesh_field :=
| MF_radioName (v : string) | MF_meshId (v : string) | MF_passphrase (v : string)
| MF_encryption (v : WifiEncryption) | MF_bandwidthMhz (v : Z) | MF_channel (v : Z)
| MF_countryCode (v : string).

Inductive wireless_field :=
| WF_radioName (v : string) | WF_ssid (v : string) | WF_passphrase (v : string)
| WF_encryption (v : WifiEncryption).

(** The partial profile of [SET_AP]: absent fields keep their value. *)
Record ap_update := {
  up_radioName : string; up_enabled : option bool; up_ssid : option string;
  up_passphrase : option string; up_encryption : option WifiEncryption;
  up_meshBackhaul : option bool; up_backhaulMeshId : option string;
  up_backhaulPassphrase : option string; up_backhaulBandwidthMhz : option Z;
  up_backhaulChannel : option Z; up_backhaulCountryCode : option string;
  up_backhaulFromScan : option bool
}.

Inductive radio_mode := ModeOff | ModeAp | ModeBackhaul.
#[export] Instance radio_mode_eq_dec : EqDecision radio_mode.
Proof. solve_decision. Defined.

Inductive action :=
| SET_HOSTNAME (v : string)
| SET_ROLE (v : MeshRole)
| SET_MESHPOINT_MODE (v : MeshPointMode)
| SET_MESHGATE_MODE (v : MeshGateMode)
| SET_MESH_FIELD (f : mesh_field)
| APPLY_MESH_JOIN (payload : MeshJoinPayload) (rs : list setup_radio)
| SET_UPLINK_TYPE (v : UplinkType)
| SET_UPLINK_FIELD (ethernetPort : string)
| SET_UPLINK_WIRELESS (f : wireless_field)
| SET_AP (v : ap_update)
| REMOVE_AP (radioName : string)
| SET_RADIO_MODE (radioName : string) (mode : radio_mode)
| SET_ADMIN_PASSWORD (v : string)
| SET_ADMIN_PASSWORD_CONFIRM (v : string)
| SET_TIMEZONE (v : string)
| RESET
| HYDRATE_FROM_STATUS (status : option setup_status) (browserTimezone : string).

(** ** Slice updates *)

Definition set_role_modes (r : MeshRole) (p : MeshPointMode) (g : MeshGateMode) (u : uplink_slice)
    (s : setup_state) : setup_state :=
  mk_setup (hostname s) (adminPassword s) r p g (mesh s) u (aps s)
    (adminPasswordConfirm s) (timezone s) (meshJoin s).

Definition set_mesh (m : mesh_slice) (s : setup_state) : setup_state :=
  mk_setup (hostname s) (adminPassword s) (role s) (meshpointMode s) (meshgateMode s) m (uplink s)
    (aps s) (adminPasswordConfirm s) (timezone s) (meshJoin s).

Definition set_uplink (u : uplink_slice) (s : setup_state) : setup_state :=
  mk_setup (hostname s) (adminPassword s) (role s) (meshpointMode s) (meshgateMode s) (mesh s) u
    (aps s) (adminPasswordConfirm s) (timezone s) (meshJoin s).

Definition set_aps (l : list ap_profile) (s : setup_state) : setup_state :=
  mk_setup (hostname s) (adminPassword s) (role s) (meshpointMode s) (meshgateMode s) (mesh s)
    (uplink s) l (adminPasswordConfirm s) (timezone s) (meshJoin s).

Definition set_texts (h pw confirm tz : string) (s : setup_state) : setup_state :=
  mk_setup h pw (role s) (meshpointMode s) (meshgateMode s) (mesh s) (uplink s)
    (aps s) confirm tz (meshJoin s).

Definition set_join (j : option mesh_join) (s : setup_state) : setup_state :=
  mk_setup (hostname s) (adminPassword s) (role s) (meshpointMode s) (meshgateMode s) (mesh s)
    (uplink s) (aps s) (adminPasswordConfirm s) (timezone s) j.

(** [{ ...mesh, [field]: value, fromScan }]. *)
Definition update_mesh (f : mesh_field) (m : mesh_slice) : mesh_slice :=
  match f with
  | MF_radioName v =>
      {| m_radioName := v; m_meshId := m_meshId m; m_passphrase := m_passphrase m;
         m_encryption := m_encryption m; m_bandwidthMhz := m_bandwidthMhz m;
         m_channel := m_channel m; m_countryCode := m_countryCode m; m_fromScan := m_fromScan m |}
  | MF_meshId v =>
      {| m_radioName := m_radioName m; m_meshId := v; m_passphrase := m_passphrase m;
         m_encryption := m_encryption m; m_bandwidthMhz := m_bandwidthMhz m;
         m_channel := m_channel m; m_countryCode := m_countryCode m; m_fromScan := false |}
  | MF_passphrase v =>
      {| m_radioName := m_radioName m; m_meshId := m_meshId m; m_passphrase := v;
         m_encryption := m_encryption m; m_bandwidthMhz := m_bandwidthMhz m;
         m_channel := m_channel m; m_countryCode := m_countryCode m; m_fromScan := false |}
  | MF_encryption v =>
      {| m_radioName := m_radioName m; m_meshId := m_meshId m; m_passphrase := m_passphrase m;
         m_encryption := v; m_bandwidthMhz := m_bandwidthMhz m;
         m_channel := m_channel m; m_countryCode := m_countryCode m; m_fromScan := false |}
  | MF_bandwidthMhz v =>
      {| m_radioName := m_radioName m; m_meshId := m_meshId m; m_passphrase := m_passphrase m;
         m_encryption := m_encryption m; m_bandwidthMhz := v;
         m_channel := m_channel m; m_countryCode := m_countryCode m; m_fromScan := false |}
  | MF_channel v =>
      {| m_radioName := m_radioName m; m_meshId := m_meshId m; m_passphrase := m_passphrase m;
         m_encryption := m_encryption m; m_bandwidthMhz := m_bandwidthMhz m;
         m_channel := v; m_countryCode := m_countryCode m; m_fromScan := false |}
  | MF_countryCode v =>
      {| m_radioName := m_radioName m; m_meshId := m_meshId m; m_passphrase := m_passphrase m;
         m_encryption := m_encryption m; m_bandwidthMhz := m_bandwidthMhz m;
         m_channel := m_channel m; m_countryCode := v; m_fromScan := false |}
  end.

Definition update_wireless (f : wireless_field) (w : wireless_slice) : wireless_slice :=
  match f with
  | WF_radioName v =>
      {| w_radioName := v; w_ssid := w_ssid w; w_passphrase := w_passphrase w; w_encryption := w_encryption w |}
  | WF_ssid v =>
      {| w_radioName := w_radioName w; w_ssid := v; w_passphrase := w_passphrase w; w_encryption := w_encryption w |}
  | WF_passphrase v =>
      {| w_radioName := w_radioName w; w_ssid := w_ssid w; w_passphrase := v; w_encryption := w_encryption w |}
  | WF_encryption v =>
      {| w_radioName := w_radioName w; w_ssid := w_ssid w; w_passphrase := w_passphrase w; w_encryption := v |}
  end.

(** [{ ...base, ...value }]. *)
Definition merge_ap (base : ap_profile) (v : ap_update) : ap_profile :=
  {| ap_radioName := up_radioName v;
     ap_enabled := default (ap_enabled base) (up_enabled v);
     ap_ssid := default (ap_ssid base) (up_ssid v);
     ap_passphrase := default (ap_passphrase base) (up_passphrase v);
     ap_encryption := default (ap_encryption base) (up_encryption v);
     ap_meshBackhaul := default (ap_meshBackhaul base) (up_meshBackhaul v);
     ap_backhaulMeshId := default (ap_backhaulMeshId base) (up_backhaulMeshId v);
     ap_backhaulPassphrase := default (ap_backhaulPassphrase base) (up_backhaulPassphrase v);
     ap_backhaulBandwidthMhz := default (ap_backhaulBandwidthMhz base) (up_backhaulBandwidthMhz v);
     ap_backhaulChannel := default (ap_backhaulChannel base) (up_backhaulChannel v);
     ap_backhaulCountryCode := default (ap_backhaulCountryCode base) (up_backhaulCountryCode v);
     ap_backhaulFromScan := default (ap_backhaulFromScan base) (up_backhaulFromScan v) |}.

(** [{ ...ap, enabled, meshBackhaul, backhaulMeshId }]. *)
Definition with_mode (enabled backhaul : bool) (meshid : string) (ap : ap_profile) : ap_profile :=
  {| ap_radioName := ap_radioName ap; ap_enabled := enabled; ap_ssid := ap_ssid ap;
     ap_passphrase := ap_passphrase ap; ap_encryption := ap_encryption ap;
     ap_meshBackhaul := backhaul; ap_backhaulMeshId := meshid;
     ap_backhaulPassphrase := ap_backhaulPassphrase ap;
     ap_backhaulBandwidthMhz := ap_backhaulBandwidthMhz ap;
     ap_backhaulChannel := ap_backhaulChannel ap;
     ap_backhaulCountryCode := ap_backhaulCountryCode ap;
     ap_backhaulFromScan := ap_backhaulFromScan ap |}.

(** [{ ...ap, meshBackhaul: false }]. *)
Definition clear_backhaul (ap : ap_profile) : ap_profile :=
  with_mode (ap_enabled ap) false (ap_backhaulMeshId ap) ap.

(** [findIndex(ap => ap.radioName === name)]. *)
Definition find_ap (name : string) (l : list ap_profile) : option (nat * ap_profile) :=
  list_find (λ ap, ap_radioName ap = name) l.

(** [`${meshId.slice(0, 29)}-2g`]. *)
Definition seed_mesh_id (meshid : string) : string := (String.substring 0 29 meshid ++ "-2g")%string.

Definition first_nonempty (a b : string) : string := if decide (a = "") then b else a.

(** ** The reducer *)

Definition set_role (v : MeshRole) (s : setup_state) : setup_state :=
  match v with
  | MESH_GATE =>
      set_role_modes v MP_UNSPECIFIED
        (if decide (meshgateMode s = MG_UNSPECIFIED) then ROUTER else meshgateMode s) (uplink s) s
  | MESH_POINT =>
      set_role_modes v
        (if decide (meshpointMode s = MP_UNSPECIFIED) then EXTENDER else meshpointMode s)
        MG_UNSPECIFIED initial_uplink s
  | ROLE_UNSPECIFIED => set_role_modes v (meshpointMode s) (meshgateMode s) (uplink s) s
  end.

Definition set_ap (v : ap_update) (s : setup_state) : setup_state :=
  match find_ap (up_radioName v) (aps s) with
  | Some (idx, ap) => set_aps (<[idx := merge_ap ap v]> (aps s)) s
  | None => set_aps (aps s ++ [merge_ap (apDefaults (up_radioName v)) v]) s
  end.

Definition set_radio_mode (name : string) (mode : radio_mode) (s : setup_state) : setup_state :=
  let isBackhaul := bool_decide (mode = ModeBackhaul) in
  let found := find_ap name (aps s) in
  let existing := default (apDefaults name) (snd <$> found) in
  let updated :=
    with_mode (bool_decide (mode = ModeAp)) isBackhaul
      (if isBackhaul && bool_decide (ap_backhaulMeshId existing = "")
       then seed_mesh_id (m_meshId (mesh s)) else ap_backhaulMeshId existing)
      existing in
  let l := map (λ ap, if isBackhaul && bool_decide (ap_radioName ap ≠ name) && ap_meshBackhaul ap
                      then clear_backhaul ap else ap) (aps s) in
  match found with
  | Some (idx, _) => set_aps (<[idx := updated]> l) s
  | None => set_aps (l ++ [updated]) s
  end.

Definition hydrate_country (status : option setup_status) (m : mesh_slice) : string :=
  let countries := default [] (s_countries <$> status) in
  let cur := default "" (currentCountry <$> status) in
  if decide (m_countryCode m ≠ "") then m_countryCode m
  else if bool_decide (cur ≠ "") && existsb (λ c, bool_decide (code c = cur)) countries then cur
  else if existsb (λ c, bool_decide (code c = "US")) countries then "US"
  else match countries with c :: _ => code c | [] => m_countryCode m end.

Definition hydrate_timezone (status : option setup_status) (browserTimezone tz : string) : string :=
  if decide (tz ≠ "") then tz
  else
    let zones := default [] (timezones <$> status) in
    if bool_decide (browserTimezone ≠ "") && bool_decide (browserTimezone ∈ zones) then browserTimezone
    else first_nonempty (default "" (currentTimezone <$> status)) tz.

Definition hydrate (status : option setup_status) (browserTimezone : string) (s : setup_state) :
    setup_state :=
  let rs := default [] (radios <$> status) in
  let m := mesh s in
  let radio := match List.find r_isHalow rs with Some r => r_name r | None => m_radioName m end in
  let current := default "" (currentHostname <$> status) in
  let host := if bool_decide (hostname s = "") && bool_decide (current ≠ "") then current
              else hostname s in
  set_texts host (adminPassword s) (adminPasswordConfirm s)
    (hydrate_timezone status browserTimezone (timezone s))
    (set_mesh {| m_radioName := radio; m_meshId := m_meshId m; m_passphrase := m_passphrase m;
                 m_encryption := m_encryption m; m_bandwidthMhz := m_bandwidthMhz m;
                 m_channel := m_channel m; m_countryCode := hydrate_country status m;
                 m_fromScan := m_fromScan m |} s).

(** The backhaul half of [APPLY_MESH_JOIN]. *)
Definition join_backhaul (h b : MeshCredentials) (rs : list setup_radio) (s : setup_state) :
    list ap_profile * string * string :=
  match List.find (λ r, r_supportsMeshBackhaul r && negb (r_isHalow r)
                        && bool_decide (r_name r ≠ w_radioName (u_wireless (uplink s)))) rs with
  | Some target =>
      let existing := default (apDefaults (r_name target)) (snd <$> find_ap (r_name target) (aps s)) in
      let updated :=
        {| ap_radioName := ap_radioName existing; ap_enabled := false; ap_ssid := ap_ssid existing;
           ap_passphrase := ap_passphrase existing; ap_encryption := ap_encryption existing;
           ap_meshBackhaul := true; ap_backhaulMeshId := meshId b;
           ap_backhaulPassphrase := passphrase b; ap_backhaulBandwidthMhz := bandwidthMhz b;
           ap_backhaulChannel := channel b;
           ap_backhaulCountryCode := first_nonempty (countryCode b) (countryCode h);
           ap_backhaulFromScan := true |} in
      (map (λ ap, if ap_meshBackhaul ap then clear_backhaul ap else ap)
         (filter (λ ap, ap_radioName ap ≠ r_name target) (aps s)) ++ [updated],
       r_name target, "")
  | None => (aps s, "", "no-capable-radio")
  end.

Definition apply_mesh_join (payload : MeshJoinPayload) (h : MeshCredentials) (rs : list setup_radio)
    (s : setup_state) : setup_state :=
  let s1 := set_mesh
    {| m_radioName := m_radioName (mesh s); m_meshId := meshId h; m_passphrase := passphrase h;
       m_encryption := encryption h; m_bandwidthMhz := bandwidthMhz h; m_channel := channel h;
       m_countryCode := first_nonempty (countryCode h) (m_countryCode (mesh s));
       m_fromScan := true |} s in
  let '(l, radio, skipped) :=
    match backhaul payload with
    | Some b => join_backhaul h b rs s
    | None => (aps s, "", "")
    end in
  set_join (Some {| mj_sourceHostname := sourceHostname payload; mj_backhaulRadio := radio;
                    mj_backhaulSkippedReason := skipped |})
    (set_aps l s1).

(** [None]: the reducer throws, on a join payload without HaLow credentials. *)
Definition reducer (s : setup_state) (a : action) : option setup_state :=
  match a with
  | SET_HOSTNAME v => Some (set_texts v (adminPassword s) (adminPasswordConfirm s) (timezone s) s)
  | SET_ROLE v => Some (set_role v s)
  | SET_MESHPOINT_MODE v => Some (set_role_modes (role s) v (meshgateMode s) (uplink s) s)
  | SET_MESHGATE_MODE v => Some (set_role_modes (role s) (meshpointMode s) v (uplink s) s)
  | SET_MESH_FIELD f => Some (set_mesh (update_mesh f (mesh s)) s)
  | SET_UPLINK_TYPE v =>
      Some (set_uplink {| u_type := v; u_ethernetPort := u_ethernetPort (uplink s);
                          u_wireless := u_wireless (uplink s) |} s)
  | SET_UPLINK_FIELD v =>
      Some (set_uplink {| u_type := u_type (uplink s); u_ethernetPort := v;
                          u_wireless := u_wireless (uplink s) |} s)
  | SET_UPLINK_WIRELESS f =>
      Some (set_uplink {| u_type := u_type (uplink s); u_ethernetPort := u_ethernetPort (uplink s);
                          u_wireless := update_wireless f (u_wireless (uplink s)) |} s)
  | SET_AP v => Some (set_ap v s)
  | SET_RADIO_MODE name mode => Some (set_radio_mode name mode s)
  | REMOVE_AP name => Some (set_aps (filter (λ ap, ap_radioName ap ≠ name) (aps s)) s)
  | SET_ADMIN_PASSWORD v => Some (set_texts (hostname s) v (adminPasswordConfirm s) (timezone s) s)
  | SET_ADMIN_PASSWORD_CONFIRM v => Some (set_texts (hostname s) (adminPassword s) v (timezone s) s)
  | SET_TIMEZONE v => Some (set_texts (hostname s) (adminPassword s) (adminPasswordConfirm s) v s)
  | RESET => Some initialState
  | HYDRATE_FROM_STATUS status tz => Some (hydrate status tz s)
  | APPLY_MESH_JOIN payload rs =>
      match halow payload with Some h => Some (apply_mesh_join payload h rs s) | None => None end
  end.

(** ** The effects of the steps *)

(** The effects of [StepMesh], all computed from the state that was rendered:
    the radio by default, then the bandwidth and the channel. *)
Definition mesh_actions (status : option setup_status) (s : setup_state) : list action :=
  let halowRadios := filter r_isHalow ((radios <$> status) ?? []) in
  let entry := findCountryEntry ((s_countries <$> status) ?? []) (m_countryCode (mesh s)) in
  let legalBandwidths := bandwidthsForCountry entry in
  let channels := channelsForCountryBandwidth entry (m_bandwidthMhz (mesh s)) in
  (match halowRadios with
   | r :: _ => if bool_decide (m_radioName (mesh s) = "") then [SET_MESH_FIELD (MF_radioName (r_name r))]
               else []
   | [] => []
   end)
  ++ (if m_fromScan (mesh s) then []
      else match legalBandwidths with
           | bw :: _ => if bool_decide (m_bandwidthMhz (mesh s) ∈ legalBandwidths) then []
                        else [SET_MESH_FIELD (MF_bandwidthMhz bw)]
           | [] => []
           end)
  ++ (if m_fromScan (mesh s) then []
      else match channels with
           | ch :: _ => if bool_decide (m_channel (mesh s) ∈ channels) then []
                        else [SET_MESH_FIELD (MF_channel ch)]
           | [] => []
           end).

(** The effects of [StepUplink]: a type, a port and a radio by default. *)
Definition uplink_actions (status : option setup_status) (s : setup_state) : list action :=
  let ports := default [] (ethernetPorts <$> status) in
  let sta := filter (λ r, negb (r_isHalow r)) (default [] (radios <$> status)) in
  let u := uplink s in
  (if bool_decide (u_type u = UP_UNSPECIFIED)
   then [SET_UPLINK_TYPE (if bool_decide (ports = []) then WIRELESS_STA else ETHERNET)] else [])
  ++ (match ports with
      | p :: _ => if bool_decide (u_type u = ETHERNET) && bool_decide (u_ethernetPort u = "")
                  then [SET_UPLINK_FIELD p] else []
      | [] => []
      end)
  ++ (match sta with
      | r :: _ => if bool_decide (u_type u = WIRELESS_STA) && bool_decide (w_radioName (u_wireless u) = "")
                  then [SET_UPLINK_WIRELESS (WF_radioName (r_name r))] else []
      | [] => []
      end).

Definition dispatch_all (s : setup_state) (l : list action) : setup_state :=
  foldl (λ s a, default s (reducer s a)) s l.

(** One render of [StepMesh] (of [StepUplink]) with its effects. *)
Definition snap_round (status : option setup_status) (s : setup_state) : setup_state :=
  dispatch_all s (mesh_actions status s).

(** A field edit of [StepAPs]: [{ ...ap, ...clearsScan, [field]: value }]. *)
Inductive ap_field :=
| AF_ssid (v : string) | AF_passphrase (v : string) | AF_encryption (v : WifiEncryption)
| AF_backhaulMeshId (v : string) | AF_backhaulPassphrase (v : string)
| AF_backhaulBandwidthMhz (v : Z) | AF_backhaulChannel (v : Z) | AF_backhaulCountryCode (v : string).

Definition setField (radio : string) (f : ap_field) (s : setup_state) : action :=
  let ap := default (apDefaults radio) (snd <$> find_ap radio (aps s)) in
  let scan := match f with
              | AF_ssid _ | AF_passphrase _ | AF_encryption _ => ap_backhaulFromScan ap
              | _ => false
              end in
  SET_AP {|
    up_radioName := radio; up_enabled := Some (ap_enabled ap);
    up_ssid := Some (if f is AF_ssid v then v else ap_ssid ap);
    up_passphrase := Some (if f is AF_passphrase v then v else ap_passphrase ap);
    up_encryption := Some (if f is AF_encryption v then v else ap_encryption ap);
    up_meshBackhaul := Some (ap_meshBackhaul ap);
    up_backhaulMeshId := Some (if f is AF_backhaulMeshId v then v else ap_backhaulMeshId ap);
    up_backhaulPassphrase :=
      Some (if f is AF_backhaulPassphrase v then v else ap_backhaulPassphrase ap);
    up_backhaulBandwidthMhz :=
      Some (if f is AF_backhaulBandwidthMhz v then v else ap_backhaulBandwidthMhz ap);
    up_backhaulChannel := Some (if f is AF_backhaulChannel v then v else ap_backhaulChannel ap);
    up_backhaulCountryCode :=
      Some (if f is AF_backhaulCountryCode v then v else ap_backhaulCountryCode ap);
    up_backhaulFromScan := Some scan |}.

Definition uplink_round (status : option setup_status) (s : setup_state) : setup_state :=
  dispatch_all s (uplink_actions status s).

(** ** The wizard *)

(** What the steps dispatch: roles and modes from their option lists (the mode of
    the other role is not shown, and NONE is hidden), and profile edits through
    [setField]. *)
Definition ui_ok (s : setup_state) (a : action) : Prop :=
  match a with
  | SET_ROLE v => v ≠ ROLE_UNSPECIFIED
  | SET_MESHPOINT_MODE v => role s = MESH_POINT ∧ v = EXTENDER
  | SET_MESHGATE_MODE v => role s = MESH_GATE ∧ v ≠ MG_UNSPECIFIED
  | SET_AP v => ∃ radio f, a = setField radio f s
  | APPLY_MESH_JOIN payload _ => halow payload ≠ None
  | SET_UPLINK_TYPE v => v ≠ UP_UNSPECIFIED
  | _ => True
  end.

Definition ui_step (s s' : setup_state) : Prop := ∃ a, ui_ok s a ∧ reducer s a = Some s'.

(** One backhaul radio, no radio in two roles, modes that fit the role. *)
Definition one_backhaul (l : list ap_profile) : Prop :=
  ∀ a b, a ∈ l → b ∈ l → ap_meshBackhaul a = true → ap_meshBackhaul b = true →
  ap_radioName a = ap_radioName b.

Definition modes_fit (s : setup_state) : Prop :=
  match role s with
  | MESH_POINT => meshpointMode s = EXTENDER ∧ meshgateMode s = MG_UNSPECIFIED
  | MESH_GATE => meshpointMode s = MP_UNSPECIFIED ∧ meshgateMode s ≠ MG_UNSPECIFIED
  | ROLE_UNSPECIFIED => False
  end.

Definition aps_ok (l : list ap_profile) : Prop :=
  NoDup (map ap_radioName l)
  ∧ one_backhaul l
  ∧ Forall (λ a, ap_enabled a && ap_meshBackhaul a = false) l.

Definition wizard_inv (s : setup_state) : Prop := modes_fit s ∧ aps_ok (aps s).

(** ** Lemmas *)

Lemma find_ap_Some name l i ap :
  find_ap name l = Some (i, ap) → l !! i = Some ap ∧ ap_radioName ap = name.
Proof. intros H%list_find_Some. naive_solver. Qed.

Lemma find_ap_None name l : find_ap name l = None → name ∉ map ap_radioName l.
Proof.
  intros H%list_find_None (ap & -> & Hin)%list_elem_of_fmap.
  rewrite Forall_forall in H. by destruct (H ap Hin).
Qed.

(** Replacing or adding the entry of one radio. *)
Lemma aps_ok_insert l i ap ap' :
  aps_ok l → l !! i = Some ap → ap_radioName ap' = ap_radioName ap →
  ap_enabled ap' && ap_meshBackhaul ap' = false →
  (ap_meshBackhaul ap' = true →
     ∀ b, b ∈ l → ap_radioName b ≠ ap_radioName ap → ap_meshBackhaul b = false) →
  aps_ok (<[i := ap']> l).
Proof.
  intros (H1 & H2 & H3) Hi Hn Ho Hb. unfold aps_ok. split_and?.
  - assert (map ap_radioName (<[i:=ap']> l) = map ap_radioName l) as ->; [|done].
    apply list_eq. intros j. rewrite !list_lookup_fmap. destruct (decide (i = j)) as [<-|].
    + rewrite list_lookup_insert_eq, Hi by (by eapply lookup_lt_Some). simpl. by rewrite Hn.
    + by rewrite list_lookup_insert_ne.
  - intros a b Ha Hb' Hma Hmb.
    assert (∀ x, x ∈ <[i:=ap']> l → x = ap' ∨ (x ∈ l)) as Hx.
    { intros x [j Hj]%list_elem_of_lookup_1. destruct (decide (i = j)) as [->|Hne].
      - rewrite list_lookup_insert_eq in Hj by (by eapply lookup_lt_Some). left. congruence.
      - rewrite list_lookup_insert_ne in Hj by done. right. by eapply list_elem_of_lookup_2. }
    destruct (Hx a Ha) as [->|Hla], (Hx b Hb') as [->|Hlb]; [done|..|by apply H2].
    + destruct (decide (ap_radioName b = ap_radioName ap)); [congruence|].
      rewrite (Hb Hma b Hlb) in Hmb; done.
    + destruct (decide (ap_radioName a = ap_radioName ap)); [congruence|].
      rewrite (Hb Hmb a Hla) in Hma; done.
  - by apply Forall_insert.
Qed.

Lemma aps_ok_app l ap :
  aps_ok l → ap_radioName ap ∉ map ap_radioName l →
  ap_enabled ap && ap_meshBackhaul ap = false →
  (ap_meshBackhaul ap = true → ∀ b, b ∈ l → ap_meshBackhaul b = false) →
  aps_ok (l ++ [ap]).
Proof.
  intros (H1 & H2 & H3) Hn Ho Hb. unfold aps_ok. split_and?.
  - rewrite map_app. apply NoDup_app. split_and?; [done| |apply NoDup_singleton].
    by intros x Hx ->%list_elem_of_singleton.
  - intros a b [Ha|Ha%list_elem_of_singleton]%elem_of_app [Hb'|Hb'%list_elem_of_singleton]%elem_of_app Hma Hmb;
      subst; [by apply H2|..|done].
    + by rewrite (Hb Hmb a Ha) in Hma.
    + by rewrite (Hb Hma b Hb') in Hmb.
  - apply Forall_app. split; [done|by constructor].
Qed.

Lemma aps_ok_filter l (P : ap_profile → Prop) `{∀ x, Decision (P x)} :
  aps_ok l → aps_ok (filter P l).
Proof.
  intros (H1 & H2 & H3). unfold aps_ok. split_and?.
  - eapply sublist_NoDup; [exact H1|]. apply (fmap_sublist ap_radioName), sublist_filter.
  - intros a b [_ Ha]%list_elem_of_filter [_ Hb]%list_elem_of_filter. by apply H2.
  - rewrite Forall_forall in *. intros a [_ Ha]%list_elem_of_filter. by apply H3.
Qed.

(** Clearing the backhaul of some entries. *)
Lemma aps_ok_map l f :
  (∀ a, ap_radioName (f a) = ap_radioName a ∧ ap_enabled (f a) = ap_enabled a
    ∧ (ap_meshBackhaul (f a) = true → ap_meshBackhaul a = true)) →
  aps_ok l → aps_ok (map f l).
Proof.
  intros Hf (H1 & H2 & H3). unfold aps_ok. split_and?.
  - rewrite map_map. by rewrite (map_ext _ ap_radioName) by (intros; apply Hf).
  - intros ? ? (a & -> & Ha)%list_elem_of_fmap (b & -> & Hb)%list_elem_of_fmap Hma Hmb.
    destruct (Hf a) as (-> & _ & H), (Hf b) as (-> & _ & H'). apply H2; auto.
  - apply Forall_fmap. eapply Forall_impl; [exact H3|]. simpl. intros a Ha.
    destruct (Hf a) as (_ & -> & H). destruct (ap_enabled a), (ap_meshBackhaul (f a)); simpl in *; try done.
    rewrite <- Ha. symmetry. by apply H.
Qed.

Lemma set_radio_mode_ok name mode s : aps_ok (aps s) → aps_ok (aps (set_radio_mode name mode s)).
Proof.
  intros Hok. unfold set_radio_mode. set (isB := bool_decide (mode = ModeBackhaul)).
  set (clr := λ ap, if isB && bool_decide (ap_radioName ap ≠ name) && ap_meshBackhaul ap
                    then clear_backhaul ap else ap).
  assert (aps_ok (map clr (aps s))) as Hmap.
  { apply aps_ok_map; [|done]. intros a. unfold clr. by case_match. }
  assert (∀ b, isB = true → b ∈ map clr (aps s) → ap_radioName b ≠ name → ap_meshBackhaul b = false) as Hclr.
  { intros ? HB (a & -> & Ha)%list_elem_of_fmap Hn. unfold clr in *. rewrite HB in *. simpl in *.
    destruct (bool_decide (ap_radioName a ≠ name)) eqn:Hd; simpl in *.
    - by destruct (ap_meshBackhaul a) eqn:Hm.
    - apply bool_decide_eq_false in Hd. by destruct Hd. }
  assert (bool_decide (mode = ModeAp) && isB = false) as Hx by (unfold isB; by destruct mode).
  destruct (find_ap name (aps s)) as [[i ap]|] eqn:Hf; simpl.
  - apply find_ap_Some in Hf as [Hi Hn]. eapply (aps_ok_insert _ _ ap); [done| |done|done|].
    + rewrite list_lookup_fmap, Hi. simpl. f_equal. unfold clr. rewrite (bool_decide_eq_false_2 _) by tauto.
      by rewrite andb_false_r.
    + simpl. rewrite Hn. intros HB b Hb Hne. by eapply Hclr.
  - apply find_ap_None in Hf. apply aps_ok_app; [done| |done|].
    + simpl. intros Hin. apply Hf. rewrite map_map in Hin.
      by rewrite (map_ext _ ap_radioName) in Hin by (intros a; unfold clr; by case_match).
    + simpl. intros HB b Hb. eapply Hclr; [done|done|]. intros Hbn. apply Hf.
      apply list_elem_of_fmap in Hb as (a & -> & Ha). apply list_elem_of_fmap. exists a.
      split; [|done]. rewrite <- Hbn. unfold clr. by case_match.
Qed.

Lemma join_backhaul_ok h b rs s : aps_ok (aps s) → aps_ok (join_backhaul h b rs s).1.1.
Proof.
  intros Hok. unfold join_backhaul. destruct (List.find _ rs) as [target|]; [|done]. simpl.
  set (l := filter _ _). assert (aps_ok l) as Hl by (by apply aps_ok_filter).
  set (f := λ ap, if ap_meshBackhaul ap then clear_backhaul ap else ap).
  assert (∀ a, ap_radioName (f a) = ap_radioName a ∧ ap_enabled (f a) = ap_enabled a
    ∧ ap_meshBackhaul (f a) = false) as Hf.
  { intros a. unfold f. by destruct (ap_meshBackhaul a) eqn:Hm. }
  assert (ap_radioName (default (apDefaults (r_name target)) (snd <$> find_ap (r_name target) (aps s)))
    = r_name target) as Hn.
  { destruct (find_ap _ _) as [[i ap]|] eqn:Hfa; [|done]. by apply find_ap_Some in Hfa as [_ ?]. }
  apply aps_ok_app.
  - apply aps_ok_map; [|done]. intros a. destruct (Hf a) as (-> & -> & ->). done.
  - simpl. rewrite Hn, map_map, (map_ext _ ap_radioName) by (intros; apply Hf).
    intros (a & Ha & [Hne _]%list_elem_of_filter)%list_elem_of_fmap. congruence.
  - done.
  - intros _ ? (a & -> & _)%list_elem_of_fmap. apply Hf.
Qed.

Lemma setField_ok radio f s v :
  SET_AP v = setField radio f s →
  up_radioName v = radio
  ∧ up_enabled v = Some (ap_enabled (default (apDefaults radio) (snd <$> find_ap radio (aps s))))
  ∧ up_meshBackhaul v = Some (ap_meshBackhaul (default (apDefaults radio) (snd <$> find_ap radio (aps s)))).
Proof. unfold setField. by intros [= ->]. Qed.

Lemma set_ap_ok v s :
  (∃ radio f, SET_AP v = setField radio f s) → aps_ok (aps s) → aps_ok (aps (set_ap v s)).
Proof.
  intros (radio & f & (Hr & He & Hb)%setField_ok) Hok. unfold set_ap. rewrite Hr.
  destruct (find_ap radio (aps s)) as [[i ap]|] eqn:Hf; simpl in *.
  - apply find_ap_Some in Hf as [Hi Hn]. destruct Hok as (H1 & H2 & H3).
    eapply aps_ok_insert; [done|done|by simpl; rewrite Hr| |].
    + simpl. rewrite He, Hb. simpl. rewrite Forall_forall in H3.
      by apply H3, list_elem_of_lookup_2 with i.
    + simpl. rewrite Hb. simpl. intros Hm b Hbl Hne.
      destruct (ap_meshBackhaul b) eqn:Hmb; [|done]. destruct Hne. symmetry.
      apply H2; [by eapply list_elem_of_lookup_2|done|done|done].
  - apply find_ap_None in Hf. apply aps_ok_app; simpl; rewrite ?Hr, ?He, ?Hb; done.
Qed.

Lemma aps_ok_nil : aps_ok [].
Proof. repeat split; [constructor|by intros ? ? ?%elem_of_nil|constructor]. Qed.

Lemma wizard_inv_step s s' : wizard_inv s → ui_step s s' → wizard_inv s'.
Proof.
  intros [Hm Ha] (a & Hok & Hr). pose proof Hm as Hm'. unfold modes_fit in Hm'.
  destruct a; simpl in Hr; try (injection Hr as <-); try (by split).
  - destruct v; simpl in *; [done|..]; (split; [|done]); unfold modes_fit; simpl;
      destruct (role s); destruct Hm'; repeat case_decide; try done; split; congruence.
  - destruct Hok as [Hrole ->]. split; [|done]. unfold modes_fit. simpl. rewrite Hrole in *. naive_solver.
  - destruct Hok as [Hrole Hv]. split; [|done]. unfold modes_fit. simpl. rewrite Hrole in *. naive_solver.
  - destruct (halow payload) as [h|]; [|done]. injection Hr as <-. unfold apply_mesh_join.
    destruct (backhaul payload) as [b|]; [|by split].
    pose proof (join_backhaul_ok h b rs s Ha) as Hj.
    destruct (join_backhaul h b rs s) as [[l r] sk]. by split.
  - split; [|by apply set_ap_ok]. unfold set_ap. by destruct (find_ap _ _) as [[]|].
  - split; [done|]. by apply aps_ok_filter.
  - split; [|by apply set_radio_mode_ok]. unfold set_radio_mode. by destruct (find_ap _ _) as [[]|].
  - split; [done|apply aps_ok_nil].
Qed.

Lemma wizard_reachable s : rtc ui_step initialState s → wizard_inv s.
Proof.
  revert s. apply rtc_ind_r; [|intros s1 s2 _; by eauto using wizard_inv_step].
  split; [done|apply aps_ok_nil].
Qed.

(** *** The effects *)

Lemma bandwidthsForCountry_not_nil entry : bandwidthsForCountry entry ≠ [].
Proof.
  destruct entry as [e|]; [|done]. unfold bandwidthsForCountry.
  destruct (c_bandwidths e) as [|b bs] eqn:Hb; [done|].
  intros H%(f_equal length). by rewrite merge_sort_Permutation in H.
Qed.

(** The bandwidth effect leaves a legal width. *)
Lemma snap_value {A} `{EqDecision A} (v : A) l :
  l ≠ [] → default v (if bool_decide (v ∈ l) then None else head l) ∈ l.
Proof.
  intros Hl. case_bool_decide; [done|]. destruct l; [done|]. apply list_elem_of_here.
Qed.

(** What one round of the mesh effects leaves in the slice. *)
Lemma snap_round_mesh status s :
  let entry := findCountryEntry ((s_countries <$> status) ?? []) (m_countryCode (mesh s)) in
  let legal := bandwidthsForCountry entry in
  let channels := channelsForCountryBandwidth entry (m_bandwidthMhz (mesh s)) in
  let m' := mesh (snap_round status s) in
  m_fromScan (mesh s) = false →
  m_fromScan m' = false ∧ m_countryCode m' = m_countryCode (mesh s)
  ∧ m_bandwidthMhz m'
    = default (m_bandwidthMhz (mesh s))
        (if bool_decide (m_bandwidthMhz (mesh s) ∈ legal) then None else head legal)
  ∧ m_channel m'
    = default (m_channel (mesh s))
        (if bool_decide (m_channel (mesh s) ∈ channels) then None else head channels).
Proof.
  intros entry legal channels m' Hs. unfold m', snap_round, mesh_actions.
  fold entry. fold legal. fold channels. rewrite Hs.
  clearbody legal channels. clear m'.
  destruct (bool_decide (_ ∈ legal)), (bool_decide (_ ∈ channels));
    destruct legal; destruct channels;
    destruct (filter r_isHalow _); destruct (bool_decide (m_radioName (mesh s) = "")); try done.
Qed.

Lemma snap_round_radio status s :
  m_radioName (mesh (snap_round status s))
  = if decide (m_radioName (mesh s) = "")
    then default "" (r_name <$> head (filter r_isHalow ((radios <$> status) ?? [])))
    else m_radioName (mesh s).
Proof.
  unfold snap_round, mesh_actions. cbv zeta.
  generalize (bandwidthsForCountry
    (findCountryEntry ((s_countries <$> status) ?? []) (m_countryCode (mesh s)))).
  intros legal. generalize (channelsForCountryBandwidth
    (findCountryEntry ((s_countries <$> status) ?? []) (m_countryCode (mesh s))) (m_bandwidthMhz (mesh s))).
  intros channels. destruct (bool_decide (_ ∈ legal)), (bool_decide (_ ∈ channels)),
    (decide (m_radioName (mesh s) = "")) as [He|He];
    rewrite ?(bool_decide_eq_true_2 _ He), ?(bool_decide_eq_false_2 _ He);
    destruct legal; destruct channels; destruct (m_fromScan (mesh s));
    destruct (filter r_isHalow _); first [done | exact He].
Qed.

Lemma snap_round_scan status s :
  m_fromScan (mesh s) = true →
  mesh (snap_round status s) = update_mesh (MF_radioName (m_radioName (mesh (snap_round status s)))) (mesh s).
Proof.
  intros Hs. unfold snap_round, mesh_actions. cbv zeta. rewrite Hs.
  clear Hs. destruct (filter r_isHalow _) as [|r rs]; [|case_goal]; simpl; by destruct (mesh s).
Qed.

(** [mesh_actions] is empty when every value is already legal. *)
Lemma mesh_actions_nil status s :
  let entry := findCountryEntry ((s_countries <$> status) ?? []) (m_countryCode (mesh s)) in
  (m_radioName (mesh s) = "" → filter r_isHalow ((radios <$> status) ?? []) = []) →
  (m_fromScan (mesh s) = false →
     m_bandwidthMhz (mesh s) ∈ bandwidthsForCountry entry
     ∧ (channelsForCountryBandwidth entry (m_bandwidthMhz (mesh s)) ≠ [] →
        m_channel (mesh s) ∈ channelsForCountryBandwidth entry (m_bandwidthMhz (mesh s)))) →
  mesh_actions status s = [].
Proof.
  intros entry Hr Hs. unfold mesh_actions. fold entry.
  assert (∀ r rs, filter r_isHalow ((radios <$> status) ?? []) = r :: rs → m_radioName (mesh s) ≠ "") as Hr'
    by (intros r rs He Hn; by rewrite (Hr Hn) in He).
  destruct (filter r_isHalow _) as [|r rs]; [simpl|rewrite bool_decide_eq_false_2 by (by eapply Hr'); simpl];
    (destruct (m_fromScan (mesh s)); [done|]; destruct (Hs eq_refl) as [Hb Hc];
     rewrite (bool_decide_eq_true_2 _ Hb);
     destruct (bandwidthsForCountry entry); [|simpl];
     (destruct (channelsForCountryBandwidth _ _) as [|c cs]; [done|];
      rewrite bool_decide_eq_true_2 by (by apply Hc); done)).
Qed.

Lemma uplink_actions_nil status s :
  let u := uplink s in
  u_type u ≠ UP_UNSPECIFIED →
  (u_type u = ETHERNET → u_ethernetPort u = "" → (ethernetPorts <$> status) ?? [] = []) →
  (u_type u = WIRELESS_STA → w_radioName (u_wireless u) = "" →
     filter (λ r, negb (r_isHalow r)) ((radios <$> status) ?? []) = []) →
  uplink_actions status s = [].
Proof.
  intros u Ht Hp Hw. unfold uplink_actions. fold u. rewrite (bool_decide_eq_false_2 _ Ht). simpl.
  destruct ((ethernetPorts <$> status) ?? []) as [|p ps];
    destruct (filter _ ((radios <$> status) ?? [])) as [|r rs]; simpl; try done;
    case_goal; naive_solver.
Qed.

(** What one round of the uplink effects leaves. *)
Lemma uplink_round_eq status s :
  let u := uplink s in
  let ports := (ethernetPorts <$> status) ?? [] in
  let sta := filter (λ r, negb (r_isHalow r)) ((radios <$> status) ?? []) in
  let u' := uplink (uplink_round status s) in
  u_type u' = (if decide (u_type u = UP_UNSPECIFIED)
               then (if decide (ports = []) then WIRELESS_STA else ETHERNET) else u_type u)
  ∧ u_ethernetPort u' = (if decide (u_type u = ETHERNET ∧ u_ethernetPort u = "")
                         then default "" (head ports) else u_ethernetPort u)
  ∧ w_radioName (u_wireless u')
    = (if decide (u_type u = WIRELESS_STA ∧ w_radioName (u_wireless u) = "")
       then default "" (r_name <$> head sta) else w_radioName (u_wireless u)).
Proof.
  intros u ports sta u'. unfold u', uplink_round, uplink_actions. fold u. fold ports. fold sta.
  destruct (u_type u) eqn:Ht; destruct ports as [|p ps]; destruct sta as [|r rs];
    destruct (decide (u_ethernetPort u = "")) as [He|He];
    destruct (decide (w_radioName (u_wireless u) = "")) as [Hw|Hw];
    rewrite ?(bool_decide_eq_true_2 _ He), ?(bool_decide_eq_false_2 _ He),
      ?(bool_decide_eq_true_2 _ Hw), ?(bool_decide_eq_false_2 _ Hw); simpl; fold u;
    repeat case_decide; split_and?; first [done | tauto].
Qed.

Lemma mesh_settles status s :
  Forall (λ r, r_name r ≠ "") ((radios <$> status) ?? []) →
  let sm := snap_round status (snap_round status s) in
  let entry := findCountryEntry ((s_countries <$> status) ?? []) (m_countryCode (mesh s)) in
  let channels := channelsForCountryBandwidth entry (m_bandwidthMhz (mesh sm)) in
  mesh_actions status sm = []
  ∧ (m_fromScan (mesh s) = false →
       m_bandwidthMhz (mesh sm) ∈ bandwidthsForCountry entry
       ∧ (channels ≠ [] → m_channel (mesh sm) ∈ channels)).
Proof.
  intros Hr sm entry channels.
  assert (m_fromScan (mesh s) = false →
       m_countryCode (mesh sm) = m_countryCode (mesh s)
       ∧ m_bandwidthMhz (mesh sm) ∈ bandwidthsForCountry entry
       ∧ (channels ≠ [] → m_channel (mesh sm) ∈ channels)) as Hlegal.
  { intros Hs. destruct (snap_round_mesh status s Hs) as (Hs1 & Hc1 & Hb1 & _).
    destruct (snap_round_mesh status _ Hs1) as (_ & Hc2 & Hb2 & Hch2).
    fold sm in Hc2, Hb2, Hch2. rewrite Hc1 in *. fold entry in Hb1, Hb2, Hch2.
    assert (m_bandwidthMhz (mesh (snap_round status s)) ∈ bandwidthsForCountry entry) as Hb
      by (rewrite Hb1; apply snap_value, bandwidthsForCountry_not_nil).
    rewrite (bool_decide_eq_true_2 _ Hb) in Hb2. simpl in Hb2. unfold channels.
    split_and?; [done|by rewrite Hb2|]. rewrite Hb2, Hch2. apply snap_value. }
  split; [|by intros ?; apply Hlegal]. apply mesh_actions_nil.
  - unfold sm. rewrite !snap_round_radio. generalize ((radios <$> status) ?? []) Hr.
    intros rs Hrs. assert (filter r_isHalow rs = []
      ∨ default "" (r_name <$> head (filter r_isHalow rs)) ≠ "") as Hf.
    { destruct (filter r_isHalow rs) as [|r l] eqn:Hf; [by left|right]. simpl.
      rewrite Forall_forall in Hrs. apply Hrs.
      assert (r ∈ filter r_isHalow rs) as [_ ?]%list_elem_of_filter by (rewrite Hf; apply list_elem_of_here).
      done. }
    repeat case_decide; tauto.
  - intros Hs. destruct (decide (m_fromScan (mesh s) = false)) as [H0|H0].
    + destruct (Hlegal H0) as (Hc & Hb & Hch). by rewrite Hc.
    + apply not_false_is_true in H0. unfold sm in Hs.
      rewrite snap_round_scan in Hs; simpl in Hs; [rewrite (snap_round_scan _ _ H0) in Hs; simpl in Hs; congruence|].
      by rewrite (snap_round_scan _ _ H0).
Qed.

Lemma uplink_settles status s :
  Forall (λ r, r_name r ≠ "") ((radios <$> status) ?? []) →
  Forall (λ p, p ≠ "") ((ethernetPorts <$> status) ?? []) →
  let su := uplink_round status (uplink_round status s) in
  uplink_actions status su = []
  ∧ u_type (uplink su) ≠ UP_UNSPECIFIED
  ∧ (u_type (uplink s) ≠ UP_UNSPECIFIED → u_type (uplink su) = u_type (uplink s))
  ∧ (u_ethernetPort (uplink s) ≠ "" → u_ethernetPort (uplink su) = u_ethernetPort (uplink s))
  ∧ (w_radioName (u_wireless (uplink s)) ≠ "" →
       w_radioName (u_wireless (uplink su)) = w_radioName (u_wireless (uplink s))).
Proof.
  intros Hr Hp su. destruct (uplink_round_eq status s) as (Ht1 & Hp1 & Hw1).
  destruct (uplink_round_eq status (uplink_round status s)) as (Ht2 & Hp2 & Hw2).
  fold su in Ht2, Hp2, Hw2.
  assert (u_type (uplink (uplink_round status s)) ≠ UP_UNSPECIFIED) as Hne
    by (rewrite Ht1; by repeat case_decide).
  rewrite decide_False in Ht2 by done.
  split_and?.
  - apply uplink_actions_nil; rewrite Ht2; [done|..].
    + intros He Hn. rewrite Hp2 in Hn. destruct ((ethernetPorts <$> status) ?? []) as [|q qs]; [done|].
      inversion_clear Hp. simpl in Hn. case_decide; [done|]. tauto.
    + intros He Hn. rewrite Hw2 in Hn. destruct (filter _ _) as [|r rs] eqn:Hf; [done|].
      assert (r_name r ≠ "").
      { rewrite Forall_forall in Hr. apply Hr.
        assert (r ∈ filter (λ r, negb (r_isHalow r)) ((radios <$> status) ?? []))
          as [_ ?]%list_elem_of_filter by (rewrite Hf; apply list_elem_of_here). done. }
      simpl in Hn. case_decide; [done|]. tauto.
  - by rewrite Ht2.
  - intros Hne0. by rewrite Ht2, Ht1, decide_False.
  - intros Hne0. rewrite decide_False in Hp1 by tauto. rewrite Hp2, Hp1, decide_False by tauto. done.
  - intros Hne0. rewrite decide_False in Hw1 by tauto. rewrite Hw2, Hw1, decide_False by tauto. done.
Qed.

(** ** Properties *)

(** C15: from the initial state, whatever the steps of the wizard dispatch (typed
    fields, role and mode choices, radio modes, the effects, a scanned code, a
    hydration, a reset), the mode of the other role is cleared and the role's own
    mode is set, every radio has one profile at most, no radio is access point and
    backhaul at once, and one radio at most is the backhaul. *)
Theorem wizard_consistent s : rtc ui_step initialState s → wizard_inv s.
Proof. apply wizard_reachable. Qed.

Theorem wizard_consistent_witness : wizard_inv (set_radio_mode "radio1" ModeBackhaul
  (set_radio_mode "radio0" ModeBackhaul (set_role MESH_GATE initialState))).
Proof.
  apply wizard_consistent. eapply rtc_l; [exists (SET_ROLE MESH_GATE); split; [done|reflexivity]|].
  eapply rtc_l; [exists (SET_RADIO_MODE "radio0" ModeBackhaul); split; [done|reflexivity]|].
  eapply rtc_l; [exists (SET_RADIO_MODE "radio1" ModeBackhaul); split; [done|reflexivity]|].
  apply rtc_refl.
Defined.

(** C16: the effects of the mesh and of the uplink step settle within two renders.
    The mesh effects then leave a width the country allows and, when that width
    has channels, one of them; values filled from a scanned code are never
    touched. The uplink effects leave a type and, when the device offers one, a
    port (or a station radio), and keep whatever was chosen before. *)
Theorem setup_effects_settle (status : option setup_status) (s : setup_state) :
  Forall (λ r, r_name r ≠ "") ((radios <$> status) ?? []) →
  Forall (λ p, p ≠ "") ((ethernetPorts <$> status) ?? []) →
  let sm := snap_round status (snap_round status s) in
  let su := uplink_round status (uplink_round status s) in
  let entry := findCountryEntry ((s_countries <$> status) ?? []) (m_countryCode (mesh s)) in
  let channels := channelsForCountryBandwidth entry (m_bandwidthMhz (mesh sm)) in
  mesh_actions status sm = []
  ∧ (m_fromScan (mesh s) = false →
       m_bandwidthMhz (mesh sm) ∈ bandwidthsForCountry entry
       ∧ (channels ≠ [] → m_channel (mesh sm) ∈ channels))
  ∧ (m_fromScan (mesh s) = true →
       mesh sm = update_mesh (MF_radioName (m_radioName (mesh sm))) (mesh s))
  ∧ uplink_actions status su = []
  ∧ u_type (uplink su) ≠ UP_UNSPECIFIED
  ∧ (u_type (uplink s) ≠ UP_UNSPECIFIED → u_type (uplink su) = u_type (uplink s))
  ∧ (u_ethernetPort (uplink s) ≠ "" → u_ethernetPort (uplink su) = u_ethernetPort (uplink s))
  ∧ (w_radioName (u_wireless (uplink s)) ≠ "" →
       w_radioName (u_wireless (uplink su)) = w_radioName (u_wireless (uplink s))).
Proof.
  intros Hr Hp sm su entry channels.
  assert (mesh_actions status sm = [] ∧ (m_fromScan (mesh s) = false →
       m_bandwidthMhz (mesh sm) ∈ bandwidthsForCountry entry
       ∧ (channels ≠ [] → m_channel (mesh sm) ∈ channels))) as [H1 H2] by (by apply mesh_settles).
  split; [done|]. split; [done|]. split.
  - intros Hs. pose proof (snap_round_scan status s Hs) as H.
    assert (m_fromScan (mesh (snap_round status s)) = true) as Hs1 by (by rewrite H).
    pose proof (snap_round_scan status _ Hs1) as H'. fold sm in H'.
    etransitivity; [exact H'|]. etransitivity; [apply f_equal, H|]. done.
  - by apply uplink_settles.
Qed.

Theorem setup_effects_settle_witness :
  let status := Some {| isEnabled := true; isSetupComplete := false; hasHalowRadio := true;
    alreadyConfigured := false; currentHostname := "node"; radios :=
      [{| r_name := "radio0"; r_isHalow := true; r_supportsMeshBackhaul := false; r_band := "s1g";
          r_hardwareName := "" |};
       {| r_name := "radio1"; r_isHalow := false; r_supportsMeshBackhaul := true; r_band := "2g";
          r_hardwareName := "" |}];
    ethernetPorts := ["eth0"];
    s_countries := [{| code := "DE"; c_name := "Germany"; c_bandwidths := [{| mhz := 1; bw_channels := [3; 1]%Z |}] |}];
    currentCountry := "DE"; timezones := []; currentTimezone := "" |} in
  let s := hydrate status "" initialState in
  m_fromScan (mesh s) = false
  ∧ (m_bandwidthMhz (mesh s), m_channel (mesh s)) = (2, 42)%Z
  ∧ let sm := snap_round status (snap_round status s) in
    (m_bandwidthMhz (mesh sm), m_channel (mesh sm)) = (1, 3)%Z
    ∧ m_bandwidthMhz (mesh sm) ∈ bandwidthsForCountry (findCountryEntry
        (((λ st, s_countries st) <$> status) ?? []) (m_countryCode (mesh s))).
Proof.
  intros status s. split; [reflexivity|]. split; [reflexivity|]. split; [reflexivity|].
  apply (setup_effects_settle status s); [by repeat constructor..|reflexivity].
Defined.
