(* ===== verification/SetupApply.v ===== *)
(** [pages/setup/StepReview.jsx]: the checks before Apply, the profile that is
    sent, and the run of the [ApplySetup] stream with its polling fallback; the
    server's validation of the profile ([setup.go]) is the specification the
    profile is held against.

    The profile's [clientTime] is the clock at the time of the call and is left
    out.  String lengths are JavaScript's on one side and Go's on the other; they
    agree on the ASCII strings modelled here. *)
From S2P Require Import Prelude MeshJoin Setup.
Open Scope js_scope.

(** ** The wire profile *)

Record MeshRadioConfig := {
  mr_radioName : string; mr_meshId : string; mr_passphrase : string; mr_encryption : WifiEncryption;
  mr_bandwidthMhz : Z; mr_channel : Z; mr_countryCode : string
}.

Record MeshBackhaulProfile := {
  mb_meshId : string; mb_passphrase : string; mb_bandwidthMhz : Z; mb_channel : Z;
  mb_countryCode : string
}.

Record RadioApProfile := {
  ra_radioName : string; ra_enabled : bool; ra_ssid : string; ra_passphrase : string;
  ra_encryption : WifiEncryption; ra_meshBackhaul : option MeshBackhaulProfile
}.

Record Uplink := { pu_type : UplinkType; pu_ethernetPort : string; pu_wireless : option wireless_slice }.

(** The [device_mode] oneof. *)
Inductive device_mode :=
| NoMode
| MeshpointMode (v : MeshPointMode)
| MeshgateMode (v : MeshGateMode).

Record MeshNodeProfile := {
  p_hostname : string; p_adminPassword : string; p_role : MeshRole; p_timezone : string;
  p_mesh : MeshRadioConfig; p_aps : list RadioApProfile; p_deviceMode : device_mode;
  p_uplink : option Uplink
}.

Definition ap_to_proto (a : ap_profile) : RadioApProfile :=
  {| ra_radioName := ap_radioName a;
     ra_enabled := ap_enabled a;
     ra_ssid := if ap_enabled a then ap_ssid a else "";
     ra_passphrase := if ap_enabled a then ap_passphrase a else "";
     ra_encryption := if ap_enabled a then ap_encryption a else SAE;
     ra_meshBackhaul :=
       if ap_meshBackhaul a
       then Some {| mb_meshId := ap_backhaulMeshId a; mb_passphrase := ap_backhaulPassphrase a;
                    mb_bandwidthMhz := ap_backhaulBandwidthMhz a; mb_channel := ap_backhaulChannel a;
                    mb_countryCode := ap_backhaulCountryCode a |}
       else None |}.

Definition profileToProto (s : setup_state) : MeshNodeProfile :=
  {| p_hostname := hostname s;
     p_adminPassword := adminPassword s;
     p_role := role s;
     p_timezone := timezone s;
     p_mesh :=
       {| mr_radioName := m_radioName (mesh s); mr_meshId := m_meshId (mesh s);
          mr_passphrase := m_passphrase (mesh s); mr_encryption := m_encryption (mesh s);
          mr_bandwidthMhz := m_bandwidthMhz (mesh s); mr_channel := m_channel (mesh s);
          mr_countryCode := m_countryCode (mesh s) |};
     p_aps := map ap_to_proto (filter (λ a, ap_enabled a || ap_meshBackhaul a) (aps s));
     p_deviceMode :=
       match role s with
       | MESH_POINT => MeshpointMode (meshpointMode s)
       | MESH_GATE => MeshgateMode (meshgateMode s)
       | ROLE_UNSPECIFIED => NoMode
       end;
     p_uplink :=
       match role s with
       | MESH_GATE =>
           Some {| pu_type := u_type (uplink s); pu_ethernetPort := u_ethernetPort (uplink s);
                   pu_wireless := if decide (u_type (uplink s) = WIRELESS_STA)
                                  then Some (u_wireless (uplink s)) else None |}
       | _ => None
       end |}.

(** ** What keeps Apply disabled *)

(** [a || d] on numbers. *)
Definition or_num (a d : Z) : Z := if decide (a = 0%Z) then d else a.

Definition scanned_mesh_check (s : setup_state) (status : option setup_status) : list issue :=
  let cs := (s_countries <$> status) ?? [] in
  let entry := findCountryEntry cs (m_countryCode (mesh s)) in
  checkMeshCredentials
    (Some {| meshId := m_meshId (mesh s); passphrase := m_passphrase (mesh s);
             encryption := m_encryption (mesh s); bandwidthMhz := m_bandwidthMhz (mesh s);
             channel := m_channel (mesh s); countryCode := m_countryCode (mesh s) |})
    {| isHalow := true; bandwidths := bandwidthsForCountry entry;
       channels := Some <$> channelsForCountryBandwidth entry (m_bandwidthMhz (mesh s));
       countries := map code cs; countryMaxLen := 0 |}.

Definition scanned_ap_check (ap : ap_profile) : list issue :=
  checkMeshCredentials
    (Some {| meshId := ap_backhaulMeshId ap; passphrase := ap_backhaulPassphrase ap;
             encryption := SAE; bandwidthMhz := or_num (ap_backhaulBandwidthMhz ap) 40;
             channel := or_num (ap_backhaulChannel ap) 8; countryCode := ap_backhaulCountryCode ap |})
    {| isHalow := false; bandwidths := BACKHAUL_BANDWIDTHS; channels := Some <$> BACKHAUL_CHANNELS_2G;
       countries := []; countryMaxLen := 0 |}.

Definition meshJoinIssues (s : setup_state) (status : option setup_status) : list string :=
  (if m_fromScan (mesh s) then map i_message (scanned_mesh_check s status) else [])
  ++ concat (map (λ ap, if ap_meshBackhaul ap && ap_backhaulFromScan ap
                        then map (λ i, ap_radioName ap ++ ": " ++ i_message i)%string (scanned_ap_check ap)
                        else []) (aps s)).

(** [if (b) out.push(msg)]. *)
Definition push_if (b : bool) (msg : string) : list string := if b then [msg] else [].

Definition backhaul_blockers (ap : ap_profile) : list string :=
  if negb (ap_meshBackhaul ap) then []
  else
    push_if (bool_decide (ap_backhaulMeshId ap = ""))
      ("Mesh backhaul on " ++ ap_radioName ap ++ " needs a mesh ID (Wi-Fi step).")
    ++ push_if (bool_decide (ap_backhaulPassphrase ap = "")
                || bool_decide (str_len (ap_backhaulPassphrase ap) < 8)%Z)
      ("Mesh backhaul on " ++ ap_radioName ap
       ++ " needs a passphrase of at least 8 characters (Wi-Fi step).")
    ++ push_if (bool_decide (ap_backhaulMeshId ap ≠ "")
                && bool_decide (32 < str_len (ap_backhaulMeshId ap))%Z)
      ("Mesh backhaul on " ++ ap_radioName ap ++ " mesh ID must be 32 characters or fewer (Wi-Fi step).").

Definition tuning_blockers (ap : ap_profile) : list string :=
  if negb (ap_meshBackhaul ap) then []
  else push_if (negb (Bool.eqb (bool_decide (ap_backhaulChannel ap = 0%Z))
                               (bool_decide (ap_backhaulBandwidthMhz ap = 0%Z))))
    ("Mesh backhaul on " ++ ap_radioName ap
     ++ ": set bandwidth and channel together or leave both at Default (Wi-Fi step).").

Definition applyBlockers (s : setup_state) (status : option setup_status) : list string :=
  push_if (bool_decide (hostname s = "")) "Hostname is empty (Step 1)."
  ++ push_if (bool_decide (m_radioName (mesh s) = "")) "Mesh radio not selected (Step 2)."
  ++ push_if (bool_decide (m_meshId (mesh s) = "")) "Mesh ID is empty (Step 2)."
  ++ push_if (bool_decide (m_countryCode (mesh s) = "")) "Regulatory country not selected (Step 2)."
  ++ (if bool_decide (adminPassword s = "") || bool_decide (str_len (adminPassword s) < 8)%Z
      then ["Admin password must be at least 8 characters (Password step)."]
      else push_if (bool_decide (adminPassword s ≠ adminPasswordConfirm s))
             "Admin password and confirmation do not match (Password step).")
  ++ concat (map backhaul_blockers (aps s))
  ++ concat (map tuning_blockers (aps s))
  ++ map (λ msg, msg ++ " (Step 2).")%string (meshJoinIssues s status).

(** ** The server's validation *)

Inductive profile_error :=
| BadHostname | UnknownTimezone | RoleRequired | MeshgateModeRequired | MeshpointModeSet
| UplinkRequired | MeshpointModeRequired | MeshpointNoneUnsupported | MeshgateModeSet
| MeshRadioRequired | MeshRadioNotHalow | MeshChannelRequired | MeshBandwidth
| RegdbBroken | CountryRequired | IllegalChannel
| ApRadioRequired | ApOnMeshRadio | ApOnHalow | ApTwice | BadPassphrase
| StaRadioRequired | StaOnMeshRadio | StaOnHalow | StaIsAp | StaIsBackhaul
| AdminPasswordShort
| ApAndBackhaul | TwoBackhauls | BackhaulUnsupported | TuningNotTogether | BackhaulWidth
| BackhaulChannel.

Inductive regdb := NotInstalled | LoadFailed | Loaded (isLegalChannel : string → Z → Z → bool).

(** What the server knows: its time zones, its HaLow radios, the regulatory
    database, and the radios that can carry the backhaul. *)
Record server := {
  tz_known : string → bool;
  isMorse : string → bool;
  reg : regdb;
  radioSupportsMeshBackhaul : string → bool;
  protovalidate : MeshNodeProfile → bool   (* the interceptor *)
}.

Definition is_alnum (c : ascii) : bool :=
  let n := nat_of_ascii c in
  ((48 <=? n) && (n <=? 57) || (65 <=? n) && (n <=? 90) || (97 <=? n) && (n <=? 122))%nat.

(** [^[a-zA-Z0-9]([a-zA-Z0-9-]*[a-zA-Z0-9])?$]. *)
Definition hostnameRFC1123 (s : string) : bool :=
  match String.list_ascii_of_string s with
  | [] => false
  | c :: rest =>
      is_alnum c
      && match rest with
         | [] => true
         | _ => forallb (λ d, is_alnum d || bool_decide (d = "-"%char)) rest
                && is_alnum (List.last rest c)
         end
  end.

Definition validatePassphrase (enc : WifiEncryption) (pass : string) : option profile_error :=
  match enc with
  | ENC_NONE | OWE => None
  | _ => if bool_decide (str_len pass < 8)%Z || bool_decide (63 < str_len pass)%Z
         then Some BadPassphrase else None
  end.

(** Sequencing of checks: the first error is returned. *)
Definition or_else (a b : option profile_error) : option profile_error :=
  match a with Some e => Some e | None => b end.
Definition reject (b : bool) (e : profile_error) : option profile_error := if b then Some e else None.
Notation "a ;; b" := (or_else a b) (at level 100, b at level 200, right associativity) : js_scope.

Definition validateMeshChannelBandwidth (bandwidth ch : Z) : option profile_error :=
  reject (bool_decide (ch = 0%Z)) MeshChannelRequired ;;
  reject (negb (bool_decide (bandwidth ∈ [1; 2; 4; 8; 20; 40; 80; 160]%Z))) MeshBandwidth.

Definition validateMeshCountry (srv : server) (m : MeshRadioConfig) : option profile_error :=
  match reg srv with
  | NotInstalled => None
  | LoadFailed => Some RegdbBroken
  | Loaded legal =>
      reject (bool_decide (mr_countryCode m = "")) CountryRequired ;;
      reject (negb (legal (mr_countryCode m) (mr_bandwidthMhz m) (mr_channel m))) IllegalChannel
  end.

Fixpoint validateAPs (seen : list string) (l : list RadioApProfile) (meshRadio : string)
    (morse : string → bool) : option profile_error :=
  match l with
  | [] => None
  | ap :: rest =>
      let name := ra_radioName ap in
      reject (bool_decide (name = "")) ApRadioRequired ;;
      reject (bool_decide (name = meshRadio)) ApOnMeshRadio ;;
      reject (morse name) ApOnHalow ;;
      reject (bool_decide (name ∈ seen)) ApTwice ;;
      (if ra_enabled ap then validatePassphrase (ra_encryption ap) (ra_passphrase ap) else None) ;;
      validateAPs (name :: seen) rest meshRadio morse
  end.

Fixpoint sta_clash (name : string) (l : list RadioApProfile) : option profile_error :=
  match l with
  | [] => None
  | ap :: rest =>
      if decide (ra_radioName ap = name) then
        reject (ra_enabled ap) StaIsAp ;;
        reject (bool_decide (ra_meshBackhaul ap ≠ None)) StaIsBackhaul ;;
        sta_clash name rest
      else sta_clash name rest
  end.

Definition validateUplink (u : option Uplink) (meshRadio : string) (l : list RadioApProfile)
    (morse : string → bool) : option profile_error :=
  match u with
  | None => None
  | Some u =>
      if decide (pu_type u = WIRELESS_STA) then
        match pu_wireless u with
        | None => Some StaRadioRequired
        | Some w =>
            reject (bool_decide (w_radioName w = "")) StaRadioRequired ;;
            reject (bool_decide (w_radioName w = meshRadio)) StaOnMeshRadio ;;
            reject (morse (w_radioName w)) StaOnHalow ;;
            sta_clash (w_radioName w) l ;;
            validatePassphrase (w_encryption w) (w_passphrase w)
        end
      else None
  end.

(** [GetMeshpointMode], [GetMeshgateMode]: unspecified when the oneof holds the other. *)
Definition getMeshpointMode (p : MeshNodeProfile) : MeshPointMode :=
  match p_deviceMode p with MeshpointMode v => v | _ => MP_UNSPECIFIED end.
Definition getMeshgateMode (p : MeshNodeProfile) : MeshGateMode :=
  match p_deviceMode p with MeshgateMode v => v | _ => MG_UNSPECIFIED end.

Definition validateRole (p : MeshNodeProfile) : option profile_error :=
  match p_role p with
  | ROLE_UNSPECIFIED => Some RoleRequired
  | MESH_GATE =>
      reject (bool_decide (getMeshgateMode p = MG_UNSPECIFIED)) MeshgateModeRequired ;;
      reject (bool_decide (getMeshpointMode p ≠ MP_UNSPECIFIED)) MeshpointModeSet ;;
      match p_uplink p with
      | None => Some UplinkRequired
      | Some u => reject (bool_decide (pu_type u = UP_UNSPECIFIED)) UplinkRequired
      end
  | MESH_POINT =>
      reject (bool_decide (getMeshpointMode p = MP_UNSPECIFIED)) MeshpointModeRequired ;;
      reject (bool_decide (getMeshpointMode p = MP_NONE)) MeshpointNoneUnsupported ;;
      reject (bool_decide (getMeshgateMode p ≠ MG_UNSPECIFIED)) MeshgateModeSet
  end.

Definition validateProfile (srv : server) (p : MeshNodeProfile) : option profile_error :=
  let m := p_mesh p in
  reject (negb (hostnameRFC1123 (p_hostname p))) BadHostname ;;
  reject (bool_decide (p_timezone p ≠ "") && negb (tz_known srv (p_timezone p))) UnknownTimezone ;;
  validateRole p ;;
  reject (bool_decide (mr_radioName m = "")) MeshRadioRequired ;;
  reject (negb (isMorse srv (mr_radioName m))) MeshRadioNotHalow ;;
  validateMeshChannelBandwidth (mr_bandwidthMhz m) (mr_channel m) ;;
  validateMeshCountry srv m ;;
  validateAPs [] (p_aps p) (mr_radioName m) (isMorse srv) ;;
  validateUplink (p_uplink p) (mr_radioName m) (p_aps p) (isMorse srv) ;;
  validatePassphrase (mr_encryption m) (mr_passphrase m) ;;
  reject (bool_decide (str_len (p_adminPassword p) < 8)%Z) AdminPasswordShort.

Definition validateBackhaulRadioTuning (bh : MeshBackhaulProfile) : option profile_error :=
  reject (negb (Bool.eqb (bool_decide (mb_channel bh = 0%Z)) (bool_decide (mb_bandwidthMhz bh = 0%Z))))
    TuningNotTogether ;;
  if decide (mb_channel bh = 0%Z) then None
  else
    reject (negb (bool_decide (mb_bandwidthMhz bh ∈ [0; 40; 20]%Z))) BackhaulWidth ;;
    reject (negb (bool_decide (mb_channel bh ∈ [1; 2; 3; 4; 5; 6; 7; 8; 9; 10; 11]%Z))) BackhaulChannel.

(** The loop of [validateMeshBackhaul]: the backhaul found so far, or the error. *)
Fixpoint find_backhaul (found : option (string * MeshBackhaulProfile)) (l : list RadioApProfile) :
    option (string * MeshBackhaulProfile) + profile_error :=
  match l with
  | [] => inl found
  | ap :: rest =>
      match ra_meshBackhaul ap with
      | None => find_backhaul found rest
      | Some b =>
          if ra_enabled ap then inr ApAndBackhaul
          else match found with
               | Some _ => inr TwoBackhauls
               | None => find_backhaul (Some (ra_radioName ap, b)) rest
               end
      end
  end.

Definition validateMeshBackhaul (srv : server) (p : MeshNodeProfile) : option profile_error :=
  match find_backhaul None (p_aps p) with
  | inr e => Some e
  | inl None => None
  | inl (Some (radio, b)) =>
      reject (negb (radioSupportsMeshBackhaul srv radio)) BackhaulUnsupported ;;
      validateBackhaulRadioTuning b
  end.

(** [runValidate]. *)
Definition runValidate (srv : server) (p : MeshNodeProfile) : option profile_error :=
  validateProfile srv p ;; validateMeshBackhaul srv p.

(** *** The rules of the schema

    [setup_pb.js] carries, with each field, the rule the interceptor enforces;
    [profile_rules] is their conjunction.  The rules of a message that is not
    sent do not apply. *)
Definition len_between (lo hi : Z) (s : string) : bool := bool_decide (lo <= str_len s <= hi)%Z.

(** [^[\x20-\x7e]*$]. *)
Definition printable (s : string) : bool :=
  forallb (λ c, (32 <=? nat_of_ascii c) && (nat_of_ascii c <=? 126))%nat (String.list_ascii_of_string s).

(** [^([A-Z]{2,3})?$]. *)
Definition country_rule (s : string) : bool :=
  let l := String.list_ascii_of_string s in
  bool_decide (l = [])
  || ((2 <=? length l) && (length l <=? 3))%nat
     && forallb (λ c, (65 <=? nat_of_ascii c) && (nat_of_ascii c <=? 90))%nat l.

Definition mesh_rules (m : MeshRadioConfig) : bool :=
  bool_decide (mr_radioName m ≠ "") && len_between 1 32 (mr_meshId m) && len_between 0 63 (mr_passphrase m)
  && bool_decide (mr_encryption m = SAE)
  && bool_decide (mr_bandwidthMhz m ∈ [1; 2; 4; 8; 20; 40; 80; 160]%Z)
  && bool_decide (0 < mr_channel m)%Z && country_rule (mr_countryCode m).

Definition backhaul_rules (b : MeshBackhaulProfile) : bool :=
  len_between 1 32 (mb_meshId b) && len_between 8 63 (mb_passphrase b)
  && bool_decide (mb_bandwidthMhz b ∈ [0; 20; 40]%Z) && bool_decide (mb_channel b <= 11)%Z
  && country_rule (mb_countryCode b).

Definition ap_rules (a : RadioApProfile) : bool :=
  bool_decide (ra_radioName a ≠ "") && len_between 0 32 (ra_ssid a) && printable (ra_ssid a)
  && len_between 0 63 (ra_passphrase a) && bool_decide (ra_encryption a ≠ ENC_UNSPECIFIED)
  && match ra_meshBackhaul a with Some b => backhaul_rules b | None => true end.

Definition sta_rules (w : wireless_slice) : bool :=
  bool_decide (w_radioName w ≠ "") && len_between 1 32 (w_ssid w) && printable (w_ssid w)
  && len_between 0 63 (w_passphrase w) && bool_decide (w_encryption w ≠ ENC_UNSPECIFIED).

Definition uplink_rules (u : Uplink) : bool :=
  bool_decide (pu_type u ≠ UP_UNSPECIFIED) && len_between 0 32 (pu_ethernetPort u)
  && match pu_wireless u with Some w => sta_rules w | None => true end.

Definition profile_rules (p : MeshNodeProfile) : bool :=
  len_between 1 63 (p_hostname p) && hostnameRFC1123 (p_hostname p)
  && bool_decide (8 <= str_len (p_adminPassword p))%Z
  && bool_decide (p_role p ≠ ROLE_UNSPECIFIED) && len_between 0 64 (p_timezone p)
  && mesh_rules (p_mesh p)
  && match p_uplink p with Some u => uplink_rules u | None => true end
  && forallb ap_rules (p_aps p).

(** The interceptor enforces the schema. *)
Definition follows_rules (srv : server) : Prop := ∀ p, protovalidate srv p = profile_rules p.

(** A request on its way to the handler's work: the interceptor, then [runValidate]. *)
Inductive refusal := BreaksRules | ProfileRefused (e : profile_error).

Definition ApplySetup_refusal (srv : server) (p : MeshNodeProfile) : option refusal :=
  if protovalidate srv p then ProfileRefused <$> runValidate srv p else Some BreaksRules.

(** What is left for the server to refuse once nothing blocks Apply: by the
    handler's validation, and by the rules of the schema. *)
Definition pass_ok (enc : WifiEncryption) (pass : string) : Prop :=
  enc ≠ ENC_NONE → enc ≠ OWE → (8 <= str_len pass <= 63)%Z.

Definition active (a : ap_profile) : bool := ap_enabled a || ap_meshBackhaul a.

Definition mesh_remaining (srv : server) (m : mesh_slice) : Prop :=
  isMorse srv (m_radioName m) = true
  ∧ m_channel m ≠ 0%Z ∧ m_bandwidthMhz m ∈ known_widths
  ∧ match reg srv with
    | NotInstalled => True
    | LoadFailed => False
    | Loaded legal => legal (m_countryCode m) (m_bandwidthMhz m) (m_channel m) = true
    end
  ∧ pass_ok (m_encryption m) (m_passphrase m).

Definition ap_remaining (srv : server) (meshRadio : string) (a : ap_profile) : Prop :=
  ap_radioName a ≠ "" ∧ ap_radioName a ≠ meshRadio ∧ isMorse srv (ap_radioName a) = false
  ∧ (ap_enabled a = true → pass_ok (ap_encryption a) (ap_passphrase a))
  ∧ (ap_meshBackhaul a = true →
       radioSupportsMeshBackhaul srv (ap_radioName a) = true
       ∧ (ap_backhaulChannel a ≠ 0%Z →
            ap_backhaulBandwidthMhz a ∈ BACKHAUL_BANDWIDTHS
            ∧ ap_backhaulChannel a ∈ BACKHAUL_CHANNELS_2G)).

Definition uplink_remaining (srv : server) (s : setup_state) : Prop :=
  u_type (uplink s) ≠ UP_UNSPECIFIED
  ∧ (u_type (uplink s) = WIRELESS_STA →
       let w := u_wireless (uplink s) in
       w_radioName w ≠ "" ∧ w_radioName w ≠ m_radioName (mesh s)
       ∧ isMorse srv (w_radioName w) = false
       ∧ (∀ a, a ∈ aps s → active a = true → ap_radioName a ≠ w_radioName w)
       ∧ pass_ok (w_encryption w) (w_passphrase w)).

Definition profile_remaining (srv : server) (s : setup_state) : Prop :=
  hostnameRFC1123 (hostname s) = true
  ∧ (timezone s ≠ "" → tz_known srv (timezone s) = true)
  ∧ mesh_remaining srv (mesh s)
  ∧ (∀ a, a ∈ aps s → active a = true → ap_remaining srv (m_radioName (mesh s)) a)
  ∧ (role s = MESH_GATE → uplink_remaining srv s).

Definition rules_remaining (s : setup_state) : Prop :=
  let m := mesh s in let u := uplink s in let w := u_wireless u in
  (str_len (hostname s) <= 63)%Z ∧ (str_len (timezone s) <= 64)%Z
  ∧ ((str_len (m_meshId m) <= 32)%Z ∧ m_encryption m = SAE ∧ (str_len (m_passphrase m) <= 63)%Z
     ∧ (0 < m_channel m)%Z ∧ country_rule (m_countryCode m) = true)
  ∧ (∀ a, a ∈ aps s → ap_enabled a = true →
       (str_len (ap_ssid a) <= 32)%Z ∧ printable (ap_ssid a) = true
       ∧ (str_len (ap_passphrase a) <= 63)%Z ∧ ap_encryption a ≠ ENC_UNSPECIFIED)
  ∧ (∀ a, a ∈ aps s → ap_meshBackhaul a = true →
       (str_len (ap_backhaulPassphrase a) <= 63)%Z ∧ country_rule (ap_backhaulCountryCode a) = true)
  ∧ (role s = MESH_GATE →
       (str_len (u_ethernetPort u) <= 32)%Z
       ∧ (u_type u = WIRELESS_STA →
            (1 <= str_len (w_ssid w) <= 32)%Z ∧ printable (w_ssid w) = true
            ∧ (str_len (w_passphrase w) <= 63)%Z ∧ w_encryption w ≠ ENC_UNSPECIFIED)).

Definition remaining (srv : server) (s : setup_state) : Prop :=
  profile_remaining srv s ∧ rules_remaining s.

(** ** Lemmas *)

Lemma or_else_None a b : (a ;; b) = None ↔ a = None ∧ b = None.
Proof. destruct a; simpl; naive_solver. Qed.

Lemma reject_None b e : reject b e = None ↔ b = false.
Proof. by destruct b. Qed.

Lemma push_if_nil b msg : push_if b msg = [] ↔ b = false.
Proof. by destruct b. Qed.

Lemma neg_decide_false (P : Prop) `{Decision P} : negb (bool_decide P) = false ↔ P.
Proof. case_bool_decide; naive_solver. Qed.

Lemma decide_not_false (P : Prop) `{Decision P} : bool_decide (¬ P) = false ↔ P.
Proof. rewrite bool_decide_eq_false. split; [apply dec_stable|tauto]. Qed.

Lemma concat_map_nil {A B} (f : A → list B) l : concat (map f l) = [] ↔ ∀ x, x ∈ l → f x = [].
Proof.
  induction l as [|x l IH]; simpl.
  - split; [|done]. by intros _ x ?%elem_of_nil.
  - rewrite app_nil, IH. split.
    + intros [H1 H2] y [->|Hy]%elem_of_cons; auto.
    + intros H. split; [apply H; by left|]. intros y Hy. apply H. by right.
Qed.

Lemma validatePassphrase_None enc pass : validatePassphrase enc pass = None ↔ pass_ok enc pass.
Proof.
  assert (∀ a, reject (bool_decide (str_len pass < 8)%Z || bool_decide (63 < str_len pass)%Z) a = None
    ↔ (8 <= str_len pass <= 63)%Z) as Hr.
  { intros a. rewrite reject_None, orb_false_iff, !bool_decide_eq_false. lia. }
  unfold validatePassphrase, pass_ok.
  destruct enc; fold (reject (bool_decide (str_len pass < 8)%Z || bool_decide (63 < str_len pass)%Z) BadPassphrase);
    rewrite ?Hr; naive_solver.
Qed.

Lemma validateAPs_None seen l mr morse :
  validateAPs seen l mr morse = None ↔
  NoDup (map ra_radioName l)
  ∧ ∀ ap, ap ∈ l → ra_radioName ap ∉ seen ∧ ra_radioName ap ≠ "" ∧ ra_radioName ap ≠ mr
      ∧ morse (ra_radioName ap) = false
      ∧ (ra_enabled ap = true → pass_ok (ra_encryption ap) (ra_passphrase ap)).
Proof.
  revert seen. induction l as [|ap l IH]; intros seen.
  { split; [|done]. split; [constructor|]. by intros ap ?%elem_of_nil. }
  cbn [validateAPs map]. rewrite !or_else_None, !reject_None, !bool_decide_eq_false, IH.
  assert ((if ra_enabled ap then validatePassphrase (ra_encryption ap) (ra_passphrase ap) else None) = None
    ↔ (ra_enabled ap = true → pass_ok (ra_encryption ap) (ra_passphrase ap))) as ->.
  { destruct (ra_enabled ap); [rewrite validatePassphrase_None; tauto|done]. }
  split.
  - intros (H1 & H2 & H3 & H4 & H5 & H6 & H7). split.
    + constructor; [|done]. intros (b & Hb & Hin)%list_elem_of_fmap.
      destruct (H7 b Hin) as [Hs _]. apply Hs. rewrite <- Hb. by left.
    + intros b [->|Hb]%elem_of_cons; [done|]. destruct (H7 b Hb) as [Hs Hrest]. split; [|done].
      intros Hin. apply Hs. by right.
  - intros [[Hn Hd]%NoDup_cons H]. destruct (H ap) as (H1 & H2 & H3 & H4 & H5); [by left|].
    split_and?; try done. intros b Hb. destruct (H b) as (G1 & G2); [by right|]. split; [|done].
    intros [He|Hin]%elem_of_cons; [|done]. apply Hn. rewrite <- He. by apply list_elem_of_fmap_2.
Qed.

Lemma sta_clash_None name l :
  sta_clash name l = None ↔
  ∀ ap, ap ∈ l → ra_radioName ap = name → ra_enabled ap = false ∧ ra_meshBackhaul ap = None.
Proof.
  induction l as [|ap l IH]; simpl.
  { split; [|done]. by intros _ ap ?%elem_of_nil. }
  setoid_rewrite elem_of_cons. case_decide as Hn.
  - rewrite !or_else_None, !reject_None, decide_not_false, IH. naive_solver.
  - rewrite IH. naive_solver.
Qed.

(** The profiles sent, on entries that are not access point and backhaul at once. *)
Lemma find_backhaul_protos found l :
  Forall (λ a, ap_enabled a && ap_meshBackhaul a = false) l →
  (∀ a, a ∈ l → ap_meshBackhaul a = true → found = None) →
  NoDup (map ap_radioName l) → one_backhaul l →
  find_backhaul found (map ap_to_proto l) =
  inl match List.find ap_meshBackhaul l with
      | Some a => Some (ap_radioName a, default {| mb_meshId := ""; mb_passphrase := "";
          mb_bandwidthMhz := 0; mb_channel := 0; mb_countryCode := "" |} (ra_meshBackhaul (ap_to_proto a)))
      | None => found
      end.
Proof.
  revert found. induction l as [|a l IH]; intros found H1 H2 H3 H4; [done|].
  apply Forall_cons in H1 as [Ha H1]. simpl in H3. apply NoDup_cons in H3 as [Hn H3].
  assert (one_backhaul l) as H4' by (intros x y Hx Hy; apply H4; by right).
  simpl. destruct (ap_meshBackhaul a) eqn:Hb; simpl.
  - rewrite andb_true_r in Ha. rewrite Ha, (H2 a); [|by left|done].
    assert (∀ b, b ∈ l → ap_meshBackhaul b = true → False) as Hno.
    { intros b Hbl Hbb. apply Hn. rewrite (H4 a b); [by apply list_elem_of_fmap_2|by left|by right|done|done]. }
    rewrite IH; [|done|intros b Hbl Hbb; by destruct (Hno b)|done|done].
    destruct (List.find ap_meshBackhaul l) as [b|] eqn:Hf; [|simpl; by rewrite Hb].
    apply List.find_some in Hf as [Hin Hbb]. destruct (Hno b); [by apply list_elem_of_In|done].
  - apply IH; [done| |done|done]. intros b Hbl. apply H2. by right.
Qed.

Lemma active_filter_ok s : aps_ok (aps s) → aps_ok (filter (λ a, active a) (aps s)).
Proof. apply aps_ok_filter. Qed.

Lemma validateMeshBackhaul_None srv s :
  aps_ok (aps s) →
  (∀ a, a ∈ aps s → tuning_blockers a = []) →
  validateMeshBackhaul srv (profileToProto s) = None ↔
  ∀ a, a ∈ aps s → ap_meshBackhaul a = true →
    radioSupportsMeshBackhaul srv (ap_radioName a) = true
    ∧ (ap_backhaulChannel a ≠ 0%Z →
         ap_backhaulBandwidthMhz a ∈ BACKHAUL_BANDWIDTHS ∧ ap_backhaulChannel a ∈ BACKHAUL_CHANNELS_2G).
Proof.
  intros Hok Ht. unfold validateMeshBackhaul. simpl.
  destruct (active_filter_ok s Hok) as (H1 & H2 & H3).
  assert (∀ a, a ∈ aps s → ap_meshBackhaul a = true →
    a ∈ filter (λ a, ap_enabled a || ap_meshBackhaul a) (aps s)) as Hact.
  { intros a Ha Hb. apply list_elem_of_filter. rewrite Hb, orb_true_r. done. }
  rewrite find_backhaul_protos; [|exact H3|done|exact H1|exact H2].
  destruct (List.find ap_meshBackhaul _) as [a|] eqn:Hf.
  - apply List.find_some in Hf as [Hin Hb]. apply list_elem_of_In in Hin.
    assert (a ∈ aps s) as Ha by (by apply list_elem_of_filter in Hin as [_ ?]).
    unfold ap_to_proto. cbn [ra_meshBackhaul]. rewrite Hb. cbn [default from_option id].
    unfold validateBackhaulRadioTuning. cbn [mb_channel mb_bandwidthMhz].
    specialize (Ht a Ha) as Ht'. unfold tuning_blockers in Ht'. rewrite Hb in Ht'. simpl in Ht'.
    apply push_if_nil in Ht'. rewrite Ht'. rewrite or_else_None, reject_None, negb_false_iff.
    assert ((∀ a0, a0 ∈ aps s → ap_meshBackhaul a0 = true →
       radioSupportsMeshBackhaul srv (ap_radioName a0) = true ∧
       (ap_backhaulChannel a0 ≠ 0%Z → ap_backhaulBandwidthMhz a0 ∈ BACKHAUL_BANDWIDTHS
          ∧ ap_backhaulChannel a0 ∈ BACKHAUL_CHANNELS_2G))
      ↔ (radioSupportsMeshBackhaul srv (ap_radioName a) = true ∧
       (ap_backhaulChannel a ≠ 0%Z → ap_backhaulBandwidthMhz a ∈ BACKHAUL_BANDWIDTHS
          ∧ ap_backhaulChannel a ∈ BACKHAUL_CHANNELS_2G))) as ->.
    { split; [intros H; by apply H|]. intros H b Hbl Hbb. replace b with a; [done|].
      destruct Hok as (Hn & Hone & _). pose proof (Hone a b Ha Hbl Hb Hbb) as Hname.
      apply list_elem_of_lookup_1 in Ha as [i Hi]. apply list_elem_of_lookup_1 in Hbl as [j Hj].
      assert (i = j) as ->; [|congruence].
      eapply NoDup_lookup; [exact Hn| |]; rewrite list_lookup_fmap, ?Hi, ?Hj; simpl; [done|by rewrite Hname]. }
    apply negb_false_iff, eqb_prop in Ht'.
    simpl. destruct (decide (ap_backhaulChannel a = 0%Z)) as [Hz|Hz]; [naive_solver|].
    rewrite (bool_decide_eq_false_2 _ Hz) in Ht'. symmetry in Ht'. apply bool_decide_eq_false in Ht'.
    rewrite or_else_None, !reject_None, !neg_decide_false. unfold BACKHAUL_BANDWIDTHS, BACKHAUL_CHANNELS_2G.
    assert (ap_backhaulBandwidthMhz a ∈ [0; 40; 20]%Z ↔ ap_backhaulBandwidthMhz a ∈ [20; 40]%Z) as ->.
    { rewrite !elem_of_cons, elem_of_nil. naive_solver. }
    naive_solver.
  - split; [|done]. intros _ a Ha Hb. pose proof (List.find_none _ _ Hf a) as Hn.
    rewrite Hn in Hb; [done|]. by apply list_elem_of_In, Hact.
Qed.

Lemma applyBlockers_nil s status :
  applyBlockers s status = [] ↔
  hostname s ≠ "" ∧ m_radioName (mesh s) ≠ "" ∧ m_meshId (mesh s) ≠ "" ∧ m_countryCode (mesh s) ≠ ""
  ∧ (8 <= str_len (adminPassword s))%Z ∧ adminPassword s = adminPasswordConfirm s
  ∧ (∀ a, a ∈ aps s → backhaul_blockers a = [] ∧ tuning_blockers a = [])
  ∧ meshJoinIssues s status = [].
Proof.
  unfold applyBlockers. rewrite !app_nil, !push_if_nil, !bool_decide_eq_false, !concat_map_nil.
  assert (∀ (f : string → string) l, map f l = [] ↔ l = []) as Hm by (intros f l; by destruct l).
  rewrite Hm.
  destruct (bool_decide (adminPassword s = "") || bool_decide (str_len (adminPassword s) < 8)%Z) eqn:Hp.
  - split; [naive_solver|]. intros (_ & _ & _ & _ & Hl & _). apply orb_true_iff in Hp as [Hp|Hp]; bool_simpl; [|lia].
    rewrite Hp in Hl. unfold str_len in Hl. simpl in Hl. lia.
  - bool_simpl. rewrite push_if_nil, decide_not_false.
    assert (8 <= str_len (adminPassword s))%Z as Hlen by lia.
    assert ((∀ a, a ∈ aps s → backhaul_blockers a = [] ∧ tuning_blockers a = [])
      ↔ (∀ a, a ∈ aps s → backhaul_blockers a = []) ∧ (∀ a, a ∈ aps s → tuning_blockers a = [])) as ->
      by (split; [intros Ha; split; intros; by apply Ha|naive_solver]).
    tauto.
Qed.

Lemma validateRole_None s :
  modes_fit s →
  validateRole (profileToProto s) = None ↔ (role s = MESH_GATE → u_type (uplink s) ≠ UP_UNSPECIFIED).
Proof.
  unfold modes_fit, validateRole, getMeshpointMode, getMeshgateMode, profileToProto.
  cbn [p_role p_deviceMode p_uplink]. destruct (role s); [done|..]; intros [H1 H2].
  - rewrite H1. split; [done|]. intros _. done.
  - rewrite !or_else_None, !reject_None, !bool_decide_eq_false. cbn [pu_type]. naive_solver.
Qed.

Lemma validateUplink_None srv s :
  validateUplink (p_uplink (profileToProto s)) (m_radioName (mesh s)) (p_aps (profileToProto s)) (isMorse srv) = None ↔
  (role s = MESH_GATE → u_type (uplink s) = WIRELESS_STA →
       let w := u_wireless (uplink s) in
       w_radioName w ≠ "" ∧ w_radioName w ≠ m_radioName (mesh s)
       ∧ isMorse srv (w_radioName w) = false
       ∧ (∀ a, a ∈ aps s → active a = true → ap_radioName a ≠ w_radioName w)
       ∧ pass_ok (w_encryption w) (w_passphrase w)).
Proof.
  unfold validateUplink, profileToProto. cbn [p_uplink p_aps].
  destruct (role s); [done|done|]. cbn [pu_type pu_wireless].
  destruct (decide (u_type (uplink s) = WIRELESS_STA)) as [Hu|Hu]; [|naive_solver].
  rewrite !or_else_None, !reject_None, !bool_decide_eq_false, validatePassphrase_None, sta_clash_None.
  assert ((∀ ap, ap ∈ map ap_to_proto (filter (λ a, ap_enabled a || ap_meshBackhaul a) (aps s)) →
      ra_radioName ap = w_radioName (u_wireless (uplink s)) → ra_enabled ap = false ∧ ra_meshBackhaul ap = None)
    ↔ (∀ a, a ∈ aps s → active a = true → ap_radioName a ≠ w_radioName (u_wireless (uplink s)))) as ->.
  { split.
    - intros H a Ha Hact Hn. destruct (H (ap_to_proto a)) as [H1 H2]; [|done|].
      + apply list_elem_of_fmap_2, list_elem_of_filter. unfold active in Hact. by rewrite Hact.
      + simpl in H1, H2. unfold active in Hact. rewrite H1 in Hact. simpl in Hact. by rewrite Hact in H2.
    - intros H ? (a & -> & [Hact Ha]%list_elem_of_filter)%list_elem_of_fmap Hn.
      destruct (H a Ha); [|done]. by apply Is_true_true in Hact. }
  cbv zeta. tauto.
Qed.

Lemma validateAPs_profile srv s :
  aps_ok (aps s) →
  validateAPs [] (p_aps (profileToProto s)) (m_radioName (mesh s)) (isMorse srv) = None ↔
  ∀ a, a ∈ aps s → active a = true →
    ap_radioName a ≠ "" ∧ ap_radioName a ≠ m_radioName (mesh s) ∧ isMorse srv (ap_radioName a) = false
    ∧ (ap_enabled a = true → pass_ok (ap_encryption a) (ap_passphrase a)).
Proof.
  intros Hok. rewrite validateAPs_None. cbn [p_aps profileToProto].
  destruct (active_filter_ok s Hok) as [Hn _].
  split.
  - intros [_ H] a Ha Hact. destruct (H (ap_to_proto a)) as (_ & H1 & H2 & H3 & H4).
    { apply list_elem_of_fmap_2, list_elem_of_filter. unfold active in Hact. by rewrite Hact. }
    simpl in *. split_and?; try done. intros He. specialize (H4 He). by rewrite He in H4.
  - intros H. split; [by rewrite map_map|].
    intros ? (a & -> & [Hact%Is_true_true Ha]%list_elem_of_filter)%list_elem_of_fmap.
    destruct (H a Ha Hact) as (H1 & H2 & H3 & H4). split_and?; simpl; try done; [by apply not_elem_of_nil|].
    intros He. rewrite He. by apply H4.
Qed.

Lemma validateMeshCountry_None srv s :
  m_countryCode (mesh s) ≠ "" →
  validateMeshCountry srv (p_mesh (profileToProto s)) = None ↔
  match reg srv with
  | NotInstalled => True
  | LoadFailed => False
  | Loaded legal => legal (m_countryCode (mesh s)) (m_bandwidthMhz (mesh s)) (m_channel (mesh s)) = true
  end.
Proof.
  intros Hc. unfold validateMeshCountry. destruct (reg srv) as [| |legal]; [done|done|].
  cbn [p_mesh profileToProto mr_countryCode mr_bandwidthMhz mr_channel].
  rewrite or_else_None, !reject_None, bool_decide_eq_false, negb_false_iff. tauto.
Qed.

(** The regulatory data the status reports is the server's own. *)
Definition regdb_reported (legal : string → Z → Z → bool) (cs : list SetupCountry) : Prop :=
  Forall (λ c, c_bandwidths c ≠ [] ∧
    Forall (λ b, mhz b ∈ known_widths ∧ bw_channels b ≠ [] ∧
      Forall (λ ch, (0 < ch)%Z ∧ legal (code c) (mhz b) ch = true) (bw_channels b)) (c_bandwidths c)) cs.

Lemma reported_legal legal cs cc bw ch :
  regdb_reported legal cs → cc ≠ "" → cc ∈ map code cs →
  let entry := findCountryEntry cs cc in
  bw ∈ bandwidthsForCountry entry →
  (channelsForCountryBandwidth entry bw ≠ [] → ch ∈ channelsForCountryBandwidth entry bw) →
  (0 < ch)%Z ∧ bw ∈ known_widths ∧ legal cc bw ch = true.
Proof.
  intros Hreg Hne (c & -> & Hin)%list_elem_of_fmap. unfold findCountryEntry.
  rewrite decide_False by done.
  destruct (List.find _ cs) as [e|] eqn:Hf.
  2: { pose proof (List.find_none _ _ Hf c (proj1 (list_elem_of_In _ _) Hin)) as Hn. simpl in Hn.
       by rewrite bool_decide_eq_true_2 in Hn. }
  apply List.find_some in Hf as [He%list_elem_of_In Hcode%bool_decide_eq_true].
  unfold regdb_reported in Hreg. rewrite Forall_forall in Hreg. destruct (Hreg e He) as [Hbs Hall].
  rewrite Forall_forall in Hall. intros Hbw Hch.
  assert (bw ∈ map mhz (c_bandwidths e)) as (b0 & -> & Hb0)%list_elem_of_fmap.
  { unfold bandwidthsForCountry in Hbw. destruct (c_bandwidths e) as [|b bs]; [done|].
    by rewrite merge_sort_Permutation in Hbw. }
  unfold channelsForCountryBandwidth in Hch. simpl in Hch.
  destruct (List.find _ (c_bandwidths e)) as [b|] eqn:Hf.
  2: { pose proof (List.find_none _ _ Hf b0 (proj1 (list_elem_of_In _ _) Hb0)) as Hn. simpl in Hn.
       by rewrite bool_decide_eq_true_2 in Hn. }
  apply List.find_some in Hf as [Hb%list_elem_of_In Hm%bool_decide_eq_true].
  destruct (Hall b Hb) as (Hk & Hnn & Hl). rewrite decide_False in Hch by done.
  rewrite Forall_forall in Hl. destruct (Hl ch (Hch Hnn)). rewrite <- Hcode, <- Hm. done.
Qed.

(** The mesh effects have nothing left to do. *)
Lemma mesh_actions_legal status s :
  m_fromScan (mesh s) = false → mesh_actions status s = [] →
  let entry := findCountryEntry ((s_countries <$> status) ?? []) (m_countryCode (mesh s)) in
  m_bandwidthMhz (mesh s) ∈ bandwidthsForCountry entry
  ∧ (channelsForCountryBandwidth entry (m_bandwidthMhz (mesh s)) ≠ [] →
     m_channel (mesh s) ∈ channelsForCountryBandwidth entry (m_bandwidthMhz (mesh s))).
Proof.
  intros Hs Hn entry. unfold mesh_actions in Hn. fold entry in Hn. rewrite Hs in Hn.
  apply app_nil in Hn as [_ [H1 H2]%app_nil]. split.
  - destruct (decide (m_bandwidthMhz (mesh s) ∈ bandwidthsForCountry entry)) as [|Hb]; [done|].
    rewrite (bool_decide_eq_false_2 _ Hb) in H1. pose proof (bandwidthsForCountry_not_nil entry).
    by destruct (bandwidthsForCountry entry).
  - intros Hc. destruct (decide (m_channel (mesh s) ∈ channelsForCountryBandwidth entry (m_bandwidthMhz (mesh s))))
      as [|Hb]; [done|]. rewrite (bool_decide_eq_false_2 _ Hb) in H2.
    by destruct (channelsForCountryBandwidth entry _).
Qed.

Lemma scanned_mesh_acceptable s status :
  m_fromScan (mesh s) = true → meshJoinIssues s status = [] →
  let cs := (s_countries <$> status) ?? [] in
  let entry := findCountryEntry cs (m_countryCode (mesh s)) in
  pass_ok (m_encryption (mesh s)) (m_passphrase (mesh s))
  ∧ (1 <= str_len (m_meshId (mesh s)) <= 32)%Z
  ∧ m_bandwidthMhz (mesh s) ∈ bandwidthsForCountry entry
  ∧ (channelsForCountryBandwidth entry (m_bandwidthMhz (mesh s)) ≠ [] →
     m_channel (mesh s) ∈ channelsForCountryBandwidth entry (m_bandwidthMhz (mesh s)))
  ∧ (m_countryCode (mesh s) ≠ "" → cs ≠ [] → m_countryCode (mesh s) ∈ map code cs).
Proof.
  intros Hs H cs entry. unfold meshJoinIssues in H. rewrite Hs in H. apply app_nil in H as [H _].
  apply fmap_nil_inv in H. unfold scanned_mesh_check in H. fold cs in H. fold entry in H.
  apply check_nil in H as (H1 & H2 & H3 & H4 & H5 & H6).
  cbn [encryption passphrase meshId bandwidthMhz channel countryCode channels countries] in *.
  split_and?; try done; try lia.
  - intros Ha Hb. by apply H2.
  - unfold widths_of in H4. cbn [bandwidths] in H4. pose proof (bandwidthsForCountry_not_nil entry) as Hne.
    by destruct (bandwidthsForCountry entry).
  - intros Hc. destruct (proj1 (list_elem_of_fmap _ _ _) (H5 (λ Hn, Hc (fmap_nil_inv _ _ Hn))))
      as (x & [= ->] & Hx). done.
  - intros Hc Hcs. apply H6; [done|]. intros Hm. by apply Hcs, (fmap_nil_inv code).
Qed.

(** *** The whole validation *)

Lemma runValidate_profile (srv : server) (s : setup_state) (status : option setup_status) :
  wizard_inv s → applyBlockers s status = [] →
  runValidate srv (profileToProto s) = None ↔ profile_remaining srv s.
Proof.
  intros [Hm Hok] (Hh & Hr & Hid & Hcc & Hpw & _ & Hbl & _)%applyBlockers_nil.
  unfold runValidate, validateProfile. rewrite !or_else_None, !reject_None.
  rewrite validateRole_None, validateAPs_profile, validateUplink_None, validateMeshBackhaul_None
    by (try done; intros a Ha; by apply Hbl).
  rewrite validateMeshCountry_None by done.
  cbn [p_mesh profileToProto mr_radioName mr_bandwidthMhz mr_channel mr_encryption mr_passphrase
       p_hostname p_timezone p_adminPassword].
  rewrite validatePassphrase_None, !negb_false_iff, !bool_decide_eq_false, andb_false_iff,
    negb_false_iff, decide_not_false.
  unfold validateMeshChannelBandwidth. rewrite or_else_None, !reject_None, bool_decide_eq_false, neg_decide_false.
  unfold profile_remaining, mesh_remaining, uplink_remaining, ap_remaining, known_widths. split.
  - intros ((H1 & H2 & H3 & _ & H4 & H5 & H6 & H7 & H8 & H9 & _) & H10).
    split_and?; try tauto. intros a Ha Hact. destruct (H7 a Ha Hact) as (G1 & G2 & G3 & G4).
    split_and?; try done. by apply H10.
  - intros (H1 & H2 & (H3 & H4 & H5 & H6 & H7) & H8 & H9). split_and?; try tauto.
    + destruct (decide (timezone s = "")); tauto.
    + intros a Ha Hact. by destruct (H8 a Ha Hact) as (G1 & G2 & G3 & G4 & _).
    + lia.
    + intros a Ha Hb. assert (active a = true) as Hact by (unfold active; by rewrite Hb, orb_true_r).
      destruct (H8 a Ha Hact) as (_ & _ & _ & _ & G). by apply G.
Qed.

(** *** The rules of the schema *)

Lemma len_between_true lo hi t : len_between lo hi t = true ↔ (lo <= str_len t <= hi)%Z.
Proof. unfold len_between. by rewrite bool_decide_eq_true. Qed.

Lemma str_len_pos t : (1 <= str_len t)%Z ↔ t ≠ "".
Proof. unfold str_len. destruct t; simpl; split; try done; lia. Qed.

Lemma str_len_nonneg t : (0 <= str_len t)%Z.
Proof. unfold str_len. lia. Qed.

Lemma mesh_rules_iff (m : mesh_slice) :
  m_radioName m ≠ "" → m_meshId m ≠ "" → m_bandwidthMhz m ∈ known_widths →
  mesh_rules {| mr_radioName := m_radioName m; mr_meshId := m_meshId m;
                mr_passphrase := m_passphrase m; mr_encryption := m_encryption m;
                mr_bandwidthMhz := m_bandwidthMhz m; mr_channel := m_channel m;
                mr_countryCode := m_countryCode m |} = true
  ↔ (str_len (m_meshId m) <= 32)%Z ∧ m_encryption m = SAE ∧ (str_len (m_passphrase m) <= 63)%Z
    ∧ (0 < m_channel m)%Z ∧ country_rule (m_countryCode m) = true.
Proof.
  intros H1 H2%str_len_pos H3. pose proof (str_len_nonneg (m_passphrase m)). unfold mesh_rules.
  cbn [mr_radioName mr_meshId mr_passphrase mr_encryption mr_bandwidthMhz mr_channel mr_countryCode].
  rewrite !andb_true_iff, !len_between_true, !bool_decide_eq_true. unfold known_widths in H3.
  intuition lia.
Qed.

Lemma backhaul_rules_iff (a : ap_profile) :
  ap_meshBackhaul a = true → backhaul_blockers a = [] → tuning_blockers a = [] →
  (ap_backhaulChannel a ≠ 0%Z →
     ap_backhaulBandwidthMhz a ∈ BACKHAUL_BANDWIDTHS ∧ ap_backhaulChannel a ∈ BACKHAUL_CHANNELS_2G) →
  match ra_meshBackhaul (ap_to_proto a) with Some b => backhaul_rules b | None => true end = true
  ↔ (str_len (ap_backhaulPassphrase a) <= 63)%Z ∧ country_rule (ap_backhaulCountryCode a) = true.
Proof.
  intros Hb Hbl Ht Htu. unfold ap_to_proto. cbn [ra_meshBackhaul]. rewrite Hb. unfold backhaul_rules.
  cbn [mb_meshId mb_passphrase mb_bandwidthMhz mb_channel mb_countryCode].
  unfold backhaul_blockers, tuning_blockers in *. rewrite Hb in *. cbn [negb] in *.
  rewrite !app_nil, !push_if_nil in Hbl. rewrite push_if_nil, negb_false_iff, eqb_true_iff in Ht.
  destruct Hbl as (H1 & H2 & H3). apply bool_decide_eq_false, str_len_pos in H1.
  apply orb_false_iff in H2 as [_ H2%bool_decide_eq_false].
  assert (str_len (ap_backhaulMeshId a) <= 32)%Z as H4.
  { apply andb_false_iff in H3 as [H3|H3]; apply bool_decide_eq_false in H3; [|lia].
    apply dec_stable in H3. by rewrite H3 in H1. }
  assert (ap_backhaulBandwidthMhz a ∈ [0; 20; 40]%Z ∧ (ap_backhaulChannel a <= 11)%Z) as [H5 H6].
  { destruct (decide (ap_backhaulChannel a = 0%Z)) as [Hc|Hc].
    - rewrite (bool_decide_eq_true_2 _ Hc) in Ht. symmetry in Ht. apply bool_decide_eq_true in Ht.
      rewrite Ht, Hc. split; [left|lia].
    - destruct (Htu Hc) as [G1 G2]. split; [by right|].
      unfold BACKHAUL_CHANNELS_2G in G2. rewrite !elem_of_cons, elem_of_nil in G2. lia. }
  rewrite !andb_true_iff, !len_between_true, !bool_decide_eq_true. intuition lia.
Qed.

Lemma ap_rules_iff (srv : server) meshRadio (a : ap_profile) :
  active a = true → ap_enabled a && ap_meshBackhaul a = false →
  backhaul_blockers a = [] → tuning_blockers a = [] → ap_remaining srv meshRadio a →
  ap_rules (ap_to_proto a) = true
  ↔ (ap_enabled a = true →
       (str_len (ap_ssid a) <= 32)%Z ∧ printable (ap_ssid a) = true
       ∧ (str_len (ap_passphrase a) <= 63)%Z ∧ ap_encryption a ≠ ENC_UNSPECIFIED)
    ∧ (ap_meshBackhaul a = true →
       (str_len (ap_backhaulPassphrase a) <= 63)%Z ∧ country_rule (ap_backhaulCountryCode a) = true).
Proof.
  intros Hact Hx Hbl Ht (Hn & _ & _ & _ & Hr). unfold ap_rules.
  pose proof (str_len_nonneg (ap_ssid a)). pose proof (str_len_nonneg (ap_passphrase a)).
  rewrite !andb_true_iff, !len_between_true, !bool_decide_eq_true.
  cbn [ra_radioName ra_ssid ra_passphrase ra_encryption ap_to_proto].
  destruct (ap_enabled a) eqn:He.
  - simpl in Hx. rewrite Hx. simpl. rewrite Hx. intuition (done || lia).
  - unfold active in Hact. rewrite He in Hact. simpl in Hact.
    rewrite (backhaul_rules_iff a Hact Hbl Ht) by (by apply Hr). rewrite Hact.
    assert (str_len "" = 0%Z) as -> by done. intuition (done || lia).
Qed.

Lemma uplink_rules_iff (s : setup_state) :
  u_type (uplink s) ≠ UP_UNSPECIFIED →
  (u_type (uplink s) = WIRELESS_STA → w_radioName (u_wireless (uplink s)) ≠ "") →
  uplink_rules {| pu_type := u_type (uplink s); pu_ethernetPort := u_ethernetPort (uplink s);
                  pu_wireless := if decide (u_type (uplink s) = WIRELESS_STA)
                                 then Some (u_wireless (uplink s)) else None |} = true
  ↔ let w := u_wireless (uplink s) in
    (str_len (u_ethernetPort (uplink s)) <= 32)%Z
    ∧ (u_type (uplink s) = WIRELESS_STA →
         (1 <= str_len (w_ssid w) <= 32)%Z ∧ printable (w_ssid w) = true
         ∧ (str_len (w_passphrase w) <= 63)%Z ∧ w_encryption w ≠ ENC_UNSPECIFIED).
Proof.
  intros Hu Hr. cbv zeta. unfold uplink_rules. cbn [pu_type pu_ethernetPort pu_wireless].
  pose proof (str_len_nonneg (u_ethernetPort (uplink s))).
  pose proof (str_len_nonneg (w_passphrase (u_wireless (uplink s)))).
  rewrite !andb_true_iff, len_between_true, !bool_decide_eq_true. case_decide as Ht.
  - unfold sta_rules. rewrite !andb_true_iff, !len_between_true, !bool_decide_eq_true.
    specialize (Hr Ht). intuition (done || lia).
  - intuition (done || lia).
Qed.

Lemma profile_rules_remaining (srv : server) (s : setup_state) (status : option setup_status) :
  wizard_inv s → applyBlockers s status = [] → profile_remaining srv s →
  profile_rules (profileToProto s) = true ↔ rules_remaining s.
Proof.
  intros [Hm Hok] (Hh & Hr & Hid & Hcc & Hpw & _ & Hbl & _)%applyBlockers_nil (R1 & _ & R3 & R4 & R5).
  unfold profile_rules, rules_remaining. apply str_len_pos in Hh.
  pose proof (str_len_nonneg (timezone s)).
  cbn [p_hostname p_adminPassword p_role p_timezone p_mesh p_uplink p_aps profileToProto].
  rewrite !andb_true_iff, !len_between_true, !bool_decide_eq_true.
  rewrite mesh_rules_iff by (try done; apply R3).
  assert (role s ≠ ROLE_UNSPECIFIED) as Hrole by (intros E; unfold modes_fit in Hm; by rewrite E in Hm).
  set (A := forallb ap_rules _). set (U := match role s with MESH_GATE => _ | _ => _ end).
  assert (A = true ↔
    (∀ a, a ∈ aps s → ap_enabled a = true →
       (str_len (ap_ssid a) <= 32)%Z ∧ printable (ap_ssid a) = true
       ∧ (str_len (ap_passphrase a) <= 63)%Z ∧ ap_encryption a ≠ ENC_UNSPECIFIED)
    ∧ (∀ a, a ∈ aps s → ap_meshBackhaul a = true →
       (str_len (ap_backhaulPassphrase a) <= 63)%Z ∧ country_rule (ap_backhaulCountryCode a) = true)) as HA.
  { assert (∀ a, a ∈ aps s → active a = true →
      ap_enabled a && ap_meshBackhaul a = false ∧ backhaul_blockers a = [] ∧ tuning_blockers a = []
      ∧ ap_remaining srv (m_radioName (mesh s)) a) as Hall.
    { intros a Ha Hact. destruct (Hbl a Ha). split_and?; try done; [|by apply R4].
      destruct Hok as (_ & _ & Hok). rewrite Forall_forall in Hok. by apply Hok. }
    subst A. rewrite forallb_forall. split.
    - intros H1. assert (∀ a, a ∈ aps s → active a = true → ap_rules (ap_to_proto a) = true) as H2.
      { intros a Ha Hact. apply H1, list_elem_of_In, list_elem_of_fmap_2, list_elem_of_filter.
        unfold active in Hact. by rewrite Hact. }
      split; intros a Ha Hx; (assert (active a = true) as Hact by
          (unfold active; rewrite Hx; by rewrite ?orb_true_r)); destruct (Hall a Ha Hact) as (G1 & G2 & G3 & G4);
        apply (ap_rules_iff srv _ a Hact G1 G2 G3 G4) in H2; try done; by apply H2.
    - intros [H1 H2] x (a & -> & [Hact%Is_true_true Ha]%list_elem_of_filter)%list_elem_of_In%list_elem_of_fmap.
      destruct (Hall a Ha Hact) as (G1 & G2 & G3 & G4).
      apply (ap_rules_iff srv _ a Hact G1 G2 G3 G4). split; intros Hx; [by apply H1|by apply H2]. }
  assert ((match U with Some u => uplink_rules u | None => true end) = true ↔
    (role s = MESH_GATE →
       (str_len (u_ethernetPort (uplink s)) <= 32)%Z
       ∧ (u_type (uplink s) = WIRELESS_STA →
            (1 <= str_len (w_ssid (u_wireless (uplink s))) <= 32)%Z ∧ printable (w_ssid (u_wireless (uplink s))) = true
            ∧ (str_len (w_passphrase (u_wireless (uplink s))) <= 63)%Z
            ∧ w_encryption (u_wireless (uplink s)) ≠ ENC_UNSPECIFIED))) as HU.
  { subst U. destruct (role s); [done|done|]. destruct (R5 eq_refl) as [G1 G2].
    rewrite uplink_rules_iff; [|done|intros Hs; by apply (G2 Hs)]. cbv zeta. tauto. }
  rewrite HA, HU. cbv zeta. intuition (done || lia).
Qed.

Lemma remaining_iff (srv : server) (s : setup_state) (status : option setup_status) :
  follows_rules srv → wizard_inv s → applyBlockers s status = [] →
  ApplySetup_refusal srv (profileToProto s) = None ↔ remaining srv s.
Proof.
  intros Hsrv Hinv Hbl. unfold ApplySetup_refusal, remaining.
  rewrite <- (runValidate_profile srv s status Hinv Hbl). rewrite Hsrv.
  assert (runValidate srv (profileToProto s) = None →
    profile_rules (profileToProto s) = true ↔ rules_remaining s) as H.
  { intros Hv. apply (profile_rules_remaining srv s status Hinv Hbl), (runValidate_profile srv s status); done. }
  destruct (runValidate srv (profileToProto s)) as [e|].
  { destruct (profile_rules (profileToProto s)); simpl; (split; [done|by intros [? _]]). }
  rewrite <- (H eq_refl). destruct (profile_rules (profileToProto s)); simpl; (split; [by split|by intros [_ ?]]).
Qed.

(** ** Properties *)

(** With nothing blocking Apply, the mesh the profile asks for is one the
    server's regulatory database allows, if the status reported that database:
    for a mesh filled from a scanned code by the check on scanned values, for one
    entered by hand by the effects of the mesh step once they have settled. *)
Theorem mesh_request_legal (srv : server) (s : setup_state) (status : option setup_status)
    (legal : string → Z → Z → bool) :
  let cs := (s_countries <$> status) ?? [] in
  reg srv = Loaded legal → regdb_reported legal cs → cs ≠ [] →
  applyBlockers s status = [] →
  (m_fromScan (mesh s) = false →
     mesh_actions status s = [] ∧ m_countryCode (mesh s) ∈ map code cs) →
  validateMeshCountry srv (p_mesh (profileToProto s)) = None
  ∧ validateMeshChannelBandwidth (m_bandwidthMhz (mesh s)) (m_channel (mesh s)) = None
  ∧ (m_fromScan (mesh s) = true → validatePassphrase (m_encryption (mesh s)) (m_passphrase (mesh s)) = None).
Proof.
  intros cs Hreg Hrep Hne (_ & _ & _ & Hcc & _ & _ & _ & Hi)%applyBlockers_nil Hman.
  rewrite validateMeshCountry_None by done. rewrite Hreg.
  unfold validateMeshChannelBandwidth.
  rewrite or_else_None, !reject_None, bool_decide_eq_false, neg_decide_false, validatePassphrase_None.
  destruct (m_fromScan (mesh s)) eqn:Hs.
  - destruct (scanned_mesh_acceptable s status Hs Hi) as (H1 & _ & H3 & H4 & H5).
    destruct (reported_legal legal cs _ _ _ Hrep Hcc (H5 Hcc Hne) H3 H4) as (G1 & G2 & G3). split_and?; try done; lia.
  - destruct (Hman eq_refl) as [Ha Hc]. destruct (mesh_actions_legal status s Hs Ha) as [H3 H4].
    destruct (reported_legal legal cs _ _ _ Hrep Hcc Hc H3 H4) as (G1 & G2 & G3). split_and?; try done; lia.
Qed.

(** C17: when the wizard's state is consistent and nothing blocks Apply, the server's
    checks, the rules of the schema that its interceptor enforces and then the
    handler's validation, let the profile through exactly when what the wizard
    leaves unchecked holds: the host name is a label of at most 63 characters and
    the zone known and no longer than 64, the mesh is WPA3 with legal tuning, a
    passphrase of 8 to 63 characters and a mesh ID of at most 32, each active
    radio is a non-HaLow radio with a printable SSID and a legal passphrase, the
    backhaul radio is capable, its tuning in range and its passphrase not too
    long, country codes are two or three capitals, and a gate's uplink is set and
    uses a radio of its own with a printable SSID that is not empty.  The rules on
    roles and modes, on one profile per radio, on one backhaul, on tuning set
    together, on the mesh radio and on the admin password can then never be what
    the server refuses. *)
Theorem apply_accepted (srv : server) (s : setup_state) (status : option setup_status) :
  follows_rules srv → wizard_inv s → applyBlockers s status = [] →
  ApplySetup_refusal srv (profileToProto s) = None ↔ remaining srv s.
Proof. apply remaining_iff. Qed.

Definition example_state : setup_state :=
  set_radio_mode "radio1" ModeAp
    (set_aps [merge_ap (apDefaults "radio1")
        {| up_radioName := "radio1"; up_enabled := None; up_ssid := Some "clients";
           up_passphrase := Some "client-pass"; up_encryption := None; up_meshBackhaul := None;
           up_backhaulMeshId := None; up_backhaulPassphrase := None; up_backhaulBandwidthMhz := None;
           up_backhaulChannel := None; up_backhaulCountryCode := None; up_backhaulFromScan := None |}]
      (set_mesh {| m_radioName := "radio0"; m_meshId := "openmanet"; m_passphrase := "mesh-pass-1";
                   m_encryption := SAE; m_bandwidthMhz := 2; m_channel := 42; m_countryCode := "US";
                   m_fromScan := false |}
        (set_texts "node-1" "admin-pass" "admin-pass" "" initialState))).

Definition example_server : server :=
  {| tz_known := λ _, false; isMorse := λ r, bool_decide (r = "radio0"); reg := NotInstalled;
     radioSupportsMeshBackhaul := λ _, false; protovalidate := profile_rules |}.

Theorem apply_accepted_witness :
  remaining example_server example_state
  ∧ ApplySetup_refusal example_server (profileToProto example_state) = None.
Proof.
  assert (remaining example_server example_state) as H; [|split; [exact H|]].
  - split; [|split_and!; try (vm_compute; done); intros a ->%list_elem_of_singleton Hx;
      [split_and!; vm_compute; done|done]].
    split; [reflexivity|]. split; [done|]. split.
    + split; [reflexivity|]. split; [done|]. split; [apply (bool_decide_unpack _); by vm_compute|].
      split; [exact I|]. intros _ _. vm_compute. split; discriminate.
    + split; [|done]. intros a ->%list_elem_of_singleton _. split; [done|]. split; [done|].
      split; [reflexivity|]. split; [|done]. intros _ _ _. vm_compute. split; discriminate.
  - apply (apply_accepted example_server example_state None); [done| |reflexivity|exact H].
    split; [done|]. split; [|split].
    + apply (bool_decide_unpack _). by vm_compute.
    + by intros a b ->%list_elem_of_singleton ->%list_elem_of_singleton.
    + by repeat constructor.
Defined.

(** With nothing blocking Apply, a mesh passphrase that was never typed is sent
    and refused by the server. *)
Theorem apply_without_mesh_passphrase :
  let s := set_mesh {| m_radioName := "radio0"; m_meshId := "openmanet"; m_passphrase := "";
                   m_encryption := SAE; m_bandwidthMhz := 2; m_channel := 42; m_countryCode := "US";
                   m_fromScan := false |} example_state in
  applyBlockers s None = []
  ∧ ApplySetup_refusal example_server (profileToProto s) = Some (ProfileRefused BadPassphrase).
Proof. split; vm_compute; reflexivity. Qed.

(** A gate whose station uplink uses the radio that is also an access point. *)
Theorem apply_uplink_on_ap_radio :
  let s := set_uplink {| u_type := WIRELESS_STA; u_ethernetPort := "";
             u_wireless := {| w_radioName := "radio1"; w_ssid := "up"; w_passphrase := "uplink-pass";
                              w_encryption := PSK2 |} |} (set_role MESH_GATE example_state) in
  applyBlockers s None = []
  ∧ ApplySetup_refusal example_server (profileToProto s) = Some (ProfileRefused StaIsAp).
Proof. split; vm_compute; reflexivity. Qed.

(** A gate whose station uplink has no network name: nothing blocks Apply, and the
    interceptor refuses the request before the handler can answer with a phase. *)
Theorem apply_uplink_without_ssid :
  let s := set_uplink {| u_type := WIRELESS_STA; u_ethernetPort := "";
             u_wireless := {| w_radioName := "radio2"; w_ssid := ""; w_passphrase := "uplink-pass";
                              w_encryption := PSK2 |} |} (set_role MESH_GATE example_state) in
  applyBlockers s None = []
  ∧ ApplySetup_refusal example_server (profileToProto s) = Some BreaksRules
  ∧ runValidate example_server (profileToProto s) = None.
Proof. split_and!; vm_compute; reflexivity. Qed.

Theorem mesh_request_legal_witness :
  let legal := λ c bw ch, bool_decide (c = "US" ∧ bw = 2%Z ∧ ch ∈ [2; 42]%Z) in
  let srv := {| tz_known := λ _, false; isMorse := λ r, bool_decide (r = "radio0"); reg := Loaded legal;
     radioSupportsMeshBackhaul := λ _, false; protovalidate := profile_rules |} in
  let status := Some {| isEnabled := true; isSetupComplete := false; hasHalowRadio := true;
    alreadyConfigured := false; currentHostname := ""; radios := []; ethernetPorts := [];
    s_countries := [{| code := "US"; c_name := "United States"; c_bandwidths := [{| mhz := 2; bw_channels := [2; 42]%Z |}] |}];
    currentCountry := "US"; timezones := []; currentTimezone := "" |} in
  m_fromScan (mesh example_state) = false
  ∧ validateMeshCountry srv (p_mesh (profileToProto example_state)) = None.
Proof.
  intros legal srv status. split; [reflexivity|].
  refine (proj1 (mesh_request_legal srv example_state status legal _ _ _ _ _)); [reflexivity| |done|reflexivity|].
  - repeat constructor; try done; apply (bool_decide_unpack _); by vm_compute.
  - intros _. split; [reflexivity|apply (bool_decide_unpack _); by vm_compute].
Defined.
