(* ===== verification/SetupRun.v ===== *)
(** [pages/setup/StepReview.jsx]: the run of the [ApplySetup] stream, its three
    endings, and the polling that follows a broken stream. *)
From S2P Require Import Prelude.
Open Scope js_scope.

(** ** The stream *)

Inductive Phase :=
| PH_UNSPECIFIED | VALIDATE | SNAPSHOT | RESET_WIRELESS | RESET_NETWORK | HOSTNAME
| PH_SET_TIMEZONE | BASE_NETWORK | WIRELESS_MESH | PER_RADIO_AP_STA | SCENARIO_TOPOLOGY
| BATMAN_ADV | MESH11SD | COMMIT | PASSWORD | RELOAD_SERVICES | PERSIST_FLAGS | TERMINAL.
#[export] Instance Phase_eq_dec : EqDecision Phase.
Proof. solve_decision. Defined.

Inductive Status := ST_UNSPECIFIED | STARTED | DONE | FAILED.
#[export] Instance Status_eq_dec : EqDecision Status.
Proof. solve_decision. Defined.

Record ApplySetupResult := { success : bool; expectedSsid : string; expectedUrl : string }.

Record ApplySetupResponse := {
  phase : Phase; status : Status; message : string; result : option ApplySetupResult
}.

(** How the stream ends without a terminal event. *)
Inductive ending := Closed | Broken (err : string).

Inductive phase_status := PStarted | PDone | PFailed.

Definition statusKey (st : Status) : option phase_status :=
  match st with
  | STARTED => Some PStarted
  | DONE => Some PDone
  | FAILED => Some PFailed
  | ST_UNSPECIFIED => None
  end.

Definition PHASE_DEFS : list (Phase * string) :=
  [(VALIDATE, "Validate"); (SNAPSHOT, "Snapshot"); (RESET_WIRELESS, "Reset wireless");
   (RESET_NETWORK, "Reset network"); (HOSTNAME, "Hostname"); (PH_SET_TIMEZONE, "Timezone");
   (BASE_NETWORK, "Base network"); (WIRELESS_MESH, "Mesh"); (PER_RADIO_AP_STA, "Per-radio");
   (SCENARIO_TOPOLOGY, "Topology"); (BATMAN_ADV, "Batman-adv"); (MESH11SD, "mesh11sd");
   (COMMIT, "Commit"); (PASSWORD, "Password"); (PERSIST_FLAGS, "Persist flags")].

(** ** The page *)

Inductive outcome := Success | Failure | Ambiguous.

Record review := {
  phaseMap : Phase → option phase_status;
  phaseError : option (Phase * string);
  terminal : option outcome;
  terminalResult : option ApplySetupResult;
  busy : bool;
  cancelled : bool;                      (* cancelRef: the page was left *)
  dismissed : bool;                      (* the session's "Skip for now" flag *)
  disarmed : bool                        (* 'setup-applied' was fired *)
}.

Definition initial_review (skipped : bool) : review :=
  {| phaseMap := λ _, None; phaseError := None; terminal := None; terminalResult := None;
     busy := false; cancelled := false; dismissed := skipped; disarmed := false |}.

Definition set_phases (m : Phase → option phase_status) (e : option (Phase * string)) (s : review) : review :=
  {| phaseMap := m; phaseError := e; terminal := terminal s; terminalResult := terminalResult s;
     busy := busy s; cancelled := cancelled s; dismissed := dismissed s; disarmed := disarmed s |}.

Definition set_terminal (t : option outcome) (s : review) : review :=
  {| phaseMap := phaseMap s; phaseError := phaseError s; terminal := t;
     terminalResult := terminalResult s; busy := busy s; cancelled := cancelled s;
     dismissed := dismissed s; disarmed := disarmed s |}.

Definition set_busy (b : bool) (s : review) : review :=
  {| phaseMap := phaseMap s; phaseError := phaseError s; terminal := terminal s;
     terminalResult := terminalResult s; busy := b; cancelled := cancelled s;
     dismissed := dismissed s; disarmed := disarmed s |}.

Definition set_result (r : option ApplySetupResult) (s : review) : review :=
  {| phaseMap := phaseMap s; phaseError := phaseError s; terminal := terminal s;
     terminalResult := r; busy := busy s; cancelled := cancelled s;
     dismissed := dismissed s; disarmed := disarmed s |}.

(** The unmount effect. *)
Definition leave (s : review) : review :=
  {| phaseMap := phaseMap s; phaseError := phaseError s; terminal := terminal s;
     terminalResult := terminalResult s; busy := busy s; cancelled := true;
     dismissed := dismissed s; disarmed := disarmed s |}.

Definition resumeSetup (s : review) : review :=
  {| phaseMap := phaseMap s; phaseError := phaseError s; terminal := terminal s;
     terminalResult := terminalResult s; busy := busy s; cancelled := cancelled s;
     dismissed := false; disarmed := disarmed s |}.

(** [window.dispatchEvent(new Event('setup-applied'))]. *)
Definition fire_applied (s : review) : review :=
  {| phaseMap := phaseMap s; phaseError := phaseError s; terminal := terminal s;
     terminalResult := terminalResult s; busy := busy s; cancelled := cancelled s;
     dismissed := dismissed s; disarmed := true |}.

(** ** Polling *)

Definition POLL_INTERVAL_MS : Z := 4000.
Definition POLL_TIMEOUT_MS : Z := 60000.

Inductive poll_end := Completed (t : Z) | TimedOut (t : Z).

(** [ask t]: how long the request sent at [t] takes, and [isSetupComplete] of its
    answer ([None]: it failed).  The times of the requests, and the end. *)
Fixpoint pollForCompletion (fuel : nat) (ask : Z → Z * option bool) (deadline now : Z) :
    option (list Z * poll_end) :=
  if (now <? deadline)%Z then
    match fuel with
    | O => None
    | Datatypes.S f =>
        let '(d, answer) := ask now in
        match answer with
        | Some true => Some ([now], Completed (now + d))
        | _ =>
            match pollForCompletion f ask deadline (now + d + POLL_INTERVAL_MS) with
            | Some (reqs, e) => Some (now :: reqs, e)
            | None => None
            end
        end
    end
  else Some ([], TimedOut now).

Definition POLL_FUEL : nat := 15.

(** ** Apply *)

(** The stream as the loop sees it; the page may be left between events. *)
Inductive item := Ev (r : ApplySetupResponse) | Left.

Inductive loop_end := LoopDone | Threw (err : string) (sawTerminal : bool).

(** One event that is not terminal. *)
Definition on_phase (ev : ApplySetupResponse) (s : review) : review :=
  let st := statusKey (status ev) in
  set_phases (λ p, if decide (p = phase ev) then st else phaseMap s p)
    (match st with Some PFailed => Some (phase ev, message ev) | _ => phaseError s end) s.

Definition on_terminal (ev : ApplySetupResponse) (s : review) : review :=
  let ok := match result ev with Some r => success r | None => false end in
  let s1 := set_terminal (Some (if ok then Success else Failure)) (set_result (result ev) s) in
  fire_applied (if ok then resumeSetup s1 else s1).

(** [for await (const ev of stream)]; leaving the loop early closes the stream,
    which may reject ([ret]). *)
Fixpoint run_stream (items : list item) (e : ending) (ret : option string) (s : review) :
    review * loop_end :=
  let stop saw := match ret with Some err => Threw err saw | None => LoopDone end in
  match items with
  | [] => (s, match e with Closed => LoopDone | Broken err => Threw err false end)
  | Left :: rest => run_stream rest e ret (leave s)
  | Ev ev :: rest =>
      if cancelled s then (s, stop false)
      else if decide (phase ev = TERMINAL) then (on_terminal ev s, stop true)
      else run_stream rest e ret (on_phase ev s)
  end.

(** [apply]: [ask] answers the polling, which starts at [t0]; [left_at] tells when
    the page is left during it. The [terminal] of the catch block is the one of
    the render that created [apply]. *)
Definition apply (items : list item) (e : ending) (ret : option string)
    (ask : Z → Z * option bool) (left_at : Z → bool) (t0 : Z) (s : review) : review :=
  let rendered := terminal s in
  let s0 := set_terminal None (set_phases (λ _, None) None (set_busy true s)) in
  let '(s1, l) := run_stream items e ret s0 in
  let s2 :=
    match l with
    | LoopDone => s1
    | Threw err saw =>
        if cancelled s1 then s1
        else if negb saw then
          let s2 := set_terminal (Some Ambiguous) s1 in
          match pollForCompletion POLL_FUEL ask (t0 + POLL_TIMEOUT_MS) t0 with
          | Some (_, Completed t) =>
              if left_at t then leave s2
              else fire_applied (resumeSetup (set_terminal (Some Success) s2))
          | Some (_, TimedOut t) => if left_at t then leave s2 else s2
          | None => s2
          end
        else if bool_decide (rendered = None) then
          set_terminal (Some Failure) (set_phases (phaseMap s1) (Some (PH_UNSPECIFIED, err)) s1)
        else s1
    end in
  set_busy false s2.

(** [onRetry] of the failure panel. *)
Definition onRetry (s : review) : review := set_terminal None s.

(** ** What an apply should show *)

Fixpoint before_terminal (evs : list ApplySetupResponse) : list ApplySetupResponse :=
  match evs with
  | [] => []
  | ev :: rest => if decide (phase ev = TERMINAL) then [] else ev :: before_terminal rest
  end.

Definition first_terminal (evs : list ApplySetupResponse) : option ApplySetupResponse :=
  List.find (λ ev, bool_decide (phase ev = TERMINAL)) evs.

(** The last status reported for a phase. *)
Definition reported (evs : list ApplySetupResponse) (p : Phase) : option phase_status :=
  last (filter (λ ev, phase ev = p) evs) ≫= λ ev, statusKey (status ev).

(** The last failure reported. *)
Definition last_failure (evs : list ApplySetupResponse) : option (Phase * string) :=
  (λ ev, (phase ev, message ev)) <$> last (filter (λ ev, status ev = FAILED) evs).

(** ** Lemmas *)

Lemma poll_spec ask deadline :
  (∀ t, (0 <= (ask t).1)%Z) →
  ∀ (fuel : nat) now, (deadline - now <= fuel * POLL_INTERVAL_MS)%Z →
  ∃ reqs e, pollForCompletion fuel ask deadline now = Some (reqs, e)
    ∧ length reqs ≤ fuel
    ∧ Forall (λ r, (now <= r < deadline)%Z) reqs
    ∧ ((now < deadline)%Z → reqs ≠ [])
    ∧ match e with
      | Completed t => ∃ pre r, reqs = pre ++ [r] ∧ ask r = (t - r, Some true)%Z
          ∧ Forall (λ q, (ask q).2 ≠ Some true) pre
      | TimedOut t => (deadline <= t)%Z ∧ Forall (λ q, (ask q).2 ≠ Some true) reqs
      end.
Proof.
  intros Hd. induction fuel as [|f IH]; intros now Hf; unfold POLL_INTERVAL_MS in Hf.
  - exists [], (TimedOut now). simpl. rewrite (proj2 (Z.ltb_ge _ _)) by lia.
    split_and?; [done|done|done|lia|lia|constructor].
  - cbn [pollForCompletion]. destruct (Z.ltb_spec now deadline) as [Hlt|Hge].
    2: { exists [], (TimedOut now). split_and?; simpl; try done; try lia. }
    destruct (ask now) as [d answer] eqn:Ha.
    assert (0 <= d)%Z as Hd0 by (specialize (Hd now); by rewrite Ha in Hd).
    destruct (IH (now + d + POLL_INTERVAL_MS)%Z) as (reqs & e & He & Hl & Hr & Hn & Hend);
      [unfold POLL_INTERVAL_MS; lia|].
    assert (answer = Some true ∨ answer ≠ Some true) as [->|Hans] by (destruct answer as [[]|]; auto).
    + exists [now], (Completed (now + d)). split_and?; simpl; [done|lia|by repeat constructor; lia|done|].
      exists [], now. split_and?; [done|rewrite Ha; f_equal; lia|constructor].
    + rewrite He. exists (now :: reqs), e. split_and?.
      * by destruct answer as [[]|].
      * simpl. lia.
      * constructor; [lia|]. eapply Forall_impl; [exact Hr|]. unfold POLL_INTERVAL_MS. simpl. intros; lia.
      * done.
      * destruct e as [t|t].
        -- destruct Hend as (pre & r & -> & Hr1 & Hr2). exists (now :: pre), r. split_and?; try done.
           constructor; [by rewrite Ha|done].
        -- destruct Hend as [H1 H2]. split; [done|]. constructor; [by rewrite Ha|done].
Qed.

(** The loop over the events, the page being there. *)
Lemma run_stream_evs evs e ret s :
  cancelled s = false →
  let pre := before_terminal evs in
  let s1 := foldl (λ s ev, on_phase ev s) s pre in
  run_stream (map Ev evs) e ret s =
  match first_terminal evs with
  | Some ev => (on_terminal ev s1, match ret with Some err => Threw err true | None => LoopDone end)
  | None => (s1, match e with Closed => LoopDone | Broken err => Threw err false end)
  end.
Proof.
  revert s. unfold first_terminal. induction evs as [|ev evs IH]; intros s Hs; [done|]. simpl. rewrite Hs.
  destruct (decide (phase ev = TERMINAL)) as [Ht|Ht].
  - by rewrite (bool_decide_eq_true_2 _ Ht).
  - rewrite (bool_decide_eq_false_2 _ Ht). simpl. by apply IH.
Qed.

Lemma filter_last {T} (keep : T → Prop) `{!∀ ev, Decision (keep ev)} evs ev :
  filter keep (evs ++ [ev])
  = filter keep evs ++ (if decide (keep ev) then [ev] else []).
Proof. rewrite filter_app. done. Qed.

Lemma on_phases evs s :
  let s1 := foldl (λ s ev, on_phase ev s) s evs in
  (∀ p, phaseMap s1 p = match last (filter (λ ev, phase ev = p) evs) with
                        | Some ev => statusKey (status ev) | None => phaseMap s p end)
  ∧ phaseError s1 = match last_failure evs with Some x => Some x | None => phaseError s end
  ∧ terminal s1 = terminal s ∧ terminalResult s1 = terminalResult s
  ∧ cancelled s1 = cancelled s ∧ dismissed s1 = dismissed s ∧ disarmed s1 = disarmed s ∧ busy s1 = busy s.
Proof.
  unfold last_failure. induction evs as [|ev evs IH] using rev_ind; [done|].
  rewrite foldl_app. destruct IH as (H1 & H2 & H3). simpl. split; [|split].
  - intros p. rewrite filter_last. destruct (decide (p = phase ev)) as [->|Hne].
    + rewrite decide_True by done. by rewrite last_snoc.
    + rewrite decide_False by done. rewrite app_nil_r. apply H1.
  - rewrite filter_last. destruct (status ev) eqn:Hst; simpl; try (rewrite app_nil_r; exact H2).
    by rewrite last_snoc.
  - exact H3.
Qed.

(** What a terminal event leaves on the page, closing the stream included. *)
Lemma on_terminal_shown ev ret rendered s0 s1 shown failure :
  cancelled s1 = cancelled s0 → dismissed s1 = dismissed s0 → cancelled s0 = false →
  (∀ p, phaseMap s1 p = shown p) → phaseError s1 = failure →
  let ok := match result ev with Some r => success r | None => false end in
  let t := on_terminal ev s1 in
  let s' := set_busy false
    (match ret with
     | Some err =>
         if cancelled t then t
         else if bool_decide (rendered = None) then
           set_terminal (Some Failure) (set_phases (phaseMap t) (Some (PH_UNSPECIFIED, err)) t)
         else t
     | None => t
     end) in
  busy s' = false
  ∧ (∀ p, phaseMap s' p = shown p)
  ∧ terminalResult s' = result ev
  ∧ dismissed s' = negb ok && dismissed s0 ∧ disarmed s' = true
  ∧ match ret, (rendered : option outcome) with
    | Some err, None => terminal s' = Some Failure ∧ phaseError s' = Some (PH_UNSPECIFIED, err)
    | _, _ => terminal s' = Some (if ok then Success else Failure) ∧ phaseError s' = failure
    end.
Proof.
  intros Hc Hd H0 Hp He ok t.
  assert (cancelled t = false) as -> by (unfold t, on_terminal; fold ok; destruct ok; simpl; congruence).
  assert (phaseMap t = phaseMap s1 ∧ phaseError t = failure ∧ terminalResult t = result ev
    ∧ dismissed t = negb ok && dismissed s0 ∧ disarmed t = true
    ∧ terminal t = Some (if ok then Success else Failure)) as (T1 & T2 & T3 & T4 & T5 & T6)
    by (unfold t, on_terminal; fold ok; destruct ok; by split_and?).
  clearbody t. intros s'.
  assert (∀ p, phaseMap t p = shown p) as T7 by (intros p; by rewrite T1).
  unfold s'. destruct ret as [err|]; [destruct rendered|]; by split_and?.
Qed.

(** ** Properties *)

(** After a broken stream the device is asked at most fifteen times, only within
    the minute, however long each answer takes; a failed request or "not yet" is
    never taken for completion; the first "complete" ends it, and without one it
    ends once the minute is over. *)
Theorem polling_settles (ask : Z → Z * option bool) (t0 : Z) :
  (∀ t, (0 <= (ask t).1)%Z) →
  ∃ reqs e, pollForCompletion POLL_FUEL ask (t0 + POLL_TIMEOUT_MS) t0 = Some (reqs, e)
    ∧ 1 <= length reqs <= 15
    ∧ Forall (λ r, (t0 <= r < t0 + POLL_TIMEOUT_MS)%Z) reqs
    ∧ match e with
      | Completed t => ∃ pre r, reqs = pre ++ [r] ∧ ask r = (t - r, Some true)%Z
          ∧ Forall (λ q, (ask q).2 ≠ Some true) pre
      | TimedOut t => (t0 + POLL_TIMEOUT_MS <= t)%Z ∧ Forall (λ q, (ask q).2 ≠ Some true) reqs
      end.
Proof.
  intros Hd. destruct (poll_spec ask (t0 + POLL_TIMEOUT_MS)%Z Hd POLL_FUEL t0)
    as (reqs & e & He & Hl & Hr & Hn & Hend); [unfold POLL_TIMEOUT_MS, POLL_INTERVAL_MS, POLL_FUEL; lia|].
  exists reqs, e. split_and?; [done| |done|done|done].
  assert (reqs ≠ []) as Hne by (apply Hn; unfold POLL_TIMEOUT_MS; lia). destruct reqs; [done|simpl; lia].
Qed.

Theorem polling_settles_witness :
  let ask := λ t, (500, if (8000 <=? t) then Some true else None)%Z in
  pollForCompletion POLL_FUEL ask 60000 0 = Some ([0; 4500; 9000], Completed 9500)%Z
  ∧ ∃ reqs e, pollForCompletion POLL_FUEL ask (0 + POLL_TIMEOUT_MS) 0 = Some (reqs, e)
    ∧ 1 <= length reqs <= 15.
Proof.
  intros ask. split; [reflexivity|].
  destruct (polling_settles ask 0) as (reqs & e & H1 & H2 & _); [by intros t|].
  exists reqs, e. split; [exact H1|exact H2].
Defined.

(** C18: what an apply shows, when the page stays open, whatever the stream sends,
    however it ends, and whether or not closing it after the terminal event
    fails.  Every phase shows its last reported status, and the last failure is
    kept.  A terminal event decides the result that is shown (events after it are
    not read), clears the skip flag only on success and disarms the unload guard;
    the outcome is the event's, unless closing the stream then fails while the
    page had no outcome when Apply was pressed: the page shows a failure with
    that error, whatever the event said.  A stream that breaks without a terminal
    event shows success exactly when a poll within the minute finds the setup
    complete, and otherwise stays on the reconnecting page; a stream that ends
    without one leaves the review as it is.  Apply is enabled again in every
    case. *)
Theorem apply_outcome (evs : list ApplySetupResponse) (e : ending) (ret : option string)
    (ask : Z → Z * option bool) (t0 : Z) (s : review) :
  cancelled s = false → (∀ t, (0 <= (ask t).1)%Z) →
  let pre := before_terminal evs in
  let s' := apply (map Ev evs) e ret ask (λ _, false) t0 s in
  busy s' = false
  ∧ (∀ p, phaseMap s' p = reported pre p)
  ∧ match first_terminal evs, e with
    | Some ev, _ =>
        let ok := match result ev with Some r => success r | None => false end in
        terminalResult s' = result ev
        ∧ dismissed s' = negb ok && dismissed s ∧ disarmed s' = true
        ∧ match ret, terminal s with
          | Some err, None =>
              terminal s' = Some Failure ∧ phaseError s' = Some (PH_UNSPECIFIED, err)
          | _, _ =>
              terminal s' = Some (if ok then Success else Failure)
              ∧ phaseError s' = last_failure pre
          end
    | None, Closed =>
        terminal s' = None ∧ phaseError s' = last_failure pre
        ∧ dismissed s' = dismissed s ∧ disarmed s' = disarmed s
    | None, Broken _ =>
        phaseError s' = last_failure pre ∧
        ∃ reqs pe, pollForCompletion POLL_FUEL ask (t0 + POLL_TIMEOUT_MS) t0 = Some (reqs, pe) ∧
        (if decide (Exists (λ r, (ask r).2 = Some true) reqs)
         then terminal s' = Some Success ∧ dismissed s' = false ∧ disarmed s' = true
         else terminal s' = Some Ambiguous ∧ dismissed s' = dismissed s ∧ disarmed s' = disarmed s)
    end.
Proof.
  intros Hc Hd pre s'. unfold s', apply.
  set (s0 := set_terminal None (set_phases (λ _, None) None (set_busy true s))).
  rewrite run_stream_evs by done. fold pre.
  destruct (on_phases pre s0) as (H1 & H2 & H3 & H4 & H5 & H6 & H7 & H8).
  set (s1 := foldl (λ s ev, on_phase ev s) s0 pre) in *.
  assert (∀ p, phaseMap s1 p = reported pre p) as H1'
    by (intros p; rewrite H1; unfold reported; by destruct (last _)).
  assert (phaseError s1 = last_failure pre) as H2' by (rewrite H2; by destruct (last_failure pre)).
  destruct (first_terminal evs) as [ev|].
  { destruct ret as [err|];
      [exact (on_terminal_shown ev (Some err) (terminal s) s s1 _ _ H5 H6 Hc H1' H2')
      |exact (on_terminal_shown ev None (terminal s) s s1 _ _ H5 H6 Hc H1' H2')]. }
  destruct e as [|err]; [by split_and?|].
  simpl (cancelled s1). rewrite H5. simpl (cancelled s0). rewrite Hc.
  destruct (poll_spec ask (t0 + POLL_TIMEOUT_MS)%Z Hd POLL_FUEL t0) as (reqs & pe & He & _ & _ & _ & Hend);
    [unfold POLL_TIMEOUT_MS, POLL_INTERVAL_MS, POLL_FUEL; lia|].
  cbn [negb]. rewrite He. destruct pe as [t|t].
  - split_and?; [done|exact H1'|exact H2'|]. exists reqs, (Completed t). split; [done|].
    rewrite decide_True; [done|]. destruct Hend as (q & r & -> & Hr & _). apply Exists_app. right.
    apply Exists_cons_hd. by rewrite Hr.
  - split_and?; [done|exact H1'|exact H2'|]. exists reqs, (TimedOut t). split; [done|].
    rewrite decide_False; [by split_and?|]. destruct Hend as [_ Hend]. by apply Forall_not_Exists.
Qed.

Definition ev_of (p : Phase) (st : Status) (r : option ApplySetupResult) : ApplySetupResponse :=
  {| phase := p; status := st; message := "m"; result := r |}.

Theorem apply_outcome_witness :
  let evs := [ev_of VALIDATE STARTED None; ev_of VALIDATE DONE None; ev_of RESET_NETWORK STARTED None] in
  let ask := λ t, (500, if (8000 <=? t) then Some true else None)%Z in
  let s' := apply (map Ev evs) (Broken "network") None ask (λ _, false) 0 (initial_review true) in
  let done := [ev_of TERMINAL DONE (Some {| success := true; expectedSsid := ""; expectedUrl := "" |})] in
  let s2 := apply (map Ev done) Closed (Some "reset") ask (λ _, false) 0 (initial_review true) in
  (terminal s', dismissed s', phaseMap s' VALIDATE) = (Some Success, false, Some PDone)
  ∧ busy s' = false
  ∧ terminal s2 = Some Failure ∧ phaseError s2 = Some (PH_UNSPECIFIED, "reset").
Proof.
  intros evs ask s' done s2. split; [reflexivity|]. split.
  - apply (apply_outcome evs (Broken "network") None ask 0 (initial_review true)); [reflexivity|by intros t].
  - apply (apply_outcome done Closed (Some "reset") ask 0 (initial_review true)); [reflexivity|by intros t].
Defined.

(** ** Findings *)

(** A stream that ends without a terminal event and without an error leaves the
    page on the review, with no outcome and no message. *)
Theorem apply_closed_is_silent skipped :
  let s' := apply [Ev (ev_of VALIDATE DONE None)] Closed None (λ _, (0, None)%Z) (λ _, false) 0
              (initial_review skipped) in
  (terminal s', phaseError s', busy s') = (None, None, false).
Proof. reflexivity. Qed.

(** A refused apply fires ['setup-applied'] as well: the unload guard is off while
    the wizard is still to be completed. *)
Theorem apply_failure_disarms skipped :
  let s' := apply [Ev (ev_of VALIDATE FAILED None);
                   Ev (ev_of TERMINAL FAILED (Some {| success := false; expectedSsid := ""; expectedUrl := "" |}))]
              Closed None (λ _, (0, None)%Z) (λ _, false) 0 (initial_review skipped) in
  (terminal s', disarmed s') = (Some Failure, true).
Proof. reflexivity. Qed.

(** When closing the stream after a successful terminal event rejects, the guard
    on [terminal] (the value of an older render) does not hold it back: success
    is turned into failure. *)
Theorem apply_success_overturned skipped :
  let s' := apply [Ev (ev_of TERMINAL DONE (Some {| success := true; expectedSsid := ""; expectedUrl := "" |}))]
              Closed (Some "reset") (λ _, (0, None)%Z) (λ _, false) 0 (initial_review skipped) in
  (terminal s', dismissed s') = (Some Failure, false).
Proof. reflexivity. Qed.

(** The service reload has no row in the progress list. *)
Theorem reload_has_no_row : RELOAD_SERVICES ∉ map fst PHASE_DEFS.
Proof. by apply (bool_decide_unpack _). Qed.
