(* ===== verification/SetupShell.v ===== *)
(** Which page is shown and how the wizard moves: [components/SetupGate.jsx],
    [services/setupDismiss.js], [components/ProtectedRoute.jsx],
    [contexts/AuthContext.jsx], the route table of [AppRouter.jsx], the shell of
    [pages/SetupWizard.jsx] and [pages/setup/SetupBeforeUnloadGuard.jsx]. *)
From S2P Require Import Prelude JsString MeshJoin Setup SetupApply.
Open Scope js_scope.

(** ** The session *)

(** [sessionStorage['omd-setup-dismissed']], and whether storage is usable. *)
Record session := { storage_ok : bool; stored : bool }.

Definition isSetupDismissed (s : session) : bool := if storage_ok s then stored s else false.
Definition dismissSetup (s : session) : session :=
  if storage_ok s then {| storage_ok := true; stored := true |} else s.
Definition resumeSetup (s : session) : session :=
  if storage_ok s then {| storage_ok := true; stored := false |} else s.

(** [AuthContext]: the state and what changes it. *)
Record auth := { user : option string; loading : bool; authEnabled : bool }.

Definition auth_init : auth := {| user := None; loading := true; authEnabled := true |}.

Inductive auth_event :=
| CheckAnswered (authenticated : option string) (enabled : option bool)
| CheckFailed
| LoggedIn (username : string)
| LoginRefused
| LoggedOut
| SessionExpired.

Definition set_user (u : option string) (a : auth) : auth :=
  {| user := u; loading := loading a; authEnabled := authEnabled a |}.

Definition auth_step (a : auth) (e : auth_event) : auth :=
  match e with
  | CheckAnswered who enabled =>
      {| user := match who with Some u => Some u | None => user a end; loading := false;
         authEnabled := enabled ?? authEnabled a |}
  | CheckFailed => {| user := user a; loading := false; authEnabled := authEnabled a |}
  | LoggedIn u => set_user (Some u) a
  | LoginRefused => a
  | LoggedOut | SessionExpired => set_user None a
  end.

(** [!!user]. *)
Definition isAuthenticated (a : auth) : bool :=
  match user a with Some u => negb (bool_decide (u = "")) | None => false end.

(** [authFetch]: what a response to a request does to the session. *)
Definition authFetch (status : Z) (a : auth) : auth :=
  if decide (status = 401%Z) then auth_step a SessionExpired else a.

(** ** The gate *)

Inductive gate := WizardHidden | NoHalow | WizardDismissed | WizardActive.
#[export] Instance gate_eq_dec : EqDecision gate.
Proof. solve_decision. Defined.

Definition gateStateFromStatus (status : option setup_status) (dismissed : bool) : gate :=
  match status with
  | None => WizardHidden
  | Some st =>
      if negb (isEnabled st) then WizardHidden
      else if isSetupComplete st then WizardHidden
      else
        let trapped := if negb (hasHalowRadio st) then NoHalow else WizardActive in
        if dismissed then WizardDismissed else trapped
  end.

(** The gate after its request: [None] for a failed one. *)
Definition gate_loaded (answer : option setup_status) (s : session) : gate :=
  match answer with
  | Some st => gateStateFromStatus (Some st) (isSetupDismissed s)
  | None => WizardHidden
  end.

(** ** Routes *)

Inductive page :=
| Loading | Blank
| NoHalowPage | SetupWizardPage | LoginPage
| DashboardPage | CommsPage | TopologyPage | GpsPage | BLOSPage
| SettingsPage | SettingsWirelessPage | SettingsNetworkPage | SettingsFirmwarePage
| SettingsTerminalPage | SettingsLogsPage.
#[export] Instance page_eq_dec : EqDecision page.
Proof. solve_decision. Defined.

Inductive view := Show (p : page) | Navigate (path : string).

Definition SETUP_PATH_PREFIX : string := "/setup".

Definition starts_with (p s : string) : bool :=
  match strip_prefix p s with Some _ => true | None => false end.

Definition ProtectedRoute (a : auth) (children : view) : view :=
  if loading a then Show Blank
  else if negb (isAuthenticated a) then Navigate "/login"
  else children.

(** *** How react-router matches

    [Routes] compares the decoded pathname with each route's pattern, ignoring
    case and trailing slashes.  The decoding is the library's; a text without an
    escape is its own decoding. *)
Fixpoint no_percent (s : string) : bool :=
  match s with
  | EmptyString => true
  | String c s' => negb (bool_decide (c = "%"%char)) && no_percent s'
  end.

Class PathDecoder := {
  decodePath : string → string;
  decodePath_empty : decodePath "" = "";
  decodePath_plain a b : no_percent a = true → decodePath (a ++ b) = (a ++ decodePath b)%string
}.

Fixpoint all_slashes (s : string) : bool :=
  match s with
  | EmptyString => true
  | String c s' => bool_decide (c = "/"%char) && all_slashes s'
  end.

(** [.+] does not match a line terminator (U+2028 and U+2029 in UTF-8). *)
Fixpoint one_line (s : string) : bool :=
  match s with
  | EmptyString => true
  | String c s' =>
      negb (bool_decide (c = "010"%char ∨ c = "013"%char))
      && negb (starts_with (String "226" (String "128" (String "168" ""))) s)
      && negb (starts_with (String "226" (String "128" (String "169" ""))) s)
      && one_line s'
  end.

(** A route, up to the rest of the path.  The expressions have the flag [i]. *)
Definition route_rest `{PathDecoder} (route path : string) : option string :=
  strip_prefix route (toLowerCase (decodePath path)).

Definition matches_end `{PathDecoder} (route path : string) : bool :=
  match route_rest route path with Some r => all_slashes r | None => false end.

(** A route that ends in a splat: only slashes follow, or a slash and [.+]. *)
Definition matches_splat `{PathDecoder} (route path : string) : bool :=
  match route_rest route path with
  | Some r =>
      all_slashes r
      || match r with
         | String c r' => bool_decide (c = "/"%char) && negb (bool_decide (r' = "")) && one_line r'
         | EmptyString => false
         end
  | None => false
  end.

(** The routes of [AppRouter]; the effect of [LoginPage] sends an authenticated
    operator to the dashboard; an unknown path renders nothing. *)
Definition protected_pages : list (string * page) :=
  [("/", DashboardPage); ("/comms", CommsPage); ("/topology", TopologyPage); ("/gps", GpsPage);
   ("/blos", BLOSPage); ("/settings", SettingsPage); ("/settings/wireless", SettingsWirelessPage);
   ("/settings/network", SettingsNetworkPage); ("/settings/firmware", SettingsFirmwarePage);
   ("/settings/terminal", SettingsTerminalPage); ("/settings/logs", SettingsLogsPage)].

Definition routes `{PathDecoder} (a : auth) (path : string) : view :=
  if matches_end "/login" path then
    (if isAuthenticated a then Navigate "/" else Show LoginPage)
  else if matches_splat "/setup" path then Show SetupWizardPage
  else match List.find (λ r, matches_end r.1 path) protected_pages with
       | Some r => ProtectedRoute a (Show r.2)
       | None => Show Blank
       end.

(** The render of [SetupGate] around the routes. *)
Definition SetupGate `{PathDecoder} (g : option gate) (a : auth) (path : string) : view :=
  let onSetupRoute := starts_with SETUP_PATH_PREFIX path in
  match g with
  | None => Show Loading
  | Some WizardHidden => if onSetupRoute then Navigate "/" else routes a path
  | Some NoHalow => if onSetupRoute then Show NoHalowPage else Navigate SETUP_PATH_PREFIX
  | Some WizardDismissed => routes a path
  | Some WizardActive => if onSetupRoute then routes a path else Navigate SETUP_PATH_PREFIX
  end.

(** Following redirects. *)
Fixpoint settle `{PathDecoder} (fuel : nat) (g : option gate) (a : auth) (path : string) : option (page * string) :=
  match SetupGate g a path with
  | Show p => Some (p, path)
  | Navigate path' => match fuel with O => None | Datatypes.S f => settle f g a path' end
  end.

(** ** The wizard's shell *)

Inductive step_key := identity | mesh_step | uplink_step | aps_step | password_step | review_step.
#[export] Instance step_key_eq_dec : EqDecision step_key.
Proof. solve_decision. Defined.

(** [role: 'all'] or [role: 'gate']. *)
Definition STEP_DEFS : list (step_key * bool) :=
  [(identity, false); (mesh_step, false); (uplink_step, true); (aps_step, false);
   (password_step, false); (review_step, false)].

Definition steps_for (r : MeshRole) : list step_key :=
  map fst (filter (λ d : step_key * bool, negb d.2 || bool_decide (r = MESH_GATE)) STEP_DEFS).

(** [succeededRef] and [onbeforeunload] of the guard. *)
Definition hasMeaningfulInput (s : setup_state) : bool :=
  bool_decide (hostname s ≠ "")
  || bool_decide (adminPassword s ≠ "") || bool_decide (adminPasswordConfirm s ≠ "")
  || bool_decide (m_passphrase (mesh s) ≠ "")
  || bool_decide (m_meshId (mesh s) ≠ m_meshId (mesh initialState))
  || bool_decide (m_radioName (mesh s) ≠ "")
  || bool_decide (u_ethernetPort (uplink s) ≠ "")
  || bool_decide (w_ssid (u_wireless (uplink s)) ≠ "")
  || bool_decide (w_passphrase (u_wireless (uplink s)) ≠ "")
  || bool_decide (aps s ≠ []).

Record shell := {
  wiz : setup_state;
  currentIndex : nat;
  wstatus : option setup_status;
  statusError : bool;
  confirmReset : bool;
  confirmSkip : bool;
  succeeded : bool;                      (* the guard's succeededRef *)
  sess : session;
  left_to : option string                (* window.location.assign *)
}.

Definition shell_init (s : session) : shell :=
  {| wiz := initialState; currentIndex := 0; wstatus := None; statusError := false;
     confirmReset := false; confirmSkip := false; succeeded := false; sess := s; left_to := None |}.

Definition steps (s : shell) : list step_key := steps_for (role (wiz s)).

(** [steps[currentIndex]]; [None] is [undefined], and reading its fields throws. *)
Definition step (s : shell) : option step_key := steps s !! currentIndex s.

Definition goto (i : nat) (s : shell) : shell :=
  {| wiz := wiz s; currentIndex := i; wstatus := wstatus s; statusError := statusError s;
     confirmReset := confirmReset s; confirmSkip := confirmSkip s; succeeded := succeeded s;
     sess := sess s; left_to := left_to s |}.

Definition dialogs (r k : bool) (s : shell) : shell :=
  {| wiz := wiz s; currentIndex := currentIndex s; wstatus := wstatus s; statusError := statusError s;
     confirmReset := r; confirmSkip := k; succeeded := succeeded s; sess := sess s; left_to := left_to s |}.

Definition set_wiz (w : setup_state) (s : shell) : shell :=
  {| wiz := w; currentIndex := currentIndex s; wstatus := wstatus s; statusError := statusError s;
     confirmReset := confirmReset s; confirmSkip := confirmSkip s; succeeded := succeeded s;
     sess := sess s; left_to := left_to s |}.

Definition goPrev (s : shell) : shell := goto (currentIndex s - 1) s.
Definition advance (s : shell) : shell := goto ((length (steps s) - 1) `min` (currentIndex s + 1)) s.

Definition meshBlocked (s : shell) : bool :=
  bool_decide (step s = Some mesh_step) && negb (bool_decide (meshJoinIssues (wiz s) (wstatus s) = [])).

Definition alreadyConfigured_now (s : shell) : bool :=
  match wstatus s with Some st => alreadyConfigured st | None => false end.

Definition goNext (s : shell) : shell :=
  if bool_decide (step s = Some identity) && alreadyConfigured_now s
  then dialogs true (confirmSkip s) s
  else advance s.

Definition onSkip (s : shell) : shell :=
  {| wiz := wiz s; currentIndex := currentIndex s; wstatus := wstatus s; statusError := statusError s;
     confirmReset := confirmReset s; confirmSkip := confirmSkip s; succeeded := true;
     sess := dismissSetup (sess s); left_to := Some "/" |}.

(** The answer of [getSetupStatus] on mount. *)
Definition on_status (answer : option setup_status) (tz : string) (s : shell) : shell :=
  match answer with
  | Some st =>
      {| wiz := hydrate (Some st) tz (wiz s); currentIndex := currentIndex s; wstatus := Some st;
         statusError := statusError s; confirmReset := confirmReset s; confirmSkip := confirmSkip s;
         succeeded := succeeded s; sess := sess s; left_to := left_to s |}
  | None =>
      {| wiz := wiz s; currentIndex := currentIndex s; wstatus := wstatus s; statusError := true;
         confirmReset := confirmReset s; confirmSkip := confirmSkip s; succeeded := succeeded s;
         sess := sess s; left_to := left_to s |}
  end.

(** Whether the tab asks before it is closed. *)
Definition unload_prompts (s : shell) : bool := negb (succeeded s) && hasMeaningfulInput (wiz s).

(** What each step dispatches. *)
Definition step_dispatches (k : step_key) (a : action) : bool :=
  match k, a with
  | identity, (SET_HOSTNAME _ | SET_TIMEZONE _ | SET_ROLE _) => true
  | mesh_step, (SET_MESH_FIELD _ | APPLY_MESH_JOIN _ _ | SET_MESHGATE_MODE _ | SET_MESHPOINT_MODE _) => true
  | uplink_step, (SET_UPLINK_TYPE _ | SET_UPLINK_FIELD _ | SET_UPLINK_WIRELESS _) => true
  | aps_step, (SET_AP _ | SET_RADIO_MODE _ _) => true
  | password_step, (SET_ADMIN_PASSWORD _ | SET_ADMIN_PASSWORD_CONFIRM _) => true
  | _, _ => false
  end.

(** The shell is rendered: no error, and the status is there. *)
Definition rendered (s : shell) : Prop := statusError s = false ∧ wstatus s ≠ None.

Inductive shell_step : shell → shell → Prop :=
| shell_status s answer tz :
    wstatus s = None → statusError s = false → shell_step s (on_status answer tz s)
| shell_dispatch s k a w :
    rendered s → step s = Some k → step_dispatches k a = true → ui_ok (wiz s) a →
    reducer (wiz s) a = Some w → shell_step s (set_wiz w s)
| shell_back s : rendered s → currentIndex s ≠ 0 → shell_step s (goPrev s)
| shell_next s :
    rendered s → S (currentIndex s) ≠ length (steps s) → meshBlocked s = false → shell_step s (goNext s)
| shell_confirm_reset s :
    rendered s → confirmReset s = true → shell_step s (advance (dialogs false (confirmSkip s) s))
| shell_cancel_reset s :
    rendered s → confirmReset s = true → shell_step s (dialogs false (confirmSkip s) s)
| shell_ask_skip s : rendered s → shell_step s (dialogs (confirmReset s) true s)
| shell_cancel_skip s :
    rendered s → confirmSkip s = true → shell_step s (dialogs (confirmReset s) false s)
| shell_skip s : rendered s → confirmSkip s = true → shell_step s (onSkip s)
| shell_clamp s :                        (* the effect on [steps.length] *)
    length (steps s) ≤ currentIndex s → shell_step s (goto (length (steps s) - 1) s).

(** ** Lemmas *)

Definition protected (p : page) : bool := bool_decide (p ∈ map snd protected_pages).

(** A path that needs no decoding and no lower case. *)
Definition plain (path : string) : bool :=
  no_percent path && bool_decide (toLowerCase path = path).

(** Another spelling of a path of the wizard, which the gate does not see as one. *)
Definition other_spelling `{PathDecoder} (path : string) : Prop :=
  plain path = false ∧ starts_with SETUP_PATH_PREFIX path = false
  ∧ matches_splat SETUP_PATH_PREFIX path = true.

Definition allowed `{PathDecoder} (g : gate) (a : auth) (path : string) (p : page) : Prop :=
  (protected p = true → isAuthenticated a = true ∧ loading a = false ∧ (g = WizardHidden ∨ g = WizardDismissed))
  ∧ (p = SetupWizardPage → g = WizardActive ∨ g = WizardDismissed ∨ other_spelling path)
  ∧ (p = NoHalowPage ↔ g = NoHalow)
  ∧ (g = WizardActive → p = SetupWizardPage ∨ p = Blank)
  ∧ p ≠ Loading.

Lemma starts_with_app p s : starts_with p s = true ↔ ∃ t, s = (p ++ t)%string.
Proof.
  unfold starts_with. split; [|intros [t ->]; by rewrite strip_prefix_app].
  destruct (strip_prefix p s) as [t|] eqn:E; [|done]. intros _. exists t. by apply strip_prefix_spec.
Qed.

Lemma toLowerCase_app s t : toLowerCase (s ++ t) = (toLowerCase s ++ toLowerCase t)%string.
Proof. unfold toLowerCase. induction s as [|c s IH]; [done|]. simpl. by rewrite IH. Qed.

Lemma string_app_empty (s : string) : (s ++ "")%string = s.
Proof. induction s as [|c s IH]; [done|]. exact (f_equal (String c) IH). Qed.

Section Matching.
Context `{PathDecoder}.

Lemma decodePath_id p : no_percent p = true → decodePath p = p.
Proof.
  intros Hp. pose proof (decodePath_plain p "" Hp) as H1.
  by rewrite decodePath_empty, !string_app_empty in H1.
Qed.

Lemma route_rest_app route a b :
  no_percent a = true → toLowerCase a = a →
  route_rest route (a ++ b) = strip_prefix route (a ++ toLowerCase (decodePath b)).
Proof. intros Hp Hl. unfold route_rest. by rewrite decodePath_plain, toLowerCase_app, Hl. Qed.

Lemma route_rest_plain route path : plain path = true → route_rest route path = strip_prefix route path.
Proof.
  unfold plain. rewrite andb_true_iff, bool_decide_eq_true. intros [Hp Hl].
  unfold route_rest. by rewrite decodePath_id, Hl.
Qed.

(** On a plain path every decoder is the one that changes nothing. *)
Definition literal_decoder : PathDecoder :=
  {| decodePath s := s; decodePath_empty := eq_refl; decodePath_plain _ _ _ := eq_refl |}.

Lemma routes_plain a path : plain path = true → routes a path = @routes literal_decoder a path.
Proof.
  intros Hp.
  assert (∀ r, route_rest r path = @route_rest literal_decoder r path) as H1.
  { intros r. rewrite route_rest_plain by done. unfold route_rest, plain in *. simpl.
    apply andb_true_iff in Hp as [_ Hp%bool_decide_eq_true]. by rewrite Hp. }
  assert (∀ r, matches_end r path = @matches_end literal_decoder r path) as H2
    by (intros r; unfold matches_end; by rewrite H1).
  assert (∀ r, matches_splat r path = @matches_splat literal_decoder r path) as H3
    by (intros r; unfold matches_splat; by rewrite H1).
  unfold routes. rewrite H2, H3.
  destruct (@matches_end literal_decoder "/login" path); [done|].
  destruct (@matches_splat literal_decoder "/setup" path); [done|].
  induction protected_pages as [|q l IH]; [done|]. cbn [List.find]. rewrite H2.
  by destruct (@matches_end literal_decoder q.1 path).
Qed.

(** A path that the gate takes for the wizard's matches no other route. *)
Lemma setup_only path r :
  starts_with SETUP_PATH_PREFIX path = true → r ∈ "/login" :: map fst protected_pages →
  matches_end r path = false.
Proof.
  intros [t ->]%starts_with_app Hr. unfold matches_end, SETUP_PATH_PREFIX.
  rewrite route_rest_app by done. generalize (toLowerCase (decodePath t)). intros u.
  cbn [map fst protected_pages] in Hr. rewrite !elem_of_cons, elem_of_nil in Hr.
  by repeat destruct Hr as [->|Hr].
Qed.

Lemma plain_wizard path :
  plain path = true → matches_splat SETUP_PATH_PREFIX path = true →
  starts_with SETUP_PATH_PREFIX path = true.
Proof.
  intros Hp. unfold matches_splat, starts_with. rewrite route_rest_plain by done.
  by destruct (strip_prefix _ path).
Qed.

(** What the routes do on any path. *)
Lemma routes_cases a path :
  (∃ p, routes a path = Show p ∧ p ≠ NoHalowPage ∧ p ≠ Loading
    ∧ (protected p = true → isAuthenticated a = true ∧ loading a = false
                            ∧ starts_with SETUP_PATH_PREFIX path = false)
    ∧ (p = SetupWizardPage → matches_splat SETUP_PATH_PREFIX path = true)
    ∧ (starts_with SETUP_PATH_PREFIX path = true → p = SetupWizardPage ∨ p = Blank))
  ∨ (routes a path = Navigate "/" ∧ isAuthenticated a = true
     ∧ starts_with SETUP_PATH_PREFIX path = false)
  ∨ (routes a path = Navigate "/login" ∧ isAuthenticated a = false ∧ loading a = false
     ∧ starts_with SETUP_PATH_PREFIX path = false).
Proof.
  assert (∀ r, r ∈ "/login" :: map fst protected_pages → matches_end r path = true →
    starts_with SETUP_PATH_PREFIX path = false) as Hno.
  { intros r Hr Hm. apply not_true_iff_false. intros Hs. by rewrite (setup_only _ r Hs Hr) in Hm. }
  unfold routes. destruct (matches_end "/login" path) eqn:Hl.
  { assert (starts_with SETUP_PATH_PREFIX path = false) as Hs by (apply (Hno "/login"); [by left|done]).
    destruct (isAuthenticated a) eqn:Ha; [by right; left|]. left. exists LoginPage. rewrite Hs. by split_and?. }
  destruct (matches_splat "/setup" path) eqn:Hp.
  { left. exists SetupWizardPage. split_and?; try done. by left. }
  destruct (List.find _ protected_pages) as [[q p]|] eqn:Hf.
  2: { left. exists Blank. split_and?; try done. by right. }
  apply List.find_some in Hf as [Hin Hq]. simpl in Hq.
  assert (starts_with SETUP_PATH_PREFIX path = false) as H1.
  { apply (Hno q); [|done]. right. apply list_elem_of_fmap. exists (q, p). split; [done|].
    by apply list_elem_of_In. }
  assert (protected p = true ∧ p ≠ NoHalowPage ∧ p ≠ Loading
    ∧ p ≠ SetupWizardPage ∧ p ≠ Blank) as (H2 & H3 & H4 & H5 & H6).
  { clear Hq. by repeat (destruct Hin as [[= <- <-]|Hin]; [vm_compute; split_and?|]). }
  unfold ProtectedRoute. rewrite H1. destruct (loading a) eqn:Hlo.
  { left. exists Blank. by split_and?. }
  destruct (isAuthenticated a) eqn:Ha; simpl; [|by right; right].
  left. exists p. split_and?; try done.
Qed.
End Matching.

(** *** The shell *)

Lemma steps_for_cases r : steps_for r = if decide (r = MESH_GATE)
  then [identity; mesh_step; uplink_step; aps_step; password_step; review_step]
  else [identity; mesh_step; aps_step; password_step; review_step].
Proof. by destruct r. Qed.

Lemma reducer_role s a w :
  reducer s a = Some w → (∀ v, a ≠ SET_ROLE v) → a ≠ RESET → role w = role s.
Proof.
  intros H Hr Hs. destruct a; simpl in H; try (injection H as <-; done); try congruence.
  - destruct (halow payload); [|done]. injection H as <-. unfold apply_mesh_join.
    destruct (backhaul payload); [|done]. by destruct (join_backhaul _ _ _ _) as [[? ?] ?].
  - injection H as <-. unfold set_ap. by destruct (find_ap _ _) as [[]|].
  - injection H as <-. unfold set_radio_mode. by destruct (find_ap _ _) as [[]|].
Qed.

Definition shell_inv (s : shell) : Prop :=
  wizard_inv (wiz s) ∧ currentIndex s < length (steps s) ∧ (confirmReset s = true → currentIndex s = 0 ∧ alreadyConfigured_now s = true).

Lemma steps_length s : 5 ≤ length (steps s).
Proof. unfold steps. rewrite steps_for_cases. case_decide; simpl; lia. Qed.

Lemma identity_first s : step s = Some identity ↔ currentIndex s = 0.
Proof.
  unfold step, steps. rewrite steps_for_cases. split; [|intros ->; by case_decide].
  intros H. destruct (currentIndex s) as [|i]; [done|].
  case_decide; by do 6 (destruct i as [|i]; [done|]).
Qed.

Lemma advance_lt s : currentIndex (advance s) < length (steps (advance s)).
Proof.
  pose proof (steps_length s). change (steps (advance s)) with (steps s). unfold advance, goto. cbn [currentIndex]. lia.
Qed.

Lemma shell_inv_step s s' : shell_inv s → shell_step s s' → shell_inv s'.
Proof.
  intros (Hw & Hi & Hc) H. destruct H as
    [s answer tz Hst He|s k a w Hr Hk Hd Hu Hw'|s Hr H0|s Hr H0 Hb|s Hr Hcr|s Hr Hcr|s Hr|s Hr Hcs|s Hr Hcs|s Hl];
    unfold shell_inv in *.
  - destruct answer as [st|]; [|done]. split_and?; [|done|].
    + eapply wizard_inv_step; [exact Hw|]. by exists (HYDRATE_FROM_STATUS (Some st) tz).
    + intros Hcr. destruct (Hc Hcr) as [_ H]. unfold alreadyConfigured_now in H. by rewrite Hst in H.
  - split_and?; [eapply wizard_inv_step; [exact Hw|by exists a]| |done].
    destruct (decide (k = identity)) as [->|Hne].
    + apply identity_first in Hk. pose proof (steps_length (set_wiz w s)). simpl in *. lia.
    + unfold steps. simpl. rewrite (reducer_role _ _ _ Hw'); [done|..]; destruct k; destruct a; done.
  - split_and?; [done| |]; unfold steps in *; simpl in *; [lia|].
    intros Hcr. by destruct (Hc Hcr).
  - unfold goNext. destruct (bool_decide (step s = Some identity) && alreadyConfigured_now s) eqn:Hid.
    + apply andb_true_iff in Hid as [Hid%bool_decide_eq_true Hac]. split_and?; [done|done|].
      intros _. split; [by apply identity_first|done].
    + split_and?; [done|apply advance_lt|].
      intros Hcr. destruct (Hc Hcr) as [H1 H2]. rewrite H2, andb_true_r in Hid.
      apply bool_decide_eq_false in Hid. destruct Hid. by apply identity_first.
  - split_and?; [done|apply advance_lt|done].
  - by split_and?.
  - by split_and?.
  - by split_and?.
  - by split_and?.
  - lia.
Qed.

Lemma shell_reachable se s : rtc shell_step (shell_init se) s → shell_inv s.
Proof.
  revert s. apply rtc_ind_r; [|intros s1 s2 _; by eauto using shell_inv_step].
  unfold shell_inv. split_and?; [apply wizard_reachable, rtc_refl|cbn [currentIndex shell_init]; pose proof (steps_length (shell_init se)); lia|done].
Qed.

(** *** The gate *)

Section Gate.
Context `{PathDecoder}.

(** Where the application redirects to. *)
Lemma routes_root a : ∃ p, routes a "/" = ProtectedRoute a (Show p) ∧ p = DashboardPage.
Proof.
  exists DashboardPage. split; [|done]. by rewrite routes_plain.
Qed.

Lemma routes_login a :
  routes a "/login" = if isAuthenticated a then Navigate "/" else Show LoginPage.
Proof. by rewrite routes_plain. Qed.

(** Open gates. *)
Lemma open_settles g a path :
  g = WizardHidden ∨ g = WizardDismissed →
  (g = WizardHidden → starts_with SETUP_PATH_PREFIX path = false) →
  ∃ p path', settle 1 (Some g) a path = Some (p, path') ∧ SetupGate (Some g) a path' = Show p
    ∧ allowed g a path' p.
Proof.
  intros Hg Hpath.
  assert (∀ q, (g = WizardHidden → starts_with SETUP_PATH_PREFIX q = false) →
    SetupGate (Some g) a q = routes a q) as Heq.
  { intros q Hq. destruct Hg as [->| ->]; simpl; [by rewrite (Hq eq_refl)|done]. }
  assert (∀ q p, (g = WizardHidden → starts_with SETUP_PATH_PREFIX q = false) →
    routes a q = Show p → allowed g a q p) as Hal.
  { intros q p Hq Hr. unfold allowed. destruct (routes_cases a q) as [(p' & H1 & H2 & H3 & H4 & H5 & _)|[H'|H']];
      [|destruct H' as [H' _]; by rewrite H' in Hr..]. rewrite H1 in Hr. injection Hr as ->.
    split_and?; [intros Hp; destruct (H4 Hp) as (G1 & G2 & _); tauto| |split; [done|destruct Hg; congruence]|destruct Hg; congruence|done].
    intros ->. destruct Hg as [Hg|Hg]; [|by right; left]. specialize (Hq Hg). right. right.
    specialize (H5 eq_refl). unfold other_spelling. split_and?; [|done|done]. apply not_true_iff_false. intros Hp.
    by rewrite (plain_wizard q Hp H5) in Hq. }
  cbn [settle]. rewrite (Heq path Hpath).
  destruct (routes_cases a path) as [(p & H1 & _)|[(H1 & Ha & Hs)|(H1 & Ha & Hlo & Hs)]]; rewrite H1.
  - exists p, path. split; [done|]. split; [rewrite Heq by done; exact H1|by apply (Hal path)].
  - rewrite (Heq "/") by done. assert (∃ p, routes a "/" = Show p) as [p Hp].
    { destruct (routes_root a) as (p & -> & _). unfold ProtectedRoute. rewrite Ha.
      destruct (loading a); by eexists. }
    rewrite Hp. exists p, "/". split; [done|]. split; [rewrite Heq by done; exact Hp|by apply (Hal "/")].
  - rewrite (Heq "/login") by done. pose proof (routes_login a) as Hp. rewrite Ha in Hp.
    rewrite Hp. exists LoginPage, "/login". split; [done|]. split; [rewrite Heq by done; exact Hp|by apply (Hal "/login")].
Qed.

Lemma settle_more g a path x : settle 1 g a path = Some x → settle 2 g a path = Some x.
Proof. cbn [settle]. destruct (SetupGate g a path); [done|]. by destruct (SetupGate g a _). Qed.

(** A redirect never leads to another spelling of the wizard's path. *)
Lemma settled_wizard a path q :
  settle 2 (Some WizardHidden) a path = Some (SetupWizardPage, q) → other_spelling q → q = path.
Proof.
  assert (∀ x y, SetupGate (Some WizardHidden) a x = Navigate y → y = "/" ∨ y = "/login") as Hn.
  { intros x y. cbn [SetupGate]. destruct (starts_with _ x); [intros [= <-]; by left|].
    destruct (routes_cases a x) as [(p & -> & _)|[(-> & _)|(-> & _)]]; [done| |];
      intros [= <-]; [by left|by right]. }
  intros Hs (Hp & _). cbn [settle] in Hs.
  destruct (SetupGate (Some WizardHidden) a path) as [p|y] eqn:E1; [by injection Hs as _ <-|].
  apply Hn in E1. destruct (SetupGate (Some WizardHidden) a y) as [p|z] eqn:E2;
    [injection Hs as _ <-; by destruct E1 as [-> | ->]|].
  apply Hn in E2. destruct (SetupGate (Some WizardHidden) a z) as [p|w]; [|done].
  injection Hs as _ <-. by destruct E2 as [-> | ->].
Qed.

Lemma routes_setup a : routes a "/setup" = Show SetupWizardPage.
Proof. by rewrite routes_plain. Qed.
End Gate.

(** ** Properties *)

(** C19: whatever the gate, the session and the path, following redirects ends within
    two of them on a page that stays.  A page of the application is only shown to
    an authenticated operator once the session is known and the gate is open;
    without a HaLow radio the error page and nothing else is shown, and an active
    wizard is never left for another page.  The wizard is only shown when setup is
    still wanted, and never after a status that could not be fetched, at any path
    the gate reads as the router does: the router also ignores case and decodes
    escapes, so it shows the wizard at other spellings of its path, which have an
    upper-case letter or an escape and no [/setup] in front
    ([setup_case_bypass]). *)
Theorem routing_settles `{PathDecoder} (answer : option setup_status) (se : session) (a : auth)
    (path : string) :
  let g := gate_loaded answer se in
  ∃ p path', settle 2 (Some g) a path = Some (p, path')
    ∧ SetupGate (Some g) a path' = Show p
    ∧ allowed g a path' p
    ∧ (answer = None → p ≠ NoHalowPage ∧ (p = SetupWizardPage → path' = path ∧ other_spelling path))
    ∧ (∀ st, answer = Some st → isEnabled st = true → isSetupComplete st = false →
         isSetupDismissed se = false → path' = path ∨ path' = "/setup").
Proof.
  intros g. destruct g eqn:Hg.
  - assert (∃ p path', settle 2 (Some WizardHidden) a path = Some (p, path')
      ∧ SetupGate (Some WizardHidden) a path' = Show p ∧ allowed WizardHidden a path' p) as (p & q & H1 & H2 & H3).
    { destruct (starts_with SETUP_PATH_PREFIX path) eqn:Hs.
      - destruct (open_settles WizardHidden a "/") as (p & q & H1 & H2); [by left|done|].
        exists p, q. split; [|done]. cbn [settle]. unfold SetupGate at 1. by rewrite Hs.
      - destruct (open_settles WizardHidden a path) as (p & q & H1 & H2); [by left|done|].
        exists p, q. split; [by apply settle_more|done]. }
    exists p, q. split_and?; [done|done|done| |].
    + intros _. split; [unfold allowed in H3; naive_solver|]. intros ->.
      destruct H3 as (_ & Hw & _). destruct (Hw eq_refl) as [?|[?|Hsp]]; [done|done|].
      enough (q = path) as -> by done. by apply (settled_wizard a path q).
    + intros st -> He Hc Hd. exfalso. unfold g, gate_loaded, gateStateFromStatus in Hg.
      rewrite He, Hc, Hd in Hg. by destruct (hasHalowRadio st).
  - assert (answer ≠ None) as Hans by (by intros ->). exists NoHalowPage.
    assert (∀ q, allowed NoHalow a q NoHalowPage) by (unfold allowed; naive_solver).
    destruct (starts_with SETUP_PATH_PREFIX path) eqn:Hs.
    + exists path. cbn [settle SetupGate]. rewrite Hs. split_and?; try done. by left.
    + exists "/setup". cbn [settle SetupGate]. rewrite Hs. split_and?; try done. by right.
  - destruct (open_settles WizardDismissed a path) as (p & q & H1 & H2 & H3); [by right|done|].
    exists p, q. split_and?; [by apply settle_more|done|done|by intros ->|].
    intros st -> He Hc Hd. exfalso. unfold g, gate_loaded, gateStateFromStatus in Hg.
    rewrite He, Hc, Hd in Hg. by destruct (hasHalowRadio st).
  - assert (answer ≠ None) as Hans by (by intros ->).
    destruct (starts_with SETUP_PATH_PREFIX path) eqn:Hs.
    + destruct (routes_cases a path) as [(p & H1 & H2 & H3 & H4 & H5 & H6)|[(_ & _ & ?)|(_ & _ & _ & ?)]];
        [|congruence..].
      exists p, path. cbn [settle SetupGate]. rewrite Hs, H1. split_and?; try done; [|by left].
      unfold allowed. destruct (H6 Hs); naive_solver.
    + exists SetupWizardPage, "/setup". cbn [settle SetupGate]. rewrite Hs.
      change SETUP_PATH_PREFIX with "/setup". cbn. rewrite !routes_setup. split_and?; try done; [|by right].
      unfold allowed. naive_solver.
Qed.

(** The wizard's shell.  Whatever is clicked or typed, the current step exists
    (the clamp on a role change never has anything to do), the uplink step is only
    shown to a gate, the profile stays consistent, and on a device that looks
    configured the first step is only left through the confirmation. *)
Theorem wizard_shell_safe (se : session) (s : shell) :
  rtc shell_step (shell_init se) s →
  (∃ k, step s = Some k)
  ∧ currentIndex s < length (steps s)
  ∧ wizard_inv (wiz s)
  ∧ (step s = Some uplink_step → role (wiz s) = MESH_GATE)
  ∧ (∀ s', shell_step s s' → alreadyConfigured_now s = true → currentIndex s = 0 → currentIndex s' ≠ 0 →
       confirmReset s = true).
Proof.
  intros (Hw & Hi & Hc)%shell_reachable. split_and?; [by apply lookup_lt_is_Some_2|done|done|..].
  - intros H%list_elem_of_lookup_2. unfold steps in H. rewrite steps_for_cases in H.
    destruct (decide (role (wiz s) = MESH_GATE)); [done|]. set_solver.
  - intros s' H Hac H0 Hne. destruct H; simpl in Hne; try done; try lia.
    + by destruct answer.
    + unfold goNext in Hne. rewrite Hac, (bool_decide_eq_true_2 _ (proj2 (identity_first s) H0)) in Hne. done.
Qed.

Definition fresh_status : setup_status :=
  {| isEnabled := true; isSetupComplete := false; hasHalowRadio := true; alreadyConfigured := false;
     currentHostname := ""; 
     radios := [{| r_name := "radio0"; r_isHalow := true; r_supportsMeshBackhaul := false; r_band := "s1g";
                   r_hardwareName := "" |}];
     ethernetPorts := []; s_countries := []; currentCountry := ""; timezones := []; currentTimezone := "" |}.

Definition fresh_session : session := {| storage_ok := true; stored := false |}.

Theorem wizard_shell_safe_witness :
  let s := goNext (on_status (Some fresh_status) "" (shell_init fresh_session)) in
  step s = Some mesh_step ∧ currentIndex s < length (steps s).
Proof.
  intros s. split; [reflexivity|]. apply (wizard_shell_safe fresh_session s).
  eapply rtc_l; [by apply (shell_status _ (Some fresh_status) "")|].
  eapply rtc_l; [|apply rtc_refl]. by apply shell_next.
Defined.

(** ** Findings *)

(** A decoder of percent escapes: an escape that is malformed leaves the text as it is. *)
Definition hex_digit (c : ascii) : option N :=
  let n := N_of_ascii c in
  if ((48 <=? n) && (n <=? 57))%N then Some (n - 48)%N
  else if ((97 <=? n) && (n <=? 102))%N then Some (n - 87)%N
  else if ((65 <=? n) && (n <=? 70))%N then Some (n - 55)%N else None.

Fixpoint percent_decode (s : string) : option string :=
  match s with
  | EmptyString => Some ""
  | String c s' =>
      if bool_decide (c = "%"%char) then
        match s' with
        | String h (String l s'') =>
            match hex_digit h, hex_digit l with
            | Some x, Some y => String (ascii_of_N (16 * x + y)) <$> percent_decode s''
            | _, _ => None
            end
        | _ => None
        end
      else String c <$> percent_decode s'
  end.

Lemma percent_decode_plain a b :
  no_percent a = true → percent_decode (a ++ b) = String.append a <$> percent_decode b.
Proof.
  intros Ha. induction a as [|c a IH].
  { change ("" ++ b)%string with b. by destruct (percent_decode b). }
  change (String c a ++ b)%string with (String c (a ++ b)). simpl in *.
  apply andb_true_iff in Ha as [Hc Ha]. apply negb_true_iff in Hc.
  rewrite Hc, IH by done. by destruct (percent_decode b).
Qed.

#[local] Instance percent_decoder : PathDecoder.
Proof.
  refine {| decodePath s := default s (percent_decode s) |}; [done|].
  intros a b Ha. rewrite percent_decode_plain by done. by destruct (percent_decode b).
Defined.

(** The gate compares the path as it is written, the router ignores case and
    decodes escapes: on a device that is set up, and to anyone, other spellings
    show the wizard that [/setup] does not. *)
Theorem setup_case_bypass :
  let a := {| user := None; loading := false; authEnabled := true |} in
  map (settle 2 (Some WizardHidden) a) ["/setup"; "/SETUP"; "/Setup/x"; "/%73etup/"]
  = [Some (LoginPage, "/login"); Some (SetupWizardPage, "/SETUP");
     Some (SetupWizardPage, "/Setup/x"); Some (SetupWizardPage, "/%73etup/")].
Proof. vm_compute. reflexivity. Qed.

(** Next is enabled on a host name that is not a label. *)
Theorem next_with_bad_hostname :
  let s0 := on_status (Some fresh_status) "" (shell_init fresh_session) in
  let s := set_wiz (default initialState (reducer (wiz s0) (SET_HOSTNAME "-bad-"))) s0 in
  rtc shell_step (shell_init fresh_session) s
  ∧ hostnameRFC1123 (hostname (wiz s)) = false
  ∧ shell_step s (goNext s) ∧ step (goNext s) = Some mesh_step.
Proof.
  intros s0 s. split_and?; [|reflexivity|by apply shell_next|reflexivity].
  eapply rtc_l; [by apply (shell_status _ (Some fresh_status) "")|].
  eapply rtc_l; [|apply rtc_refl].
  by apply (shell_dispatch s0 identity (SET_HOSTNAME "-bad-")).
Qed.

(** A status with a HaLow radio alone arms the unload prompt. *)
Theorem untouched_wizard_prompts :
  unload_prompts (on_status (Some fresh_status) "" (shell_init fresh_session)) = true.
Proof. reflexivity. Qed.

Theorem routing_settles_witness :
  ∃ p path', settle 2 (Some WizardHidden) auth_init "/SETUP" = Some (p, path')
    ∧ (p = SetupWizardPage → path' = "/SETUP" ∧ other_spelling "/SETUP").
Proof.
  destruct (routing_settles None fresh_session auth_init "/SETUP") as (p & q & H1 & _ & _ & H2 & _).
  exists p, q. split; [exact H1|]. apply (proj2 (H2 eq_refl)).
Defined.
