(* ===== verification/SetupSteps.v ===== *)
(** [pages/setup/StepIdentity.jsx], [StepMesh.jsx], [StepUplink.jsx],
    [StepAPs.jsx], [StepPassword.jsx], [StepReview.jsx] and [labels.js]: what the
    steps of the wizard show, and the actions their controls offer.

    A step is rendered to the list of its controls and of the texts that depend on
    the state; fixed prose is left out.  The state reached through the controls
    alone is compared with what the server checks. *)
From S2P Require Import Prelude MeshJoin Setup SetupApply SetupRun SetupShell.
Open Scope js_scope.

(** ** Labels *)

(** An object with integer keys, in the order of [Object.entries]. *)
Definition labels (K : Type) : Type := list (K * string).

Definition label_of {K} `{EqDecision K} (l : labels K) (k : K) : option string :=
  snd <$> List.find (λ e, bool_decide (e.1 = k)) l.

Definition ROLE_LABELS : labels MeshRole := [(MESH_POINT, "Mesh Point"); (MESH_GATE, "Mesh Gate")].

Definition MESH_POINT_MODE_LABELS : labels MeshPointMode :=
  [(MP_NONE, "No uplink (mesh-only)"); (EXTENDER, "Extender (bridges Wi-Fi clients onto the mesh)")].

Definition MESH_GATE_MODE_LABELS : labels MeshGateMode :=
  [(ROUTER, "Router (NAT to upstream)"); (ROUTER_FIREWALL, "Router + firewall (untrusted upstream)")].

Definition UPLINK_TYPE_LABELS : labels UplinkType :=
  [(ETHERNET, "Ethernet"); (WIRELESS_STA, "Wireless (Wi-Fi STA)")].

Definition ENCRYPTION_LABELS : labels WifiEncryption :=
  [(SAE, "WPA3 (SAE)"); (PSK2, "WPA2 (PSK2)"); (PSK, "WPA (PSK)");
   (PSK_MIXED, "WPA / WPA2 (mixed, legacy)"); (ENC_NONE, "None (open)");
   (OWE, "OWE (open, encrypted)"); (SAE_MIXED, "WPA2 / WPA3 (mixed)")].

(** ** Controls *)

Record choice := mk_choice { c_selected : bool; c_label : string; c_action : action }.

Inductive node :=
| Alert (tone text : string)
| Note (text : string)
| Shown (label value : string)                        (* a box without a control *)
| Input (label value : string) (maxLength : option Z) (onChange : string → action)
| Select (label : string) (options : list choice)     (* a [LatSelect] *)
| Buttons (label : string) (options : list choice)    (* a radio group *)
| Scan (onDecoded : MeshJoinPayload → action).

Definition choices {V} `{EqDecision V} (value : V) (onChange : V → action) (options : list (V * string)) :
    list choice :=
  map (λ o, mk_choice (bool_decide (o.1 = value)) o.2 (onChange o.1)) options.

(** Options that are their own labels. *)
Definition same_options (l : list string) : list (string * string) := map (λ v, (v, v)) l.

(** [values.map(v => ({ value: v, label: ENCRYPTION_LABELS[v] }))]. *)
Definition encryption_options (l : list WifiEncryption) : list (WifiEncryption * string) :=
  map (λ v, (v, label_of ENCRYPTION_LABELS v ?? "")) l.

(** [cond && <node/>]. *)
Definition show_if (b : bool) (l : list node) : list node := if b then l else [].

(** [a || b] on texts. *)
Definition text_or (a b : string) : string := first_nonempty a b.

(** ** The steps *)

(** [HOSTNAME_RE]: after the first character, whether the last one read may end
    the name. *)
Fixpoint hostname_tail (may_end : bool) (s : string) : bool :=
  match s with
  | EmptyString => may_end
  | String c s => if is_alnum c then hostname_tail true s
                  else bool_decide (c = "-"%char) && hostname_tail false s
  end.

Definition HOSTNAME_RE (s : string) : bool :=
  match s with EmptyString => false | String c s => is_alnum c && hostname_tail true s end.

Definition isValidHostname (s : string) : bool :=
  if decide (s = "") then false else if decide (63 < str_len s)%Z then false else HOSTNAME_RE s.

Section Views.
Context (status : option setup_status).

Definition st_radios : list setup_radio := (radios <$> status) ?? [].
Definition st_countries : list SetupCountry := (s_countries <$> status) ?? [].
Definition st_ports : list string := (ethernetPorts <$> status) ?? [].
Definition halowRadios : list setup_radio := filter r_isHalow st_radios.
(** [staRadios] of the uplink step, [apRadios] of the Wi-Fi step. *)
Definition apRadios : list setup_radio := filter (λ r, negb (r_isHalow r)) st_radios.

Definition country_options : list (string * string) :=
  map (λ c, (code c, (code c ++ " — " ++ text_or (c_name c) (code c))%string)) st_countries.

Definition HOSTNAME_ERROR : string :=
  "Hostname must be 1–63 alphanumeric chars or hyphens (no leading or trailing hyphen).".

Definition StepIdentity (browserZone : string) (s : setup_state) : list node :=
  show_if ((alreadyConfigured <$> status) ?? false)
    [Alert "warn" "This device looks like it has already been configured. Continuing will reset wireless, network, firewall, DHCP, and batman configuration."]
  ++ [Input "Hostname" (hostname s) (Some 63%Z) SET_HOSTNAME]
  ++ show_if (bool_decide (hostname s ≠ "") && negb (isValidHostname (hostname s)))
       [Alert "setup-error" HOSTNAME_ERROR]
  ++ [Note (text_or (hostname s) "openmanet-1" ++ ".local");
      Select "Timezone" (choices (timezone s) SET_TIMEZONE (same_options ((timezones <$> status) ?? [])))]
  ++ show_if (bool_decide (timezone s ≠ "") && bool_decide (timezone s = browserZone))
       [Note "detected from this browser — device clock syncs on apply"]
  ++ [Buttons "Mesh node role"
        (choices (role s) SET_ROLE
           (map (λ v, (v, label_of ROLE_LABELS v ?? "")) [MESH_POINT; MESH_GATE]))].

Definition HIDDEN_MESH_POINT_MODES : list MeshPointMode := [MP_UNSPECIFIED; MP_NONE].

Definition MESH_POINT_MODE_OPTIONS : list (MeshPointMode * string) :=
  filter (λ o : MeshPointMode * string, o.1 ∉ HIDDEN_MESH_POINT_MODES) MESH_POINT_MODE_LABELS.

Definition BANDWIDTH_LABELS : labels Z :=
  [(1%Z, "1 MHz"); (2%Z, "2 MHz"); (4%Z, "4 MHz"); (8%Z, "8 MHz")].

Definition bandwidth_options (l : list Z) : list (Z * string) :=
  map (λ mhz, (mhz, label_of BANDWIDTH_LABELS mhz ?? (pretty mhz ++ " MHz")%string)) l.

Definition countryEntry (s : setup_state) : option SetupCountry :=
  findCountryEntry st_countries (m_countryCode (mesh s)).

Definition legalBandwidths (s : setup_state) : list Z := bandwidthsForCountry (countryEntry s).

Definition mesh_channels (s : setup_state) : list Z :=
  channelsForCountryBandwidth (countryEntry s) (m_bandwidthMhz (mesh s)).

Definition scan_nodes (s : setup_state) : list node :=
  let issues := meshJoinIssues s status in
  Scan (λ payload, APPLY_MESH_JOIN payload st_radios)
  :: match meshJoin s with
     | Some j =>
         let tone := if bool_decide (issues = []) then "ok" else "warn" in
         Alert tone ("Scanned from " ++ text_or (mj_sourceHostname j) "another node" ++ ".")
         :: show_if (bool_decide (mj_backhaulSkippedReason j = "no-capable-radio"))
              [Note "Backhaul skipped: no radio on this device can run the 2.4 GHz mesh backhaul."]
         ++ map Note issues
     | None => []
     end.

Definition radio_node (s : setup_state) : node :=
  match halowRadios with
  | [r] =>
      Shown "Mesh radio"
        (r_name r ++ if bool_decide (r_hardwareName r = "") then "" else "(" ++ r_hardwareName r ++ ")")
  | l => Select "Mesh radio" (choices (m_radioName (mesh s)) (λ v, SET_MESH_FIELD (MF_radioName v))
                                (same_options (map r_name l)))
  end.

Definition country_node (s : setup_state) : node :=
  match st_countries with
  | [] => Shown "Country" "US (regulatory database not installed; falling back to baked-in defaults)"
  | _ => Select "Country"
           (choices (m_countryCode (mesh s)) (λ v, SET_MESH_FIELD (MF_countryCode v)) country_options)
  end.

Definition PASSPHRASE_ERROR : string := "Passphrase must be at least 8 characters.".

(** [pass && pass.length < 8]. *)
Definition too_short (pass : string) : bool :=
  bool_decide (pass ≠ "") && bool_decide (str_len pass < 8)%Z.

Definition StepMesh (s : setup_state) : list node :=
  scan_nodes s
  ++ show_if (bool_decide (halowRadios = []))
       [Alert "crit" "No HaLow radio detected. The wizard cannot continue without one — see the previous screen for details."]
  ++ [radio_node s;
      Input "Mesh ID" (m_meshId (mesh s)) (Some 32%Z) (λ v, SET_MESH_FIELD (MF_meshId v));
      Shown "Encryption" (label_of ENCRYPTION_LABELS SAE ?? "");
      Input "Mesh passphrase" (m_passphrase (mesh s)) (Some 63%Z) (λ v, SET_MESH_FIELD (MF_passphrase v))]
  ++ show_if (too_short (m_passphrase (mesh s))) [Alert "setup-error" PASSPHRASE_ERROR]
  ++ [country_node s;
      Select "Bandwidth" (choices (m_bandwidthMhz (mesh s)) (λ v, SET_MESH_FIELD (MF_bandwidthMhz v))
                            (bandwidth_options (legalBandwidths s)));
      Select "Channel" (choices (m_channel (mesh s)) (λ v, SET_MESH_FIELD (MF_channel v))
                          (map (λ c : Z, (c, pretty c)) (mesh_channels s)))]
  ++ show_if (bool_decide (role s = MESH_GATE))
       [Select "Gate mode" (choices (meshgateMode s) SET_MESHGATE_MODE MESH_GATE_MODE_LABELS)]
  ++ show_if (bool_decide (role s = MESH_POINT))
       [Select "Mesh point mode" (choices (meshpointMode s) SET_MESHPOINT_MODE MESH_POINT_MODE_OPTIONS)].

Definition STA_ENCRYPTION_VALUES : list WifiEncryption := [SAE; PSK2; PSK_MIXED; PSK; OWE; ENC_NONE].

(** [encryption !== NONE && encryption !== OWE]. *)
Definition showPassphrase (e : WifiEncryption) : bool :=
  bool_decide (e ≠ ENC_NONE) && bool_decide (e ≠ OWE).

Definition StepUplink (s : setup_state) : list node :=
  let u := uplink s in
  let w := u_wireless u in
  [Select "Uplink type"
     (choices (u_type u) SET_UPLINK_TYPE
        (map (λ v, (v, label_of UPLINK_TYPE_LABELS v ?? "")) [ETHERNET; WIRELESS_STA]))]
  ++ show_if (bool_decide (u_type u = ETHERNET))
       [match st_ports with
        | [] => Alert "warn" "No ethernet ports detected."
        | ports => Select "Ethernet port" (choices (u_ethernetPort u) SET_UPLINK_FIELD (same_options ports))
        end]
  ++ show_if (bool_decide (u_type u = WIRELESS_STA))
       ([match apRadios with
         | [] => Alert "warn" "No non-HaLow radios available for an STA uplink."
         | l => Select "STA radio" (choices (w_radioName w) (λ v, SET_UPLINK_WIRELESS (WF_radioName v))
                                      (same_options (map r_name l)))
         end;
         Input "Upstream SSID" (w_ssid w) (Some 32%Z) (λ v, SET_UPLINK_WIRELESS (WF_ssid v));
         Select "Encryption" (choices (w_encryption w) (λ v, SET_UPLINK_WIRELESS (WF_encryption v))
                                (encryption_options STA_ENCRYPTION_VALUES))]
        ++ show_if (showPassphrase (w_encryption w))
             [Input "Upstream passphrase" (w_passphrase w) (Some 63%Z)
                (λ v, SET_UPLINK_WIRELESS (WF_passphrase v))]).

Definition AP_ENCRYPTION_VALUES : list WifiEncryption := [SAE; PSK2; SAE_MIXED; OWE; ENC_NONE].

Definition RADIO_MODES : list (radio_mode * string) :=
  [(ModeOff, "Off"); (ModeAp, "Access point"); (ModeBackhaul, "Mesh backhaul")].

Definition radioMode (ap : ap_profile) : radio_mode :=
  if ap_meshBackhaul ap then ModeBackhaul else if ap_enabled ap then ModeAp else ModeOff.

Definition BACKHAUL_BANDWIDTH_OPTIONS : list (Z * string) :=
  (0%Z, "Default (40 MHz)") :: map (λ mhz : Z, (mhz, (pretty mhz ++ " MHz")%string)) BACKHAUL_BANDWIDTHS.

Definition BACKHAUL_CHANNEL_OPTIONS : list (Z * string) :=
  (0%Z, "Default (8)") :: map (λ ch : Z, (ch, pretty ch)) BACKHAUL_CHANNELS_2G.

(** [state.aps.find(a => a.radioName === radio.name) ?? apDefaults(radio.name)]. *)
Definition ap_of (name : string) (s : setup_state) : ap_profile :=
  (snd <$> find_ap name (aps s)) ?? apDefaults name.

Definition radio_modes (r : setup_radio) : list (radio_mode * string) :=
  if r_supportsMeshBackhaul r then RADIO_MODES
  else filter (λ m : radio_mode * string, m.1 ≠ ModeBackhaul) RADIO_MODES.

Definition ap_nodes (r : setup_radio) (ap : ap_profile) (s : setup_state) : list node :=
  [Input ("SSID " ++ r_name r) (ap_ssid ap) (Some 32%Z) (λ v, setField (r_name r) (AF_ssid v) s);
   Select ("Encryption on " ++ r_name r)
     (choices (ap_encryption ap) (λ v, setField (r_name r) (AF_encryption v) s)
        (encryption_options AP_ENCRYPTION_VALUES))]
  ++ show_if (showPassphrase (ap_encryption ap))
       (Input ("Passphrase " ++ r_name r) (ap_passphrase ap) (Some 63%Z)
          (λ v, setField (r_name r) (AF_passphrase v) s)
        :: show_if (too_short (ap_passphrase ap)) [Alert "setup-error" PASSPHRASE_ERROR]).

Definition occupies (ap : ap_profile) : string :=
  formatBackhaulFootprint
    (backhaulFootprint (or_num (ap_backhaulChannel ap) 8) (or_num (ap_backhaulBandwidthMhz ap) 40)).

Definition backhaul_nodes (r : setup_radio) (ap : ap_profile) (s : setup_state) : list node :=
  show_if (ap_backhaulFromScan ap)
    [Alert "ok" ("Filled from " ++ text_or (match meshJoin s with Some j => mj_sourceHostname j | None => "" end)
                                     "a scanned code" ++ "'s code.")]
  ++ [Input ("Backhaul mesh ID " ++ r_name r) (ap_backhaulMeshId ap) (Some 32%Z)
        (λ v, setField (r_name r) (AF_backhaulMeshId v) s);
      Input ("Backhaul passphrase " ++ r_name r) (ap_backhaulPassphrase ap) (Some 63%Z)
        (λ v, setField (r_name r) (AF_backhaulPassphrase v) s)]
  ++ show_if (too_short (ap_backhaulPassphrase ap)) [Alert "setup-error" PASSPHRASE_ERROR]
  ++ [Select "Backhaul bandwidth"
        (choices (ap_backhaulBandwidthMhz ap) (λ v, setField (r_name r) (AF_backhaulBandwidthMhz v) s)
           BACKHAUL_BANDWIDTH_OPTIONS);
      Select "Backhaul channel"
        (choices (ap_backhaulChannel ap) (λ v, setField (r_name r) (AF_backhaulChannel v) s)
           BACKHAUL_CHANNEL_OPTIONS)]
  ++ show_if (bool_decide (occupies ap ≠ "")) [Note ("Occupies " ++ occupies ap)]
  ++ [Select "Backhaul country"
        (choices (ap_backhaulCountryCode ap) (λ v, setField (r_name r) (AF_backhaulCountryCode v) s)
           (("", ("Same as mesh radio (" ++ text_or (m_countryCode (mesh s)) "unset" ++ ")")%string)
            :: country_options))].

Definition APRow (s : setup_state) (r : setup_radio) : list node :=
  let ap := ap_of (r_name r) s in
  [Note (r_name r)]
  ++ show_if (bool_decide (r_band r ≠ "")) [Note (r_band r)]
  ++ show_if (bool_decide (r_hardwareName r ≠ "")) [Note (r_hardwareName r)]
  ++ [Buttons ("Mode on " ++ r_name r) (choices (radioMode ap) (SET_RADIO_MODE (r_name r)) (radio_modes r))]
  ++ match radioMode ap with
     | ModeOff => []
     | ModeAp => ap_nodes r ap s
     | ModeBackhaul => backhaul_nodes r ap s
     end.

Definition detected (r : setup_radio) : string :=
  (r_name r ++ " (" ++ text_or (r_band r) "band ?"
   ++ (if r_isHalow r then ", HaLow — reserved for mesh" else "") ++ ")")%string.

Definition StepAPs (s : setup_state) : list node :=
  match apRadios with
  | [] =>
      Note "This device has no non-HaLow radios available for client APs. You can still continue without configuring any."
      :: match st_radios with
         | [] => [Alert "warn" "No radios were reported by the daemon. If this device has built-in Wi-Fi, ensure the kernel modules and /etc/config/wireless are populated, then reload the wizard."]
         | l => [Note ("Detected radios: " ++ String.concat "; " (map detected l) ++ ".")]
         end
  | l => concat (map (APRow s) l)
  end.

Definition PASSWORD_ERROR : string := "Password must be at least 8 characters.".
Definition MISMATCH_ERROR : string := "Passwords don't match.".

Definition StepPassword (s : setup_state) : list node :=
  [Input "Password" (adminPassword s) None SET_ADMIN_PASSWORD]
  ++ show_if (too_short (adminPassword s)) [Alert "setup-error" PASSWORD_ERROR]
  ++ [Input "Confirm password" (adminPasswordConfirm s) None SET_ADMIN_PASSWORD_CONFIRM]
  ++ show_if (bool_decide (adminPasswordConfirm s ≠ "")
              && bool_decide (adminPassword s ≠ adminPasswordConfirm s))
       [Alert "setup-error" MISMATCH_ERROR].

(** The body of a step.  The controls of the review ([ReviewSummary] and Apply,
    below) dispatch nothing. *)
Definition StepBody (browserZone : string) (k : step_key) (s : setup_state) : list node :=
  match k with
  | identity => StepIdentity browserZone s
  | mesh_step => StepMesh s
  | uplink_step => StepUplink s
  | aps_step => StepAPs s
  | password_step => StepPassword s
  | review_step => []
  end.

(** The effects of a step that is mounted. *)
Definition step_effects (k : step_key) (s : setup_state) : list action :=
  match k with
  | mesh_step => mesh_actions status s
  | uplink_step => uplink_actions status s
  | _ => []
  end.
End Views.

(** ** What the controls dispatch *)

Section Runs.
Context {B : Type} (base64Decode : string → option B) (fromBinary : B → option MeshJoinPayload).
Context (status : option setup_status) (browserZone : string).

(** A text typed into an input that showed [old]: an over-long text (set from
    elsewhere) can only get shorter. *)
Definition typed (maxLength : option Z) (old new : string) : Prop :=
  match maxLength with
  | Some m => (str_len new <= m ∨ str_len new <= str_len old)%Z
  | None => True
  end.

Definition offers (n : node) (a : action) : Prop :=
  match n with
  | Input _ old m f => ∃ v, typed m old v ∧ a = f v
  | Select _ os | Buttons _ os => ∃ c, c ∈ os ∧ a = c_action c
  | Scan f => ∃ text payload, decodeMeshJoinText base64Decode fromBinary text = inl payload ∧ a = f payload
  | Alert _ _ | Note _ | Shown _ _ => False
  end.

(** An action of the step [k]: a control is used, or an effect runs. *)
Definition page_action (k : step_key) (s : setup_state) (a : action) : Prop :=
  Exists (λ n, offers n a) (StepBody status browserZone k s) ∨ a ∈ step_effects status k s.

Definition is_scan (a : action) : bool := match a with APPLY_MESH_JOIN _ _ => true | _ => false end.

(** A step of an operator who scans no code. *)
Definition typed_step (s s' : setup_state) : Prop :=
  ∃ k a, k ∈ steps_for (role s) ∧ page_action k s a ∧ is_scan a = false ∧ reducer s a = Some s'.

(** The states reached after the status has arrived. *)
Definition typed_run (s : setup_state) : Prop :=
  rtc typed_step (hydrate status browserZone initialState) s.

(** What the controls and effects guarantee of an action. *)
Definition ap_field_legal (ap : ap_profile) (f : ap_field) : Prop :=
  match f with
  | AF_encryption v => v ∈ AP_ENCRYPTION_VALUES
  | AF_backhaulBandwidthMhz v => v ∈ 0%Z :: BACKHAUL_BANDWIDTHS
  | AF_backhaulChannel v => v ∈ 0%Z :: BACKHAUL_CHANNELS_2G
  | AF_backhaulCountryCode v => v ∈ "" :: map code (st_countries status)
  | AF_ssid v => typed (Some 32%Z) (ap_ssid ap) v
  | AF_passphrase v => typed (Some 63%Z) (ap_passphrase ap) v
  | AF_backhaulPassphrase v => typed (Some 63%Z) (ap_backhaulPassphrase ap) v
  | AF_backhaulMeshId _ => True
  end.

Definition legal_action (s : setup_state) (a : action) : Prop :=
  match a with
  | SET_HOSTNAME _ | SET_ADMIN_PASSWORD _ | SET_ADMIN_PASSWORD_CONFIRM _ => True
  | SET_TIMEZONE v => v ∈ (timezones <$> status) ?? []
  | SET_ROLE v => v ∈ [MESH_POINT; MESH_GATE]
  | SET_MESHPOINT_MODE v => role s = MESH_POINT ∧ v = EXTENDER
  | SET_MESHGATE_MODE v => role s = MESH_GATE ∧ v ∈ [ROUTER; ROUTER_FIREWALL]
  | SET_MESH_FIELD f =>
      match f with
      | MF_radioName v => v ∈ map r_name (halowRadios status)
      | MF_countryCode v => v ∈ map code (st_countries status)
      | MF_bandwidthMhz v => v ∈ legalBandwidths status s
      | MF_channel v => v ∈ mesh_channels status s
      | MF_encryption _ => False
      | MF_meshId v => typed (Some 32%Z) (m_meshId (mesh s)) v
      | MF_passphrase v => typed (Some 63%Z) (m_passphrase (mesh s)) v
      end
  | APPLY_MESH_JOIN payload rs => halow payload ≠ None ∧ rs = st_radios status
  | SET_UPLINK_TYPE v => v ∈ [ETHERNET; WIRELESS_STA]
  | SET_UPLINK_FIELD v => v ∈ st_ports status
  | SET_UPLINK_WIRELESS f =>
      match f with
      | WF_radioName v => v ∈ map r_name (apRadios status)
      | WF_encryption v => v ∈ STA_ENCRYPTION_VALUES
      | WF_ssid v => typed (Some 32%Z) (w_ssid (u_wireless (uplink s))) v
      | WF_passphrase v => typed (Some 63%Z) (w_passphrase (u_wireless (uplink s))) v
      end
  | SET_AP _ => ∃ r f, r ∈ apRadios status ∧ ap_field_legal (ap_of (r_name r) s) f ∧ a = setField (r_name r) f s
  | SET_RADIO_MODE name mode =>
      ∃ r, r ∈ apRadios status ∧ name = r_name r ∧ (mode = ModeBackhaul → r_supportsMeshBackhaul r = true)
  | REMOVE_AP _ | RESET | HYDRATE_FROM_STATUS _ _ => False
  end.

(** A profile of a radio that such actions make. *)
Definition ap_legal (ap : ap_profile) : Prop :=
  ap_encryption ap ∈ AP_ENCRYPTION_VALUES
  ∧ ap_backhaulBandwidthMhz ap ∈ 0%Z :: BACKHAUL_BANDWIDTHS
  ∧ ap_backhaulChannel ap ∈ 0%Z :: BACKHAUL_CHANNELS_2G
  ∧ ap_backhaulCountryCode ap ∈ "" :: map code (st_countries status)
  ∧ ap_backhaulFromScan ap = false
  ∧ (str_len (ap_ssid ap) <= 32)%Z ∧ (str_len (ap_passphrase ap) <= 63)%Z
  ∧ (str_len (ap_backhaulPassphrase ap) <= 63)%Z
  ∧ ∃ r, r ∈ apRadios status ∧ ap_radioName ap = r_name r
         ∧ (ap_meshBackhaul ap = true → r_supportsMeshBackhaul r = true).

Definition mesh_legal (m : mesh_slice) : Prop :=
  m_encryption m = SAE ∧ m_fromScan m = false
  ∧ (str_len (m_meshId m) <= 32)%Z ∧ (str_len (m_passphrase m) <= 63)%Z
  ∧ (m_radioName m = "" ∨ m_radioName m ∈ map r_name (halowRadios status))
  ∧ m_countryCode m ∈ match st_countries status with [] => [""] | cs => map code cs end.

Definition uplink_legal (u : uplink_slice) : Prop :=
  u_ethernetPort u ∈ "" :: st_ports status
  ∧ w_radioName (u_wireless u) ∈ "" :: map r_name (apRadios status)
  ∧ w_encryption (u_wireless u) ∈ STA_ENCRYPTION_VALUES
  ∧ (str_len (w_ssid (u_wireless u)) <= 32)%Z ∧ (str_len (w_passphrase (u_wireless u)) <= 63)%Z.

Definition zone_legal (z : string) : Prop :=
  z = "" ∨ z ∈ (timezones <$> status) ?? [] ∨ z = (currentTimezone <$> status) ?? "".

Definition typed_inv (s : setup_state) : Prop :=
  wizard_inv s ∧ mesh_legal (mesh s) ∧ uplink_legal (uplink s) ∧ Forall ap_legal (aps s)
  ∧ zone_legal (timezone s) ∧ meshJoin s = None.
End Runs.

(** ** The review *)

(** [ReviewSummary]: its rows. *)
Definition client_aps (l : list (string * string)) : string :=
  match l with [] => "none" | l => String.concat ", " (map (λ e, e.1 ++ ": " ++ e.2)%string l) end.

Definition ReviewSummary (s : setup_state) : list (string * string) :=
  let apEntries := filter (λ a, ap_enabled a) (aps s) in
  let backhaul := List.find ap_meshBackhaul (aps s) in
  [("Hostname", hostname s); ("Role", label_of ROLE_LABELS (role s) ?? "?")]
  ++ (if decide (role s = MESH_POINT)
      then [("Mesh point mode", label_of MESH_POINT_MODE_LABELS (meshpointMode s) ?? "?")] else [])
  ++ (if decide (role s = MESH_GATE)
      then [("Gate mode", label_of MESH_GATE_MODE_LABELS (meshgateMode s) ?? "?");
            ("Uplink", label_of UPLINK_TYPE_LABELS (u_type (uplink s)) ?? "?")] else [])
  ++ [("Mesh radio", m_radioName (mesh s)); ("Mesh ID", m_meshId (mesh s))]
  ++ (if meshJoin s is Some j
      then [("Source", ("scanned from " ++ text_or (mj_sourceHostname j) "another node")%string)] else [])
  ++ [("Country", text_or (m_countryCode (mesh s)) "(not set)");
      ("Channel / bandwidth",
        (pretty (m_channel (mesh s)) ++ " @ " ++ pretty (m_bandwidthMhz (mesh s)) ++ " MHz")%string);
      ("Mesh encryption", label_of ENCRYPTION_LABELS (m_encryption (mesh s)) ?? "?");
      ("Client APs", client_aps (map (λ a, (ap_radioName a, ap_ssid a)) apEntries));
      ("Mesh backhaul",
        if backhaul is Some b then (ap_radioName b ++ ": " ++ ap_backhaulMeshId b)%string else "none")]
  ++ (if backhaul is Some b
      then [("Backhaul channel",
              (pretty (or_num (ap_backhaulChannel b) 8) ++ " · "
               ++ pretty (or_num (ap_backhaulBandwidthMhz b) 40) ++ " MHz · "
               ++ text_or (ap_backhaulCountryCode b) (text_or (m_countryCode (mesh s)) "—"))%string)] else []).

(** The same rows, read off the message that is sent. *)
Definition profile_summary (source : option string) (p : MeshNodeProfile) : list (string * string) :=
  let m := p_mesh p in
  let sent := List.find (λ a, bool_decide (ra_meshBackhaul a ≠ None)) (p_aps p) in
  let backhaul := sent ≫= λ a, (λ b, (ra_radioName a, b)) <$> ra_meshBackhaul a in
  [("Hostname", p_hostname p); ("Role", label_of ROLE_LABELS (p_role p) ?? "?")]
  ++ match p_deviceMode p with
     | MeshpointMode v => [("Mesh point mode", label_of MESH_POINT_MODE_LABELS v ?? "?")]
     | MeshgateMode v => [("Gate mode", label_of MESH_GATE_MODE_LABELS v ?? "?")]
     | NoMode => []
     end
  ++ (if p_uplink p is Some u then [("Uplink", label_of UPLINK_TYPE_LABELS (pu_type u) ?? "?")] else [])
  ++ [("Mesh radio", mr_radioName m); ("Mesh ID", mr_meshId m)]
  ++ (if source is Some h then [("Source", ("scanned from " ++ h)%string)] else [])
  ++ [("Country", text_or (mr_countryCode m) "(not set)");
      ("Channel / bandwidth", (pretty (mr_channel m) ++ " @ " ++ pretty (mr_bandwidthMhz m) ++ " MHz")%string);
      ("Mesh encryption", label_of ENCRYPTION_LABELS (mr_encryption m) ?? "?");
      ("Client APs",
        client_aps (map (λ a, (ra_radioName a, ra_ssid a)) (filter (λ a, ra_enabled a) (p_aps p))));
      ("Mesh backhaul", if backhaul is Some (r, b) then (r ++ ": " ++ mb_meshId b)%string else "none")]
  ++ (if backhaul is Some (_, b)
      then [("Backhaul channel",
              (pretty (or_num (mb_channel b) 8) ++ " · " ++ pretty (or_num (mb_bandwidthMhz b) 40)
               ++ " MHz · " ++ text_or (mb_countryCode b) (text_or (mr_countryCode m) "—"))%string)] else []).

Definition rebootNotice (hostname : string) : string :=
  ("The device reboots itself about 2–3 minutes after apply and comes back on its final mesh address; "
   ++ text_or hostname "hostname" ++ ".local keeps working.")%string.

Definition login_url (hostname : string) : string := ("https://" ++ hostname ++ ".local:8081/login")%string.

Definition phase_name (p : Phase) : string :=
  match p with
  | PH_UNSPECIFIED => "UNSPECIFIED" | VALIDATE => "VALIDATE" | SNAPSHOT => "SNAPSHOT"
  | RESET_WIRELESS => "RESET_WIRELESS" | RESET_NETWORK => "RESET_NETWORK" | HOSTNAME => "HOSTNAME"
  | PH_SET_TIMEZONE => "SET_TIMEZONE" | BASE_NETWORK => "BASE_NETWORK" | WIRELESS_MESH => "WIRELESS_MESH"
  | PER_RADIO_AP_STA => "PER_RADIO_AP_STA" | SCENARIO_TOPOLOGY => "SCENARIO_TOPOLOGY"
  | BATMAN_ADV => "BATMAN_ADV" | MESH11SD => "MESH11SD" | COMMIT => "COMMIT" | PASSWORD => "PASSWORD"
  | RELOAD_SERVICES => "RELOAD_SERVICES" | PERSIST_FLAGS => "PERSIST_FLAGS" | TERMINAL => "TERMINAL"
  end.

Definition phase_word (st : option phase_status) : string :=
  match st with
  | Some PStarted => "started" | Some PDone => "done" | Some PFailed => "failed" | None => "—"
  end.

(** What [StepReview] shows. *)
Inductive review_view :=
| SuccessPanel (ssid : option string) (url notice : string)
| FailurePanel (text : string) (failed_phase : option string)
| AmbiguousPanel (url notice : string)
| ReviewPanel (notice : string) (rows : list (string * string)) (blockers : list string)
    (applyDisabled : bool) (applyText : string) (progress : list (string * string)).

Definition StepReview (st : option setup_status) (s : setup_state) (r : review) : review_view :=
  match terminal r with
  | Some Success =>
      let ssid := (expectedSsid <$> terminalResult r) ?? "" in
      SuccessPanel (if decide (ssid = "") then None else Some ssid)
        (text_or ((expectedUrl <$> terminalResult r) ?? "") (login_url (hostname s)))
        (rebootNotice (hostname s))
  | Some Failure =>
      FailurePanel ((snd <$> phaseError r) ?? "The wizard could not complete.")
        ((λ e, phase_name e.1) <$> phaseError r)
  | Some Ambiguous => AmbiguousPanel (login_url (hostname s)) (rebootNotice (hostname s))
  | None =>
      let blockers := applyBlockers s st in
      ReviewPanel (rebootNotice (hostname s)) (ReviewSummary s)
        (if busy r then [] else blockers)
        (busy r || negb (bool_decide (blockers = [])))
        (if busy r then "Applying…" else "Apply")
        (if busy r then map (λ e, (e.2, phase_word (phaseMap r e.1))) PHASE_DEFS else [])
  end.

(** [components/Stepper.jsx]: the row of steps. *)
Inductive dot := Done_ | Active | Future.

Definition Stepper (steps : list string) (currentIndex : nat) : list (dot * string * string) :=
  imap (λ i label,
    if decide (i < currentIndex) then (Done_, "✓", label)
    else if decide (i = currentIndex) then (Active, pretty (Z.of_nat (i + 1)), label)
    else (Future, pretty (Z.of_nat (i + 1)), label)) steps.

(** ** Lemmas: the controls *)

Lemma Exists_show_if (P : node → Prop) b l : Exists P (show_if b l) ↔ b = true ∧ Exists P l.
Proof. destruct b; simpl; [tauto|]. rewrite Exists_nil. naive_solver. Qed.

Lemma label_option {K} (o : K * string) (l : list K) (g : K → string) :
  o ∈ map (λ v, (v, g v)) l → o.1 ∈ l.
Proof. by intros (v & -> & Hv)%list_elem_of_fmap. Qed.

Lemma same_option (o : string * string) l : o ∈ same_options l → o.1 ∈ l.
Proof. by intros (v & -> & Hv)%list_elem_of_fmap. Qed.

Section Controls.
Context {B : Type} (base64Decode : string → option B) (fromBinary : B → option MeshJoinPayload).
Context (status : option setup_status) (browserZone : string).
Notation offers := (offers base64Decode fromBinary).
Notation page_action := (page_action base64Decode fromBinary status browserZone).

Lemma offers_Select {V} `{EqDecision V} label (value : V) f os a :
  offers (Select label (choices value f os)) a ↔ ∃ o, o ∈ os ∧ a = f o.1.
Proof.
  simpl. split.
  - intros (c & (o & -> & Ho)%list_elem_of_fmap & ->). by exists o.
  - intros (o & Ho & ->). eexists. split; [by apply list_elem_of_fmap_2|done].
Qed.

Lemma offers_Buttons {V} `{EqDecision V} label (value : V) f os a :
  offers (Buttons label (choices value f os)) a ↔ ∃ o, o ∈ os ∧ a = f o.1.
Proof. exact (offers_Select label value f os a). Qed.

Lemma decode_halow text payload :
  decodeMeshJoinText base64Decode fromBinary text = inl payload → halow payload ≠ None.
Proof.
  unfold decodeMeshJoinText. repeat case_match; intros H'; simplify_eq; congruence.
Qed.

Lemma country_option (o : string * string) : o ∈ country_options status → o.1 ∈ map code (st_countries status).
Proof. intros (c & -> & Hc)%list_elem_of_fmap. exact (list_elem_of_fmap_2 code _ _ Hc). Qed.

Ltac from_options :=
  match goal with H : ?o ∈ _ |- ?o.1 ∈ _ => exact (label_option o _ _ H) end.

(** Opens a step into its controls. *)
Ltac open_step :=
  repeat match goal with
  | H : Exists _ (_ ++ _) |- _ => apply Exists_app in H as [H|H]
  | H : Exists _ (_ :: _) |- _ => apply Exists_cons in H as [H|H]
  | H : Exists _ [] |- _ => by apply Exists_nil in H
  | H : Exists _ (show_if _ _) |- _ => apply Exists_show_if in H as [? H]
  | H : offers (Select _ (choices _ _ _)) _ |- _ => apply offers_Select in H as (? & ? & ->)
  | H : offers (Buttons _ (choices _ _ _)) _ |- _ => apply offers_Buttons in H as (? & ? & ->)
  | H : offers (Input _ _ _ _) _ |- _ => destruct H as (? & ? & ->)
  | H : offers (Note _) _ |- _ => destruct H
  | H : offers (Alert _ _) _ |- _ => destruct H
  | H : offers (Shown _ _) _ |- _ => destruct H
  end.

Lemma identity_action s a :
  Exists (λ n, offers n a) (StepIdentity status browserZone s) →
  legal_action status s a ∧ step_dispatches identity a = true.
Proof.
  intros H. unfold StepIdentity in H. open_step; (split; [|done]); simpl; try done.
  - by apply same_option.
  - from_options.
Qed.

Lemma notes_offer_nothing l a : ¬ Exists (λ n, offers n a) (map Note l).
Proof. intros (n & (m & -> & _)%list_elem_of_fmap & [])%Exists_exists. Qed.

Lemma scan_action s a :
  Exists (λ n, offers n a) (scan_nodes status s) →
  ∃ payload, halow payload ≠ None ∧ a = APPLY_MESH_JOIN payload (st_radios status).
Proof.
  unfold scan_nodes. intros H. open_step.
  - destruct H as (text & payload & Hp%decode_halow & ->). by exists payload.
  - destruct (meshJoin s); open_step. by apply notes_offer_nothing in H.
Qed.

Lemma radio_node_action s a :
  offers (radio_node status s) a →
  ∃ v, v ∈ map r_name (halowRadios status) ∧ a = SET_MESH_FIELD (MF_radioName v).
Proof.
  unfold radio_node. destruct (halowRadios status) as [|r [|r' rs]]; intros H; try done;
    apply offers_Select in H as (o & Ho%same_option & ->); eauto.
Qed.

Lemma country_node_action s a :
  offers (country_node status s) a →
  ∃ v, v ∈ map code (st_countries status) ∧ a = SET_MESH_FIELD (MF_countryCode v).
Proof.
  unfold country_node. destruct (st_countries status) eqn:Hc; intros H; [done|].
  apply offers_Select in H as (o & Ho%country_option & ->). rewrite Hc in Ho. eauto.
Qed.

Lemma head_option {A} (f : A → string) l x (xs : list A) : l = x :: xs → f x ∈ map f l.
Proof. intros ->. left. Qed.

Lemma mesh_effects s a :
  a ∈ mesh_actions status s → legal_action status s a ∧ step_dispatches mesh_step a = true.
Proof.
  unfold mesh_actions. rewrite !elem_of_app. intros [H|[H|H]]; repeat case_match;
    try (by apply not_elem_of_nil in H); apply list_elem_of_singleton in H as ->; (split; [simpl|done]).
  - by eapply head_option.
  - unfold legalBandwidths, countryEntry, st_countries. rewrite H1. left.
  - unfold mesh_channels, countryEntry, st_countries. rewrite H1. left.
Qed.

Lemma mesh_action s a :
  Exists (λ n, offers n a) (StepMesh status s) →
  legal_action status s a ∧ step_dispatches mesh_step a = true.
Proof.
  intros H. unfold StepMesh in H. apply Exists_app in H as [H|H].
  { apply scan_action in H as (p & Hp & ->). done. }
  open_step; try (split; [|done]); simpl; try done.
  - apply radio_node_action in H as (v & Hv & ->). done.
  - apply country_node_action in H as (v & Hv & ->). done.
  - from_options.
  - from_options.
  - split; [by apply bool_decide_eq_true in H0|]. by apply (list_elem_of_fmap_2 fst) in H.
  - split; [by apply bool_decide_eq_true in H0|].
    by apply (list_elem_of_fmap_2 fst), list_elem_of_singleton in H.
Qed.

Lemma uplink_action s a :
  Exists (λ n, offers n a) (StepUplink status s) →
  legal_action status s a ∧ step_dispatches uplink_step a = true.
Proof.
  intros H. unfold StepUplink in H. open_step; try (split; [|done]); simpl; try done.
  - from_options.
  - destruct (st_ports status) eqn:Hp; [done|].
    apply offers_Select in H as (o & Ho%same_option & ->). rewrite <-Hp in Ho. done.
  - destruct (apRadios status) eqn:Hp; [done|].
    apply offers_Select in H as (o & Ho%same_option & ->). rewrite <-Hp in Ho. done.
  - from_options.
Qed.

Lemma uplink_effects s a :
  a ∈ uplink_actions status s → legal_action status s a ∧ step_dispatches uplink_step a = true.
Proof.
  unfold uplink_actions. rewrite !elem_of_app. intros [H|[H|H]]; repeat case_match;
    try (by apply not_elem_of_nil in H); apply list_elem_of_singleton in H as ->; (split; [simpl|done]).
  - right; left.
  - left.
  - unfold st_ports. match goal with E : _ = _ :: _ |- _ => rewrite E end. left.
  - by eapply head_option.
Qed.

Lemma APRow_action s r a :
  r ∈ apRadios status → Exists (λ n, offers n a) (APRow status s r) →
  legal_action status s a ∧ step_dispatches aps_step a = true.
Proof.
  intros Hr H.
  assert (∀ f, ap_field_legal status (ap_of (r_name r) s) f → legal_action status s (setField (r_name r) f s)) as Hf
    by (intros f Hf; by exists r, f).
  unfold APRow in H. open_step.
  - split; [|done]. exists r. split; [done|]. split; [done|]. intros Hm.
    unfold radio_modes in *. destruct (r_supportsMeshBackhaul r); [done|].
    by apply list_elem_of_filter in H as [? _].
  - destruct (radioMode _); unfold ap_nodes, backhaul_nodes in H; open_step;
      (split; [|done]); apply Hf; simpl; try done.
    + from_options.
    + apply elem_of_cons in H as [->|H]; [left|right; from_options].
    + apply elem_of_cons in H as [->|H]; [left|right; from_options].
    + apply elem_of_cons in H as [->|H]; [left|right; by apply country_option].
Qed.

Lemma aps_action s a :
  Exists (λ n, offers n a) (StepAPs status s) →
  legal_action status s a ∧ step_dispatches aps_step a = true.
Proof.
  intros H. unfold StepAPs in H. destruct (apRadios status) as [|r0 rs0] eqn:Hr.
  - open_step. destruct (st_radios status); open_step.
  - rewrite <-Hr in H.
    apply Exists_exists in H as (n & (r & Hin & Hn)%elem_of_concat_map & Ho).
    apply (APRow_action s r a Hin). apply Exists_exists. by exists n.
Qed.

Lemma password_action s a :
  Exists (λ n, offers n a) (StepPassword s) →
  legal_action status s a ∧ step_dispatches password_step a = true.
Proof. intros H. unfold StepPassword in H. by open_step. Qed.

Lemma page_action_legal k s a :
  page_action k s a → legal_action status s a ∧ step_dispatches k a = true.
Proof.
  intros [H|H]; destruct k; simpl in H; try (by apply not_elem_of_nil in H).
  - by apply identity_action.
  - by apply mesh_action.
  - by apply uplink_action.
  - by apply aps_action.
  - by apply password_action.
  - by apply Exists_nil in H.
  - by apply mesh_effects.
  - by apply uplink_effects.
Qed.

End Controls.

Lemma legal_ui status s a : legal_action status s a → ui_ok s a.
Proof.
  destruct a; simpl; try done.
  - intros H ->. set_solver.
  - set_solver.
  - naive_solver.
  - intros H ->. set_solver.
  - intros (r & f & _ & _ & ->). eauto.
Qed.

(** ** Lemmas: the states the controls reach *)

Section Reached.
Context (status : option setup_status).

(** A text that starts within its field's length stays within it. *)
Lemma typed_bound m old new : typed (Some m) old new → (str_len old <= m)%Z → (str_len new <= m)%Z.
Proof. simpl. lia. Qed.

Lemma ap_of_legal r s :
  r ∈ apRadios status → Forall (ap_legal status) (aps s) → ap_legal status (ap_of (r_name r) s).
Proof.
  intros Hr Hs. unfold ap_of. destruct (find_ap _ _) as [[i ap]|] eqn:Hf; simpl.
  - apply find_ap_Some in Hf as [Hi _]. by eapply Forall_lookup_1.
  - split_and!; simpl; [set_solver|left|left|left|done..|]. by exists r.
Qed.

Lemma ap_of_name name s : ap_radioName (ap_of name s) = name.
Proof.
  unfold ap_of. destruct (find_ap _ _) as [[i ap]|] eqn:Hf; [|done]. by apply find_ap_Some in Hf as [_ Hn].
Qed.

(** [SET_AP] changes the profile of its radio only. *)
Lemma set_ap_Forall (P : ap_profile → Prop) v s :
  Forall P (aps s) → P (merge_ap (ap_of (up_radioName v) s) v) → Forall P (aps (set_ap v s)).
Proof.
  unfold set_ap, ap_of. intros Hs Hv. destruct (find_ap _ _) as [[i ap]|]; simpl in *.
  - by apply Forall_insert.
  - apply Forall_app. split; [done|by apply Forall_singleton].
Qed.

Lemma setField_legal r f s v :
  r ∈ apRadios status → ap_field_legal status (ap_of (r_name r) s) f → Forall (ap_legal status) (aps s) →
  SET_AP v = setField (r_name r) f s → Forall (ap_legal status) (aps (set_ap v s)).
Proof.
  intros Hr Hf Hs Hv. apply set_ap_Forall; [done|].
  pose proof (setField_ok _ _ _ _ Hv) as (Hn & _ & _). rewrite Hn.
  pose proof (ap_of_legal r s Hr Hs) as (H1 & H2 & H3 & H4 & H5 & L1 & L2 & L3 & r' & H6 & H7 & H8).
  rewrite (ap_of_name (r_name r) s) in H7.
  unfold setField in Hv. injection Hv as ->. fold (ap_of (r_name r) s).
  destruct f; (split_and!; simpl; try done); try (exists r'; done); by apply typed_bound in Hf.
Qed.

Lemma with_mode_legal r e b id ap :
  ap_legal status ap → r ∈ apRadios status → ap_radioName ap = r_name r →
  (b = true → r_supportsMeshBackhaul r = true) → ap_legal status (with_mode e b id ap).
Proof.
  intros (H1 & H2 & H3 & H4 & H5 & L1 & L2 & L3 & _) Hr Hn Hb. split_and!; simpl; try done. by exists r.
Qed.

Lemma clear_backhaul_legal ap : ap_legal status ap → ap_legal status (clear_backhaul ap).
Proof.
  intros H. pose proof H as (_ & _ & _ & _ & _ & _ & _ & _ & r & Hr & Hn & _).
  by eapply (with_mode_legal r).
Qed.

Lemma set_radio_mode_legal r mode s :
  r ∈ apRadios status → (mode = ModeBackhaul → r_supportsMeshBackhaul r = true) →
  Forall (ap_legal status) (aps s) → Forall (ap_legal status) (aps (set_radio_mode (r_name r) mode s)).
Proof.
  intros Hr Hm Hs. unfold set_radio_mode. fold (ap_of (r_name r) s).
  set (upd := with_mode _ _ _ _). set (l := map _ (aps s)).
  assert (ap_legal status upd) as Hu.
  { apply (with_mode_legal r); [by apply ap_of_legal|done|apply ap_of_name|].
    intros H%bool_decide_eq_true. by apply Hm. }
  assert (Forall (ap_legal status) l) as Hl.
  { apply Forall_map. eapply Forall_impl; [exact Hs|]. intros a Ha. simpl.
    case_match; [by apply clear_backhaul_legal|done]. }
  destruct (find_ap _ _) as [[i ap]|]; simpl; [by apply Forall_insert|].
  apply Forall_app. split; [done|by apply Forall_singleton].
Qed.

Lemma typed_inv_step s s' a :
  typed_inv status s → legal_action status s a → is_scan a = false → reducer s a = Some s' →
  typed_inv status s'.
Proof.
  intros (Hw & Hm & Hu & Ha & Hz & Hj) Hl Hscan Hr.
  assert (wizard_inv s') as Hw'.
  { eapply wizard_inv_step; [exact Hw|]. exists a. split; [exact (legal_ui _ _ _ Hl)|done]. }
  split; [exact Hw'|]. clear Hw Hw'. pose proof Hm as (Hm1 & Hm2 & Hm5 & Hm6 & Hm3 & Hm4).
  pose proof Hu as (Hu1 & Hu2 & Hu3 & Hu4 & Hu5).
  destruct a; simpl in Hr, Hl; simplify_eq; try done.
  - destruct v; [set_solver| |by split_and!].
    split; [done|]. split; [split_and!; [left|left|set_solver|done..]|]. by split_and!.
  - split; [|done]. unfold mesh_legal. destruct f; (split_and!; simpl; try done); try (by apply typed_bound in Hl).
    + by right.
    + destruct (st_countries status); [by apply elem_of_nil in Hl|done].
  - split; [done|]. split; [|done]. split_and!; simpl; try done. by right.
  - split; [done|]. split; [|done]. unfold uplink_legal.
    destruct f; (split_and!; simpl; try done); try (by apply typed_bound in Hl). by right.
  - destruct Hl as (r & f & Hr & Hf & Hv). pose proof (setField_legal r f s v Hr Hf Ha Hv) as Hal.
    unfold set_ap in *. destruct (find_ap _ _) as [[]|]; by split_and!.
  - destruct Hl as (r & Hr & -> & Hb). pose proof (set_radio_mode_legal r mode s Hr Hb Ha) as Hal.
    unfold set_radio_mode in *. destruct (find_ap _ _) as [[]|]; by split_and!.
  - split_and!; simpl; try done. unfold zone_legal. right. by left.
Qed.

Lemma hydrate_typed (tz : string) : typed_inv status (hydrate status tz initialState).
Proof.
  split; [by apply wizard_reachable; eapply rtc_once; exists (HYDRATE_FROM_STATUS status tz)|].
  split; [unfold mesh_legal; split_and!; simpl; try done|].
  - change ((radios <$> status) ?? []) with (st_radios status).
    unfold halowRadios. destruct (List.find r_isHalow (st_radios status)) as [r|] eqn:Hf; [|by left].
    right. apply find_some in Hf as [Hin Hh]. apply list_elem_of_fmap_2, list_elem_of_filter.
    split; [by rewrite Hh|by apply list_elem_of_In].
  - unfold hydrate_country. cbn [m_countryCode mesh initialState].
    rewrite decide_False by naive_solver. change ((s_countries <$> status) ?? []) with (st_countries status).
    destruct (st_countries status) as [|c cs] eqn:Hc; [simpl; rewrite andb_false_r; left|].
    assert (∀ x, existsb (λ c, bool_decide (code c = x)) (c :: cs) = true → x ∈ map code (c :: cs)) as He.
    { intros x (c' & Hin & <-%bool_decide_eq_true)%existsb_exists.
      by apply list_elem_of_fmap_2, list_elem_of_In. }
    case_match; [apply He; by apply andb_true_iff in H as [_ ?]|].
    case_match; [by apply He|left].
  - split; [split_and!; [left|left|set_solver|done..]|]. split; [constructor|]. split; [|done].
    simpl. unfold hydrate_timezone. rewrite decide_False by naive_solver. unfold zone_legal.
    case_match.
    + right. left. apply andb_true_iff in H as [_ H%bool_decide_eq_true]. exact H.
    + unfold first_nonempty. destruct (decide _); [by left|right; by right].
Qed.
End Reached.

(** ** Lemmas: what is left to the server *)

(** The status is the server's own view: its radios, its zones, its regulatory
    data (an unreadable database is reported as no countries). *)
Record server_reports (srv : server) (status : option setup_status) : Prop := {
  rep_radios : Forall (λ r, r_name r ≠ "" ∧ isMorse srv (r_name r) = r_isHalow r
    ∧ (r_supportsMeshBackhaul r = true → radioSupportsMeshBackhaul srv (r_name r) = true)) (st_radios status);
  rep_rules : follows_rules srv;
  rep_zones : Forall (λ z, tz_known srv z = true ∧ (str_len z <= 64)%Z) ((timezones <$> status) ?? []);
  rep_ports : Forall (λ p, (str_len p <= 32)%Z) (st_ports status);
  rep_codes : Forall (λ c, country_rule (code c) = true) (st_countries status);
  rep_regdb : match reg srv with
              | Loaded legal => regdb_reported legal (st_countries status)
              | NotInstalled | LoadFailed => st_countries status = []
              end
}.

(** The lower bound on a passphrase. *)
Definition pass_long (enc : WifiEncryption) (pass : string) : Prop :=
  enc ≠ ENC_NONE → enc ≠ OWE → (8 <= str_len pass)%Z.

(** What the wizard's controls leave unchecked. *)
Definition typed_remaining (srv : server) (status : option setup_status) (s : setup_state) : Prop :=
  let u := uplink s in
  let w := u_wireless u in
  hostnameRFC1123 (hostname s) = true ∧ (str_len (hostname s) <= 63)%Z
  ∧ (timezone s ∉ (timezones <$> status) ?? [] → timezone s ≠ "" →
       tz_known srv (timezone s) = true ∧ (str_len (timezone s) <= 64)%Z)
  ∧ (8 <= str_len (m_passphrase (mesh s)))%Z
  ∧ (∀ a, a ∈ aps s → ap_enabled a = true →
       pass_long (ap_encryption a) (ap_passphrase a) ∧ printable (ap_ssid a) = true)
  ∧ (role s = MESH_GATE →
       u_type u ≠ UP_UNSPECIFIED
       ∧ (u_type u = WIRELESS_STA →
            w_radioName w ≠ ""
            ∧ (∀ a, a ∈ aps s → active a = true → ap_radioName a ≠ w_radioName w)
            ∧ pass_long (w_encryption w) (w_passphrase w)
            ∧ w_ssid w ≠ "" ∧ printable (w_ssid w) = true)).

Section Reports.
Context (srv : server) (status : option setup_status) (Hrep : server_reports srv status).

Lemma halow_name name :
  name ∈ map r_name (halowRadios status) → name ≠ "" ∧ isMorse srv name = true.
Proof.
  intros (r & -> & [Hh%Is_true_true Hr]%list_elem_of_filter)%list_elem_of_fmap.
  pose proof (rep_radios _ _ Hrep) as H. rewrite Forall_forall in H.
  destruct (H r Hr) as (H1 & H2 & _). by rewrite H2.
Qed.

Lemma apRadio_name r :
  r ∈ apRadios status → r_name r ≠ "" ∧ isMorse srv (r_name r) = false
  ∧ (r_supportsMeshBackhaul r = true → radioSupportsMeshBackhaul srv (r_name r) = true).
Proof.
  intros [Hh%Is_true_true%negb_true_iff Hr]%list_elem_of_filter.
  pose proof (rep_radios _ _ Hrep) as H. rewrite Forall_forall in H.
  destruct (H r Hr) as (H1 & H2 & H3). by rewrite H2.
Qed.

Lemma code_rule x : x ∈ "" :: map code (st_countries status) → country_rule x = true.
Proof.
  pose proof (rep_codes _ _ Hrep) as H. rewrite Forall_forall in H.
  intros [->|(c & -> & Hc)%list_elem_of_fmap]%elem_of_cons; [done|by apply H].
Qed.

Lemma pass_ok_long enc pass : (str_len pass <= 63)%Z → pass_ok enc pass ↔ pass_long enc pass.
Proof. intros H. unfold pass_ok, pass_long. intuition lia. Qed.

Lemma typed_mesh s :
  mesh_legal status (mesh s) → applyBlockers s status = [] → mesh_actions status s = [] →
  mesh_remaining srv (mesh s) ∧ (0 < m_channel (mesh s))%Z ∧ country_rule (m_countryCode (mesh s)) = true
  ↔ (8 <= str_len (m_passphrase (mesh s)))%Z.
Proof.
  intros (Henc & Hscan & _ & Hl & Hr & Hc) (_ & Hr0 & _ & Hc0 & _)%applyBlockers_nil Hset.
  destruct Hr as [?|Hr]; [done|]. destruct (halow_name _ Hr) as [_ Hmorse].
  destruct (mesh_actions_legal status s Hscan Hset) as [Hb Hch].
  pose proof (rep_regdb _ _ Hrep) as Hreg. unfold mesh_remaining. rewrite pass_ok_long by done.
  unfold pass_long. rewrite Henc.
  destruct (reg srv) as [| |legal] eqn:Hsrv;
    [by rewrite Hreg in Hc; apply list_elem_of_singleton in Hc..|].
  assert (m_countryCode (mesh s) ∈ map code (st_countries status)) as Hc'.
  { destruct (st_countries status); [by apply list_elem_of_singleton in Hc|done]. }
  destruct (reported_legal legal _ _ _ _ Hreg Hc0 Hc' Hb Hch) as (H1 & H2 & H3).
  assert (country_rule (m_countryCode (mesh s)) = true) as H4 by (apply code_rule; by right).
  assert (m_channel (mesh s) ≠ 0%Z) by lia. naive_solver.
Qed.

Lemma typed_ap s a :
  ap_legal status a → tuning_blockers a = [] → isMorse srv (m_radioName (mesh s)) = true →
  ap_remaining srv (m_radioName (mesh s)) a
  ↔ (ap_enabled a = true → pass_long (ap_encryption a) (ap_passphrase a)).
Proof.
  intros (_ & Hbw & Hch & _ & _ & _ & Hl & _ & r & Hr & Hn & Hb) Ht Hm.
  destruct (apRadio_name r Hr) as (H1 & H2 & H3). unfold ap_remaining. rewrite Hn, pass_ok_long by done.
  split; [tauto|]. intros Hp. split; [done|]. split; [congruence|]. split; [done|]. split; [done|].
  intros Hbh. split; [by apply H3, Hb|]. intros Hc0.
  unfold tuning_blockers in Ht. rewrite Hbh in Ht. simpl in Ht. apply push_if_nil in Ht.
  rewrite (bool_decide_eq_false_2 _ Hc0) in Ht.
  assert (ap_backhaulBandwidthMhz a ≠ 0%Z) as Hb0.
  { intros He. by rewrite (bool_decide_eq_true_2 _ He) in Ht. }
  apply elem_of_cons in Hbw as [?|?], Hch as [?|?]; done.
Qed.

(** The rules of the schema that the controls settle. *)
Lemma typed_rules s :
  typed_inv status s →
  rules_remaining s ↔
  (str_len (hostname s) <= 63)%Z ∧ (str_len (timezone s) <= 64)%Z
  ∧ ((0 < m_channel (mesh s))%Z ∧ country_rule (m_countryCode (mesh s)) = true)
  ∧ (∀ a, a ∈ aps s → ap_enabled a = true → printable (ap_ssid a) = true)
  ∧ (role s = MESH_GATE → u_type (uplink s) = WIRELESS_STA →
       w_ssid (u_wireless (uplink s)) ≠ "" ∧ printable (w_ssid (u_wireless (uplink s))) = true).
Proof.
  intros (_ & (Henc & _ & Hl1 & Hl2 & _) & (Hp & _ & Hwe & Hw1 & Hw2) & Ha & _). unfold rules_remaining.
  rewrite Forall_forall in Ha.
  assert (∀ e, e ∈ AP_ENCRYPTION_VALUES ++ STA_ENCRYPTION_VALUES → e ≠ ENC_UNSPECIFIED) as He
    by (intros e; unfold AP_ENCRYPTION_VALUES, STA_ENCRYPTION_VALUES; set_solver).
  assert (str_len (u_ethernetPort (uplink s)) <= 32)%Z as Hport.
  { pose proof (rep_ports _ _ Hrep) as H. rewrite Forall_forall in H.
    apply elem_of_cons in Hp as [->|Hp]; [by vm_compute|by apply H]. }
  assert ((1 <= str_len (w_ssid (u_wireless (uplink s))) <= 32)%Z ↔ w_ssid (u_wireless (uplink s)) ≠ "") as Hne
    by (rewrite <- str_len_pos; lia).
  cbv zeta. rewrite Hne. split.
  - intros (H1 & H2 & H3 & H4 & _ & H6). split_and?; try tauto. intros a Hin Hen. by apply (H4 a Hin Hen).
  - intros (H1 & H2 & H3 & H4 & H6). split_and?; try tauto.
    + intros a Hin Hen. destruct (Ha a Hin) as (G1 & _ & _ & _ & _ & G2 & G3 & _).
      split_and?; [done|by apply H4|done|]. apply He. set_solver.
    + intros a Hin _. destruct (Ha a Hin) as (_ & _ & _ & G1 & _ & _ & _ & G2 & _).
      split; [done|by apply code_rule].
    + intros Hg. split; [done|]. intros Hs. destruct (H6 Hg Hs). split_and?; try done. apply He. set_solver.
Qed.

Lemma typed_remaining_iff s :
  typed_inv status s → applyBlockers s status = [] → mesh_actions status s = [] →
  remaining srv s ↔ typed_remaining srv status s.
Proof.
  intros Hinv Hbl Hset. unfold remaining. rewrite (typed_rules s Hinv).
  destruct Hinv as (_ & Hm & (_ & Hw & _ & _ & Hw2) & Ha & _). pose proof (typed_mesh s Hm Hbl Hset) as HM.
  pose proof Hm as (_ & _ & _ & _ & Hr & _).
  pose proof Hbl as (_ & Hr0 & _ & _ & _ & _ & Ht & _)%applyBlockers_nil.
  destruct Hr as [?|[_ Hmorse]%halow_name]; [done|].
  rewrite Forall_forall in Ha. pose proof (rep_zones _ _ Hrep) as Hz. rewrite Forall_forall in Hz.
  assert (∀ a, a ∈ aps s → ap_remaining srv (m_radioName (mesh s)) a
    ↔ (ap_enabled a = true → pass_long (ap_encryption a) (ap_passphrase a))) as HA
    by (intros a Hin; apply typed_ap; [by apply Ha|by apply Ht|done]).
  unfold profile_remaining, typed_remaining, uplink_remaining. cbv zeta. rewrite pass_ok_long by done. split.
  - intros ((H1 & H2 & H3 & H4 & H5) & R1 & R2 & R3 & R4 & R5). split_and?; try tauto.
    + intros a Hin He. split; [|by apply R4]. apply (HA a Hin); [|done]. apply H4; [done|].
      unfold active. by rewrite He.
  - intros (H1 & L1 & H2 & H3 & H4 & H5). apply HM in H3 as (H3 & C1 & C2).
    assert (timezone s ≠ "" → tz_known srv (timezone s) = true ∧ (str_len (timezone s) <= 64)%Z) as Hzone.
    { intros Hne. destruct (decide (timezone s ∈ (timezones <$> status) ?? [])); [by apply Hz|by apply H2]. }
    split; split_and?; try done.
    + intros Hne. by apply Hzone.
    + intros a Hin _. apply (HA a Hin). intros He. by apply (H4 a Hin).
    + intros Hg. destruct (H5 Hg) as [G1 G2]. split; [done|]. intros Hs.
      destruct (G2 Hs) as (K1 & K2 & K3 & _).
      apply elem_of_cons in Hw as [?|(r & Hn & Hin)%list_elem_of_fmap]; [done|].
      destruct (apRadio_name r Hin) as (_ & N2 & _). rewrite <-Hn in N2.
      split_and?; try done. congruence.
    + destruct (decide (timezone s = "")) as [->|Hne]; [by vm_compute|by apply Hzone].
    + intros a Hin He. by apply (H4 a Hin).
    + intros Hg Hs. destruct (H5 Hg) as [_ G]. by destruct (G Hs) as (_ & _ & _ & ?).
Qed.
End Reports.

(** ** Lemmas: selects and review *)

(** A control that has options shows one of them as chosen. *)
Definition shows (n : node) : Prop :=
  match n with
  | Select _ os | Buttons _ os => os ≠ [] → ∃ c, c ∈ os ∧ c_selected c = true
  | _ => True
  end.

Lemma shows_choices {V} `{EqDecision V} label (value : V) f os :
  (os ≠ [] → value ∈ map fst os) → shows (Select label (choices value f os)).
Proof.
  intros Hv Hne. assert (os ≠ []) as (o & -> & Ho)%Hv%list_elem_of_fmap by (by intros ->).
  eexists. split; [by apply list_elem_of_fmap_2|]. by apply bool_decide_eq_true_2.
Qed.

Lemma map_fst_options {K} (l : list K) (g : K → string) : map fst (map (λ v, (v, g v)) l) = l.
Proof. rewrite map_map. apply map_id. Qed.

Lemma shows_options {V} `{EqDecision V} label (value : V) f (g : V → string) l :
  (l ≠ [] → value ∈ l) → shows (Select label (choices value f (map (λ v, (v, g v)) l))).
Proof.
  intros Hv. apply shows_choices. intros Hne. rewrite map_fst_options. apply Hv. by destruct l.
Qed.

Lemma shows_same label value f l :
  (l ≠ [] → value ∈ l) → shows (Select label (choices value f (same_options l))).
Proof. apply (shows_options label value f id). Qed.

Lemma Forall_show_if (P : node → Prop) b l : Forall P (show_if b l) ↔ (b = true → Forall P l).
Proof. destruct b; simpl; [naive_solver|]. by split. Qed.

(** The client's [filter] and [find] are those of the message. *)
Lemma sent_enabled l :
  filter (λ a, ra_enabled a) (map ap_to_proto (filter (λ a, ap_enabled a || ap_meshBackhaul a) l))
  = map ap_to_proto (filter (λ a, ap_enabled a) l).
Proof.
  induction l as [|a l IH]; [done|]. rewrite !filter_cons.
  repeat case_decide; cbn [map]; rewrite ?filter_cons; repeat case_decide; cbn [ra_enabled ap_to_proto map] in *;
    rewrite ?IH; destruct (ap_enabled a), (ap_meshBackhaul a); done.
Qed.

Lemma sent_backhaul l :
  List.find (λ a, bool_decide (ra_meshBackhaul a ≠ None))
    (map ap_to_proto (filter (λ a, ap_enabled a || ap_meshBackhaul a) l))
  = ap_to_proto <$> List.find ap_meshBackhaul l.
Proof.
  induction l as [|a l IH]; [done|]. rewrite filter_cons. case_decide as Ha; cbn [map List.find].
  - rewrite IH. cbn [ra_meshBackhaul ap_to_proto]. by destruct (ap_meshBackhaul a).
  - rewrite IH. destruct (ap_meshBackhaul a); [|done]. by rewrite orb_true_r in Ha.
Qed.

Lemma sent_names l :
  map (λ a, (ra_radioName a, ra_ssid a)) (map ap_to_proto (filter (λ a, ap_enabled a) l))
  = map (λ a, (ap_radioName a, ap_ssid a)) (filter (λ a, ap_enabled a) l).
Proof.
  rewrite map_map. apply map_ext_in. intros a Ha%list_elem_of_In.
  apply list_elem_of_filter in Ha as [He%Is_true_true _]. simpl. by rewrite He.
Qed.

Lemma last_default {A} (x : A) l a b : List.last (x :: l) a = List.last (x :: l) b.
Proof. revert x. induction l as [|y l IH]; intros x; [done|]. exact (IH y). Qed.

Lemma hostname_tail_spec e s :
  hostname_tail e s
  = match String.list_ascii_of_string s with
    | [] => e
    | c :: l => forallb (λ d, is_alnum d || bool_decide (d = "-"%char)) (c :: l)
                && is_alnum (List.last (c :: l) c)
    end.
Proof.
  revert e. induction s as [|c s IH]; intros e; [done|].
  cbn [hostname_tail String.list_ascii_of_string]. rewrite !IH. clear IH.
  destruct (String.list_ascii_of_string s) as [|d l]; cbn [forallb].
  - cbn [List.last]. by destruct (is_alnum c), (bool_decide _).
  - change (List.last (c :: d :: l) c) with (List.last (d :: l) c). rewrite (last_default d l c d).
    destruct (is_alnum c), (is_alnum d), (bool_decide (c = "-"%char)); done.
Qed.

Lemma HOSTNAME_RE_server s : HOSTNAME_RE s = hostnameRFC1123 s.
Proof.
  destruct s as [|c s]; [done|]. unfold HOSTNAME_RE, hostnameRFC1123.
  cbn [String.list_ascii_of_string]. rewrite hostname_tail_spec.
  destruct (String.list_ascii_of_string s) as [|d l]; [done|]. by rewrite (last_default d l c d).
Qed.

Lemma mesh_settled_radio status s :
  mesh_actions status s = [] → halowRadios status ≠ [] → m_radioName (mesh s) ≠ "".
Proof.
  unfold mesh_actions, halowRadios, st_radios. intros [H _]%app_nil Hne Hn.
  destruct (filter _ _); [done|]. by rewrite (bool_decide_eq_true_2 _ Hn) in H.
Qed.

Lemma uplink_settled status s :
  uplink_actions status s = [] →
  u_type (uplink s) ∈ [ETHERNET; WIRELESS_STA]
  ∧ (u_type (uplink s) = ETHERNET → st_ports status ≠ [] → u_ethernetPort (uplink s) ≠ "")
  ∧ (u_type (uplink s) = WIRELESS_STA → apRadios status ≠ [] → w_radioName (u_wireless (uplink s)) ≠ "").
Proof.
  unfold uplink_actions, apRadios, st_ports, st_radios. intros [H1 [H2 H3]%app_nil]%app_nil. split_and!.
  - destruct (u_type (uplink s)); [done|left|right; left].
  - intros Ht Hp Hn. destruct (_ ?? []) as [|p ps] in H2, Hp; [done|].
    by rewrite (bool_decide_eq_true_2 _ Ht), (bool_decide_eq_true_2 _ Hn) in H2.
  - intros Ht Hp Hn. destruct (filter _ _) in H3, Hp; [done|].
    by rewrite (bool_decide_eq_true_2 _ Ht), (bool_decide_eq_true_2 _ Hn) in H3.
Qed.

Lemma tail_option {A} (x d : A) (l : list A) : x ∈ d :: l → (l ≠ [] → x ≠ d) → l ≠ [] → x ∈ l.
Proof. intros [->|H]%elem_of_cons Hne Hl; [by destruct (Hne Hl)|done]. Qed.

Section Settled.
Context (status : option setup_status) (s : setup_state) (Hinv : typed_inv status s).

Lemma mesh_shows : mesh_actions status s = [] → Forall shows (StepMesh status s).
Proof.
  intros Hset. destruct Hinv as ([Hmodes _] & (_ & Hscan & _ & _ & Hr & Hc) & _ & _ & _ & Hj).
  destruct (mesh_actions_legal status s Hscan Hset) as [Hbw Hch].
  unfold StepMesh, scan_nodes. rewrite Hj, !Forall_app, !Forall_show_if, !Forall_cons. split_and?; try done.
  - unfold radio_node. pose proof (mesh_settled_radio status s Hset) as Hn.
    destruct Hr as [Hr|Hr]; [destruct (halowRadios status); [by intros []|exfalso; by apply Hn]|].
    destruct (halowRadios status) as [|r [|r' rs]] eqn:Hh; [by intros []|exact I|].
    apply shows_same. by intros _.
  - unfold country_node. destruct (st_countries status) as [|c cs] eqn:Hcs; [done|].
    apply shows_choices. intros _. unfold country_options. rewrite Hcs, map_map. exact Hc.
  - by apply shows_options.
  - by apply shows_options.
  - intros Hg%bool_decide_eq_true. split; [|done]. apply shows_choices. intros _.
    unfold modes_fit in Hmodes. rewrite Hg in Hmodes. destruct (meshgateMode s); set_solver.
  - intros Hp%bool_decide_eq_true. split; [|done]. apply shows_choices. intros _.
    unfold modes_fit in Hmodes. rewrite Hp in Hmodes. destruct Hmodes as [-> _]. set_solver.
Qed.

Lemma uplink_shows : uplink_actions status s = [] → Forall shows (StepUplink status s).
Proof.
  intros (Ht & Hp & Hw)%uplink_settled. destruct Hinv as (_ & _ & (Hp' & Hw' & He & _) & _).
  unfold StepUplink. rewrite !Forall_app, !Forall_show_if, !Forall_cons. split_and?; try done.
  - by apply shows_options.
  - intros Hu%bool_decide_eq_true. split; [|done].
    destruct (st_ports status) as [|p ps] eqn:Hps; [done|]. apply shows_same. eapply tail_option; eauto.
  - intros Hu%bool_decide_eq_true. rewrite Forall_app, !Forall_cons, Forall_show_if, Forall_cons. split_and?; try done.
    + destruct (apRadios status) as [|r rs] eqn:Hrs; [done|]. apply shows_same. eapply tail_option; eauto.
    + by apply shows_options.
Qed.

Lemma ap_shows r :
  NoDup (map r_name (st_radios status)) → r ∈ apRadios status → Forall shows (APRow status s r).
Proof.
  intros Hnd Hr. destruct Hinv as (_ & _ & _ & Ha & _).
  pose proof (ap_of_legal status r s Hr Ha) as (He & Hb & Hc & Hcc & _ & _ & _ & _ & r' & Hr' & Hn & Hsup).
  rewrite ap_of_name in Hn.
  assert (r' = r) as ->.
  { apply list_elem_of_filter in Hr as [_ Hr], Hr' as [_ Hr'].
    apply list_elem_of_lookup in Hr as [i Hi], Hr' as [j Hj].
    assert (i = j) as ->; [|congruence].
    eapply NoDup_lookup; [exact Hnd|..]; rewrite list_lookup_fmap, ?Hi, ?Hj; simpl; by rewrite ?Hn. }
  unfold APRow. rewrite !Forall_app, !Forall_show_if, !Forall_cons. split_and?; try done.
  - apply (shows_choices (V:=radio_mode) ""). intros _. unfold radioMode, radio_modes.
    destruct (ap_meshBackhaul _); [rewrite Hsup by done; set_solver|].
    destruct (ap_enabled _), (r_supportsMeshBackhaul r); set_solver.
  - destruct (radioMode _); [done|..]; unfold ap_nodes, backhaul_nodes;
      rewrite ?Forall_app, ?Forall_cons, ?Forall_show_if; split_and?; try done.
    + by apply shows_options.
    + intros _. rewrite Forall_cons, Forall_show_if. split; [done|]. intros _. by repeat constructor.
    + intros _. by repeat constructor.
    + intros _. by repeat constructor.
    + by apply shows_choices.
    + by apply shows_choices.
    + intros _. by repeat constructor.
    + apply shows_choices. intros _. simpl. unfold country_options. by rewrite map_map.
Qed.
End Settled.

(** ** Properties *)

Section Properties.
Context {B : Type} (base64Decode : string → option B) (fromBinary : B → option MeshJoinPayload).
Context (status : option setup_status) (browserZone : string).
Notation page_action := (page_action base64Decode fromBinary status browserZone).
Notation typed_run := (typed_run base64Decode fromBinary status browserZone).

Lemma typed_reached s : typed_run s → typed_inv status s.
Proof.
  unfold typed_run. revert s. apply rtc_ind_r; [apply hydrate_typed|].
  intros s1 s2 _ (k & a & _ & Ha & Hscan & Hr) IH.
  apply page_action_legal in Ha as [Ha _]. by eapply typed_inv_step.
Qed.

(** What a step dispatches is what the wizard's shell and invariant assume of it:
    an action of that step, within the option lists. *)
Theorem steps_drive_wizard k s a :
  page_action k s a → step_dispatches k a = true ∧ ui_ok s a ∧ legal_action status s a.
Proof. intros [H1 H2]%page_action_legal. split; [done|]. split; [by eapply legal_ui|done]. Qed.

(** Whatever the operator types and chooses in the steps, without a scanned
    code, and once the effects of a step have settled, every select and radio
    group of the step that has options shows the value of the state as the chosen
    one: the mesh radio, country, width, channel and mode, the uplink's type,
    port, radio and encryption, each radio's mode, encryption and tuning.  (The
    timezone may be one the device does not list.) *)
Theorem selects_show_values s k :
  typed_run s → NoDup (map r_name (st_radios status)) → k ≠ identity →
  step_effects status k s = [] → Forall shows (StepBody status browserZone k s).
Proof.
  intros Hinv%typed_reached Hnd Hk Hset. destruct k; simpl in *; try done.
  - by apply mesh_shows.
  - by apply uplink_shows.
  - unfold StepAPs. destruct (apRadios status) as [|r rs] eqn:Hr.
    + destruct (st_radios status); by repeat constructor.
    + rewrite <-Hr. apply Forall_forall. intros n (r' & Hr' & Hn)%elem_of_concat_map.
      pose proof (ap_shows status s Hinv r' Hnd Hr') as H. rewrite Forall_forall in H. by apply H.
  - unfold StepPassword. rewrite !Forall_app, !Forall_show_if. split_and?; try done;
      repeat constructor; intros _; by repeat constructor.
Qed.

(** C20: an operator who scans no code and sees nothing blocking Apply has a
    profile that the server's checks (the rules of the schema and the handler's
    validation) let through exactly when the texts and the uplink are in order:
    the host name is a label of at most 63 characters, a timezone the device did
    not list is known and not longer than 64, the passphrases that are needed have
    at least 8 characters, the network names are printable, and a gate has an
    uplink of its own, with a network name if it is a station.  Everything else
    the server checks (roles and modes, the mesh radio and its encryption, the
    regulatory rules, country codes, the radios of the access points, the
    backhaul's radio and tuning, the other lengths) is settled by the controls. *)
Theorem typed_profile_accepted (srv : server) s :
  server_reports srv status → typed_run s → mesh_actions status s = [] →
  applyBlockers s status = [] →
  ApplySetup_refusal srv (profileToProto s) = None ↔ typed_remaining srv status s.
Proof.
  intros Hrep Hinv%typed_reached Hset Hbl.
  rewrite (remaining_iff srv s status) by first [done | apply (rep_rules _ _ Hrep) | apply Hinv].
  by apply typed_remaining_iff.
Qed.

(** Without a regulatory database (the server then reports no country) the mesh
    step says that it falls back to "US", but the country of the state stays
    empty: whatever is typed, Apply is blocked. *)
Theorem no_regdb_never_applies s :
  st_countries status = [] → typed_run s →
  In (Shown "Country" "US (regulatory database not installed; falling back to baked-in defaults)")
     (StepMesh status s)
  ∧ In "Regulatory country not selected (Step 2)." (applyBlockers s status).
Proof.
  intros Hc (_ & (_ & _ & _ & _ & _ & Hm) & _)%typed_reached. split.
  - unfold StepMesh, country_node. rewrite Hc, !in_app_iff. simpl. tauto.
  - rewrite Hc in Hm. apply list_elem_of_singleton in Hm.
    unfold applyBlockers. rewrite !in_app_iff, Hm. simpl. tauto.
Qed.

(** No control sets the encryption of the mesh. *)
Theorem encryption_only_scanned k s a s' :
  page_action k s a → is_scan a = false → reducer s a = Some s' →
  m_encryption (mesh s') = m_encryption (mesh s).
Proof.
  intros [Ha _]%page_action_legal Hs Hr. destruct a; simpl in *; simplify_eq; try done.
  - by destruct v.
  - by destruct f.
  - unfold set_ap. by destruct (find_ap _ _) as [[]|].
  - unfold set_radio_mode. by destruct (find_ap _ _) as [[]|].
Qed.
End Properties.

(** Every row of the review is the value that is sent: the message built from
    the state has that host name, role, mode, uplink type and mesh, exactly those
    access points, and, when the review shows one, that backhaul. *)
Theorem review_shows_profile (s : setup_state) :
  ReviewSummary s
  = profile_summary ((λ j, text_or (mj_sourceHostname j) "another node") <$> meshJoin s) (profileToProto s).
Proof.
  unfold profile_summary, ReviewSummary. cbn [p_aps p_mesh profileToProto].
  rewrite sent_enabled, sent_names, sent_backhaul.
  destruct (role s) eqn:Hr, (meshJoin s), (List.find ap_meshBackhaul (aps s)) as [b|] eqn:Hb;
    cbn [profileToProto p_deviceMode p_uplink p_hostname p_role]; rewrite ?Hr;
    try (apply find_some in Hb as [_ Hb]; cbn; rewrite Hb); reflexivity.
Qed.

(** The backhaul that the review shows is the only one sent. *)
Theorem review_one_backhaul (s : setup_state) (a b : RadioApProfile) :
  wizard_inv s → a ∈ p_aps (profileToProto s) → b ∈ p_aps (profileToProto s) →
  ra_meshBackhaul a ≠ None → ra_meshBackhaul b ≠ None → ra_radioName a = ra_radioName b.
Proof.
  intros [_ (_ & H1 & _)] (x & -> & [_ Hx]%list_elem_of_filter)%list_elem_of_fmap
    (y & -> & [_ Hy]%list_elem_of_filter)%list_elem_of_fmap. simpl.
  destruct (ap_meshBackhaul x) eqn:Hbx, (ap_meshBackhaul y) eqn:Hby; try done. intros _ _. by apply H1.
Qed.

(** The identity step reports a name exactly when it is not empty and the server
    would refuse it, or it is longer than 63 characters. *)
Theorem hostname_error (status : option setup_status) (z : string) (s : setup_state) :
  In (Alert "setup-error" HOSTNAME_ERROR) (StepIdentity status z s)
  ↔ hostname s ≠ "" ∧ (hostnameRFC1123 (hostname s) = false ∨ (63 < str_len (hostname s))%Z).
Proof.
  unfold StepIdentity, isValidHostname, show_if. rewrite !in_app_iff, HOSTNAME_RE_server.
  destruct (decide (hostname s = "")) as [He|He].
  { rewrite (bool_decide_eq_false_2 (hostname s ≠ "")) by tauto. simpl.
    repeat case_match; simpl; intuition congruence. }
  rewrite (bool_decide_eq_true_2 (hostname s ≠ "")) by done.
  destruct (decide (63 < str_len (hostname s))%Z), (hostnameRFC1123 (hostname s));
    repeat case_match; simpl; intuition (try congruence; try lia).
Qed.

(** When no password rule blocks Apply, the password step shows no message and
    both of its fields are filled. *)
Theorem password_step_blockers (status : option setup_status) (s : setup_state) :
  let quiet := too_short (adminPassword s) = false
    ∧ (adminPasswordConfirm s = "" ∨ adminPassword s = adminPasswordConfirm s) in
  (¬ In "Admin password must be at least 8 characters (Password step)." (applyBlockers s status)
   ∧ ¬ In "Admin password and confirmation do not match (Password step)." (applyBlockers s status)) →
  quiet ∧ adminPassword s ≠ "" ∧ adminPasswordConfirm s ≠ "".
Proof.
  unfold applyBlockers, too_short. rewrite !in_app_iff. intros [H1 H2].
  destruct (bool_decide (adminPassword s = "") || bool_decide (str_len (adminPassword s) < 8)%Z) eqn:Hp.
  { destruct H1. simpl. tauto. }
  bool_simpl. unfold push_if in H2.
  destruct (bool_decide (adminPassword s ≠ adminPasswordConfirm s)) eqn:Hm; [destruct H2; simpl; tauto|].
  apply bool_decide_eq_false in Hm. assert (adminPassword s = adminPasswordConfirm s) as <- by (by apply dec_stable).
  split; [|done]. split; [|by right]. rewrite andb_false_iff. right. by apply bool_decide_eq_false.
Qed.

(** One step is active, those before it are done. *)
Theorem stepper_dots (steps : list string) (i : nat) :
  i < length steps →
  map (λ e, e.1.1) (Stepper steps i) = replicate i Done_ ++ [Active] ++ replicate (length steps - i - 1) Future.
Proof.
  intros Hi. apply list_eq. intros j. unfold Stepper. rewrite list_lookup_fmap, list_lookup_imap.
  destruct (decide (j < i)) as [Hj|Hj].
  { rewrite lookup_app_l, lookup_replicate_2 by (rewrite ?length_replicate; lia).
    destruct (steps !! j) eqn:Hl; simpl; [repeat case_decide; (lia || done)|]. apply lookup_ge_None in Hl. lia. }
  rewrite lookup_app_r, length_replicate by (rewrite length_replicate; lia).
  destruct (decide (j = i)) as [->|Hne].
  { rewrite Nat.sub_diag. simpl. destruct (steps !! i) eqn:Hl; simpl; [|apply lookup_ge_None in Hl; lia].
    repeat case_decide; (lia || done). }
  destruct (j - i) as [|n] eqn:Hn; [lia|]. simpl.
  destruct (steps !! j) eqn:Hl; simpl.
  - apply lookup_lt_Some in Hl. rewrite lookup_replicate_2 by lia. repeat case_decide; (lia || done).
  - apply lookup_ge_None in Hl. symmetry. apply lookup_ge_None. rewrite length_replicate. lia.
Qed.

(** ** Examples *)

(** A node with a HaLow radio and a radio that can carry the backhaul. *)
Definition example_status : setup_status :=
  {| isEnabled := true; isSetupComplete := false; hasHalowRadio := true; alreadyConfigured := false;
     currentHostname := "node-1";
     radios := [{| r_name := "radio0"; r_isHalow := true; r_supportsMeshBackhaul := false;
                   r_band := "s1g"; r_hardwareName := "MM6108" |};
                {| r_name := "radio1"; r_isHalow := false; r_supportsMeshBackhaul := true;
                   r_band := "2g"; r_hardwareName := "" |}];
     ethernetPorts := ["eth0"];
     s_countries := [{| code := "US"; c_name := "United States";
                        c_bandwidths := [{| mhz := 2; bw_channels := [2; 42]%Z |}] |}];
     currentCountry := "US"; timezones := ["UTC"]; currentTimezone := "UTC" |}.

Definition example_legal (c : string) (bw ch : Z) : bool :=
  bool_decide (c = "US") && bool_decide (bw = 2%Z) && bool_decide (ch ∈ [2; 42]%Z).

Definition example_node : server :=
  {| tz_known := λ z, bool_decide (z = "UTC"); isMorse := λ r, bool_decide (r = "radio0");
     reg := Loaded example_legal; radioSupportsMeshBackhaul := λ r, bool_decide (r = "radio1");
     protovalidate := profile_rules |}.

(** No text is a mesh code. *)
Definition no_base64 (_ : string) : option unit := None.
Definition no_binary (_ : unit) : option MeshJoinPayload := None.

Lemma input_step status z k s label old m f v s' :
  k ∈ steps_for (role s) → Input label old m f ∈ StepBody status z k s → typed m old v →
  is_scan (f v) = false → reducer s (f v) = Some s' →
  typed_step no_base64 no_binary status z s s'.
Proof.
  intros Hk Hin Hv Hs Hr. exists k, (f v). split; [done|]. split; [|done].
  left. apply Exists_exists. eexists. split; [exact Hin|]. by exists v.
Qed.

Definition typed_example : setup_state :=
  dispatch_all (hydrate (Some example_status) "" initialState)
    [SET_MESH_FIELD (MF_passphrase "mesh-pass-1"); SET_ADMIN_PASSWORD "admin-pass";
     SET_ADMIN_PASSWORD_CONFIRM "admin-pass"].

Ltac find_input := apply list_elem_of_lookup; first
  [exists 0; reflexivity | exists 1; reflexivity | exists 2; reflexivity | exists 3; reflexivity
  |exists 4; reflexivity].

Lemma typed_example_run : typed_run no_base64 no_binary (Some example_status) "" typed_example.
Proof.
  unfold typed_run, typed_example, dispatch_all. cbn [foldl].
  eapply rtc_l; [|eapply rtc_l; [|eapply rtc_l; [|apply rtc_refl]]].
  - eapply (input_step _ _ mesh_step _ "Mesh passphrase" _ _ _ "mesh-pass-1"); [find_input|find_input|by left|done|reflexivity].
  - eapply (input_step _ _ password_step _ "Password" _ _ _ "admin-pass"); [find_input|find_input|done|done|reflexivity].
  - eapply (input_step _ _ password_step _ "Confirm password" _ _ _ "admin-pass"); [find_input|find_input|done|done|reflexivity].
Qed.

Lemma example_reports : server_reports example_node (Some example_status).
Proof.
  split; simpl; [by repeat constructor|done|by repeat constructor|by repeat constructor|by repeat constructor|].
  repeat constructor; try done; try (apply (bool_decide_unpack _); by vm_compute).
Qed.

Theorem selects_show_values_witness :
  Forall shows (StepBody (Some example_status) "" mesh_step typed_example).
Proof.
  apply (selects_show_values no_base64 no_binary (Some example_status) "" typed_example mesh_step);
    [apply typed_example_run|apply (bool_decide_unpack _); by vm_compute|done|reflexivity].
Defined.

Theorem typed_profile_accepted_witness :
  typed_remaining example_node (Some example_status) typed_example
  ∧ ApplySetup_refusal example_node (profileToProto typed_example) = None.
Proof.
  assert (typed_remaining example_node (Some example_status) typed_example) as Hr.
  { split; [reflexivity|]. split; [by vm_compute|]. split; [by intros H; destruct H; left|].
    split; [by vm_compute|]. split; [by intros a Ha%elem_of_nil|done]. }
  split; [exact Hr|].
  apply (typed_profile_accepted no_base64 no_binary (Some example_status) "" example_node typed_example);
    [apply example_reports|apply typed_example_run|reflexivity|reflexivity|exact Hr].
Defined.

(** A code whose mesh is WPA2: the step refuses it ("Mesh must be WPA3 (SAE)."), no
    control can change the encryption, and retyping the mesh ID lifts the check:
    the step still shows WPA3, Apply is enabled, and a WPA2 mesh is sent.  The
    handler would accept it; the schema's rule refuses the request. *)
Definition wpa2_code : MeshJoinPayload :=
  {| halow := Some {| meshId := "field"; passphrase := "mesh-pass-1"; encryption := PSK2;
                      bandwidthMhz := 2; channel := 42; countryCode := "US" |};
     backhaul := None; sourceHostname := "gate" |}.

Theorem scanned_encryption_slips_through :
  let st := Some example_status in
  let s1 := dispatch_all typed_example [APPLY_MESH_JOIN wpa2_code (radios example_status)] in
  let s2 := dispatch_all s1 [SET_MESH_FIELD (MF_meshId "field")] in
  meshJoinIssues s1 st = ["Mesh must be WPA3 (SAE)."]
  ∧ applyBlockers s2 st = []
  ∧ In (Shown "Encryption" "WPA3 (SAE)") (StepMesh st s2)
  ∧ mr_encryption (p_mesh (profileToProto s2)) = PSK2
  ∧ runValidate example_node (profileToProto s2) = None
  ∧ ApplySetup_refusal example_node (profileToProto s2) = Some BreaksRules.
Proof. intros st s1 s2. split_and!; vm_compute; tauto. Qed.

(** The progress list is on the page exactly while applying. *)
Theorem progress_while_busy (st : option setup_status) (s : setup_state) (r : review) notice rows bl dis txt pr :
  StepReview st s r = ReviewPanel notice rows bl dis txt pr →
  (busy r = true ↔ pr ≠ []) ∧ (dis = false ↔ busy r = false ∧ applyBlockers s st = []).
Proof.
  unfold StepReview. destruct (terminal r) as [[]|]; try done. intros [= _ _ _ <- _ <-].
  destruct (busy r); simpl.
  - split; [done|]. intuition congruence.
  - rewrite neg_decide_false. split; [|tauto]. split; [done|]. by intros H.
Qed.
