(* ===== verification/Topology.v ===== *)
(** [components/topologyGraph.js]: from the merged mesh graph of the server to the
    view the renderer draws.  Host records are objects shared between the map, the
    sorted list and [self]; [oid] is their identity.  [localeCompare] is the
    runtime's. *)
From S2P Require Import Prelude JsString JsList.
Open Scope js_scope.

(** ** The wire graph *)

Record mesh_node := {
  n_mac : string; n_hostname : string; n_segment : string; n_remoteGatewayMac : string;
  n_hopsFromSelf : option Z; n_isSelf : bool; n_isGateway : bool; n_myHardIfname : string;
  n_secondaryMacs : list string; n_gossipStale : bool; n_gossipAgeSeconds : option Z
}.

Record mesh_edge := {
  e_fromMac : string; e_toMac : string; e_metric : Z; e_blos : bool; e_onMyPath : bool
}.

Record topology := {
  t_nodes : list mesh_node; t_edges : list mesh_edge; t_algorithm : string;
  t_gossipCoverage : option (Z * Z)
}.

(** ** The view *)

Inductive role := RF | BLOS.
#[export] Instance role_eq_dec : EqDecision role.
Proof. solve_decision. Defined.

Record host := {
  oid : nat;
  h_id : string; h_mac : string; baseHostname : string; tag : string;
  interfaces : list (string * role); segmentId : string; h_remoteGatewayMac : string;
  hops : Z; isSelf : bool; isGateway : bool; myHardIfname : string;
  secondaryMacs : list string; gossipStale : bool; gossipAgeSeconds : Z
}.

Record edge := {
  hostA : string; hostB : string; metric : Z; blos : bool; onMyPath : bool
}.
#[export] Instance edge_eq_dec : EqDecision edge.
Proof. solve_decision. Defined.

Inductive seg_kind := KLocal | KRemote.
#[export] Instance seg_kind_eq_dec : EqDecision seg_kind.
Proof. solve_decision. Defined.

Record segment := {
  seg_id : string; seg_label : string; seg_kind_of : seg_kind; anchorHost : option string;
  seg_hosts : list host; seg_edges : list edge
}.

Record topo_counts := {
  c_hosts : nat; c_segments : nat; c_links : nat; c_blosLinks : nat; c_hopsMax : Z
}.

Record topo_view := {
  v_self : option host; v_hosts : list host; v_segments : list segment; v_blosEdges : list edge;
  v_counts : topo_counts; v_algorithm : string; v_gossipCoverage : option (Z * Z)
}.

(** ** Helpers *)

Definition HOPS_UNKNOWN : Z := 99.

Definition shortHostname (base : string) : string :=
  if decide (base = "") then "?"
  else
    let tail := or_str (last (split "-" base) ?? "") base in
    if (String.length tail <=? 6)%nat then tail else String.substring 0 6 tail.

Definition pad2 (n : Z) : string :=
  let s := pretty n in if (String.length s <=? 1)%nat then ("0" ++ s)%string else s.

(** [formatAge]; [None] is a value that is not finite, a count of whole seconds
    otherwise. *)
Definition formatAge (seconds : option Z) : string :=
  match seconds with
  | None => "—"
  | Some s =>
      if (s <? 0)%Z then "—"
      else if (s <? 60)%Z then (pretty s ++ "s")%string
      else
        let m := (s / 60)%Z in
        if (m <? 60)%Z then (pretty m ++ "m " ++ pad2 (s mod 60) ++ "s")%string
        else (pretty (m / 60)%Z ++ "h " ++ pad2 (m mod 60) ++ "m")%string
  end.

Definition shortMac (mac : string) : string :=
  if decide (mac = "") then "?"
  else
    let parts := split ":" mac in
    if decide (length parts = 6) then join ":" (drop 3 parts) else mac.

Definition padTag (i : nat) : string := ("N-" ++ pad2 (i + 1))%string.

Definition hostInterfacesForKind (remote : bool) : list (string * role) :=
  if remote then [("vxlan0", BLOS)] else [("mesh", RF)].

(** [new Set]: distinct values in order of insertion. *)
Definition set_add (x : string) (l : list string) : list string :=
  if decide (x ∈ l) then l else l ++ [x].

(** Mutation of a host record. *)
Definition with_interfaces (i : list (string * role)) (h : host) : host :=
  {| oid := oid h; h_id := h_id h; h_mac := h_mac h; baseHostname := baseHostname h; tag := tag h;
     interfaces := i; segmentId := segmentId h; h_remoteGatewayMac := h_remoteGatewayMac h;
     hops := hops h; isSelf := isSelf h; isGateway := isGateway h; myHardIfname := myHardIfname h;
     secondaryMacs := secondaryMacs h; gossipStale := gossipStale h;
     gossipAgeSeconds := gossipAgeSeconds h |}.
Definition with_tag (t : string) (h : host) : host :=
  {| oid := oid h; h_id := h_id h; h_mac := h_mac h; baseHostname := baseHostname h; tag := t;
     interfaces := interfaces h; segmentId := segmentId h; h_remoteGatewayMac := h_remoteGatewayMac h;
     hops := hops h; isSelf := isSelf h; isGateway := isGateway h; myHardIfname := myHardIfname h;
     secondaryMacs := secondaryMacs h; gossipStale := gossipStale h;
     gossipAgeSeconds := gossipAgeSeconds h |}.

(** ** Host records *)

Definition segment_of (n : mesh_node) : string :=
  let gw := toLowerCase (n_remoteGatewayMac n) in
  if decide (n_segment n = "remote") then
    (if decide (gw = "") then "remote:unknown" else ("remote:" ++ gw)%string)
  else "local".

Definition make_host (i : nat) (n : mesh_node) : host :=
  {| oid := i; h_id := toLowerCase (n_mac n); h_mac := n_mac n;
     baseHostname := or_str (n_hostname n) (shortMac (n_mac n)); tag := "";
     interfaces := hostInterfacesForKind (bool_decide (n_segment n = "remote"));
     segmentId := segment_of n; h_remoteGatewayMac := toLowerCase (n_remoteGatewayMac n);
     hops := n_hopsFromSelf n ?? HOPS_UNKNOWN; isSelf := n_isSelf n; isGateway := n_isGateway n;
     myHardIfname := n_myHardIfname n; secondaryMacs := n_secondaryMacs n;
     gossipStale := n_gossipStale n; gossipAgeSeconds := n_gossipAgeSeconds n ?? (-1)%Z |}.

(** The first loop: [hostByMac] and [selfHost]. *)
Fixpoint lift_nodes (i : nat) (nodes : list mesh_node) (m : list (string * host)) (self : option host) :
    list (string * host) * option host :=
  match nodes with
  | [] => (m, self)
  | n :: rest =>
      let h := make_host i n in
      if decide (h_id h = "") then lift_nodes (S i) rest m self
      else lift_nodes (S i) rest (map_set (h_id h) h m) (if isSelf h then Some h else self)
  end.

(** The interfaces this node uses towards any peer. *)
Definition self_ifnames (nodes : list mesh_node) : list string :=
  foldl (λ s n, if negb (n_isSelf n) && negb (bool_decide (n_myHardIfname n = ""))
                then set_add (n_myHardIfname n) s else s) [] nodes.

Definition self_interfaces (nodes : list mesh_node) (i : list (string * role)) : list (string * role) :=
  match self_ifnames nodes with
  | [] => i
  | names => map (λ name, (name, if decide (name = "vxlan0") then BLOS else RF)) (sort compare_units names)
  end.

(** [selfHost.interfaces = …], seen through the map when the record is in it. *)
Definition roll_up (nodes : list mesh_node) (self : option host) (m : list (string * host)) :
    list (string * host) :=
  match self with
  | None => m
  | Some s =>
      map (λ e, (e.1, if decide (oid e.2 = oid s)
                      then with_interfaces (self_interfaces nodes (interfaces e.2)) e.2 else e.2)) m
  end.

(** ** Segments *)

Section View.
Context (localeCompare : string → string → Z).

(** Distinct remote segments, each with its gateway's record if it is known. *)
Definition collect_gateway (m : list (string * host)) (acc : list (string * option host))
    (e : string * host) : list (string * option host) :=
  let h := e.2 in
  if decide (segmentId h = "local") then acc
  else match map_get (segmentId h) acc with
       | Some _ => acc
       | None => map_set (segmentId h) (map_get (h_remoteGatewayMac h) m) acc
       end.

Definition remoteGatewayHosts (m : list (string * host)) : list (string * option host) :=
  foldl (collect_gateway m) [] m.

Definition segment_name (e : string * option host) : string :=
  match e.2 with Some g => or_str (baseHostname g) e.1 | None => e.1 end.

Definition new_segment (id label : string) (k : seg_kind) (anchor : option string) : segment :=
  {| seg_id := id; seg_label := label; seg_kind_of := k; anchorHost := anchor; seg_hosts := []; seg_edges := [] |}.

Definition remote_segment (e : string * option host) : segment :=
  match e.2 with
  | Some g => new_segment e.1 ("REMOTE MESH · " ++ baseHostname g)%string KRemote (Some (h_id g))
  | None => new_segment e.1 ("REMOTE MESH · " ++ shortMac (String.substring 7 (String.length e.1 - 7) e.1))%string
              KRemote None
  end.

Definition build_segments (m : list (string * host)) : list segment :=
  (if existsb (λ e, bool_decide (segmentId e.2 = "local")) m
   then [new_segment "local" "LOCAL" KLocal None] else [])
  ++ map remote_segment
       (sort (λ a b, localeCompare (segment_name a) (segment_name b)) (remoteGatewayHosts m)).

(** ** Hosts *)

Definition host_compare (a b : host) : Z :=
  if negb (Bool.eqb (isSelf a) (isSelf b)) then (if isSelf a then -1 else 1)
  else if negb (hops a =? hops b)%Z then (hops a - hops b)%Z
  else localeCompare (baseHostname a) (baseHostname b).

Definition tag_hosts (l : list host) : list host := imap (λ i h, with_tag (padTag i) h) l.

Definition sorted_hosts (m : list (string * host)) : list host := tag_hosts (sort host_compare (map snd m)).

Definition push_host (segs : list segment) (h : host) : list segment :=
  map (λ s, if decide (seg_id s = segmentId h)
            then {| seg_id := seg_id s; seg_label := seg_label s; seg_kind_of := seg_kind_of s;
                    anchorHost := anchorHost s; seg_hosts := seg_hosts s ++ [h]; seg_edges := seg_edges s |}
            else s) segs.

(** [Math.min(...)] over the hops of a segment that has hosts. *)
Definition min_hops (l : list host) : Z :=
  match map hops l with
  | [] => 0
  | x :: r => foldl Z.min x r
  end.

Definition anchor_segment (s : segment) : segment :=
  let keep :=
    bool_decide (seg_kind_of s ≠ KRemote) || bool_decide (length (seg_hosts s) = 0)
    || match anchorHost s with
       | Some a => negb (bool_decide (a = "")) && existsb (λ h, bool_decide (h_id h = a)) (seg_hosts s)
       | None => false
       end in
  if keep then s
  else
    let m := min_hops (seg_hosts s) in
    let candidates := sort (λ a b, localeCompare (baseHostname a) (baseHostname b))
                        (filter (λ h, hops h = m) (seg_hosts s)) in
    {| seg_id := seg_id s; seg_label := seg_label s; seg_kind_of := seg_kind_of s;
       anchorHost := h_id <$> (match head candidates with Some h => Some h | None => head (seg_hosts s) end);
       seg_hosts := seg_hosts s; seg_edges := seg_edges s |}.

(** ** Edges *)

Definition resolve_edge (m : list (string * host)) (e : mesh_edge) : option edge :=
  let a := toLowerCase (e_fromMac e) in
  let b := toLowerCase (e_toMac e) in
  if decide (a = "" ∨ b = "" ∨ a = b) then None
  else
    match map_get a m, map_get b m with
    | Some ha, Some hb =>
        Some {| hostA := a; hostB := b; metric := e_metric e;
                blos := e_blos e || negb (bool_decide (segmentId ha = segmentId hb));
                onMyPath := e_onMyPath e |}
    | _, _ => None
    end.

Definition push_edge (id : option string) (segs : list segment) (e : edge) : list segment :=
  map (λ s, if decide (Some (seg_id s) = id)
            then {| seg_id := seg_id s; seg_label := seg_label s; seg_kind_of := seg_kind_of s;
                    anchorHost := anchorHost s; seg_hosts := seg_hosts s; seg_edges := seg_edges s ++ [e] |}
            else s) segs.

(** The loop over the edges: the tunnel edges, the count of the others, and the
    segments that received them. *)
Definition place_edge (m : list (string * host)) (acc : list edge * nat * list segment) (e : edge) :
    list edge * nat * list segment :=
  let '(b, n, segs) := acc in
  if blos e then (b ++ [e], n, segs)
  else (b, S n, push_edge (segmentId <$> map_get (hostA e) m) segs e).

Definition hops_max (hosts : list host) : Z :=
  match map hops (filter (λ h, negb (isSelf h) ∧ (hops h < HOPS_UNKNOWN)%Z) hosts) with
  | [] => 0
  | x :: l => foldl Z.max x l
  end.

Definition empty_view : topo_view :=
  {| v_self := None; v_hosts := []; v_segments := []; v_blosEdges := [];
     v_counts := {| c_hosts := 0; c_segments := 0; c_links := 0; c_blosLinks := 0; c_hopsMax := 0 |};
     v_algorithm := ""; v_gossipCoverage := None |}.

Definition buildTopologyView (t : option topology) : topo_view :=
  match t with
  | None => empty_view
  | Some t =>
      if decide (length (t_nodes t) = 0) then empty_view
      else
        let '(m0, self) := lift_nodes 0 (t_nodes t) [] None in
        let m := roll_up (t_nodes t) self m0 in
        let hosts := sorted_hosts m in
        let segs := map anchor_segment (foldl push_host (build_segments m) hosts) in
        let edges := omap (resolve_edge m) (t_edges t) in
        let '(b, links, segs') := foldl (place_edge m) ([], 0%nat, segs) edges in
        {| v_self :=
             (λ s, match List.find (λ h, bool_decide (oid h = oid s)) hosts with
                   | Some h => h
                   | None => with_interfaces (self_interfaces (t_nodes t) (interfaces s)) s
                   end) <$> self;
           v_hosts := hosts; v_segments := segs'; v_blosEdges := b;
           v_counts := {| c_hosts := length hosts; c_segments := length segs'; c_links := links;
                          c_blosLinks := length b; c_hopsMax := hops_max hosts |};
           v_algorithm := t_algorithm t; v_gossipCoverage := t_gossipCoverage t |}
  end.
End View.

(** ** Lemmas *)

(** *** Host records *)

(** Every key is the identifier of its record. *)
Definition map_wf (m : list (string * host)) : Prop :=
  NoDup (map fst m) ∧ Forall (λ e, e.1 = h_id e.2 ∧ e.1 ≠ "") m.

Lemma map_set_wf h m : map_wf m → h_id h ≠ "" → map_wf (map_set (h_id h) h m).
Proof.
  intros [H1 H2] Hne. split.
  - destruct (decide (h_id h ∈ map fst m)) as [Hin|Hin]; [by rewrite map_set_keys|].
    rewrite map_set_new, map_app by done. apply NoDup_app. split_and?; [done| |apply NoDup_singleton].
    by intros x Hx ->%list_elem_of_singleton.
  - rewrite Forall_forall in *. intros e [->|He]%map_set_elem; [done|by apply H2].
Qed.

Lemma lift_nodes_spec nodes i m self :
  map_wf m →
  map_wf (lift_nodes i nodes m self).1
  ∧ (∀ id, id ∈ map fst (lift_nodes i nodes m self).1 ↔
       id ∈ map fst m ∨ (id ≠ "" ∧ ∃ n, n ∈ nodes ∧ toLowerCase (n_mac n) = id)).
Proof.
  revert i m self. induction nodes as [|n nodes IH]; intros i m self Hwf; simpl.
  - split; [done|]. intros id. split; [by left|]. by intros [?|(_ & n & ?%elem_of_nil & _)].
  - case_decide as He.
    + destruct (IH (S i) m self Hwf) as [H1 H2]. split; [done|]. intros id. rewrite H2.
      setoid_rewrite elem_of_cons. naive_solver.
    + destruct (IH (S i) (map_set (toLowerCase (n_mac n)) (make_host i n) m)
        (if n_isSelf n then Some (make_host i n) else self)) as [H1 H2].
      { by apply (map_set_wf (make_host i n)). }
      split; [done|]. intros id. rewrite H2, map_set_key_in. setoid_rewrite elem_of_cons. naive_solver.
Qed.

Lemma roll_up_map {B} (f : string * host → B) nodes self m :
  (∀ k h i, f (k, with_interfaces i h) = f (k, h)) → map f (roll_up nodes self m) = map f m.
Proof.
  intros Hf. destruct self as [s|]; [|done]. simpl. rewrite map_map. apply map_ext. intros [k h]. simpl.
  case_decide; [apply Hf|done].
Qed.

Lemma roll_up_wf nodes self m : map_wf m → map_wf (roll_up nodes self m).
Proof.
  intros [H1 H2]. split; [by rewrite roll_up_map|]. destruct self as [s|]; [|done].
  apply Forall_fmap. eapply Forall_impl; [exact H2|]. intros [k h]. simpl. by case_decide.
Qed.

Lemma tag_hosts_map {B} (f : host → B) l : (∀ t h, f (with_tag t h) = f h) → map f (tag_hosts l) = map f l.
Proof.
  intros Hf. unfold tag_hosts. change (map f) with (fmap (M := list) f). rewrite fmap_imap.
  rewrite <- (imap_const f). apply imap_ext. intros i x _. apply Hf.
Qed.

(** *** Segments *)

Lemma collect_gateway_keys m' m :
  let r := foldl (collect_gateway m') [] m in
  NoDup (map fst r)
  ∧ ∀ id, id ∈ map fst r ↔ id ≠ "local" ∧ ∃ e, e ∈ m ∧ segmentId e.2 = id.
Proof.
  induction m as [|e m IH] using rev_ind; simpl.
  { split; [constructor|]. intros id. split; [by intros ?%elem_of_nil|]. by intros (_ & e & ?%elem_of_nil & _). }
  rewrite foldl_app. simpl. destruct IH as [H1 H2]. setoid_rewrite elem_of_app. setoid_rewrite list_elem_of_singleton.
  unfold collect_gateway at 1 3. destruct (decide (segmentId e.2 = "local")) as [Hl|Hl].
  { split; [done|]. intros id. rewrite H2. naive_solver. }
  destruct (map_get (segmentId e.2) _) as [g|] eqn:Hg.
  - split; [done|]. intros id. rewrite H2. apply map_get_Some, (list_elem_of_fmap_2 fst) in Hg. simpl in Hg.
    apply H2 in Hg as (_ & e' & He' & Hs). naive_solver.
  - apply map_get_None in Hg. split.
    + rewrite map_set_new, map_app by done. apply NoDup_app. split_and?; [done| |apply NoDup_singleton].
      by intros x Hx ->%list_elem_of_singleton.
    + intros id. rewrite map_set_key_in, H2. naive_solver.
Qed.

Section ViewLemmas.
Context (localeCompare : string → string → Z).

Lemma build_segments_ids m :
  let ids := map seg_id (build_segments localeCompare m) in
  NoDup ids ∧ (∀ id, id ∈ ids ↔ ∃ e, e ∈ m ∧ segmentId e.2 = id).
Proof.
  destruct (collect_gateway_keys m m) as [H1 H2]. fold (remoteGatewayHosts m) in H1, H2.
  unfold build_segments. rewrite map_app, map_map.
  rewrite (map_ext (λ x, seg_id (remote_segment x)) fst) by (intros [k [g|]]; done).
  set (keys := map fst (sort _ (remoteGatewayHosts m))).
  assert (keys ≡ₚ map fst (remoteGatewayHosts m)) as Hk by (unfold keys; by rewrite sort_perm).
  rewrite <- Hk in H1. setoid_rewrite <- Hk in H2.
  destruct (existsb _ m) eqn:He; simpl.
  - apply existsb_exists in He as (e & Hin%list_elem_of_In & Hs%bool_decide_eq_true). split.
    + constructor; [|done]. by intros [? _]%H2.
    + intros id. rewrite elem_of_cons, H2. split; [|destruct (decide (id = "local")); naive_solver].
      intros [->|[_ ?]]; [by exists e|done].
  - split; [done|]. intros id. rewrite H2. split; [by intros [_ ?]|]. intros (e & Hin & <-).
    split; [|by exists e]. intros Hs. assert (existsb (λ e, bool_decide (segmentId e.2 = "local")) m = true); [|congruence].
    apply existsb_exists. exists e. split; [by apply list_elem_of_In|by apply bool_decide_eq_true].
Qed.

(** Pushing the hosts: each segment receives its own, in order. *)
Lemma push_hosts_eq hosts segs :
  foldl push_host segs hosts =
  map (λ s, {| seg_id := seg_id s; seg_label := seg_label s; seg_kind_of := seg_kind_of s;
               anchorHost := anchorHost s;
               seg_hosts := seg_hosts s ++ filter (λ h, segmentId h = seg_id s) hosts;
               seg_edges := seg_edges s |}) segs.
Proof.
  revert segs. induction hosts as [|h hosts IH]; intros segs; simpl.
  - rewrite <- (map_id segs) at 1. apply map_ext. intros []. simpl. by rewrite app_nil_r.
  - rewrite IH. unfold push_host. rewrite map_map. apply map_ext. intros s. rewrite filter_cons.
    destruct (decide (seg_id s = segmentId h)) as [He|He].
    + rewrite decide_True by done. simpl. by rewrite <- app_assoc.
    + by rewrite decide_False by done.
Qed.

Lemma push_edge_eq m acc es :
  let r := foldl (place_edge m) acc es in
  r.1.1 = acc.1.1 ++ filter (λ e, blos e) es
  ∧ r.1.2 = acc.1.2 + length (filter (λ e, negb (blos e)) es)
  ∧ r.2 = map (λ s, {| seg_id := seg_id s; seg_label := seg_label s; seg_kind_of := seg_kind_of s;
               anchorHost := anchorHost s; seg_hosts := seg_hosts s;
               seg_edges := seg_edges s ++ filter (λ e, blos e = false
                 ∧ Some (seg_id s) = segmentId <$> map_get (hostA e) m) es |}) acc.2.
Proof.
  revert acc. induction es as [|e es IH]; intros [[b n] segs]; simpl.
  { rewrite app_nil_r. split_and?; [done|lia|]. rewrite <- (map_id segs) at 1. apply map_ext. intros [].
    simpl. by rewrite app_nil_r. }
  destruct (blos e) eqn:Hb; rewrite !filter_cons; rewrite Hb; simpl.
  - destruct (IH (b ++ [e], n, segs)) as (H1 & H2 & H3). simpl in *. split_and?; [by rewrite H1, <- app_assoc|done|].
    rewrite H3. apply map_ext. intros s. rewrite filter_cons, decide_False; [done|]. rewrite Hb. naive_solver.
  - destruct (IH (b, S n, push_edge (segmentId <$> map_get (hostA e) m) segs e)) as (H1 & H2 & H3). simpl in *.
    split_and?; [done|lia|]. rewrite H3. unfold push_edge. rewrite map_map. apply map_ext. intros s.
    rewrite filter_cons. destruct (decide (Some (seg_id s) = segmentId <$> map_get (hostA e) m)) as [Hs|Hs].
    + rewrite decide_True by done. simpl. by rewrite <- app_assoc.
    + rewrite decide_False by naive_solver. done.
Qed.

(** Grouping by a key is a partition. *)
Lemma group_perm {A K} `{EqDecision K} (f : A → K) (ids : list K) (l : list A) :
  NoDup ids → (∀ x, x ∈ l → f x ∈ ids) →
  concat (map (λ id, filter (λ x, f x = id) l) ids) ≡ₚ l.
Proof.
  intros Hn. induction l as [|x l IH]; intros Hin.
  - clear Hin Hn. by induction ids.
  - etransitivity; [|apply perm_skip, IH; intros y Hy; apply Hin; by right].
    destruct (list_elem_of_split ids (f x)) as (i1 & i2 & ->); [apply Hin; by left|].
    apply NoDup_app in Hn as (_ & Hn1 & Hn2). apply NoDup_cons in Hn2 as [Hn2 _].
    assert (∀ i, f x ∉ i → map (λ id, filter (λ y, f y = id) (x :: l)) i
      = map (λ id, filter (λ y, f y = id) l) i) as Hsame.
    { intros i Hi. induction i as [|j i IHi]; [done|]. apply not_elem_of_cons in Hi as [Hj Hi].
      simpl map. rewrite IHi, filter_cons, decide_False by done. done. }
    rewrite !map_app, !concat_app, Hsame by (intros Hx; apply (Hn1 (f x) Hx); by left).
    simpl map. rewrite Hsame, filter_cons, decide_True by done. simpl concat.
    simpl. symmetry. apply Permutation_middle.
Qed.

Lemma anchor_segment_fields s :
  let s' := anchor_segment localeCompare s in
  seg_id s' = seg_id s ∧ seg_hosts s' = seg_hosts s ∧ seg_kind_of s' = seg_kind_of s
  ∧ seg_edges s' = seg_edges s ∧ seg_label s' = seg_label s
  ∧ (seg_kind_of s = KRemote → seg_hosts s ≠ [] →
     ∃ a, anchorHost s' = Some a ∧ a ∈ map h_id (seg_hosts s)).
Proof.
  unfold anchor_segment. set (keep := bool_decide _ || _ || _). destruct keep eqn:Hk; simpl; split_and?; try done.
  - intros Hr Hne. unfold keep in Hk. rewrite Hr in Hk. simpl in Hk.
    apply orb_true_iff in Hk as [Hk|Hk]; [by apply bool_decide_eq_true, nil_length_inv in Hk|].
    destruct (anchorHost s) as [a|]; [|done]. exists a. split; [done|].
    apply andb_true_iff in Hk as [_ Hk]. apply existsb_exists in Hk as (h & Hh%list_elem_of_In & <-%bool_decide_eq_true).
    by apply list_elem_of_fmap_2.
  - intros Hr Hne. destruct (seg_hosts s) as [|h0 r] eqn:Hs; [done|]. rewrite <- Hs in *.
    set (c := sort _ (filter _ (seg_hosts s))).
    destruct (head c) as [h|] eqn:Hc; [|exists (h_id h0); split; [by rewrite Hs|rewrite Hs; by left]].
    exists (h_id h). split; [done|]. apply list_elem_of_fmap_2.
    assert (h ∈ c) as Hin by (destruct c; [done|]; injection Hc as ->; by left).
    unfold c in Hin. rewrite sort_perm in Hin. by apply list_elem_of_filter in Hin as [_ ?].
Qed.

Lemma sorted_hosts_map {B} (f : host → B) m :
  (∀ t h, f (with_tag t h) = f h) → map f (sorted_hosts localeCompare m) ≡ₚ map f (map snd m).
Proof. intros Hf. unfold sorted_hosts. rewrite tag_hosts_map by done. by rewrite sort_perm. Qed.

(** The map the view is built from. *)
Definition view_map (t : topology) : list (string * host) :=
  let r := lift_nodes 0 (t_nodes t) [] None in roll_up (t_nodes t) r.2 r.1.

Definition view_segments (t : topology) : list segment :=
  map (anchor_segment localeCompare)
    (foldl push_host (build_segments localeCompare (view_map t)) (sorted_hosts localeCompare (view_map t))).

Lemma view_map_wf t : map_wf (view_map t).
Proof. apply roll_up_wf, lift_nodes_spec. split; [constructor|by constructor]. Qed.

Lemma view_map_keys t id :
  id ∈ map fst (view_map t) ↔ id ≠ "" ∧ ∃ n, n ∈ t_nodes t ∧ toLowerCase (n_mac n) = id.
Proof.
  unfold view_map. rewrite roll_up_map by done.
  assert (map_wf []) as Hwf by (split; [constructor|by constructor]).
  rewrite (proj2 (lift_nodes_spec (t_nodes t) 0 [] None Hwf) id). simpl. rewrite elem_of_nil. tauto.
Qed.

Lemma map_wf_ids m : map_wf m → map h_id (map snd m) = map fst m.
Proof.
  intros [_ H]. rewrite map_map. apply map_ext_in. intros e He. rewrite Forall_forall in H.
  symmetry. by apply H, list_elem_of_In.
Qed.

(** The fields of the view. *)
Lemma view_fields t :
  t_nodes t ≠ [] →
  let v := buildTopologyView localeCompare (Some t) in
  let m := view_map t in
  let edges := omap (resolve_edge m) (t_edges t) in
  v_hosts v = sorted_hosts localeCompare m
  ∧ v_blosEdges v = filter (λ e, blos e) edges
  ∧ v_segments v = map (λ s, {| seg_id := seg_id s; seg_label := seg_label s; seg_kind_of := seg_kind_of s;
               anchorHost := anchorHost s; seg_hosts := seg_hosts s;
               seg_edges := seg_edges s ++ filter (λ e, blos e = false
                 ∧ Some (seg_id s) = segmentId <$> map_get (hostA e) m) edges |}) (view_segments t)
  ∧ v_counts v = {| c_hosts := length (v_hosts v); c_segments := length (v_segments v);
                    c_links := length (filter (λ e, negb (blos e)) edges);
                    c_blosLinks := length (v_blosEdges v); c_hopsMax := hops_max (v_hosts v) |}.
Proof.
  intros Hn v m edges. unfold v, buildTopologyView.
  rewrite decide_False by (by intros ?%nil_length_inv).
  destruct (lift_nodes 0 (t_nodes t) [] None) as [m0 self] eqn:Hl.
  assert (roll_up (t_nodes t) self m0 = m) as -> by (unfold m, view_map; by rewrite Hl).
  fold edges. fold (view_segments t).
  pose proof (push_edge_eq m ([], 0, view_segments t) edges) as He. simpl in He.
  destruct (foldl (place_edge m) _ edges) as [[b n] segs]. simpl in He. destruct He as (-> & -> & ->).
  done.
Qed.

Lemma build_segments_new m s :
  s ∈ build_segments localeCompare m →
  seg_hosts s = [] ∧ seg_edges s = [] ∧ (seg_kind_of s = KLocal ↔ seg_id s = "local").
Proof.
  unfold build_segments. intros [H|H]%elem_of_app.
  - destruct (existsb _ m); [|by apply elem_of_nil in H]. by apply list_elem_of_singleton in H as ->.
  - apply list_elem_of_fmap in H as (e & -> & He). rewrite sort_perm in He.
    assert (e.1 ≠ "local") as Hl.
    { apply (list_elem_of_fmap_2 fst) in He. by apply (collect_gateway_keys m m) in He as [? _]. }
    destruct e as [k [g|]]; simpl in *; split_and?; done.
Qed.

(** What the segments hold. *)
Lemma view_segments_spec t :
  let m := view_map t in
  let hosts := sorted_hosts localeCompare m in
  let segs := view_segments t in
  NoDup (map seg_id segs)
  ∧ (∀ id, id ∈ map seg_id segs ↔ ∃ h, h ∈ hosts ∧ segmentId h = id)
  ∧ (∀ s, s ∈ segs →
       seg_hosts s = filter (λ h, segmentId h = seg_id s) hosts ∧ seg_edges s = []
       ∧ (seg_kind_of s = KLocal ↔ seg_id s = "local")
       ∧ (seg_kind_of s = KRemote → seg_hosts s ≠ [] → ∃ a, anchorHost s = Some a ∧ a ∈ map h_id (seg_hosts s))).
Proof.
  intros m hosts segs. destruct (build_segments_ids m) as [H1 H2].
  assert (map seg_id segs = map seg_id (build_segments localeCompare m)) as Hids.
  { unfold segs, view_segments. fold m. rewrite push_hosts_eq, !map_map. apply map_ext. intros s.
    match goal with |- seg_id (anchor_segment _ ?x) = _ => by apply (anchor_segment_fields x) end. }
  rewrite Hids. split; [done|]. split.
  - intros id. rewrite H2.
    assert (map segmentId hosts ≡ₚ map segmentId (map snd m)) as Hp by (by apply sorted_hosts_map).
    assert (id ∈ map segmentId hosts ↔ id ∈ map segmentId (map snd m)) as He by (by rewrite Hp).
    rewrite map_map in He. rewrite !list_elem_of_fmap in He. naive_solver.
  - intros s Hs. unfold segs, view_segments in Hs. fold m in Hs. rewrite push_hosts_eq in Hs.
    apply list_elem_of_fmap in Hs as (s1 & -> & Hs). apply list_elem_of_fmap in Hs as (s0 & -> & Hs).
    apply build_segments_new in Hs as (G1 & G2 & G3).
    match goal with |- context [anchor_segment _ ?x] =>
      destruct (anchor_segment_fields x) as (F1 & F2 & F3 & F4 & _ & F5) end.
    rewrite F1, F2, F3, F4. cbn [seg_id seg_hosts seg_kind_of seg_edges] in *. rewrite G1 in *.
    split_and?; try done; apply G3.
Qed.

Lemma resolved_spec m w :
  is_Some (resolve_edge m w) ↔
  let a := toLowerCase (e_fromMac w) in let b := toLowerCase (e_toMac w) in
  a ≠ "" ∧ b ≠ "" ∧ a ≠ b ∧ a ∈ map fst m ∧ b ∈ map fst m.
Proof.
  unfold resolve_edge. simpl. case_decide as Hd; [split; [by intros [? ?]|tauto]|].
  assert (∀ k, map_get k m = None ↔ k ∉ map fst m) as Hg by (intros k; apply (map_get_None k m)).
  destruct (map_get (toLowerCase (e_fromMac w)) m) as [ha|] eqn:Ha;
    [apply map_get_Some, (list_elem_of_fmap_2 fst) in Ha
    |apply Hg in Ha; split; [by intros [? ?]|tauto]].
  destruct (map_get (toLowerCase (e_toMac w)) m) as [hb|] eqn:Hb;
    [apply map_get_Some, (list_elem_of_fmap_2 fst) in Hb
    |apply Hg in Hb; split; [by intros [? ?]|tauto]].
  simpl in *. split; [tauto|]. intros _. by eexists.
Qed.

Lemma resolved_ends m (ws : list mesh_edge) e :
  e ∈ omap (resolve_edge m) ws →
  ∃ ha hb, map_get (hostA e) m = Some ha ∧ map_get (hostB e) m = Some hb
    ∧ (blos e = false → segmentId ha = segmentId hb).
Proof.
  intros (w & _ & Hw)%list_elem_of_omap. unfold resolve_edge in Hw. case_decide; [done|].
  destruct (map_get (toLowerCase (e_fromMac w)) m) as [ha|] eqn:Ha; [|done].
  destruct (map_get (toLowerCase (e_toMac w)) m) as [hb|] eqn:Hb; [|done]. injection Hw as <-. simpl.
  exists ha, hb. split_and?; [done|done|]. intros [_ Hsg]%orb_false_iff. apply negb_false_iff in Hsg.
  by apply bool_decide_eq_true in Hsg.
Qed.

Lemma blos_split (l : list edge) : filter (λ e, blos e) l ++ filter (λ e, blos e = false) l ≡ₚ l.
Proof.
  induction l as [|e l IH]; [done|]. rewrite !filter_cons. destruct (blos e); simpl.
  - by rewrite IH.
  - rewrite <- Permutation_middle. by rewrite IH.
Qed.

Lemma link_count (l : list edge) :
  length (filter (λ e, negb (blos e)) l) + length (filter (λ e, blos e) l) = length l.
Proof.
  induction l as [|e l IH]; [done|]. rewrite !filter_cons. destruct (blos e); simpl; lia.
Qed.

Lemma view_ids t k :
  t_nodes t ≠ [] →
  k ∈ map h_id (v_hosts (buildTopologyView localeCompare (Some t))) ↔ k ∈ map fst (view_map t).
Proof.
  intros Hn. destruct (view_fields t Hn) as (-> & _). rewrite sorted_hosts_map by done.
  by rewrite map_wf_ids by apply view_map_wf.
Qed.

(** The record behind a key is shown. *)
Lemma known_host t k h :
  map_get k (view_map t) = Some h →
  ∃ h', h' ∈ sorted_hosts localeCompare (view_map t) ∧ h_id h' = k ∧ segmentId h' = segmentId h.
Proof.
  intros Hk. apply map_get_Some in Hk. pose proof (view_map_wf t) as [_ Hwf]. rewrite Forall_forall in Hwf.
  destruct (Hwf _ Hk) as [Hid _]. simpl in Hid.
  pose proof (sorted_hosts_map (λ h, (h_id h, segmentId h)) (view_map t)) as Hp.
  assert ((k, segmentId h) ∈ map (λ h, (h_id h, segmentId h)) (sorted_hosts localeCompare (view_map t))) as Hin.
  { rewrite Hp by done. rewrite map_map. apply list_elem_of_fmap. exists (k, h). simpl. by rewrite <- Hid. }
  apply list_elem_of_fmap in Hin as (h' & [= -> ->] & Hin). by exists h'.
Qed.

Lemma in_segment t k h id :
  map_get k (view_map t) = Some h → segmentId h = id →
  k ∈ map h_id (filter (λ h, segmentId h = id) (sorted_hosts localeCompare (view_map t))).
Proof.
  intros (h' & Hin & <- & Hs)%known_host <-. apply list_elem_of_fmap_2. by apply list_elem_of_filter.
Qed.

Lemma host_compare_laws : cmp_laws localeCompare → cmp_laws (host_compare localeCompare).
Proof.
  intros [Ht Htr]. unfold host_compare. split.
  - intros x y. specialize (Ht (baseHostname x) (baseHostname y)).
    destruct (isSelf x), (isSelf y); simpl; try lia;
      (destruct (Z.eqb_spec (hops x) (hops y)) as [He|He]; destruct (Z.eqb_spec (hops y) (hops x)); simpl; lia).
  - intros x y z. specialize (Htr (baseHostname x) (baseHostname y) (baseHostname z)).
    destruct (isSelf x), (isSelf y), (isSelf z); simpl; try lia;
      (destruct (Z.eqb_spec (hops x) (hops y)); destruct (Z.eqb_spec (hops y) (hops z));
       destruct (Z.eqb_spec (hops x) (hops z)); simpl; lia).
Qed.

(** ** Properties *)

(** C21: the view of any graph.  The hosts are the nodes with an address, one per
    address up to case; every host is in exactly one segment, the segments are not
    empty and have distinct identifiers, and a remote segment is anchored on one of
    its own hosts.  Hosts are tagged by their rank, and the counts are those of the
    lists shown. *)
Theorem topology_partition (t : topology) :
  let v := buildTopologyView localeCompare (Some t) in
  (∀ id, id ∈ map h_id (v_hosts v) ↔ id ≠ "" ∧ ∃ n, n ∈ t_nodes t ∧ toLowerCase (n_mac n) = id)
  ∧ NoDup (map h_id (v_hosts v))
  ∧ concat (map seg_hosts (v_segments v)) ≡ₚ v_hosts v
  ∧ NoDup (map seg_id (v_segments v))
  ∧ (∀ s, s ∈ v_segments v → seg_hosts s ≠ []
       ∧ (∀ h, h ∈ seg_hosts s → segmentId h = seg_id s)
       ∧ (seg_kind_of s = KRemote → ∃ a, anchorHost s = Some a ∧ a ∈ map h_id (seg_hosts s)))
  ∧ (∀ i h, v_hosts v !! i = Some h → tag h = padTag i)
  ∧ (c_hosts (v_counts v), c_segments (v_counts v), c_blosLinks (v_counts v))
    = (length (v_hosts v), length (v_segments v), length (v_blosEdges v)).
Proof.
  destruct (decide (t_nodes t = [])) as [Hn|Hn].
  { intros v. assert (v = empty_view) as -> by (unfold v, buildTopologyView; by rewrite Hn).
    rewrite Hn. simpl. split_and?; try done; try constructor.
    - by intros ?%elem_of_nil.
    - by intros (_ & n & ?%elem_of_nil & _).
    - by apply elem_of_nil in H.
    - by apply elem_of_nil in H. }
  intros v. destruct (view_fields t Hn) as (Hh & Hb & Hs & Hc). fold v in Hh, Hb, Hs, Hc.
  destruct (view_segments_spec t) as (S1 & S2 & S3).
  assert (map h_id (v_hosts v) ≡ₚ map fst (view_map t)) as Hids.
  { rewrite Hh, sorted_hosts_map by done. by rewrite map_wf_ids by apply view_map_wf. }
  assert (map seg_id (v_segments v) = map seg_id (view_segments t)) as Hsi by (by rewrite Hs, map_map).
  assert (map seg_hosts (v_segments v) = map (λ id, filter (λ h, segmentId h = id) (v_hosts v)) (map seg_id (view_segments t))) as Hsh.
  { rewrite Hs, !map_map, Hh. apply map_ext_in. intros s Hin%list_elem_of_In. simpl. by apply S3. }
  split_and?.
  - intros id. by rewrite Hids, view_map_keys.
  - rewrite Hids. apply view_map_wf.
  - rewrite Hsh. apply group_perm; [done|]. intros h Hin. apply S2. exists h. by rewrite <- Hh.
  - by rewrite Hsi.
  - intros s Hin. rewrite Hs in Hin. apply list_elem_of_fmap in Hin as (s0 & -> & Hin). simpl.
    destruct (S3 s0 Hin) as (E1 & _ & _ & E2).
    assert (seg_hosts s0 ≠ []) as Hne.
    { destruct (proj1 (S2 (seg_id s0))) as (h & Hhin & He); [by apply list_elem_of_fmap_2|].
      rewrite E1. intros Hnil. apply (not_elem_of_nil h). rewrite <- Hnil. by apply list_elem_of_filter. }
    split_and?; [done| |auto]. intros h. rewrite E1. by intros [? _]%list_elem_of_filter.
  - intros i h. rewrite Hh. unfold sorted_hosts, tag_hosts. rewrite list_lookup_imap.
    intros (h0 & _ & ->)%fmap_Some. done.
  - by rewrite Hc.
Qed.

(** The edges of the view.  Every edge of the graph between two different known
    hosts is drawn exactly once, and no other: inside a segment when both ends are
    in it and the server did not flag it, as a tunnel otherwise, so that no edge
    inside a segment leaves it; the link counts add up. *)
Theorem topology_edges (t : topology) :
  t_nodes t ≠ [] →
  let v := buildTopologyView localeCompare (Some t) in
  v_blosEdges v ++ concat (map seg_edges (v_segments v)) ≡ₚ omap (resolve_edge (view_map t)) (t_edges t)
  ∧ (∀ w, is_Some (resolve_edge (view_map t) w) ↔
       let a := toLowerCase (e_fromMac w) in let b := toLowerCase (e_toMac w) in
       a ≠ b ∧ a ∈ map h_id (v_hosts v) ∧ b ∈ map h_id (v_hosts v))
  ∧ (∀ s e, s ∈ v_segments v → e ∈ seg_edges s →
       blos e = false ∧ hostA e ∈ map h_id (seg_hosts s) ∧ hostB e ∈ map h_id (seg_hosts s))
  ∧ c_links (v_counts v) + c_blosLinks (v_counts v) = length (omap (resolve_edge (view_map t)) (t_edges t)).
Proof.
  intros Hn v. destruct (view_fields t Hn) as (Hh & Hb & Hs & Hc). fold v in Hh, Hb, Hs, Hc.
  destruct (view_segments_spec t) as (S1 & S2 & S3).
  set (m := view_map t) in *. set (edges := omap (resolve_edge m) (t_edges t)) in *.
  assert (∀ k, k ∈ map h_id (v_hosts v) ↔ k ∈ map fst m) as Hid by (intros k; by apply view_ids).
  assert (∀ e, e ∈ edges → segmentId <$> map_get (hostA e) m ∈ map Some (map seg_id (view_segments t))) as Hseg.
  { intros e He. destruct (resolved_ends m _ e He) as (ha & hb & H & _). rewrite H. simpl.
    apply list_elem_of_fmap_2, S2. destruct (known_host t _ _ H) as (h' & ? & _ & ?). by exists h'. }
  assert (map seg_edges (v_segments v)
    = map (λ k, filter (λ e, segmentId <$> map_get (hostA e) m = k) (filter (λ e, blos e = false) edges))
        (map Some (map seg_id (view_segments t)))) as Hse.
  { rewrite Hs, !map_map. apply map_ext_in. intros s Hin%list_elem_of_In. simpl.
    destruct (S3 s Hin) as (_ & -> & _). simpl. rewrite list_filter_filter. apply list_filter_iff.
    intros e. naive_solver. }
  split_and?.
  - rewrite Hse, group_perm, Hb; [apply blos_split|by apply (NoDup_fmap_2 Some)|].
    intros e [_ He]%list_elem_of_filter. by apply Hseg.
  - intros w. rewrite resolved_spec. cbv zeta. rewrite !Hid.
    assert (∀ k, k ∈ map fst m → k ≠ "") as Hk by (intros k [? _]%view_map_keys; done).
    split; [tauto|]. intros (H1 & H2 & H3). split_and?; auto.
  - intros s e Hin He. rewrite Hs in Hin. apply list_elem_of_fmap in Hin as (s0 & -> & Hin).
    cbn [seg_edges seg_hosts] in *. destruct (S3 s0 Hin) as (E1 & E2 & _). rewrite E2 in He. simpl in He.
    apply list_elem_of_filter in He as [[Hbl Hk] He].
    destruct (resolved_ends m _ e He) as (ha & hb & Ha & Hbb & Hsg). rewrite Ha in Hk. injection Hk as Hk.
    split; [done|]. rewrite E1. split; eapply in_segment; [exact Ha|done|exact Hbb|].
    rewrite Hk. symmetry. by apply Hsg.
  - rewrite Hc. cbn [c_links c_blosLinks]. rewrite Hb. apply link_count.
Qed.

(** With a consistent [localeCompare], the hosts are listed with this node
    first, then by hops, then by name. *)
Theorem topology_order (t : topology) i j a b :
  cmp_laws localeCompare →
  i < j →
  let hosts := v_hosts (buildTopologyView localeCompare (Some t)) in
  hosts !! i = Some a → hosts !! j = Some b →
  (isSelf b = true → isSelf a = true)
  ∧ (isSelf a = isSelf b → (hops a <= hops b)%Z)
  ∧ (isSelf a = isSelf b → hops a = hops b → (localeCompare (baseHostname a) (baseHostname b) <= 0)%Z).
Proof.
  intros Hl Hij hosts Ha Hb. destruct (decide (t_nodes t = [])) as [Hn|Hn].
  { unfold hosts, buildTopologyView in Ha. by rewrite Hn in Ha. }
  unfold hosts in *. destruct (view_fields t Hn) as (Hh & _). rewrite Hh in Ha, Hb.
  unfold sorted_hosts, tag_hosts in Ha, Hb. rewrite list_lookup_imap in Ha, Hb.
  apply fmap_Some in Ha as (a0 & Ha & ->). apply fmap_Some in Hb as (b0 & Hb & ->). simpl.
  pose proof (sort_sorted (host_compare localeCompare) (map snd (view_map t)) (host_compare_laws Hl)) as Hs.
  pose proof (sorted_lookup _ _ i j _ _ Hs Ha Hb Hij) as H. unfold host_compare in H.
  destruct (isSelf a0), (isSelf b0); simpl in H; try lia; (split; [done|]);
    (destruct (Z.eqb_spec (hops a0) (hops b0)); simpl in H; [split; [lia|done]|split; [lia|lia]]).
Qed.
End ViewLemmas.

Definition example_graph : topology :=
  {| t_nodes := [Build_mesh_node "AA:00:00:00:00:01" "node-a" "local" "" (Some 0%Z) true false "" [] false None;
                 Build_mesh_node "aa:00:00:00:00:02" "node-b" "local" "" (Some 1%Z) false false "wlan0" [] false None;
                 Build_mesh_node "aa:00:00:00:00:03" "far" "remote" "AA:00:00:00:00:03" (Some 2%Z) false true "vxlan0" [] false None];
     t_edges := [Build_mesh_edge "aa:00:00:00:00:01" "AA:00:00:00:00:02" 255 false true;
                 Build_mesh_edge "aa:00:00:00:00:01" "aa:00:00:00:00:03" 100 false true;
                 Build_mesh_edge "aa:00:00:00:00:01" "aa:00:00:00:00:99" 1 false false];
     t_algorithm := "BATMAN_V"; t_gossipCoverage := None |}.

Definition by_length (a b : string) : Z := (String.length a - String.length b)%Z.

Theorem topology_edges_witness :
  let v := buildTopologyView by_length (Some example_graph) in
  map (λ e, (hostA e, hostB e)) (v_blosEdges v) = [("aa:00:00:00:00:01", "aa:00:00:00:00:03")]
  ∧ map seg_label (v_segments v) = ["LOCAL"; "REMOTE MESH · far"]
  ∧ c_links (v_counts v) + c_blosLinks (v_counts v) = 2.
Proof.
  intros v. split; [vm_compute; reflexivity|]. split; [vm_compute; reflexivity|].
  etransitivity; [apply (topology_edges by_length example_graph); discriminate|]. vm_compute. reflexivity.
Defined.

Theorem topology_order_witness :
  ∃ a b, v_hosts (buildTopologyView by_length (Some example_graph)) !! 0 = Some a
  ∧ v_hosts (buildTopologyView by_length (Some example_graph)) !! 1 = Some b
  ∧ (isSelf b = true → isSelf a = true).
Proof.
  eexists _, _. split; [vm_compute; reflexivity|]. split; [vm_compute; reflexivity|].
  apply (topology_order by_length example_graph 0 1); [|lia|vm_compute; reflexivity|vm_compute; reflexivity].
  split; unfold by_length; intros; lia.
Defined.
