(* ===== verification/MeshApi.v ===== *)
(** [services/meshApi.js]: what the pages learn of the mesh.

    One fetch is a function of what the daemon answers to each call it makes;
    the module's variable [snapshotUnsupported] is threaded through.  Fields of a
    message that may be missing are options; where the source passes a field
    through without a default it stays one. *)
From S2P Require Import Prelude Topology.
Open Scope js_scope.

(** ** Messages and their plain forms *)

Record wire_status := {
  isConnected : option bool; connectedNeighbors : option Z; activeMeshInterfaces : option Z;
  isMeshGateway : option bool; selectedGatewayMac : option string
}.
Record status := mk_status {
  connected : bool; status_neighbors : Z; mesh_interfaces : Z; is_gateway : bool;
  selected_gateway_mac : string
}.

Definition mapStatus (st : option wire_status) : status :=
  mk_status ((st ≫= isConnected) ?? false) ((st ≫= connectedNeighbors) ?? 0%Z)
    ((st ≫= activeMeshInterfaces) ?? 0%Z) ((st ≫= isMeshGateway) ?? false)
    ((st ≫= selectedGatewayMac) ?? "").

Record wire_node := { wn_hostname : option string; wn_ipaddr : option string }.
Record node := { hostname : option string; ip : option string }.

Definition mapNodes (nodes : option (list wire_node)) : list node :=
  map (λ n, {| hostname := wn_hostname n; ip := wn_ipaddr n |}) (nodes ?? []).

Record wire_rate := {
  w_bitrateKbps : option Z; w_phy : option Z; w_widthMhz : option Z; w_mcs : option Z; w_nss : option Z
}.
Record link_rate := { bitrateKbps : Z; phy : Z; widthMhz : Z; mcs : Z; nss : Z }.

Definition mapLinkRate (r : option wire_rate) : option link_rate :=
  (λ r, {| bitrateKbps := w_bitrateKbps r ?? 0%Z; phy := w_phy r ?? 0%Z;
           widthMhz := w_widthMhz r ?? 0%Z; mcs := w_mcs r ?? (-1)%Z; nss := w_nss r ?? (-1)%Z |}) <$> r.

Record wire_neighbor := {
  wb_neighbor : option string; wb_hardwareAddress : option string; wb_signal : option Z;
  wb_throughput : option Z; wb_interface : option string; wb_tx : option wire_rate;
  wb_rx : option wire_rate
}.
Record neighbor := {
  name : option string; mac : option string; signal : option Z; throughput : option Z;
  iface : string; tx : option link_rate; rx : option link_rate
}.

Definition mapNeighbors (l : option (list wire_neighbor)) : list neighbor :=
  map (λ n, {| name := wb_neighbor n; mac := wb_hardwareAddress n; signal := wb_signal n;
               throughput := wb_throughput n; iface := wb_interface n ?? "";
               tx := mapLinkRate (wb_tx n); rx := mapLinkRate (wb_rx n) |}) (l ?? []).

Record wire_interface := {
  wi_name : option string; wi_interfaceType : option string; wi_frequency : option string;
  wi_channelWidth : option string
}.
Record interface := {
  i_name : option string; i_type : option string; frequency : option string; channel_width : option string
}.

Definition mapInterfaces (l : option (list wire_interface)) : list interface :=
  map (λ i, {| i_name := wi_name i; i_type := wi_interfaceType i; frequency := wi_frequency i;
               channel_width := wi_channelWidth i |}) (l ?? []).

(** ** Mesh status *)

Inductive rpc_error := Unimplemented | OtherError.
#[export] Instance rpc_error_eq : EqDecision rpc_error.
Proof. solve_decision. Defined.
Abbreviation answer A := (A + rpc_error)%type.

Record wire_snapshot := {
  s_status : option wire_status; s_nodes : option (list wire_node);
  s_neighbors : option (list wire_neighbor); s_interfaces : option (list wire_interface)
}.

(** What the daemon answers during one fetch. *)
Record daemon := {
  getMeshSnapshot : answer wire_snapshot;
  getServiceStatus : answer (option wire_status);
  listNodes : answer (option (list wire_node));
  listMeshNeighbors : answer (option (list wire_neighbor));
  listWirelessInterfaces : answer (option (list wire_interface))
}.

Record mesh_status := mk_mesh_status {
  ms_status : option status; ms_nodes : option (list node); ms_neighbors : option (list neighbor);
  ms_interfaces : option (list interface)
}.

Inductive rpc := GetMeshSnapshot | GetServiceStatus | ListNodes | ListMeshNeighbors | ListWirelessInterfaces.
#[export] Instance rpc_eq : EqDecision rpc.
Proof. solve_decision. Defined.

Definition legacy_calls : list rpc :=
  [GetServiceStatus; ListNodes; ListMeshNeighbors; ListWirelessInterfaces].

(** [Promise.allSettled]: a failed call is a field that is [null]. *)
Definition settled {A B} (f : A → B) (a : answer A) : option B :=
  match a with inl x => Some (f x) | inr _ => None end.

Definition fetchMeshStatusLegacy (d : daemon) : mesh_status :=
  mk_mesh_status (settled mapStatus (getServiceStatus d)) (settled mapNodes (listNodes d))
    (settled mapNeighbors (listMeshNeighbors d)) (settled mapInterfaces (listWirelessInterfaces d)).

(** The result, the new value of [snapshotUnsupported] and the calls made. *)
Definition fetchMeshStatus (snapshotUnsupported : bool) (d : daemon) : mesh_status * bool * list rpc :=
  if snapshotUnsupported then (fetchMeshStatusLegacy d, true, legacy_calls)
  else
    match getMeshSnapshot d with
    | inl resp =>
        (mk_mesh_status ((λ st, mapStatus (Some st)) <$> s_status resp) (Some (mapNodes (s_nodes resp)))
           (Some (mapNeighbors (s_neighbors resp))) (Some (mapInterfaces (s_interfaces resp))),
         false, [GetMeshSnapshot])
    | inr e =>
        (fetchMeshStatusLegacy d, bool_decide (e = Unimplemented), GetMeshSnapshot :: legacy_calls)
    end.

(** ** Topology *)

Record wire_mesh_node := {
  wm_mac : option string; wm_secondaryMacs : option (list string); wm_hostname : option string;
  wm_segment : option string; wm_remoteGatewayMac : option string; wm_hopsFromSelf : option Z;
  wm_myHardIfname : option string; wm_isSelf : option bool; wm_isGateway : option bool;
  wm_gossipStale : option bool; wm_gossipAgeSeconds : option Z
}.
Record wire_mesh_edge := {
  we_fromMac : option string; we_toMac : option string; we_metric : option Z; we_blos : option bool;
  we_onMyPath : option bool
}.
Record wire_topology := {
  wt_selfMac : option string; wt_selfHostname : option string; wt_algorithm : option string;
  wt_collectedAt : option Z; wt_gossipCoverage : option (option Z * option Z);
  wt_nodes : option (list wire_mesh_node); wt_edges : option (list wire_mesh_edge)
}.

(** The plain object: [topology] of the graph module with what only the page
    uses; [collectedAt] is in milliseconds. *)
Record mesh_topology := {
  selfMac : string; selfHostname : string; collectedAt : option Z; graph : topology
}.

(** [wm_gossipAgeSeconds] is [None] when it is not a finite number. *)
Definition map_mesh_node (n : wire_mesh_node) : mesh_node :=
  {| n_mac := wm_mac n ?? ""; n_hostname := wm_hostname n ?? ""; n_segment := wm_segment n ?? "local";
     n_remoteGatewayMac := wm_remoteGatewayMac n ?? ""; n_hopsFromSelf := Some (wm_hopsFromSelf n ?? 0%Z);
     n_isSelf := wm_isSelf n ?? false; n_isGateway := wm_isGateway n ?? false;
     n_myHardIfname := wm_myHardIfname n ?? ""; n_secondaryMacs := wm_secondaryMacs n ?? [];
     n_gossipStale := wm_gossipStale n ?? false;
     n_gossipAgeSeconds := Some (wm_gossipAgeSeconds n ?? (-1)%Z) |}.
Definition map_mesh_edge (e : wire_mesh_edge) : mesh_edge :=
  {| e_fromMac := we_fromMac e ?? ""; e_toMac := we_toMac e ?? ""; e_metric := we_metric e ?? 0%Z;
     e_blos := we_blos e ?? false; e_onMyPath := we_onMyPath e ?? false |}.

Definition fetchMeshTopology (resp : answer (option wire_topology)) : option mesh_topology :=
  match resp with
  | inl (Some t) =>
      Some {| selfMac := wt_selfMac t ?? ""; selfHostname := wt_selfHostname t ?? "";
              collectedAt := (λ s, s * 1000)%Z <$> wt_collectedAt t;
              graph := {| t_nodes := map map_mesh_node (wt_nodes t ?? []);
                          t_edges := map map_mesh_edge (wt_edges t ?? []);
                          t_algorithm := wt_algorithm t ?? "";
                          t_gossipCoverage :=
                            (λ c, (fst c ?? 0%Z, snd c ?? 0%Z)) <$> wt_gossipCoverage t |} |}
  | _ => None
  end.

(** ** Topology delta *)

Record duration := { d_seconds : option Z; d_nanos : option Z }.

Definition durationToMs (d : option duration) : Z :=
  match d with
  | None => 0
  | Some d => ((d_seconds d ?? 0%Z) * 1000 + (d_nanos d ?? 0%Z) / 1000000)%Z
  end.

Record wire_delta := {
  wd_actualWindow : option duration; wd_routesAdded : option Z; wd_routesLost : option Z;
  wd_gatewayChanges : option Z; wd_reconverge : option duration
}.
Record topology_delta := mk_delta {
  routesAdded : Z; routesLost : Z; gatewayChanges : Z; reconvergeMs : Z; actualWindowMs : Z
}.

Definition fetchMeshTopologyDelta (resp : answer wire_delta) : option topology_delta :=
  match resp with
  | inl r =>
      let actualWindowMs := durationToMs (wd_actualWindow r) in
      if (actualWindowMs <? 1000)%Z then None
      else Some (mk_delta (wd_routesAdded r ?? 0%Z) (wd_routesLost r ?? 0%Z)
                   (wd_gatewayChanges r ?? 0%Z) (durationToMs (wd_reconverge r)) actualWindowMs)
  | inr _ => None
  end.

(** ** Runs of fetches *)

(** Each fetch of a run against what the daemon answers during it. *)
Fixpoint fetch_run (unsupported : bool) (ds : list daemon) : list (mesh_status * list rpc) :=
  match ds with
  | [] => []
  | d :: ds =>
      let '(r, unsupported, calls) := fetchMeshStatus unsupported d in
      (r, calls) :: fetch_run unsupported ds
  end.

(** The bundle a daemon that implements the snapshot builds from its services. *)
Definition consistent (d : daemon) : Prop :=
  ∃ st ns nbs ifs,
    getMeshSnapshot d = inl {| s_status := Some st; s_nodes := ns; s_neighbors := nbs; s_interfaces := ifs |}
    ∧ getServiceStatus d = inl (Some st) ∧ listNodes d = inl ns ∧ listMeshNeighbors d = inl nbs
    ∧ listWirelessInterfaces d = inl ifs.

(** What the specification allows one fetch to return: each part is the daemon's,
    from the snapshot or from its own call, or missing because that call failed. *)
Definition part_ok {A B C} (f : A → B) (part : C → option B) (own : answer A) (snap : answer C)
    (shown : option B) : Prop :=
  match snap with
  | inl c => shown = part c ∨ shown = settled f own
  | inr _ => shown = settled f own
  end.

Lemma fetch_run_unsupported ds :
  fetch_run true ds = map (λ d, (fetchMeshStatusLegacy d, legacy_calls)) ds.
Proof. induction ds as [|d ds IH]; [done|]. cbn. by rewrite IH. Qed.

(** C31: The two ways of reading the mesh agree on a daemon whose services agree; a
    failed call costs its own part and no other; and once the daemon has said it
    does not implement the snapshot, it is never asked for it again, while any
    other failure is followed by another attempt. *)
Theorem mesh_status_fallback :
  (∀ d, consistent d → fst (fst (fetchMeshStatus false d)) = fst (fst (fetchMeshStatus true d)))
  ∧ (∀ u d, let r := fst (fst (fetchMeshStatus u d)) in
       part_ok mapNodes (λ s, Some (mapNodes (s_nodes s))) (listNodes d) (getMeshSnapshot d) (ms_nodes r)
       ∧ part_ok mapNeighbors (λ s, Some (mapNeighbors (s_neighbors s))) (listMeshNeighbors d)
           (getMeshSnapshot d) (ms_neighbors r)
       ∧ part_ok mapInterfaces (λ s, Some (mapInterfaces (s_interfaces s))) (listWirelessInterfaces d)
           (getMeshSnapshot d) (ms_interfaces r)
       ∧ part_ok mapStatus (λ s, (λ st, mapStatus (Some st)) <$> s_status s) (getServiceStatus d)
           (getMeshSnapshot d) (ms_status r))
  ∧ (∀ ds1 d ds2, (∀ d', d' ∈ ds1 → getMeshSnapshot d' ≠ inr Unimplemented) →
       let run := fetch_run false (ds1 ++ d :: ds2) in
       (∀ i, i ≤ length ds1 → ∃ r calls, run !! i = Some (r, calls) ∧ GetMeshSnapshot ∈ calls)
       ∧ (getMeshSnapshot d = inr Unimplemented →
          drop (S (length ds1)) run = map (λ d, (fetchMeshStatusLegacy d, legacy_calls)) ds2)).
Proof.
  split_and!.
  - intros d (st & ns & nbs & ifs & H1 & H2 & H3 & H4 & H5). unfold fetchMeshStatus, fetchMeshStatusLegacy.
    by rewrite H1, H2, H3, H4, H5.
  - intros u d. unfold part_ok, fetchMeshStatus. destruct u, (getMeshSnapshot d); cbn; tauto.
  - intros ds1 d ds2. induction ds1 as [|d1 ds1 IH]; intros Hds; cbn [app fetch_run length].
    + split.
      * intros i Hi. assert (i = 0) as -> by lia.
        unfold fetchMeshStatus. destruct (getMeshSnapshot d); cbn; eexists _, _;
          (split; [done|apply list_elem_of_here]).
      * intros Hu. unfold fetchMeshStatus. rewrite Hu. cbn. by rewrite fetch_run_unsupported.
    + destruct IH as [IH1 IH2]; [set_solver|].
      assert (∃ r calls, fetchMeshStatus false d1 = (r, false, calls) ∧ GetMeshSnapshot ∈ calls)
        as (r & calls & -> & Hc).
      { specialize (Hds d1 (list_elem_of_here _ _)). unfold fetchMeshStatus.
        destruct (getMeshSnapshot d1) as [x|[]]; [|done|]; eexists _, _; (split; [done|apply list_elem_of_here]). }
      split; [|exact IH2]. intros [|i] Hi; [by eexists _, _|]. apply IH1. lia.
Qed.

Definition old_daemon (nodes : answer (option (list wire_node))) : daemon :=
  {| getMeshSnapshot := inr Unimplemented; getServiceStatus := inl None; listNodes := nodes;
     listMeshNeighbors := inr OtherError; listWirelessInterfaces := inl None |}.

Lemma mesh_status_fallback_witness :
  drop 1 (fetch_run false [old_daemon (inl None); old_daemon (inr OtherError)])
  = [(mk_mesh_status (Some (mapStatus None)) None None (Some []), legacy_calls)].
Proof.
  destruct mesh_status_fallback as (_ & _ & H).
  destruct (H [] (old_daemon (inl None)) [old_daemon (inr OtherError)]) as [_ H'].
  { intros d' Hd. by apply not_elem_of_nil in Hd. }
  apply H'. reflexivity.
Defined.

(** A delta is shown exactly when the window reached one second. *)
Lemma delta_window r :
  is_Some (fetchMeshTopologyDelta (inl r)) ↔ (1000 ≤ durationToMs (wd_actualWindow r))%Z.
Proof.
  cbn. destruct (Z.ltb_spec (durationToMs (wd_actualWindow r)) 1000);
    (split; [intros [? ?]; (done || lia)|intros; (lia || done)]).
Qed.

(** Every node and edge the daemon sent is in the graph, in order. *)
Lemma topology_complete t :
  ∃ m, fetchMeshTopology (inl (Some t)) = Some m
    ∧ map n_mac (t_nodes (graph m)) = map (λ n, wm_mac n ?? "") (wt_nodes t ?? [])
    ∧ map (λ e, (e_fromMac e, e_toMac e)) (t_edges (graph m))
      = map (λ e, (we_fromMac e ?? "", we_toMac e ?? "")) (wt_edges t ?? []).
Proof. eexists. split; [done|]. cbn. by rewrite !map_map. Qed.
