(* ===== verification/DashboardView.v ===== *)
(** The pure part of [pages/Dashboard.jsx] and [pages/dashboardAlerts.js]: texts,
    link quality, the peer table and the alerts.

    Numbers that the source divides are doubles ([JsNumber]).  Times are whole
    milliseconds. *)
From S2P Require Import Prelude JsString JsNumber JsList Topology MeshApi.

Open Scope js_scope.

(** ** Texts *)

(** [dur.seconds]; [None] is a missing duration. *)
Definition formatUptime (dur : option Z) : string :=
  match dur with
  | None => "—"
  | Some totalSec =>
      if (totalSec <=? 0)%Z then "0m"
      else
        let d := (totalSec / 86400)%Z in
        let h := (totalSec mod 86400 / 3600)%Z in
        let m := (totalSec mod 3600 / 60)%Z in
        join " " ((if (0 <? d)%Z then [(pretty d ++ "d")%string] else [])
          ++ (if (0 <? h)%Z || (0 <? d)%Z then [(pretty h ++ "h")%string] else [])
          ++ [(pretty m ++ "m")%string])
  end.

(** [None] or zero is falsy. *)
Definition formatBytes (bytes : option Z) : string :=
  match bytes with
  | None | Some 0%Z => "0 B"
  | Some n =>
      let by_ (k : Z) := fdiv (of_int n) (of_int k) in
      if (n <? 1024)%Z then pretty n ++ " B"
      else if (n <? 1024 * 1024)%Z then toFixed 1 (by_ 1024%Z) ++ " KB"
      else if (n <? 1024 * 1024 * 1024)%Z then toFixed 1 (by_ (1024 * 1024)%Z) ++ " MB"
      else toFixed 2 (by_ (1024 * 1024 * 1024)%Z) ++ " GB"
  end%string.

Definition formatMbps (bps : option Z) : string :=
  match bps with
  | None => "—"
  | Some bps =>
      if (bps <=? 0)%Z then "—"
      else
        let mbps := fdiv (of_int bps) (of_int 1000000) in
        if flt mbps (fdiv (of_int 1) (of_int 10))
        then toFixed 0 (fdiv (of_int bps) (of_int 1000)) ++ " Kbps"
        else if flt mbps (of_int 10) then toFixed 2 mbps ++ " Mbps"
        else toFixed 1 mbps ++ " Mbps"
  end%string.

Definition PHY_LABELS (p : Z) : string :=
  match p with 1 => "Legacy" | 2 => "HT" | 3 => "VHT" | 4 => "HE" | 5 => "EHT" | _ => "" end%Z.

Definition formatLinkRate (rate : option link_rate) : string :=
  match rate with
  | None => "—"
  | Some r => if decide (bitrateKbps r = 0%Z) then "—" else formatMbps (Some (bitrateKbps r * 1000)%Z)
  end.

Definition formatLinkRateDetail (rate : option link_rate) (ifname : string) : string :=
  match rate with
  | None => ""
  | Some r =>
      let label := PHY_LABELS (phy r) in
      join " · " ((if decide (ifname = "") then [] else [ifname])
        ++ (if decide (label = "")
            then (if (0 <? widthMhz r)%Z then [(pretty (widthMhz r) ++ " MHz")%string] else [])
            else [if (0 <? widthMhz r)%Z then (label ++ pretty (widthMhz r))%string else label])
        ++ (if (0 <=? mcs r)%Z then [("MCS" ++ pretty (mcs r))%string] else [])
        ++ (if (0 <? nss r)%Z then [(pretty (nss r) ++ "SS")%string] else []))
  end.

(** [tsMs] is [None] or zero when falsy. *)
Definition formatLast (tsMs : option Z) (nowMs : Z) : string :=
  match tsMs with
  | None | Some 0%Z => "—"
  | Some t =>
      let diff := Z.max 0 (nowMs - t) in
      if (diff <? 1000)%Z then "<1s"
      else if (diff <? 60000)%Z then pretty (diff / 1000)%Z ++ "s"
      else if (diff <? 3600000)%Z then pretty (diff / 60000)%Z ++ "m"
      else pretty (diff / 3600000)%Z ++ "h"
  end%string.

(** [Math.max(0, Math.min(100, Math.round((u / t) * 100)))]. *)
Definition memPct (used total : option Z) : Z :=
  let u := used ?? 0%Z in
  let t := total ?? 0%Z in
  if (t <=? 0)%Z then 0
  else Z.max 0 (Z.min 100 (Math_round (fmul (fdiv (of_int u) (of_int t)) (of_int 100)) ?? 0%Z)).

(** ** Link quality *)

(** [None] is a signal that is not a finite number. *)
Definition signalToPct (dbm : option Z) : Z :=
  match dbm with
  | None => 0
  | Some dbm =>
      if decide (dbm = 0%Z) then 0
      else if (-50 <=? dbm)%Z then 100
      else if (dbm <=? -90)%Z then 0
      else Math_round (fmul (fdiv (of_int (dbm + 90)) (of_int 40)) (of_int 100)) ?? 0
  end%Z.

Definition sigBars (dbm : Z) : list string :=
  let pct := signalToPct (Some dbm) in
  let filled := Z.max 0 (Z.min 5 (Math_round (fdiv (of_int pct) (of_int 20)) ?? 0%Z)) in
  map (λ i : nat, if (filled <=? i)%Z then "" else if (filled <=? 1)%Z then "warn" else "on") (seq 0 5).

(** ** The peer table *)

(** [(s || '').toLowerCase()]. *)
Definition lc (s : string) : string := toLowerCase s.

Definition index_node {A} (v : A) (keep : bool) (node : mesh_node) (m : list (string * A))
  : list (string * A) :=
  if keep then
    let m := if decide (n_mac node = "") then m else map_set (lc (n_mac node)) v m in
    foldl (λ m sec, if decide (sec = "") then m else map_set (lc sec) v m) m (n_secondaryMacs node)
  else m.

Definition hostByMac (nodes : list mesh_node) : list (string * string) :=
  foldl (λ m node, index_node (n_hostname node) (bool_decide (n_hostname node ≠ "")) node m) [] nodes.

Definition hopsByMac (nodes : list mesh_node) : list (string * Z) :=
  foldl (λ m node,
    match n_hopsFromSelf node with None => m | Some h => index_node h true node m end) [] nodes.

Definition raise_tq (key : string) (metric : Z) (m : list (string * Z)) : list (string * Z) :=
  if decide (key = "") then m
  else if (map_get key m ?? 0 <? metric)%Z then map_set key metric m else m.
Definition tqByMac (edges : list mesh_edge) : list (string * Z) :=
  foldl (λ m e, raise_tq (lc (e_toMac e)) (e_metric e) (raise_tq (lc (e_fromMac e)) (e_metric e) m))
    [] edges.

(** [(s || '').split('_')[0]]. *)
Definition stripSuffix (s : string) : string := head (split "_" s) ?? "".

(** [s.slice(-n)]. *)
Definition slice_last (n : nat) (s : string) : string :=
  String.substring (String.length s - n) (String.length s) s.

Record peer_row := mk_row {
  r_key : string; r_name : string; r_mac : string; r_hops : Z; r_tq : Z; r_throughput : Z;
  r_tx : option link_rate; r_txIface : string; r_rssi : Z; r_sig : list string; r_lastMs : Z
}.

(** What the loop reads of one neighbor before it looks up its group. *)
Record observation := {
  o_host : string; o_key : string; o_mac : string; o_lastSeenMs : Z; o_signal : Z;
  o_throughput : Z; o_tq : Z; o_hopCount : Z; o_tx : option link_rate; o_txIface : string
}.

Definition observe (nodes : list mesh_node) (edges : list mesh_edge) (history : gmap string Z)
    (nowMs : Z) (n : neighbor) : observation :=
  let m := lc (mac n ?? "") in
  let nm := or_str (name n ?? "") (mac n ?? "") in
  let rawHostname :=
    or_str (map_get m (hostByMac nodes) ?? "") (or_str (name n ?? "") (slice_last 5 m)) in
  let host := stripSuffix rawHostname in
  {| o_host := host; o_key := or_str host m; o_mac := mac n ?? "";
     o_lastSeenMs := history !! nm ?? nowMs; o_signal := signal n ?? 0%Z;
     o_throughput := throughput n ?? 0%Z; o_tq := map_get m (tqByMac edges) ?? 0%Z;
     o_hopCount := map_get m (hopsByMac nodes) ?? 1%Z; o_tx := tx n; o_txIface := iface n |}.

Definition first_row (o : observation) : peer_row :=
  mk_row (o_key o) (o_host o) (o_mac o) (if decide (o_hopCount o = 0%Z) then 1%Z else o_hopCount o)
    (o_tq o) (o_throughput o) (o_tx o) (o_txIface o) (o_signal o) (sigBars (o_signal o))
    (o_lastSeenMs o).

Definition faster (t : link_rate) (existing : option link_rate) : bool :=
  match existing with None => true | Some e => (bitrateKbps e <? bitrateKbps t)%Z end.

Definition join_row (o : observation) (r : peer_row) : peer_row :=
  let stronger := ((o_signal o <? 0) && ((if decide (r_rssi r = 0) then -200 else r_rssi r) <? o_signal o))%Z in
  let quicker := match o_tx o with None => false | Some t => faster t (r_tx r) end in
  mk_row (r_key r) (r_name r)
    (if stronger then or_str (o_mac o) (r_mac r) else r_mac r)
    (if bool_decide (o_hopCount o ≠ 0%Z) && (o_hopCount o <? r_hops r)%Z then o_hopCount o else r_hops r)
    (if (r_tq r <? o_tq o)%Z then o_tq o else r_tq r)
    (if (r_throughput r <? o_throughput o)%Z then o_throughput o else r_throughput r)
    (if quicker then o_tx o else r_tx r) (if quicker then o_txIface o else r_txIface r)
    (if stronger then o_signal o else r_rssi r) (if stronger then sigBars (o_signal o) else r_sig r)
    (if (r_lastMs r <? o_lastSeenMs o)%Z then o_lastSeenMs o else r_lastMs r).

Definition add_observation (groups : list (string * peer_row)) (o : observation)
  : list (string * peer_row) :=
  map_set (o_host o)
    match map_get (o_host o) groups with None => first_row o | Some r => join_row o r end groups.

Definition compare_rows (a b : peer_row) : Z :=
  if decide (r_hops a - r_hops b = 0)%Z then (r_throughput b - r_throughput a)%Z
  else (r_hops a - r_hops b)%Z.

(** [txRate] and [txDetail] are [formatLinkRate] and [formatLinkRateDetail] of the
    row. *)
Definition buildPeerRows (graph : option topology) (neighbors : list neighbor)
    (history : gmap string Z) (nowMs : Z) : list peer_row :=
  let nodes := (t_nodes <$> graph) ?? [] in
  let edges := (t_edges <$> graph) ?? [] in
  sort compare_rows
    (map snd (foldl add_observation [] (map (observe nodes edges history nowMs) neighbors))).

(** ** Alerts *)

Record lost_peer := { l_name : string; l_ageMs : Z }.

Definition findLostPeers (peerHistory : list (string * Z)) (present : list string)
    (nowMs lostMs forgetMs : Z) : list lost_peer :=
  sort (λ a b, l_ageMs a - l_ageMs b)%Z
    (omap (λ '(name, lastSeenMs),
       if bool_decide (name = "") || bool_decide (name ∈ present) then None
       else
         let ageMs := (nowMs - lastSeenMs)%Z in
         if ((lostMs <=? ageMs) && (ageMs <? forgetMs))%Z
         then Some {| l_name := name; l_ageMs := ageMs |} else None) peerHistory).

Inductive alert_level := LevelOk | LevelWarn | LevelCrit.
#[export] Instance alert_level_eq : EqDecision alert_level.
Proof. solve_decision. Defined.
Record alert := mk_alert { level : alert_level; text : string }.

Definition all_alerts (mesh : option mesh_status) (lostPeers : list lost_peer)
    (delta : option topology_delta) : list alert :=
  [if (connected <$> (mesh ≫= ms_status)) ?? false
   then mk_alert LevelOk "MESH UP · CONVERGED" else mk_alert LevelCrit "MESH DOWN · NO NEIGHBORS"]
  ++ map (λ p, mk_alert LevelWarn ("PEER " ++ l_name p ++ " · DISCONNECTED")%string) lostPeers
  ++ match delta with
     | None => []
     | Some d =>
         (if (0 <? routesLost d)%Z
          then [mk_alert LevelWarn (pretty (routesLost d) ++ " ROUTE"
                  ++ (if (1 <? routesLost d)%Z then "S" else "") ++ " LOST · 60s")%string] else [])
         ++ (if ((0 <? routesAdded d) && (routesLost d =? 0))%Z
             then [mk_alert LevelOk ("MESH HEALED · +" ++ pretty (routesAdded d) ++ " ROUTES")%string]
             else [])
     end.

Definition classifyAlerts (mesh : option mesh_status) (lostPeers : list lost_peer)
    (delta : option topology_delta) : list alert :=
  take 6 (all_alerts mesh lostPeers delta).

(** ** Link quality: laws *)

(** The scores from -90 to -50 dBm, computed. *)
Definition pct_table : list Z :=
  [0; 3; 5; 8; 10; 13; 15; 18; 20; 23; 25; 28; 30; 33; 35; 38; 40; 43; 45; 48; 50; 53; 55; 57; 60;
   63; 65; 68; 70; 73; 75; 78; 80; 83; 85; 88; 90; 93; 95; 98; 100]%Z.

Lemma signalToPct_table : map (λ k : nat, signalToPct (Some (k - 90)%Z)) (seq 0 41) = pct_table.
Proof. vm_compute. reflexivity. Qed.

Lemma pct_lookup d :
  (-90 ≤ d ≤ -50)%Z → signalToPct (Some d) = nth (Z.to_nat (d + 90)) pct_table 0%Z.
Proof.
  intros Hd. rewrite <- signalToPct_table.
  rewrite (nth_indep _ _ (signalToPct (Some (0%nat - 90)%Z))) by (rewrite length_map, length_seq; lia).
  rewrite (map_nth (λ k : nat, signalToPct (Some (k - 90)%Z))), seq_nth by lia.
  do 2 f_equal. lia.
Qed.

Lemma pct_outside d :
  (d < -90 → signalToPct (Some d) = 0)%Z ∧ (-50 < d → d ≠ 0 → signalToPct (Some d) = 100)%Z.
Proof.
  unfold signalToPct. split; intros.
  - rewrite decide_False, (proj2 (Z.leb_gt _ _)), (proj2 (Z.leb_le _ _)) by lia. done.
  - rewrite decide_False, (proj2 (Z.leb_le _ _)) by lia. done.
Qed.

(** A score is a percentage, and a stronger signal never scores less; 0 dBm stands
    for no reading. *)
Theorem signalToPct_monotone d d' :
  (d ≤ d')%Z → d' ≠ 0%Z → d ≠ 0%Z →
  (0 ≤ signalToPct (Some d) ≤ signalToPct (Some d'))%Z ∧ (signalToPct (Some d') ≤ 100)%Z.
Proof.
  intros Hle H0' H0.
  assert (forallb (λ i, forallb (λ j, (j <? i)%nat || ((0 <=? nth i pct_table 0)
      && (nth i pct_table 0 <=? nth j pct_table 0) && (nth j pct_table 0 <=? 100))%Z)
      (seq 0 41)) (seq 0 41) = true) as Hall by (vm_compute; reflexivity).
  assert (∀ d d', (-90 ≤ d)%Z → (d ≤ d')%Z → (d' ≤ -50)%Z →
    (0 ≤ signalToPct (Some d) ≤ signalToPct (Some d'))%Z ∧ (signalToPct (Some d') ≤ 100)%Z) as Hin.
  { intros e e' H1 H2 H3. rewrite !pct_lookup by lia. rewrite forallb_forall in Hall.
    specialize (Hall (Z.to_nat (e + 90)) ltac:(apply in_seq; lia)). rewrite forallb_forall in Hall.
    specialize (Hall (Z.to_nat (e' + 90)) ltac:(apply in_seq; lia)).
    apply orb_true_iff in Hall as [Hall%Nat.ltb_lt|Hall]; [lia|]. bool_simpl. lia. }
  assert (signalToPct (Some (-90)%Z) = 0%Z) as Hlo by (vm_compute; reflexivity).
  assert (signalToPct (Some (-50)%Z) = 100%Z) as Hhi by (vm_compute; reflexivity).
  destruct (pct_outside d) as [Ha Hb], (pct_outside d') as [Ha' Hb'].
  destruct (decide (d < -90)%Z), (decide (d' < -90)%Z), (decide (-50 < d)%Z), (decide (-50 < d')%Z);
    try lia.
  all: try (pose proof (Hin (-90)%Z d' ltac:(lia) ltac:(lia) ltac:(lia)); lia).
  all: try (pose proof (Hin d (-50)%Z ltac:(lia) ltac:(lia) ltac:(lia)); lia).
  apply Hin; lia.
Qed.

(** The interpolation at -67 dBm is 57.5, which the double product misses: 57 is
    shown where half would round up. *)
Example minus_67_dbm : signalToPct (Some (-67)%Z) = 57%Z.
Proof. vm_compute. reflexivity. Qed.

(** ** Peer rows *)

(** [row] sums up the observations [os] of one host. *)
Record row_of (os : list observation) (row : peer_row) : Prop := {
  ro_throughput : (∃ o, o ∈ os ∧ o_throughput o = r_throughput row)
    ∧ ∀ o, o ∈ os → (o_throughput o ≤ r_throughput row)%Z;
  ro_tq : (∃ o, o ∈ os ∧ o_tq o = r_tq row) ∧ ∀ o, o ∈ os → (o_tq o ≤ r_tq row)%Z;
  ro_last : (∃ o, o ∈ os ∧ o_lastSeenMs o = r_lastMs row)
    ∧ ∀ o, o ∈ os → (o_lastSeenMs o ≤ r_lastMs row)%Z;
  ro_hops : (∀ o, o ∈ os → (1 ≤ o_hopCount o)%Z) →
    (∃ o, o ∈ os ∧ o_hopCount o = r_hops row) ∧ ∀ o, o ∈ os → (r_hops row ≤ o_hopCount o)%Z;
  ro_rssi : (∀ o, o ∈ os → (-200 < o_signal o ≤ 0)%Z) →
    (∃ o, o ∈ os ∧ o_signal o = r_rssi row)
    ∧ ∀ o, o ∈ os → o_signal o ≠ 0%Z → (o_signal o ≤ r_rssi row)%Z ∧ r_rssi row ≠ 0%Z;
  ro_sig : r_sig row = sigBars (r_rssi row);
  ro_tx : (∃ o, o ∈ os ∧ o_tx o = r_tx row ∧ o_txIface o = r_txIface row)
    ∧ ∀ o t, o ∈ os → o_tx o = Some t →
        ∃ t', r_tx row = Some t' ∧ (bitrateKbps t ≤ bitrateKbps t')%Z
}.

Lemma first_row_of o : row_of [o] (first_row o).
Proof.
  split; cbn; intros.
  1-3: split; [exists o; by rewrite list_elem_of_singleton|intros ? ->%list_elem_of_singleton; lia].
  - pose proof (H o (list_elem_of_here _ _)). rewrite decide_False by lia.
    split; [exists o; by rewrite list_elem_of_singleton|intros ? ->%list_elem_of_singleton; lia].
  - split; [exists o; by rewrite list_elem_of_singleton|].
    intros ? ->%list_elem_of_singleton ?. split; [lia|done].
  - done.
  - split; [exists o; by rewrite list_elem_of_singleton|].
    intros ? t ->%list_elem_of_singleton ->. exists t. split; [done|lia].
Qed.

(** The greatest value of a field so far, with the next one. *)
Lemma extend_max {A} (f : A → Z) os o v :
  ((∃ o, o ∈ os ∧ f o = v) ∧ ∀ o, o ∈ os → (f o ≤ v)%Z) →
  (∃ o', o' ∈ os ++ [o] ∧ f o' = if (v <? f o)%Z then f o else v)
  ∧ ∀ o', o' ∈ os ++ [o] → (f o' ≤ if (v <? f o)%Z then f o else v)%Z.
Proof.
  intros [(o1 & H1 & Hv) Hle]. setoid_rewrite elem_of_app. setoid_rewrite list_elem_of_singleton.
  destruct (Z.ltb_spec v (f o)).
  - split; [exists o; auto|]. intros o' [Ho| ->]; [|lia]. specialize (Hle o' Ho). lia.
  - split; [exists o1; auto|]. intros o' [Ho| ->]; [by apply Hle|lia].
Qed.

Lemma join_row_of os o row : row_of os row → row_of (os ++ [o]) (join_row o row).
Proof.
  intros [Ht Hq Hl Hh Hr Hs Hx]. split; cbn [join_row r_throughput r_tq r_lastMs r_hops r_rssi r_sig r_tx
    r_txIface].
  - by apply extend_max.
  - by apply extend_max.
  - by apply extend_max.
  - setoid_rewrite elem_of_app. setoid_rewrite list_elem_of_singleton. intros H1.
    destruct Hh as [(o1 & H2 & Hv) Hle]; [intros; apply H1; auto|].
    pose proof (H1 o (or_intror eq_refl)). rewrite bool_decide_true by lia. cbn [andb].
    destruct (Z.ltb_spec (o_hopCount o) (r_hops row)).
    + split; [exists o; auto|]. intros o' [Ho| ->]; [|lia]. specialize (Hle o' Ho). lia.
    + split; [exists o1; auto|]. intros o' [Ho| ->]; [by apply Hle|lia].
  - setoid_rewrite elem_of_app. setoid_rewrite list_elem_of_singleton. intros H1.
    destruct Hr as [(o1 & H2 & Hv) Hle]; [intros; apply H1; auto|].
    pose proof (H1 o (or_intror eq_refl)). destruct (Z.ltb_spec (o_signal o) 0); cbn [andb].
    + destruct (decide (r_rssi row = 0)%Z) as [Hz|Hz].
      * rewrite (proj2 (Z.ltb_lt _ _)) by lia. split; [exists o; auto|].
        intros o' [Ho| ->] Hne; [|lia]. by destruct (Hle o' Ho Hne).
      * destruct (Z.ltb_spec (r_rssi row) (o_signal o)).
        -- split; [exists o; auto|]. intros o' [Ho| ->] Hne; [|lia]. destruct (Hle o' Ho Hne). lia.
        -- split; [exists o1; auto|]. intros o' [Ho| ->] Hne; [by apply Hle|lia].
    + split; [exists o1; auto|]. intros o' [Ho| ->] Hne; [by apply Hle|lia].
  - by destruct (_ && _).
  - destruct Hx as [(o1 & H1 & Htx & Hif) Hle]. setoid_rewrite elem_of_app.
    setoid_rewrite list_elem_of_singleton. destruct (o_tx o) as [t|] eqn:Ho.
    + unfold faster. destruct (r_tx row) as [e|] eqn:He.
      * destruct (Z.ltb_spec (bitrateKbps e) (bitrateKbps t)).
        -- split; [exists o; auto|]. intros o' t' [Hin| ->] Ht'; exists t; (split; [done|]).
           { destruct (Hle o' t' Hin Ht') as (? & [= <-] & ?). lia. }
           rewrite Ho in Ht'. injection Ht' as ->. lia.
        -- split; [exists o1; auto|]. intros o' t' [Hin| ->] Ht'; [by apply (Hle o')|].
           rewrite Ho in Ht'. injection Ht' as ->. by exists e.
      * split; [exists o; auto|]. intros o' t' [Hin| ->] Ht'.
        { by destruct (Hle o' t' Hin Ht') as (? & ? & _). }
        rewrite Ho in Ht'. injection Ht' as ->. exists t'. split; [done|lia].
    + split; [exists o1; auto|]. intros o' t' [Hin| ->] Ht'; [by apply (Hle o')|]. by rewrite Ho in Ht'.
Qed.

(** The loop keeps one row per host, in the order hosts are first seen. *)
Record groups_ok (os : list observation) (groups : list (string * peer_row)) : Prop := {
  go_nodup : NoDup (map fst groups);
  go_hosts : ∀ h, h ∈ map fst groups ↔ ∃ o, o ∈ os ∧ o_host o = h;
  go_rows : ∀ h row, map_get h groups = Some row →
    r_name row = h ∧ row_of (filter (λ o, o_host o = h) os) row
}.

Lemma groups_foldl os : groups_ok os (foldl add_observation [] os).
Proof.
  induction os as [|o os IH] using rev_ind.
  { split; [constructor|set_solver|done]. }
  rewrite foldl_snoc. destruct IH as [Hn Hh Hr]. unfold add_observation at 1. split.
  - by apply map_set_NoDup.
  - intros h. rewrite map_set_key_in, Hh. setoid_rewrite elem_of_app.
    setoid_rewrite list_elem_of_singleton. naive_solver.
  - intros h row. rewrite map_get_set, filter_app. case_decide as Heq.
    + subst h. intros [= <-]. rewrite filter_cons_True, filter_nil by done.
      destruct (map_get (o_host o) _) as [r|] eqn:Hg.
      * destruct (Hr _ _ Hg). split; [done|]. by apply join_row_of.
      * assert (filter (λ o', o_host o' = o_host o) os = []) as ->.
        { apply elem_of_nil_inv. intros o' [Ho Hin]%list_elem_of_filter.
          apply map_get_None in Hg. apply Hg, Hh. eauto. }
        split; [done|]. apply first_row_of.
    + intros Hg. rewrite filter_cons_False, filter_nil, app_nil_r by done. by apply Hr.
Qed.

(** C32: The peer table has one row per host, however many radios it is seen on,
    ordered by hops and then by throughput; a row carries the greatest throughput
    and link metric, the fewest hops, the freshest sighting, the strongest signal
    (0, no reading, losing to any), and the fastest rate with the interface it was
    seen on. *)
Theorem peer_rows_summarise graph neighbors history nowMs :
  let obs := map (observe ((t_nodes <$> graph) ?? []) ((t_edges <$> graph) ?? []) history nowMs)
               neighbors in
  let rows := buildPeerRows graph neighbors history nowMs in
  NoDup (map r_name rows)
  ∧ (∀ h, h ∈ map r_name rows ↔ ∃ o, o ∈ obs ∧ o_host o = h)
  ∧ (∀ row, row ∈ rows → row_of (filter (λ o, o_host o = r_name row) obs) row)
  ∧ StronglySorted (λ a b, (compare_rows a b ≤ 0)%Z) rows.
Proof.
  intros obs rows. destruct (groups_foldl obs) as [Hn Hh Hr].
  set (groups := foldl add_observation [] obs) in *.
  assert (map r_name rows ≡ₚ map fst groups) as Hperm.
  { subst rows. unfold buildPeerRows. fold obs groups. rewrite sort_perm.
    replace (map r_name (map snd groups)) with (map fst groups); [done|]. rewrite map_map.
    apply map_ext_in. intros [h row] Hin%list_elem_of_In. cbn.
    symmetry. by apply Hr, map_get_elem. }
  split_and!.
  - by rewrite Hperm.
  - intros h. by rewrite Hperm.
  - intros row Hin. subst rows. unfold buildPeerRows in Hin. fold obs groups in Hin.
    rewrite sort_perm in Hin. apply list_elem_of_fmap in Hin as ([h r] & -> & Hin). cbn.
    apply map_get_elem in Hin; [|done]. by destruct (Hr _ _ Hin) as [-> ?].
  - apply sort_sorted. unfold compare_rows. split.
    + intros x y. destruct (decide (r_hops x - r_hops y = 0)%Z), (decide (r_hops y - r_hops x = 0)%Z); lia.
    + intros x y z. destruct (decide (r_hops x - r_hops y = 0)%Z),
        (decide (r_hops y - r_hops z = 0)%Z), (decide (r_hops x - r_hops z = 0)%Z); lia.
Qed.
