(* ===== verification/Dashboard.v ===== *)
(** [pages/Dashboard.jsx]: the page behind the peer table and the alerts.

    A step is a render with the effects its changed dependencies run, in the
    source's order.  What a render computed ([rows], [lost], [alerts]) is kept,
    because memos that did not change keep it too.  The wall clock of a step is an
    argument of its event; [now] is the page's own clock.  What the panels show is in
    [DashboardPanels]. *)
From S2P Require Import Prelude JsString JsNumber JsList Topology MeshApi DashboardView.

Open Scope js_scope.

Definition NEIGHBOR_STALE_MS : Z := 30000.
Definition PEER_LOST_MS : Z := NEIGHBOR_STALE_MS.
Definition PEER_FORGET_MS : Z := PEER_LOST_MS + 60000.

Record dashboard := mk_dash {
  meshData : option mesh_status;
  topo : option mesh_topology;
  delta : option topology_delta;
  now : Z;
  neighborHistory : gmap string Z;
  peerHist : list (string * Z);
  lqPushes : list Z;
  rows : list peer_row;
  lost : list lost_peer;
  alerts : list alert;
  ackedAlerts : list string
}.

(** [(p.name || '').toUpperCase()]. *)
Definition upper_name (r : peer_row) : string := toUpperCase (r_name r).
Definition present_names (l : list peer_row) : list string :=
  filter (λ n, n ≠ "") (map upper_name l).

(** ** Effects *)

(** The effect on [meshData]. *)
Definition see_neighbor (nowMs : Z) (h : gmap string Z) (n : neighbor) : gmap string Z :=
  let key := or_str (name n ?? "") (mac n ?? "") in
  if decide (key = "") then h else <[key := nowMs]> h.

Definition readings (l : list neighbor) : list Z :=
  omap (λ n,
    if decide (or_str (name n ?? "") (mac n ?? "") = "") then None
    else match signal n with
         | Some s => if decide (s = 0%Z) then None else Some (signalToPct (Some s))
         | None => None
         end) l.

(** [Math.round(sumPct / count)]. *)
Definition average (l : list Z) : Z :=
  Math_round (fdiv (of_int (foldr Z.add 0%Z l)) (of_int (length l))) ?? 0%Z.

Definition neighbor_effect (nowMs : Z) (p : dashboard) : dashboard :=
  match meshData p ≫= ms_neighbors with
  | None => p
  | Some l =>
      let h := foldl (see_neighbor nowMs) (neighborHistory p) l in
      let h := filter (λ e, (nowMs - e.2 ≤ NEIGHBOR_STALE_MS * 10)%Z) h in
      mk_dash (meshData p) (topo p) (delta p) (now p) h (peerHist p)
        (lqPushes p ++ (if decide (readings l = []) then [] else [average (readings l)]))
        (rows p) (lost p) (alerts p) (ackedAlerts p)
  end.

(** The effect on [peerRows]. *)
Definition stamp_peers (nowMs : Z) (l : list peer_row) (hist : list (string * Z)) : list (string * Z) :=
  let hist := foldl (λ h n, map_set n nowMs h) hist (present_names l) in
  filter (λ e, (nowMs - e.2 ≤ PEER_FORGET_MS)%Z) hist.
Definition peer_effect (nowMs : Z) (p : dashboard) : dashboard :=
  mk_dash (meshData p) (topo p) (delta p) (now p) (neighborHistory p)
    (stamp_peers nowMs (rows p) (peerHist p)) (lqPushes p) (rows p) (lost p) (alerts p)
    (ackedAlerts p).

(** The effect on [alerts]. *)
Definition texts (l : list alert) : list string := map text l.
Definition ack_effect (p : dashboard) : dashboard :=
  mk_dash (meshData p) (topo p) (delta p) (now p) (neighborHistory p) (peerHist p) (lqPushes p)
    (rows p) (lost p) (alerts p) (filter (λ t, t ∈ texts (alerts p)) (ackedAlerts p)).

(** ** Renders *)

Definition compute_alerts (p : dashboard) : dashboard :=
  mk_dash (meshData p) (topo p) (delta p) (now p) (neighborHistory p) (peerHist p) (lqPushes p)
    (rows p) (lost p) (classifyAlerts (meshData p) (lost p) (delta p)) (ackedAlerts p).

Definition compute_rows (p : dashboard) : dashboard :=
  let l := buildPeerRows (graph <$> topo p) ((meshData p ≫= ms_neighbors) ?? [])
             (neighborHistory p) (now p) in
  mk_dash (meshData p) (topo p) (delta p) (now p) (neighborHistory p) (peerHist p) (lqPushes p)
    l (findLostPeers (peerHist p) (present_names l) (now p) PEER_LOST_MS PEER_FORGET_MS)
    (alerts p) (ackedAlerts p).

(** A render in which the peer rows change. *)
Definition render (meshChanged : bool) (wall : Z) (p : dashboard) : dashboard :=
  let p := compute_alerts (compute_rows p) in
  let p := if meshChanged then neighbor_effect wall p else p in
  ack_effect (peer_effect wall p).

Definition with_data (m : option mesh_status) (t : option mesh_topology) (d : option topology_delta)
    (n : Z) (p : dashboard) : dashboard :=
  mk_dash m t d n (neighborHistory p) (peerHist p) (lqPushes p) (rows p) (lost p) (alerts p)
    (ackedAlerts p).

(** The snapshots the shared stores hold when the page is opened. *)
Definition DashboardPage (m : option mesh_status) (t : option mesh_topology)
    (d : option topology_delta) (wall : Z) : dashboard :=
  render true wall (mk_dash m t d wall ∅ [] [] [] [] [] []).

Inductive dash_event :=
| MeshArrives (m : option mesh_status) (wall : Z)
| TopologyArrives (t : option mesh_topology) (d : option topology_delta) (wall : Z)
| ClockTicks (wall : Z)
| AckAll.

Definition handleAckAll (p : dashboard) : dashboard :=
  let new := texts (filter (λ a, level a ≠ LevelOk) (alerts p)) in
  mk_dash (meshData p) (topo p) (delta p) (now p) (neighborHistory p) (peerHist p) (lqPushes p)
    (rows p) (lost p) (alerts p)
    (ackedAlerts p ++ filter (λ t, t ∉ ackedAlerts p) new).

(** Memos compare their dependencies: [null] again changes nothing. *)
Definition dash_fire (e : dash_event) (p : dashboard) : dashboard :=
  match e with
  | MeshArrives m wall =>
      if bool_decide (m = None) && bool_decide (meshData p = None) then p
      else render true wall (with_data m (topo p) (delta p) (now p) p)
  | TopologyArrives t d wall =>
      let p' := with_data (meshData p) t d (now p) p in
      if negb (bool_decide (t = None) && bool_decide (topo p = None)) then render false wall p'
      else if negb (bool_decide (d = None) && bool_decide (delta p = None))
           then ack_effect (compute_alerts p') else p
  | ClockTicks wall =>
      if decide (wall = now p) then p
      else render false wall (with_data (meshData p) (topo p) (delta p) wall p)
  | AckAll => handleAckAll p
  end.

Definition visibleAlerts (p : dashboard) : list alert :=
  filter (λ a, level a = LevelOk ∨ text a ∉ ackedAlerts p) (alerts p).

Definition ackableCount (p : dashboard) : nat :=
  length (filter (λ a, level a ≠ LevelOk) (visibleAlerts p)).

(** ACK ALL is disabled when nothing can be acknowledged. *)
Definition dash_enabled (e : dash_event) (p : dashboard) : Prop :=
  match e with AckAll => ackableCount p ≠ 0 | _ => True end.

Definition dash_step (p p' : dashboard) : Prop := ∃ e, dash_enabled e p ∧ p' = dash_fire e p.

(** ** The gateway *)

(** [None] is a field that is missing. *)
Definition gatewayName (deviceHostname : string) (p : dashboard) : string :=
  let st := meshData p ≫= ms_status in
  if (is_gateway <$> st) ?? false then toUpperCase (or_str deviceHostname "SELF")
  else
    let gw := toLowerCase ((selected_gateway_mac <$> st) ?? "") in
    if decide (gw = "") then "—"
    else
      let node := list_find (λ n, gw ∈ map toLowerCase (n_mac n :: n_secondaryMacs n))
                    ((t_nodes <$> (graph <$> topo p)) ?? []) in
      let named := match node with
                   | Some (_, n) => if decide (n_hostname n = "") then None else Some (n_hostname n)
                   | None => None
                   end in
      match named with
      | Some h => toUpperCase h
      | None =>
          let neighbors := (meshData p ≫= ms_neighbors) ?? [] in
          let names := omap (λ n,
            if decide (toLowerCase (mac n ?? "") = gw)
            then (let s := stripSuffix (name n ?? "") in if decide (s = "") then None else Some s)
            else None) neighbors in
          match names with
          | s :: _ => toUpperCase s
          | [] => toUpperCase (String.substring 9 (String.length gw) gw)
          end
      end.

(** ** Invariants *)

Definition dash_reachable m t d wall : dashboard → Prop := rtc dash_step (DashboardPage m t d wall).

(** *** What the operator saw

    A trace of the page: for each render that computed the rows, its wall clock and
    the names in the rows.  It is kept beside the page, not by it. *)
Notation trace := (list (Z * list string)).

Definition renders (e : dash_event) (p : dashboard) : option Z :=
  match e with
  | MeshArrives m wall => if bool_decide (m = None) && bool_decide (meshData p = None) then None else Some wall
  | TopologyArrives t _ wall => if bool_decide (t = None) && bool_decide (topo p = None) then None else Some wall
  | ClockTicks wall => if decide (wall = now p) then None else Some wall
  | AckAll => None
  end.

Definition saw (e : dash_event) (p : dashboard) : trace :=
  match renders e p with Some wall => [(wall, present_names (rows (dash_fire e p)))] | None => [] end.

Inductive dash_run m t d wall : trace → dashboard → Prop :=
| run_open :
    let p := DashboardPage m t d wall in dash_run m t d wall [(wall, present_names (rows p))] p
| run_event tr p e :
    dash_run m t d wall tr p → dash_enabled e p → dash_run m t d wall (tr ++ saw e p) (dash_fire e p).

(** When the peer was last in a row. *)
Definition last_seen (tr : trace) (n : string) : option Z :=
  fst <$> last (filter (λ r : Z * list string, n ∈ r.2) tr).

Record dash_inv (p : dashboard) : Prop := {
  di_alerts : alerts p = classifyAlerts (meshData p) (lost p) (delta p);
  di_lost : ∃ hist, lost p
    = findLostPeers hist (present_names (rows p)) (now p) PEER_LOST_MS PEER_FORGET_MS;
  di_rows : ∃ h, rows p = buildPeerRows (graph <$> topo p) ((meshData p ≫= ms_neighbors) ?? []) h (now p);
  di_acked : ∀ t, t ∈ ackedAlerts p → t ∈ texts (alerts p)
}.

Lemma neighbor_effect_fields wall p :
  let p' := neighbor_effect wall p in
  meshData p' = meshData p ∧ topo p' = topo p ∧ delta p' = delta p ∧ now p' = now p ∧ rows p' = rows p
  ∧ lost p' = lost p ∧ alerts p' = alerts p ∧ ackedAlerts p' = ackedAlerts p ∧ peerHist p' = peerHist p.
Proof. unfold neighbor_effect. by destruct (_ ≫= _). Qed.

Lemma render_spec b wall p :
  let p' := render b wall p in
  let l := buildPeerRows (graph <$> topo p) ((meshData p ≫= ms_neighbors) ?? []) (neighborHistory p) (now p) in
  meshData p' = meshData p ∧ topo p' = topo p ∧ delta p' = delta p ∧ now p' = now p ∧ rows p' = l
  ∧ lost p' = findLostPeers (peerHist p) (present_names l) (now p) PEER_LOST_MS PEER_FORGET_MS
  ∧ alerts p' = classifyAlerts (meshData p) (lost p') (delta p)
  ∧ ackedAlerts p' = filter (λ t, t ∈ texts (alerts p')) (ackedAlerts p)
  ∧ peerHist p' = stamp_peers wall l (peerHist p).
Proof.
  cbv zeta. unfold render. destruct b; [|done].
  destruct (neighbor_effect_fields wall (compute_alerts (compute_rows p)))
    as (H1 & H2 & H3 & H4 & H5 & H6 & H7 & H8 & H9).
  set (q := neighbor_effect wall _) in *. clearbody q. unfold ack_effect, peer_effect.
  cbn [meshData topo delta now rows lost alerts ackedAlerts peerHist].
  rewrite H1, H2, H3, H4, H5, H6, H7, H8, H9. done.
Qed.

Lemma render_inv b wall p : dash_inv (render b wall p).
Proof.
  destruct (render_spec b wall p) as (H1 & H2 & H3 & H4 & H5 & H6 & H7 & H8 & _).
  split.
  - by rewrite H7, H1, H3.
  - exists (peerHist p). by rewrite H6, H5, H4.
  - exists (neighborHistory p). by rewrite H5, H2, H1, H4.
  - intros t. rewrite H8. by intros [? _]%list_elem_of_filter.
Qed.

Lemma ack_elem p t :
  t ∈ ackedAlerts (handleAckAll p)
  ↔ t ∈ ackedAlerts p ∨ ∃ a, a ∈ alerts p ∧ level a ≠ LevelOk ∧ text a = t.
Proof.
  cbn. rewrite elem_of_app, list_elem_of_filter. unfold texts. rewrite list_elem_of_fmap.
  setoid_rewrite list_elem_of_filter. destruct (decide (t ∈ ackedAlerts p)); naive_solver.
Qed.

Lemma dash_fire_inv e p : dash_inv p → dash_inv (dash_fire e p).
Proof.
  intros Hi. destruct e; cbn [dash_fire].
  - destruct (_ && _); [done|apply render_inv].
  - destruct (negb _) eqn:E; [apply render_inv|]. destruct (negb (bool_decide (d = None) && _)); [|done].
    apply negb_false_iff, andb_true_iff in E as [->%bool_decide_eq_true Ht%bool_decide_eq_true].
    destruct Hi as [H1 H2 [h H3] H4]. split; cbn; [done|done| |].
    + exists h. by rewrite H3, Ht.
    + intros t [? _]%list_elem_of_filter. done.
  - case_decide; [done|apply render_inv].
  - destruct Hi as [H1 H2 H3 H4]. split; try done.
    intros t [Ht|(a & Ha & _ & <-)]%ack_elem; [by apply H4|]. by apply (list_elem_of_fmap_2 text).
Qed.

Lemma dash_reachable_inv m t d wall p : dash_reachable m t d wall p → dash_inv p.
Proof.
  revert p. apply rtc_ind_r; [apply render_inv|]. intros p p' _ (e & _ & ->). apply dash_fire_inv.
Qed.

(** Only ACK ALL adds an acknowledgement. *)
Lemma acked_shrinks e p t : e ≠ AckAll → t ∈ ackedAlerts (dash_fire e p) → t ∈ ackedAlerts p.
Proof.
  intros He. destruct e; cbn [dash_fire].
  - destruct (_ && _); [done|].
    destruct (render_spec true wall (with_data m (topo p) (delta p) (now p) p))
      as (_ & _ & _ & _ & _ & _ & _ & -> & _). by intros [_ ?]%list_elem_of_filter.
  - destruct (negb _).
    + destruct (render_spec false wall (with_data (meshData p) t0 d (now p) p))
        as (_ & _ & _ & _ & _ & _ & _ & -> & _). by intros [_ ?]%list_elem_of_filter.
    + destruct (negb _); [|done]. cbn. by intros [_ ?]%list_elem_of_filter.
  - case_decide; [done|].
    destruct (render_spec false wall (with_data (meshData p) (topo p) (delta p) wall p))
      as (_ & _ & _ & _ & _ & _ & _ & -> & _). by intros [_ ?]%list_elem_of_filter.
  - done.
Qed.

Lemma lost_elem hist present nowMs lostMs forgetMs l :
  l ∈ findLostPeers hist present nowMs lostMs forgetMs ↔
  ∃ seen, (l_name l, seen) ∈ hist ∧ l_name l ≠ "" ∧ l_name l ∉ present ∧ l_ageMs l = (nowMs - seen)%Z
    ∧ (lostMs ≤ l_ageMs l < forgetMs)%Z.
Proof.
  unfold findLostPeers. rewrite sort_perm, list_elem_of_omap. split.
  - intros ([n seen] & Hin & H). destruct (bool_decide (n = "") || _) eqn:E; [done|].
    apply orb_false_iff in E as [E1%bool_decide_eq_false E2%bool_decide_eq_false].
    destruct (_ && _) eqn:E3; [|done]. apply andb_true_iff in E3 as [?%Z.leb_le ?%Z.ltb_lt].
    injection H as <-. exists seen. cbn. done.
  - intros (seen & Hin & H1 & H2 & Ha & H3 & H4). exists (l_name l, seen). split; [done|].
    rewrite (bool_decide_false _ H1), (bool_decide_false _ H2). cbn [orb].
    rewrite <- Ha, (proj2 (Z.leb_le _ _)), (proj2 (Z.ltb_lt _ _)) by done. by destruct l.
Qed.

(** *** Sightings *)

Lemma dash_run_reachable m t d wall p :
  dash_reachable m t d wall p ↔ ∃ tr, dash_run m t d wall tr p.
Proof.
  split.
  - revert p. apply rtc_ind_r; [eexists; apply run_open|].
    intros p p' _ (e & He & ->) [tr Hr]. eexists. by apply run_event.
  - intros [tr Hr]. induction Hr as [|tr p e Hr IH He]; [apply rtc_refl|].
    eapply rtc_r; [exact IH|]. by exists e.
Qed.

Lemma last_seen_snoc tr w ns n :
  last_seen (tr ++ [(w, ns)]) n = if decide (n ∈ ns) then Some w else last_seen tr n.
Proof.
  unfold last_seen. rewrite filter_app. case_decide as Hn.
  - rewrite filter_cons_True by done. by rewrite filter_nil, last_snoc.
  - rewrite filter_cons_False by done. by rewrite filter_nil, app_nil_r.
Qed.

Lemma map_set_elem_ne {A} k (v : A) m e :
  NoDup (map fst m) → e ∈ map_set k v m → e = (k, v) ∨ (e.1 ≠ k ∧ e ∈ m).
Proof.
  induction m as [|[k1 v1] m IH]; simpl; [intros _ ->%list_elem_of_singleton; by left|].
  intros [Hk Hm]%NoDup_cons. case_decide as Hd.
  - subst k1. intros [->|He]%elem_of_cons; [by left|]. right. split; [|by right].
    intros <-. apply Hk. by apply list_elem_of_fmap_2.
  - intros [->|He]%elem_of_cons; [right; split; [done|by left]|].
    destruct (IH Hm He) as [->|[? ?]]; [by left|]. right. split; [done|by right].
Qed.

Lemma set_all_elem (w : Z) (ns : list string) (hist : list (string * Z)) (e : string * Z) :
  NoDup (map fst hist) →
  NoDup (map fst (foldl (λ h n, map_set n w h) hist ns))
  ∧ (e ∈ foldl (λ h n, map_set n w h) hist ns →
     (e.1 ∈ ns ∧ e.2 = w) ∨ (e.1 ∉ ns ∧ e ∈ hist)).
Proof.
  intros Hd. induction ns as [|n ns IH] using rev_ind; [split; [done|]; right; split; [apply not_elem_of_nil|done]|].
  rewrite foldl_snoc. destruct IH as [IHd IH]. split; [by apply map_set_NoDup|].
  intros [->|[Hne He]]%map_set_elem_ne; [| |done].
  - left. split; [|done]. apply elem_of_app. right. by left.
  - destruct (IH He) as [[? ?]|[? ?]]; [left|right]; (split; [|done]).
    + apply elem_of_app. by left.
    + rewrite elem_of_app, list_elem_of_singleton. tauto.
Qed.

Lemma NoDup_fst_filter {A B} (P : A * B → Prop) `{!∀ x, Decision (P x)} (l : list (A * B)) :
  NoDup (map fst l) → NoDup (map fst (filter P l)).
Proof.
  induction l as [|x l IH]; [done|]. simpl. intros [Hx Hl]%NoDup_cons. rewrite filter_cons.
  case_decide; [|by apply IH]. simpl. apply NoDup_cons. split; [|by apply IH].
  intros (y & Hy & [_ Hin]%list_elem_of_filter)%list_elem_of_fmap. apply Hx. rewrite Hy.
  by apply list_elem_of_fmap_2.
Qed.

(** The history holds sightings, each the peer's last, and the peers reported lost
    were found in such a history. *)
Definition hist_inv (tr : trace) (hist : list (string * Z)) : Prop :=
  NoDup (map fst hist) ∧ ∀ n s, (n, s) ∈ hist → last_seen tr n = Some s.

Definition seen_inv (tr : trace) (p : dashboard) : Prop :=
  hist_inv tr (peerHist p)
  ∧ ∀ l, l ∈ lost p → l_name l ∉ present_names (rows p)
      ∧ (∃ seen, last_seen tr (l_name l) = Some seen ∧ l_ageMs l = (now p - seen)%Z)
      ∧ (PEER_LOST_MS ≤ l_ageMs l < PEER_FORGET_MS)%Z.

Lemma render_seen b wall tr p :
  hist_inv tr (peerHist p) →
  seen_inv (tr ++ [(wall, present_names (rows (render b wall p)))]) (render b wall p).
Proof.
  intros [Hd Hs]. destruct (render_spec b wall p) as (_ & _ & _ & Hn & Hr & Hl & _ & _ & Hh).
  rewrite Hr. set (l := buildPeerRows _ _ _ _) in *. split.
  - rewrite Hh. unfold stamp_peers. split.
    + apply NoDup_fst_filter. by apply (set_all_elem wall (present_names l) (peerHist p) ("", 0%Z)).
    + intros n s [_ Hin]%list_elem_of_filter. rewrite last_seen_snoc.
      destruct (proj2 (set_all_elem wall (present_names l) (peerHist p) (n, s) Hd) Hin) as [[Hp Hw]|[Hp Hw]];
        simpl in *; [by rewrite decide_True, Hw|]. rewrite decide_False by done. by apply Hs.
  - intros x. rewrite Hl. intros (seen & Hin & _ & Hp & Ha & Hage)%lost_elem. rewrite Hr, Hn.
    split; [done|]. split; [|done]. exists seen. split; [|done].
    rewrite last_seen_snoc, decide_False by done. by apply Hs.
Qed.

Lemma dash_run_seen m t d wall tr p : dash_run m t d wall tr p → seen_inv tr p.
Proof.
  induction 1 as [|tr p e Hr [IHh IHl] He].
  - apply (render_seen true wall []). split; [constructor|]. by intros n s ?%elem_of_nil.
  - unfold saw, renders. destruct e; cbn [dash_fire].
    + destruct (_ && _); [by rewrite app_nil_r|]. by apply render_seen.
    + destruct (bool_decide (t0 = None) && _); [|by apply render_seen].
      cbn [negb]. rewrite app_nil_r. by destruct (negb _).
    + case_decide; [by rewrite app_nil_r|]. by apply render_seen.
    + by rewrite app_nil_r.
Qed.

(** C33: In every state the page reaches: the alerts are those of the mesh, the lost
    peers and the delta it holds, at most six and led by the mesh's own state; a
    peer is called lost only while it is in no row, with the time since the last
    render whose rows had it, which is 30 to 90 seconds; an acknowledged text is
    one of the present alerts, so an alert that was cleared shows again when it
    returns; status lines are never hidden; and ACK ALL leaves nothing but them. *)
Theorem dashboard_alerts m t d wall tr p :
  dash_run m t d wall tr p →
  alerts p = classifyAlerts (meshData p) (lost p) (delta p)
  ∧ (length (alerts p) ≤ 6 ∧ ∃ a, head (alerts p) = Some a
       ∧ (level a = LevelOk ↔ ((connected <$> (meshData p ≫= ms_status)) ?? false) = true))
  ∧ (∀ l, l ∈ lost p → l_name l ∉ present_names (rows p)
       ∧ ∃ seen, last_seen tr (l_name l) = Some seen ∧ l_ageMs l = (now p - seen)%Z
           ∧ (30000 ≤ now p - seen < 90000)%Z)
  ∧ (∀ s, s ∈ ackedAlerts p → s ∈ texts (alerts p))
  ∧ (∀ a, a ∈ alerts p → level a = LevelOk → a ∈ visibleAlerts p)
  ∧ (∀ a, a ∈ visibleAlerts (dash_fire AckAll p) → level a = LevelOk)
  ∧ (∀ e a, e ≠ AckAll → a ∈ alerts (dash_fire e p) → text a ∉ texts (alerts p) →
       a ∈ visibleAlerts (dash_fire e p)).
Proof.
  intros Hrun. assert (dash_inv p) as [H1 _ _ H4]
    by (apply (dash_reachable_inv m t d wall), dash_run_reachable; by exists tr).
  split_and!; try done.
  - rewrite H1. unfold classifyAlerts. rewrite length_take. lia.
  - rewrite H1. unfold classifyAlerts, all_alerts. cbn [app take head].
    destruct ((connected <$> _) ?? false); by eexists.
  - intros l Hl. destruct (proj2 (dash_run_seen _ _ _ _ _ _ Hrun) l Hl) as (Hp & (seen & Hs & Ha) & Hage).
    split; [done|]. exists seen. split_and!; [done|done|..]; unfold PEER_FORGET_MS, PEER_LOST_MS, NEIGHBOR_STALE_MS in *; lia.
  - intros a Ha Hl. apply list_elem_of_filter. auto.
  - intros a [[Hl|Hl] Ha]%list_elem_of_filter; [done|]. destruct (decide (level a = LevelOk)); [done|].
    exfalso. apply Hl, ack_elem. right. by exists a.
  - intros e a He Ha Hn. apply list_elem_of_filter. split; [|done]. right.
    intros Hk%acked_shrinks; [|done]. by apply Hn, H4.
Qed.

(** ** Lost peers *)

Definition event_wall (e : dash_event) : option Z :=
  match e with
  | MeshArrives _ w | TopologyArrives _ _ w | ClockTicks w => Some w
  | AckAll => None
  end.

(** A run in which the peer [n], last stamped at [t0], is in no row and is not old
    enough to be forgotten. *)
Fixpoint absent (n : string) (t0 : Z) (es : list dash_event) (p : dashboard) : Prop :=
  match es with
  | [] => True
  | e :: es =>
      let p' := dash_fire e p in
      (∀ w, event_wall e = Some w → (w - t0 ≤ PEER_FORGET_MS)%Z)
      ∧ n ∉ present_names (rows p') ∧ absent n t0 es p'
  end.

Definition run_dash (es : list dash_event) (p : dashboard) : dashboard := foldl (λ p e, dash_fire e p) p es.

Lemma map_set_other {A} k n (v v' : A) m : k ≠ n → (n, v) ∈ m → (n, v) ∈ map_set k v' m.
Proof.
  intros Hk. induction m as [|[k1 v1] m IH]; simpl; [by intros ?%elem_of_nil|].
  intros [[= -> ->]|Hin]%elem_of_cons.
  - rewrite decide_False by done. left.
  - case_decide; right; [done|by apply IH].
Qed.

Lemma stamp_keeps wall n t0 l hist :
  n ∉ present_names l → (wall - t0 ≤ PEER_FORGET_MS)%Z → (n, t0) ∈ hist →
  (n, t0) ∈ stamp_peers wall l hist.
Proof.
  intros Hn Hw Hin. unfold stamp_peers. apply list_elem_of_filter. split; [done|].
  revert hist Hin Hn. generalize (present_names l). clear. intros ns.
  induction ns as [|k ns IH]; intros hist Hin Hn; [done|]. apply not_elem_of_cons in Hn as [Hk Hn].
  cbn [foldl]. apply IH; [|done]. by apply map_set_other.
Qed.

Lemma absent_step n t0 e p :
  (∀ w, event_wall e = Some w → (w - t0 ≤ PEER_FORGET_MS)%Z) →
  n ∉ present_names (rows (dash_fire e p)) → (n, t0) ∈ peerHist p → (n, t0) ∈ peerHist (dash_fire e p).
Proof.
  intros Hw Hn Hin. destruct e; cbn [dash_fire] in *.
  - destruct (_ && _); [done|].
    destruct (render_spec true wall (with_data m (topo p) (delta p) (now p) p))
      as (_ & _ & _ & _ & Hr & _ & _ & _ & ->). rewrite Hr in Hn. apply stamp_keeps; auto.
  - destruct (negb _).
    + destruct (render_spec false wall (with_data (meshData p) t d (now p) p))
        as (_ & _ & _ & _ & Hr & _ & _ & _ & ->). rewrite Hr in Hn. apply stamp_keeps; auto.
    + by destruct (negb _).
  - case_decide; [done|].
    destruct (render_spec false wall (with_data (meshData p) (topo p) (delta p) wall p))
      as (_ & _ & _ & _ & Hr & _ & _ & _ & ->). rewrite Hr in Hn. apply stamp_keeps; auto.
  - done.
Qed.

Lemma absent_run n t0 es p :
  absent n t0 es p → (n, t0) ∈ peerHist p → (n, t0) ∈ peerHist (run_dash es p).
Proof.
  revert p. induction es as [|e es IH]; intros p; [done|]. intros (Hw & Hn & Ha) Hin.
  apply IH; [done|]. by apply absent_step.
Qed.

(** A peer that stays away is reported at every tick of the clock from 30 to 90
    seconds after it was last seen, whatever else arrived in between. *)
Theorem lost_peer_reported n t0 es wall p :
  n ≠ "" → (n, t0) ∈ peerHist p → absent n t0 (es ++ [ClockTicks wall]) p →
  wall ≠ now (run_dash es p) → (PEER_LOST_MS ≤ wall - t0 < PEER_FORGET_MS)%Z →
  {| l_name := n; l_ageMs := wall - t0 |} ∈ lost (run_dash (es ++ [ClockTicks wall]) p).
Proof.
  intros Hne Hin Ha Hw Ht. unfold run_dash. rewrite foldl_snoc. fold (run_dash es p).
  assert (absent n t0 es p ∧ n ∉ present_names (rows (dash_fire (ClockTicks wall) (run_dash es p))))
    as [Hes Hn].
  { clear -Ha. revert p Ha. induction es as [|e es IH]; intros p; cbn [app absent].
    - by intros (_ & ? & _).
    - intros (H1 & H2 & H3%IH). destruct H3. done. }
  pose proof (absent_run n t0 es p Hes Hin) as Hq. set (q := run_dash es p) in *.
  cbn [dash_fire] in *. rewrite decide_False in Hn |- * by done.
  destruct (render_spec false wall (with_data (meshData q) (topo q) (delta q) wall q))
    as (_ & _ & _ & _ & Hr & -> & _). rewrite Hr in Hn.
  apply lost_elem. exists t0. cbn. done.
Qed.

(** ** Runs *)

Definition peer (nm : string) : neighbor :=
  {| name := Some nm; mac := Some nm; signal := Some (-60)%Z; throughput := Some 1000%Z;
     iface := ""; tx := None; rx := None |}.
Definition mesh_with (l : list neighbor) : option mesh_status :=
  Some (mk_mesh_status (Some (mk_status true 0 0 false "")) None (Some l) None).

(** The trace of a run. *)
Fixpoint watch (es : list dash_event) (tr : trace) (p : dashboard) : trace :=
  match es with [] => tr | e :: es => watch es (tr ++ saw e p) (dash_fire e p) end.

Lemma watched es m t d wall tr tr' p :
  Forall (λ e, event_wall e ≠ None) es → dash_run m t d wall tr p → watch es tr p = tr' →
  dash_run m t d wall tr' (run_dash es p).
Proof.
  intros Hes. revert tr p. induction Hes as [|e es He Hes IH]; intros tr p Hr Hw; [by subst tr'|].
  apply (IH (tr ++ saw e p)); [|done]. apply run_event; [done|by destruct e].
Qed.

Lemma dashboard_alerts_witness :
  let p := run_dash [MeshArrives (mesh_with []) 1000; ClockTicks 31000]
             (DashboardPage (mesh_with [peer "alpha_wlan0"; peer "alpha_mesh0"]) None None 0) in
  let l := {| l_name := "ALPHA"; l_ageMs := 31000 |} in
  texts (alerts p) = ["MESH UP · CONVERGED"; "PEER ALPHA · DISCONNECTED"]
  ∧ l ∈ lost p
  ∧ ∃ seen, last_seen [(0, ["ALPHA"]); (1000, []); (31000, [])]%Z (l_name l) = Some seen
      ∧ l_ageMs l = (now p - seen)%Z ∧ (30000 ≤ now p - seen < 90000)%Z.
Proof.
  intros p l. split; [vm_compute; reflexivity|].
  assert (l ∈ lost p) as Hl by (vm_compute; left). split; [exact Hl|].
  assert (dash_run (mesh_with [peer "alpha_wlan0"; peer "alpha_mesh0"]) None None 0
    [(0, ["ALPHA"]); (1000, []); (31000, [])]%Z p) as Hp.
  { eapply (watched [MeshArrives (mesh_with []) 1000; ClockTicks 31000]);
      [by repeat constructor|apply run_open|vm_compute; reflexivity]. }
  clearbody p. destruct (dashboard_alerts _ _ _ _ _ _ Hp) as (_ & _ & H & _). apply (H l Hl).
Defined.

(** The list is cut to six before the acknowledged alerts are taken out, so five
    acknowledged peers hide a loss of routes. *)
Theorem acked_peers_hide_routes :
  let five := map peer ["a"; "b"; "c"; "d"; "e"] in
  let p := run_dash [MeshArrives (mesh_with []) 1000; ClockTicks 31000; AckAll;
                     TopologyArrives None (Some (mk_delta 0 3 0 0 60000)) 32000]
             (DashboardPage (mesh_with five) None None 0) in
  texts (visibleAlerts p) = ["MESH UP · CONVERGED"]
  ∧ (∃ d, delta p = Some d ∧ routesLost d = 3%Z) ∧ ackableCount p = 0%nat.
Proof. vm_compute. split; [done|]. split; [by eexists|done]. Qed.
