(* ===== verification/Settings.v ===== *)
(** [pages/Settings.jsx]: the node settings page.

    The daemon is part of the state ([srv]): its hostname, the [comms] section of its
    configuration file, and the settings it derives from the file by its own defaults
    (internal/config/config.go), when nobody else writes them.  The page has defaults
    of its own, and a failed call may have been applied before it failed: [diverged]
    and [hostUnknown] are ghosts that record when the page can no longer know.
    JSON values are those of the daemon's configuration; numbers are integers.
    The captioning card is another component. *)
From S2P Require Import Prelude JsString JsList.

Open Scope js_scope.

(** ** Control sources *)

Inductive ControlSource := CS_UNSPECIFIED | WEB | OPENVLM | NANOPTT.
#[export] Instance ControlSource_eq : EqDecision ControlSource.
Proof. solve_decision. Defined.

Definition controlSourceToString (cs : ControlSource) : string :=
  match cs with OPENVLM => "openvlm" | NANOPTT => "nanoptt" | _ => "web" end.

Definition stringToControlSource (s : string) : ControlSource :=
  if decide (s = "openvlm") then OPENVLM else if decide (s = "nanoptt") then NANOPTT else WEB.


(** ** The YAML preview *)

Inductive json :=
| JNull
| JBool (b : bool)
| JNumber (n : Z)
| JString (s : string)
| JArray (l : list json)
| JObject (fields : list (string * json)).

(** [`${val}`]. *)
Fixpoint json_text (v : json) : string :=
  match v with
  | JNull => "null"
  | JBool b => if b then "true" else "false"
  | JNumber n => pretty n
  | JString s => s
  | JArray l =>
      join "," (map (λ x, match x with JNull => "" | _ => json_text x end) l)
  | JObject _ => "[object Object]"
  end.

Fixpoint pad (indent : nat) : string := match indent with O => "" | S n => "  " ++ pad n end%string.
Definition nl : string := String (ascii_of_nat 10) "".

Fixpoint yaml_value (key : string) (v : json) (indent : nat) : string :=
  match v with
  | JNull => pad indent ++ key ++ ":" ++ nl
  | JArray l =>
      pad indent ++ key ++ ":" ++ nl
      ++ String.concat "" (map (λ item, pad indent ++ "  - " ++ json_text item ++ nl) l)
  | JObject fields =>
      pad indent ++ key ++ ":" ++ nl
      ++ String.concat "" (map (λ '(k, x), yaml_value k x (S indent)) fields)
  | _ => pad indent ++ key ++ ": " ++ json_text v ++ nl
  end%string.

(** Called on the configuration, an object. *)
Definition formatYaml (fields : list (string * json)) (indent : nat) : string :=
  String.concat "" (map (λ '(k, x), yaml_value k x indent) fields).

(** ** State *)

Record comms_config := mk_config { comms_enabled : bool; control_source : string; debug : bool }.
#[export] Instance comms_config_eq : EqDecision comms_config.
Proof. solve_decision. Defined.

(** The [comms] section of the configuration file as far as it is read. *)
Record yaml_comms := mk_yaml {
  y_enable : option bool; y_controlSource : option string; y_debug : option bool
}.

(** The daemon: its hostname and the [comms] section of its file. *)
Record server := mk_server { srv_hostname : string; srv_comms : yaml_comms }.

(** [Config.reload]: a key that is missing, or an empty control source, is the daemon's
    default: comms off, OpenVLM, debug off. *)
Definition srv_enabled (s : server) : bool := y_enable (srv_comms s) ?? false.
Definition srv_debug (s : server) : bool := y_debug (srv_comms s) ?? false.
Definition srv_controlSource (s : server) : string :=
  or_str (toLowerCase (y_controlSource (srv_comms s) ?? "")) "openvlm".

(** [controlSourceToProto] and [protoToControlSource] of the comms handlers. *)
Definition controlSourceToProto (src : string) : ControlSource :=
  if decide (toLowerCase src = "nanoptt") then NANOPTT
  else if decide (toLowerCase src = "web") then WEB else OPENVLM.
Definition protoToControlSource (src : ControlSource) : string :=
  match src with NANOPTT => "nanoptt" | WEB => "web" | _ => "openvlm" end.
Definition srv_source (s : server) : ControlSource := controlSourceToProto (srv_controlSource s).

Inductive request :=
| PostHostname (h : string)
| UpdateCommsConfig (enable : bool) (source : ControlSource)
| PostDebug (b : bool).

(** What [handleSaveHostname] or [handleSaveConfig] is waiting for; each closure
    has its own [hostname] or [config]. *)
Inductive pending :=
| AwaitHostname (h : string)
| AwaitUpdate (cfg : comms_config) (debugChanged : bool)
| AwaitDebug (cfg : comms_config).

Record settings := mk_settings {
  hostname : string;
  originalHostname : string;
  config : comms_config;
  originalConfig : option comms_config;
  fullConfig : option (list (string * json));
  loading : bool;
  saving : bool;
  error : option string;
  success : option string;
  waiting : option pending;
  sent : list request;
  srv : server;
  diverged : bool;
  hostUnknown : bool
}.

Definition SettingsPage (s : server) : settings :=
  mk_settings "" "" (mk_config true "web" false) None None true false None None None [] s false false.

Definition set_form (h : string) (c : comms_config) (p : settings) : settings :=
  mk_settings h (originalHostname p) c (originalConfig p) (fullConfig p) (loading p) (saving p) (error p)
    (success p) (waiting p) (sent p) (srv p) (diverged p) (hostUnknown p).
Definition set_originals (h : string) (c : option comms_config) (p : settings) : settings :=
  mk_settings (hostname p) h (config p) c (fullConfig p) (loading p) (saving p) (error p) (success p)
    (waiting p) (sent p) (srv p) (diverged p) (hostUnknown p).
Definition set_full (f : option (list (string * json))) (p : settings) : settings :=
  mk_settings (hostname p) (originalHostname p) (config p) (originalConfig p) f (loading p) (saving p)
    (error p) (success p) (waiting p) (sent p) (srv p) (diverged p) (hostUnknown p).
Definition set_messages (b : bool) (e s : option string) (p : settings) : settings :=
  mk_settings (hostname p) (originalHostname p) (config p) (originalConfig p) (fullConfig p) (loading p) b
    e s (waiting p) (sent p) (srv p) (diverged p) (hostUnknown p).
Definition set_loaded (p : settings) : settings :=
  mk_settings (hostname p) (originalHostname p) (config p) (originalConfig p) (fullConfig p) false
    (saving p) None (success p) (waiting p) (sent p) (srv p) (diverged p) (hostUnknown p).
Definition set_waiting (w : option pending) (p : settings) : settings :=
  mk_settings (hostname p) (originalHostname p) (config p) (originalConfig p) (fullConfig p) (loading p)
    (saving p) (error p) (success p) w (sent p) (srv p) (diverged p) (hostUnknown p).
Definition send (r : request) (w : pending) (p : settings) : settings :=
  mk_settings (hostname p) (originalHostname p) (config p) (originalConfig p) (fullConfig p) (loading p)
    (saving p) (error p) (success p) (Some w) (sent p ++ [r]) (srv p) (diverged p) (hostUnknown p).
Definition set_srv (s : server) (d u : bool) (p : settings) : settings :=
  mk_settings (hostname p) (originalHostname p) (config p) (originalConfig p) (fullConfig p) (loading p)
    (saving p) (error p) (success p) (waiting p) (sent p) s d u.

(** ** Loading *)

(** The body of [/api/settings/config], the file as it stands, with its [comms] section;
    the whole is what the preview shows. *)
Record yaml_config := { y_fields : list (string * json); y_comms : option yaml_comms }.
Record live_comms := { l_commsEnabled : bool; l_controlSource : ControlSource }.

(** [results[0].value.hostname || results[0].value.name || '']. *)
Record hostname_reply := { rep_hostname : option string; rep_name : option string }.
Definition reply_name (r : hostname_reply) : string :=
  or_str (rep_hostname r ?? "") (rep_name r ?? "").

Definition loaded_config (yaml : option yaml_config) (live : option live_comms) : option comms_config :=
  match live, yaml with
  | Some l, _ =>
      Some (mk_config (l_commsEnabled l) (controlSourceToString (l_controlSource l))
        (((yaml ≫= y_comms) ≫= y_debug) ?? false))
  | None, Some y =>
      Some (mk_config ((y_comms y ≫= y_enable) ?? true) ((y_comms y ≫= y_controlSource) ?? "web")
        ((y_comms y ≫= y_debug) ?? false))
  | None, None => None
  end.

(** [fetchSettings] once its three calls are settled; [None] is a call that
    failed. *)
Definition fetch_settled (host : option hostname_reply) (yaml : option yaml_config)
    (live : option live_comms) (p : settings) : settings :=
  let p := match host with
           | Some r => let h := reply_name r in set_originals h (originalConfig p) (set_form h (config p) p)
           | None => p
           end in
  let p := match yaml with Some y => set_full (Some (y_fields y)) p | None => p end in
  let p := match loaded_config yaml live with
           | Some c => set_originals (originalHostname p) (Some c) (set_form (hostname p) c p)
           | None => p
           end in
  set_loaded p.

(** ** Saving *)

Definition handleSaveHostname (p : settings) : settings :=
  let p := set_messages true None None p in
  send (PostHostname (hostname p)) (AwaitHostname (hostname p)) p.

(** [config.debug !== originalConfig?.debug] and the like. *)
Definition changed {A} `{EqDecision A} (f : comms_config → A) (p : settings) : bool :=
  bool_decide (Some (f (config p)) ≠ (f <$> originalConfig p)).

(** The end of [handleSaveConfig]'s try block. *)
Definition config_saved (cfg : comms_config) (p : settings) : settings :=
  set_waiting None (set_messages false (error p) (Some "Configuration saved.")
    (set_originals (originalHostname p) (Some cfg) p)).

(** From the debug check on; [debugChanged] was computed when Save was clicked. *)
Definition save_debug (cfg : comms_config) (debugChanged : bool) (p : settings) : settings :=
  if debugChanged then send (PostDebug (debug cfg)) (AwaitDebug cfg) p else config_saved cfg p.

Definition handleSaveConfig (p : settings) : settings :=
  let enableChanged := changed comms_enabled p in
  let sourceChanged := changed control_source p in
  let debugChanged := changed debug p in
  let p := set_messages true None None p in
  if enableChanged || sourceChanged
  then send (UpdateCommsConfig (comms_enabled (config p)) (stringToControlSource (control_source (config p))))
         (AwaitUpdate (config p) debugChanged) p
  else save_debug (config p) debugChanged p.

Definition what_of (w : pending) : string :=
  match w with AwaitHostname _ => "hostname" | _ => "config" end.
(** The catch and finally blocks. *)
Definition save_failed (w : pending) (msg : string) (p : settings) : settings :=
  set_waiting None (set_messages false (Some ("Failed to save " ++ what_of w ++ ": " ++ msg)%string)
    (success p) p).

(** What the daemon does with a request: the name is set, or its keys of the file's
    [comms] section are written ([UpdateCommsConfig]; the merge of
    [handleSettingsConfigPost]). *)
Definition apply_request (w : pending) (s : server) : server :=
  let f := srv_comms s in
  match w with
  | AwaitHostname h => mk_server h f
  | AwaitUpdate c _ =>
      mk_server (srv_hostname s) (mk_yaml (Some (comms_enabled c))
        (Some (protoToControlSource (stringToControlSource (control_source c)))) (y_debug f))
  | AwaitDebug c => mk_server (srv_hostname s) (mk_yaml (y_enable f) (y_controlSource f) (Some (debug c)))
  end.

(** The code after each await when the call succeeded. *)
Definition save_resumed (w : pending) (p : settings) : settings :=
  match w with
  | AwaitHostname h =>
      set_waiting None (set_messages false (error p) (Some "Hostname saved.")
        (set_originals h (originalConfig p) p))
  | AwaitUpdate c debugChanged => save_debug c debugChanged (set_waiting None p)
  | AwaitDebug c => config_saved c p
  end.

(** ** Events *)

Definition configChanged (p : settings) : bool :=
  match originalConfig p with
  | None => false
  | Some _ => changed comms_enabled p || changed control_source p || changed debug p
  end.

Inductive settings_event :=
| Loaded (host : option hostname_reply) (yaml : option yaml_config) (live : option live_comms)
| EditHostname (s : string)
| SetEnabled (v : bool)
| SetSource (s : string)
| SetDebug (v : bool)
| SaveHostname
| SaveConfig
| SaveSucceeds
| SaveFails (applied : bool) (msg : string).


(** The daemon and the page read the file's control source alike; the page reads a
    missing one as the web, the daemon as OpenVLM. *)
Definition source_read_alike (f : yaml_comms) : bool :=
  match y_controlSource f with
  | None => false
  | Some v => bool_decide (v = "openvlm") || bool_decide (v = "nanoptt") || bool_decide (toLowerCase v = "web")
  end.

(** When the first load leaves the page with something the daemon does not have:
    without the file it shows debug mode as off; without the live settings it fills
    in the file with defaults of its own. *)
Definition load_diverges (yaml : option yaml_config) (live : option live_comms) (s : server) : bool :=
  match live, yaml with
  | Some _, None => srv_debug s
  | None, Some _ =>
      bool_decide (y_enable (srv_comms s) = None) || negb (source_read_alike (srv_comms s))
  | _, _ => false
  end.


(** What a failed call leaves behind: the daemon may have applied it, and the
    second call of a save may fail after the first went through. *)
Definition failure_diverges (w : pending) (applied : bool) (o : option comms_config) : bool :=
  match w with
  | AwaitHostname _ => false
  | AwaitDebug c =>
      applied || bool_decide (Some (comms_enabled c) ≠ (comms_enabled <$> o))
      || bool_decide (Some (control_source c) ≠ (control_source <$> o))
  | AwaitUpdate _ _ => applied
  end.

Definition settings_fire (e : settings_event) (p : settings) : settings :=
  match e with
  | Loaded host yaml live =>
      fetch_settled host yaml live
        (set_srv (srv p) (load_diverges yaml live (srv p)) (bool_decide (host = None)) p)
  | EditHostname s => set_form s (config p) p
  | SetEnabled v => set_form (hostname p) (mk_config v (control_source (config p)) (debug (config p))) p
  | SetSource s => set_form (hostname p) (mk_config (comms_enabled (config p)) s (debug (config p))) p
  | SetDebug v =>
      set_form (hostname p) (mk_config (comms_enabled (config p)) (control_source (config p)) v) p
  | SaveHostname => handleSaveHostname p
  | SaveConfig => handleSaveConfig p
  | SaveSucceeds =>
      match waiting p with
      | None => p
      | Some w =>
          save_resumed w
            (set_srv (apply_request w (srv p)) (diverged p)
               (match w with AwaitHostname _ => false | _ => hostUnknown p end) p)
      end
  | SaveFails applied msg =>
      match waiting p with
      | None => p
      | Some w =>
          save_failed w msg
            (set_srv (if applied then apply_request w (srv p) else srv p)
               (diverged p || failure_diverges w applied (originalConfig p))
               (match w with AwaitHostname _ => applied || hostUnknown p | _ => hostUnknown p end) p)
      end
  end.

(** ** Derived *)

(** [fullConfig] with the form's values merged into its [comms] section. *)
Definition liveYaml (p : settings) : string :=
  match fullConfig p with
  | None => ""
  | Some fields =>
      let comms := match map_get "comms" fields with Some (JObject l) => l | _ => [] end in
      let comms := map_set "enable" (JBool (comms_enabled (config p))) comms in
      let comms := map_set "controlSource" (JString (control_source (config p))) comms in
      let comms := map_set "debug" (JBool (debug (config p))) comms in
      formatYaml (map_set "comms" (JObject comms) fields) 0
  end.

(** ** Invariant *)





















(** ** Passphrase and restart *)

Record passphrase_form := mk_pw {
  currentPw : string; newPw : string; confirmPw : string; pwSaving : bool;
  pwError : option string; pwSuccess : option string; pwSent : list (string * string)
}.
Definition PassphraseForm : passphrase_form := mk_pw "" "" "" false None None [].

Definition handleChangePassword (f : passphrase_form) : passphrase_form :=
  let fail msg := mk_pw (currentPw f) (newPw f) (confirmPw f) (pwSaving f) (Some msg) None (pwSent f) in
  if decide (newPw f = "") then fail "New passphrase is required."
  else if decide (newPw f ≠ confirmPw f) then fail "Passphrases do not match."
  else mk_pw (currentPw f) (newPw f) (confirmPw f) true None None (pwSent f ++ [(currentPw f, newPw f)]).

(** The answer to [/auth/change-password]: the request threw, or the status with the
    body's [error], [None] when the body is not JSON. *)
Inductive change_reply := ChangeThrew (message : string) | ChangeReplied (status : Z) (body : option (option string)).

(** [changePassword] of [contexts/AuthContext.jsx]: [None] when it returns, otherwise the
    message it throws. *)
Definition changePassword (r : change_reply) : option string :=
  match r with
  | ChangeThrew message => Some message
  | ChangeReplied status body =>
      if decide (status = 204%Z) then None
      else Some (match body with
                | Some error => or_str (error ?? "") "Failed to change passphrase"
                | None => "Failed to change passphrase"
                end)
  end.

(** [changePassword] settled; [None] is success, otherwise the error's message. *)
Definition pw_settled (r : option string) (f : passphrase_form) : passphrase_form :=
  match r with
  | None => mk_pw "" "" "" false (pwError f) (Some "Passphrase updated.") (pwSent f)
  | Some msg =>
      mk_pw (currentPw f) (newPw f) (confirmPw f) false
        (Some (or_str msg "Failed to change passphrase.")) (pwSuccess f) (pwSent f)
  end.

Inductive pw_event :=
| EditCurrent (s : string) | EditNew (s : string) | EditConfirm (s : string)
| SubmitPw | PwSettled (r : option string).

Definition pw_enabled (e : pw_event) (f : passphrase_form) : bool :=
  match e with
  | SubmitPw => negb (pwSaving f) && negb (bool_decide (newPw f = "")) && negb (bool_decide (confirmPw f = ""))
  | PwSettled _ => pwSaving f
  | _ => negb (pwSaving f)
  end.

Definition pw_fire (e : pw_event) (f : passphrase_form) : passphrase_form :=
  match e with
  | EditCurrent s => mk_pw s (newPw f) (confirmPw f) (pwSaving f) (pwError f) (pwSuccess f) (pwSent f)
  | EditNew s => mk_pw (currentPw f) s (confirmPw f) (pwSaving f) (pwError f) (pwSuccess f) (pwSent f)
  | EditConfirm s => mk_pw (currentPw f) (newPw f) s (pwSaving f) (pwError f) (pwSuccess f) (pwSent f)
  | SubmitPw => handleChangePassword f
  | PwSettled r => pw_settled r f
  end.

Definition pw_step (f f' : passphrase_form) : Prop := ∃ e, pw_enabled e f = true ∧ f' = pw_fire e f.

(** While a change is on its way the form still holds what was sent, confirmed;
    a passphrase that was sent is never empty. *)
Definition pw_inv (f : passphrase_form) : Prop :=
  (pwSaving f = true →
     newPw f = confirmPw f ∧ ∃ l, pwSent f = l ++ [(currentPw f, newPw f)])
  ∧ Forall (λ r, r.2 ≠ "") (pwSent f).

Theorem passphrase_confirmed f : rtc pw_step PassphraseForm f → pw_inv f.
Proof.
  revert f. apply rtc_ind_r; [by split|]. intros f f' _ (e & He & ->) [H1 H2].
  assert (pwSaving f = false → ∀ g, pwSaving g = pwSaving f → pwSent g = pwSent f → pw_inv g) as Hidle
    by (intros Hs g Hg Hr; split; [by rewrite Hg, Hs|by rewrite Hr]).
  destruct e; cbn in He; try (apply negb_true_iff in He; by apply Hidle).
  - bool_simpl. cbn [pw_fire]. unfold handleChangePassword.
    rewrite decide_False by done. case_decide as Hc; [by apply Hidle|].
    split; cbn.
    + intros _. split; [by destruct (decide (newPw f = confirmPw f))|by exists (pwSent f)].
    + apply Forall_app. by repeat constructor.
  - destruct r; cbn; by split.
Qed.

(** The form over [changePassword]: it reports success and forgets the passphrases
    exactly for status 204; otherwise what was typed stays, with a reason that is never
    empty, the daemon's where it gave one. *)
Theorem passphrase_reported f r :
  let f' := pw_fire (PwSettled (changePassword r)) f in
  ((∃ b, r = ChangeReplied 204 b) →
     pwSuccess f' = Some "Passphrase updated." ∧ currentPw f' = "" ∧ newPw f' = "" ∧ confirmPw f' = "")
  ∧ ((∀ b, r ≠ ChangeReplied 204 b) →
     pwSuccess f' = pwSuccess f ∧ currentPw f' = currentPw f ∧ newPw f' = newPw f ∧ confirmPw f' = confirmPw f
     ∧ ∃ e, pwError f' = Some e ∧ e ≠ "" ∧ (∀ s b, r = ChangeReplied s (Some (Some b)) → b ≠ "" → e = b))
  ∧ pwSaving f' = false.
Proof.
  cbv zeta. split_and!.
  - by intros [b ->].
  - intros Hr. destruct r as [m|s b]; cbn [changePassword].
    + cbn. split_and!; try done. eexists. split_and!; [done| |done]. unfold or_str. by case_decide.
    + case_decide as H; [subst; by destruct (Hr b)|]. cbn. split_and!; try done. eexists. split_and!; [done| |].
      * unfold or_str. by repeat case_decide.
      * intros s' b' E Hb. apply (f_equal (λ r, match r with ChangeReplied _ b => b | _ => None end)) in E. cbn in E. subst b. cbn. unfold or_str.
        by rewrite !decide_False by (rewrite ?decide_False; done).
  - by destruct (changePassword r).
Qed.

Record restart_state := mk_restart { restarting : bool; restart_waiting : bool; timers : nat; restarts : nat }.

Inductive restart_event := ClickRestart | RestartSettled | RestartTimer.

Definition restart_enabled (e : restart_event) (s : restart_state) : bool :=
  match e with
  | ClickRestart => negb (restarting s)
  | RestartSettled => restart_waiting s
  | RestartTimer => (0 <? timers s)%nat
  end.
(** [handleRestart]: the button is released two seconds after the answer. *)
Definition restart_fire (e : restart_event) (s : restart_state) : restart_state :=
  match e with
  | ClickRestart => mk_restart true true (timers s) (S (restarts s))
  | RestartSettled => mk_restart (restarting s) false (S (timers s)) (restarts s)
  | RestartTimer => mk_restart false (restart_waiting s) (pred (timers s)) (restarts s)
  end.
Definition restart_step (s s' : restart_state) : Prop := ∃ e, restart_enabled e s = true ∧ s' = restart_fire e s.

(** One restart is asked for at a time, and its button is always released by the
    answer's timer. *)
Theorem restart_once s :
  rtc restart_step (mk_restart false false 0 0) s →
  (restarting s = true ∧ ((restart_waiting s = true ∧ timers s = 0) ∨ (restart_waiting s = false ∧ timers s = 1)))
  ∨ (restarting s = false ∧ restart_waiting s = false ∧ timers s = 0).
Proof.
  revert s. apply rtc_ind_r; [by right|]. intros s s' _ (e & He & ->) Hi.
  destruct e; cbn in *; destruct s as [r w t n]; cbn in *; bool_simpl; naive_solver lia.
Qed.

(** ** The preview *)

(** The preview shows the form, not the file. *)
Theorem preview_shows_form p fields :
  fullConfig p = Some fields →
  ∃ comms, liveYaml p = formatYaml (map_set "comms" (JObject comms) fields) 0
    ∧ map_get "enable" comms = Some (JBool (comms_enabled (config p)))
    ∧ map_get "controlSource" comms = Some (JString (control_source (config p)))
    ∧ map_get "debug" comms = Some (JBool (debug (config p))).
Proof.
  intros Hf. unfold liveYaml. rewrite Hf. eexists. split; [done|]. by rewrite !map_get_set.
Qed.

Example preview_text :
  formatYaml [("mesh", JObject [("id", JString "net"); ("peers", JArray [JString "a"; JObject []])]);
              ("port", JNumber 8080)] 0
  = ("mesh:" ++ nl ++ "  id: net" ++ nl ++ "  peers:" ++ nl ++ "    - a" ++ nl
     ++ "    - [object Object]" ++ nl ++ "port: 8080" ++ nl)%string.
Proof. reflexivity. Qed.

(** ** Runs *)

Definition run_settings (es : list settings_event) (p : settings) : settings :=
  foldl (λ p e, settings_fire e p) p es.
Definition node_comms : yaml_comms := mk_yaml (Some true) (Some "OpenVLM") (Some false).
Definition node_srv : server := mk_server "node" node_comms.
Definition node_live : live_comms := {| l_commsEnabled := true; l_controlSource := OPENVLM |}.
Definition node_yaml : yaml_config := {| y_fields := []; y_comms := Some node_comms |}.
Definition node_host : hostname_reply := {| rep_hostname := Some "node"; rep_name := None |}.
Definition load_node : settings_event := Loaded (Some node_host) (Some node_yaml) (Some node_live).




(** The page's defaults are not the daemon's: on a node whose file sets neither
    [enable] nor a control source, and whose comms are off, a page that could only load
    the file shows them on, controlled from the web, with nothing unsaved; choosing
    another source and saving then switches the radio on. *)
Theorem defaults_differ :
  let s := mk_server "node" (mk_yaml None None None) in
  let p := run_settings [Loaded (Some node_host) (Some {| y_fields := []; y_comms := None |}) None]
             (SettingsPage s) in
  srv_enabled s = false ∧ srv_source s = OPENVLM
  ∧ config p = mk_config true "web" false ∧ configChanged p = false ∧ error p = None
  ∧ srv_enabled (srv (run_settings [SetSource "nanoptt"; SaveConfig; SaveSucceeds] p)) = true.
Proof. vm_compute. done. Qed.

(** When the comms update went through and the debug flag failed, undoing the
    edits makes the page look saved while the daemon runs the other setting. *)
Theorem partial_save_hidden :
  let p := run_settings [load_node; SetEnabled false; SetDebug true; SaveConfig; SaveSucceeds;
                         SaveFails false "HTTP 500"; SetEnabled true; SetDebug false]
             (SettingsPage node_srv) in
  configChanged p = false ∧ comms_enabled (config p) = true ∧ srv_enabled (srv p) = false.
Proof. vm_compute. done. Qed.

(** When nothing could be loaded the page shows its defaults without an error,
    and no edit can be saved. *)
Theorem load_failure_silent :
  let p := run_settings [Loaded None None None; SetDebug true] (SettingsPage node_srv) in
  error p = None ∧ loading p = false ∧ configChanged p = false.
Proof. vm_compute. done. Qed.
