(* ===== verification/DeviceAudio.v ===== *)
(** [pages/DeviceAudioPanel.jsx] with [services/commsApi.js]: the mixer of the
    radio's own sound card.

    Polls and commits are calls whose answers come in any order.  [updates] is
    every update sent; a commit in flight is identified by its place in it.  A
    slider's drag flag is the number of polls it has suppressed since its last
    tick. *)
From S2P Require Import Prelude.

Open Scope js_scope.

Definition MAX_SUPPRESSED_POLLS : nat := 3.

Definition isSliderCommitKey (key : string) : bool :=
  bool_decide (key ∈ ["ArrowUp"; "ArrowDown"; "ArrowLeft"; "ArrowRight"; "Home"; "End"; "PageUp"; "PageDown"]).

(** [AudioMixerState]; a field that is absent is [undefined]. *)
Record mixer_state := { available : bool; speakerVolume : option Z; micVolume : option Z; agcEnabled : option bool }.

(** [resp.state ?? null]; a call that fails is [null] too. *)
Definition fetchAudioMixer (resp : option (option mixer_state)) : option mixer_state := resp ≫= id.

Inductive control := Speaker | Mic | Agc.
#[export] Instance control_eq : EqDecision control.
Proof. solve_decision. Defined.

(** The fields of an update. *)
Inductive update := SetSpeaker (v : Z) | SetMic (v : Z) | SetAgc (v : bool).
Definition update_key (u : update) : control :=
  match u with SetSpeaker _ => Speaker | SetMic _ => Mic | SetAgc _ => Agc end.

(** The optimistic overrides, and the drag flags of the sliders. *)
Record overrides := mk_overrides { o_speaker : option Z; o_mic : option Z; o_agc : option bool }.
Record drags := mk_drags { d_speaker : option nat; d_mic : option nat }.

Record panel := mk_panel {
  mixer : option mixer_state;
  pending : overrides;
  error : bool;
  dragging : drags;
  updates : list update;
  inFlight : list nat
}.

Definition DeviceAudioPanel : panel :=
  mk_panel None (mk_overrides None None None) false (mk_drags None None) [] [].

(** [delete next[key]]. *)
Definition drop_override (k : control) (o : overrides) : overrides :=
  match k with
  | Speaker => mk_overrides None (o_mic o) (o_agc o)
  | Mic => mk_overrides (o_speaker o) None (o_agc o)
  | Agc => mk_overrides (o_speaker o) (o_mic o) None
  end.
Definition drop_drag (k : control) (d : drags) : drags :=
  match k with
  | Speaker => mk_drags None (d_mic d)
  | Mic => mk_drags (d_speaker d) None
  | Agc => d
  end.

Definition dropPending (k : control) (p : panel) : panel :=
  mk_panel (mixer p) (drop_override k (pending p)) (error p) (drop_drag k (dragging p)) (updates p) (inFlight p).

(** The loop over the drag flags, for one of them: dropped, or counted. *)
Definition suppress (k : control) (missed : option nat) (count : nat → drags → drags) (p : panel) : panel :=
  match missed with
  | None => p
  | Some n =>
      if (MAX_SUPPRESSED_POLLS <=? n)%nat then dropPending k p
      else mk_panel (mixer p) (pending p) (error p) (count (S n) (dragging p)) (updates p) (inFlight p)
  end.
Definition count_speaker (n : nat) (d : drags) : drags := mk_drags (Some n) (d_mic d).
Definition count_mic (n : nat) (d : drags) : drags := mk_drags (d_speaker d) (Some n).

(** [setError(true)], or the new state. *)
Definition show_state (state : option mixer_state) (p : panel) : panel :=
  match state with
  | None => mk_panel (mixer p) (pending p) true (dragging p) (updates p) (inFlight p)
  | Some s => mk_panel (Some s) (pending p) false (dragging p) (updates p) (inFlight p)
  end.

Definition is_dragging (p : panel) : bool :=
  match dragging p with mk_drags None None => false | _ => true end.

(** [poll] once its fetch is settled. *)
Definition poll (state : option mixer_state) (p : panel) : panel :=
  let p := suppress Speaker (d_speaker (dragging p)) count_speaker p in
  let p := suppress Mic (d_mic (dragging p)) count_mic p in
  if is_dragging p then p else show_state state p.

(** [commit] up to its await. *)
Definition commit (u : update) (p : panel) : panel :=
  mk_panel (mixer p) (pending p) (error p) (drop_drag (update_key u) (dragging p)) (updates p ++ [u])
    (inFlight p ++ [length (updates p)]).
(** The rest of [commit]. *)
Definition commit_settled (id : nat) (state : option mixer_state) (p : panel) : panel :=
  match updates p !! id with
  | None => p
  | Some u =>
      show_state state
        (mk_panel (mixer p) (drop_override (update_key u) (pending p)) (error p) (dragging p) (updates p)
           (filter (λ i, i ≠ id) (inFlight p)))
  end.

Definition onSpeakerDrag (v : Z) (p : panel) : panel :=
  mk_panel (mixer p) (mk_overrides (Some v) (o_mic (pending p)) (o_agc (pending p))) (error p)
    (mk_drags (Some 0) (d_mic (dragging p))) (updates p) (inFlight p).
Definition onMicDrag (v : Z) (p : panel) : panel :=
  mk_panel (mixer p) (mk_overrides (o_speaker (pending p)) (Some v) (o_agc (pending p))) (error p)
    (mk_drags (d_speaker (dragging p)) (Some 0)) (updates p) (inFlight p).

Definition speakerVal (p : panel) : Z := o_speaker (pending p) ?? (mixer p ≫= speakerVolume) ?? 0%Z.
Definition micVal (p : panel) : Z := o_mic (pending p) ?? (mixer p ≫= micVolume) ?? 0%Z.
Definition agcOn (p : panel) : bool :=
  o_agc (pending p) ?? bool_decide (mixer p ≫= agcEnabled = Some true).

Definition toggleAgc (p : panel) : panel :=
  let next := negb (agcOn p) in
  commit (SetAgc next)
    (mk_panel (mixer p) (mk_overrides (o_speaker (pending p)) (o_mic (pending p)) (Some next)) (error p)
       (dragging p) (updates p) (inFlight p)).

(** The sliders and the toggle are rendered when a mixer is known and no call
    failed. *)
Definition shown (p : panel) : Prop :=
  error p = false ∧ (available <$> mixer p) = Some true.

Inductive panel_event :=
| Poll (state : option mixer_state)
| DragSpeaker (v : Z) | ReleaseSpeaker | CancelSpeaker | KeyUpSpeaker (key : string)
| DragMic (v : Z) | ReleaseMic | CancelMic | KeyUpMic (key : string)
| ToggleAgc
| CommitSettled (id : nat) (state : option mixer_state).

(** A range input reports 0 to 100. *)
Definition panel_enabled (e : panel_event) (p : panel) : Prop :=
  match e with
  | Poll _ => True
  | DragSpeaker v | DragMic v => shown p ∧ (0 ≤ v ≤ 100)%Z
  | CommitSettled id _ => id ∈ inFlight p
  | _ => shown p
  end.

Definition panel_fire (e : panel_event) (p : panel) : panel :=
  match e with
  | Poll state => poll state p
  | DragSpeaker v => onSpeakerDrag v p
  | ReleaseSpeaker => commit (SetSpeaker (speakerVal p)) p
  | CancelSpeaker => dropPending Speaker p
  | KeyUpSpeaker key => if isSliderCommitKey key then commit (SetSpeaker (speakerVal p)) p else p
  | DragMic v => onMicDrag v p
  | ReleaseMic => commit (SetMic (micVal p)) p
  | CancelMic => dropPending Mic p
  | KeyUpMic key => if isSliderCommitKey key then commit (SetMic (micVal p)) p else p
  | ToggleAgc => toggleAgc p
  | CommitSettled id state => commit_settled id state p
  end.

Definition panel_step (p p' : panel) : Prop := ∃ e, panel_enabled e p ∧ p' = panel_fire e p.
Definition panel_reachable : panel → Prop := rtc panel_step DeviceAudioPanel.

(** ** Invariant *)

(** A commit of the control is in flight. *)
Definition committing (k : control) (p : panel) : Prop :=
  ∃ id u, id ∈ inFlight p ∧ updates p !! id = Some u ∧ update_key u = k.

(** An override is the value of a drag or of a commit in flight, and a drag has
    suppressed at most three polls. *)
Record panel_inv (p : panel) : Prop := {
  pi_speaker : o_speaker (pending p) ≠ None → d_speaker (dragging p) ≠ None ∨ committing Speaker p;
  pi_mic : o_mic (pending p) ≠ None → d_mic (dragging p) ≠ None ∨ committing Mic p;
  pi_agc : o_agc (pending p) ≠ None → committing Agc p;
  pi_bound_speaker : ∀ n, d_speaker (dragging p) = Some n → n ≤ MAX_SUPPRESSED_POLLS;
  pi_bound_mic : ∀ n, d_mic (dragging p) = Some n → n ≤ MAX_SUPPRESSED_POLLS;
  pi_ids : ∀ id, id ∈ inFlight p → id < length (updates p)
}.

Lemma show_state_inv state p : panel_inv p → panel_inv (show_state state p).
Proof. intros []. by destruct state. Qed.

Lemma suppress_inv p :
  panel_inv p →
  panel_inv (suppress Speaker (d_speaker (dragging p)) count_speaker p)
  ∧ panel_inv (suppress Mic (d_mic (dragging p)) count_mic p).
Proof.
  intros [H1 H2 H3 H4 H5 H6]. unfold suppress. split.
  - destruct (d_speaker (dragging p)) as [n|] eqn:E; [|by split; rewrite ?E].
    destruct (Nat.leb_spec MAX_SUPPRESSED_POLLS n); split; cbn; try done.
    + by left.
    + intros m [= <-]. lia.
  - destruct (d_mic (dragging p)) as [n|] eqn:E; [|by split; rewrite ?E].
    destruct (Nat.leb_spec MAX_SUPPRESSED_POLLS n); split; cbn; try done.
    + by left.
    + intros m [= <-]. lia.
Qed.

Lemma poll_inv state p : panel_inv p → panel_inv (poll state p).
Proof.
  intros Hi. unfold poll. apply suppress_inv in Hi as [Hi _]. apply suppress_inv in Hi as [_ Hi].
  destruct (is_dragging _); [done|by apply show_state_inv].
Qed.

Lemma committing_commit k u p : committing k p → committing k (commit u p).
Proof.
  intros (id & v & Hin & Hl & Hk). exists id, v. cbn. split; [set_solver|].
  split; [by apply lookup_app_l_Some|done].
Qed.

Lemma commit_committing u p : committing (update_key u) (commit u p).
Proof.
  exists (length (updates p)), u. cbn. split; [set_solver|]. by rewrite list_lookup_middle.
Qed.

Lemma panel_commit_inv u p : panel_inv p → panel_inv (commit u p).
Proof.
  intros [H1 H2 H3 H4 H5 H6]. pose proof (commit_committing u p) as Hc. split.
  - intros H. destruct (decide (update_key u = Speaker)) as [<-|Hne]; [by right|].
    destruct (H1 H) as [Hd|Hd]; [left|right; by apply committing_commit]. by destruct u.
  - intros H. destruct (decide (update_key u = Mic)) as [<-|Hne]; [by right|].
    destruct (H2 H) as [Hd|Hd]; [left|right; by apply committing_commit]. by destruct u.
  - intros H. by apply committing_commit, H3.
  - destruct u; cbn; try done; by intros.
  - destruct u; cbn; try done; by intros.
  - cbn. intros id [Hin| ->%list_elem_of_singleton]%elem_of_app; rewrite length_app; simpl; [|lia].
    specialize (H6 id Hin). lia.
Qed.

(** The commits of other controls stay in flight. *)
Lemma settled_committing k id u p p' :
  updates p !! id = Some u → update_key u ≠ k → updates p' = updates p →
  inFlight p' = filter (λ i, i ≠ id) (inFlight p) → committing k p → committing k p'.
Proof.
  intros Hu Hne Hup Hin (i & v & Hi & Hv & Hk). exists i, v. rewrite Hup, Hin. split; [|done].
  apply list_elem_of_filter. split; [|done]. intros ->. congruence.
Qed.

Lemma commit_settled_inv id state p : panel_inv p → panel_inv (commit_settled id state p).
Proof.
  intros [H1 H2 H3 H4 H5 H6]. unfold commit_settled. destruct (updates p !! id) as [u|] eqn:Hu; [|done].
  apply show_state_inv. set (p' := mk_panel _ _ _ _ _ _).
  assert (∀ k, update_key u ≠ k → committing k p → committing k p') as Hk
    by (intros k Hne; by apply (settled_committing k id u)).
  split; cbn; try done.
  - destruct u; cbn; try done; intros [?|?]%H1; auto.
  - destruct u; cbn; try done; intros [?|?]%H2; auto.
  - destruct u; cbn; try done; intros ?%H3; auto.
  - intros i [_ Hi]%list_elem_of_filter. by apply H6.
Qed.

Lemma drop_inv k p : panel_inv p → panel_inv (dropPending k p).
Proof. intros [H1 H2 H3 H4 H5 H6]. destruct k; by split. Qed.

Lemma drag_inv p :
  panel_inv p → ∀ v, panel_inv (onSpeakerDrag v p) ∧ panel_inv (onMicDrag v p).
Proof.
  intros [H1 H2 H3 H4 H5 H6] v. split; split; cbn; try done; try (by left);
    intros n [= <-]; unfold MAX_SUPPRESSED_POLLS; lia.
Qed.

Lemma toggle_inv p : panel_inv p → panel_inv (toggleAgc p).
Proof.
  intros [H1 H2 H3 H4 H5 H6]. unfold toggleAgc. set (q := mk_panel _ _ _ _ _ _).
  pose proof (commit_committing (SetAgc (negb (agcOn p))) q) as Hc. split; cbn; try done.
  - intros [?|?]%H1; [by left|right]. by apply (committing_commit Speaker (SetAgc (negb (agcOn p))) q).
  - intros [?|?]%H2; [by left|right]. by apply (committing_commit Mic (SetAgc (negb (agcOn p))) q).
  - intros id [Hin| ->%list_elem_of_singleton]%elem_of_app; rewrite length_app; simpl; [|lia].
    specialize (H6 id Hin). lia.
Qed.

Lemma panel_fire_inv e p : panel_inv p → panel_inv (panel_fire e p).
Proof.
  intros Hi. destruct e; cbn [panel_fire]; try case_match; try done;
    eauto using poll_inv, panel_commit_inv, commit_settled_inv, drop_inv, toggle_inv;
    by apply drag_inv.
Qed.

Lemma panel_reachable_inv p : panel_reachable p → panel_inv p.
Proof.
  revert p. apply rtc_ind_r; [|intros p p' _ (e & _ & ->); apply panel_fire_inv].
  split; cbn; try done. set_solver.
Qed.

(** ** Polls *)

Definition polls (rs : list (option mixer_state)) (p : panel) : panel := foldl (λ p r, poll r p) p rs.

(** What one poll does to a drag flag. *)
Definition miss (d : option nat) : option nat :=
  match d with Some n => if (MAX_SUPPRESSED_POLLS <=? n)%nat then None else Some (S n) | None => None end.

Lemma poll_drags r p :
  dragging (poll r p) = mk_drags (miss (d_speaker (dragging p))) (miss (d_mic (dragging p))).
Proof.
  unfold poll, suppress, miss. destruct p as [m o e [[a|] [b|]] us fl]; cbn;
    repeat (case_match; cbn); try done; destruct r; done.
Qed.

Lemma poll_free r p :
  miss (d_speaker (dragging p)) = None → miss (d_mic (dragging p)) = None →
  poll r p = show_state r (poll r p) ∧ (∀ s, r = Some s → mixer (poll r p) = Some s)
  ∧ error (poll r p) = bool_decide (r = None).
Proof.
  intros H1 H2. unfold poll, suppress, miss in *.
  destruct p as [m o e [[a|] [b|]] us fl]; cbn in *;
    repeat (case_match; cbn in *; try done); destruct r; (split; [done|]); (split; [|done]); by intros ? [= ->].
Qed.

Lemma miss_bound d n : (∀ k, d = Some k → k ≤ MAX_SUPPRESSED_POLLS) →
  ∀ k, Nat.iter n miss d = Some k → n ≤ k ≤ MAX_SUPPRESSED_POLLS.
Proof.
  intros Hd. induction n as [|n IH]; intros k.
  - intros Hk. split; [lia|by apply Hd].
  - change (Nat.iter (S n) miss d) with (miss (Nat.iter n miss d)).
    destruct (Nat.iter n miss d) as [j|]; [|done]. unfold miss.
    destruct (Nat.leb_spec MAX_SUPPRESSED_POLLS j); [done|]. intros [= <-].
    specialize (IH j eq_refl). lia.
Qed.

Lemma polls_drags rs p :
  dragging (polls rs p)
  = mk_drags (Nat.iter (length rs) miss (d_speaker (dragging p)))
      (Nat.iter (length rs) miss (d_mic (dragging p))).
Proof.
  induction rs as [|r rs IH] using rev_ind; [by destruct p as [? ? ? [] ? ?]|].
  unfold polls. rewrite foldl_snoc, poll_drags. fold (polls rs p). rewrite IH, length_app, Nat.add_comm. done.
Qed.

(** C35: In every state the panel reaches: what it shows is the last known mixer
    except for a control being dragged or with a commit on its way, so an override
    never outlives its cause; a drag whose end was never reported suppresses at
    most three polls, and the fourth poll from any state shows the device again. *)
Theorem mixer_converges p :
  panel_reachable p →
  (d_speaker (dragging p) = None → ¬ committing Speaker p →
     speakerVal p = ((mixer p ≫= speakerVolume) ?? 0%Z))
  ∧ (d_mic (dragging p) = None → ¬ committing Mic p → micVal p = ((mixer p ≫= micVolume) ?? 0%Z))
  ∧ (¬ committing Agc p → agcOn p = bool_decide (mixer p ≫= agcEnabled = Some true))
  ∧ (∀ r1 r2 r3 s, let p' := polls [r1; r2; r3; Some s] p in
       mixer p' = Some s ∧ error p' = false ∧ is_dragging p' = false).
Proof.
  intros [H1 H2 H3 H4 H5 _]%panel_reachable_inv. split_and!.
  - intros Hd Hc. unfold speakerVal. destruct (o_speaker (pending p)); [|done]. by destruct H1.
  - intros Hd Hc. unfold micVal. destruct (o_mic (pending p)); [|done]. by destruct H2.
  - intros Hc. unfold agcOn. destruct (o_agc (pending p)); [|done]. exfalso. by apply Hc, H3.
  - intros r1 r2 r3 s p'. subst p'. change [r1; r2; r3; Some s] with ([r1; r2; r3] ++ [Some s]).
    unfold polls. rewrite foldl_snoc. fold (polls [r1; r2; r3] p). set (q := polls _ p).
    assert (miss (d_speaker (dragging q)) = None ∧ miss (d_mic (dragging q)) = None) as [Hs Hm].
    { subst q. rewrite polls_drags. cbn [length d_speaker d_mic].
      assert (∀ d, (∀ k, d = Some k → k ≤ MAX_SUPPRESSED_POLLS) → Nat.iter 4 miss d = None) as Hz.
      { intros d Hd. destruct (Nat.iter 4 miss d) as [k|] eqn:E; [|done].
        pose proof (miss_bound d 4 Hd k E). unfold MAX_SUPPRESSED_POLLS in *. lia. }
      split; by apply Hz. }
    destruct (poll_free (Some s) q Hs Hm) as (_ & Hmix & ->). split; [by apply Hmix|]. split; [done|].
    unfold is_dragging. by rewrite poll_drags, Hs, Hm.
Qed.

(** Releasing one slider sends its displayed value and touches neither the drag
    nor the override of the other controls; the answer clears its own override
    only. *)
Theorem release_frame p id state :
  let p' := panel_fire ReleaseSpeaker p in
  updates p' = updates p ++ [SetSpeaker (speakerVal p)]
  ∧ d_mic (dragging p') = d_mic (dragging p) ∧ pending p' = pending p
  ∧ (updates p !! id = Some (SetSpeaker (speakerVal p)) →
     o_mic (pending (commit_settled id state p)) = o_mic (pending p)
     ∧ o_agc (pending (commit_settled id state p)) = o_agc (pending p)
     ∧ dragging (commit_settled id state p) = dragging p).
Proof. split_and!; try done. intros H. unfold commit_settled. rewrite H. by destruct state. Qed.

(** Moving the focus with a key that does not change the value sends nothing. *)
Theorem tab_commits_nothing key p :
  isSliderCommitKey key = false → panel_fire (KeyUpSpeaker key) p = p ∧ panel_fire (KeyUpMic key) p = p.
Proof. intros H. cbn. by rewrite H. Qed.

(** ** Runs *)

Definition run_panel (es : list panel_event) (p : panel) : panel := foldl (λ p e, panel_fire e p) p es.
Definition at_volume (v : Z) : mixer_state :=
  {| available := true; speakerVolume := Some v; micVolume := Some 40%Z; agcEnabled := Some false |}.

Lemma mixer_converges_witness :
  let p := run_panel [Poll (Some (at_volume 50)); DragSpeaker 70] DeviceAudioPanel in
  speakerVal p = 70%Z
  ∧ mixer (polls [None; Some (at_volume 55); None; Some (at_volume 56)] p) = Some (at_volume 56).
Proof.
  intros p. split; [reflexivity|]. assert (panel_reachable p) as Hp.
  { eapply rtc_l; [exists (Poll (Some (at_volume 50))); split; [exact I|reflexivity]|].
    eapply rtc_l; [exists (DragSpeaker 70); split; [|reflexivity]|apply rtc_refl].
    split; [split; reflexivity|split; by apply Z.leb_le]. }
  destruct (mixer_converges p Hp) as (_ & _ & _ & H).
  apply (H None (Some (at_volume 55)) None (at_volume 56)).
Defined.

(** A second drag begun while the first is being committed loses its value when
    that commit is answered: the release then sends the old one. *)
Theorem redrag_lost :
  let p := run_panel [Poll (Some (at_volume 50)); DragSpeaker 60; ReleaseSpeaker; DragSpeaker 80;
                      CommitSettled 0 (Some (at_volume 60)); ReleaseSpeaker] DeviceAudioPanel in
  updates p = [SetSpeaker 60; SetSpeaker 60].
Proof. reflexivity. Qed.
