(* ===== verification/LatSelect.v ===== *)
(** [components/LatSelect.jsx]: the select control of every settings form.

    The value and the options are the parent's and may change between events;
    [chosen] is every value handed to [onChange]. *)
From S2P Require Import Prelude.

Section select.
  Context {V : Type} `{EqDecision V}.

Record select := mk_select { open : bool; highlighted : Z; chosen : list V }.

Definition LatSelect : select := mk_select false (-1) [].

Definition close (s : select) : select := mk_select false (highlighted s) (chosen s).
Definition choose (v : V) (s : select) : select := mk_select false (highlighted s) (chosen s ++ [v]).

(** [options] are the values of the parent's options. *)
Definition openPopup (value : V) (options : list V) (s : select) : select :=
  mk_select true (match list_find (λ o, o = value) options with Some (i, _) => Z.of_nat i | None => 0%Z end)
    (chosen s).

Inductive key := Enter | Space | ArrowDown | ArrowUp | Home | End_ | Escape | OtherKey.

Definition highlight (h : Z) (s : select) : select := mk_select (open s) h (chosen s).

(** [options[highlighted]]. *)
Definition option_at (h : Z) (options : list V) : option V :=
  if (h <? 0)%Z then None else options !! Z.to_nat h.

Definition onKeyDown (disabled : bool) (value : V) (options : list V) (k : key) (s : select) : select :=
  if disabled then s
  else if open s then
    match k with
    | Escape => close s
    | ArrowDown => highlight (Z.min (highlighted s + 1) (Z.of_nat (length options) - 1)) s
    | ArrowUp => highlight (Z.max (highlighted s - 1) 0) s
    | Home => highlight 0 s
    | End_ => highlight (Z.of_nat (length options) - 1) s
    | Enter | Space => match option_at (highlighted s) options with Some v => choose v s | None => s end
    | OtherKey => s
    end
  else match k with Enter | Space | ArrowDown | ArrowUp => openPopup value options s | _ => s end.

Inductive select_event :=
| KeyDown (k : key)
| ClickTrigger
| ClickOption (i : nat)
| HoverOption (i : nat)
| ClickOutside.

Definition select_fire (disabled : bool) (value : V) (options : list V) (e : select_event) (s : select)
  : select :=
  match e with
  | KeyDown k => onKeyDown disabled value options k s
  | ClickTrigger => if disabled then s else if open s then close s else openPopup value options s
  | ClickOption i => match options !! i with Some v => choose v s | None => s end
  | HoverOption i => highlight (Z.of_nat i) s
  | ClickOutside => if open s then close s else s
  end.

(** Options are rendered only while the list is open. *)
Definition select_enabled (options : list V) (e : select_event) (s : select) : Prop :=
  match e with
  | ClickOption i | HoverOption i => open s = true ∧ i < length options
  | _ => True
  end.

(** The highlight while the list is open: an option, or the ends of an empty
    list. *)
Definition highlight_ok (options : list V) (s : select) : Prop :=
  open s = true → (0 ≤ highlighted s < length options)%Z ∨ options = [] ∧ (-1 ≤ highlighted s ≤ 0)%Z.

Inductive select_run (disabled : bool) (value : V) (options : list V) : select → Prop :=
| select_start s : open s = false → chosen s = [] → select_run disabled value options s
| select_next e s :
    select_run disabled value options s → select_enabled options e s →
    select_run disabled value options (select_fire disabled value options e s).

Lemma openPopup_highlight value options s : highlight_ok options (openPopup value options s).
Proof.
  intros _. unfold openPopup. cbn. destruct (list_find _ options) as [[i v]|] eqn:E.
  - apply list_find_Some in E as (Hi & _ & _). apply lookup_lt_Some in Hi. left. lia.
  - destruct options as [|o l]; [right; split; [done|lia]|left]. cbn. lia.
Qed.

Lemma highlight_step disabled value options e s :
  highlight_ok options s → select_enabled options e s →
  highlight_ok options (select_fire disabled value options e s).
Proof.
  intros Hok He. destruct e as [k| |i|i|]; cbn [select_fire] in *.
  - unfold onKeyDown. destruct disabled; [done|]. destruct (open s) eqn:Ho.
    + assert (∀ h, ((0 ≤ h < length options)%Z ∨ options = [] ∧ (-1 ≤ h ≤ 0)%Z) →
        highlight_ok options (highlight h s)) as Hh by (intros h Hh _; exact Hh).
      assert (highlight_ok options (close s)) as Hcl by by intros [=].
      destruct k; try done; try (destruct (option_at _ _); [by intros [=]|done]); apply Hh;
        (destruct (Hok Ho) as [?|[-> ?]]; [left; lia|right; split; [done|simpl; lia]]).
    + destruct k; try apply openPopup_highlight; done.
  - destruct disabled; [done|]. destruct (open s); [done|apply openPopup_highlight].
  - by destruct (options !! i).
  - destruct He as [_ Hi]. intros _. left. cbn. lia.
  - by destruct (open s).
Qed.

Lemma chosen_step disabled value options e s :
  ∃ l, chosen (select_fire disabled value options e s) = chosen s ++ l
    ∧ (∀ v, v ∈ l → v ∈ options) ∧ length l ≤ 1
    ∧ (l ≠ [] → open (select_fire disabled value options e s) = false).
Proof.
  assert (∀ s', chosen s' = chosen s → ∃ l, chosen s' = chosen s ++ l ∧ (∀ v, v ∈ l → v ∈ options)
    ∧ length l ≤ 1 ∧ (l ≠ [] → open s' = false)) as Hid.
  { intros s' ->. exists []. rewrite app_nil_r. split_and!; [done|by intros ? ?%elem_of_nil|simpl; lia|done]. }
  assert (∀ v, v ∈ options → ∃ l, chosen (choose v s) = chosen s ++ l ∧ (∀ v, v ∈ l → v ∈ options)
    ∧ length l ≤ 1 ∧ (l ≠ [] → open (choose v s) = false)) as Hch.
  { intros v Hv. exists [v]. split_and!; [done|by intros ? ->%list_elem_of_singleton|simpl; lia|done]. }
  destruct e as [k| |i|i|]; cbn [select_fire].
  - unfold onKeyDown. destruct disabled; [by apply Hid|]. destruct (open s).
    + destruct k; try (by apply Hid); unfold option_at; destruct (_ <? 0)%Z; try (by apply Hid);
        destruct (options !! _) eqn:E; try (by apply Hid);
        apply Hch; by eapply list_elem_of_lookup_2.
    + destruct k; by apply Hid.
  - destruct disabled; [by apply Hid|]. destruct (open s); by apply Hid.
  - destruct (options !! i) eqn:E; [|by apply Hid]. apply Hch. by eapply list_elem_of_lookup_2.
  - by apply Hid.
  - destruct (open s); by apply Hid.
Qed.

(** The control reports only values among its options, and a list that is open
    highlights one of them unless it is empty, so Enter always has something to
    choose. *)
Theorem select_sound disabled value options s :
  select_run disabled value options s →
  (∀ v, v ∈ chosen s → v ∈ options)
  ∧ highlight_ok options s
  ∧ (open s = true → options ≠ [] → disabled = false →
     ∃ v, option_at (highlighted s) options = Some v
       ∧ chosen (select_fire disabled value options (KeyDown Enter) s) = chosen s ++ [v]).
Proof.
  intros Hr. assert ((∀ v, v ∈ chosen s → v ∈ options) ∧ highlight_ok options s) as [H1 H2].
  { induction Hr as [s Ho Hc|e s Hr [IH1 IH2] He].
    - split; [rewrite Hc; by intros ? ?%elem_of_nil|]. intros Ho'. congruence.
    - split; [|by apply highlight_step].
      destruct (chosen_step disabled value options e s) as (l & -> & Hl & _).
      intros v [?|?]%elem_of_app; auto. }
  split_and!; [done|done|]. intros Ho Hne ->. destruct (H2 Ho) as [Hh|[? _]]; [|done].
  cbn. unfold onKeyDown, option_at. rewrite Ho, (proj2 (Z.ltb_ge _ 0)) by lia.
  destruct (options !! Z.to_nat (highlighted s)) as [v|] eqn:E; [by exists v|].
  apply lookup_ge_None_1 in E. lia.
Qed.

End select.
