(* ===== verification/Blos.v ===== *)
(** [pages/BLOS.jsx] and [hooks/useBLOSStatus.js]: the status envelope the shared
    store polls, the texts, the configuration form, and the event stream with its
    bounded log.

    A stream is known by its number; it is the page's current one until the effect
    that opened it is cleaned up, and events of an older one are not delivered.
    The panels that print the status are in [BlosView]. *)
From S2P Require Import Prelude JsString JsNumber.

Open Scope js_scope.

(** ** The envelope *)

Record blos_status := { blosEnabled : option bool; rxBytesPerSec : option Z; txBytesPerSec : option Z }.
Record blos_peer := { p_hostname : string; p_online : bool }.
Record blos_snapshot := mk_snapshot { s_status : option blos_status; s_peers : list blos_peer; s_error : option string }.

(** [Promise.allSettled] of the two calls; a rejection is its reason's message. *)
Definition fetch_blos (status : blos_status + option string) (peers : option (list blos_peer) + option string)
  : blos_snapshot :=
  mk_snapshot (match status with inl s => Some s | inr _ => None end)
    (match peers with inl ps => ps ?? [] | inr _ => [] end)
    (match status with inl _ => None | inr msg => Some (msg ?? "Failed to load BLOS status") end).

(** ** Texts *)

(** [None] or zero is falsy. *)
Definition formatKbps (bytesPerSec : option Z) : string :=
  match bytesPerSec with
  | None => "—"
  | Some b =>
      if (b <=? 0)%Z then "—"
      else
        let kbps := fdiv (of_int (b * 8)) (of_int 1000) in
        if flt kbps (of_int 10) then toFixed 1 kbps else pretty (Math_round kbps ?? 0%Z)
  end.

Definition formatBytes (n : option Z) : string :=
  match n with
  | None | Some 0%Z => "—"
  | Some v =>
      let by_ (k : Z) := fdiv (of_int v) (of_int k) in
      if (v <? 1024)%Z then pretty v ++ " B"
      else if (v <? 1024 * 1024)%Z then toFixed 1 (by_ 1024%Z) ++ " KiB"
      else if (v <? 1024 * 1024 * 1024)%Z then toFixed 1 (by_ (1024 * 1024)%Z) ++ " MiB"
      else toFixed 2 (by_ (1024 * 1024 * 1024)%Z) ++ " GiB"
  end%string.

(** Seconds of a timestamp, falsy when absent or zero; the clock in ms. *)
Definition elapsed (seconds now : Z) : Z := (Z.max 0 (now - seconds * 1000) / 1000)%Z.

Definition formatSince (ts : option Z) (now : Z) : string :=
  match ts with
  | None | Some 0%Z => "—"
  | Some t =>
      let s := elapsed t now in
      if (s <? 60)%Z then pretty s ++ "s"
      else let m := (s / 60)%Z in
        if (m <? 60)%Z then pretty m ++ "m " ++ pretty (s mod 60)%Z ++ "s"
        else let h := (m / 60)%Z in
          if (h <? 24)%Z then pretty h ++ "h " ++ pretty (m mod 60)%Z ++ "m"
          else pretty (h / 24)%Z ++ "d " ++ pretty (h mod 24)%Z ++ "h"
  end%string.

Definition formatLastSeen (ts : option Z) (now : Z) : string :=
  match ts with
  | None | Some 0%Z => "—"
  | Some t =>
      let s := elapsed t now in
      if (s <? 60)%Z then pretty s ++ "s ago"
      else let m := (s / 60)%Z in
        if (m <? 60)%Z then pretty m ++ "m ago"
        else let h := (m / 60)%Z in
          if (h <? 24)%Z then pretty h ++ "h ago" else pretty (h / 24)%Z ++ "d ago"
  end%string.

Fixpoint stripTrailingDot (s : string) : string :=
  match s with
  | EmptyString => EmptyString
  | String c EmptyString => if decide (c = "."%char) then EmptyString else s
  | String c s' => String c (stripTrailingDot s')
  end.

(** ** The page *)

Definition MAX_EVENTS : nat := 50.

Record blos_event := { ev_kind : Z; ev_subject : string; ev_message : string }.

(** [loginServerUrl] is left out when blank. *)
Record update_request := { req_enable : bool; req_authKey : string; req_loginServer : option string }.

Record blos_page := mk_blos {
  events : list blos_event;
  snapshot : option blos_snapshot;
  enableBlos : bool;
  authKey : string;
  loginServer : string;
  saving : bool;
  saveError : option string;
  success : option string;
  stream : option nat;
  opened : nat;
  traffic : list (Z * Z);
  requests : list update_request;
  received : list blos_event
}.

Definition BLOSPage : blos_page :=
  mk_blos [] None false "" "" false None None None 0 [] [] [].

Definition status_of (p : blos_page) : option blos_status := snapshot p ≫= s_status.
Definition running (p : blos_page) : bool := (status_of p ≫= blosEnabled) ?? false.

Definition set_form (e : bool) (k l : string) (p : blos_page) : blos_page :=
  mk_blos (events p) (snapshot p) e k l (saving p) (saveError p) (success p) (stream p) (opened p)
    (traffic p) (requests p) (received p).
Definition set_result (b : bool) (err succ : option string) (p : blos_page) : blos_page :=
  mk_blos (events p) (snapshot p) (enableBlos p) (authKey p) (loginServer p) b err succ (stream p)
    (opened p) (traffic p) (requests p) (received p).

(** The two effects on [status], which is a new object in every snapshot. *)
Definition status_effects (p : blos_page) : blos_page :=
  match status_of p with
  | None => p
  | Some st =>
      mk_blos (events p) (snapshot p) (blosEnabled st ?? false) (authKey p) (loginServer p) (saving p)
        (saveError p) (success p) (stream p) (opened p)
        (traffic p ++ [(rxBytesPerSec st ?? 0, txBytesPerSec st ?? 0)%Z]) (requests p) (received p)
  end.

(** The effect on [running], with its cleanup; [was] is its value before. *)
Definition stream_effect (was : bool) (p : blos_page) : blos_page :=
  if Bool.eqb was (running p) then p
  else
    let open_ := if running p then Some (opened p) else None in
    mk_blos (events p) (snapshot p) (enableBlos p) (authKey p) (loginServer p) (saving p) (saveError p)
      (success p) open_ (if running p then S (opened p) else opened p) (traffic p) (requests p) (received p).

Definition snapshot_arrived (s : blos_snapshot) (p : blos_page) : blos_page :=
  let was := running p in
  let p := mk_blos (events p) (Some s) (enableBlos p) (authKey p) (loginServer p) (saving p) (saveError p)
             (success p) (stream p) (opened p) (traffic p) (requests p) (received p) in
  stream_effect was (status_effects p).

(** One response of the stream; an empty envelope is skipped. *)
Definition stream_event (ev : option blos_event) (p : blos_page) : blos_page :=
  match ev with
  | None => p
  | Some ev =>
      let next := events p ++ [ev] in
      mk_blos (if (MAX_EVENTS <? length next)%nat then last_n MAX_EVENTS next else next) (snapshot p)
        (enableBlos p) (authKey p) (loginServer p) (saving p) (saveError p) (success p) (stream p)
        (opened p) (traffic p) (requests p) (received p ++ [ev])
  end.

(** The stream ended or failed: nothing reopens it while [running] stays. *)
Definition stream_over (p : blos_page) : blos_page :=
  mk_blos (events p) (snapshot p) (enableBlos p) (authKey p) (loginServer p) (saving p) (saveError p)
    (success p) None (opened p) (traffic p) (requests p) (received p).

Definition wanted (p : blos_page) : bool := enableBlos p || negb (bool_decide (trim (authKey p) = "")).

(** [handleSave] up to its await; the flag it asked for is kept by its closure. *)
Definition handleSave (p : blos_page) : blos_page :=
  let p := set_result true None None p in
  mk_blos (events p) (snapshot p) (enableBlos p) (authKey p) (loginServer p) (saving p) (saveError p)
    (success p) (stream p) (opened p) (traffic p)
    (requests p ++ [{| req_enable := wanted p; req_authKey := authKey p;
                       req_loginServer := if decide (loginServer p = "") then None else Some (loginServer p) |}])
    (received p).

(** The answer: [success] and [message], or the error's message. *)
Definition save_settled (r : bool * string + string) (p : blos_page) : blos_page :=
  let fail msg := set_result false (Some ("Failed to update BLOS: " ++ msg)%string) (success p) p in
  match r, last (requests p) with
  | inl (true, message), Some req =>
      set_form (req_enable req) "" (loginServer p)
        (set_result false (saveError p)
           (Some (if decide (message = "") then "BLOS configuration updated." else message)) p)
  | inl (_, message), _ => fail (if decide (message = "") then "Update failed" else message)
  | inr msg, _ => fail msg
  end.

Inductive blos_action :=
| Snapshot (s : blos_snapshot)
| StreamEvent (id : nat) (ev : option blos_event)
| StreamOver (id : nat)
| Toggle | TypeKey (s : string) | TypeServer (s : string)
| Save | SaveSettled (r : bool * string + string).

Definition blos_enabled (a : blos_action) (p : blos_page) : Prop :=
  match a with
  | Snapshot _ => True
  | StreamEvent id _ | StreamOver id => stream p = Some id
  | SaveSettled _ => saving p = true
  | Save => snapshot p ≠ None ∧ saving p = false
  | _ => snapshot p ≠ None
  end.

Definition blos_fire (a : blos_action) (p : blos_page) : blos_page :=
  match a with
  | Snapshot s => snapshot_arrived s p
  | StreamEvent _ ev => stream_event ev p
  | StreamOver _ => stream_over p
  | Toggle => set_form (negb (enableBlos p)) (authKey p) (loginServer p) p
  | TypeKey s => set_form (enableBlos p) s (loginServer p) p
  | TypeServer s => set_form (enableBlos p) (authKey p) s p
  | Save => handleSave p
  | SaveSettled r => save_settled r p
  end.

Definition blos_step (p p' : blos_page) : Prop := ∃ a, blos_enabled a p ∧ p' = blos_fire a p.
Definition blos_reachable : blos_page → Prop := rtc blos_step BLOSPage.

(** ** Properties *)

(** A failed call costs its own part of the envelope only. *)
Theorem envelope_parts status peers :
  (∀ st, status = inl st → s_status (fetch_blos status peers) = Some st ∧ s_error (fetch_blos status peers) = None)
  ∧ (∀ ps, peers = inl (Some ps) → s_peers (fetch_blos status peers) = ps)
  ∧ (s_status (fetch_blos status peers) = None ↔ s_error (fetch_blos status peers) ≠ None).
Proof. split_and!; [by intros ? ->|by intros ? ->|]. by destruct status. Qed.

Record blos_inv (p : blos_page) : Prop := {
  bi_stream : stream p ≠ None → running p = true;
  bi_events : events p = last_n MAX_EVENTS (received p);
  bi_ids : ∀ id, stream p = Some id → id < opened p;
  bi_saving : saving p = true → requests p ≠ []
}.

Lemma log_window (r : list blos_event) ev :
  (let next := last_n MAX_EVENTS r ++ [ev] in
   if (MAX_EVENTS <? length next)%nat then last_n MAX_EVENTS next else next)
  = last_n MAX_EVENTS (r ++ [ev]).
Proof.
  transitivity (last_n MAX_EVENTS (last_n MAX_EVENTS r ++ [ev])); [|apply (last_n_snoc_trim 49)].
  cbv zeta. destruct (Nat.ltb_spec MAX_EVENTS (length (last_n MAX_EVENTS r ++ [ev]))); [done|].
  by rewrite (last_n_all MAX_EVENTS (_ ++ _)).
Qed.

Lemma stream_event_inv ev p : blos_inv p → blos_inv (stream_event ev p).
Proof.
  intros [H1 H2 H3 H4]. destruct ev as [ev|]; [|by split]. split; try done.
  cbn [stream_event events received]. rewrite H2. apply log_window.
Qed.

Lemma snapshot_inv s p : blos_inv p → blos_inv (snapshot_arrived s p).
Proof.
  intros [H1 H2 H3 H4]. unfold snapshot_arrived. set (q := status_effects _).
  assert (events q = events p ∧ received q = received p ∧ stream q = stream p ∧ opened q = opened p
    ∧ saving q = saving p ∧ requests q = requests p) as (E1 & E2 & E3 & E4 & E5 & E6)
    by (subst q; unfold status_effects; cbn; by destruct (s_status s)).
  unfold stream_effect. destruct (Bool.eqb (running p) (running q)) eqn:E.
  - apply Bool.eqb_prop in E. split; rewrite ?E1, ?E2, ?E3, ?E4, ?E5, ?E6; try done. by rewrite <- E.
  - set (q' := mk_blos _ _ _ _ _ _ _ _ _ _ _ _ _). assert (running q' = running q) as Hr by done.
    split; rewrite ?Hr; subst q'; cbn; rewrite ?E1, ?E2, ?E4, ?E5, ?E6; try done.
    + by destruct (running q).
    + destruct (running q); [intros id [= <-]; lia|done].
Qed.

Lemma blos_fire_inv a p : blos_inv p → blos_enabled a p → blos_inv (blos_fire a p).
Proof.
  intros Hi _. destruct a; cbn [blos_fire].
  - by apply snapshot_inv.
  - by apply stream_event_inv.
  - by destruct Hi.
  - by destruct Hi.
  - by destruct Hi.
  - by destruct Hi.
  - destruct Hi as [H1 H2 H3 H4]. split; try done. cbn. intros _ H. by apply app_eq_nil in H as [_ [=]].
  - destruct Hi as [H1 H2 H3 H4]. unfold save_settled.
    destruct r as [[[] m]|m]; [destruct (last (requests p))| |]; by split.
Qed.

Lemma blos_reachable_inv p : blos_reachable p → blos_inv p.
Proof.
  revert p. apply rtc_ind_r; [|intros p p' _ (a & Ha & ->) Hi; by apply blos_fire_inv].
  split; cbn; done.
Qed.

Lemma snapshot_stream s p :
  let p' := snapshot_arrived s p in
  stream p' = if Bool.eqb (running p) (running p') then stream p
              else if running p' then Some (opened p) else None.
Proof.
  cbv zeta. unfold snapshot_arrived. set (q := status_effects _).
  assert (stream q = stream p ∧ opened q = opened p) as [E1 E2]
    by (subst q; unfold status_effects; cbn; by destruct (s_status s)).
  unfold stream_effect. destruct (Bool.eqb (running p) (running q)) eqn:E; [by rewrite E, E1|].
  set (q' := mk_blos _ _ _ _ _ _ _ _ _ _ _ _ _). change (running q') with (running q).
  rewrite E. subst q'. cbn. by rewrite E2.
Qed.

(** The log holds the last fifty events received; a stream is open only while the
    daemon says the tunnel is enabled; a snapshot that changes nothing opens none,
    and one that disables it closes the stream at once. *)
Theorem blos_stream p s :
  blos_reachable p →
  events p = last_n MAX_EVENTS (received p)
  ∧ (stream p ≠ None → running p = true)
  ∧ (let p' := blos_fire (Snapshot s) p in
     (running p' = running p → stream p' = stream p)
     ∧ (running p = true → running p' = false → stream p' = None)
     ∧ (running p = false → running p' = true → stream p' = Some (opened p))).
Proof.
  intros [H1 H2 _ _]%blos_reachable_inv. split; [done|]. split; [done|]. cbn [blos_fire]. cbv zeta.
  rewrite (snapshot_stream s p).
  destruct (running p), (running (snapshot_arrived s p)); split_and!; done.
Qed.

(** A key that is not blank asks for the tunnel whatever the toggle says; a
    success clears the key and leaves the toggle as asked, a failure keeps the
    form. *)
Theorem save_derives_enable p message :
  let q := blos_fire Save p in
  (∃ req, requests q = requests p ++ [req] ∧ req_authKey req = authKey p
     ∧ (req_enable req = true ↔ enableBlos p = true ∨ trim (authKey p) ≠ ""))
  ∧ (let ok := blos_fire (SaveSettled (inl (true, message))) q in
     authKey ok = "" ∧ enableBlos ok = wanted p ∧ saving ok = false)
  ∧ (∀ r, r = inl (false, message) ∨ r = inr message →
     let ko := blos_fire (SaveSettled r) q in
     authKey ko = authKey p ∧ enableBlos ko = enableBlos p ∧ saving ko = false ∧ saveError ko ≠ None).
Proof.
  split_and!.
  - eexists. split; [done|]. split; [done|]. cbn. unfold wanted. cbn.
    rewrite orb_true_iff, negb_true_iff, bool_decide_eq_false. done.
  - cbn. unfold save_settled. cbn. by rewrite last_snoc.
  - intros r [-> | ->]; cbn; unfold save_settled; cbn; by rewrite ?last_snoc.
Qed.

(** An age is never negative and its parts stay in range. *)
Lemma elapsed_nonneg t now : (0 ≤ elapsed t now)%Z.
Proof. unfold elapsed. apply Z.div_pos; lia. Qed.

Lemma stripTrailingDot_app s : stripTrailingDot (s ++ ".") = s.
Proof.
  induction s as [|c s IH]; [done|]. change (String c s ++ ".")%string with (String c (s ++ ".")).
  cbn [stripTrailingDot]. destruct (s ++ ".")%string eqn:E; [by destruct s|]. by rewrite IH.
Qed.

(** ** Runs *)

Definition run_blos (l : list blos_action) (p : blos_page) : blos_page := foldl (λ p a, blos_fire a p) p l.
Definition status_now (b : bool) : blos_snapshot :=
  mk_snapshot (Some {| blosEnabled := Some b; rxBytesPerSec := None; txBytesPerSec := None |}) [] None.

(** The toggle is the operator's only until the next poll. *)
Theorem toggle_overwritten_by_poll :
  let p := run_blos [Snapshot (status_now false); Toggle] BLOSPage in
  enableBlos p = true ∧ enableBlos (blos_fire (Snapshot (status_now false)) p) = false.
Proof. done. Qed.

(** A stream the daemon closes is not opened again while the tunnel stays up. *)
Theorem stream_not_reopened :
  let p := run_blos [Snapshot (status_now true); StreamOver 0; Snapshot (status_now true)] BLOSPage in
  running p = true ∧ stream p = None.
Proof. done. Qed.
