(* ===== verification/TopologyPage.v ===== *)
(** [pages/Topology.jsx]: the page around the topology graph: its header, counts,
    selection, and the inspector of the selected host with its links.

    The graph is [Topology.buildTopologyView] of the polled topology; the text of a
    number with decimals is left as the number and its unit. *)
From S2P Require Import Prelude JsString JsNumber JsList Topology MeshApi.
Open Scope js_scope.

(** ** Roles *)

(** [startsWith('remote')] *)
Definition isRemoteSegmentId (segmentId : string) : bool := String.prefix "remote" segmentId.

Definition isGatewayHost (host : option host) : bool :=
  match host with
  | None => false
  | Some h =>
      if isGateway h then true
      else if negb (isRemoteSegmentId (segmentId h)) then false
      else
        let gwMac := toLowerCase (h_remoteGatewayMac h) in
        negb (bool_decide (gwMac = "")) && bool_decide (gwMac = toLowerCase (h_mac h))
  end.

Definition roleLabelForHost (h : host) (meshData : option mesh_status) : string :=
  let selfIsGateway :=
    isSelf h && (isGateway h || ((is_gateway <$> (meshData ≫= ms_status)) ?? false)) in
  if selfIsGateway then "SELF · GATEWAY"
  else if isSelf h then "SELF"
  else if isGatewayHost (Some h) then "GATEWAY"
  else "MESH NODE".

(** ** Texts *)

Definition formatLatency (ms : option Z) : string :=
  match ms with
  | None => "—"
  | Some ms =>
      if (ms <? 1)%Z then "<1 ms"
      else if (ms <? 1000)%Z then (pretty ms ++ " ms")%string
      else (toFixed 1 (fdiv (of_int ms) (of_int 1000)) ++ " s")%string
  end.

Inductive metric_text := NoMetric | Mbps (m : Z) | TQ (m : Z).

Definition formatMetric (e : edge) (algorithm : string) : metric_text :=
  if decide (metric e = 0%Z) then NoMetric
  else if decide (algorithm = "BATMAN_V") then Mbps (metric e) else TQ (metric e).

Inductive tone := Muted | Warn | Ok.

Definition GossipFreshnessRow (h : host) : string * tone :=
  let age := gossipAgeSeconds h in
  let hasAge := (0 <=? age)%Z in
  if gossipStale h && hasAge then (("stale · " ++ formatAge (Some age))%string, Warn)
  else if gossipStale h then ("stale · no record", Warn)
  else if hasAge then (("fresh · " ++ formatAge (Some age) ++ " ago")%string, Ok)
  else ("— · NO RECORD", Muted).

(** The badge: its two numbers and whether it warns. *)
Definition GossipCoverageBadge (coverage : option (Z * Z)) : option (Z * Z * bool) :=
  match coverage with
  | None => None
  | Some (published, total) =>
      if (total <=? 0)%Z then None else Some (published, total, (published * 2 <? total)%Z)
  end.

(** ** Lookup tables *)

(** [map.set] of a JavaScript map whose order nobody reads. *)
Definition add_ip (m : gmap string string) (n : node) : gmap string string :=
  let name := hostname n ?? "" in
  if decide (name = "") then m else <[toLowerCase name := ip n ?? ""]> m.

Definition ipByHostname (meshData : option mesh_status) : gmap string string :=
  foldl add_ip ∅ ((meshData ≫= ms_nodes) ?? []).

Definition hostById (hosts : list host) : gmap string host :=
  foldl (λ m h, <[h_id h := h]> m) ∅ hosts.

Definition add_end (key : string) (e : edge) (m : gmap string (list edge)) : gmap string (list edge) :=
  <[key := (m !! key ?? []) ++ [e]]> m.
Definition add_edge (m : gmap string (list edge)) (e : edge) : gmap string (list edge) :=
  add_end (hostB e) e (add_end (hostA e) e m).

Definition edgesByHost (segments : list segment) (blosEdges : list edge) : gmap string (list edge) :=
  foldl add_edge (foldl (λ m s, foldl add_edge m (seg_edges s)) ∅ segments) blosEdges.

(** ** The inspector *)

Inductive link_metric := ViaBlos | LinkMetric (m : metric_text).
Record link_row := { peer_name : string; trailing : link_metric; on_my_path : bool }.

Definition LinkRow (e : edge) (peerHost : option host) (algorithm : string) : option link_row :=
  (λ p, {| peer_name := or_str (baseHostname p) (h_id p);
           trailing := if blos e then ViaBlos else LinkMetric (formatMetric e algorithm);
           on_my_path := onMyPath e |}) <$> peerHost.

Definition peerKey (h : host) (e : edge) : string :=
  if decide (hostA e = h_id h) then hostB e else hostA e.

Definition link_rows (h : host) (hosts : gmap string host) (algorithm : string) (edges : list edge)
  : list link_row := omap (λ e, LinkRow e (hosts !! peerKey h e) algorithm) edges.

Record inspector := {
  i_role : string; i_host : string; i_mac : string; i_ip : string; i_remote : bool;
  i_hops : string; i_gossip : option (string * tone); i_route : option string;
  i_links : list link_row
}.

Definition HostInspector (h : host) (meshData : option mesh_status) (ips : gmap string string)
    (hosts : gmap string host) (edges : list edge) (algorithm : string) : inspector :=
  {| i_role := roleLabelForHost h meshData;
     i_host := or_str (baseHostname h) "—";
     i_mac := or_str (h_mac h) "—";
     i_ip := or_str (ips !! toLowerCase (baseHostname h) ?? "") "—";
     i_remote := isRemoteSegmentId (segmentId h);
     i_hops := if (hops h <? 99)%Z then pretty (hops h) else "—";
     i_gossip := if isSelf h then None else Some (GossipFreshnessRow h);
     i_route := if isSelf h then None else Some (or_str (myHardIfname h) "— · NOT ON MY ROUTE");
     i_links := link_rows h hosts algorithm edges |}.

(** ** The page *)

Record topology_page := mk_page {
  meshData : option mesh_status;
  graph : option topology;
  selectedId : option string;
  fitSignal : nat;
  myPathsOn : bool
}.

Definition TopologyPage : topology_page := mk_page None None None 0 false.

Section Page.
Context (localeCompare : string → string → Z).

Definition view (p : topology_page) : topo_view := buildTopologyView localeCompare (graph p).

(** The empty identifier is falsy. *)
Definition selected (p : topology_page) : option host :=
  match selectedId p with
  | None | Some "" => None
  | Some id => hostById (v_hosts (view p)) !! id
  end.

Definition inspected (p : topology_page) : option inspector :=
  (λ h, HostInspector h (meshData p) (ipByHostname (meshData p)) (hostById (v_hosts (view p)))
          (edgesByHost (v_segments (view p)) (v_blosEdges (view p)) !! h_id h ?? [])
          (v_algorithm (view p))) <$> selected p.

Definition remoteSegmentCount (p : topology_page) : nat :=
  length (filter (λ s, seg_kind_of s = KRemote) (v_segments (view p))).
Definition meshUp (p : topology_page) : bool := (0 <? c_hosts (v_counts (view p)))%nat.
Definition selfHost (p : topology_page) : string :=
  or_str (toUpperCase ((baseHostname <$> v_self (view p)) ?? "")) "—".

Definition plural (n : nat) : string := if decide (n = 1%nat) then "" else "s".
Definition crumb (p : topology_page) : string :=
  let c := v_counts (view p) in
  let links := pretty (Z.of_nat (c_links c)) in
  ((if (0 <? remoteSegmentCount p)%nat
    then "LOCAL + " ++ pretty (Z.of_nat (remoteSegmentCount p)) ++ " REMOTE · " ++ links ++ " RF · "
         ++ pretty (Z.of_nat (c_blosLinks c)) ++ " BLOS"
    else "Radial layout · " ++ links ++ " link" ++ plural (c_links c))
   ++ " · 5s refresh")%string.

Inductive page_event :=
| Status (s : mesh_status) | Graph (t : option topology)
| SelectHost (h : host) | Fit | ToggleMyPaths.

(** The map draws the hosts of the view: only they can be clicked. *)
Definition page_enabled (e : page_event) (p : topology_page) : Prop :=
  match e with SelectHost h => h ∈ v_hosts (view p) | _ => True end.

Definition page_fire (e : page_event) (p : topology_page) : topology_page :=
  match e with
  | Status s => mk_page (Some s) (graph p) (selectedId p) (fitSignal p) (myPathsOn p)
  | Graph t => mk_page (meshData p) t (selectedId p) (fitSignal p) (myPathsOn p)
  | SelectHost h => mk_page (meshData p) (graph p) (Some (h_id h)) (fitSignal p) (myPathsOn p)
  | Fit => mk_page (meshData p) (graph p) (selectedId p) (S (fitSignal p)) (myPathsOn p)
  | ToggleMyPaths => mk_page (meshData p) (graph p) (selectedId p) (fitSignal p) (negb (myPathsOn p))
  end.
End Page.

(** ** Lemmas *)

Definition touches (k : string) (e : edge) : Prop := hostA e = k ∨ hostB e = k.
#[export] Instance touches_dec k e : Decision (touches k e).
Proof. unfold touches. apply _. Defined.

Lemma add_end_lookup key e m k :
  add_end key e m !! k ?? [] = (m !! k ?? []) ++ (if decide (key = k) then [e] else []).
Proof.
  unfold add_end. destruct (decide (key = k)) as [->|].
  - by rewrite lookup_insert_eq.
  - by rewrite lookup_insert_ne, app_nil_r.
Qed.

Lemma add_edges_lookup es m k :
  Forall (λ e, hostA e ≠ hostB e) es →
  foldl add_edge m es !! k ?? [] = (m !! k ?? []) ++ filter (touches k) es.
Proof.
  revert m. induction es as [|e es IH]; intros m Hes; [by rewrite app_nil_r|].
  apply Forall_cons in Hes as [He Hes]. cbn [foldl]. rewrite IH by done.
  unfold add_edge. rewrite !add_end_lookup, filter_cons, <- !app_assoc. f_equal.
  unfold touches. repeat case_decide; naive_solver.
Qed.

Lemma edgesByHost_lookup segs bs k :
  Forall (λ e, hostA e ≠ hostB e) (concat (map seg_edges segs) ++ bs) →
  edgesByHost segs bs !! k ?? [] = filter (touches k) (concat (map seg_edges segs) ++ bs).
Proof.
  intros [Hs Hb]%Forall_app. unfold edgesByHost. rewrite add_edges_lookup, filter_app by done. f_equal.
  enough (∀ m, foldl (λ m s, foldl add_edge m (seg_edges s)) m segs !! k ?? []
    = (m !! k ?? []) ++ filter (touches k) (concat (map seg_edges segs))) as H by (by rewrite H, lookup_empty).
  clear bs Hb. induction segs as [|s segs IH]; intros m; [by rewrite app_nil_r|].
  cbn [map concat] in Hs |- *. apply Forall_app in Hs as [H1 H2]. cbn [foldl].
  by rewrite IH, add_edges_lookup, filter_app, app_assoc.
Qed.

Lemma hostById_lookup hosts k h :
  NoDup (map h_id hosts) → hostById hosts !! k = Some h ↔ h ∈ hosts ∧ h_id h = k.
Proof.
  induction hosts as [|x hosts IH] using rev_ind; intros Hn.
  { split; [done|by intros [?%elem_of_nil _]]. }
  rewrite map_app in Hn. apply NoDup_app in Hn as (Hn & Hx & _). unfold hostById. rewrite foldl_app. cbn [foldl].
  rewrite elem_of_app, list_elem_of_singleton. destruct (decide (h_id x = k)) as [<-|Hne].
  - rewrite lookup_insert_eq. split; [by intros [= ->]; auto|]. intros [[Hin| ->] He]; [|done].
    exfalso. apply (Hx (h_id x)); [|by left]. rewrite <- He. by apply list_elem_of_fmap_2.
  - rewrite lookup_insert_ne by done. rewrite (IH Hn). naive_solver.
Qed.

Lemma resolved_distinct m (ws : list mesh_edge) : Forall (λ e, hostA e ≠ hostB e) (omap (resolve_edge m) ws).
Proof.
  apply Forall_forall. intros e (w & _ & Hw)%list_elem_of_omap. unfold resolve_edge in Hw.
  case_decide as Hd; [done|]. destruct (map_get _ m); [|done]. destruct (map_get _ m); [|done].
  injection Hw as <-. cbn. naive_solver.
Qed.

Lemma peerKey_spec h e : hostA e ≠ hostB e → touches (h_id h) e →
  peerKey h e ≠ h_id h ∧ touches (peerKey h e) e.
Proof.
  intros Hne Ht. unfold peerKey. destruct (decide (hostA e = h_id h)) as [Ha|Ha]; unfold touches in *;
    [rewrite <- Ha|]; naive_solver.
Qed.

Section Inspector.
Context (localeCompare : string → string → Z).

Abbreviation links t := (omap (resolve_edge (view_map t)) (t_edges t)).

Lemma view_edges t :
  t_nodes t ≠ [] →
  let v := buildTopologyView localeCompare (Some t) in
  concat (map seg_edges (v_segments v)) ++ v_blosEdges v ≡ₚ links t.
Proof. intros Hn v. rewrite Permutation_app_comm. by apply (topology_edges localeCompare t Hn). Qed.

Lemma view_NoDup t : NoDup (map h_id (v_hosts (buildTopologyView localeCompare t))).
Proof.
  destruct t as [t|]; [|constructor]. destruct (decide (t_nodes t = [])) as [Hn|Hn].
  { unfold buildTopologyView. rewrite Hn. constructor. }
  destruct (view_fields localeCompare t Hn) as (-> & _).
  rewrite sorted_hosts_map by done. rewrite map_wf_ids by apply view_map_wf. apply view_map_wf.
Qed.

Lemma view_id_ne t h : h ∈ v_hosts (buildTopologyView localeCompare t) → h_id h ≠ "".
Proof.
  destruct t as [t|]; [|by cbn; intros ?%elem_of_nil]. destruct (decide (t_nodes t = [])) as [Hn|Hn].
  { unfold buildTopologyView. rewrite Hn. cbn. by intros ?%elem_of_nil. }
  intros Hin%(list_elem_of_fmap_2 h_id). rewrite view_ids in Hin by done.
  by apply (view_map_keys localeCompare t (h_id h)) in Hin as [? _].
Qed.

(** Both ends of a link are hosts of the view. *)
Lemma link_end t e k :
  t_nodes t ≠ [] → e ∈ links t → touches k e →
  ∃ p, p ∈ v_hosts (buildTopologyView localeCompare (Some t)) ∧ h_id p = k.
Proof.
  intros Hn He Hk. enough (k ∈ map h_id (v_hosts (buildTopologyView localeCompare (Some t)))) as H.
  { apply list_elem_of_fmap in H as (p & -> & ?). by exists p. }
  rewrite view_ids by done. destruct (resolved_ends _ _ _ He) as (ha & hb & Ha & Hb & _).
  by destruct Hk as [<-|<-];
    [apply map_get_Some, (list_elem_of_fmap_2 fst) in Ha|apply map_get_Some, (list_elem_of_fmap_2 fst) in Hb].
Qed.

(** C37: the links of the inspector.  For any host of the view they are the links
    of the graph that end at it, each once, a tunnel as well as a radio link; every
    one of them has its row, which names the host at the other end, and is listed
    at that host too. *)
Theorem inspector_links (t : topology) (h : host) :
  let v := buildTopologyView localeCompare (Some t) in
  let edges k := edgesByHost (v_segments v) (v_blosEdges v) !! k ?? [] in
  h ∈ v_hosts v →
  edges (h_id h) ≡ₚ filter (touches (h_id h)) (links t)
  ∧ length (link_rows h (hostById (v_hosts v)) (v_algorithm v) (edges (h_id h))) = length (edges (h_id h))
  ∧ ∀ e, e ∈ edges (h_id h) →
      ∃ p, p ∈ v_hosts v ∧ h_id p ≠ h_id h ∧ touches (h_id p) e ∧ e ∈ edges (h_id p)
        ∧ hostById (v_hosts v) !! peerKey h e = Some p.
Proof.
  intros v edges Hh. destruct (decide (t_nodes t = [])) as [Hn|Hn].
  { exfalso. subst v. unfold buildTopologyView in Hh. rewrite Hn in Hh. cbn in Hh. by apply elem_of_nil in Hh. }
  pose proof (view_edges t Hn) as Hp. cbv zeta in Hp. fold v in Hp.
  assert (∀ k, edges k = filter (touches k) (concat (map seg_edges (v_segments v)) ++ v_blosEdges v)) as He.
  { intros k. apply edgesByHost_lookup. rewrite Hp. apply resolved_distinct. }
  assert (∀ e, e ∈ edges (h_id h) → ∃ p, p ∈ v_hosts v ∧ h_id p ≠ h_id h ∧ touches (h_id p) e
    ∧ e ∈ edges (h_id p) ∧ hostById (v_hosts v) !! peerKey h e = Some p) as Hpeer.
  { intros e. rewrite He. intros [Ht Hin]%list_elem_of_filter. pose proof Hin as Hin'. rewrite Hp in Hin'.
    pose proof (proj1 (Forall_forall _ _) (resolved_distinct _ _) e Hin') as Hd.
    destruct (peerKey_spec h e Hd Ht) as [Hne Ht'].
    destruct (link_end t e _ Hn Hin' Ht') as (p & Hpv & Hid). exists p. rewrite Hid.
    split_and!; [done..| |by apply hostById_lookup; [apply view_NoDup|]].
    rewrite He. by apply list_elem_of_filter. }
  split_and!; [by rewrite He, Hp| |done].
  unfold link_rows. clear He Hp. induction (edges (h_id h)) as [|e l IH]; [done|].
  destruct (Hpeer e) as (p & _ & _ & _ & _ & Hl); [by left|]. cbn [omap list_omap].
  rewrite Hl. cbn. f_equal. apply IH. intros e' ?. apply Hpeer. by right.
Qed.

(** The selection follows the graph: a clicked host is the inspected one, and it
    stays so, whatever the polls bring, as long as the graph has its address. *)
Theorem selection_follows p h :
  (h ∈ v_hosts (view localeCompare p) →
     selected localeCompare (page_fire (SelectHost h) p) = Some h)
  ∧ (selected localeCompare p = Some h →
     h ∈ v_hosts (view localeCompare p) ∧ selectedId p = Some (h_id h))
  ∧ (∀ t, selectedId p = Some (h_id h) → h_id h ≠ "" →
     selected localeCompare (page_fire (Graph t) p) = None
     ↔ h_id h ∉ map h_id (v_hosts (buildTopologyView localeCompare t))).
Proof.
  assert (∀ q id, selectedId q = Some id → id ≠ "" →
    selected localeCompare q = hostById (v_hosts (view localeCompare q)) !! id) as Hsel.
  { intros q id Hq Hne. unfold selected. rewrite Hq. by destruct id. }
  split_and!.
  - intros Hin. rewrite (Hsel _ (h_id h)); [|done|by apply (view_id_ne _ _ Hin)].
    apply hostById_lookup; [apply view_NoDup|done].
  - unfold selected. destruct (selectedId p) as [[|c s]|]; [done| |done].
    rewrite hostById_lookup by apply view_NoDup. by intros [? ->].
  - intros t Hid Hne. rewrite (Hsel _ (h_id h)) by done. cbn [page_fire graph view].
    change (view localeCompare (page_fire (Graph t) p)) with (buildTopologyView localeCompare t).
    rewrite eq_None_not_Some. apply not_iff_compat. split.
    + intros (x & Hx). apply hostById_lookup in Hx as [? <-]; [|apply view_NoDup]. by apply list_elem_of_fmap_2.
    + intros (x & Hx & Hin)%list_elem_of_fmap. exists x. by apply hostById_lookup; [apply view_NoDup|].
Qed.
End Inspector.

(** The address shown for a name is that of the last node with that name, up to
    case. *)
Theorem ip_of_last_node ns1 n ns2 st nb ifs k :
  let ms := Some (mk_mesh_status st (Some (ns1 ++ n :: ns2)) nb ifs) in
  toLowerCase (hostname n ?? "") = k → (hostname n ?? "") ≠ "" →
  Forall (λ n', toLowerCase (hostname n' ?? "") ≠ k) ns2 →
  ipByHostname ms !! k = Some (ip n ?? "").
Proof.
  intros ms Hk Hne Hlast. unfold ipByHostname. cbn. rewrite foldl_app. cbn [foldl].
  assert (add_ip (foldl add_ip ∅ ns1) n !! k = Some (ip n ?? "")) as H.
  { unfold add_ip at 1. rewrite decide_False by done. by rewrite Hk, lookup_insert_eq. }
  revert H. generalize (add_ip (foldl add_ip ∅ ns1) n). induction ns2 as [|n' ns2 IH]; intros m Hm; [done|].
  apply Forall_cons in Hlast as [Hn' Hl]. apply IH; [done|]. unfold add_ip.
  case_decide; [done|]. by rewrite lookup_insert_ne.
Qed.

(** A node is shown as a gateway when the server flags it, or when it anchors its
    own remote segment. *)
Theorem gateway_hosts i n :
  isGatewayHost (Some (make_host i n)) = true ↔
  n_isGateway n = true
  ∨ n_segment n = "remote" ∧ n_mac n ≠ "" ∧ toLowerCase (n_remoteGatewayMac n) = toLowerCase (n_mac n).
Proof.
  unfold isGatewayHost, isRemoteSegmentId. cbn [isGateway make_host segmentId h_remoteGatewayMac h_mac].
  rewrite toLowerCase_idem. destruct (n_isGateway n); [naive_solver|]. unfold segment_of. case_decide as Hs.
  - assert (∀ g, String.prefix "remote" (if decide (g = "") then "remote:unknown" else "remote:" ++ g)%string = true)
      as -> by (intros g; by case_decide).
    cbn [negb]. rewrite andb_true_iff, negb_true_iff, bool_decide_eq_false, bool_decide_eq_true, toLowerCase_empty.
    split; [|intros [|(_ & Hm & He)]; [done|]; split; [|done]].
    + intros [Hg He]. right. split_and!; [done| |done]. intros Hm. apply Hg. by rewrite <- toLowerCase_empty, He, Hm.
    + intros Hg. apply Hm. by rewrite <- toLowerCase_empty, <- He, Hg.
  - cbn. naive_solver.
Qed.

(** A gossip record is fresh exactly when it was seen and is not stale; a seen
    record always shows its age. *)
Theorem gossip_row h :
  ((GossipFreshnessRow h).2 = Ok ↔ gossipStale h = false ∧ (0 <= gossipAgeSeconds h)%Z)
  ∧ ((GossipFreshnessRow h).2 = Warn ↔ gossipStale h = true).
Proof.
  unfold GossipFreshnessRow. destruct (gossipStale h), (0 <=? gossipAgeSeconds h)%Z eqn:E; bool_simpl;
    cbn; (split; split; [try done|try (intros [? ?]; try done; lia)|try done|try done]).
Qed.

(** The badge warns exactly when less than half of the mesh publishes. *)
Theorem coverage_badge published total :
  (0 < total)%Z →
  ∃ low, GossipCoverageBadge (Some (published, total)) = Some (published, total, low)
  ∧ (low = true ↔ (2 * published < total)%Z).
Proof.
  intros Ht. unfold GossipCoverageBadge. rewrite (proj2 (Z.leb_gt _ _)) by done.
  eexists. split; [done|]. rewrite Z.ltb_lt. lia.
Qed.

Example example_inspector :
  let p := page_fire (Graph (Some example_graph)) TopologyPage in
  let p := page_fire (Status (mk_mesh_status None (Some [{| hostname := Some "NODE-A"; ip := Some "10.0.0.1" |}])
             None None)) p in
  let h := hd (make_host 0 (Build_mesh_node "" "" "" "" None false false "" [] false None))
             (v_hosts (view by_length p)) in
  (λ i, (i_role i, i_ip i, i_links i)) <$> inspected by_length (page_fire (SelectHost h) p)
  = Some ("SELF", "10.0.0.1",
      [{| peer_name := "node-b"; trailing := LinkMetric (Mbps 255); on_my_path := true |};
       {| peer_name := "far"; trailing := ViaBlos; on_my_path := true |}]).
Proof. vm_compute. reflexivity. Qed.

Theorem inspector_links_witness :
  let v := buildTopologyView by_length (Some example_graph) in
  ∃ h, h ∈ v_hosts v ∧ baseHostname h = "far"
  ∧ length (link_rows h (hostById (v_hosts v)) (v_algorithm v) (edgesByHost (v_segments v) (v_blosEdges v) !! h_id h ?? [])) = 1.
Proof.
  intros v. destruct (v_hosts v !! 2) as [h|] eqn:E; [|vm_compute in E; discriminate].
  assert (h ∈ v_hosts v) as Hin by by eapply list_elem_of_lookup_2. exists h.
  destruct (inspector_links by_length example_graph h Hin) as (_ & Hl & _).
  split_and!; [done|by vm_compute in E; injection E as <-|].
  etransitivity; [exact Hl|]. by vm_compute in E; injection E as <-.
Defined.

Example example_texts :
  formatLatency (Some 1500%Z) = "1.5 s" ∧ formatLatency (Some 0%Z) = "<1 ms"
  ∧ crumb by_length (page_fire (Graph (Some example_graph)) TopologyPage) = "LOCAL + 1 REMOTE · 1 RF · 1 BLOS · 5s refresh".
Proof. vm_compute. split_and!; reflexivity. Qed.
