(* ===== verification/TopologyMap.v ===== *)
(** [components/TopologyMap.jsx]: where the map draws the hosts, and how it labels
    them and the links.

    A segment is laid out as a tree: breadth first from its root, one leaf column
    after the other.  All coordinates of this part are whole numbers (the leaf
    spacing is even), so [Z] is exact.  The relaxation that follows, which
    only runs when two hosts of one level are linked, the boxes and their packing
    are in [MapPacking].  The loops and recursions over the
    [Map]s take fuel, proved to be enough. *)
From S2P Require Import Prelude JsString JsNumber JsList Topology TopologyPage.
Open Scope js_scope.

(** ** Sizes *)

Definition NODE_RADIUS : Z := 28.
Definition HOST_LABEL_CHAR_WIDTH : Z := 7.
Definition HOST_LABEL_MAX_CHARS : Z := 16.
Definition HOST_LABEL_HALF_WIDTH : Z := HOST_LABEL_MAX_CHARS * HOST_LABEL_CHAR_WIDTH / 2.
Definition NODE_HALF_WIDTH : Z := Z.max NODE_RADIUS HOST_LABEL_HALF_WIDTH.
Definition LEAF_SPACING : Z := Z.max (2 * NODE_RADIUS + 40) (2 * NODE_HALF_WIDTH + 24).
Definition LEVEL_HEIGHT : Z := 150.

(** ** The spanning tree *)

Abbreviation positions := (gmap string (Z * Z)).

Section Layout.
Context (localeCompare : string → string → Z).

Definition root_compare (a b : host) : Z :=
  if (hops a - hops b =? 0)%Z then localeCompare (Topology.tag a) (Topology.tag b) else (hops a - hops b)%Z.

(** The given root if it is in the segment, else the nearest host. *)
Definition pick_root (hosts : list host) (rootHost : option host) : option host :=
  match rootHost with
  | Some r => if existsb (λ h, bool_decide (h_id h = h_id r)) hosts then Some r else hd_error (sort root_compare hosts)
  | None => hd_error (sort root_compare hosts)
  end.

Definition push (k x : string) (m : gmap string (list string)) : gmap string (list string) :=
  <[k := (m !! k ?? []) ++ [x]]> m.

Definition add_adj (ids : list string) (m : gmap string (list string)) (e : edge) : gmap string (list string) :=
  if decide (hostA e ∈ ids ∧ hostB e ∈ ids) then push (hostB e) (hostA e) (push (hostA e) (hostB e) m) else m.

Definition no_neighbors (ids : list string) : gmap string (list string) :=
  list_to_map (map (λ i, (i, [])) ids).

(** [neighbors.sort()] of every entry. *)
Definition adjacency (ids : list string) (edges : list edge) : gmap string (list string) :=
  sort compare_units <$> foldl (add_adj ids) (no_neighbors ids) edges.

(** [visited] is kept in the order of insertion. *)
Record bfs := mk_bfs {
  children : gmap string (list string); depth : gmap string nat; visited : list string; queue : list string
}.

Definition visit (cur : string) (s : bfs) (nb : string) : bfs :=
  if decide (nb ∈ visited s) then s
  else mk_bfs (push cur nb (children s)) (<[nb := S (depth s !! cur ?? 0)]> (depth s))
         (visited s ++ [nb]) (queue s ++ [nb]).

Definition set_queue (q : list string) (s : bfs) : bfs := mk_bfs (children s) (depth s) (visited s) q.

Fixpoint bfs_loop (fuel : nat) (adj : gmap string (list string)) (s : bfs) : bfs :=
  match fuel, queue s with
  | S fuel, cur :: q => bfs_loop fuel adj (foldl (visit cur) (set_queue q s) (adj !! cur ?? []))
  | _, _ => s
  end.

Definition bfs_start (ids : list string) (root : string) : bfs :=
  mk_bfs (no_neighbors ids) {[root := 0]} [root] [root].

Definition search (ids : list string) (edges : list edge) (root : string) : bfs :=
  bfs_loop (S (length ids)) (adjacency ids edges) (bfs_start ids root).

(** Hosts the edges do not reach hang off the root. *)
Definition orphans (hosts : list host) (s : bfs) : list string :=
  map h_id (sort (λ a b, localeCompare (baseHostname a) (baseHostname b))
              (filter (λ h, h_id h ∉ visited s) hosts)).

Definition adopt (root : string) (s : bfs) (id : string) : bfs :=
  mk_bfs (push root id (children s)) (<[id := 1]> (depth s)) (visited s) (queue s).

Definition spanning_tree (hosts : list host) (edges : list edge) (root : string) : bfs :=
  let s := search (map h_id hosts) edges root in
  foldl (adopt root) s (orphans hosts s).

(** ** Columns *)

(** [countLeaves], with the map it fills. *)
Fixpoint countLeaves (fuel : nat) (ch : gmap string (list string)) (id : string) (lc : gmap string nat)
  : nat * gmap string nat :=
  match fuel with
  | O => (0, lc)
  | S fuel =>
      match ch !! id ?? [] with
      | [] => (1, <[id := 1]> lc)
      | kids =>
          let (sum, lc) := foldl (λ acc k, let (n, lc) := countLeaves fuel ch k acc.2 in (acc.1 + n, lc)) (0, lc) kids in
          (sum, <[id := sum]> lc)
      end
  end.

Fixpoint place (fuel : nat) (ch : gmap string (list string)) (leafCount : gmap string nat) (id : string)
    (dep xCenter : Z) (pos : positions) : positions :=
  match fuel with
  | O => pos
  | S fuel =>
      let pos := <[id := (xCenter, dep * LEVEL_HEIGHT)%Z]> pos in
      match ch !! id ?? [] with
      | [] => pos
      | kids =>
          let totalLeaves := leafCount !! id ?? 0 in
          let totalWidth := ((totalLeaves - 1) * LEAF_SPACING)%Z in
          (foldl (λ acc k,
             let kLeaves := leafCount !! k ?? 0 in
             let kWidth := ((kLeaves - 1) * LEAF_SPACING)%Z in
             ((acc.1 + kWidth + LEAF_SPACING)%Z,
              place fuel ch leafCount k (dep + 1) (acc.1 + kWidth / 2) acc.2))
             ((xCenter - totalWidth / 2)%Z, pos) kids).2
      end
  end.

(** [layoutSegment] up to the relaxation. *)
Definition tree_positions (hosts : list host) (edges : list edge) (root : string) : positions :=
  let s := spanning_tree hosts edges root in
  let fuel := S (length hosts) in
  place fuel (children s) (countLeaves fuel (children s) root ∅).2 root 0 0 ∅.

Definition layoutSegment (seg : segment) (rootHost : option host) : positions :=
  match pick_root (seg_hosts seg) rootHost with
  | None => ∅
  | Some r => tree_positions (seg_hosts seg) (seg_edges seg) (h_id r)
  end.

(** The links the relaxation acts on; without any it returns at once. *)
Definition crossEdges (seg : segment) (s : bfs) : list edge :=
  filter (λ e, hostA e ∈ map h_id (seg_hosts seg) ∧ hostB e ∈ map h_id (seg_hosts seg)
    ∧ depth s !! hostA e = depth s !! hostB e) (seg_edges seg).

(** ** Rows of segments *)

Definition MAX_COLS : nat := 3.

Fixpoint chunks {A} (fuel n : nat) (l : list A) : list (list A) :=
  match fuel, l with
  | S fuel, _ :: _ => take n l :: chunks fuel n (drop n l)
  | _, _ => []
  end.

Definition rows (segs : list segment) : list (list segment) :=
  let localRow := filter (λ s, seg_kind_of s = KLocal) segs in
  let remoteRow := filter (λ s, seg_kind_of s ≠ KLocal) segs in
  (if (0 <? length localRow)%nat then [localRow] else []) ++ chunks (length remoteRow) MAX_COLS remoteRow.

(** The root each segment is laid out from. *)
Definition segment_root (v : topo_view) (seg : segment) : option host :=
  match seg_kind_of seg with
  | KLocal => v_self v ≫= λ s, List.find (λ h, bool_decide (h_id h = h_id s)) (seg_hosts seg)
  | KRemote => anchorHost seg ≫= λ a, List.find (λ h, bool_decide (h_id h = a)) (seg_hosts seg)
  end.
End Layout.

(** ** Labels *)

Definition anchorHostIds (segs : list segment) : list string :=
  omap (λ s, match seg_kind_of s, anchorHost s with
             | KRemote, Some a => if decide (a = "") then None else Some a
             | _, _ => None
             end) segs.

(** [isGateway] of a host on the map. *)
Definition map_gateway (v : topo_view) (h : host) : bool :=
  isGateway h
  || (negb (bool_decide (segmentId h = "local")) && bool_decide (h_id h ∈ anchorHostIds (v_segments v))).

Definition formatHostLabel (h : host) (gateway : bool) : string :=
  if isSelf h then "SELF"
  else if gossipStale h && (0 <=? gossipAgeSeconds h)%Z
  then ("STALE · " ++ formatAge (Some (gossipAgeSeconds h)))%string
  else if gateway then "GATEWAY" else "".

Inductive node_kind := SelfNode | RemoteNode | PeerNode.
Definition host_kind (h : host) : node_kind :=
  if isSelf h then SelfNode else if negb (bool_decide (segmentId h = "local")) then RemoteNode else PeerNode.

(** [InterfaceBadges]: the badges shown and the number behind "+n". *)
Definition interface_badges (l : list (string * role)) : list (string * role) * nat :=
  let visibleAll := filter (λ i, i.1 ≠ "bat0") l in
  (take 3 visibleAll, length visibleAll - length (take 3 visibleAll)).

Inductive quality := QUnknown | QStrong | QOk | QWeak.

(** [q / 10] as the literal is read. *)
Definition tenths (q : Z) : number := fdiv (of_int q) (of_int 10).
Definition is_finite (x : number) : bool :=
  match x with SpecFloat.S754_finite _ _ _ | SpecFloat.S754_zero _ => true | _ => false end.

Definition qualityClass (metric : number) (algorithm : string) : quality :=
  if negb (is_finite metric) || fle metric (of_int 0) then QUnknown
  else if decide (algorithm = "BATMAN_V") then
    (if fle (of_int 20) metric then QStrong else if fle (of_int 5) metric then QOk else QWeak)
  else if fle metric (tenths 13) then QStrong
  else if fle metric (tenths 18) then QOk else QWeak.

(** In tenths of a pixel. *)
Definition strokeWidth (metric : number) (algorithm : string) : Z :=
  if decide (algorithm = "BATMAN_V") then
    (if fle (of_int 10) metric then 22 else if fle (of_int 2) metric then 16 else 11)
  else if flt (of_int 0) metric then
    (if fle metric (tenths 11) then 22 else if fle metric (tenths 14) then 16 else 11)
  else 11.

(** ** The search *)

Lemma push_lookup k x m i : push k x m !! i ?? [] = if decide (i = k) then (m !! k ?? []) ++ [x] else m !! i ?? [].
Proof.
  unfold push. case_decide as H; [subst; by rewrite lookup_insert_eq|by rewrite lookup_insert_ne].
Qed.

Lemma push_elem k x m i y : y ∈ (push k x m !! i ?? []) → i = k ∧ y = x ∨ y ∈ (m !! i ?? []).
Proof.
  rewrite push_lookup. case_decide; [subst|by right].
  intros [?|?%list_elem_of_singleton]%elem_of_app; [by right|by left].
Qed.

Lemma no_neighbors_lookup ids i : no_neighbors ids !! i ?? [] = [].
Proof.
  unfold no_neighbors. destruct (list_to_map _ !! i) as [l|] eqn:E; [|done].
  apply elem_of_list_to_map_2, list_elem_of_fmap in E as (j & [= _ ->] & _). done.
Qed.

Definition kids (s : bfs) (i : string) : list string := children s !! i ?? [].

(** The tree built so far.  [done] are the hosts taken from the queue; the hosts
    visited are the root and, in order, the children of those. *)
Record bfs_inv (ids : list string) (adj : gmap string (list string)) (root : string) (dn : list string) (s : bfs)
  : Prop := {
  bi_order : visited s = root :: concat (map (kids s) dn);
  bi_split : visited s = dn ++ queue s;
  bi_nodup : NoDup (visited s);
  bi_ids : ∀ i, i ∈ visited s → i ∈ ids;
  bi_leaf : ∀ i, i ∉ dn → kids s i = [];
  bi_root : depth s !! root = Some 0;
  bi_depth : ∀ i k, k ∈ kids s i → ∃ d, depth s !! i = Some d ∧ depth s !! k = Some (S d);
  bi_adj : ∀ i k, k ∈ kids s i → k ∈ (adj !! i ?? [])
}.

Lemma visit_inv ids adj root dn cur s nb :
  nb ∈ ids → nb ∈ (adj !! cur ?? []) → cur ∉ dn → is_Some (depth s !! cur) →
  bfs_inv ids adj root (dn ++ [cur]) s →
  bfs_inv ids adj root (dn ++ [cur]) (visit cur s nb) ∧ (depth (visit cur s nb) !! cur = depth s !! cur).
Proof.
  intros Hi Ha Hc [d Hd] [I1 I2 I3 I4 I5 I6 I7 I8]. unfold visit. case_decide as Hv; [by split|].
  set (s' := mk_bfs _ _ _ _).
  assert (∀ i, kids s' i = if decide (i = cur) then kids s cur ++ [nb] else kids s i) as Hk
    by (intros i; apply push_lookup).
  assert (nb ≠ cur) as Hne. { intros ->. apply Hv. rewrite I2, !elem_of_app. left. right. by left. }
  assert (map (kids s') dn = map (kids s) dn) as Hdn.
  { apply map_ext_in. intros i Hin%list_elem_of_In. rewrite Hk, decide_False; [done|]. by intros ->. }
  assert (depth s' = <[nb := S d]> (depth s)) as Hdep by (cbn; by rewrite Hd).
  assert (visited s' = visited s ++ [nb]) as Hv' by done. assert (queue s' = queue s ++ [nb]) as Hq' by done.
  clearbody s'. split; [|by rewrite Hdep, lookup_insert_ne].
  split.
  - rewrite map_app, concat_app, Hdn. cbn [map concat]. rewrite Hk, decide_True, app_nil_r by done.
    rewrite Hv', I1, map_app, concat_app. cbn [map concat]. rewrite app_nil_r, <- app_comm_cons, !app_assoc. done.
  - by rewrite Hv', Hq', I2, <- app_assoc.
  - rewrite Hv'. apply NoDup_app. split_and!; [done| |apply NoDup_singleton]. by intros x Hx ->%list_elem_of_singleton.
  - intros i. rewrite Hv', elem_of_app, list_elem_of_singleton. intros [?| ->]; auto.
  - intros i Hin. rewrite Hk. rewrite decide_False; [by apply I5|].
    intros ->. apply Hin, elem_of_app. right. by left.
  - rewrite Hdep, lookup_insert_ne; [done|]. intros ->. apply Hv. rewrite I1. by left.
  - intros i k. rewrite Hk, Hdep.
    assert (∀ j, j ∈ visited s → <[nb := S d]> (depth s) !! j = depth s !! j) as Hold
      by (intros j Hj; apply lookup_insert_ne; by intros ->).
    assert (∀ j k, k ∈ kids s j → j ∈ visited s ∧ k ∈ visited s) as Hvis.
    { intros j k' Hjk. destruct (decide (j ∈ dn ++ [cur])) as [Hj|Hj]; [|by rewrite I5 in Hjk; [apply elem_of_nil in Hjk|]].
      split; [rewrite I2, elem_of_app; by left|]. rewrite I1. right. apply elem_of_concat_map. by exists j. }
    case_decide as Hcase; [subst i; rewrite elem_of_app, list_elem_of_singleton; intros [Hin| ->]|intros Hin].
    + destruct (I7 _ _ Hin) as (d' & ? & ?). exists d'. destruct (Hvis _ _ Hin). by rewrite !Hold.
    + exists d. rewrite lookup_insert_eq. split; [|done]. by rewrite lookup_insert_ne.
    + destruct (I7 _ _ Hin) as (d' & ? & ?). exists d'. destruct (Hvis _ _ Hin). by rewrite !Hold.
  - intros i k. rewrite Hk. case_decide; [subst i; rewrite elem_of_app, list_elem_of_singleton; intros [?| ->]; auto|apply I8].
Qed.

Section Search.
Context (ids : list string) (adj : gmap string (list string)) (root : string).
Context (Hadj : ∀ i k, k ∈ (adj !! i ?? []) → k ∈ ids).

Lemma bfs_depth_known dn s i : bfs_inv ids adj root dn s → i ∈ visited s → is_Some (depth s !! i).
Proof.
  intros [I1 _ _ _ _ I6 I7 _]. rewrite I1. intros [->|(j & _ & Hk)%elem_of_concat_map]%elem_of_cons; [by rewrite I6|].
  destruct (I7 _ _ Hk) as (d & _ & ->). by eexists.
Qed.

Lemma visits_inv dn cur l s :
  cur ∉ dn → (∀ k, k ∈ l → k ∈ (adj !! cur ?? [])) → is_Some (depth s !! cur) →
  bfs_inv ids adj root (dn ++ [cur]) s → bfs_inv ids adj root (dn ++ [cur]) (foldl (visit cur) s l).
Proof.
  intros Hc. revert s. induction l as [|k l IH]; intros s Hl Hd Hs; [done|]. cbn [foldl].
  assert (k ∈ (adj !! cur ?? [])) as Hk by (apply Hl; by left).
  destruct (visit_inv ids adj root dn cur s k (Hadj _ _ Hk) Hk Hc Hd Hs) as [Hs' Hd'].
  apply IH; [|by rewrite Hd'|done]. intros k' ?. apply Hl. by right.
Qed.

(** Taking a host from the queue. *)
Lemma dequeue_inv dn cur q s :
  queue s = cur :: q → bfs_inv ids adj root dn s →
  cur ∉ dn ∧ bfs_inv ids adj root (dn ++ [cur]) (set_queue q s).
Proof.
  intros Hq Hs. pose proof Hs as [I1 I2 I3 I4 I5 I6 I7 I8]. rewrite Hq in I2.
  assert (cur ∉ dn) as Hc.
  { rewrite I2 in I3. apply NoDup_app in I3 as (_ & H & _). intros Hin. apply (H _ Hin). by left. }
  split; [done|]. split; try done.
  - cbn [visited set_queue]. rewrite map_app, concat_app. cbn [map concat].
    change (kids (set_queue q s)) with (kids s). by rewrite I5, !app_nil_r.
  - cbn [visited queue set_queue]. by rewrite I2, <- app_assoc.
  - intros i Hi. apply I5. intros Hin. apply Hi, elem_of_app. by left.
Qed.

Lemma nodup_incl_length {A} `{EqDecision A} (l k : list A) : NoDup l → (∀ x, x ∈ l → x ∈ k) → length l <= length k.
Proof. intros Hn Hl. apply submseteq_length, NoDup_submseteq; [done|]. exact Hl. Qed.

(** The loop ends by itself, since every host is taken from the queue at most once;
    what holds at the start and is kept by an iteration holds at the end. *)
Lemma bfs_loop_ind (P : list string → bfs → Prop) :
  (∀ dn cur q s, bfs_inv ids adj root dn s → P dn s → queue s = cur :: q →
     P (dn ++ [cur]) (foldl (visit cur) (set_queue q s) (adj !! cur ?? []))) →
  ∀ fuel dn s, bfs_inv ids adj root dn s → P dn s → length ids < fuel + length dn →
  let r := bfs_loop fuel adj s in queue r = [] ∧ bfs_inv ids adj root (visited r) r ∧ P (visited r) r.
Proof.
  intros Hstep. induction fuel as [|fuel IH]; intros dn s Hs HP Hf.
  { exfalso. enough (length dn <= length ids) by lia. apply nodup_incl_length.
    - pose proof (bi_nodup _ _ _ _ _ Hs) as H. rewrite (bi_split _ _ _ _ _ Hs) in H. by apply NoDup_app in H as (? & _ & _).
    - intros x Hx. apply (bi_ids _ _ _ _ _ Hs). rewrite (bi_split _ _ _ _ _ Hs), elem_of_app. by left. }
  cbn [bfs_loop]. destruct (queue s) as [|cur q] eqn:Hq.
  { assert (visited s = dn) as E by by rewrite (bi_split _ _ _ _ _ Hs), Hq, app_nil_r.
    cbv zeta. by rewrite E. }
  destruct (dequeue_inv _ _ _ _ Hq Hs) as [Hc Hs']. apply (IH (dn ++ [cur])).
  - apply visits_inv; [done|done| |done]. apply (bfs_depth_known _ _ _ Hs). rewrite (bi_split _ _ _ _ _ Hs), Hq.
    apply elem_of_app. right. by left.
  - by apply Hstep.
  - rewrite length_app. cbn. lia.
Qed.

(** Levels: hosts are visited in the order of their depth, none more than one level
    below the host at work, so that a link never spans two levels. *)
Definition dep (s : bfs) (i : string) : nat := depth s !! i ?? 0.

Record bfs_levels (dn : list string) (s : bfs) : Prop := {
  bl_sorted : StronglySorted le (map (dep s) (visited s));
  bl_bound : ∀ cur q, queue s = cur :: q → ∀ j, j ∈ visited s → dep s j <= S (dep s cur);
  bl_links : ∀ i k, i ∈ dn → k ∈ (adj !! i ?? []) → k ∈ visited s ∧ dep s k <= S (dep s i)
}.

Lemma visits_levels cur l s :
  cur ∈ visited s → StronglySorted le (map (dep s) (visited s)) → (∀ j, j ∈ visited s → dep s j <= S (dep s cur)) →
  let s' := foldl (visit cur) s l in
  StronglySorted le (map (dep s') (visited s')) ∧ (∀ j, j ∈ visited s' → dep s' j <= S (dep s' cur))
  ∧ (∀ j, j ∈ visited s → j ∈ visited s' ∧ dep s' j = dep s j) ∧ (∀ k, k ∈ l → k ∈ visited s').
Proof.
  revert s. induction l as [|k l IH]; intros s Hc Hs Hb; cbn [foldl].
  { split_and!; [done|done|done|by intros k ?%elem_of_nil]. }
  assert (let t := visit cur s k in StronglySorted le (map (dep t) (visited t))
    ∧ (∀ j, j ∈ visited t → dep t j <= S (dep t cur)) ∧ (∀ j, j ∈ visited s → j ∈ visited t ∧ dep t j = dep s j)
    ∧ k ∈ visited t) as (T1 & T2 & T3 & T4).
  { unfold visit. case_decide as Hk; [by split_and!|]. set (t := mk_bfs _ _ _ _).
    assert (∀ j, j ∈ visited s → dep t j = dep s j) as Hold.
    { intros j Hj. unfold dep. cbn [depth t]. rewrite lookup_insert_ne; [done|]. by intros ->. }
    assert (dep t k = S (dep s cur)) as Hnew by (unfold dep; cbn [depth t]; by rewrite lookup_insert_eq).
    assert (visited t = visited s ++ [k]) as Hv by done. cbv zeta. rewrite Hv. split_and!.
    - rewrite map_app. cbn [map]. rewrite Hnew.
      rewrite (map_ext_in (dep t) (dep s)) by (intros j ?%list_elem_of_In; by apply Hold).
      apply StronglySorted_app_2; [|done|repeat constructor].
      intros x1 x2 (j & -> & Hj)%list_elem_of_fmap ->%list_elem_of_singleton. by apply Hb.
    - intros j [Hj| ->%list_elem_of_singleton]%elem_of_app; [rewrite !Hold by done; by apply Hb|].
      rewrite Hnew, Hold by done. lia.
    - intros j Hj. split; [apply elem_of_app; by left|by apply Hold].
    - apply elem_of_app. right. by left. }
  destruct (IH (visit cur s k)) as (I1 & I2 & I3 & I4); [by apply T3|done|done|].
  split_and!; [done|done| |].
  - intros j Hj. destruct (T3 _ Hj) as [H1 H2]. destruct (I3 _ H1) as [H3 H4]. split; [done|congruence].
  - intros j [->|Hj]%elem_of_cons; [by apply I3|by apply I4].
Qed.

Lemma step_levels dn cur q s :
  bfs_inv ids adj root dn s → bfs_levels dn s → queue s = cur :: q →
  bfs_levels (dn ++ [cur]) (foldl (visit cur) (set_queue q s) (adj !! cur ?? [])).
Proof.
  intros Hs [L1 L2 L3] Hq. pose proof (bi_split _ _ _ _ _ Hs) as Hv. rewrite Hq in Hv.
  assert (cur ∈ visited s) as Hc by (rewrite Hv; apply elem_of_app; right; by left).
  destruct (visits_levels cur (adj !! cur ?? []) (set_queue q s) Hc L1 (L2 _ _ Hq)) as (V1 & V2 & V3 & V4).
  destruct (dequeue_inv _ _ _ _ Hq Hs) as [Hcd Hs'].
  assert (is_Some (depth (set_queue q s) !! cur)) as Hcs by by apply (bfs_depth_known _ _ _ Hs).
  pose proof (bi_split _ _ _ _ _ (visits_inv dn cur (adj !! cur ?? []) _ Hcd (λ k H, H) Hcs Hs')) as Hsp.
  cbv zeta in *. set (s' := foldl _ _ _) in *. split.
  - done.
  - intros c q' Hq' j Hj. etransitivity; [by apply V2|]. apply le_n_S.
    rewrite Hsp, Hq', !map_app in V1. cbn [map] in V1. rewrite <- app_assoc in V1.
    apply (StronglySorted_app_1_elem_of le (map (dep s') (dn ++ [cur])) (dep s' c :: map (dep s') q'));
      [by rewrite map_app; cbn; rewrite <- app_assoc| |by left].
    rewrite map_app. apply elem_of_app. right. by left.
  - intros i k [Hi|Hi%list_elem_of_singleton]%elem_of_app Hk.
    + destruct (L3 _ _ Hi Hk) as [Hkv Hle]. assert (i ∈ visited s) as Hiv by (rewrite Hv; apply elem_of_app; by left).
      destruct (V3 _ Hkv) as [? ->], (V3 _ Hiv) as [_ ->]. done.
    + subst i. split; [by apply V4|]. by apply V2, V4.
Qed.

Lemma bfs_start_inv : root ∈ ids → bfs_inv ids adj root [] (bfs_start ids root).
Proof.
  intros Hr. assert (∀ i, kids (bfs_start ids root) i = []) as Hk by (intros i; apply no_neighbors_lookup).
  split; try done.
  - apply NoDup_singleton.
  - cbn. by intros i ->%list_elem_of_singleton.
  - apply lookup_singleton_eq.
  - intros i k. rewrite Hk. by intros ?%elem_of_nil.
  - intros i k. rewrite Hk. by intros ?%elem_of_nil.
Qed.
End Search.

(** ** Spanning trees *)

(** [ch] is a tree on [ids] below [root]: every other host is a child exactly once,
    one level below its parent. *)
Record spanning (ids : list string) (root : string) (ch : string → list string) (d : string → nat) : Prop := {
  sp_once : root :: concat (map ch ids) ≡ₚ ids;
  sp_root : d root = 0;
  sp_depth : ∀ i k, k ∈ ch i → d k = S (d i)
}.

Lemma adopt_all root os s i :
  kids (foldl (adopt root) s os) i = (if decide (i = root) then kids s i ++ os else kids s i)
  ∧ depth (foldl (adopt root) s os) !! i = if decide (i ∈ os) then Some 1 else depth s !! i.
Proof.
  revert s. induction os as [|o os IH]; intros s; cbn [foldl].
  { rewrite app_nil_r. split; [by case_decide|]. by rewrite decide_False by apply not_elem_of_nil. }
  destruct (IH (adopt root s o)) as [-> ->]. unfold kids. cbn [children depth adopt]. rewrite push_lookup. split.
  - case_decide; [subst; by rewrite <- app_assoc|done].
  - destruct (decide (i ∈ os)) as [Hin|Hin]; [by rewrite decide_True by by right|].
    destruct (decide (i = o)) as [->|Hne]; [by rewrite lookup_insert_eq, decide_True by left|].
    rewrite lookup_insert_ne by done. rewrite decide_False; [done|]. by intros [?|?]%elem_of_cons.
Qed.

Lemma adjacency_elem ids edges i k :
  k ∈ (adjacency ids edges !! i ?? []) →
  k ∈ ids ∧ ∃ e, e ∈ edges ∧ (hostA e = i ∧ hostB e = k ∨ hostA e = k ∧ hostB e = i).
Proof.
  unfold adjacency. rewrite lookup_fmap. intros Hk.
  assert (k ∈ (foldl (add_adj ids) (no_neighbors ids) edges !! i ?? [])) as H.
  { destruct (_ !! i) as [l|]; cbn in *; [by rewrite sort_perm in Hk|done]. }
  clear Hk. revert H. induction edges as [|e es IH] using rev_ind.
  { cbn. rewrite no_neighbors_lookup. by intros ?%elem_of_nil. }
  rewrite foldl_app. cbn [foldl]. unfold add_adj at 1.
  assert (k ∈ (foldl (add_adj ids) (no_neighbors ids) es !! i ?? []) → k ∈ ids ∧ ∃ e', e' ∈ es ++ [e]
    ∧ (hostA e' = i ∧ hostB e' = k ∨ hostA e' = k ∧ hostB e' = i)) as IH'.
  { intros (? & e' & ? & ?)%IH. split; [done|]. exists e'. split; [|done]. apply elem_of_app. by left. }
  case_decide as He; [|done]. assert (e ∈ es ++ [e]) as Hin by (apply elem_of_app; right; by left).
  destruct He as [Ha Hb]. intros [[-> ->]|[[-> ->]|Hk]%push_elem]%push_elem; [| |by apply IH'].
  - split; [done|]. exists e. tauto.
  - split; [done|]. exists e. tauto.
Qed.

Lemma push_elem_l k x m i y : y ∈ (m !! i ?? []) → y ∈ (push k x m !! i ?? []).
Proof. intros Hy. rewrite push_lookup. case_decide; [subst; apply elem_of_app; by left|done]. Qed.
Lemma push_elem_new k x m : x ∈ (push k x m !! k ?? []).
Proof. rewrite push_lookup, decide_True by done. apply elem_of_app. right. by left. Qed.

Lemma adjacency_complete ids edges i k e :
  i ∈ ids → k ∈ ids → e ∈ edges → hostA e = i ∧ hostB e = k ∨ hostA e = k ∧ hostB e = i →
  k ∈ (adjacency ids edges !! i ?? []).
Proof.
  intros Hi Hk He Hends. unfold adjacency. rewrite lookup_fmap.
  assert (k ∈ (foldl (add_adj ids) (no_neighbors ids) edges !! i ?? [])) as H.
  { induction edges as [|e' es IH] using rev_ind; [by apply elem_of_nil in He|]. rewrite foldl_app. cbn [foldl].
    unfold add_adj at 1. apply elem_of_app in He as [He| ->%list_elem_of_singleton].
    - case_decide; [|by apply IH]. by apply push_elem_l, push_elem_l, IH.
    - rewrite decide_True by naive_solver. destruct Hends as [[<- <-]|[<- <-]].
      + apply push_elem_l, push_elem_new.
      + apply push_elem_new. }
  destruct (_ !! i) as [l|]; cbn in *; [by rewrite sort_perm|done].
Qed.

Section Tree.
Context (localeCompare : string → string → Z).
Context (hosts : list host) (edges : list edge) (root : string).
Abbreviation ids := (map h_id hosts).
Abbreviation found := (search ids edges root).
Abbreviation tree := (spanning_tree localeCompare hosts edges root).

Lemma orphans_perm : NoDup ids → orphans localeCompare hosts found ≡ₚ filter (λ i, i ∉ visited found) ids.
Proof.
  intros _. unfold orphans. rewrite sort_perm. generalize (visited found). intros v.
  induction hosts as [|h l IH]; [done|]. cbn [map]. rewrite !filter_cons.
  destruct (decide (h_id h ∉ v)); [cbn [map]; by rewrite IH|exact IH].
Qed.

Lemma found_inv :
  root ∈ ids →
  bfs_inv ids (adjacency ids edges) root (visited found) found
  ∧ bfs_levels (adjacency ids edges) (visited found) found.
Proof.
  intros Hr. assert (∀ i k, k ∈ (adjacency ids edges !! i ?? []) → k ∈ ids) as Ha
    by (intros i k Hk; by apply adjacency_elem in Hk as [? _]).
  destruct (bfs_loop_ind ids (adjacency ids edges) root Ha (bfs_levels (adjacency ids edges))
    (step_levels ids (adjacency ids edges) root Ha) (S (length ids)) [] (bfs_start ids root)) as (_ & ? & ?).
  - by apply bfs_start_inv.
  - split; cbn; [repeat constructor| |by intros i k ?%elem_of_nil].
    intros cur q [= <- <-] j ->%list_elem_of_singleton. lia.
  - cbn. lia.
  - done.
Qed.

(** A link between two hosts of the segment. *)
Definition linked (i k : string) : Prop :=
  i ∈ ids ∧ k ∈ ids ∧ ∃ e, e ∈ edges ∧ (hostA e = i ∧ hostB e = k ∨ hostA e = k ∧ hostB e = i).

(** A path of [n] links leads at most [n] levels down. *)
Lemma reached_visited n k : root ∈ ids → nsteps linked n root k → k ∈ visited found ∧ dep found k <= n.
Proof.
  intros Hr. destruct (found_inv Hr) as [Hinv Hlv]. revert k. induction n as [|n IH]; intros k Hk.
  - inversion Hk; subst. split; [rewrite (bi_order _ _ _ _ _ Hinv); by left|].
    unfold dep. by rewrite (bi_root _ _ _ _ _ Hinv).
  - apply nsteps_inv_r in Hk as (i & Hi & (Hii & Hki & e & He & Hends)). destruct (IH i Hi) as [Hv Hd].
    destruct (bl_links _ _ _ Hlv i k Hv) as [? ?]; [by eapply adjacency_complete|]. split; [done|lia].
Qed.

(** The tree of a segment: it spans the hosts, and a child is linked to its parent,
    unless no path of links reaches it and it hangs off the root. *)
Lemma spanning_tree_spanning :
  NoDup ids → root ∈ ids →
  spanning ids root (kids tree) (λ i, depth tree !! i ?? 0)
  ∧ ∀ i k, k ∈ kids tree i →
      (∃ e, e ∈ edges ∧ (hostA e = i ∧ hostB e = k ∨ hostA e = k ∧ hostB e = i))
      ∨ i = root ∧ k ∉ visited found.
Proof.
  intros Hn Hr. destruct (found_inv Hr) as [[I1 I2 I3 I4 I5 I6 I7 I8] _].
  pose proof (orphans_perm Hn) as Hos. unfold spanning_tree. cbv zeta. set (os := orphans _ _ _) in *.
  set (s := found) in *.
  assert (∀ o, o ∈ os ↔ o ∈ ids ∧ o ∉ visited s) as Ho by (intros o; rewrite Hos, list_elem_of_filter; tauto).
  assert (root ∈ visited s) as Hrv by (rewrite I1; by left).
  assert (∀ i k, k ∈ kids s i → i ∈ visited s ∧ k ∈ visited s) as Hvis.
  { intros i k Hk. destruct (decide (i ∈ visited s)) as [Hi|Hi]; [|by rewrite (I5 _ Hi) in Hk; apply elem_of_nil in Hk].
    split; [done|]. rewrite I1. right. apply elem_of_concat_map. by exists i. }
  assert (∀ i, depth (foldl (adopt root) s os) !! i = if decide (i ∈ os) then Some 1 else depth s !! i) as Hd
    by (intros i; apply adopt_all).
  assert (∀ i, kids (foldl (adopt root) s os) i = if decide (i = root) then kids s i ++ os else kids s i) as Hk
    by (intros i; apply adopt_all).
  split; [split|].
  - assert (ids ≡ₚ visited s ++ os) as Hids.
    { apply NoDup_Permutation; [done| |].
      - apply NoDup_app. split_and!; [done|by intros x Hx [_ ?]%Ho|]. rewrite Hos. by apply NoDup_filter.
      - intros x. rewrite elem_of_app, Ho. destruct (decide (x ∈ visited s)); [|tauto]. naive_solver. }
    rewrite (concat_map_perm _ _ _ Hids), Hids, map_app, concat_app.
    assert (concat (map (kids (foldl (adopt root) s os)) os) = []) as ->.
    { apply concat_nil_Forall, Forall_forall. intros l (o & -> & Hin%Ho)%list_elem_of_fmap.
      rewrite Hk, decide_False by (intros ->; tauto). apply I5. tauto. }
    rewrite app_nil_r. set (v := concat (map (kids s) (visited s))) in I1.
    assert (concat (map (kids (foldl (adopt root) s os)) (visited s)) ≡ₚ v ++ os) as ->; [|by rewrite I1].
    unfold v at 1. rewrite I1. cbn [map concat]. rewrite Hk, decide_True by done.
    assert (map (kids (foldl (adopt root) s os)) v = map (kids s) v) as ->.
    { apply map_ext_in. intros i Hin%list_elem_of_In. rewrite Hk, decide_False; [done|]. intros ->.
      rewrite I1 in I3. by apply NoDup_cons in I3 as [? _]. }
    rewrite <- !app_assoc. f_equiv. apply Permutation_app_comm.
  - rewrite Hd, I6, decide_False; [done|]. rewrite Ho. tauto.
  - intros i k. rewrite Hk, !Hd. assert (k ∈ kids s i → default 0 (if decide (k ∈ os) then Some 1 else depth s !! k)
      = S (default 0 (if decide (i ∈ os) then Some 1 else depth s !! i))) as Hold.
    { intros Hki. destruct (Hvis _ _ Hki), (I7 _ _ Hki) as (d & Ha & Hb).
      rewrite !decide_False by (rewrite Ho; tauto). by rewrite Ha, Hb. }
    destruct (decide (i = root)) as [Hi|Hi]; [|exact Hold]. subst i. intros [?|Hin]%elem_of_app; [by apply Hold|].
    rewrite decide_True, decide_False, I6 by (done || (rewrite Ho; tauto)). done.
  - intros i k. rewrite Hk.
    assert (k ∈ kids s i → ∃ e, e ∈ edges ∧ (hostA e = i ∧ hostB e = k ∨ hostA e = k ∧ hostB e = i)) as Hold
      by (intros Hki; by apply I8, adjacency_elem in Hki as [_ ?]).
    destruct (decide (i = root)) as [Hi|Hi]; [|by left; apply Hold]. intros [?|Hin%Ho]%elem_of_app; [left; by apply Hold|right; tauto].
Qed.
End Tree.

(** ** The tree as a tree *)

Inductive rose := Node (name : string) (sub : list rose).

Definition top (t : rose) : string := match t with Node i _ => i end.
Definition sub (t : rose) : list rose := match t with Node _ ts => ts end.

Fixpoint names (t : rose) : list string := match t with Node i ts => i :: concat (map names ts) end.
Fixpoint leaves (t : rose) : nat :=
  match t with Node _ [] => 1 | Node _ ts => sum_list (map leaves ts) end.
Fixpoint height (t : rose) : nat := match t with Node _ ts => S (max_list (map height ts)) end.

(** [P] at every node. *)
Fixpoint all_nodes (P : rose → Prop) (t : rose) : Prop :=
  match t with Node i ts => P (Node i ts) ∧ foldr (λ t Q, all_nodes P t ∧ Q) True ts end.

Lemma rose_ind' (P : rose → Prop) (H : ∀ i ts, Forall P ts → P (Node i ts)) : ∀ t, P t.
Proof.
  fix IH 1. intros [i ts]. apply H. induction ts as [|t ts IHts]; constructor; [apply IH|exact IHts].
Qed.

Lemma all_nodes_Node P i ts : all_nodes P (Node i ts) ↔ P (Node i ts) ∧ Forall (all_nodes P) ts.
Proof.
  cbn [all_nodes]. enough (foldr (λ t Q, all_nodes P t ∧ Q) True ts ↔ Forall (all_nodes P) ts) as -> by done.
  induction ts as [|t ts IH]; cbn; [by split|]. by rewrite Forall_cons, IH.
Qed.

Lemma leaves_pos t : 1 <= leaves t.
Proof.
  induction t as [i ts IH] using rose_ind'. destruct IH as [|t ts Ht _]; cbn [leaves map]; [lia|]. cbn. lia.
Qed.

Lemma height_names t : height t <= length (names t).
Proof.
  induction t as [i ts IH] using rose_ind'. cbn [height names length]. apply le_n_S.
  induction IH as [|t ts Ht _ IH]; cbn; [lia|]. rewrite length_app. lia.
Qed.

(** Every tree of levels below [D] is the unfolding of its child lists. *)
Fixpoint unfold_tree (ch : string → list string) (f : nat) (i : string) : rose :=
  match f with O => Node i [] | S f => Node i (map (unfold_tree ch f) (ch i)) end.

Definition child_lists (ch : string → list string) (t : rose) : Prop := ch (top t) = map top (sub t).

Lemma top_unfold ch f i : top (unfold_tree ch f i) = i.
Proof. by destruct f. Qed.

Section Unfold.
Context (ids : list string) (root : string) (ch : string → list string) (d : string → nat).
Context (Hsp : spanning ids root ch d).
Context (D : nat) (HD : ∀ i, i ∈ ids → d i <= D).

Lemma child_in i k : i ∈ ids → k ∈ ch i → k ∈ ids.
Proof.
  intros Hi Hk. rewrite <- (sp_once _ _ _ _ Hsp). right. apply elem_of_concat_map. by exists i.
Qed.

Lemma unfold_ok f i : i ∈ ids → D <= d i + f → all_nodes (child_lists ch) (unfold_tree ch f i).
Proof.
  revert i. induction f as [|f IH]; intros i Hi Hf; cbn [unfold_tree]; apply all_nodes_Node; unfold child_lists; cbn.
  - split; [|constructor]. destruct (ch i) as [|k l] eqn:E; [done|].
    assert (k ∈ ch i) as Hk by (rewrite E; by left).
    pose proof (HD k (child_in _ _ Hi Hk)). rewrite (sp_depth _ _ _ _ Hsp _ _ Hk) in *. lia.
  - split.
    + rewrite map_map. rewrite <- map_id at 1. apply map_ext. intros k. by rewrite top_unfold.
    + apply Forall_forall. intros t (k & -> & Hk)%list_elem_of_fmap. apply IH; [by apply (child_in i)|].
      rewrite (sp_depth _ _ _ _ Hsp _ _ Hk). lia.
Qed.

Abbreviation flat f l := (concat (map (λ i, names (unfold_tree ch f i)) l)).

Lemma flat_S f l : flat (S f) l ≡ₚ l ++ flat f (concat (map ch l)).
Proof.
  induction l as [|i l IH]; [done|]. cbn [map concat]. rewrite IH. cbn [unfold_tree names].
  rewrite map_map, map_app, concat_app. cbn. f_equiv. rewrite !app_assoc. f_equiv.
  apply Permutation_app_comm.
Qed.

Lemma next_level n l :
  filter (λ i, d i = S n) (concat (map ch l)) = concat (map ch (filter (λ i, d i = n) l)).
Proof.
  induction l as [|i l IH]; [done|]. cbn [map concat]. rewrite filter_app, IH, filter_cons.
  pose proof (sp_depth _ _ _ _ Hsp i) as Hd.
  destruct (decide (d i = n)) as [Hi|Hi].
  - cbn [map concat]. f_equal. apply filter_all, Forall_forall. intros k Hk. rewrite (Hd k Hk). by rewrite Hi.
  - rewrite filter_none; [done|]. apply Forall_forall. intros k Hk. rewrite (Hd k Hk). lia.
Qed.

Lemma split_level n l :
  filter (λ i, d i = n) l ++ filter (λ i, S n <= d i) l ≡ₚ filter (λ i, n <= d i) l.
Proof.
  induction l as [|i l IH]; [done|]. rewrite !filter_cons.
  destruct (decide (d i = n)), (decide (S n <= d i)), (decide (n <= d i)); try lia.
  - cbn. by rewrite IH.
  - rewrite <- Permutation_middle. by rewrite IH.
  - done.
Qed.

Lemma levels_from f n :
  D <= n + f → flat f (filter (λ i, d i = n) ids) ≡ₚ filter (λ i, n <= d i) ids.
Proof.
  revert n. induction f as [|f IH]; intros n Hn.
  - cbn [unfold_tree names]. assert (∀ l, concat (map (λ i : string, names (Node i [])) l) = l) as ->.
    { induction l as [|i l IHl]; [done|]. cbn. by f_equal. }
    assert (filter (λ i, n <= d i) ids = filter (λ i, d i = n) ids) as ->; [|done].
    assert (∀ i, i ∈ ids → d i <= n) as Hle by (intros i Hi; specialize (HD i Hi); lia).
    clear Hsp HD. induction ids as [|i l IHl]; [done|]. rewrite !filter_cons, IHl by (intros; apply Hle; by right).
    assert (d i <= n) by (apply Hle; by left). destruct (decide (n <= d i)), (decide (d i = n)); done || lia.
  - rewrite flat_S. rewrite <- next_level.
    assert (filter (λ i, d i = S n) (concat (map ch ids)) ≡ₚ filter (λ i, d i = S n) ids) as E.
    { rewrite <- (sp_once _ _ _ _ Hsp) at 2. rewrite filter_cons_False; [done|]. by rewrite (sp_root _ _ _ _ Hsp). }
    rewrite (concat_map_perm _ _ _ E), IH by lia. apply split_level.
Qed.

Lemma unfold_names : names (unfold_tree ch D root) ≡ₚ ids.
Proof.
  assert (filter (λ i, d i = 0) ids ≡ₚ [root]) as E.
  { rewrite <- (sp_once _ _ _ _ Hsp). rewrite filter_cons_True by apply (sp_root _ _ _ _ Hsp).
    rewrite filter_none; [done|]. apply Forall_forall. intros k (i & _ & Hk)%elem_of_concat_map.
    by rewrite (sp_depth _ _ _ _ Hsp _ _ Hk). }
  pose proof (levels_from D 0 ltac:(lia)) as H. rewrite (concat_map_perm _ _ _ E) in H. cbn in H.
  rewrite app_nil_r in H. rewrite H, filter_all; [done|]. apply Forall_forall. intros. lia.
Qed.
End Unfold.

(** A spanning tree is the tree of its child lists. *)
Lemma spanning_rose ids root ch d :
  root ∈ ids → spanning ids root ch d →
  ∃ t, top t = root ∧ all_nodes (child_lists ch) t ∧ names t ≡ₚ ids.
Proof.
  intros Hr Hsp. set (D := max_list (map d ids)).
  assert (∀ i, i ∈ ids → d i <= D) as HD.
  { intros i Hi. pose proof (max_list_elem_of_le (d i) (map d ids)) as H. apply H. by apply list_elem_of_fmap_2. }
  exists (unfold_tree ch D root). split_and!; [apply top_unfold| |by apply (unfold_names ids root ch d Hsp D HD)].
  apply (unfold_ok ids root ch d Hsp D HD); [done|]. rewrite (sp_root _ _ _ _ Hsp). lia.
Qed.

(** ** Columns and positions *)

Section Columns.
Context (chm : gmap string (list string)).
Abbreviation ch := (λ i, chm !! i ?? []).

Definition counted (m : gmap string nat) (t : rose) : Prop := m !! top t = Some (leaves t).

Lemma counted_frame m m' t :
  (∀ k, k ∈ names t → m !! k = m' !! k) → all_nodes (counted m) t → all_nodes (counted m') t.
Proof.
  induction t as [i ts IH] using rose_ind'. intros Hm. rewrite !all_nodes_Node. intros [H1 H2].
  split; [unfold counted in *; rewrite <- Hm; [done|by left]|].
  rewrite Forall_forall in *. intros t Ht. apply IH; [done| |by apply H2].
  intros k Hk. apply Hm. right. apply elem_of_concat_map. by exists t.
Qed.

Definition count_spec (fuel : nat) (t : rose) : Prop := ∀ lc,
  let r := countLeaves fuel chm (top t) lc in
  r.1 = leaves t ∧ (∀ k, k ∉ names t → r.2 !! k = lc !! k) ∧ all_nodes (counted r.2) t.

Lemma count_kids fuel ts acc :
  Forall (count_spec fuel) ts → NoDup (concat (map names ts)) →
  let r := foldl (λ acc k, let (n, lc) := countLeaves fuel chm k acc.2 in (acc.1 + n, lc)) acc (map top ts) in
  r.1 = acc.1 + sum_list (map leaves ts)
  ∧ (∀ k, k ∉ concat (map names ts) → r.2 !! k = acc.2 !! k)
  ∧ Forall (all_nodes (counted r.2)) ts.
Proof.
  intros Hs. revert acc. induction Hs as [|t ts Ht _ IH]; intros acc Hn; cbn [map foldl concat] in *.
  { cbn. split_and!; [lia|done|constructor]. }
  apply NoDup_app in Hn as (Hnt & Hdis & Hn). destruct (Ht acc.2) as (C1 & C2 & C3).
  destruct (countLeaves fuel chm (top t) acc.2) as [n lc]. cbn [fst snd] in *.
  destruct (IH (acc.1 + n, lc) Hn) as (D1 & D2 & D3). cbn [fst snd] in *. split_and!.
  - rewrite D1, C1. cbn. lia.
  - intros k Hk. rewrite D2, C2; [done| |]; intros ?; apply Hk, elem_of_app; auto.
  - constructor; [|done]. eapply counted_frame; [|exact C3]. intros k Hk. symmetry. apply D2. by apply Hdis.
Qed.

Lemma countLeaves_spec t : ∀ fuel,
  all_nodes (child_lists ch) t → NoDup (names t) → height t <= fuel → count_spec fuel t.
Proof.
  induction t as [i ts IH] using rose_ind'. intros fuel Hok Hn Hf lc. cbv zeta.
  apply all_nodes_Node in Hok as [Hc Hts]. unfold child_lists in Hc. cbn [top sub] in Hc.
  cbn [height] in Hf. destruct fuel as [|fuel]; [lia|]. apply le_S_n in Hf. cbn [countLeaves top]. rewrite Hc.
  cbn [names] in Hn. apply NoDup_cons in Hn as [Hi Hn].
  destruct ts as [|t0 ts0] eqn:Ets.
  { cbn. split_and!; [done| |by unfold counted; cbn; rewrite lookup_insert_eq|done].
    intros k Hk. rewrite lookup_insert_ne; [done|]. intros ->. apply Hk. by left. }
  rewrite <- Ets in *. assert (Forall (count_spec fuel) ts) as Hcs.
  { rewrite Forall_forall in *. intros t Ht. apply IH; [done|by apply Hts| |].
    - destruct (list_elem_of_split _ _ Ht) as (l1 & l2 & ->). rewrite map_app, concat_app in Hn. cbn in Hn.
      apply NoDup_app in Hn as (_ & _ & Hn). by apply NoDup_app in Hn as (? & _ & _).
    - eapply Nat.le_trans; [|exact Hf]. apply max_list_elem_of_le. by apply (list_elem_of_fmap_2 height). }
  destruct (count_kids fuel ts (0, lc) Hcs Hn) as (D1 & D2 & D3).
  assert (map top ts = top t0 :: map top ts0) as Em by by rewrite Ets. rewrite Em in *.
  destruct (foldl _ _ _) as [s m]. cbn [fst snd] in *.
  assert (leaves (Node i ts) = s) as Hl by (rewrite D1, Ets; reflexivity). split_and!.
  - by rewrite Hl.
  - intros k Hk. cbn [names] in Hk. apply not_elem_of_cons in Hk as [? Hk]. rewrite lookup_insert_ne by done. by apply D2.
  - apply all_nodes_Node. split; [unfold counted; cbn [top]; by rewrite lookup_insert_eq, Hl|].
    rewrite Forall_forall in *. intros t Ht. eapply counted_frame; [|by apply D3].
    intros k Hk. rewrite lookup_insert_ne; [done|]. intros ->. apply Hi, elem_of_concat_map. by exists t.
Qed.
End Columns.

Definition width (t : rose) : Z := ((leaves t - 1) * LEAF_SPACING)%Z.

(** Where the hosts of a tree go, in the order they are placed. *)
Definition spots_kids (f : rose → Z → list (string * (Z * Z))) : Z → list rose → list (string * (Z * Z)) :=
  fix go cursor ts :=
    match ts with
    | [] => []
    | t :: ts => f t (cursor + width t / 2)%Z ++ go (cursor + width t + LEAF_SPACING)%Z ts
    end.

Fixpoint spots (t : rose) (dep x : Z) : list (string * (Z * Z)) :=
  match t with
  | Node i ts => (i, (x, dep * LEVEL_HEIGHT)%Z) :: spots_kids (λ t x, spots t (dep + 1)%Z x) (x - width t / 2)%Z ts
  end.

Definition put_spots (l : list (string * (Z * Z))) (pos : positions) : positions :=
  foldl (λ m e, <[e.1 := e.2]> m) pos l.

Lemma put_spots_app l k pos : put_spots (l ++ k) pos = put_spots k (put_spots l pos).
Proof. apply foldl_app. Qed.

Lemma put_spots_lookup l i p :
  NoDup (map fst l) → put_spots l ∅ !! i = Some p ↔ (i, p) ∈ l.
Proof.
  induction l as [|[j q] l IH] using rev_ind; intros Hn.
  { split; [done|by intros ?%elem_of_nil]. }
  rewrite map_app in Hn. apply NoDup_app in Hn as (Hn & Hd & _). rewrite put_spots_app. cbn.
  rewrite elem_of_app, list_elem_of_singleton. destruct (decide (j = i)) as [->|Hne].
  - rewrite lookup_insert_eq. split; [intros [= ->]; by right|]. intros [Hin|[= ->]]; [|done].
    exfalso. apply (Hd i); [by apply (list_elem_of_fmap_2 fst) in Hin|by left].
  - rewrite lookup_insert_ne, IH by done. naive_solver.
Qed.

Lemma place_spec chm lc t : ∀ fuel dep x pos,
  all_nodes (child_lists (λ i, chm !! i ?? [])) t → all_nodes (counted lc) t → height t <= fuel →
  place fuel chm lc (top t) dep x pos = put_spots (spots t dep x) pos.
Proof.
  induction t as [i ts IH] using rose_ind'. intros fuel dep x pos Hok Hct Hf.
  apply all_nodes_Node in Hok as [Hc Hts]. apply all_nodes_Node in Hct as [Hl Hcs].
  unfold child_lists in Hc. unfold counted in Hl. cbn [top sub] in Hc, Hl.
  destruct fuel as [|fuel]; [cbn in Hf; lia|]. cbn [height] in Hf. apply le_S_n in Hf.
  change (top (Node i ts)) with i.
  assert (place (S fuel) chm lc i dep x pos
    = (foldl (λ acc k, ((acc.1 + (Z.of_nat (lc !! k ?? 0%nat) - 1) * LEAF_SPACING + LEAF_SPACING)%Z,
         place fuel chm lc k (dep + 1) (acc.1 + (Z.of_nat (lc !! k ?? 0%nat) - 1) * LEAF_SPACING / 2)%Z acc.2))
       ((x - width (Node i ts) / 2)%Z, <[i := (x, dep * LEVEL_HEIGHT)%Z]> pos) (map top ts)).2) as ->.
  { cbn [place]. rewrite Hc, Hl. by destruct ts. }
  cbn [spots]. change (put_spots (?e :: ?l) pos) with (put_spots l (<[e.1 := e.2]> pos)). cbn [fst snd].
  generalize (x - width (Node i ts) / 2)%Z, (<[i := (x, dep * LEVEL_HEIGHT)%Z]> pos). clear Hc Hl.
  induction ts as [|t ts IHts]; intros cursor m; [done|]. cbn [map foldl spots_kids].
  apply Forall_cons in IH as [IHt IH]. apply Forall_cons in Hts as [Ht Hts]. apply Forall_cons in Hcs as [Hct Hcs].
  cbn [map max_list foldr] in Hf. rewrite put_spots_app, IHts by (done || (cbn in *; lia)).
  cbn [fst snd]. assert (lc !! top t = Some (leaves t)) as -> by (destruct t; by apply all_nodes_Node in Hct as [? _]).
  cbn [default]. rewrite IHt by (done || (cbn in *; lia)). done.
Qed.

Lemma spots_kids_names f ts : ∀ cursor,
  Forall (λ t, ∀ x, map fst (f t x) = names t) ts → map fst (spots_kids f cursor ts) = concat (map names ts).
Proof.
  induction ts as [|t ts IH]; intros cursor Hf; [done|]. apply Forall_cons in Hf as [Ht Hf]. cbn [spots_kids map concat].
  by rewrite map_app, Ht, IH.
Qed.

Lemma spots_names t dep x : map fst (spots t dep x) = names t.
Proof.
  revert dep x. induction t as [i ts IH] using rose_ind'. intros dep x. cbn [spots map names fst]. f_equal.
  apply spots_kids_names. eapply Forall_impl; [exact IH|]. cbn. auto.
Qed.

(** Half of a width is whole. *)
Lemma half_width t : (width t / 2 = (leaves t - 1) * 68 ∧ width t = (leaves t - 1) * 136 ∧ 0 <= width t)%Z.
Proof.
  unfold width. replace LEAF_SPACING with 136%Z by reflexivity. pose proof (leaves_pos t).
  replace ((leaves t - 1) * 136)%Z with ((leaves t - 1) * 68 * 2)%Z by lia. rewrite Z.div_mul by lia. lia.
Qed.

Definition apart (p q : Z * Z) : Prop := p.2 ≠ q.2 ∨ (LEAF_SPACING <= Z.abs (p.1 - q.1))%Z.

Definition within (t : rose) (dep x : Z) (l : list (string * (Z * Z))) : Prop :=
  ∀ k p, (k, p) ∈ l → (Z.abs (p.1 - x) * 2 <= width t ∧ dep * LEVEL_HEIGHT <= p.2)%Z.

Lemma spots_kids_range ts f dep cursor k p :
  Forall (λ t, ∀ x, within t dep x (f t x)) ts →
  (k, p) ∈ spots_kids f cursor ts →
  (cursor <= p.1 <= cursor + (sum_list (map leaves ts) - 1) * LEAF_SPACING ∧ dep * LEVEL_HEIGHT <= p.2)%Z.
Proof.
  revert cursor. induction ts as [|t ts IH]; intros cursor Hf; cbn [spots_kids]; [by intros ?%elem_of_nil|].
  apply Forall_cons in Hf as [Ht Hf]. replace LEAF_SPACING with 136%Z in * by reflexivity.
  destruct (half_width t) as (H1 & H2 & H3). pose proof (leaves_pos t).
  change (sum_list (map leaves (t :: ts))) with (leaves t + sum_list (map leaves ts)).
  intros [Hin|Hin]%elem_of_app.
  - apply Ht in Hin. lia.
  - apply IH in Hin; [|done]. lia.
Qed.

Lemma spots_within t dep x : within t dep x (spots t dep x).
Proof.
  revert dep x. induction t as [i ts IH] using rose_ind'. intros dep x k p. cbn [spots].
  destruct (half_width (Node i ts)) as (H1 & H2 & H3). intros [[= -> ->]|Hin]%elem_of_cons; [cbn; lia|].
  destruct ts as [|t0 ts0] eqn:Ets; [by apply elem_of_nil in Hin|]. rewrite <- Ets in *.
  apply spots_kids_range with (dep := (dep + 1)%Z) in Hin; [|eapply Forall_impl; [exact IH|]; cbn; auto].
  assert (leaves (Node i ts) = sum_list (map leaves ts)) as Hl by by rewrite Ets.
  replace LEAF_SPACING with 136%Z in * by reflexivity. replace LEVEL_HEIGHT with 150%Z in * by reflexivity.
  rewrite Hl in *. lia.
Qed.

Lemma spots_kids_apart ts f dep cursor e e' :
  Forall (λ t, ∀ x, within t dep x (f t x)
    ∧ ∀ e e', e ∈ f t x → e' ∈ f t x → e.1 ≠ e'.1 → apart e.2 e'.2) ts →
  e ∈ spots_kids f cursor ts → e' ∈ spots_kids f cursor ts → e.1 ≠ e'.1 → apart e.2 e'.2.
Proof.
  revert cursor. induction ts as [|t ts IH]; intros cursor Hf; cbn [spots_kids]; [by intros ?%elem_of_nil|].
  apply Forall_cons in Hf as [Ht Hf]. destruct (Ht (cursor + width t / 2)%Z) as [Hw Ha].
  assert (Forall (λ t, ∀ x, within t dep x (f t x)) ts) as Hf' by (eapply Forall_impl; [exact Hf|]; naive_solver).
  assert (∀ a b, a ∈ f t (cursor + width t / 2)%Z → b ∈ spots_kids f (cursor + width t + LEAF_SPACING)%Z ts →
    apart a.2 b.2 ∧ apart b.2 a.2) as Hx.
  { intros [k p] [k' p'] H1 H2. apply Hw in H1. apply (spots_kids_range ts f dep) in H2 as [H2 _]; [|done].
    destruct (half_width t) as (E1 & E2 & E3). unfold apart. cbn. replace LEAF_SPACING with 136%Z in * by reflexivity. lia. }
  intros [H1|H1]%elem_of_app [H2|H2]%elem_of_app Hne; [by apply Ha|exact (proj1 (Hx _ _ H1 H2))|exact (proj2 (Hx _ _ H2 H1))|by eapply IH].
Qed.

(** Different hosts are never drawn over each other. *)
Lemma spots_apart t : ∀ dep x e e',
  e ∈ spots t dep x → e' ∈ spots t dep x → e.1 ≠ e'.1 → apart e.2 e'.2.
Proof.
  induction t as [i ts IH] using rose_ind'. intros dep x e e'. cbn [spots].
  assert (Forall (λ t, ∀ y, within t (dep + 1) y (spots t (dep + 1) y)
    ∧ ∀ e e', e ∈ spots t (dep + 1) y → e' ∈ spots t (dep + 1) y → e.1 ≠ e'.1 → apart e.2 e'.2) ts) as Hk.
  { eapply Forall_impl; [exact IH|]. cbn. intros t Ht y. split; [apply spots_within|by apply Ht]. }
  assert (∀ k c, k ∈ spots_kids (λ t x, spots t (dep + 1) x) c ts → ((dep + 1) * LEVEL_HEIGHT <= k.2.2)%Z) as Hlow.
  { intros [k p] c Hin. eapply (spots_kids_range ts _ (dep + 1)%Z) in Hin as [_ ?]; [done|].
    eapply Forall_impl; [exact Hk|]. cbn. naive_solver. }
  replace LEVEL_HEIGHT with 150%Z in * by reflexivity.
  intros [->|H1]%elem_of_cons [->|H2]%elem_of_cons Hne; [done| | |].
  - left. cbn. specialize (Hlow _ _ H2). lia.
  - left. cbn. specialize (Hlow _ _ H1). lia.
  - eapply (spots_kids_apart ts _ (dep + 1)%Z); [exact Hk|exact H1|exact H2|done].
Qed.

Lemma spots_level ch d t : ∀ l x k p,
  (∀ i k, k ∈ ch i → d k = S (d i)) → all_nodes (child_lists ch) t → (k, p) ∈ spots t l x →
  (p.2 = (l + d k - d (top t)) * LEVEL_HEIGHT)%Z.
Proof.
  induction t as [i ts IH] using rose_ind'. intros l x k p Hd Hok. apply all_nodes_Node in Hok as [Hc Hts].
  cbn [spots top]. intros [[= -> ->]|Hin]%elem_of_cons; [cbn; lia|].
  unfold child_lists in Hc. cbn [top sub] in Hc.
  assert (∀ t, t ∈ ts → d (top t) = S (d i)) as Hdt
    by (intros t Ht; apply Hd; rewrite Hc; by apply list_elem_of_fmap_2).
  clear Hc. revert Hin. generalize (x - width (Node i ts) / 2)%Z. intros c. revert c.
  induction ts as [|t ts IHts]; intros c; cbn [spots_kids]; [by intros ?%elem_of_nil|].
  apply Forall_cons in IH as [IHt IH]. apply Forall_cons in Hts as [Ht Hts].
  intros [Hin|Hin]%elem_of_app.
  - apply IHt in Hin as ->; [|done..]. rewrite (Hdt t) by by left. f_equal. lia.
  - eapply IHts; [done|done| |exact Hin]. intros t' ?. apply Hdt. by right.
Qed.

Section Segment.
Context (localeCompare : string → string → Z).
Context (hosts : list host) (edges : list edge) (root : string).
Abbreviation ids := (map h_id hosts).
Abbreviation found := (search ids edges root).
Abbreviation tree := (spanning_tree localeCompare hosts edges root).
Abbreviation link := (linked hosts edges).

(** The level of a host in the tree. *)
Lemma tree_level k :
  NoDup ids → root ∈ ids → k ∈ ids →
  depth tree !! k ?? 0 = if decide (k ∈ visited found) then dep found k else 1.
Proof.
  intros Hn Hr Hk. unfold spanning_tree. cbv zeta.
  destruct (adopt_all root (orphans localeCompare hosts found) found k) as [_ ->].
  assert (k ∈ orphans localeCompare hosts found ↔ k ∉ visited found) as Ho
    by (rewrite orphans_perm, list_elem_of_filter by done; tauto).
  destruct (decide (k ∈ visited found)); [rewrite decide_False by tauto|rewrite decide_True by tauto]; done.
Qed.

(** A visited host is reached by as many links as its level says. *)
Lemma visited_path k : root ∈ ids → k ∈ visited found → nsteps link (dep found k) root k.
Proof.
  intros Hr. destruct (found_inv hosts edges root Hr) as [[I1 I2 I3 I4 I5 I6 I7 I8] _].
  remember (dep found k) as n eqn:E. revert k E. induction n as [|n IH]; intros k E Hk;
    rewrite I1 in Hk; apply elem_of_cons in Hk as [->|(i & Hi & Hki)%elem_of_concat_map].
  - constructor.
  - destruct (I7 _ _ Hki) as (d & Hd1 & Hd2). unfold dep in E. by rewrite Hd2 in E.
  - unfold dep in E. by rewrite I6 in E.
  - destruct (I7 _ _ Hki) as (d & Hd1 & Hd2). unfold dep in E. rewrite Hd2 in E. injection E as ->.
    apply nsteps_r with i; [apply IH; [unfold dep; by rewrite Hd1|done]|].
    split_and!; [by apply I4| |by apply (adjacency_elem ids edges i k), I8].
    apply I4. rewrite I1. right. apply elem_of_concat_map. by exists i.
Qed.

(** The positions are the spots of the spanning tree. *)
Lemma tree_spots :
  NoDup ids → root ∈ ids →
  ∃ t, top t = root ∧ all_nodes (child_lists (kids tree)) t ∧ names t ≡ₚ ids
  ∧ ∀ k p, tree_positions localeCompare hosts edges root !! k = Some p ↔ (k, p) ∈ spots t 0 0.
Proof.
  intros Hn Hr. destruct (spanning_tree_spanning localeCompare hosts edges root Hn Hr) as [Hsp _].
  destruct (spanning_rose _ _ _ _ Hr Hsp) as (t & Ht & Hok & Hnames). exists t. split_and!; [done..|].
  assert (NoDup (names t)) as Hnt by by rewrite Hnames.
  assert (height t <= S (length hosts)) as Hh.
  { etransitivity; [apply height_names|]. rewrite Hnames, length_map. lia. }
  assert (tree_positions localeCompare hosts edges root = put_spots (spots t 0 0) ∅) as ->.
  { unfold tree_positions. cbv zeta. change (children (spanning_tree _ _ _ _)) with (children tree).
    pose proof (countLeaves_spec (children tree) t (S (length hosts)) Hok Hnt Hh ∅) as (_ & _ & Hcount).
    rewrite Ht in Hcount. revert Hok Hcount. unfold kids. generalize (children tree). intros chm Hok Hcount.
    rewrite <- Ht. rewrite <- Ht in Hcount. by apply place_spec. }
  intros k p. apply put_spots_lookup. by rewrite spots_names.
Qed.

Lemma tree_places :
  NoDup ids → root ∈ ids →
  (∀ k, is_Some (tree_positions localeCompare hosts edges root !! k) ↔ k ∈ ids)
  ∧ tree_positions localeCompare hosts edges root !! root = Some (0, 0)%Z.
Proof.
  intros Hn Hr. destruct (tree_spots Hn Hr) as (t & Ht & _ & Hnames & Hin). split.
  - intros k. rewrite <- Hnames, <- (spots_names t 0 0). split.
    + intros [p H%Hin]. by apply (list_elem_of_fmap_2 fst) in H.
    + intros ([k' p] & -> & H)%list_elem_of_fmap. exists p. by apply Hin.
  - apply Hin. destruct t as [i ts]. cbn in Ht. subst i. by left.
Qed.

Lemma tree_apart k k' p p' :
  NoDup ids → root ∈ ids →
  tree_positions localeCompare hosts edges root !! k = Some p →
  tree_positions localeCompare hosts edges root !! k' = Some p' → k ≠ k' → apart p p'.
Proof.
  intros Hn Hr H1 H2 Hne. destruct (tree_spots Hn Hr) as (t & _ & _ & _ & Hin).
  apply Hin in H1, H2. by apply (spots_apart t 0 0 (k, p) (k', p')).
Qed.

(** The row of a host is its level. *)
Lemma tree_row k p :
  NoDup ids → root ∈ ids → tree_positions localeCompare hosts edges root !! k = Some p →
  p.2 = (Z.of_nat (depth tree !! k ?? 0%nat) * LEVEL_HEIGHT)%Z.
Proof.
  intros Hn Hr Hkp. destruct (tree_spots Hn Hr) as (t & Ht & Hok & _ & Hin). apply Hin in Hkp.
  destruct (spanning_tree_spanning localeCompare hosts edges root Hn Hr) as [Hsp _].
  apply (spots_level (kids tree) (λ i, depth tree !! i ?? 0)) in Hkp; [|apply (sp_depth _ _ _ _ Hsp)|done].
  rewrite Ht, (sp_root _ _ _ _ Hsp) in Hkp. rewrite Hkp. f_equal. lia.
Qed.

(** The root is alone on its level. *)
Lemma level_zero k : NoDup ids → root ∈ ids → k ∈ ids → depth tree !! k ?? 0 = 0 → k = root.
Proof.
  intros Hn Hr Hk Hd. destruct (spanning_tree_spanning localeCompare hosts edges root Hn Hr) as [[H1 _ H3] _].
  rewrite <- H1 in Hk. apply elem_of_cons in Hk as [->|(i & _ & Hi)%elem_of_concat_map]; [done|].
  apply H3 in Hi. lia.
Qed.

(** The layout of a segment.  Every host gets exactly one place, the root on
    top; no two are drawn over each other; and the row of a host is its distance
    from the root in links, or the first row when no path of links leads to it. *)
Theorem layout_rows :
  NoDup ids → root ∈ ids →
  let pos := tree_positions localeCompare hosts edges root in
  (∀ k, is_Some (pos !! k) ↔ k ∈ ids)
  ∧ pos !! root = Some (0, 0)%Z
  ∧ (∀ k k' p p', pos !! k = Some p → pos !! k' = Some p' → k ≠ k' → apart p p')
  ∧ ∀ k p, pos !! k = Some p →
      (∃ n : nat, p.2 = (n * LEVEL_HEIGHT)%Z ∧ nsteps link n root k ∧ ∀ m, nsteps link m root k → n <= m)
      ∨ p.2 = LEVEL_HEIGHT ∧ ¬ rtc link root k.
Proof.
  intros Hn Hr pos. destruct (tree_places Hn Hr) as [Hp H0].
  split_and!; [done|done|intros k k' p p'; by apply tree_apart|].
  intros k p Hkp. assert (k ∈ ids) as Hk by (by apply Hp; eexists).
  apply tree_row in Hkp; [|done..]. rewrite tree_level in Hkp by done.
  destruct (decide (k ∈ visited found)) as [Hv|Hv]; [left|right].
  - exists (dep found k). split_and!; [done|by apply visited_path|].
    intros m Hm. by apply (reached_visited hosts edges root m k Hr).
  - split; [rewrite Hkp; lia|]. intros [m Hm]%rtc_nsteps. apply Hv. by apply (reached_visited hosts edges root m k Hr).
Qed.
End Segment.

(** A chain of three hosts and one host without links. *)
Definition chain_hosts : list host :=
  map (λ i, make_host 0 (Build_mesh_node i i "local" "" (Some 0%Z) false false "" [] false None)) ["a"; "b"; "c"; "d"].
Definition chain_edges : list edge :=
  [{| hostA := "b"; hostB := "a"; metric := 1; blos := false; onMyPath := true |};
   {| hostA := "b"; hostB := "c"; metric := 1; blos := false; onMyPath := true |}].

Theorem layout_rows_witness :
  let pos := tree_positions by_length chain_hosts chain_edges "a" in
  map (λ k, pos !! k) ["a"; "b"; "c"; "d"]
  = [Some (0, 0); Some (-68, 150); Some (-68, 300); Some (68, 150)]%Z
  ∧ apart (-68, 150)%Z (68, 150)%Z.
Proof.
  intros pos. split; [vm_compute; reflexivity|].
  destruct (layout_rows by_length chain_hosts chain_edges "a") as (_ & _ & H & _);
    [by vm_compute; repeat constructor; set_solver|by left|].
  by apply (H "b" "d"); [vm_compute; reflexivity..|].
Defined.

(** ** Segments of a view *)

Lemma pick_root_in localeCompare hosts r :
  hosts ≠ [] → ∃ h, pick_root localeCompare hosts r = Some h ∧ h_id h ∈ map h_id hosts.
Proof.
  intros Hne. assert (∃ h, hd_error (sort (root_compare localeCompare) hosts) = Some h ∧ h_id h ∈ map h_id hosts) as Hd.
  { pose proof (sort_perm (root_compare localeCompare) hosts) as Hp.
    destruct (sort _ hosts) as [|h l]; [by apply Permutation_nil in Hp|]. exists h. split; [done|].
    apply list_elem_of_fmap_2. rewrite <- Hp. by left. }
  unfold pick_root. destruct r as [r|]; [|done]. destruct (existsb _ hosts) eqn:E; [|done].
  exists r. split; [done|]. apply existsb_exists in E as (h & Hh%list_elem_of_In & Heq).
  apply bool_decide_eq_true in Heq. rewrite <- Heq. by apply list_elem_of_fmap_2.
Qed.

(** Any segment of a view is laid out completely: each of its hosts has a place, and
    nothing else has. *)
Theorem segments_laid_out localeCompare t s r :
  t_nodes t ≠ [] → s ∈ v_segments (buildTopologyView localeCompare (Some t)) →
  NoDup (map h_id (seg_hosts s))
  ∧ ∀ k, is_Some (layoutSegment localeCompare s r !! k) ↔ k ∈ map h_id (seg_hosts s).
Proof.
  intros Hn Hs. pose proof (view_NoDup localeCompare (Some t)) as Hnd.
  destruct (view_fields localeCompare t Hn) as (Hh & _ & Hsegs & _). rewrite Hh in Hnd. rewrite Hsegs in Hs.
  apply list_elem_of_fmap in Hs as (s0 & -> & Hs0). cbn [seg_hosts].
  destruct (view_segments_spec localeCompare t) as (_ & S2 & S3). destruct (S3 s0 Hs0) as (Hf & _).
  assert (NoDup (map h_id (seg_hosts s0))) as Hns.
  { rewrite Hf. eapply sublist_NoDup; [exact Hnd|]. apply fmap_sublist, sublist_filter. }
  split; [done|]. intros k. unfold layoutSegment. cbn [seg_hosts seg_edges].
  destruct (pick_root_in localeCompare (seg_hosts s0) r) as (h & -> & Hhin).
  - intros Hnil. destruct (proj1 (S2 (seg_id s0))) as (x & Hx & He); [by apply list_elem_of_fmap_2|].
    rewrite Hf in Hnil. apply (not_elem_of_nil x). rewrite <- Hnil. by apply list_elem_of_filter.
  - by apply tree_places.
Qed.

Lemma chunks_spec {A} fuel n (l : list A) :
  0 < n → length l <= fuel →
  concat (chunks fuel n l) = l ∧ Forall (λ c, 0 < length c ∧ length c <= n) (chunks fuel n l).
Proof.
  intros Hn. revert l. induction fuel as [|fuel IH]; intros l Hl; [destruct l; [done|cbn in Hl; lia]|].
  destruct l as [|x l]; [done|]. cbn [chunks concat].
  destruct (IH (drop n (x :: l))) as [H1 H2]; [rewrite length_drop; cbn in *; lia|].
  rewrite H1, take_drop. split; [done|]. constructor; [|done]. rewrite length_take. cbn. lia.
Qed.

(** Every segment is in one row, the local one on top, and no row has more than
    three remote ones. *)
Theorem segment_rows segs :
  concat (rows segs) ≡ₚ segs
  ∧ (∀ r, r ∈ rows segs → r ≠ [] ∧ (Forall (λ s, seg_kind_of s = KLocal) r
       ∨ Forall (λ s, seg_kind_of s ≠ KLocal) r ∧ length r <= MAX_COLS)).
Proof.
  unfold rows. set (lo := filter (λ s, seg_kind_of s = KLocal) segs). set (re := filter (λ s, seg_kind_of s ≠ KLocal) segs).
  destruct (chunks_spec (length re) MAX_COLS re) as [H1 H2]; [unfold MAX_COLS; lia|lia|].
  assert (concat (if (0 <? length lo) then [lo] else []) = lo) as Hlo by (destruct lo; [done|apply app_nil_r]).
  split.
  - rewrite concat_app, Hlo, H1. unfold lo, re. clear. induction segs as [|s l IH]; [done|].
    destruct (decide (seg_kind_of s = KLocal)) as [E|E].
    + rewrite filter_cons_True, filter_cons_False by auto. cbn [app]. by rewrite IH.
    + rewrite filter_cons_False, filter_cons_True by auto. rewrite <- Permutation_middle. by rewrite IH.
  - intros r [Hr|Hr]%elem_of_app.
    + destruct lo as [|s0 l0] eqn:E; [by apply elem_of_nil in Hr|]. apply list_elem_of_singleton in Hr as ->.
      split; [done|left]. rewrite <- E. apply Forall_forall. by intros s [? _]%list_elem_of_filter.
    + rewrite Forall_forall in H2. destruct (H2 _ Hr) as [Hne Hle]. split; [by destruct r; cbn in *; [lia|]|right].
      split; [|done]. apply Forall_forall. intros s Hs.
      assert (s ∈ re) as Hin by (rewrite <- H1; apply list_elem_of_In, in_concat; exists r; split; by apply list_elem_of_In).
      by apply list_elem_of_filter in Hin as [? _].
Qed.

(** ** Labels *)

(** The map and the inspector of the page do not call the same hosts gateways: when
    the gateway of a remote mesh is not itself in the graph, the map puts the badge
    on the nearest remote host, and the inspector calls that host a mesh node. *)
Definition unknown_gateway : topology :=
  {| t_nodes := [Build_mesh_node "aa:01" "self" "local" "" (Some 0%Z) true false "" [] false None;
                 Build_mesh_node "aa:02" "far" "remote" "aa:99" (Some 3%Z) false false "" [] false None];
     t_edges := []; t_algorithm := ""; t_gossipCoverage := None |}.

Theorem gateway_badges_differ :
  let v := buildTopologyView by_length (Some unknown_gateway) in
  map (λ h, (baseHostname h, map_gateway v h, isGatewayHost (Some h))) (v_hosts v)
  = [("self", false, false); ("far", true, false)].
Proof. vm_compute. reflexivity. Qed.

(** The quality of a link only depends on the algorithm once it has a metric, and
    improves with it: at ten units or more a BATMAN_V link is drawn thickest. *)
Example example_quality :
  (qualityClass (of_int 0) "BATMAN_V", qualityClass (of_int 20) "BATMAN_V", qualityClass (of_int 5) "BATMAN_V",
   qualityClass (tenths 13) "BATMAN_IV", qualityClass (tenths 14) "BATMAN_IV", qualityClass (of_int 2) "BATMAN_IV")
  = (QUnknown, QStrong, QOk, QStrong, QOk, QWeak)
  ∧ strokeWidth (of_int 10) "BATMAN_V" = 22%Z ∧ strokeWidth (of_int 0) "BATMAN_IV" = 11%Z.
Proof. vm_compute. done. Qed.
