(* ===== verification/MapPacking.v ===== *)
(** The second half of the layout of [components/TopologyMap.jsx]: the relaxation of
    the levels with links inside them, the box of a segment, the packing of the
    boxes and the view box.

    The code is written once, over the arithmetic it uses ([Arith]): doubles, as it
    runs, and exact rationals, for which the spacing is proved.  Positions are
    held by host; the order of a [Map] is kept where the result depends on it. *)
From S2P Require Import Prelude JsString JsNumber JsList Topology TopologyMap Numeric.
From Stdlib Require Import QArith Lqa.

Local Close Scope Q_scope.
Open Scope js_scope.

Section Arithmetic.
Context {N : Type} `{Arith N}.

Record point := mk_point { px : N; py : N }.
Definition set_px (x : N) (p : point) : point := mk_point x (py p).
Abbreviation places := (gmap string point).

(** [positions.get(id).x]. *)
Definition x_of (pos : places) (id : string) : N := (px <$> pos !! id) ?? int 0.

(** ** Relaxation *)

Definition MIN_SEP : N :=
  Math_max (mul (int NODE_RADIUS) (lit 25 1)) (int (2 * NODE_HALF_WIDTH + 12)).
Definition IDEAL_CROSS : N := MIN_SEP.
Definition SPRING_K : N := lit 15 2.
Definition REPULSION : N := mul (mul (int LEAF_SPACING) (int LEAF_SPACING)) (lit 6 1).
Definition RELAX_ITERS : nat := 60.

Abbreviation shifts := (gmap string N).
Definition dx_get (dx : shifts) (id : string) : N := (dx !! id) ?? int 0.

Definition spring (pos : places) (dx : shifts) (e : edge) : shifts :=
  match pos !! hostA e, pos !! hostB e with
  | Some pa, Some pb =>
      let delta := sub (px pb) (px pa) in
      let dist := abs_or delta (lit 1 2) in
      let force := mul (mul (sub dist IDEAL_CROSS) SPRING_K) (Math_sign delta) in
      let dx := <[hostA e := add (dx_get dx (hostA e)) force]> dx in
      <[hostB e := sub (dx_get dx (hostB e)) force]> dx
  | _, _ => dx
  end.

Definition repel (pos : places) (dx : shifts) (ab : string * string) : shifts :=
  match pos !! ab.1, pos !! ab.2 with
  | Some pa, Some pb =>
      let delta := sub (px pb) (px pa) in
      let distSq := Math_max (mul delta delta) (mul MIN_SEP MIN_SEP) in
      let sign := if le (int 0) delta then int 1 else int (-1) in
      let force := mul (div REPULSION distSq) sign in
      let dx := <[ab.1 := sub (dx_get dx ab.1) force]> dx in
      <[ab.2 := add (dx_get dx ab.2) force]> dx
  | _, _ => dx
  end.

(** [(band[i], band[j])] for [i < j], in the order of the loops. *)
Fixpoint pairs (band : list string) : list (string * string) :=
  match band with [] => [] | a :: l => map (pair a) l ++ pairs l end.

(** Hosts by level, levels and hosts in the order they were met. *)
Fixpoint band_push (d : nat) (id : string) (m : list (nat * list string)) : list (nat * list string) :=
  match m with
  | [] => [(d, [id])]
  | (d', l) :: m => if decide (d' = d) then (d, l ++ [id]) :: m else (d', l) :: band_push d id m
  end.
Definition byDepth (depth : gmap string nat) (ids : list string) : list (nat * list string) :=
  foldl (λ m id, band_push (depth !! id ?? 0%nat) id m) [] ids.

Definition nudge (root : string) (alpha : N) (dx : shifts) (pos : places) (id : string) : places :=
  if decide (id = root) then pos
  else match pos !! id with
       | Some p => <[id := set_px (add (px p) (mul (dx_get dx id) alpha)) p]> pos
       | None => pos
       end.

(** The body of the loop. *)
Definition relax_step (ids : list string) (root : string) (cross : list edge) (bands : list (list string))
    (alpha : N) (pos : places) : places :=
  let dx := list_to_map (map (λ id, (id, int 0)) ids) in
  let dx := foldl (spring pos) dx cross in
  let dx := foldl (repel pos) dx (concat (map pairs bands)) in
  foldl (nudge root alpha dx) pos ids.

Definition cooling : N := div (lit 5 1) (int (Z.of_nat RELAX_ITERS)).

Fixpoint relax_loop (n : nat) (ids : list string) (root : string) (cross : list edge) (bands : list (list string))
    (alpha : N) (pos : places) : places :=
  match n with
  | O => pos
  | S n => relax_loop n ids root cross bands (Math_max (int 0) (sub alpha cooling))
             (relax_step ids root cross bands alpha pos)
  end.

(** ** Spacing of a level *)

(** The walk from the left; [prev] is the host before the first one. *)
Fixpoint sweep (prev : string) (rest : list string) (pos : places) : places :=
  match rest with
  | [] => pos
  | cur :: rest =>
      let pos :=
        if lt (sub (x_of pos cur) (x_of pos prev)) MIN_SEP
        then alter (set_px (add (x_of pos prev) MIN_SEP)) cur pos else pos in
      sweep cur rest pos
  end.

Definition shift_by (s : N) (ids : list string) (pos : places) : places :=
  foldl (λ pos id, alter (λ p, set_px (add (px p) s) p) id pos) pos ids.

Definition half (x : N) : N := div x (int 2).

(** [shift], from the positions before and after the walk. *)
Definition band_shift (root first : string) (sorted : list string) (before pos : places) : N :=
  let final := last sorted ?? first in
  let originalCenter := half (add (x_of before first) (x_of before final)) in
  if bool_decide (root ∈ sorted) then sub (int 0) (x_of pos root)
  else sub originalCenter (half (add (x_of pos first) (x_of pos final))).

(** One level of [enforceSiblingMinSep]. *)
Definition enforce_band (root : string) (pos : places) (ids : list string) : places :=
  match sort (λ a b, cmp_of (sub (x_of pos a) (x_of pos b))) ids with
  | (first :: _ :: _) as sorted =>
      let swept := sweep first (tail sorted) pos in
      let shift := band_shift root first sorted pos swept in
      if nonzero shift then shift_by shift sorted swept else swept
  | _ => pos
  end.

Definition enforceSiblingMinSep (root : string) (bands : list (list string)) (pos : places) : places :=
  foldl (enforce_band root) pos bands.

Definition relaxSegmentPositions (seg : segment) (s : bfs) (root : string) (pos : places) : places :=
  let ids := map h_id (seg_hosts seg) in
  match crossEdges seg s with
  | [] => pos
  | cross =>
      let bands := map snd (byDepth (depth s) ids) in
      enforceSiblingMinSep root bands (relax_loop RELAX_ITERS ids root cross bands (lit 5 1) pos)
  end.

(** ** The box of a segment *)

Record bbox := mk_bbox { b_x : N; b_y : N; b_w : N; b_h : N }.

Definition NODE_TOP_EXTENT : Z := NODE_RADIUS.
Definition BADGE_Y_OFFSET : Z := NODE_RADIUS + 36.
Definition SEGMENT_PAD : Z := 56.
Definition SEGMENT_GUTTER : Z := 160.
Definition PADDING : Z := 72.

(** [minX], [minY], [maxX] and [maxY]. *)
Record extents := mk_extents { min_x : N; min_y : N; max_x : N; max_y : N }.

(** The smaller and the larger, as the [if]s update them. *)
Definition low_of (m x : N) : N := if lt x m then x else m.
Definition high_of (m x : N) : N := if lt m x then x else m.

(** Widens the extents to a rectangle. *)
Definition cover (e : extents) (x1 y1 x2 y2 : N) : extents :=
  mk_extents (low_of (min_x e) x1) (low_of (min_y e) y1) (high_of (max_x e) x2) (high_of (max_y e) y2).

Definition cover_host (e : extents) (p : point) : extents :=
  cover e (sub (px p) (int NODE_HALF_WIDTH)) (sub (py p) (int NODE_TOP_EXTENT))
    (add (px p) (int NODE_HALF_WIDTH)) (add (py p) (int BADGE_Y_OFFSET)).

Definition bbox_of (ps : list point) : bbox :=
  let e := foldl cover_host
    (mk_extents (int (- NODE_HALF_WIDTH)) (int (- NODE_TOP_EXTENT)) (int NODE_HALF_WIDTH) (int BADGE_Y_OFFSET)) ps in
  mk_bbox (sub (min_x e) (int SEGMENT_PAD)) (sub (min_y e) (int SEGMENT_PAD))
    (add (sub (max_x e) (min_x e)) (int (SEGMENT_PAD * 2)))
    (add (sub (max_y e) (min_y e)) (int (SEGMENT_PAD * 2))).

Definition to_places (m : positions) : places := (λ p, mk_point (int p.1) (int p.2)) <$> m.

Section Page.
Context (localeCompare : string → string → Z).

(** [layoutSegment] from the root on. *)
Definition relaxed (seg : segment) (root : string) : places :=
  relaxSegmentPositions seg (spanning_tree localeCompare (seg_hosts seg) (seg_edges seg) root) root
    (to_places (tree_positions localeCompare (seg_hosts seg) (seg_edges seg) root)).

Definition layoutSegment (seg : segment) (rootHost : option host) : places * bbox :=
  match pick_root localeCompare (seg_hosts seg) rootHost with
  | None => (∅, mk_bbox (int 0) (int 0) (int 0) (int 0))
  | Some r =>
      let pos := relaxed seg (h_id r) in
      (pos, bbox_of (map snd (map_to_list pos)))
  end.

(** [s.length]: the UTF-16 units of UTF-8 text. *)
Definition js_length (s : string) : Z :=
  foldr (λ c n, let b := nat_of_ascii c in
    n + (if (240 <=? b)%nat then 2 else if (128 <=? b)%nat && (b <? 192)%nat then 0 else 1))%Z 0%Z
    (String.list_ascii_of_string s).

Definition segmentLabelText (seg : segment) : string :=
  let count := length (seg_hosts seg) in
  (seg_label seg ++ " · " ++ pretty (Z.of_nat count) ++ " HOST" ++ (if (count =? 1)%nat then "" else "S"))%string.

Definition SEGMENT_LABEL_CHAR_WIDTH : N := lit 84 1.
Definition SEGMENT_LABEL_PADDING : Z := 28.

Definition expandBBoxToLabel (b : bbox) (seg : segment) : bbox :=
  let minW := add (mul (int (js_length (segmentLabelText seg))) SEGMENT_LABEL_CHAR_WIDTH) (int SEGMENT_LABEL_PADDING) in
  if le minW (b_w b) then b
  else mk_bbox (sub (b_x b) (half (sub minW (b_w b)))) (b_y b) minW (b_h b).

(** ** Packing *)

Record entry := mk_entry { en_seg : segment; en_local : places; en_bbox : bbox }.
(** A segment box, and where it goes. *)
Record box := mk_box { bo_seg : segment; bo_bbox : bbox; offsetX : N; offsetY : N }.

Definition laid_out (v : topo_view) (seg : segment) : entry :=
  let (local, raw) := layoutSegment seg (segment_root v seg) in
  mk_entry seg local (expandBBoxToLabel raw seg).

Definition moved (dx dy : N) (p : point) : point := mk_point (add (px p) dx) (add (py p) dy).

(** What the loops have placed so far. *)
Record plan := mk_plan { pl_positions : places; pl_boxes : list box }.

Definition place_entry (cursorY : N) (acc : plan * N) (e : entry) : plan * N :=
  let b := en_bbox e in
  let oX := sub acc.2 (b_x b) in
  let oY := sub cursorY (b_y b) in
  (mk_plan ((moved oX oY <$> en_local e) ∪ pl_positions acc.1)
     (pl_boxes acc.1 ++ [mk_box (en_seg e) b oX oY]),
   add acc.2 (add (b_w b) (int SEGMENT_GUTTER))).

(** [Math.max(...row.map((e) => e.bbox.h))] of a row that is not empty. *)
Definition rowHeight (row : list entry) : N :=
  match map (λ e, b_h (en_bbox e)) row with [] => int 0 | h :: l => foldl Math_max h l end.

Definition place_row (acc : plan * N) (row : list entry) : plan * N :=
  ((foldl (place_entry acc.2) (acc.1, int 0) row).1,
   add acc.2 (add (rowHeight row) (int SEGMENT_GUTTER))).

Definition pack (rs : list (list entry)) : plan := (foldl place_row (mk_plan ∅ [], int 0) rs).1.

(** The rectangle of a placed box. *)
Definition left_ (b : box) : N := add (b_x (bo_bbox b)) (offsetX b).
Definition top_ (b : box) : N := add (b_y (bo_bbox b)) (offsetY b).
Definition right_ (b : box) : N := add (left_ b) (b_w (bo_bbox b)).
Definition bottom_ (b : box) : N := add (top_ b) (b_h (bo_bbox b)).

(** The numbers of [viewBox]. *)
Definition viewBox (boxes : list box) : bbox :=
  let e := foldl (λ e b, cover e (left_ b) (top_ b) (right_ b) (bottom_ b))
    (mk_extents (int 0) (int 0) (int 0) (int 0)) boxes in
  mk_bbox (sub (min_x e) (int PADDING)) (sub (min_y e) (int PADDING))
    (add (sub (max_x e) (min_x e)) (int (PADDING * 2))) (add (sub (max_y e) (min_y e)) (int (PADDING * 2))).

Definition single_plan (v : topo_view) : plan :=
  let seg := match v_segments v with
             | seg :: _ => seg
             | [] => {| seg_id := ""; seg_label := ""; seg_kind_of := KLocal; anchorHost := None;
                        seg_hosts := v_hosts v; seg_edges := [] |}
             end in
  let (local, b) := layoutSegment seg (v_self v) in
  mk_plan local [mk_box seg b (int 0) (int 0)].

Definition globalLayout (v : topo_view) (compact : bool) : plan * bbox :=
  let p :=
    if compact || (length (v_segments v) <=? 1)%nat then single_plan v
    else pack (map (map (laid_out v)) (rows (v_segments v))) in
  (p, viewBox (pl_boxes p)).

(** ** What is drawn *)

(** [TopologyMap] without a host shows a text; otherwise the hosts with a place and
    the links with two of them. *)
Record map_picture := mk_picture {
  pic_boxes : list (segment * bbox * N * N); pic_hosts : list (host * point); pic_links : list (edge * point * point)
}.

Definition drawn_edge (pos : places) (e : edge) : option (edge * point * point) :=
  match pos !! hostA e, pos !! hostB e with Some a, Some b => Some (e, a, b) | _, _ => None end.

Definition topology_map (t : option topology) (compact : bool) : option map_picture :=
  let v := buildTopologyView localeCompare t in
  let pos := pl_positions (globalLayout v compact).1 in
  match v_hosts v with
  | [] => None
  | _ =>
      Some (mk_picture
        (if negb compact && (1 <? length (v_segments v))%nat
         then map (λ b, (bo_seg b, bo_bbox b, left_ b, top_ b)) (pl_boxes (globalLayout v compact).1) else [])
        (omap (λ h, pair h <$> pos !! h_id h) (v_hosts v))
        (omap (drawn_edge pos)
           (concat (map seg_edges (v_segments v)) ++ (if compact then [] else v_blosEdges v))))
  end.
End Page.
End Arithmetic.

(** ** Relaxation: what it leaves alone *)

Section Rows.
Context {N : Type} `{Arith N}.
Implicit Types (pos : gmap string (@point N)).

(** The same hosts, each on its own row. *)
Definition same_rows pos pos' : Prop := ∀ k, py <$> pos' !! k = py <$> pos !! k.
(** Only hosts of [ids] move. *)
Definition moves_only (ids : list string) pos pos' : Prop := ∀ k, k ∉ ids → pos' !! k = pos !! k.

Definition keeps (k : string) pos pos' : Prop := pos' !! k = pos !! k.

#[export] Instance keeps_preorder k : PreOrder (keeps k).
Proof. split; [by intros pos|]. unfold keeps. intros a b c H1 H2. by rewrite H2. Qed.
#[export] Instance same_rows_preorder : PreOrder same_rows.
Proof. split; [by intros pos k|]. intros a b c H1 H2 k. by rewrite H2, H1. Qed.
#[export] Instance moves_only_preorder ids : PreOrder (moves_only ids).
Proof. split; [by intros pos k|]. intros a b c H1 H2 k Hk. by rewrite H2, H1. Qed.

Lemma same_rows_dom pos pos' k : same_rows pos pos' → is_Some (pos !! k) → is_Some (pos' !! k).
Proof. intros Hr [p Hp]. specialize (Hr k). rewrite Hp in Hr. by destruct (pos' !! k). Qed.

Lemma moves_only_mono ids ids' pos pos' :
  (∀ k, k ∈ ids → k ∈ ids') → moves_only ids pos pos' → moves_only ids' pos pos'.
Proof. intros Hs Hm k Hk. apply Hm. auto. Qed.

Lemma foldl_preorder {A B} (R : A → A → Prop) `{!PreOrder R} (f : A → B → A) l a :
  (∀ a b, b ∈ l → R a (f a b)) → R a (foldl f a l).
Proof.
  revert a. induction l as [|b l IH]; intros a Hf; [done|]. cbn [foldl].
  etransitivity; [by apply Hf; left|]. apply IH. intros. apply Hf. by right.
Qed.

Lemma alter_px (f : point → N) k pos :
  same_rows pos (alter (λ p, set_px (f p) p) k pos) ∧ moves_only [k] pos (alter (λ p, set_px (f p) p) k pos).
Proof.
  split.
  - intros i. destruct (decide (i = k)) as [->|Hne].
    + rewrite lookup_alter_eq. by destruct (pos !! k).
    + by rewrite lookup_alter_ne.
  - intros i Hi. rewrite lookup_alter_ne; [done|]. set_solver.
Qed.

Lemma nudge_rows root alpha dx pos id :
  same_rows pos (nudge root alpha dx pos id) ∧ nudge root alpha dx pos id !! root = pos !! root.
Proof.
  unfold nudge. case_decide as Hr; [done|]. destruct (pos !! id) as [p|] eqn:E; [|done]. split.
  - intros i. destruct (decide (i = id)) as [->|Hne]; [by rewrite lookup_insert_eq, E|by rewrite lookup_insert_ne].
  - by rewrite lookup_insert_ne.
Qed.

Lemma relax_loop_rows n ids root cross bands alpha pos :
  same_rows pos (relax_loop n ids root cross bands alpha pos)
  ∧ relax_loop n ids root cross bands alpha pos !! root = pos !! root.
Proof.
  revert alpha pos. induction n as [|n IH]; intros alpha pos; [done|]. cbn [relax_loop].
  assert (∀ dx, same_rows pos (foldl (nudge root alpha dx) pos ids)
    ∧ foldl (nudge root alpha dx) pos ids !! root = pos !! root) as Hs.
  { intros dx. split; [apply foldl_preorder; [apply _|]; intros; by apply nudge_rows|].
    apply (foldl_preorder (keeps root)). intros a b _. apply nudge_rows. }
  destruct (IH (Math_max (int 0) (sub alpha cooling)) (relax_step ids root cross bands alpha pos)) as [H1 H2].
  unfold relax_step in *. split; [etransitivity; [|exact H1]|rewrite H2]; apply Hs.
Qed.

Lemma sweep_rows prev rest pos : same_rows pos (sweep prev rest pos) ∧ moves_only rest pos (sweep prev rest pos).
Proof.
  revert prev pos. induction rest as [|cur rest IH]; intros prev pos; [done|]. cbn [sweep].
  set (pos1 := if lt _ _ then _ else _).
  assert (same_rows pos pos1 ∧ moves_only [cur] pos pos1) as [A1 A2]
    by (subst pos1; destruct (lt _ _); [apply alter_px|done]).
  destruct (IH cur pos1) as [B1 B2]. split; [by etransitivity|].
  etransitivity; [|eapply moves_only_mono; [|exact B2]]; [eapply moves_only_mono; [|exact A2]|]; set_solver.
Qed.

Lemma shift_rows s ids pos : same_rows pos (shift_by s ids pos) ∧ moves_only ids pos (shift_by s ids pos).
Proof.
  unfold shift_by. split; [apply (foldl_preorder same_rows)|apply (foldl_preorder (moves_only ids))];
    intros a b Hb; [apply (alter_px (λ p, add (px p) s))|].
  eapply moves_only_mono; [|apply (alter_px (λ p, add (px p) s))]. set_solver.
Qed.

Lemma enforce_band_rows root pos ids :
  same_rows pos (enforce_band root pos ids) ∧ moves_only ids pos (enforce_band root pos ids)
  ∧ (length ids < 2 → enforce_band root pos ids = pos).
Proof.
  unfold enforce_band. pose proof (sort_perm (λ a b, cmp_of (sub (x_of pos a) (x_of pos b))) ids) as Hp.
  destruct (sort _ ids) as [|f [|g l]] eqn:E; [done|done|].
  pose proof (Permutation_length Hp) as Hl. cbn [length tail] in *.
  assert (∀ k, k ∈ f :: g :: l → k ∈ ids) as Hin by (intros k; by rewrite Hp).
  destruct (sweep_rows f (g :: l) pos) as [A1 A2].
  assert (moves_only ids pos (sweep f (g :: l) pos)) as A2'
    by (eapply moves_only_mono; [|exact A2]; intros k Hk; apply Hin; by right).
  set (sh := band_shift _ _ _ _ _). destruct (shift_rows sh (f :: g :: l) (sweep f (g :: l) pos)) as [B1 B2].
  destruct (nonzero sh); split_and!; try done; try lia; [by etransitivity|].
  etransitivity; [exact A2'|]. by eapply moves_only_mono.
Qed.

Lemma enforce_rows root bands pos :
  same_rows pos (enforceSiblingMinSep root bands pos)
  ∧ ((∀ b, b ∈ bands → root ∈ b → length b < 2) → keeps root pos (enforceSiblingMinSep root bands pos)).
Proof.
  unfold enforceSiblingMinSep. split; [apply (foldl_preorder same_rows)|intros Hr; apply (foldl_preorder (keeps root))];
    intros p b Hb; destruct (enforce_band_rows root p b) as (H1 & H2 & H3); [done|].
  destruct (decide (root ∈ b)) as [Hin|Hin]; [by rewrite H3 by auto|by apply H2].
Qed.
End Rows.

(** ** Exact spacing *)

Section Exact.
Local Open Scope Q_scope.
Implicit Types (pos : gmap string (@point Q)).

Lemma MIN_SEP_Q : MIN_SEP (N := Q) = 124 # 1.
Proof. reflexivity. Qed.

(** At least the minimal separation from left to right. *)
Definition after_ pos (a b : string) : Prop := MIN_SEP <= x_of pos b - x_of pos a.

Lemma after_trans pos a b c : after_ pos a b → after_ pos b c → after_ pos a c.
Proof. unfold after_. rewrite MIN_SEP_Q. lra. Qed.

Lemma x_of_alter f k pos i :
  is_Some (pos !! k) → x_of (alter (λ p, set_px (f p) p) k pos) i
  = if decide (i = k) then (f <$> pos !! k) ?? int 0 else x_of pos i.
Proof.
  intros [p Hp]. unfold x_of. case_decide as Hi; [subst i; by rewrite lookup_alter_eq, Hp|by rewrite lookup_alter_ne].
Qed.

Lemma sweep_apart prev rest pos :
  NoDup (prev :: rest) → (∀ k, k ∈ prev :: rest → is_Some (pos !! k)) →
  StronglySorted (after_ (sweep prev rest pos)) (prev :: rest).
Proof.
  revert prev pos. induction rest as [|cur rest IH]; intros prev pos Hn Hd; [by repeat constructor|].
  cbn [sweep]. set (pos1 := if lt _ _ then _ else _).
  apply NoDup_cons in Hn as [Hp Hn]. apply not_elem_of_cons in Hp as [Hpc Hpr].
  assert (cur ∉ rest) as Hcr by by apply NoDup_cons in Hn as [? _].
  assert (x_of pos1 prev = x_of pos prev ∧ MIN_SEP <= x_of pos1 cur - x_of pos prev
    ∧ ∀ k, is_Some (pos !! k) → is_Some (pos1 !! k)) as (P1 & P2 & P3).
  { subst pos1. destruct (lt _ _) eqn:E.
    - rewrite !(x_of_alter (λ _, add (x_of pos prev) MIN_SEP)) by (apply Hd; set_solver).
      rewrite (decide_False (P := prev = cur)), (decide_True (P := cur = cur)) by done.
      destruct (Hd cur ltac:(set_solver)) as [p ->]. cbn [fmap option_fmap option_map default].
      split_and!; [done|rewrite MIN_SEP_Q; cbn; lra|]. intros k Hk. by rewrite lookup_alter_is_Some.
    - split_and!; [done|by apply nlt_Q|done]. }
  destruct (sweep_rows cur rest pos1) as [_ Hm].
  assert (x_of (sweep cur rest pos1) prev = x_of pos1 prev) as Q1 by (unfold x_of; by rewrite Hm).
  assert (x_of (sweep cur rest pos1) cur = x_of pos1 cur) as Q2 by (unfold x_of; by rewrite Hm).
  specialize (IH cur pos1 Hn ltac:(intros k Hk; apply P3, Hd; by right)).
  assert (after_ (sweep cur rest pos1) prev cur) as Ha by (unfold after_; rewrite Q1, Q2, P1; done).
  constructor; [done|]. constructor; [done|]. apply StronglySorted_inv in IH as [_ IH].
  eapply Forall_impl; [exact IH|]. intros k. by apply after_trans.
Qed.

Lemma shift_x s ids pos k :
  NoDup ids → (∀ i, i ∈ ids → is_Some (pos !! i)) →
  x_of (shift_by s ids pos) k = if decide (k ∈ ids) then x_of pos k + s else x_of pos k.
Proof.
  revert pos. induction ids as [|i ids IH]; intros pos Hn Hd; [by rewrite decide_False by apply not_elem_of_nil|].
  apply NoDup_cons in Hn as [Hi Hn]. unfold shift_by in *. cbn [foldl]. rewrite IH; [|done|].
  - rewrite !(x_of_alter (λ p, add (px p) s)) by (apply Hd; by left).
    destruct (Hd i ltac:(by left)) as [p Hp].
    destruct (decide (k = i)) as [->|Hne].
    + rewrite decide_False, decide_True by (done || by left). unfold x_of. by rewrite Hp.
    + destruct (decide (k ∈ ids)); [rewrite decide_True by by right|rewrite decide_False by set_solver]; done.
  - intros j Hj. rewrite lookup_alter_is_Some. apply Hd. by right.
Qed.

(** [a] and [b] are at least the minimal separation apart. *)
Definition apart_x pos (a b : string) : Prop :=
  MIN_SEP <= x_of pos b - x_of pos a ∨ MIN_SEP <= x_of pos a - x_of pos b.

Lemma sorted_apart pos l a b :
  StronglySorted (after_ pos) l → a ∈ l → b ∈ l → a ≠ b → apart_x pos a b.
Proof.
  intros Hs. induction Hs as [|c l Hs IH Hf]; [by intros ?%elem_of_nil|]. rewrite Forall_forall in Hf.
  intros [->|Ha]%elem_of_cons [->|Hb]%elem_of_cons Hne; [done|left; by apply Hf|right; by apply Hf|by apply IH].
Qed.

Lemma enforce_band_apart root pos ids a b :
  NoDup ids → (∀ k, k ∈ ids → is_Some (pos !! k)) → a ∈ ids → b ∈ ids → a ≠ b →
  apart_x (enforce_band root pos ids) a b.
Proof.
  intros Hn Hd Ha Hb Hne. unfold enforce_band.
  pose proof (sort_perm (λ a b, cmp_of (sub (x_of pos a) (x_of pos b))) ids) as Hp.
  destruct (sort _ ids) as [|f [|g l]] eqn:E.
  - rewrite <- Hp in Ha. by apply elem_of_nil in Ha.
  - rewrite <- Hp in Ha, Hb. apply list_elem_of_singleton in Ha, Hb. congruence.
  - rewrite <- Hp in Hn, Ha, Hb. assert (∀ k, k ∈ f :: g :: l → is_Some (pos !! k)) as Hd'
      by (intros k; rewrite Hp; apply Hd).
    cbn [tail]. pose proof (sweep_apart f (g :: l) pos Hn Hd') as Hs.
    assert (apart_x (sweep f (g :: l) pos) a b) as Hab by by eapply sorted_apart.
    set (sh := band_shift _ _ _ _ _). destruct (nonzero sh); [|done].
    unfold apart_x. rewrite !shift_x; [|done| |done|].
    + rewrite !decide_True by done. destruct Hab; [left|right]; lra.
    + intros k Hk. eapply same_rows_dom; [apply sweep_rows|auto].
    + intros k Hk. eapply same_rows_dom; [apply sweep_rows|auto].
Qed.

(** After the sweep of every level, no two hosts of one level are closer than the
    minimal separation. *)
Lemma enforce_apart root bands pos band a b :
  NoDup (concat bands) → (∀ k, k ∈ concat bands → is_Some (pos !! k)) →
  band ∈ bands → a ∈ band → b ∈ band → a ≠ b →
  apart_x (enforceSiblingMinSep root bands pos) a b.
Proof.
  unfold enforceSiblingMinSep. revert pos. induction bands as [|l bands IH]; intros pos Hn Hd Hb Ha Hbb Hne.
  { by apply elem_of_nil in Hb. }
  cbn [concat] in *. apply NoDup_app in Hn as (Hl & Hlb & Hn). cbn [foldl].
  destruct (enforce_band_rows root pos l) as (R1 & R2 & _).
  apply elem_of_cons in Hb as [->|Hb].
  - assert (∀ k, k ∈ l → foldl (enforce_band root) (enforce_band root pos l) bands !! k = enforce_band root pos l !! k) as Hk.
    { intros k Hk. apply (foldl_preorder (keeps k)). intros p bd Hbd. apply enforce_band_rows.
      intros Hin. apply (Hlb _ Hk). apply list_elem_of_In, in_concat. exists bd. split; by apply list_elem_of_In. }
    unfold apart_x, x_of. rewrite !Hk by done. apply enforce_band_apart; try done. intros; apply Hd; set_solver.
  - apply IH; try done. intros k Hk. eapply same_rows_dom; [exact R1|apply Hd; set_solver].
Qed.
End Exact.

(** ** Levels *)

Lemma band_push_perm d id m : concat (map snd (band_push d id m)) ≡ₚ id :: concat (map snd m).
Proof.
  induction m as [|[d' l] m IH]; [done|]. cbn [band_push]. case_decide; cbn [map concat snd].
  - rewrite <- app_assoc. cbn [app]. by rewrite <- Permutation_middle.
  - by rewrite IH, Permutation_middle.
Qed.

Lemma band_push_keys d id m :
  NoDup (map fst m) → NoDup (map fst (band_push d id m))
  ∧ ∀ d', d' ∈ map fst (band_push d id m) → d' = d ∨ d' ∈ map fst m.
Proof.
  induction m as [|[d' l] m IH]; cbn [band_push map fst]; intros Hn.
  - split; [apply NoDup_singleton|]. intros k ->%list_elem_of_singleton. by left.
  - apply NoDup_cons in Hn as [Hd Hn]. destruct (IH Hn) as [IH1 IH2]. case_decide as E; cbn [map fst].
    + subst d'. split; [by constructor|]. intros k Hk. by right.
    + split; [constructor; [by intros [?|?]%IH2|done]|]. intros k. rewrite !elem_of_cons. intros [?|?%IH2]; tauto.
Qed.

Definition on_level (f : string → nat) (e : nat * list string) : Prop := Forall (λ i, f i = e.1) e.2.

Lemma band_push_level f id m : Forall (on_level f) m → Forall (on_level f) (band_push (f id) id m).
Proof.
  induction 1 as [|[d l] m He Hm IH]; cbn [band_push]; [by repeat constructor|].
  case_decide as E; [subst d|]; constructor; try done. unfold on_level in *. cbn in *.
  rewrite Forall_app. split; [done|]. by repeat constructor.
Qed.

Lemma byDepth_spec depth ids :
  let f k := (depth !! k) ?? 0%nat in
  let m := byDepth depth ids in
  concat (map snd m) ≡ₚ ids ∧ NoDup (map fst m) ∧ Forall (on_level f) m.
Proof.
  intros f. unfold byDepth. fold f. change (λ m id, band_push (depth !! id ?? 0%nat) id m) with (λ m id, band_push (f id) id m).
  induction ids as [|i ids IH] using rev_ind; cbn zeta in *; [split_and!; constructor|].
  rewrite foldl_snoc. destruct IH as (IH1 & IH2 & IH3). split_and!.
  - by rewrite band_push_perm, IH1, Permutation_cons_append.
  - by apply band_push_keys.
  - by apply band_push_level.
Qed.

(** Two hosts of one level are in one band, and a band has one level. *)
Lemma byDepth_bands depth ids a b :
  a ∈ ids → b ∈ ids → (depth !! a) ?? 0%nat = (depth !! b) ?? 0%nat →
  ∃ band, band ∈ map snd (byDepth depth ids) ∧ a ∈ band ∧ b ∈ band.
Proof.
  destruct (byDepth_spec depth ids) as (H1 & H2 & H3). cbn zeta in *. intros Ha Hb Hd.
  rewrite <- H1 in Ha, Hb. apply elem_of_concat_map in Ha as (e & He & Ha). apply elem_of_concat_map in Hb as (e' & He' & Hb).
  rewrite Forall_forall in H3. unfold on_level in H3.
  assert (e = e') as <-; [|exists e.2; split_and!; [by apply list_elem_of_fmap_2|done..]].
  pose proof (H3 _ He) as L1. pose proof (H3 _ He') as L2. rewrite Forall_forall in L1, L2.
  specialize (L1 _ Ha). specialize (L2 _ Hb). assert (e.1 = e'.1) as E by congruence.
  apply list_elem_of_lookup in He as [i Hi], He' as [j Hj].
  assert (i = j) as ->; [|congruence].
  eapply (NoDup_lookup _ _ _ e.1 H2); rewrite list_lookup_fmap; [by rewrite Hi|by rewrite Hj, E].
Qed.

Lemma byDepth_alone depth ids root band :
  NoDup ids → (∀ k, k ∈ ids → (depth !! k) ?? 0%nat = (depth !! root) ?? 0%nat → k = root) →
  band ∈ map snd (byDepth depth ids) → root ∈ band → (length band < 2)%nat.
Proof.
  destruct (byDepth_spec depth ids) as (H1 & H2 & H3). cbn zeta in *. intros Hn Ha Hb Hr.
  apply list_elem_of_fmap in Hb as (e & -> & He). rewrite Forall_forall in H3. specialize (H3 _ He).
  unfold on_level in H3. rewrite Forall_forall in H3.
  assert (NoDup e.2 ∧ ∀ k, k ∈ e.2 → k ∈ ids) as [Hne Hin].
  { rewrite <- H1 in Hn. apply list_elem_of_split in He as (l & l' & E).
    assert (concat (map snd (byDepth depth ids)) = concat (map snd l) ++ e.2 ++ concat (map snd l')) as Ec
      by by rewrite E, map_app, concat_app.
    split.
    - rewrite Ec in Hn. apply NoDup_app in Hn as (_ & _ & Hn). by apply NoDup_app in Hn as (? & _ & _).
    - intros k Hk. rewrite <- H1, Ec. set_solver. }
  assert (∀ k, k ∈ e.2 → k = root) as Hall by (intros k Hk; apply Ha; [by apply Hin|by rewrite !H3]).
  destruct e.2 as [|x [|y l]]; cbn; try lia. exfalso. apply NoDup_cons in Hne as [Hx _]. apply Hx.
  rewrite (Hall x), (Hall y) by set_solver. by left.
Qed.

(** ** A segment *)

Section Segment.
Context (localeCompare : string → string → Z) (seg : segment) (root : string).
Abbreviation ids := (map h_id (seg_hosts seg)).
Abbreviation tree := (spanning_tree localeCompare (seg_hosts seg) (seg_edges seg) root).
Abbreviation start := (tree_positions localeCompare (seg_hosts seg) (seg_edges seg) root).
Context (Hn : NoDup ids) (Hr : root ∈ ids).
Definition level (k : string) : nat := (depth tree !! k) ?? 0%nat.

(** The relaxation changes no row, whatever the arithmetic, and not the root. *)
Lemma relaxed_rows {N} `{Arith N} :
  same_rows (to_places start) (relaxed (N := N) localeCompare seg root)
  ∧ relaxed (N := N) localeCompare seg root !! root = Some (mk_point (int 0) (int 0)).
Proof.
  assert (to_places (N := N) start !! root = Some (mk_point (int 0) (int 0))) as H0.
  { unfold to_places. rewrite lookup_fmap. by destruct (tree_places localeCompare _ (seg_edges seg) root Hn Hr) as [_ ->]. }
  unfold relaxed, relaxSegmentPositions. cbv zeta. destruct (crossEdges seg tree) as [|e cross]; [done|].
  set (bands := map snd (byDepth (depth tree) ids)).
  destruct (relax_loop_rows RELAX_ITERS ids root (e :: cross) bands (lit 5 1) (to_places (N := N) start)) as [L1 L2].
  destruct (enforce_rows root bands (relax_loop RELAX_ITERS ids root (e :: cross) bands (lit 5 1) (to_places (N := N) start)))
    as [E1 E2].
  split; [by etransitivity|]. rewrite E2, L2; [done|]. intros b Hb Hrb.
  apply (byDepth_alone (depth tree) ids root); try done. intros k Hk Hd.
  apply (level_zero localeCompare (seg_hosts seg) (seg_edges seg) root k Hn Hr Hk).
  rewrite Hd. destruct (spanning_tree_spanning localeCompare (seg_hosts seg) (seg_edges seg) root Hn Hr) as [Hsp _].
  exact (sp_root _ _ _ _ Hsp).
Qed.

Lemma relaxed_places {N} `{Arith N} k :
  is_Some (relaxed (N := N) localeCompare seg root !! k) ↔ k ∈ ids.
Proof.
  destruct (tree_places localeCompare (seg_hosts seg) (seg_edges seg) root Hn Hr) as [Hp _].
  rewrite <- Hp. destruct (relaxed_rows (N := N)) as [Hs _]. specialize (Hs k). unfold to_places in Hs.
  rewrite lookup_fmap in Hs. destruct (relaxed _ _ _ !! k), (start !! k); cbn in Hs; split; intros [? ?]; try done; by eexists.
Qed.

Lemma relaxed_row {N} `{Arith N} k p :
  relaxed (N := N) localeCompare seg root !! k = Some p → py p = int (Z.of_nat (level k) * LEVEL_HEIGHT)%Z.
Proof.
  intros Hk. destruct (relaxed_rows (N := N)) as [Hs _]. specialize (Hs k). unfold to_places in Hs.
  rewrite lookup_fmap, Hk in Hs. destruct (start !! k) as [q|] eqn:E; cbn in Hs; [|done].
  apply tree_row in E; [|done..]. injection Hs as ->. by rewrite E.
Qed.
End Segment.

Section Clear.
Local Open Scope Q_scope.

(** Far enough apart for two hosts with their labels. *)
Definition clear_of (p q : @point Q) : Prop :=
  (150 # 1) <= py p - py q ∨ (150 # 1) <= py q - py p ∨ (124 # 1) <= px p - px q ∨ (124 # 1) <= px q - px p.

(** With exact numbers no two hosts of a segment are closer than their labels
    need. *)
Lemma relaxed_clear localeCompare seg root k k' p p' :
  NoDup (map h_id (seg_hosts seg)) → root ∈ map h_id (seg_hosts seg) →
  relaxed localeCompare seg root !! k = Some p → relaxed localeCompare seg root !! k' = Some p' → k ≠ k' →
  clear_of p p'.
Proof.
  intros Hn Hr Hk Hk' Hne. pose proof (relaxed_row _ _ _ Hn Hr _ _ Hk) as Hy. pose proof (relaxed_row _ _ _ Hn Hr _ _ Hk') as Hy'.
  destruct (decide (level localeCompare seg root k = level localeCompare seg root k')) as [Hl|Hl].
  2:{ unfold clear_of. rewrite Hy, Hy'. replace LEVEL_HEIGHT with 150%Z by done.
      destruct (Nat.lt_total (level localeCompare seg root k) (level localeCompare seg root k')) as [?|[?|?]]; [|done|];
        [right; left|left]; apply int_le; lia. }
  unfold clear_of. right; right.
  assert (k ∈ map h_id (seg_hosts seg) ∧ k' ∈ map h_id (seg_hosts seg)) as [Hin Hin']
    by (split; apply (relaxed_places (N := Q) localeCompare seg root Hn Hr); by eexists).
  revert Hk Hk'. unfold relaxed, relaxSegmentPositions. cbv zeta.
  destruct (crossEdges seg _) as [|e cross].
  - unfold to_places. rewrite !lookup_fmap.
    intros ([x y] & E & ->)%fmap_Some ([x' y'] & E' & ->)%fmap_Some.
    destruct (tree_apart _ _ _ _ _ _ _ _ Hn Hr E E' Hne) as [Ha|Ha].
    + exfalso. apply Ha. rewrite (tree_row _ _ _ _ _ _ Hn Hr E), (tree_row _ _ _ _ _ _ Hn Hr E').
      unfold level in Hl. by rewrite Hl.
    + replace LEAF_SPACING with 136%Z in Ha by done. cbn [fst snd] in *. cbn [px].
      destruct (Z.le_gt_cases 136 (x - x')) as [?|?]; [left|right]; apply int_le; lia.
  - set (pos := relax_loop _ _ _ _ _ _ _). set (bands := map snd _). intros Hk Hk'.
    destruct (byDepth_bands _ _ _ _ Hin Hin' Hl) as (band & Hb & Ha & Hb').
    assert (concat bands ≡ₚ map h_id (seg_hosts seg)) as B1 by apply byDepth_spec.
    assert (apart_x (enforceSiblingMinSep root bands pos) k k') as Hap.
    { apply (enforce_apart _ _ _ band); try done; [by rewrite B1|]. intros i Hi. rewrite B1 in Hi.
      eapply same_rows_dom; [apply relax_loop_rows|]. unfold to_places. rewrite lookup_fmap, fmap_is_Some.
      by apply (tree_places localeCompare _ (seg_edges seg) root Hn Hr). }
    unfold apart_x, x_of in Hap. rewrite Hk, Hk' in Hap. rewrite MIN_SEP_Q in Hap. cbn in Hap.
    destruct Hap; [right|left]; done.
Qed.
End Clear.

(** ** Rectangles *)

#[local] Arguments int : simpl never.

Section Rectangles.
Local Open Scope Q_scope.

(** What a host with its badges and its label takes. *)
Definition node_rect (p : @point Q) : extents :=
  mk_extents (sub (px p) (int NODE_HALF_WIDTH)) (sub (py p) (int NODE_TOP_EXTENT))
    (add (px p) (int NODE_HALF_WIDTH)) (add (py p) (int BADGE_Y_OFFSET)).
Definition bbox_rect (b : @bbox Q) : extents :=
  mk_extents (b_x b) (b_y b) (b_x b + b_w b) (b_y b + b_h b).
Definition box_rect (b : @box Q) : extents := mk_extents (left_ b) (top_ b) (right_ b) (bottom_ b).

(** [e] is inside [e'], [m] away from its border. *)
Definition in_rect (m : Q) (e e' : extents) : Prop :=
  min_x e' + m <= min_x e ∧ min_y e' + m <= min_y e ∧ max_x e + m <= max_x e' ∧ max_y e + m <= max_y e'.

(** [m] pixels between the two. *)
Definition disjoint_rects (m : Q) (e e' : extents) : Prop :=
  max_x e + m <= min_x e' ∨ max_x e' + m <= min_x e ∨ max_y e + m <= min_y e' ∨ max_y e' + m <= min_y e.

Lemma in_rect_trans m m' a b c : in_rect m a b → in_rect m' b c → in_rect (m + m') a c.
Proof. unfold in_rect. lra. Qed.
Lemma in_rect_weaken m m' a b : m' <= m → in_rect m a b → in_rect m' a b.
Proof. unfold in_rect. lra. Qed.

Lemma low_of_le (m x : Q) : low_of m x <= m ∧ low_of m x <= x.
Proof.
  unfold low_of. destruct (lt x m) eqn:E; [apply lt_Q in E|apply nlt_Q in E]; split; try apply Qle_refl; lra.
Qed.
Lemma high_of_ge (m x : Q) : m <= high_of m x ∧ x <= high_of m x.
Proof.
  unfold high_of. destruct (lt m x) eqn:E; [apply lt_Q in E|apply nlt_Q in E]; split; try apply Qle_refl; lra.
Qed.

Definition cover_rect (e r : extents) : extents := cover e (min_x r) (min_y r) (max_x r) (max_y r).

Lemma cover_in (e r : extents) : in_rect 0 e (cover_rect e r) ∧ in_rect 0 r (cover_rect e r).
Proof.
  unfold cover_rect, cover, in_rect. cbn [min_x min_y max_x max_y].
  destruct (low_of_le (min_x e) (min_x r)), (low_of_le (min_y e) (min_y r)), (high_of_ge (max_x e) (max_x r)),
    (high_of_ge (max_y e) (max_y r)). split; split_and!; lra.
Qed.

Lemma in_rect_zero_trans a b c : in_rect 0 a b → in_rect 0 b c → in_rect 0 a c.
Proof. unfold in_rect. lra. Qed.

Lemma covers_in {A} (g : A → extents) (f : extents → A → extents) l e :
  (∀ e a, f e a = cover_rect e (g a)) →
  in_rect 0 e (foldl f e l) ∧ ∀ a, a ∈ l → in_rect 0 (g a) (foldl f e l).
Proof.
  intros Hf. revert e. induction l as [|a l IH]; intros e; cbn [foldl].
  - split; [unfold in_rect; lra|by intros a ?%elem_of_nil].
  - destruct (IH (f e a)) as [H1 H2]. destruct (cover_in e (g a)) as [C1 C2]. rewrite <- Hf in C1, C2.
    split; [by eapply in_rect_zero_trans|]. intros b [->|Hb]%elem_of_cons; [by eapply in_rect_zero_trans|by apply H2].
Qed.

Lemma bbox_of_in ps :
  (∀ p, p ∈ ps → in_rect 56 (node_rect p) (bbox_rect (bbox_of ps))) ∧ 0 <= b_w (bbox_of ps) ∧ 0 <= b_h (bbox_of ps).
Proof.
  unfold bbox_of. set (e := foldl cover_host _ ps).
  destruct (covers_in node_rect cover_host ps (mk_extents (int (- NODE_HALF_WIDTH)) (int (- NODE_TOP_EXTENT)) (int NODE_HALF_WIDTH) (int BADGE_Y_OFFSET)))
    as [C1 C2]; [done|]. fold e in C1, C2. split.
  - intros p Hp. specialize (C2 p Hp). revert C2. generalize (node_rect p). clear C1. generalize e. clear.
    intros [] []. unfold in_rect, bbox_rect. cbn. eval_ints. lra.
  - clear C2. revert C1. generalize e. clear. intros []. unfold in_rect. cbn. eval_ints. lra.
Qed.

Lemma expand_in m r b seg : in_rect m r (bbox_rect b) → in_rect m r (bbox_rect (expandBBoxToLabel b seg)).
Proof.
  unfold expandBBoxToLabel. set (minW := add (mul _ _) _). destruct (le minW (b_w b)) eqn:E; [done|].
  apply nle_Q in E. revert E. generalize minW. clear minW. intros w Hw.
  assert (half (sub w (b_w b)) == (w - b_w b) * (1 # 2)) as Hh by reflexivity. revert Hh.
  generalize (half (sub w (b_w b))). intros h Hh. unfold in_rect, bbox_rect.
  cbn [min_x min_y max_x max_y b_x b_y b_w b_h]. cbn [sub rationals]. lra.
Qed.

Lemma expand_size b seg :
  b_w b <= b_w (expandBBoxToLabel b seg) ∧ b_h (expandBBoxToLabel b seg) = b_h b.
Proof.
  unfold expandBBoxToLabel. set (minW := add (mul _ _) _). destruct (le minW (b_w b)) eqn:E; [split; [apply Qle_refl|done]|].
  split; [|done]. apply nle_Q in E. cbn [b_w]. by apply Qlt_le_weak.
Qed.

Lemma moved_in m p seg b oX oY :
  in_rect m (node_rect p) (bbox_rect b) → in_rect m (node_rect (moved oX oY p)) (box_rect (mk_box seg b oX oY)).
Proof.
  unfold in_rect, node_rect, bbox_rect, box_rect, right_, bottom_, left_, top_, moved.
  cbn. eval_ints. lra.
Qed.

Lemma clear_moved oX oY p q : clear_of p q → clear_of (moved oX oY p) (moved oX oY q).
Proof. unfold clear_of, moved. cbn. lra. Qed.

(** Twelve pixels between two labels, more between two rows. *)
Lemma clear_node_rects p q : clear_of p q → disjoint_rects 12 (node_rect p) (node_rect q).
Proof.
  unfold clear_of, disjoint_rects, node_rect. cbn. eval_ints. lra.
Qed.

Lemma disjoint_sym m a b : disjoint_rects m a b → disjoint_rects m b a.
Proof. unfold disjoint_rects. lra. Qed.
Lemma disjoint_inside n m m' a b a' b' :
  0 <= m' → n <= m → in_rect m' a a' → in_rect m' b b' → disjoint_rects m a' b' → disjoint_rects n a b.
Proof. unfold in_rect, disjoint_rects. lra. Qed.
End Rectangles.

(** ** Packing, entry by entry *)

Section Placed.
Context {N : Type} `{Arith N}.

(** The entries of a row with their boxes, and those of all rows. *)
Fixpoint placed_row (cy cx : N) (row : list entry) : list (entry * box) :=
  match row with
  | [] => []
  | e :: row =>
      (e, mk_box (en_seg e) (en_bbox e) (sub cx (b_x (en_bbox e))) (sub cy (b_y (en_bbox e))))
      :: placed_row cy (add cx (add (b_w (en_bbox e)) (int SEGMENT_GUTTER))) row
  end.
Fixpoint placed_rows (cy : N) (rs : list (list entry)) : list (entry * box) :=
  match rs with
  | [] => []
  | r :: rs => placed_row cy (int 0) r ++ placed_rows (add cy (add (rowHeight r) (int SEGMENT_GUTTER))) rs
  end.

Definition put (m : gmap string (@point N)) (eb : entry * box) : gmap string (@point N) :=
  (moved (offsetX eb.2) (offsetY eb.2) <$> en_local eb.1) ∪ m.

Lemma place_row_eq cy p cx row :
  (foldl (place_entry cy) (p, cx) row).1
  = mk_plan (foldl put (pl_positions p) (placed_row cy cx row)) (pl_boxes p ++ map snd (placed_row cy cx row)).
Proof.
  revert p cx. induction row as [|e row IH]; intros p cx; cbn [foldl placed_row map].
  - rewrite app_nil_r. by destruct p.
  - unfold place_entry at 2. cbn [fst snd]. rewrite IH. cbn [pl_positions pl_boxes]. by rewrite <- app_assoc.
Qed.

Lemma pack_eq rs : pack rs = mk_plan (foldl put ∅ (placed_rows (int 0) rs)) (map snd (placed_rows (int 0) rs)).
Proof.
  unfold pack.
  enough (∀ p cy, (foldl place_row (p, cy) rs).1
    = mk_plan (foldl put (pl_positions p) (placed_rows cy rs)) (pl_boxes p ++ map snd (placed_rows cy rs))) as -> by done.
  induction rs as [|r rs IH]; intros p cy; cbn [foldl placed_rows map].
  - rewrite app_nil_r. by destruct p.
  - unfold place_row at 2. cbn [fst snd]. rewrite place_row_eq, IH. cbn [pl_positions pl_boxes].
    by rewrite foldl_app, map_app, app_assoc.
Qed.

Lemma placed_row_fst cy cx row : map fst (placed_row cy cx row) = row.
Proof. revert cx. induction row as [|e row IH]; intros cx; cbn [placed_row map fst]; [done|by rewrite IH]. Qed.
Lemma placed_rows_fst cy rs : map fst (placed_rows cy rs) = concat rs.
Proof.
  revert cy. induction rs as [|r rs IH]; intros cy; cbn [placed_rows concat]; [done|]. by rewrite map_app, placed_row_fst, IH.
Qed.

(** The box of an entry is its own. *)
Definition own_box (eb : @entry N * @box N) : Prop := ∃ oX oY, eb.2 = mk_box (en_seg eb.1) (en_bbox eb.1) oX oY.
Lemma placed_own cy rs eb : eb ∈ placed_rows cy rs → own_box eb.
Proof.
  revert cy. induction rs as [|r rs IH]; intros cy; cbn [placed_rows]; [by intros ?%elem_of_nil|].
  intros [Hin|Hin]%elem_of_app; [|by eapply IH]. clear IH. revert Hin. generalize (int (N := N) 0) as cx.
  induction r as [|e r IHr]; intros cx; cbn [placed_row]; [by intros ?%elem_of_nil|].
  intros [->|Hin]%elem_of_cons; [by eexists _, _|by eapply IHr].
Qed.

Lemma put_lookup l k q :
  foldl put ∅ l !! k = Some q →
  ∃ eb p, eb ∈ l ∧ en_local eb.1 !! k = Some p ∧ q = moved (offsetX eb.2) (offsetY eb.2) p.
Proof.
  induction l as [|eb l IH] using rev_ind; [done|]. rewrite foldl_snoc. unfold put at 1.
  rewrite lookup_union_Some_raw, lookup_fmap. intros [(p & Hp & ->)%fmap_Some|[_ Hq]].
  - exists eb, p. split_and!; [set_solver|done..].
  - destruct (IH Hq) as (eb' & p & ? & ? & ?). exists eb', p. split_and!; [set_solver|done..].
Qed.

Lemma put_some l eb k : eb ∈ l → is_Some (en_local eb.1 !! k) → is_Some (foldl put ∅ l !! k).
Proof.
  intros Hin Hk. induction l as [|eb' l IH] using rev_ind; [by apply elem_of_nil in Hin|].
  rewrite foldl_snoc. unfold put at 1. rewrite lookup_union_is_Some, lookup_fmap, fmap_is_Some.
  apply elem_of_app in Hin as [Hin| ->%list_elem_of_singleton]; [right; by apply IH|by left].
Qed.
End Placed.

Section PackExact.
Local Open Scope Q_scope.

Definition sized (e : @entry Q) : Prop := 0 <= b_w (en_bbox e) ∧ 0 <= b_h (en_bbox e).

Lemma rowHeight_ge (row : list (@entry Q)) e : e ∈ row → b_h (en_bbox e) <= rowHeight row.
Proof.
  unfold rowHeight. intros Hin%(list_elem_of_fmap_2 (λ e, b_h (en_bbox e))). revert Hin.
  change (fmap (M := list) (λ e : entry, b_h (en_bbox e)) row) with (map (λ e : entry, b_h (en_bbox e)) row).
  generalize (map (λ e : entry, b_h (en_bbox e)) row). generalize (b_h (en_bbox e)). clear.
  intros h [|h0 l]; [by intros ?%elem_of_nil|]. revert h h0. induction l as [|h1 l IH]; intros h h0; cbn [foldl].
  - intros ->%list_elem_of_singleton. apply Qle_refl.
  - assert (Math_max h0 h1 <= foldl Math_max (Math_max h0 h1) l) as Hx by (apply IH; by left).
    destruct (high_of_ge h0 h1) as [R1 R2]. change (high_of h0 h1) with (Math_max h0 h1) in R1, R2.
    intros [->|[->|Hin]%elem_of_cons]%elem_of_cons; [by eapply Qle_trans|by eapply Qle_trans|]. apply IH. by right.
Qed.

Lemma rowHeight_nonneg (row : list (@entry Q)) : Forall sized row → 0 <= rowHeight row.
Proof.
  intros Hs. destruct row as [|e row]; [apply Qle_refl|]. apply Forall_cons in Hs as [[_ He] _].
  eapply Qle_trans; [exact He|]. apply rowHeight_ge. by left.
Qed.

(** Where the boxes of a row are: from [cx] on, one after the other. *)
Lemma placed_row_at cy cx row :
  Forall sized row →
  (∀ eb, eb ∈ placed_row cy cx row → cx <= left_ eb.2 ∧ top_ eb.2 == cy ∧ bottom_ eb.2 <= cy + rowHeight row)
  ∧ ∀ i j a b, (i < j)%nat → placed_row cy cx row !! i = Some a → placed_row cy cx row !! j = Some b →
      right_ a.2 + 160 <= left_ b.2.
Proof.
  intros Hs.
  assert (∀ eb, eb ∈ placed_row cy cx row → cx <= left_ eb.2 ∧ top_ eb.2 == cy
    ∧ ∃ e, e ∈ row ∧ b_h (bo_bbox eb.2) = b_h (en_bbox e)) as H1.
  { revert cx. induction Hs as [|e row [He _] Hs IH]; intros cx eb; cbn [placed_row]; [by intros ?%elem_of_nil|].
    intros [->|Hin]%elem_of_cons.
    - unfold left_, top_. cbn. split_and!; [lra|lra|]. exists e. split; [by left|done].
    - destruct (IH _ _ Hin) as (I1 & I2 & e' & He' & I3). split_and!; [|done|exists e'; split; [by right|done]].
      revert I1. cbn. eval_ints. lra. }
  split.
  - intros eb Heb. destruct (H1 eb Heb) as (? & Ht & e & He & Hh). split_and!; [done..|].
    unfold bottom_. rewrite Hh. apply rowHeight_ge in He. cbn [add rationals]. lra.
  - clear H1. revert cx. induction Hs as [|e row He Hs IH]; intros cx i j a b Hij; cbn [placed_row]; [done|].
    destruct j as [|j]; [lia|]. destruct i as [|i]; cbn [lookup list_lookup].
    + intros [= <-] Hb%list_elem_of_lookup_2. clear IH.
      assert (∀ cx eb, eb ∈ placed_row cy cx row → cx <= left_ eb.2) as Hl.
      { clear -Hs. induction Hs as [|e row [He _] Hs IH]; intros cx eb; cbn [placed_row]; [by intros ?%elem_of_nil|].
        intros [->|Hin]%elem_of_cons; [unfold left_; cbn; lra|]. apply IH in Hin. revert Hin. cbn. eval_ints. lra. }
      apply Hl in Hb. revert Hb. unfold right_, left_. cbn. eval_ints. lra.
    + apply IH. lia.
Qed.

(** The boxes of a plan do not meet: 160 pixels between two of a row and between
    two rows. *)
Lemma placed_rows_at cy rs :
  Forall (Forall sized) rs →
  (∀ eb, eb ∈ placed_rows cy rs → cy <= top_ eb.2)
  ∧ ∀ i j a b, (i < j)%nat → placed_rows cy rs !! i = Some a → placed_rows cy rs !! j = Some b →
      right_ a.2 + 160 <= left_ b.2 ∨ bottom_ a.2 + 160 <= top_ b.2.
Proof.
  intros Hs. revert cy. induction Hs as [|r rs Hr Hs IH]; intros cy; cbn [placed_rows]; [split; [by intros ? ?%elem_of_nil|done]|].
  destruct (placed_row_at cy (int 0) r Hr) as [R1 R2].
  destruct (IH (add cy (add (rowHeight r) (int SEGMENT_GUTTER)))) as [I1 I2].
  set (next := placed_rows _ rs) in *.
  split.
  - intros eb [Hin|Hin]%elem_of_app; [destruct (R1 _ Hin) as (_ & -> & _); apply Qle_refl|].
    apply I1 in Hin. pose proof (rowHeight_nonneg r Hr). revert Hin. cbn. eval_ints. lra.
  - intros i j a b Hij Ha Hb. apply lookup_app_Some in Ha as [Ha|[Hla Ha]], Hb as [Hb|[Hlb Hb]].
    + left. by eapply (R2 i j).
    + right. apply list_elem_of_lookup_2 in Ha, Hb. destruct (R1 _ Ha) as (_ & _ & Hbot). apply I1 in Hb.
      revert Hb Hbot. cbn. eval_ints. lra.
    + apply lookup_lt_Some in Hb. lia.
    + eapply I2; [|exact Ha|exact Hb]. lia.
Qed.
End PackExact.

(** ** The whole map *)

Lemma viewBox_in (boxes : list (@box Q)) b :
  b ∈ boxes → in_rect 72 (box_rect b) (bbox_rect (viewBox boxes)).
Proof.
  intros Hb. unfold viewBox. cbv zeta.
  destruct (covers_in box_rect (λ e b, cover e (left_ b) (top_ b) (right_ b) (bottom_ b)) boxes
    (mk_extents (int 0) (int 0) (int 0) (int 0))) as [_ C]; [done|]. specialize (C b Hb).
  revert C. match goal with |- context [foldl ?f ?e boxes] => generalize (foldl f e boxes) end.
  generalize (box_rect b). clear. intros [] []. unfold in_rect, bbox_rect. cbn. eval_ints. lra.
Qed.

Section Whole.
Context (localeCompare : string → string → Z).

(** The laid out segment: a place for each host and for no other, no two of them
    too close, all of them well inside the box. *)
Record segment_ok (s : segment) (local : gmap string (@point Q)) (b : @bbox Q) : Prop := {
  so_places k : is_Some (local !! k) ↔ k ∈ map h_id (seg_hosts s);
  so_clear k k' p q : local !! k = Some p → local !! k' = Some q → k ≠ k' → clear_of p q;
  so_inside k p : local !! k = Some p → in_rect 56 (node_rect p) (bbox_rect b);
  so_sized : (0 <= b_w b)%Q ∧ (0 <= b_h b)%Q
}.

Lemma layoutSegment_ok s r :
  NoDup (map h_id (seg_hosts s)) → seg_hosts s ≠ [] →
  segment_ok s (layoutSegment localeCompare s r).1 (layoutSegment localeCompare s r).2.
Proof.
  intros Hn Hne. unfold layoutSegment. destruct (pick_root_in localeCompare (seg_hosts s) r Hne) as (h & -> & Hin).
  cbn [fst snd]. set (pos := relaxed localeCompare s (h_id h)).
  destruct (bbox_of_in (map snd (map_to_list pos))) as [Hb Hs]. split; [|..|done].
  - intros k. by apply relaxed_places.
  - intros k k' p q. by apply relaxed_clear.
  - intros k p Hp. apply Hb. apply (list_elem_of_fmap_2 snd _ (k, p)). by apply elem_of_map_to_list.
Qed.

Lemma laid_out_ok v s :
  NoDup (map h_id (seg_hosts s)) → seg_hosts s ≠ [] →
  en_seg (N := Q) (laid_out localeCompare v s) = s
  ∧ segment_ok s (en_local (laid_out localeCompare v s)) (en_bbox (laid_out localeCompare v s)).
Proof.
  intros Hn Hne. unfold laid_out. pose proof (layoutSegment_ok s (segment_root v s) Hn Hne) as Hok.
  destruct (layoutSegment localeCompare s (segment_root v s)) as [local b]. cbn [fst snd] in Hok.
  split; [done|]. cbn [en_local en_bbox]. destruct Hok as [H1 H2 H3 [H4 H5]]. split; [done|done| |].
  - intros k p Hp. apply expand_in. eauto.
  - destruct (expand_size b s) as [Hw ->]. split; [eapply Qle_trans; [exact H4|exact Hw]|done].
Qed.

(** A finished plan. *)
Record plan_ok (v : topo_view) (p : @plan Q) : Prop := {
  po_segments : map bo_seg (pl_boxes p) ≡ₚ v_segments v;
  po_boxes i j a b : (i < j)%nat → pl_boxes p !! i = Some a → pl_boxes p !! j = Some b →
    disjoint_rects 160 (box_rect a) (box_rect b);
  po_home k q : pl_positions p !! k = Some q →
    ∃ b, b ∈ pl_boxes p ∧ k ∈ map h_id (seg_hosts (bo_seg b)) ∧ in_rect 56 (node_rect q) (box_rect b);
  po_hosts h : h ∈ v_hosts v → is_Some (pl_positions p !! h_id h);
  po_clear k k' q q' : pl_positions p !! k = Some q → pl_positions p !! k' = Some q' → k ≠ k' →
    disjoint_rects 12 (node_rect q) (node_rect q')
}.

Lemma view_segment t s :
  t_nodes t ≠ [] → s ∈ v_segments (buildTopologyView localeCompare (Some t)) →
  NoDup (map h_id (seg_hosts s)) ∧ seg_hosts s ≠ [].
Proof.
  intros Hn Hs. split; [by apply (segments_laid_out localeCompare t s None Hn Hs)|].
  destruct (view_fields localeCompare t Hn) as (_ & _ & Hsegs & _). rewrite Hsegs in Hs.
  apply list_elem_of_fmap in Hs as (s0 & -> & Hs0). cbn [seg_hosts].
  destruct (view_segments_spec localeCompare t) as (_ & S2 & S3). destruct (S3 s0 Hs0) as (Hf & _). intros Hnil.
  destruct (proj1 (S2 (seg_id s0))) as (x & Hx & He); [by apply list_elem_of_fmap_2|].
  rewrite Hf in Hnil. apply (not_elem_of_nil x). rewrite <- Hnil. by apply list_elem_of_filter.
Qed.

Lemma host_segment t h :
  t_nodes t ≠ [] → h ∈ v_hosts (buildTopologyView localeCompare (Some t)) →
  ∃ s, s ∈ v_segments (buildTopologyView localeCompare (Some t)) ∧ h_id h ∈ map h_id (seg_hosts s).
Proof.
  intros Hn Hh. destruct (view_fields localeCompare t Hn) as (Hhs & _ & Hsegs & _). rewrite Hhs in Hh.
  destruct (view_segments_spec localeCompare t) as (_ & S2 & S3).
  assert (∃ s0, s0 ∈ view_segments localeCompare t ∧ seg_id s0 = segmentId h) as (s0 & Hs0 & He).
  { assert (segmentId h ∈ map seg_id (view_segments localeCompare t)) as Hin by (apply S2; by exists h).
    apply list_elem_of_fmap in Hin as (s0 & ? & ?). by exists s0. }
  destruct (S3 s0 Hs0) as (Hf & _). rewrite Hsegs.
  eexists. split; [by apply (list_elem_of_fmap_2 _ _ s0)|]. cbn [seg_hosts]. apply list_elem_of_fmap_2.
  rewrite Hf. by apply list_elem_of_filter.
Qed.

Lemma packed_ok t :
  t_nodes t ≠ [] → let v := buildTopologyView localeCompare (Some t) in
  plan_ok v (pack (map (map (laid_out localeCompare v)) (rows (v_segments v)))).
Proof.
  intros Hn v. rewrite pack_eq. set (rs := map (map (laid_out localeCompare v)) (rows (v_segments v))).
  set (L := placed_rows (int 0) rs).
  assert (∀ s, s ∈ v_segments v → en_seg (N := Q) (laid_out localeCompare v s) = s
    ∧ segment_ok s (en_local (laid_out localeCompare v s)) (en_bbox (laid_out localeCompare v s))) as Hok
    by (intros s Hs; apply laid_out_ok; by apply (view_segment t s Hn)).
  assert (map fst L ≡ₚ map (laid_out localeCompare v) (v_segments v)) as Hfst.
  { unfold L. rewrite placed_rows_fst. unfold rs. rewrite <- concat_map.
    apply Permutation_map. by destruct (segment_rows (v_segments v)) as [? _]. }
  assert (∀ eb, eb ∈ L → ∃ s, s ∈ v_segments v ∧ eb.1 = laid_out localeCompare v s) as Hen.
  { intros eb Heb%(list_elem_of_fmap_2 fst). change (fmap (M := list) fst L) with (map fst L) in Heb.
    rewrite Hfst in Heb. apply list_elem_of_fmap in Heb as (s & -> & ?). by exists s. }
  assert (Forall (Forall sized) rs) as Hsized.
  { apply Forall_forall. intros r Hr. apply Forall_forall. intros e He.
    assert (e ∈ map (laid_out localeCompare v) (v_segments v)) as Hin.
    { rewrite <- Hfst. unfold L. rewrite placed_rows_fst. apply list_elem_of_In, in_concat. exists r.
      split; by apply list_elem_of_In. }
    apply list_elem_of_fmap in Hin as (s & -> & Hs). apply (Hok s Hs). }
  destruct (placed_rows_at (int 0) rs Hsized) as [_ Hsep].
  assert (∀ i j a b, (i < j)%nat → L !! i = Some a → L !! j = Some b → disjoint_rects 160 (box_rect a.2) (box_rect b.2)) as Hd.
  { intros i j a b Hij Ha Hb. destruct (Hsep i j a b Hij Ha Hb); [left|right; right; left]; done. }
  assert (∀ eb k p, eb ∈ L → en_local eb.1 !! k = Some p →
    k ∈ map h_id (seg_hosts (bo_seg eb.2))
    ∧ in_rect 56 (node_rect (moved (offsetX eb.2) (offsetY eb.2) p)) (box_rect eb.2)) as Hhome.
  { intros eb k p Heb Hp. destruct (placed_own _ _ _ Heb) as (oX & oY & Hb). destruct (Hen _ Heb) as (s & Hs & He).
    rewrite He in Hp, Hb. destruct (Hok s Hs) as [Es [S1 _ S3 _]]. rewrite Hb. cbn [bo_seg offsetX offsetY].
    rewrite Es. split; [apply S1; by eexists|]. by apply moved_in, (S3 k). }
  split; cbn [pl_positions pl_boxes].
  - assert (map bo_seg (map snd L) = map en_seg (map fst L)) as ->.
    { rewrite !map_map. apply map_ext_in. intros eb Heb%list_elem_of_In. by destruct (placed_own _ _ _ Heb) as (? & ? & ->). }
    rewrite Hfst, map_map. rewrite (map_ext_in _ id); [by rewrite map_id|]. intros s Hs%list_elem_of_In. by apply Hok.
  - intros i j a b Hij Ha Hb. rewrite list_lookup_fmap in Ha, Hb.
    apply fmap_Some in Ha as (ea & Ha & ->), Hb as (eb & Hb & ->). by apply (Hd i j).
  - intros k q (eb & p & Heb & Hp & ->)%put_lookup. exists eb.2. split; [by apply list_elem_of_fmap_2|]. by apply Hhome.
  - intros h (s & Hs & Hh)%host_segment; [|done]. fold v in Hs.
    assert (laid_out localeCompare v s ∈ map fst L) as Hin by (rewrite Hfst; by apply list_elem_of_fmap_2).
    apply list_elem_of_fmap in Hin as (eb & He & Heb). apply (put_some L eb); [done|]. rewrite <- He. by apply Hok.
  - intros k k' q q' (ea & p & Hea & Hp & ->)%put_lookup (eb & p' & Heb & Hp' & ->)%put_lookup Hne.
    destruct (Hhome _ _ _ Hea Hp) as [_ Ia], (Hhome _ _ _ Heb Hp') as [_ Ib].
    apply list_elem_of_lookup in Hea as [i Hi], Heb as [j Hj].
    destruct (Nat.lt_total i j) as [Hij|[<-|Hij]].
    + eapply (disjoint_inside 12 160 56); [by vm_compute|by vm_compute|exact Ia|exact Ib|]. by eapply Hd.
    + rewrite Hi in Hj. injection Hj as <-. apply clear_node_rects, clear_moved.
      destruct (Hen ea) as (s & Hs & He); [by eapply list_elem_of_lookup_2|]. rewrite He in Hp, Hp'.
      destruct (Hok s Hs) as [_ Hs']. by apply (so_clear _ _ _ Hs' k k').
    + apply disjoint_sym. eapply (disjoint_inside 12 160 56); [by vm_compute|by vm_compute|exact Ib|exact Ia|]. by eapply Hd.
Qed.

Lemma single_ok t s :
  t_nodes t ≠ [] → let v := buildTopologyView localeCompare (Some t) in
  v_segments v = [s] → plan_ok v (single_plan localeCompare v).
Proof.
  intros Hn v Hv. unfold single_plan. rewrite Hv.
  assert (s ∈ v_segments v) as Hs by (rewrite Hv; by left).
  destruct (view_segment t s Hn Hs) as [Hnd Hne].
  pose proof (layoutSegment_ok s (v_self v) Hnd Hne) as Hok.
  destruct (layoutSegment localeCompare s (v_self v)) as [local b]. cbn [fst snd] in Hok. destruct Hok as [S1 S2 S3 _].
  split; cbn [pl_positions pl_boxes].
  - by rewrite Hv.
  - intros [|i] [|j] a c Hij; [lia|done|lia|done].
  - intros k q Hq. eexists. split; [by left|]. split; [apply S1; by eexists|].
    specialize (S3 k q Hq). revert S3. unfold in_rect, bbox_rect, box_rect, left_, right_, top_, bottom_, left_, top_.
    cbn. eval_ints. lra.
  - intros h Hh. destruct (host_segment t h Hn Hh) as (s' & Hs' & Hin). fold v in Hs'. rewrite Hv in Hs'.
    apply list_elem_of_singleton in Hs' as ->. by apply S1.
  - intros k k' q q' Hq Hq' Hne'. by apply clear_node_rects, (S2 k k').
Qed.

Lemma no_hosts_no_segments t :
  v_hosts (buildTopologyView localeCompare t) = [] → v_segments (buildTopologyView localeCompare t) = [].
Proof.
  intros Hnil. destruct t as [t|]; [|done].
  destruct (decide (t_nodes t = [])) as [Hn|Hn]; [unfold buildTopologyView; by rewrite Hn|].
  destruct (v_segments _) as [|s l] eqn:E; [done|]. exfalso.
  destruct (view_fields localeCompare t Hn) as (Hh & _ & Hsegs & _). rewrite Hsegs in E.
  destruct (view_segments localeCompare t) as [|s0 l0] eqn:E0; [done|].
  destruct (view_segments_spec localeCompare t) as (_ & S2 & _). rewrite E0 in S2.
  destruct (proj1 (S2 (seg_id s0))) as (h & Hin & _); [by left|]. rewrite <- Hh, Hnil in Hin. by apply elem_of_nil in Hin.
Qed.

(** C39: the map of any topology, with exact numbers.  Every host is drawn, inside the
    box of its segment and at least 128 pixels inside the view; there is a box for
    each segment and 160 pixels between any two of them; and the circles with their
    labels and badges of two hosts are at least 12 pixels apart, whatever links
    there are. *)
Theorem map_readable (t : option topology) :
  let v := buildTopologyView localeCompare t in
  let (p, vb) := globalLayout (N := Q) localeCompare v false in
  (∀ h, h ∈ v_hosts v → ∃ q, pl_positions p !! h_id h = Some q)
  ∧ (∀ k q, pl_positions p !! k = Some q →
       (∃ b, b ∈ pl_boxes p ∧ k ∈ map h_id (seg_hosts (bo_seg b)) ∧ in_rect 56 (node_rect q) (box_rect b))
       ∧ in_rect 128 (node_rect q) (bbox_rect vb))
  ∧ (∀ k k' q q', pl_positions p !! k = Some q → pl_positions p !! k' = Some q' → k ≠ k' →
       disjoint_rects 12 (node_rect q) (node_rect q'))
  ∧ (v_hosts v ≠ [] → map bo_seg (pl_boxes p) ≡ₚ v_segments v)
  ∧ (∀ i j a b, i < j → pl_boxes p !! i = Some a → pl_boxes p !! j = Some b →
       disjoint_rects 160 (box_rect a) (box_rect b)).
Proof.
  intros v. unfold globalLayout. cbn [orb]. set (p := if _ : bool then _ else _).
  destruct (decide (v_hosts v = [])) as [Hnil|Hne].
  { assert (pl_positions p = ∅ ∧ length (pl_boxes p) = 1%nat) as [E1 E2].
    { assert (v_segments v = []) as Es by by apply no_hosts_no_segments.
      unfold p, single_plan. rewrite Es, Hnil. cbn [length Nat.leb]. unfold layoutSegment. cbn [seg_hosts]. by destruct (v_self v). }
    rewrite E1, Hnil. split_and!; [by intros h ?%elem_of_nil|done|done|done|].
    intros i j a b Hij Ha%lookup_lt_Some Hb%lookup_lt_Some. lia. }
  destruct t as [t|]; [|done]. assert (t_nodes t ≠ []) as Hn by (intros E; apply Hne; unfold v, buildTopologyView; by rewrite E).
  assert (plan_ok v p) as [P1 P2 P3 P4 P5].
  { unfold p. destruct (Nat.leb_spec (length (v_segments v)) 1) as [Hl|Hl]; [|by apply packed_ok].
    destruct (v_segments v) as [|s [|]] eqn:E; [|by apply (single_ok t s Hn)|cbn in Hl; lia].
    exfalso. destruct (v_hosts v) as [|h l] eqn:Eh; [done|].
    destruct (host_segment t h Hn) as (s & Hs & _); [fold v; rewrite Eh; by left|]. fold v in Hs. rewrite E in Hs.
    by apply elem_of_nil in Hs. }
  split_and!; [exact P4| |exact P5|done|exact P2].
  intros k q Hq. destruct (P3 k q Hq) as (b & Hb & Hk & Hin). split; [by exists b|].
  eapply in_rect_weaken; [|eapply in_rect_trans; [exact Hin|by apply viewBox_in]]. by vm_compute.
Qed.
End Whole.

(** ** Behaviours worth knowing *)

(** The mini map of the dashboard lays out the first segment only: the hosts of the
    others have no place and are not drawn. *)
Theorem compact_shows_first_segment {N} `{Arith N} localeCompare t s rest :
  t_nodes t ≠ [] → let v := buildTopologyView localeCompare (Some t) in
  v_segments v = s :: rest →
  ∀ k, is_Some (pl_positions (globalLayout (N := N) localeCompare v true).1 !! k) ↔ k ∈ map h_id (seg_hosts s).
Proof.
  intros Hn v Hv k. destruct (view_segment localeCompare t s Hn) as [Hnd Hne]; [fold v; rewrite Hv; by left|].
  unfold globalLayout. cbn [orb fst]. unfold single_plan. rewrite Hv. unfold layoutSegment.
  destruct (pick_root_in localeCompare (seg_hosts s) (v_self v) Hne) as (h & -> & Hin). cbn [pl_positions].
  by apply relaxed_places.
Qed.

(** Four peers that all hear each other and a remote mesh, on doubles: the springs
    pull the peers over each other, the sweep sets them 124 pixels apart. *)
Definition peer_ (i : string) (self : bool) : mesh_node :=
  Build_mesh_node i i "local" "" (Some (if self then 0 else 1)%Z) self false "" [] false None.
Definition heard (a b : string) : mesh_edge := Build_mesh_edge a b 1 false true.
Definition crowded : topology :=
  {| t_nodes := [peer_ "a" true; peer_ "b" false; peer_ "c" false; peer_ "d" false; peer_ "e" false;
                 Build_mesh_node "r" "r" "remote" "r" (Some 3%Z) false false "" [] false None];
     t_edges := [heard "a" "b"; heard "a" "c"; heard "a" "d"; heard "a" "e"; heard "b" "c"; heard "b" "e";
                 heard "d" "e"; heard "c" "d"];
     t_algorithm := ""; t_gossipCoverage := None |}.

Example crowded_on_doubles :
  let g := globalLayout (N := number) by_length (buildTopologyView by_length (Some crowded)) false in
  (map (λ k, (λ p, (toFixed 2 (px p), toFixed 2 (py p))) <$> pl_positions g.1 !! k) ["a"; "b"; "c"; "d"; "e"; "r"],
   map (toFixed 0) [b_x g.2; b_y g.2; b_w g.2; b_h g.2])
  = ([Some ("298.00", "84.00"); Some ("112.00", "234.00"); Some ("236.00", "234.00"); Some ("360.00", "234.00");
      Some ("484.00", "234.00"); Some ("114.80", "598.00")],
     ["-72"; "-72"; "740"; "862"])%string.
Proof. vm_compute. reflexivity. Qed.
