(* ===== verification/ModelManager.v ===== *)
(** [components/WhisperManager.jsx] and the model requests of
    [services/whisperService.js]: the captioning model is downloaded to the node and
    removed again; the page follows the download.

    Two pollers follow one download: the interval [downloadWhisperModel] runs until
    a terminal state, and the page's own hook while [downloading].  Neither waits for
    its last request, so answers arrive in any number and order. *)
From S2P Require Import Prelude VisibleInterval.
Open Scope js_scope.

(** ** The service *)

Record whisper_status := mk_status {
  available : bool; state : string; s_progress : option Z; s_error : string
}.

(** What a request came back with: nothing when it threw, else [resp.ok] and the
    body when it is JSON. *)
Abbreviation reply A := (option (bool * option A)).

Definition unavailable : whisper_status := mk_status false "idle" (Some 0%Z) "".

Definition checkWhisperAvailable (r : reply whisper_status) : whisper_status :=
  match r with Some (true, Some s) => s | _ => unavailable end.

Definition removeWhisperModel (r : reply unit) : bool :=
  match r with Some (ok, _) => ok | None => false end.

Definition or_text (a d : string) : string := if decide (a = "") then d else a.

Inductive callback := OnProgress (pct : Z) | OnError (msg : string).

(** A call of [downloadWhisperModel]: the interval of its promise, the requests of
    the interval that are on their way, and what the promise resolved to. *)
Record download := mk_download { interval_on : bool; inflight : nat; result : option bool }.

Inductive post_reply :=
| Threw (message : string)
| Refused (code : Z) (error : option string)
| Accepted.

Definition downloadWhisperModel (r : post_reply) : download * list callback :=
  match r with
  | Threw message => (mk_download false 0 (Some false), [OnError message])
  | Refused code error =>
      (mk_download false 0 (Some false),
       [OnError (or_text (error ?? "") ("HTTP " ++ pretty code)%string)])
  | Accepted => (mk_download true 0 None, [])
  end.

(** The interval fires. *)
Definition download_tick (d : download) : download :=
  mk_download (interval_on d) (S (inflight d)) (result d).

(** [resolve]: only the first one counts. *)
Definition resolve (b : bool) (d : download) : download :=
  mk_download false (pred (inflight d)) (Some (result d ?? b)).

(** An answer of the interval's request. *)
Definition download_answer (r : reply whisper_status) (d : download) : download * list callback :=
  match r with
  | Some (true, Some s) =>
      let progress := OnProgress (s_progress s ?? 0%Z) in
      if decide (state s = "ready") then (resolve true d, [progress])
      else if decide (state s = "error") then
        (resolve false d, [progress; OnError (or_text (s_error s) "Download failed")])
      else (mk_download (interval_on d) (pred (inflight d)) (result d), [progress])
  | _ => (mk_download (interval_on d) (pred (inflight d)) (result d), [])
  end.

(** ** The page *)

(** [posts] are the requests that start a download, [downloads] the calls in their
    polling part; [fetches], [polls] and [removals] the other requests on their
    way. *)
Record manager := mk_manager {
  status : option whisper_status;
  downloading : bool;
  progress : Z;
  error : option string;
  removing : bool;
  hook : visible_interval unit;
  visible : bool;
  fetches : nat;
  polls : nat;
  posts : nat;
  removals : nat;
  downloads : list download
}.

Definition set_ui (st : option whisper_status) (dl : bool) (pr : Z) (err : option string) (rm : bool)
    (p : manager) : manager :=
  mk_manager st dl pr err rm (hook p) (visible p) (fetches p) (polls p) (posts p) (removals p) (downloads p).

Definition set_calls (f po ps rm : nat) (ds : list download) (p : manager) : manager :=
  mk_manager (status p) (downloading p) (progress p) (error p) (removing p) (hook p) (visible p) f po ps rm ds.

Definition poll_ms (p : manager) : Z := if downloading p then 1000 else 0.

(** The hook's effect after a render; every tick calls [pollDownload]. *)
Definition hook_effect (was : bool) (p : manager) : manager :=
  if Bool.eqb was (downloading p) then p
  else
    let (h, ticks) := rerun tt (poll_ms p) (visible p) (hook p) in
    mk_manager (status p) (downloading p) (progress p) (error p) (removing p) h (visible p) (fetches p)
      (polls p + length ticks) (posts p) (removals p) (downloads p).

Definition fetchStatus (p : manager) : manager :=
  set_calls (S (fetches p)) (polls p) (posts p) (removals p) (downloads p) p.

(** Mounting: the hook does not poll yet, and the status is fetched. *)
Definition WhisperManager (vis : bool) : manager :=
  fetchStatus
    (mk_manager None false 0 None false (interval_effect 0 vis (useVisibleInterval tt)).1 vis 0 0 0 0 []).

Definition failure (s : whisper_status) : option string := Some (or_text (s_error s) "Download failed").

(** The continuation of [fetchStatus]. *)
Definition status_fetched (r : reply whisper_status) (p : manager) : manager :=
  let s := checkWhisperAvailable r in
  let p := set_calls (pred (fetches p)) (polls p) (posts p) (removals p) (downloads p) p in
  if decide (state s = "downloading") then set_ui (Some s) true (s_progress s ?? 0%Z) (error p) (removing p) p
  else if decide (state s = "error") then set_ui (Some s) false (progress p) (failure s) (removing p) p
  else set_ui (Some s) false (progress p) (error p) (removing p) p.

(** The continuation of [pollDownload]. *)
Definition poll_answered (r : reply whisper_status) (p : manager) : manager :=
  let s := checkWhisperAvailable r in
  let p := set_calls (fetches p) (pred (polls p)) (posts p) (removals p) (downloads p) p in
  let pct := s_progress s ?? 0%Z in
  if decide (state s = "ready") then set_ui (Some s) false pct (error p) (removing p) p
  else if decide (state s = "error") then set_ui (Some s) false pct (failure s) (removing p) p
  else set_ui (Some s) (downloading p) pct (error p) (removing p) p.

Definition handleDownload (p : manager) : manager :=
  set_ui (status p) true 0 None (removing p)
    (set_calls (fetches p) (polls p) (S (posts p)) (removals p) (downloads p) p).

Definition called_back (p : manager) (c : callback) : manager :=
  match c with
  | OnProgress pct => set_ui (status p) (downloading p) pct (error p) (removing p) p
  | OnError msg => set_ui (status p) (downloading p) (progress p) (Some msg) (removing p) p
  end.

(** The rest of [handleDownload] once the promise has its value. *)
Definition download_over (ok : bool) (p : manager) : manager :=
  let p := set_ui (status p) false (progress p) (error p) (removing p) p in
  if ok then fetchStatus p else p.

Definition continue (was now : option bool) (p : manager) : manager :=
  match was, now with None, Some ok => download_over ok p | _, _ => p end.

Definition post_answered (r : post_reply) (p : manager) : manager :=
  let (d, cs) := downloadWhisperModel r in
  let p := set_calls (fetches p) (polls p) (pred (posts p)) (removals p) (downloads p ++ [d]) p in
  continue None (result d) (foldl called_back p cs).

Definition interval_fires (i : nat) (p : manager) : manager :=
  set_calls (fetches p) (polls p) (posts p) (removals p) (alter download_tick i (downloads p)) p.

Definition interval_answered (i : nat) (r : reply whisper_status) (p : manager) : manager :=
  match downloads p !! i with
  | None => p
  | Some d =>
      let (d', cs) := download_answer r d in
      let p := set_calls (fetches p) (polls p) (posts p) (removals p) (<[i := d']> (downloads p)) p in
      continue (result d) (result d') (foldl called_back p cs)
  end.

Definition handleRemove (p : manager) : manager :=
  set_ui (status p) (downloading p) (progress p) None true
    (set_calls (fetches p) (polls p) (posts p) (S (removals p)) (downloads p) p).

Definition removed (r : reply unit) (p : manager) : manager :=
  let p := set_calls (fetches p) (polls p) (posts p) (pred (removals p)) (downloads p) p in
  let err := if removeWhisperModel r then error p else Some "Failed to remove whisper files" in
  fetchStatus (set_ui (status p) (downloading p) (progress p) err false p).

Definition visibility (vis : bool) (p : manager) : manager :=
  let (h, ticks) := visibilitychange vis (hook p) in
  mk_manager (status p) (downloading p) (progress p) (error p) (removing p) h vis (fetches p)
    (polls p + length ticks) (posts p) (removals p) (downloads p).

(** [setInterval] of the hook. *)
Definition hook_fires (p : manager) : manager :=
  set_calls (fetches p) (polls p + length (tick (hook p))) (posts p) (removals p) (downloads p) p.

(** ** What is offered *)

Definition has_model (p : manager) : bool := (available <$> status p) ?? false.
Definition failed (p : manager) : bool := negb (bool_decide ((error p ?? "") = "")).

Inductive control := DownloadModel | Progress | RetryDownload | RemoveModel (disabled : bool).
#[export] Instance control_eq_dec : EqDecision control.
Proof. solve_decision. Defined.

Definition controls (p : manager) : list control :=
  (if negb (has_model p) && negb (downloading p) && negb (failed p) then [DownloadModel] else [])
  ++ (if downloading p then [Progress] else [])
  ++ (if failed p && negb (downloading p) then [RetryDownload] else [])
  ++ (if has_model p then [RemoveModel (removing p)] else []).

Inductive manager_event :=
| StatusFetched (r : reply whisper_status) | PollAnswered (r : reply whisper_status)
| Download | PostAnswered (r : post_reply) | IntervalFires (i : nat)
| IntervalAnswered (i : nat) (r : reply whisper_status)
| Remove | Removed (r : reply unit) | Visibility (vis : bool) | HookFires.

Definition manager_enabled (e : manager_event) (p : manager) : Prop :=
  match e with
  | StatusFetched _ => 0 < fetches p
  | PollAnswered _ => 0 < polls p
  | Download => DownloadModel ∈ controls p ∨ RetryDownload ∈ controls p
  | PostAnswered _ => 0 < posts p
  | IntervalFires i => ∃ d, downloads p !! i = Some d ∧ interval_on d = true
  | IntervalAnswered i _ => ∃ d, downloads p !! i = Some d ∧ 0 < inflight d
  | Remove => RemoveModel false ∈ controls p
  | Removed _ => 0 < removals p
  | Visibility _ => True
  | HookFires => intervals (hook p) ≠ ∅
  end.

Definition manager_handle (e : manager_event) (p : manager) : manager :=
  match e with
  | StatusFetched r => status_fetched r p
  | PollAnswered r => poll_answered r p
  | Download => handleDownload p
  | PostAnswered r => post_answered r p
  | IntervalFires i => interval_fires i p
  | IntervalAnswered i r => interval_answered i r p
  | Remove => handleRemove p
  | Removed r => removed r p
  | Visibility vis => visibility vis p
  | HookFires => hook_fires p
  end.

(** A handler, then the effect of the render it caused. *)
Definition manager_fire (e : manager_event) (p : manager) : manager :=
  hook_effect (downloading p) (manager_handle e p).

Definition manager_step (p p' : manager) : Prop := ∃ e, manager_enabled e p ∧ p' = manager_fire e p.
Definition manager_reachable (vis : bool) : manager → Prop := rtc manager_step (WhisperManager vis).

(** ** The promise of a download *)

Definition terminal (r : reply whisper_status) : option bool :=
  match r with
  | Some (true, Some s) =>
      if decide (state s = "ready") then Some true
      else if decide (state s = "error") then Some false else None
  | _ => None
  end.

(** What happens to one call: the interval fires, or an answer arrives. *)
Definition download_step (d : download) (e : option (reply whisper_status)) : download :=
  match e with None => download_tick d | Some r => (download_answer r d).1 end.

Definition outcome (e : option (reply whisper_status)) : option bool := e ≫= terminal.

Lemma answer_fields r d :
  result (download_answer r d).1 = match result d with Some b => Some b | None => terminal r end
  ∧ interval_on (download_answer r d).1 = (if terminal r then false else interval_on d).
Proof.
  unfold download_answer, terminal, resolve. destruct r as [[[] [s|]]|]; repeat case_decide; cbn;
    by destruct (result d).
Qed.

Lemma download_step_fields d e :
  result (download_step d e) = match result d with Some b => Some b | None => outcome e end
  ∧ interval_on (download_step d e) = (if outcome e then false else interval_on d).
Proof. destruct e as [r|]; [apply answer_fields|]. cbn. by destruct (result d). Qed.

(** Whatever answers arrive, lost or out of order, the promise has the value of
    the first terminal one, and its interval runs exactly until then. *)
Theorem download_outcome es :
  let d := foldl download_step (downloadWhisperModel Accepted).1 es in
  result d = head (omap outcome es) ∧ (interval_on d = true ↔ result d = None).
Proof.
  enough (∀ d, (interval_on d = true ↔ result d = None) →
    result (foldl download_step d es)
      = match result d with Some b => Some b | None => head (omap outcome es) end
    ∧ (interval_on (foldl download_step d es) = true ↔ result (foldl download_step d es) = None)) as H
    by by apply (H (mk_download true 0 None)).
  induction es as [|e es IH]; intros d Hd; [cbn; split; [by destruct (result d)|done]|].
  destruct (download_step_fields d e) as [Hr Hi]. cbn [foldl].
  destruct (IH (download_step d e)) as [H1 H2].
  { rewrite Hr, Hi. destruct (result d), (outcome e); naive_solver. }
  split; [|done]. rewrite H1, Hr. cbn [omap list_omap].
  by destruct (result d), (outcome e).
Qed.

(** ** The invariant of the page *)

Definition download_ok (d : download) : Prop := interval_on d = true ↔ result d = None.

Record manager_inv (p : manager) : Prop := {
  mi_hook : hook_ok (poll_ms p) (visible p) (hook p);
  mi_downloads : Forall download_ok (downloads p);
  mi_removing : removals p = (if removing p then 1 else 0)
}.

(** What a handler keeps; the hook is brought up to date afterwards. *)
Record handled_from (dl : bool) (p : manager) : Prop := {
  hf_hook : hook_ok (if dl then 1000 else 0) (visible p) (hook p);
  hf_downloads : Forall download_ok (downloads p);
  hf_removing : removals p = (if removing p then 1 else 0)
}.

Lemma hook_effect_inv dl p : handled_from dl p → manager_inv (hook_effect dl p).
Proof.
  intros [Hh Hd Hr]. unfold hook_effect. destruct (Bool.eqb dl (downloading p)) eqn:E.
  - apply Bool.eqb_prop in E. subst. by split.
  - destruct (rerun_ok tt _ (poll_ms p) _ _ Hh) as (H & _ & _).
    destruct (rerun tt (poll_ms p) (visible p) (hook p)) as [h ticks]. by split.
Qed.

Lemma called_back_handled dl cs p : handled_from dl p → handled_from dl (foldl called_back p cs).
Proof. apply foldl_inv. intros q c [? ? ?]. by destruct c. Qed.

Lemma continue_handled dl was now p : handled_from dl p → handled_from dl (continue was now p).
Proof. intros [? ? ?]. by destruct was, now as [[]|]. Qed.

Lemma post_handled dl r p : handled_from dl p → handled_from dl (post_answered r p).
Proof.
  intros [Hh Hd Hr]. unfold post_answered.
  assert (download_ok (downloadWhisperModel r).1) as Hok by by destruct r.
  destruct (downloadWhisperModel r) as [d cs]. apply continue_handled, called_back_handled.
  split; try done. by apply Forall_app_2; [|constructor].
Qed.

Lemma answer_handled dl i r p : handled_from dl p → handled_from dl (interval_answered i r p).
Proof.
  intros [Hh Hd Hr]. unfold interval_answered. destruct (downloads p !! i) as [d|] eqn:Hi; [|by split].
  assert (download_ok d) as Hok by (by eapply Forall_lookup_1).
  assert (download_ok (download_answer r d).1) as Hok'.
  { destruct (answer_fields r d) as [E1 E2]. unfold download_ok in *. rewrite E1, E2.
    destruct (result d), (terminal r); naive_solver. }
  destruct (download_answer r d) as [d' cs]. apply continue_handled, called_back_handled.
  split; try done. by apply Forall_insert.
Qed.

Lemma manager_handle_ok e p :
  manager_enabled e p → manager_inv p → handled_from (downloading p) (manager_handle e p).
Proof.
  intros He [Hh Hd Hr]. assert (handled_from (downloading p) p) as Hp by by split.
  destruct e; cbn [manager_handle manager_enabled] in *.
  - unfold status_fetched. by repeat case_decide.
  - unfold poll_answered. by repeat case_decide.
  - done.
  - by apply post_handled.
  - split; try done. apply Forall_alter; [done|]. intros d Hi. intros _. exact (Forall_lookup_1 _ _ _ _ Hd Hi).
  - by apply answer_handled.
  - split; try done. cbn. unfold controls in He. rewrite Hr. destruct (removing p); [|done].
    exfalso. revert He. destruct (has_model p), (downloading p), (failed p); cbn; set_solver.
  - split; try done. cbn. rewrite Hr. by destruct (removing p).
  - unfold visibility. destruct (visibilitychange_ok _ _ vis _ Hh) as (H & _ & _).
    destruct (visibilitychange vis (hook p)) as [h ticks]. by split.
  - done.
Qed.

Lemma manager_reachable_inv vis p : manager_reachable vis p → manager_inv p.
Proof.
  revert p. apply rtc_ind_r.
  - split; [|constructor|done]. apply (useVisibleInterval_ok tt 0 vis).
  - intros p p' _ (e & He & ->) Hp. by apply hook_effect_inv, manager_handle_ok.
Qed.

Lemma hook_ok_intervals ms vis (h : visible_interval unit) :
  hook_ok ms vis h → (intervals h ≠ ∅ ↔ (0 < ms)%Z ∧ vis = true).
Proof.
  intros [Hoff Hv Hh]. destruct (decide (0 < ms)%Z) as [Hms|Hms].
  - destruct vis.
    + destruct (Hv Hms eq_refl) as (i & _ & -> & _). split; [done|]. intros _. apply map_non_empty_singleton.
    + destruct (Hh Hms eq_refl) as (_ & -> & _). naive_solver.
  - destruct (Hoff ltac:(lia)) as (_ & -> & _). naive_solver.
Qed.

Lemma manager_intervals p :
  manager_inv p → (intervals (hook p) ≠ ∅ ↔ downloading p = true ∧ visible p = true).
Proof.
  intros Hp. rewrite (hook_ok_intervals _ _ _ (mi_hook _ Hp)). unfold poll_ms.
  by destruct (downloading p); split; intros [? ?].
Qed.

Lemma not_downloading_idle p : manager_inv p → downloading p = false → intervals (hook p) = ∅.
Proof.
  intros Hp Hd. destruct (decide (intervals (hook p) = ∅)) as [|Hne]; [done|].
  apply manager_intervals in Hne; [|done]. rewrite Hd in Hne. by destruct Hne.
Qed.

(** The effect after a handler changes the hook and its polls only. *)
Lemma hook_effect_ui was p :
  downloading (hook_effect was p) = downloading p ∧ error (hook_effect was p) = error p
  ∧ fetches (hook_effect was p) = fetches p.
Proof. unfold hook_effect. case_match; [done|]. by destruct (rerun _ _ _ _). Qed.

Lemma terminal_false r : terminal r = Some false → ∃ s, r = Some (true, Some s) ∧ state s = "error".
Proof. destruct r as [[[] [s|]]|]; cbn; try done. repeat case_decide; naive_solver. Qed.

Lemma poll_ends r b p :
  terminal r = Some b →
  downloading (poll_answered r p) = false
  ∧ (b = false → ∃ s, r = Some (true, Some s) ∧ error (poll_answered r p) = failure s).
Proof.
  intros Ht. destruct r as [[[] [s|]]|]; try done. unfold poll_answered. cbn [checkWhisperAvailable].
  cbn in Ht. repeat case_decide; try done; naive_solver.
Qed.

Lemma answer_ends i r b d p :
  downloads p !! i = Some d → result d = None → terminal r = Some b →
  let q := interval_answered i r p in
  downloading q = false ∧ fetches q = fetches p + (if b then 1 else 0)
  ∧ (b = false → ∃ s, r = Some (true, Some s) ∧ error q = failure s).
Proof.
  intros Hi Hd Ht. destruct r as [[[] [s|]]|]; try done. unfold interval_answered. rewrite Hi.
  cbn in Ht |- *. repeat case_decide; try done; injection Ht as <-; cbn; rewrite Hd; cbn;
    (split_and!; [done|lia|]); naive_solver.
Qed.

(** C36: the two pollers of the model page.  In every reachable state the page's own
    hook polls exactly while it shows a download and is visible, every call that
    has not resolved still has its interval, at most one removal is on its way and
    exactly then the button is disabled; and a terminal answer to either poller
    ends the download on the page, with a message when it failed, and stops the
    hook. *)
Theorem model_download vis p :
  manager_reachable vis p →
  (intervals (hook p) ≠ ∅ ↔ downloading p = true ∧ visible p = true)
  ∧ (∀ d, d ∈ downloads p → interval_on d = true ↔ result d = None)
  ∧ (removals p <= 1 ∧ (removing p = true ↔ removals p = 1))
  ∧ (∀ r b, 0 < polls p → terminal r = Some b →
       let q := manager_fire (PollAnswered r) p in
       downloading q = false ∧ intervals (hook q) = ∅
       ∧ (b = false → ∃ s, r = Some (true, Some s) ∧ error q = failure s))
  ∧ (∀ i r b d, downloads p !! i = Some d → 0 < inflight d → result d = None → terminal r = Some b →
       let q := manager_fire (IntervalAnswered i r) p in
       downloading q = false ∧ intervals (hook q) = ∅ ∧ fetches q = fetches p + (if b then 1 else 0)
       ∧ (b = false → ∃ s, r = Some (true, Some s) ∧ error q = failure s)).
Proof.
  intros Hr. pose proof (manager_reachable_inv _ _ Hr) as Hp.
  assert (∀ e, manager_enabled e p → manager_inv (manager_fire e p)) as Hq
    by (intros e He; by apply hook_effect_inv, manager_handle_ok).
  split_and!.
  - by apply manager_intervals.
  - apply Forall_forall, Hp.
  - rewrite (mi_removing _ Hp). destruct (removing p); lia.
  - rewrite (mi_removing _ Hp). by destruct (removing p).
  - intros r b Hpo Ht q. destruct (poll_ends r b p Ht) as [H1 H2].
    destruct (hook_effect_ui (downloading p) (poll_answered r p)) as (E1 & E2 & _).
    split_and!; [exact (eq_trans E1 H1)|apply not_downloading_idle; [by apply Hq|exact (eq_trans E1 H1)]|].
    intros Hb. destruct (H2 Hb) as (s & ? & He). exists s. split; [done|exact (eq_trans E2 He)].
  - intros i r b d Hi Hf Hn Ht q. destruct (answer_ends i r b d p Hi Hn Ht) as (H1 & H2 & H3).
    destruct (hook_effect_ui (downloading p) (interval_answered i r p)) as (E1 & E2 & E3).
    split_and!; [exact (eq_trans E1 H1)|apply not_downloading_idle; [apply Hq; by exists d|exact (eq_trans E1 H1)]
      |exact (eq_trans E3 H2)|].
    intros Hb. destruct (H3 Hb) as (s & ? & He). exists s. split; [done|exact (eq_trans E2 He)].
Qed.

Theorem model_download_witness :
  let accepted := foldl (λ p e, manager_fire e p) (WhisperManager true)
    [StatusFetched None; Download; PostAnswered Accepted; IntervalFires 0] in
  let q := manager_fire (IntervalAnswered 0 (Some (true, Some (mk_status true "ready" (Some 100%Z) "")))) accepted in
  downloading q = false ∧ intervals (hook q) = ∅ ∧ fetches q = 1.
Proof.
  intros accepted q.
  assert (manager_reachable true accepted) as Hr.
  { unfold accepted. cbn [foldl].
    eapply rtc_l; [exists (StatusFetched None); split; [apply Nat.ltb_lt; reflexivity|reflexivity]|].
    eapply rtc_l; [exists Download; split; [left; exact (list_elem_of_here DownloadModel [])|reflexivity]|].
    eapply rtc_l; [exists (PostAnswered Accepted); split; [apply Nat.ltb_lt; reflexivity|reflexivity]|].
    eapply rtc_l; [exists (IntervalFires 0); split; [eexists; split; reflexivity|reflexivity]|]. apply rtc_refl. }
  destruct (proj2 (proj2 (proj2 (proj2 (model_download true accepted Hr)))) 0
    (Some (true, Some (mk_status true "ready" (Some 100%Z) ""))) true (mk_download true 1 None))
    as (H1 & H2 & H3 & _); [vm_compute; reflexivity|cbn; lia|reflexivity|reflexivity|].
  split_and!; [exact H1|exact H2|]. exact H3.
Defined.

(** Something can always be done: a download is offered, shown or retried, or the
    model removed; and no second download is offered while one is shown. *)
Theorem controls_offered p :
  controls p ≠ []
  ∧ (downloading p = true → DownloadModel ∉ controls p ∧ RetryDownload ∉ controls p)
  ∧ (Progress ∈ controls p ↔ downloading p = true)
  ∧ (∀ b, RemoveModel b ∈ controls p ↔ has_model p = true ∧ b = removing p).
Proof. unfold controls. destruct (has_model p), (downloading p), (failed p); cbn; split_and!; set_solver. Qed.

(** A daemon that forgot the download (a restart answers "idle") is never
    believed: no number of such answers ends the download on the page. *)
Theorem idle_answers_keep_downloading rs p :
  downloading p = true → Forall (λ r, terminal r = None) rs →
  downloading (foldl (λ p r, manager_fire (PollAnswered r) p) p rs) = true.
Proof.
  revert p. induction rs as [|r rs IH]; intros p Hd Hrs; [done|]. apply Forall_cons in Hrs as [Hr Hrs].
  apply IH; [|done]. destruct (hook_effect_ui (downloading p) (poll_answered r p)) as (E & _ & _).
  change (downloading (hook_effect (downloading p) (poll_answered r p)) = true). rewrite E.
  unfold poll_answered. destruct r as [[[] [s|]]|]; cbn [checkWhisperAvailable] in *; try done.
  cbn in Hr. by repeat case_decide.
Qed.

(** A node that is already downloading refuses a second request; the page then shows
    a failure and stops following the download that runs. *)
Theorem refused_stops_following p e :
  downloading (post_answered (Refused 409 (Some e)) p) = false.
Proof. reflexivity. Qed.

(** The status fetched on mounting, if it arrives after the operator asked for a
    download, takes the page out of it: a second download can be started. *)
Theorem mount_fetch_ends_download :
  let p := foldl (λ p e, manager_fire e p) (WhisperManager true) [Download; StatusFetched None] in
  downloading p = false ∧ posts p = 1 ∧ DownloadModel ∈ controls p.
Proof. split_and!; [reflexivity|reflexivity|exact (list_elem_of_here DownloadModel [])]. Qed.

(** After a failed removal the page offers to download the model again. *)
Theorem failed_removal_offers_download p :
  downloading p = false → RetryDownload ∈ controls (removed None p).
Proof. intros Hd. unfold controls, failed. cbn. rewrite Hd. set_solver. Qed.
