(* ===== verification/WhisperInit.v ===== *)
(** [services/whisperService.js]: [initWhisper], which loads the captioning model
    into the WASM module, and its cache in IndexedDB.

    What the browser, the daemon and the WASM module answer is a record; a model
    is its bytes [M].  Debug messages are left out. *)
From S2P Require Import Prelude ModelManager.
Open Scope js_scope.

Section init.
Context {M : Type}.

(** *** The cache *)

(** What [loadFromIDB] meets: the database does not open, starting the
    transaction throws, the read fails, or what is stored. *)
Inductive idb_read := OpenFails | TxThrows (msg : string) | GetFails | Got (v : option M).

(** The promise of [loadFromIDB]: its value or its rejection. The inner promise is
    returned, not awaited, so what its executor throws passes the [catch]. *)
Definition loadFromIDB (r : idb_read) : option M + string :=
  match r with
  | OpenFails | GetFails => inl None
  | TxThrows msg => inr msg
  | Got v => inl v
  end.

(** [saveToIDB]: [cache] afterwards; it never rejects. *)
Definition saveToIDB (works : bool) (data : M) (cache : option M) : option M :=
  if works then Some data else cache.

(** *** The world *)

(** When the promise [Module._runtimeReady] settles, in ms. *)
Inductive runtime := NoPromise | ReadyAt (t : Z) | FailsAt (t : Z) (msg : string) | Hangs.

Inductive model_fetch := HttpError (status : Z) | NetworkError (msg : string) | Model (data : M).

Record world := {
  module_loaded : bool;                  (* typeof Module !== 'undefined' *)
  runtime_ready : runtime;
  has_createDataFile : bool;
  idb_answer : idb_read;
  idb_writes : bool;
  server_status : reply whisper_status;
  download_answer_ : model_fetch;
  write_error : option string;           (* FS_createDataFile throws *)
  init_result : option Z + string        (* Module.init: an instance, none, or throws *)
}.

(** What [initWhisper] has done. *)
Record init_run := mk_run {
  statuses : list string;
  log_lines : list (string * string);
  asked : bool;                          (* the status request *)
  fetched : bool;                        (* the request for the model *)
  stored_model : option M;               (* put in the cache *)
  written : option M;                    (* whisper.bin *)
  instance : option Z                    (* whisperInstance; whisperReady when set *)
}.

Definition run0 : init_run := mk_run [] [] false false None None None.

Definition onStatus (msg : string) (r : init_run) : init_run :=
  mk_run (statuses r ++ [msg]) (log_lines r) (asked r) (fetched r) (stored_model r) (written r) (instance r).
Definition log (msg cls : string) (r : init_run) : init_run :=
  mk_run (statuses r) (log_lines r ++ [(msg, cls)]) (asked r) (fetched r) (stored_model r) (written r) (instance r).
Definition note_requests (a f : bool) (r : init_run) : init_run :=
  mk_run (statuses r) (log_lines r) (asked r || a) (fetched r || f) (stored_model r) (written r) (instance r).
Definition put_model (s w : option M) (r : init_run) : init_run :=
  mk_run (statuses r) (log_lines r) (asked r) (fetched r)
    (if s is Some _ then s else stored_model r) (if w is Some _ then w else written r) (instance r).
Definition set_instance (i : Z) (r : init_run) : init_run :=
  mk_run (statuses r) (log_lines r) (asked r) (fetched r) (stored_model r) (written r) (Some i).

(** [onStatus(s); _onLog(l, 'err'); return false]. *)
Definition give_up_ (s l : string) (r : init_run) : init_run * bool := (log l "err" (onStatus s r), false).

(** The [catch] around it all. *)
Definition caught (msg : string) (r : init_run) : init_run * bool :=
  give_up_ ("Failed: " ++ msg) ("Whisper error: " ++ msg) r.

Definition RUNTIME_TIMEOUT : Z := 10000.

Definition TIMEOUT_MESSAGE : string :=
  "WASM runtime init timed out (10s) — whisper files may not be deployed".

(** [Promise.race([Module._runtimeReady, timeout])]: [None] when the runtime wins. *)
Definition race (rt : runtime) : option string :=
  match rt with
  | NoPromise => None
  | ReadyAt t => if (t <? RUNTIME_TIMEOUT)%Z then None else Some TIMEOUT_MESSAGE
  | FailsAt t msg => if (t <? RUNTIME_TIMEOUT)%Z then Some msg else Some TIMEOUT_MESSAGE
  | Hangs => Some TIMEOUT_MESSAGE
  end.

(** Writing the model and starting the instance. *)
Definition start_instance (w : world) (data : M) (r : init_run) : init_run * bool :=
  match write_error w with
  | Some msg => caught msg r
  | None =>
      let r := put_model None (Some data) r in
      match init_result w with
      | inr msg => caught msg r
      | inl None => caught "Module.init returned null/0" r
      | inl (Some i) =>
          (log "Whisper initialized" "info"
             (onStatus "Whisper ready — listening on all channels" (set_instance i r)), true)
      end
  end.

(** The model is not in the cache. *)
Definition fetch_model (w : world) (r : init_run) : init_run * bool :=
  let r := note_requests true false r in
  if negb (available (checkWhisperAvailable (server_status w))) then
    give_up_ "Whisper model not downloaded — go to Settings to download"
      "Whisper model not available. Download it from the Settings page." r
  else
    let r := note_requests false true (onStatus "Downloading model from server..." r) in
    match download_answer_ w with
    | NetworkError msg => caught msg r
    | HttpError status => caught ("Failed to fetch model: HTTP " ++ pretty status) r
    | Model data =>
        start_instance w data
          (log "Model cached in browser" "info" (put_model (saveToIDB (idb_writes w) data None) None r))
    end.

Definition obtain_model (w : world) (r : init_run) : init_run * bool :=
  match loadFromIDB (idb_answer w) with
  | inr msg => caught msg r
  | inl None => fetch_model w r
  | inl (Some data) => start_instance w data (log "Model loaded from cache" "info" r)
  end.

Definition initWhisper (w : world) : init_run * bool :=
  let r := log "Loading Whisper model..." "info" (onStatus "Loading Whisper model (75 MB)..." run0) in
  if negb (module_loaded w) then
    give_up_ "Whisper WASM not loaded"
      "Whisper WASM script not loaded — check that whisper-main.js is deployed" r
  else
    let r := match runtime_ready w with NoPromise => r | _ => onStatus "Initializing WASM runtime..." r end in
    match race (runtime_ready w) with
    | Some msg =>
        give_up_ ("Failed: " ++ msg)
          "Whisper WASM init timeout — ensure whisper-main.js and .wasm are deployed at /whisper/" r
    | None =>
        if negb (has_createDataFile w) then
          give_up_ "Whisper WASM failed to initialize"
            "Whisper WASM failed — FS_createDataFile not available (SharedArrayBuffer required)" r
        else obtain_model w r
    end.

(** The model a run ends up with: the cached one, or the daemon's. *)
Definition model_of (w : world) : option M :=
  match loadFromIDB (idb_answer w) with
  | inr _ => None
  | inl (Some data) => Some data
  | inl None =>
      if available (checkWhisperAvailable (server_status w))
      then match download_answer_ w with Model data => Some data | _ => None end else None
  end.

(** The WASM module is there and accepts the model. *)
Definition module_works (w : world) : Prop :=
  module_loaded w = true ∧ race (runtime_ready w) = None ∧ has_createDataFile w = true
  ∧ write_error w = None ∧ ∃ i, init_result w = inl (Some i).

(** How a run that returned [ok] must have reported. *)
Definition reported (x : init_run * bool) : Prop :=
  if x.2 then last (statuses x.1) = Some "Whisper ready — listening on all channels" ∧ instance x.1 ≠ None
  else ∃ s l, last (statuses x.1) = Some s ∧ s ≠ "Whisper ready — listening on all channels"
         ∧ last (log_lines x.1) = Some (l, "err") ∧ instance x.1 = None.

(** ** Lemmas *)

Lemma give_up_reported s l r :
  instance r = None → s ≠ "Whisper ready — listening on all channels" → reported (give_up_ s l r).
Proof.
  intros Hi Hs. exists s, l. unfold give_up_. simpl. rewrite !last_snoc. by split_and!.
Qed.

Lemma caught_reported msg r : instance r = None → reported (caught msg r).
Proof. intros Hi. by apply give_up_reported. Qed.

Lemma start_reported w data r : instance r = None → reported (start_instance w data r).
Proof.
  intros Hi. unfold start_instance. destruct (write_error w); [by apply caught_reported|].
  destruct (init_result w) as [[i|]|]; [|by apply caught_reported..].
  unfold reported. simpl. by rewrite last_snoc.
Qed.

Lemma start_result w data r :
  (start_instance w data r).2 = true ↔ write_error w = None ∧ ∃ i, init_result w = inl (Some i).
Proof.
  unfold start_instance. destruct (write_error w); simpl; [naive_solver|].
  destruct (init_result w) as [[i|]|]; simpl; naive_solver.
Qed.

Lemma start_requests w data r :
  let x := (start_instance w data r).1 in
  asked x = asked r ∧ fetched x = fetched r ∧ stored_model x = stored_model r.
Proof.
  unfold start_instance. destruct (write_error w); simpl; [done|].
  by destruct (init_result w) as [[i|]|].
Qed.

(** ** Properties *)

(** [initWhisper] never throws and always reports: it returns true exactly when
    the module works and a model was found, cached or at the daemon, and then the
    instance is there and the status says ready; otherwise there is no instance,
    the last status says what failed and an error is logged. *)
Theorem init_whisper (w : world) :
  reported (initWhisper w) ∧ ((initWhisper w).2 = true ↔ module_works w ∧ model_of w ≠ None).
Proof.
  unfold initWhisper, module_works, model_of.
  destruct (module_loaded w); simpl; [|split; [by apply give_up_reported|naive_solver]].
  set (r := match runtime_ready w with NoPromise => _ | _ => _ end).
  assert (instance r = None) as Hr by (unfold r; by destruct (runtime_ready w)).
  destruct (race (runtime_ready w)); simpl; [split; [by apply give_up_reported|naive_solver]|].
  destruct (has_createDataFile w); simpl; [|split; [by apply give_up_reported|naive_solver]].
  unfold obtain_model. destruct (loadFromIDB (idb_answer w)) as [[data|]|msg] eqn:Hidb.
  - split; [by apply start_reported|]. rewrite start_result. naive_solver.
  - unfold fetch_model. destruct (available _); simpl; [|split; [by apply give_up_reported|naive_solver]].
    destruct (download_answer_ w); [split; [by apply caught_reported|naive_solver]..|].
    split; [by apply start_reported|]. rewrite start_result. naive_solver.
  - split; [by apply caught_reported|]. naive_solver.
Qed.

(** The model is asked for only when the cache has none, and then it is cached: a
    second start that finds it there sends no request. *)
Theorem init_fetches_once (w w' : world) :
  fetched (initWhisper w).1 = true → (initWhisper w).2 = true → idb_writes w = true →
  idb_answer w' = Got (stored_model (initWhisper w).1) →
  loadFromIDB (idb_answer w) = inl None
  ∧ stored_model (initWhisper w).1 = model_of w
  ∧ asked (initWhisper w').1 = false ∧ fetched (initWhisper w').1 = false.
Proof.
  intros Hf Hok Hw Hc.
  assert (loadFromIDB (idb_answer w) = inl None ∧ stored_model (initWhisper w).1 = model_of w
    ∧ stored_model (initWhisper w).1 ≠ None) as (H1 & H2 & H3).
  { unfold initWhisper, model_of in *. destruct (module_loaded w); [|done]. simpl in *.
    destruct (race (runtime_ready w)); [done|]. destruct (has_createDataFile w); [|done]. simpl in *.
    set (r := match runtime_ready w with NoPromise => _ | _ => _ end) in *.
    assert (fetched r = false ∧ stored_model r = None) as [Hr1 Hr2] by (unfold r; by destruct (runtime_ready w)).
    unfold obtain_model in *. destruct (loadFromIDB (idb_answer w)) as [[data|]|msg].
    - destruct (start_requests w data (log "Model loaded from cache" "info" r)) as (_ & E & _).
      rewrite E in Hf. simpl in Hf. congruence.
    - split; [done|]. unfold fetch_model in *. destruct (available _); [|done]. simpl in *.
      destruct (download_answer_ w) as [| |data]; [done..|].
      match goal with |- context [start_instance w data ?x] => destruct (start_requests w data x) as (_ & _ & E) end.
      rewrite E. simpl. rewrite Hw. done.
    - simpl in Hf. congruence. }
  split; [done|]. split; [done|].
  destruct (stored_model (initWhisper w).1) as [data|]; [|done]. clear -Hc.
  unfold initWhisper. destruct (module_loaded w'); [|done]. simpl.
  destruct (runtime_ready w'), (race _); try done; (destruct (has_createDataFile w'); [|done]); simpl;
    unfold obtain_model; rewrite Hc; simpl;
    match goal with |- context [start_instance w' data ?x] => destruct (start_requests w' data x) as (E1 & E2 & _) end;
    rewrite E1, E2; done.
Qed.
End init.

(** ** Examples *)

Definition example_world (r : idb_read (M:=nat)) : world :=
  {| module_loaded := true; runtime_ready := ReadyAt 800; has_createDataFile := true; idb_answer := r;
     idb_writes := true; server_status := Some (true, Some (mk_status true "ready" (Some 100%Z) ""));
     download_answer_ := Model 75; write_error := None; init_result := inl (Some 1%Z) |}.

(** A cache whose transaction throws stops the captions although the daemon has
    the model. *)
Theorem broken_cache_stops_init :
  let w := example_world (TxThrows "NotFoundError") in
  (initWhisper w).2 = false ∧ last (statuses (initWhisper w).1) = Some "Failed: NotFoundError"
  ∧ (initWhisper (example_world OpenFails)).2 = true.
Proof. by vm_compute. Qed.

Theorem init_fetches_once_witness :
  fetched (initWhisper (example_world (Got None))).1 = true
  ∧ fetched (initWhisper (example_world (Got (Some 75)))).1 = false.
Proof.
  split; [reflexivity|].
  refine (proj2 (proj2 (proj2 (init_fetches_once (example_world (Got None)) (example_world (Got (Some 75))) _ _ _ _))));
    reflexivity.
Defined.
