(* ===== verification/DataTable.v ===== *)
(** [components/DataTable.jsx]: one column specification, rendered as a table and as
    a list of cards.  A cell is what [render] gives; [nat] indices are the [i] of
    [rows.map]. *)
From S2P Require Import Prelude.
Open Scope js_scope.

Section DataTable.
Context {row cell : Type}.

Record column := mk_column {
  key : string; label : string; className : option string; headerClass : option string;
  cellClass : option (row → string); render : row → cell
}.

(** [[col.className, dynamic].filter(Boolean).join(' ')] *)
Definition cellClassName (c : column) (r : row) : string :=
  let dynamic := match cellClass c with Some f => f r | None => "" end in
  String.concat " " (filter (λ s, s ≠ "") [className c ?? ""; dynamic]).

Record card := mk_card {
  card_key : string; card_title : string * cell; card_body : list (string * (string * cell))
}.

Inductive data_table :=
| EmptyTable (label : string)
| Table (head : list string) (body : list (string * list (string * cell))) (cards : list card).

Definition styled (r : row) (c : column) : string * cell := (cellClassName c r, render c r).

Definition titleCol (columns : list column) (first : column) (cardTitleKey : option string) : column :=
  List.find (λ c, bool_decide (key c = cardTitleKey ?? key first)) columns ?? first.

Definition make_card (rowKey : row → nat → string) (columns : list column) (title : column) (i : nat)
    (r : row) : card :=
  mk_card (rowKey r i) (styled r title)
    (map (λ c, (label c, styled r c)) (filter (λ c, key c ≠ key title) columns)).

(** [None] when [columns[0]] throws. *)
Definition dataTable (columns : list column) (rows : list row) (rowKey : row → nat → string)
    (emptyLabel : string) (cardTitleKey : option string) : option data_table :=
  match rows, columns with
  | [], _ => Some (EmptyTable emptyLabel)
  | _, [] => None
  | _, first :: _ =>
      Some (Table (map label columns)
        (imap (λ i r, (rowKey r i, map (styled r) columns)) rows)
        (imap (make_card rowKey columns (titleCol columns first cardTitleKey)) rows))
  end.

Lemma titleCol_in first columns k : titleCol (first :: columns) first k ∈ first :: columns.
Proof.
  unfold titleCol. destruct (List.find _ _) as [c|] eqn:E; cbn; [|by left].
  apply find_some in E as [Hin _]. by apply list_elem_of_In.
Qed.

Lemma title_split (columns : list column) c :
  NoDup (map key columns) → c ∈ columns →
  c :: filter (λ c', key c' ≠ key c) columns ≡ₚ columns.
Proof.
  intros Hn Hin. apply list_elem_of_split in Hin as (l1 & l2 & ->).
  rewrite map_app in Hn. cbn in Hn. apply NoDup_app in Hn as (_ & H1 & [H2 _]%NoDup_cons).
  rewrite filter_app, filter_cons_False by (intros H; by apply H).
  assert (∀ l, key c ∉ map key l → filter (λ c', key c' ≠ key c) l = l) as Hall.
  { intros l Hl. apply filter_all, Forall_forall. intros x Hx He. apply Hl. rewrite <- He.
    by apply list_elem_of_fmap_2. }
  rewrite !Hall; [by rewrite Permutation_middle|done|].
  intros Hk. apply (H1 _ Hk). by left.
Qed.

Lemma dataTable_eq columns first rows rowKey emptyLabel k :
  rows ≠ [] → hd_error columns = Some first →
  dataTable columns rows rowKey emptyLabel k
  = Some (Table (map label columns) (imap (λ i r, (rowKey r i, map (styled r) columns)) rows)
      (imap (make_card rowKey columns (titleCol columns first k)) rows)).
Proof. intros Hr Hc. destruct rows; [done|]. destruct columns; [done|]. by injection Hc as ->. Qed.

(** The two renderings agree: a card for every row of the table, in order and under
    the same key, with exactly the cells of the row, each under the label that
    heads its column, the title first. *)
Theorem cards_show_the_table columns rows rowKey emptyLabel k head body cards :
  NoDup (map key columns) →
  dataTable columns rows rowKey emptyLabel k = Some (Table head body cards) →
  map card_key cards = map fst body
  ∧ ∀ i c r, cards !! i = Some c → body !! i = Some r →
      ∃ title, (title, card_title c) :: card_body c ≡ₚ zip head r.2.
Proof.
  intros Hn Hd. destruct (decide (rows = [])) as [->|Hr]; [done|].
  destruct (hd_error columns) as [first|] eqn:Hf; [|by destruct columns, rows].
  rewrite (dataTable_eq _ first) in Hd by done. injection Hd as <- <- <-. split.
  { apply list_eq. intros i. rewrite !list_lookup_fmap, !list_lookup_imap. by destruct (rows !! i). }
  intros i c r Hc Hb. rewrite list_lookup_imap in Hc. rewrite list_lookup_imap in Hb.
  destruct (rows !! i) as [x|]; [|done]. injection Hc as <-. injection Hb as <-.
  set (t := titleCol columns first k). exists (label t). cbn [card_title card_body make_card snd].
  assert (zip (map label columns) (map (styled x) columns) = map (λ c, (label c, styled x c)) columns) as ->.
  { clear. induction columns as [|c l IH]; [done|]. cbn. by f_equal. }
  assert (t ∈ columns) as Ht by (destruct columns; [done|]; injection Hf as ->; apply titleCol_in).
  apply (Permutation_map (λ c, (label c, styled x c)) (title_split columns t Hn Ht)).
Qed.

(** With rows there are exactly as many cards; without, the label alone. *)
Theorem table_complete columns rows rowKey emptyLabel k :
  (rows = [] → dataTable columns rows rowKey emptyLabel k = Some (EmptyTable emptyLabel))
  ∧ (rows ≠ [] → columns ≠ [] → ∃ head body cards,
       dataTable columns rows rowKey emptyLabel k = Some (Table head body cards)
       ∧ length head = length columns ∧ length body = length rows ∧ length cards = length rows).
Proof.
  split; [by intros ->|]. intros Hr Hc. destruct rows as [|r rows]; [done|]. destruct columns as [|c cols]; [done|].
  eexists _, _, _. split; [reflexivity|]. by rewrite length_map, !length_imap.
Qed.
End DataTable.

Arguments column : clear implicits.
Arguments data_table : clear implicits.
