(* ===== verification/WidgetGrid.v ===== *)
(** [components/WidgetGrid.jsx]: the order and the widths of a page's widgets,
    dragging and resizing, and the copy in [localStorage].

    One pointer is at work at a time.  Widths are whole percents; the width under
    the pointer is the exact quotient rounded, where the code rounds a double. *)
From S2P Require Import Prelude.
From stdpp Require Import gmap strings.
Open Scope js_scope.

Definition MIN_WIDTH_PCT : Z := 20.
Definition MAX_WIDTH_PCT : Z := 100.
Definition DRAG_THRESHOLD : Z := 5.

Record widget := { w_id : string; defaultWidth : Z; minWidth : Z }.

(** [layout], and what is stored of it. *)
Record layout := mk_layout { order : list string; widths : gmap string Z }.

(** [localStorage]: the two keys of a page; [writable] is false when [setItem]
    throws. *)
Record store := { s_lock : option bool; s_layout : option layout; readable : bool; writable : bool }.

Section grid.
Context (widgetDefs : list widget).

Definition ids : list string := map w_id widgetDefs.

Definition default_widths : gmap string Z := list_to_map (map (λ w, (w_id w, defaultWidth w)) widgetDefs).

Definition defaults : layout := mk_layout ids default_widths.

(** The initial state of [locked]. *)
Definition load_lock (st : store) : bool :=
  if readable st then s_lock st ?? true else true.

(** The loop that appends the widgets that are missing. *)
Definition append_missing (l : list string) : list string :=
  foldl (λ l w, if bool_decide (w_id w ∈ l) then l else l ++ [w_id w]) l widgetDefs.

(** The initial state of [layout]. *)
Definition load_layout (st : store) : layout :=
  match (if readable st then s_layout st else None) with
  | Some saved =>
      mk_layout (append_missing (filter (λ id, id ∈ ids) (order saved))) (widths saved ∪ default_widths)
  | None => defaults
  end.

(** A pointer that is down: on a card, or on a resize handle.  The handlers close
    over the layout of the render in which it went down. *)
Inductive gesture :=
| Dragging (id : string) (x y : Z) (active : bool) (seen : layout)
| Resizing (id : string) (x startWidth containerWidth : Z) (seen : layout).

Record grid := mk_grid {
  locked : bool;
  lay : layout;
  isMobile : bool;
  dragId : option string;
  dragOverId : option string;            (* and dragOverRef *)
  pointer : option gesture;
  saved : store
}.

Definition WidgetGrid (st : store) : grid :=
  mk_grid (load_lock st) (load_layout st) false None None None st.

Definition set_pointer (d o : option string) (p : option gesture) (g : grid) : grid :=
  mk_grid (locked g) (lay g) (isMobile g) d o p (saved g).

Definition persist (next : layout) (g : grid) : grid :=
  mk_grid (locked g) next (isMobile g) (dragId g) (dragOverId g) (pointer g)
    (let st := saved g in
     if writable st
     then {| s_lock := s_lock st; s_layout := Some next; readable := readable st; writable := true |} else st).

Definition toggleLock (g : grid) : grid :=
  let next := negb (locked g) in
  mk_grid next (lay g) (isMobile g) (dragId g) (dragOverId g) (pointer g)
    (let st := saved g in
     if writable st
     then {| s_lock := Some next; s_layout := s_layout st; readable := readable st; writable := true |} else st).

Definition resetLayout (g : grid) : grid := persist defaults g.

Definition setOrder (seen : layout) (l : list string) (g : grid) : grid :=
  persist (mk_layout l (widths seen)) g.

(** [Math.round(a / b)] with [b] positive. *)
Definition round_div (a b : Z) : Z := ((2 * a + b) / (2 * b))%Z.

Definition clamp_width (id : string) (pct : Z) : Z :=
  let minW := match List.find (λ w, bool_decide (w_id w = id)) widgetDefs with
              | Some w => minWidth w | None => MIN_WIDTH_PCT end in
  Z.max minW (Z.min MAX_WIDTH_PCT pct).

Definition setWidth (seen : layout) (id : string) (pct : Z) (g : grid) : grid :=
  persist (mk_layout (order seen) (<[id := clamp_width id pct]> (widths seen))) g.

Definition getWidth (l : layout) (id : string) : Z := (widths l !! id) ?? 50%Z.

(** *** Dragging *)

(** [indexOf]. *)
Definition indexOf (x : string) (l : list string) : option nat := fst <$> list_find (eq x) l.

(** [next.splice(fromIdx, 1); next.splice(toIdx, 0, id)]. *)
Definition move (from to : nat) (id : string) (l : list string) : list string :=
  let rest := delete from l in
  take to rest ++ [id] ++ drop to rest.

Definition INTERACTIVE_TAGS : list string := ["INPUT"; "BUTTON"; "SELECT"; "TEXTAREA"; "A"; "CANVAS"].

(** [isInteractive]: the pressed element and its ancestors, each with its tag and
    whether it is a card. *)
Fixpoint isInteractive (path : list (string * bool)) : bool :=
  match path with
  | [] => false
  | (tag, is_card) :: rest =>
      bool_decide (tag ∈ INTERACTIVE_TAGS) || (if is_card then false else isInteractive rest)
  end.

(** [handle]: the press was on the resize handle. *)
Definition onCardPointerDown (path : list (string * bool)) (handle : bool) (id : string) (x y : Z)
    (g : grid) : grid :=
  if locked g then g else if isInteractive path then g else if handle then g
  else set_pointer (dragId g) (dragOverId g) (Some (Dragging id x y false (lay g))) g.

(** [over]: the card under the pointer. *)
Definition drag_move (cx cy : Z) (over : option string) (g : grid) : grid :=
  match pointer g with
  | Some (Dragging id x y active seen) =>
      if negb active && bool_decide (Z.abs (cx - x) < DRAG_THRESHOLD)%Z
         && bool_decide (Z.abs (cy - y) < DRAG_THRESHOLD)%Z then g
      else
        let o := match over with
                 | Some c => if decide (c = id) then dragOverId g else Some c
                 | None => dragOverId g
                 end in
        set_pointer (if active then dragId g else Some id) o (Some (Dragging id x y true seen)) g
  | _ => g
  end.

Definition drop_order (id over : string) (l : list string) : option (list string) :=
  match indexOf id l, indexOf over l with
  | Some from, Some to => if decide (from = to) then None else Some (move from to id l)
  | _, _ => None
  end.

Definition drag_up (g : grid) : grid :=
  match pointer g with
  | Some (Dragging id _ _ active seen) =>
      let g' :=
        match (if active then dragOverId g else None) with
        | Some over => match drop_order id over (order seen) with Some l => setOrder seen l g | None => g end
        | None => g
        end in
      set_pointer None None None g'
  | _ => g
  end.

(** *** Resizing *)

Definition onResizePointerDown (id : string) (x containerWidth : Z) (g : grid) : grid :=
  set_pointer (dragId g) (dragOverId g) (Some (Resizing id x (getWidth (lay g) id) containerWidth (lay g))) g.

Definition resize_move (cx : Z) (g : grid) : grid :=
  match pointer g with
  | Some (Resizing id x startWidth containerWidth seen) =>
      setWidth seen id (startWidth + round_div (100 * (cx - x)) containerWidth) g
  | _ => g
  end.

Definition resize_up (g : grid) : grid :=
  match pointer g with Some (Resizing _ _ _ _ _) => set_pointer (dragId g) (dragOverId g) None g | _ => g end.

(** *** What is shown *)

Record shown_card := { c_id : string; c_width : Z; c_dragging : bool; c_over : bool; c_handle : bool }.

Definition cards (g : grid) : list shown_card :=
  map (λ id, {| c_id := id;
                c_width := if isMobile g then 100 else getWidth (lay g) id;
                c_dragging := bool_decide (dragId g = Some id);
                c_over := bool_decide (dragOverId g = Some id);
                c_handle := negb (locked g) && negb (isMobile g) |}) (order (lay g)).

Inductive grid_event :=
| CardDown (path : list (string * bool)) (handle : bool) (id : string) (x y : Z)
| HandleDown (id : string) (x containerWidth : Z)
| Move (cx cy : Z) (over : option string)
| Up
| Lock
| ResetLayout
| Resized (contentWidth : Z).

Definition grid_fire (e : grid_event) (g : grid) : grid :=
  match e with
  | CardDown path h id x y => onCardPointerDown path h id x y g
  | HandleDown id x cw => onResizePointerDown id x cw g
  | Move cx cy over => resize_move cx (drag_move cx cy over g)
  | Up => resize_up (drag_up g)
  | Lock => toggleLock g
  | ResetLayout => resetLayout g
  | Resized w => mk_grid (locked g) (lay g) (bool_decide (w < 540)%Z) (dragId g) (dragOverId g) (pointer g) (saved g)
  end.

(** The pointer goes down on a card that is shown, and is down once. *)
Definition grid_enabled (e : grid_event) (g : grid) : bool :=
  match e with
  | CardDown _ _ id _ _ => bool_decide (pointer g = None) && bool_decide (id ∈ order (lay g))
  | HandleDown id _ cw =>
      bool_decide (pointer g = None) && bool_decide (id ∈ order (lay g)) && negb (locked g)
      && negb (isMobile g) && bool_decide (0 < cw)%Z
  | Lock => bool_decide (pointer g = None)
  | ResetLayout => bool_decide (pointer g = None) && negb (locked g)
  | Move _ _ _ | Up | Resized _ => true
  end.

(** ** Lemmas *)

Definition widget_fits (l : layout) (w : widget) : Prop :=
  ∃ pct, widths l !! w_id w = Some pct ∧ (minWidth w <= pct <= MAX_WIDTH_PCT)%Z.

(** Every widget once, each with a width in its limits. *)
Definition layout_ok (l : layout) : Prop :=
  order l ≡ₚ ids ∧ Forall (widget_fits l) widgetDefs.

Lemma indexOf_Some x l i : indexOf x l = Some i → l !! i = Some x.
Proof.
  unfold indexOf. intros H. destruct (list_find _ _) as [[j y]|] eqn:Hf; [|done]. injection H as <-.
  apply list_find_Some in Hf as (Hj & -> & _). done.
Qed.

Lemma move_perm from to id l : l !! from = Some id → move from to id l ≡ₚ l.
Proof.
  intros Hf. unfold move. cbn [app]. rewrite <-Permutation_middle, take_drop.
  symmetry. by apply delete_Permutation.
Qed.

(** Where the dragged card lands, and that the others keep their order. *)
Lemma move_spec from to id l :
  l !! from = Some id → to < length l →
  move from to id l !! to = Some id
  ∧ filter (λ x, x ≠ id) (move from to id l) = filter (λ x, x ≠ id) l.
Proof.
  intros Hf Hto. pose proof (lookup_lt_Some _ _ _ Hf) as Hlen.
  assert (length (delete from l) = length l - 1) as Hl by (rewrite length_delete by done; lia).
  unfold move. split.
  - rewrite lookup_app_r by (rewrite length_take; lia).
    replace (to - length (take to (delete from l))) with 0 by (rewrite length_take; lia). done.
  - rewrite filter_app. simpl. rewrite filter_cons_False by naive_solver. rewrite <-filter_app, take_drop.
    rewrite delete_take_drop. rewrite <-(take_drop_middle l from id Hf) at 3.
    rewrite !filter_app, filter_cons_False by naive_solver. done.
Qed.

Lemma drop_order_perm id over l l' : drop_order id over l = Some l' → l' ≡ₚ l.
Proof.
  unfold drop_order. destruct (indexOf id l) as [from|] eqn:Hf; [|done].
  destruct (indexOf over l); [|done]. case_decide; [done|]. intros [= <-].
  by apply move_perm, indexOf_Some.
Qed.

Lemma append_missing_spec l :
  NoDup l → NoDup (append_missing l) ∧ (∀ x, x ∈ append_missing l ↔ x ∈ l ∨ x ∈ ids).
Proof.
  unfold append_missing, ids. revert l. induction widgetDefs as [|w ws IH]; intros l Hl; simpl; [set_solver|].
  case_bool_decide as Hw.
  - destruct (IH l Hl) as [H1 H2]. split; [done|]. intros x. rewrite H2. set_solver.
  - destruct (IH (l ++ [w_id w])) as [H1 H2].
    { apply NoDup_app. split; [done|]. split; [set_solver|apply NoDup_singleton]. }
    split; [done|]. intros x. rewrite H2. set_solver.
Qed.

Lemma append_missing_all l : (∀ x, x ∈ ids → x ∈ l) → append_missing l = l.
Proof.
  unfold append_missing, ids. intros H. induction widgetDefs as [|w ws IH]; simpl; [done|].
  rewrite bool_decide_eq_true_2 by (apply H; left). apply IH. intros x Hx. apply H. by right.
Qed.
End grid.

(** The widgets of a page and what was stored of them before. *)
Record grid_setup (widgetDefs : list widget) (st : store) : Prop := {
  ids_distinct : NoDup (ids widgetDefs);
  defs_fit : Forall (λ w, minWidth w <= defaultWidth w <= MAX_WIDTH_PCT)%Z widgetDefs;
  stored_fits : ∀ l, s_layout st = Some l → NoDup (order l)
    ∧ ∀ w pct, w ∈ widgetDefs → widths l !! w_id w = Some pct → (minWidth w <= pct <= MAX_WIDTH_PCT)%Z
}.

Section reached.
Context (widgetDefs : list widget) (st : store) (Hsetup : grid_setup widgetDefs st).
Notation layout_ok := (layout_ok widgetDefs).

Lemma default_width w : w ∈ widgetDefs → default_widths widgetDefs !! w_id w = Some (defaultWidth w).
Proof.
  intros Hw. apply elem_of_list_to_map_1.
  - rewrite map_map. exact (ids_distinct _ _ Hsetup).
  - exact (list_elem_of_fmap_2 (λ w, (w_id w, defaultWidth w)) _ _ Hw).
Qed.

Lemma defaults_ok : layout_ok (defaults widgetDefs).
Proof.
  split; [done|]. apply Forall_forall. intros w Hw. exists (defaultWidth w).
  split; [by apply default_width|]. pose proof (defs_fit _ _ Hsetup) as H. rewrite Forall_forall in H. by apply H.
Qed.

Lemma load_layout_ok : layout_ok (load_layout widgetDefs st).
Proof.
  unfold load_layout. destruct (readable st); [|apply defaults_ok].
  destruct (s_layout st) as [l|] eqn:Hl; [|apply defaults_ok].
  destruct (stored_fits _ _ Hsetup l Hl) as [Hnd Hfit]. split; simpl.
  - destruct (append_missing_spec widgetDefs (filter (λ id, id ∈ ids widgetDefs) (order l))) as [H1 H2].
    { by apply NoDup_filter. }
    apply NoDup_Permutation; [done|exact (ids_distinct _ _ Hsetup)|]. intros x. rewrite H2, list_elem_of_filter. tauto.
  - apply Forall_forall. intros w Hw. unfold widget_fits. simpl.
    destruct (widths l !! w_id w) as [pct|] eqn:Hp.
    + exists pct. split; [by apply lookup_union_Some_l|by eapply Hfit].
    + exists (defaultWidth w). rewrite lookup_union_r by done. split; [by apply default_width|].
      pose proof (defs_fit _ _ Hsetup) as H. rewrite Forall_forall in H. by apply H.
Qed.

(** A layout that fits is read back as it is, but for widths of unknown widgets. *)
Lemma load_stored l b :
  layout_ok l → load_layout widgetDefs {| s_lock := b; s_layout := Some l; readable := true; writable := true |} = l.
Proof.
  intros [Hperm Hfit]. unfold load_layout. simpl. destruct l as [o ws]. simpl in *. f_equal.
  - rewrite (filter_all (λ id, id ∈ ids widgetDefs)).
    + apply append_missing_all. intros x Hx. by rewrite Hperm.
    + apply Forall_forall. intros x Hx. by rewrite <-Hperm.
  - apply map_eq. intros k. destruct (ws !! k) as [p|] eqn:Hk; [by apply lookup_union_Some_l|].
    rewrite lookup_union_r by done. destruct (default_widths widgetDefs !! k) as [d|] eqn:Hd; [|done].
    apply elem_of_list_to_map_2 in Hd. apply list_elem_of_fmap in Hd as (w & [= -> ->] & Hw).
    rewrite Forall_forall in Hfit. destruct (Hfit w Hw) as (pct & Hp & _). simpl in Hp. congruence.
Qed.

(** *** The states of the grid *)

Definition gesture_ok (g : grid) : Prop :=
  match pointer g with
  | Some (Dragging id _ _ _ seen) => seen = lay g ∧ id ∈ order seen
  | Some (Resizing id _ _ cw seen) => layout_ok seen ∧ id ∈ order seen ∧ (0 < cw)%Z
  | None => True
  end.

Definition grid_inv (g : grid) : Prop :=
  layout_ok (lay g) ∧ gesture_ok g
  ∧ readable (saved g) = readable st ∧ writable (saved g) = writable st
  ∧ (readable st = true → writable st = true → load_layout widgetDefs (saved g) = lay g).

Definition grid_step (g g' : grid) : Prop :=
  ∃ e, grid_enabled e g = true ∧ g' = grid_fire widgetDefs e g.

Lemma persist_inv next g :
  grid_inv g → layout_ok next → gesture_ok (persist next g) → grid_inv (persist next g).
Proof.
  intros (_ & _ & Hr & Hw & _) Hn Hg. split; [done|]. split; [done|]. unfold persist. simpl.
  destruct (writable (saved g)) eqn:E; simpl.
  - split; [done|]. split; [congruence|]. intros Hrd Hwr. rewrite Hr, Hrd. by apply load_stored.
  - split; [done|]. split; congruence.
Qed.

Lemma clamp_fits w pct : w ∈ widgetDefs → (minWidth w <= clamp_width widgetDefs (w_id w) pct <= MAX_WIDTH_PCT)%Z.
Proof.
  intros Hw. unfold clamp_width. pose proof (defs_fit _ _ Hsetup) as Hd. rewrite Forall_forall in Hd.
  destruct (List.find _ _) as [w'|] eqn:Hf.
  - apply find_some in Hf as [Hin%list_elem_of_In Heq%bool_decide_eq_true].
    assert (w' = w) as ->.
    { pose proof (ids_distinct _ _ Hsetup) as Hnd.
      apply list_elem_of_lookup in Hin as [i Hi], Hw as [j Hj].
      assert (i = j) as ->; [|congruence].
      eapply NoDup_lookup; [exact Hnd|..]; unfold ids; rewrite list_lookup_fmap, ?Hi, ?Hj; simpl; by rewrite ?Heq. }
    specialize (Hd w Hw). lia.
  - apply list_elem_of_In in Hw. pose proof (find_none _ _ Hf w Hw) as Hn. simpl in Hn.
    by rewrite bool_decide_eq_true_2 in Hn.
Qed.

Lemma set_width_ok l id pct :
  layout_ok l → layout_ok (mk_layout (order l) (<[id := clamp_width widgetDefs id pct]> (widths l))).
Proof.
  intros [Hp Hf]. split; [done|]. rewrite Forall_forall in *. intros w Hw. unfold widget_fits. simpl.
  destruct (decide (id = w_id w)) as [->|Hne].
  - rewrite lookup_insert_eq. eexists. split; [done|]. by apply clamp_fits.
  - rewrite lookup_insert_ne by done. by apply Hf.
Qed.

Lemma set_pointer_inv d o p g :
  grid_inv g → gesture_ok (set_pointer d o p g) → grid_inv (set_pointer d o p g).
Proof. intros (H1 & _ & H3 & H4 & H5) Hg. by split_and!. Qed.

Lemma drag_move_inv cx cy over g : grid_inv g → grid_inv (drag_move cx cy over g).
Proof.
  intros Hinv. pose proof Hinv as (_ & Hg & _). unfold drag_move, gesture_ok in *.
  destruct (pointer g) as [[id x y active seen|]|] eqn:Hp; try done.
  case_match; [done|]. apply set_pointer_inv; [done|]. exact Hg.
Qed.

Lemma resize_move_inv cx g : grid_inv g → grid_inv (resize_move widgetDefs cx g).
Proof.
  intros Hinv. pose proof Hinv as (_ & Hg & _). unfold resize_move, gesture_ok in *.
  destruct (pointer g) as [[|id x sw cw seen]|] eqn:Hp; try done.
  apply persist_inv; [done|apply set_width_ok; tauto|]. unfold gesture_ok. simpl. by rewrite Hp.
Qed.

Lemma drag_up_inv g : grid_inv g → grid_inv (drag_up g).
Proof.
  intros Hinv. pose proof Hinv as ([Hperm Hfit] & Hg & _). unfold drag_up, gesture_ok in *.
  destruct (pointer g) as [[id x y active seen|]|] eqn:Hp; try done. destruct Hg as [-> Hin].
  assert (grid_inv (set_pointer None None None g)) as H0 by (by apply set_pointer_inv).
  destruct (if active then _ else _) as [over|]; [|done].
  destruct (drop_order id over (order (lay g))) as [l|] eqn:Hd; [|done].
  set (next := mk_layout l (widths (lay g))).
  change (grid_inv (persist next (set_pointer None None None g))). apply persist_inv; [done| |done].
  split; [simpl; by rewrite (drop_order_perm _ _ _ _ Hd)|exact Hfit].
Qed.

Lemma grid_inv_fire e g : grid_inv g → grid_enabled e g = true → grid_inv (grid_fire widgetDefs e g).
Proof.
  intros Hinv He. pose proof Hinv as (Hl & Hg & H3 & H4 & H5). destruct e; simpl in *.
  - apply andb_true_iff in He as [_ Hin%bool_decide_eq_true]. unfold onCardPointerDown.
    destruct (locked g), (isInteractive path), handle; done.
  - bool_simpl. apply set_pointer_inv; [done|]. unfold gesture_ok. simpl. tauto.
  - by apply resize_move_inv, drag_move_inv.
  - pose proof (drag_up_inv g Hinv) as H. unfold resize_up.
    destruct (pointer (drag_up g)) as [[]|]; try done. by apply set_pointer_inv.
  - unfold toggleLock. split; [done|]. split; [done|]. simpl. destruct (writable (saved g)) eqn:E; simpl.
    + split; [done|]. split; [congruence|]. intros Hr Hw. by rewrite <-H5.
    + split; [done|]. split; [congruence|done].
  - apply andb_true_iff in He as [He%bool_decide_eq_true _].
    apply persist_inv; [done|by apply defaults_ok|]. unfold gesture_ok. simpl. by rewrite He.
  - done.
Qed.

Lemma grid_reached g : rtc grid_step (WidgetGrid widgetDefs st) g → grid_inv g.
Proof.
  revert g. apply rtc_ind_r.
  - split; [by apply load_layout_ok|]. by split_and!.
  - intros g g' _ (e & He & ->) Hinv. by apply grid_inv_fire.
Qed.

(** ** Properties *)

(** Whatever is dragged, resized, locked and reset: every widget of the page is
    shown exactly once, each with a width between its minimum and the full width
    (the full width on a narrow page), and, when the storage works, loading the
    page again gives the same layout. *)
Theorem grid_layout g :
  rtc grid_step (WidgetGrid widgetDefs st) g →
  map c_id (cards g) ≡ₚ ids widgetDefs
  ∧ Forall (λ c, ∃ w, w ∈ widgetDefs ∧ c_id c = w_id w ∧ (minWidth w <= c_width c <= MAX_WIDTH_PCT)%Z) (cards g)
  ∧ (readable st = true → writable st = true → lay (WidgetGrid widgetDefs (saved g)) = lay g).
Proof.
  intros ([Hp Hf] & _ & _ & _ & Hs)%grid_reached. split; [|split; [|exact Hs]].
  - unfold cards. rewrite map_map, map_id. exact Hp.
  - unfold cards. apply Forall_map, Forall_forall. intros id Hin. rewrite Hp in Hin.
    apply list_elem_of_fmap in Hin as (w & -> & Hw). exists w. split; [done|]. split; [done|]. simpl.
    rewrite Forall_forall in Hf. destruct (Hf w Hw) as (pct & Hpct & Hr).
    destruct (isMobile g); [unfold MAX_WIDTH_PCT in *; lia|]. unfold getWidth. by rewrite Hpct.
Qed.
End reached.

(** A card that is dropped on another takes its place in the order, and the others
    keep theirs. *)
Theorem drop_takes_the_place (g : grid) id x y seen over to :
  pointer g = Some (Dragging id x y true seen) → dragOverId g = Some over →
  id ∈ order seen → indexOf over (order seen) = Some to → id ≠ over →
  order (lay (drag_up g)) !! to = Some id
  ∧ filter (λ i, i ≠ id) (order (lay (drag_up g))) = filter (λ i, i ≠ id) (order seen).
Proof.
  intros Hp Ho Hin Hover Hne. unfold drag_up. rewrite Hp, Ho. unfold drop_order. rewrite Hover.
  pose proof (indexOf_Some _ _ _ Hover) as Hto.
  destruct (indexOf id (order seen)) as [from|] eqn:Hf.
  2: { unfold indexOf in Hf. destruct (list_find _ _) as [[]|] eqn:Hn; [done|].
       apply list_find_None in Hn. rewrite Forall_forall in Hn. by destruct (Hn id Hin). }
  pose proof (indexOf_Some _ _ _ Hf) as Hfrom. rewrite decide_False by congruence. simpl.
  apply move_spec; [done|by eapply lookup_lt_Some].
Qed.

(** ** Examples *)

Definition two_widgets : list widget :=
  [{| w_id := "map"; defaultWidth := 60; minWidth := 30 |};
   {| w_id := "peers"; defaultWidth := 40; minWidth := 20 |}].

Definition fresh : store := {| s_lock := Some false; s_layout := None; readable := true; writable := true |}.

Example drag_and_resize :
  let g := foldl (λ g e, grid_fire two_widgets e g) (WidgetGrid two_widgets fresh)
    [CardDown [("CANVAS", false)] false "peers" 0 0; Up; CardDown [("DIV", true)] false "map" 0 0; Move 9 0 (Some "peers"); Up;
     HandleDown "peers" 100 800; Move (-500) 0 None; Up] in
  map (λ c, (c_id c, c_width c)) (cards g) = [("peers", 20%Z); ("map", 60%Z)]
  ∧ (order <$> s_layout (saved g)) = Some ["peers"; "map"].
Proof. by vm_compute. Qed.
