(* ===== verification/ReleaseNotes.v ===== *)
(** [util/renderReleaseNotes.js]: the Markdown subset of the firmware page.  A text
    is the list of its characters; the regular expressions are spelled out as
    the scans they describe (each repeated class excludes the delimiter that
    follows it, so the match is determined).  React keys are not modelled. *)
From S2P Require Import Prelude JsString MeshJoin.
Open Scope js_scope.

Abbreviation text := (list ascii).

(** ** Elements *)

Inductive node :=
| Text (s : text)
| Strong (l : list node)
| Em (l : list node)
| Code (s : text)
| Link (href : text) (l : list node)
| Frag (l : list node).

Inductive block :=
| Heading (level : nat) (l : list node)
| Bullets (items : list (list node))
| Para (l : list node).

(** ** Characters *)

Definition nl : ascii := ascii_of_nat 10.
Definition cr : ascii := ascii_of_nat 13.
Definition is_char (c d : ascii) : bool := bool_decide (c = d).
Definition lower_char (c : ascii) : ascii :=
  let n := nat_of_ascii c in if ((65 <=? n) && (n <=? 90))%nat then ascii_of_nat (n + 32) else c.

Fixpoint trim_left (s : text) : text :=
  match s with c :: s' => if is_space c then trim_left s' else s | [] => [] end.
Definition trim_right (s : text) : text := reverse (trim_left (reverse s)).
Definition trim (s : text) : text := trim_right (trim_left s).

(** [s] after [p], if it starts with it. *)
Fixpoint after_prefix (p s : text) : option text :=
  match p, s with
  | [], _ => Some s
  | c :: p', d :: s' => if is_char c d then after_prefix p' s' else None
  | _ :: _, [] => None
  end.

(** The scheme is http, https or mailto, in any case. *)
Definition SAFE_URL_RE (url : text) : bool :=
  let u := map lower_char url in
  let starts p := match after_prefix (String.list_ascii_of_string p) u with Some _ => true | None => false end in
  starts "http://" || starts "https://" || starts "mailto:".

(** The longest run of characters that satisfy [p], and what follows. *)
Fixpoint run_of (p : ascii → bool) (s : text) : text * text :=
  match s with
  | [] => ([], [])
  | c :: s' => if p c then let '(r, rest) := run_of p s' in (c :: r, rest) else ([], s)
  end.

(** ** The inline patterns, tried at one position *)

(** [open], a run of one or more characters of [p], [close]: the run and the rest. *)
Definition delimited (open : text) (p : ascii → bool) (close s : text) : option (text * text) :=
  match after_prefix open s with
  | Some s' =>
      let '(r, rest) := run_of p s' in
      if decide (r = []) then None else (λ x, (r, x)) <$> after_prefix close rest
  | None => None
  end.

Definition star : ascii := "*".

(** Two stars, a run without stars, two stars. *)
Definition match_strong (s : text) : option (text * text) :=
  delimited [star; star] (λ c, negb (is_char c star)) [star; star] s.

(** One star with no star on either outer side, around a run without stars or
    line ends; [prev] is the character before. *)
Definition match_em (prev : option ascii) (s : text) : option (text * text) :=
  if decide (prev = Some star) then None
  else
    match delimited [star] (λ c, negb (is_char c star) && negb (is_char c nl)) [star] s with
    | Some (r, rest) => if decide (head rest = Some star) then None else Some (r, rest)
    | None => None
    end.

(** A run without back-quotes or line ends between back-quotes. *)
Definition match_code (s : text) : option (text * text) :=
  delimited ["`"%char] (λ c, negb (is_char c "`") && negb (is_char c nl)) ["`"%char] s.

(** A label in brackets, directly followed by a target in parentheses: both and
    the rest. *)
Definition match_link (s : text) : option (text * text * text) :=
  match delimited ["["%char] (λ c, negb (is_char c "]")) ["]"; "("]%char s with
  | Some (label, s') =>
      (λ m, (label, m.1, m.2)) <$> delimited [] (λ c, negb (is_char c ")")) [")"%char] s'
  | None => None
  end.

Inductive found :=
| FStrong (s : text) | FEm (s : text) | FCode (s : text) | FLink (label url : text).

(** [re.exec(text)]: the leftmost match; [try] is the pattern at one position. *)
Fixpoint exec (try : option ascii → text → option (found * text)) (prev : option ascii) (s : text) :
    option (text * found * text) :=
  match try prev s with
  | Some (f, rest) => Some ([], f, rest)
  | None =>
      match s with
      | [] => None
      | c :: s' =>
          match exec try (Some c) s' with
          | Some (before, f, rest) => Some (c :: before, f, rest)
          | None => None
          end
      end
  end.

Definition PATTERNS : list (option ascii → text → option (found * text)) :=
  [ (λ _ s, (λ m, (FStrong m.1, m.2)) <$> match_strong s);
    (λ prev s, (λ m, (FEm m.1, m.2)) <$> match_em prev s);
    (λ _ s, (λ m, (FCode m.1, m.2)) <$> match_code s);
    (λ _ s, (λ m, (FLink m.1.1 m.1.2, m.2)) <$> match_link s) ].

(** The first pattern that matches anywhere. *)
Fixpoint first_match (ps : list (option ascii → text → option (found * text))) (s : text) :
    option (text * found * text) :=
  match ps with
  | [] => None
  | p :: ps' => match exec p None s with Some m => Some m | None => first_match ps' s end
  end.

(** [inlinePass]: [fuel] is [5 - depth], the recursion stops at depth 5. *)
Fixpoint inlinePass (fuel : nat) (s : text) : list node :=
  match s with
  | [] => []
  | _ =>
      match fuel with
      | O => [Text s]
      | Datatypes.S f =>
          match first_match PATTERNS s with
          | None => [Text s]
          | Some (before, m, after) =>
              (if decide (before = []) then [] else inlinePass f before)
              ++ [match m with
                  | FStrong t => Strong (inlinePass f t)
                  | FEm t => Em (inlinePass f t)
                  | FCode t => Code t
                  | FLink label target =>
                      let url := trim target in
                      if SAFE_URL_RE url then Link url (inlinePass f label) else Frag (inlinePass f label)
                  end]
              ++ (if decide (after = []) then [] else inlinePass f after)
          end
      end
  end.

Definition renderInline (s : text) : list node := inlinePass 5 s.

(** ** Blocks *)

(** [body.replace(/\r\n?/g, '\n')]. *)
Fixpoint unix_lines (s : text) : text :=
  match s with
  | [] => []
  | c :: s' =>
      if is_char c cr then
        nl :: match s' with
              | d :: s'' => if is_char d nl then unix_lines s'' else unix_lines s'
              | [] => []
              end
      else c :: unix_lines s'
  end.

Fixpoint split_lines (s : text) : list text :=
  match s with
  | [] => [[]]
  | c :: s' =>
      if is_char c nl then [] :: split_lines s'
      else match split_lines s' with l :: ls => (c :: l) :: ls | [] => [[c]] end
  end.

Fixpoint join_lines (ls : list text) : text :=
  match ls with
  | [] => []
  | [l] => l
  | l :: ls' => l ++ nl :: join_lines ls'
  end.

Definition flush (blocks : list text) (cur : list text) : list text :=
  if decide (cur = []) then blocks else blocks ++ [join_lines cur].

Definition splitBlocks (body : text) : list text :=
  let '(blocks, cur) :=
    foldl (λ acc line, if decide (trim line = []) then (flush acc.1 acc.2, []) else (acc.1, acc.2 ++ [line]))
      ([], []) (split_lines (unix_lines body)) in
  flush blocks cur.

(** One to three marks and white space on a single line: when only white space follows the
    marks, the last of it is the text. *)
Definition matchHeading (block : text) : option (nat * text) :=
  if decide (nl ∈ block) then None
  else
    let '(marks, rest) := run_of (λ c, is_char c "#") block in
    let '(ws, body) := run_of is_space rest in
    if decide (length marks = 0 ∨ 3 < length marks ∨ length ws = 0) then None
    else match body with
         | _ :: _ => Some (length marks, trim_right body)
         | [] => if decide (length ws = 1) then None
                 else (λ c, (length marks, [c])) <$> last ws
         end.

(** A dash or star bullet on one line. *)
Definition match_item (line : text) : option text :=
  match trim_left line with
  | c :: s =>
      if is_char c "-" || is_char c "*" then
        let '(ws, rest) := run_of is_space s in
        if decide (length ws = 0) then None else Some rest
      else None
  | [] => None
  end.

Fixpoint all_items (ls : list text) : option (list text) :=
  match ls with
  | [] => Some []
  | l :: ls' =>
      match match_item l, all_items ls' with
      | Some i, Some is_ => Some (i :: is_)
      | _, _ => None
      end
  end.

Definition matchList (block : text) : option (list text) := all_items (split_lines block).

Definition flushList (out : list block) (buffer : list text) : list block :=
  if decide (buffer = []) then out else out ++ [Bullets (map renderInline buffer)].

Definition render_block (acc : list block * list text) (b : text) : list block * list text :=
  match matchHeading b with
  | Some (level, t) => (flushList acc.1 acc.2 ++ [Heading level (renderInline t)], [])
  | None =>
      match matchList b with
      | Some items => (acc.1, acc.2 ++ items)
      | None => (flushList acc.1 acc.2 ++ [Para (renderInline b)], [])
      end
  end.

(** [None]: not a string. *)
Definition renderReleaseNotes (body : option text) : list block :=
  match body with
  | None => []
  | Some s =>
      if decide (trim s = []) then []
      else let '(out, buffer) := foldl render_block ([], []) (splitBlocks s) in flushList out buffer
  end.

(** ** What the rendering contains *)

(** The link targets of an element. *)
Fixpoint links (n : node) : list text :=
  match n with
  | Text _ | Code _ => []
  | Strong l | Em l | Frag l => concat (map links l)
  | Link href l => href :: concat (map links l)
  end.

(** Its visible text. *)
Fixpoint visible (n : node) : text :=
  match n with
  | Text s | Code s => s
  | Strong l | Em l | Frag l | Link _ l => concat (map visible l)
  end.

Definition links_of (l : list node) : list text := concat (map links l).
Definition visible_of (l : list node) : text := concat (map visible l).

Definition block_links (b : block) : list text :=
  match b with
  | Heading _ l | Para l => links_of l
  | Bullets items => concat (map links_of items)
  end.

Definition block_visible (b : block) : text :=
  match b with
  | Heading _ l | Para l => visible_of l
  | Bullets items => concat (map visible_of items)
  end.

(** ** Lemmas *)

Lemma run_of_app p s r rest : run_of p s = (r, rest) → s = r ++ rest.
Proof.
  revert r rest. induction s as [|c s IH]; intros r rest; simpl; [by intros [= <- <-]|].
  destruct (p c); [|by intros [= <- <-]]. destruct (run_of p s) as [r' rest'] eqn:Hr.
  intros [= <- <-]. simpl. f_equal. by apply IH.
Qed.

Definition inner (f : found) : text :=
  match f with FStrong s | FEm s | FCode s | FLink s _ => s end.

(** A match consumes a stretch that contains its text. *)
Definition sound (try : option ascii → text → option (found * text)) : Prop :=
  ∀ prev s f rest, try prev s = Some (f, rest) → ∃ m, s = m ++ rest ∧ inner f `sublist_of` m.

Lemma sublist_between {A} (p r q : list A) : r `sublist_of` p ++ r ++ q.
Proof. apply sublist_inserts_l, sublist_inserts_r. done. Qed.

Lemma exec_sound try prev s before f rest :
  sound try → exec try prev s = Some (before, f, rest) →
  ∃ m, s = before ++ m ++ rest ∧ inner f `sublist_of` m.
Proof.
  intros Ht. revert prev before. induction s as [|c s IH]; intros prev before; simpl.
  - destruct (try prev []) as [[f' r']|] eqn:He; [|done]. intros [= <- <- <-].
    destruct (Ht _ _ _ _ He) as (m & Hm & Hi). by exists m.
  - destruct (try prev (c :: s)) as [[f' r']|] eqn:He.
    + intros [= <- <- <-]. destruct (Ht _ _ _ _ He) as (m & Hm & Hi). by exists m.
    + destruct (exec try (Some c) s) as [[[b' f'] r']|] eqn:Hx; [|done]. intros [= <- <- <-].
      destruct (IH _ _ Hx) as (m & -> & Hi). by exists m.
Qed.

Lemma after_prefix_app p s rest : after_prefix p s = Some rest → s = p ++ rest.
Proof.
  revert s. induction p as [|c p IH]; intros s; simpl; [by intros [= ->]|].
  destruct s as [|d s]; [done|]. unfold is_char. case_bool_decide; [|done]. subst. intros H.
  by rewrite (IH _ H).
Qed.

Lemma delimited_app o p c s r rest : delimited o p c s = Some (r, rest) → s = (o ++ r ++ c) ++ rest.
Proof.
  unfold delimited. destruct (after_prefix o s) as [s'|] eqn:Ho; [|done].
  apply after_prefix_app in Ho as ->. destruct (run_of p s') as [r' rest'] eqn:Hr.
  apply run_of_app in Hr as ->. case_decide; [done|]. intros (x & Hx & [= -> ->])%fmap_Some.
  apply after_prefix_app in Hx as ->. by rewrite <- !app_assoc.
Qed.

Lemma match_em_app prev s r rest : match_em prev s = Some (r, rest) → s = ([star] ++ r ++ [star]) ++ rest.
Proof.
  unfold match_em. case_decide; [done|]. destruct (delimited _ _ _ s) as [[r' rest']|] eqn:Hd; [|done].
  case_decide; [done|]. intros [= <- <-]. by apply delimited_app in Hd.
Qed.

Lemma match_link_app s l u rest :
  match_link s = Some (l, u, rest) → s = (["["%char] ++ l ++ ["]"; "("]%char ++ u ++ [")"%char]) ++ rest.
Proof.
  unfold match_link. destruct (delimited _ _ _ s) as [[l' s']|] eqn:Hd; [|done].
  apply delimited_app in Hd as ->. intros ([u' rest'] & Hx & [= -> -> ->])%fmap_Some.
  apply delimited_app in Hx as ->. by rewrite <- !app_assoc.
Qed.

Lemma patterns_sound : Forall sound PATTERNS.
Proof.
  repeat constructor; intros prev s f rest H; apply fmap_Some in H as (m & Hm & Heq); simplify_eq; simpl.
  - destruct m as [r rest']. apply delimited_app in Hm as ->. eexists. split; [done|apply sublist_between].
  - destruct m as [r rest']. apply match_em_app in Hm as ->. eexists. split; [done|apply sublist_between].
  - destruct m as [r rest']. apply delimited_app in Hm as ->. eexists. split; [done|apply sublist_between].
  - destruct m as [[l u] rest']. apply match_link_app in Hm as ->. eexists. split; [done|apply sublist_between].
Qed.

Lemma first_match_sound ps s before f rest :
  Forall sound ps → first_match ps s = Some (before, f, rest) →
  ∃ m, s = before ++ m ++ rest ∧ inner f `sublist_of` m.
Proof.
  induction 1 as [|p ps Hp _ IH]; simpl; [done|].
  destruct (exec p None s) as [[[b' f'] r']|] eqn:He; [|done]. intros [= <- <- <-].
  by eapply exec_sound.
Qed.

(** What [build] makes of a match. *)
Definition build (f : nat) (m : found) : node :=
  match m with
  | FStrong t => Strong (inlinePass f t)
  | FEm t => Em (inlinePass f t)
  | FCode t => Code t
  | FLink label target =>
      if SAFE_URL_RE (trim target) then Link (trim target) (inlinePass f label) else Frag (inlinePass f label)
  end.

Lemma inlinePass_S f s :
  inlinePass (S f) s =
  match first_match PATTERNS s with
  | None => if decide (s = []) then [] else [Text s]
  | Some (before, m, after) =>
      if decide (s = []) then []
      else inlinePass f before ++ [build f m] ++ inlinePass f after
  end.
Proof.
  destruct s as [|c s]; [by destruct (first_match _ _) as [[[? ?] ?]|]|].
  assert (∀ t, (if decide (t = []) then [] else inlinePass f t) = inlinePass f t) as Hd
    by (intros t; case_decide; [subst; by destruct f|done]).
  cbn [inlinePass]. destruct (first_match PATTERNS (c :: s)) as [[[b m] a]|]; [|done].
  by rewrite !Hd.
Qed.

Lemma visible_of_app l1 l2 : visible_of (l1 ++ l2) = visible_of l1 ++ visible_of l2.
Proof. unfold visible_of. by rewrite map_app, concat_app. Qed.

Lemma links_of_app l1 l2 : links_of (l1 ++ l2) = links_of l1 ++ links_of l2.
Proof. unfold links_of. by rewrite map_app, concat_app. Qed.

Lemma inline_visible f s : visible_of (inlinePass f s) `sublist_of` s.
Proof.
  revert s. induction f as [|f IH]; intros s.
  { destruct s as [|c s]; [done|]. unfold visible_of. simpl. by rewrite app_nil_r. }
  rewrite inlinePass_S. destruct (first_match PATTERNS s) as [[[b m] a]|] eqn:Hm.
  - case_decide; [subst; done|].
    destruct (first_match_sound _ _ _ _ _ patterns_sound Hm) as (k & -> & Hk).
    rewrite !visible_of_app. apply sublist_app; [apply IH|]. apply sublist_app; [|apply IH].
    etransitivity; [|exact Hk]. unfold visible_of, build. simpl. rewrite app_nil_r.
    destruct m as [t|t|t|l u]; simpl; try apply IH; [done|]. destruct (SAFE_URL_RE _); apply IH.
  - case_decide; [subst; done|]. unfold visible_of. simpl. by rewrite app_nil_r.
Qed.

Lemma inline_links f s : Forall (λ u, SAFE_URL_RE u = true) (links_of (inlinePass f s)).
Proof.
  revert s. induction f as [|f IH]; intros s; [by destruct s; constructor|].
  rewrite inlinePass_S. destruct (first_match PATTERNS s) as [[[b m] a]|].
  - case_decide; [constructor|]. rewrite !links_of_app, !Forall_app. split_and?; [apply IH| |apply IH].
    unfold links_of, build. simpl. rewrite app_nil_r.
    destruct m as [t|t|t|l u]; simpl; try apply IH; [constructor|].
    destruct (SAFE_URL_RE (trim u)) eqn:Hs; simpl; [constructor; [done|apply IH]|apply IH].
  - case_decide; by constructor.
Qed.

(** *** Blocks *)

Lemma trim_left_sub s : trim_left s `sublist_of` s.
Proof. induction s as [|c s IH]; simpl; [done|]. case_match; [by apply sublist_cons|done]. Qed.

Lemma reverse_sublist {A} (l1 l2 : list A) : l1 `sublist_of` l2 → reverse l1 `sublist_of` reverse l2.
Proof.
  induction 1 as [|x l1 l2 _ IH|x l1 l2 _ IH]; [done|..]; rewrite !reverse_cons.
  - by apply sublist_app.
  - by apply sublist_inserts_r.
Qed.

Lemma trim_right_sub s : trim_right s `sublist_of` s.
Proof. rewrite <- (reverse_involutive s) at 2. apply reverse_sublist, trim_left_sub. Qed.

(** The lines, each with its line end. *)
Definition ended (ls : list text) : text := concat (map (λ l, l ++ [nl]) ls).

Lemma ended_snoc ls l : ended (ls ++ [l]) = ended ls ++ l ++ [nl].
Proof. unfold ended. rewrite map_app, concat_app. simpl. by rewrite app_nil_r. Qed.

Lemma ended_split s : ended (split_lines s) = s ++ [nl].
Proof.
  unfold ended. induction s as [|c s IH]; simpl; [done|]. unfold is_char. case_bool_decide as Hc.
  - subst. simpl. by rewrite IH.
  - destruct (split_lines s) as [|l ls]; simpl in *; [by destruct s|]. by rewrite IH.
Qed.

Lemma join_ended ls : join_lines ls `sublist_of` ended ls.
Proof.
  induction ls as [|l ls IH]; [done|]. destruct ls as [|l' ls].
  - unfold ended. simpl. rewrite app_nil_r. apply sublist_inserts_r. done.
  - change (l ++ [nl] ++ join_lines (l' :: ls) `sublist_of` (l ++ [nl]) ++ ended (l' :: ls)).
    rewrite <- app_assoc. apply sublist_app; [done|]. by apply sublist_app.
Qed.

Lemma flush_sub blocks cur : concat (flush blocks cur) `sublist_of` concat blocks ++ ended cur.
Proof.
  unfold flush. case_decide; [subst; by rewrite app_nil_r|].
  rewrite concat_app. simpl. rewrite app_nil_r. apply sublist_app; [done|apply join_ended].
Qed.

Lemma splitBlocks_sub body : concat (splitBlocks body) `sublist_of` unix_lines body ++ [nl].
Proof.
  unfold splitBlocks. rewrite <- ended_split. generalize (split_lines (unix_lines body)). intros ls.
  set (f := λ (acc : list text * list text) line, _).
  assert (concat (foldl f ([], []) ls).1 ++ ended (foldl f ([], []) ls).2 `sublist_of` ended ls) as H.
  { induction ls as [|l ls IH] using rev_ind; [done|].
    rewrite foldl_app, ended_snoc. simpl. unfold f at 1 3. destruct (foldl f ([], []) ls) as [b c]. simpl in *.
    case_decide; simpl.
    - unfold ended at 1. simpl. rewrite app_nil_r. etransitivity; [apply flush_sub|].
      apply sublist_inserts_r. exact IH.
    - rewrite ended_snoc, app_assoc. by apply sublist_app. }
  destruct (foldl f ([], []) ls) as [b c]. etransitivity; [apply flush_sub|exact H].
Qed.

Lemma matchHeading_sub b level t : matchHeading b = Some (level, t) → t `sublist_of` b.
Proof.
  unfold matchHeading. case_decide; [done|]. destruct (run_of _ b) as [marks rest] eqn:Hm.
  apply run_of_app in Hm as ->. destruct (run_of _ rest) as [ws body] eqn:Hw. apply run_of_app in Hw as ->.
  case_decide; [done|]. destruct body as [|c body].
  - case_decide; [done|]. intros (c & Hc & [= -> ->])%fmap_Some. apply last_Some in Hc as [ws' ->].
    apply sublist_inserts_l. rewrite app_nil_r. by apply sublist_inserts_l.
  - intros [= <- <-]. do 2 apply sublist_inserts_l. apply trim_right_sub.
Qed.

Lemma match_item_sub l i : match_item l = Some i → i `sublist_of` l.
Proof.
  unfold match_item. pose proof (trim_left_sub l) as Hl. destruct (trim_left l) as [|c s]; [done|].
  case_match; [|done]. destruct (run_of is_space s) as [ws rest] eqn:Hw. apply run_of_app in Hw as ->.
  case_decide; [done|]. intros [= <-]. etransitivity; [|exact Hl]. apply sublist_cons.
  by apply sublist_inserts_l.
Qed.

Lemma split_lines_sub s : concat (split_lines s) `sublist_of` s.
Proof.
  induction s as [|c s IH]; simpl; [done|]. unfold is_char. case_bool_decide; [by apply sublist_cons|].
  destruct (split_lines s) as [|l ls]; simpl in *; by apply sublist_skip.
Qed.

Lemma matchList_sub b items : matchList b = Some items → concat items `sublist_of` b.
Proof.
  unfold matchList. intros H. etransitivity; [|apply (split_lines_sub b)]. revert items H.
  induction (split_lines b) as [|l ls IH]; intros items; simpl; [by intros [= <-]|].
  destruct (match_item l) as [i|] eqn:Hi; [|done]. destruct (all_items ls) as [is_|]; [|done].
  intros [= <-]. simpl. apply sublist_app; [by apply match_item_sub|by apply IH].
Qed.

Lemma bullets_visible items : concat (map visible_of (map renderInline items)) `sublist_of` concat items.
Proof.
  induction items as [|i items IH]; simpl; [done|]. apply sublist_app; [apply inline_visible|exact IH].
Qed.

Definition visible_blocks (out : list block) : text := concat (map block_visible out).

Lemma flushList_sub out buffer :
  visible_blocks (flushList out buffer) `sublist_of` visible_blocks out ++ concat buffer.
Proof.
  unfold flushList, visible_blocks. case_decide; [subst; by rewrite app_nil_r|].
  rewrite map_app, concat_app. simpl. rewrite app_nil_r. apply sublist_app; [done|apply bullets_visible].
Qed.

Lemma render_block_sub acc b :
  visible_blocks (render_block acc b).1 ++ concat (render_block acc b).2
    `sublist_of` (visible_blocks acc.1 ++ concat acc.2) ++ b.
Proof.
  unfold render_block. destruct (matchHeading b) as [[level t]|] eqn:Hh; [|destruct (matchList b) as [items|] eqn:Hl].
  - simpl. rewrite app_nil_r. unfold visible_blocks at 1. rewrite map_app, concat_app. simpl. rewrite app_nil_r.
    apply sublist_app; [apply flushList_sub|]. etransitivity; [apply inline_visible|by eapply matchHeading_sub].
  - simpl. rewrite concat_app, app_assoc. apply sublist_app; [done|by apply matchList_sub].
  - simpl. rewrite app_nil_r. unfold visible_blocks at 1. rewrite map_app, concat_app. simpl. rewrite app_nil_r.
    apply sublist_app; [apply flushList_sub|apply inline_visible].
Qed.

Lemma render_blocks_sub blocks :
  let r := foldl render_block ([], []) blocks in
  visible_blocks (flushList r.1 r.2) `sublist_of` concat blocks.
Proof.
  intros r. etransitivity; [apply flushList_sub|]. unfold r. clear r.
  induction blocks as [|b blocks IH] using rev_ind; [done|].
  rewrite foldl_app, concat_app. simpl. rewrite app_nil_r. etransitivity; [apply render_block_sub|].
  by apply sublist_app.
Qed.

Definition safe_block (b : block) : Prop := Forall (λ u, SAFE_URL_RE u = true) (block_links b).

Lemma flushList_safe out buffer : Forall safe_block out → Forall safe_block (flushList out buffer).
Proof.
  intros H. unfold flushList. case_decide; [done|]. apply Forall_app. split; [done|]. constructor; [|done].
  unfold safe_block. simpl. clear. induction buffer as [|i l IH]; simpl; [constructor|].
  apply Forall_app. split; [apply inline_links|exact IH].
Qed.

Lemma render_blocks_safe blocks acc :
  Forall safe_block acc.1 → Forall safe_block (foldl render_block acc blocks).1.
Proof.
  revert acc. induction blocks as [|b blocks IH]; intros acc H; [done|]. simpl. apply IH.
  unfold render_block. destruct (matchHeading b) as [[level t]|]; [|destruct (matchList b) as [items|]; [done|]];
    (apply Forall_app; split; [by apply flushList_safe|]; constructor; [apply inline_links|done]).
Qed.

(** ** Properties *)

(** C22: rendering release notes is safe: whatever the body, every link of the result
    has an http, https or mailto target, and the visible text is what remains of
    the body when characters are removed, in order (up to one final line end). *)
Theorem release_notes_safe (body : text) :
  let out := renderReleaseNotes (Some body) in
  (∀ b u, b ∈ out → u ∈ block_links b → SAFE_URL_RE u = true)
  ∧ visible_blocks out `sublist_of` unix_lines body ++ [nl].
Proof.
  intros out. unfold out, renderReleaseNotes. destruct (decide (trim body = [])).
  { split; [by intros b u ?%elem_of_nil|apply sublist_nil_l]. }
  pose proof (render_blocks_safe (splitBlocks body) ([], []) (Forall_nil_2 _)) as Hs.
  pose proof (render_blocks_sub (splitBlocks body)) as Hv.
  destruct (foldl render_block ([], []) (splitBlocks body)) as [o buffer]. simpl in *. split.
  - intros b u Hb Hu. apply flushList_safe with (buffer := buffer) in Hs. rewrite Forall_forall in Hs.
    specialize (Hs b Hb). unfold safe_block in Hs. rewrite Forall_forall in Hs. by apply Hs.
  - etransitivity; [exact Hv|apply splitBlocks_sub].
Qed.

Definition chars (s : string) : text := String.list_ascii_of_string s.

(** A script target is dropped, its label stays. *)
Example unsafe_link_dropped :
  renderReleaseNotes (Some (chars "see [notes](https://x.y) or [here](javascript:z)"))
  = [Para [Text (chars "see "); Link (chars "https://x.y") [Text (chars "notes")]; Text (chars " or ");
           Frag [Text (chars "here")]]].
Proof. vm_compute. reflexivity. Qed.
