(* ===== verification/FirmwareView.v ===== *)
(** [pages/SettingsFirmware.jsx]: what the firmware page shows.

    Each panel is a function of the page's state ([Firmware]) and of the time of the
    render; a panel is the texts, alerts and controls it shows.  A render that throws
    is [None]: [toISOString] does on an invalid date. *)
From S2P Require Import Prelude JsString JsNumber JsList JsDate DataTable SysupgradeApi Firmware FirmwareSafe ReleaseNotes.
Open Scope js_scope.

(** ** Texts *)

Definition phaseLabel (ph : Phase) : string :=
  match ph with
  | CHECKING => "Checking" | DOWNLOADING => "Downloading" | VERIFYING => "Verifying" | READY => "Ready"
  | UPGRADING => "Upgrading" | FAILED => "Failed" | IDLE => "Idle" | UNSPECIFIED | OtherPhase _ => "—"
  end.

Definition formatBytes (n : option Z) : string :=
  match n with
  | None => "—"
  | Some v =>
      let by_ (k : Z) := fdiv (of_int v) (of_int k) in
      (if v <=? 0 then "0 B"
       else if v <? 1024 then pretty v ++ " B"
       else if v <? 1024 * 1024 then toFixed 1 (by_ 1024) ++ " KB"
       else if v <? 1024 * 1024 * 1024 then toFixed 1 (by_ (1024 * 1024)) ++ " MB"
       else toFixed 2 (by_ (1024 * 1024 * 1024)) ++ " GB")%Z%string
  end.

Definition compatVerdictLabel (i : image) : string :=
  if metadataPresent i then if imageCompatible i then "compatible" else "incompatible" else "no metadata".
Definition compatVerdictVariant (i : image) : string :=
  if metadataPresent i then if imageCompatible i then "ok" else "crit" else "warn".

Definition formatDate (d : option date) : option string :=
  match d with
  | None => Some "—"
  | Some (Time t) => Some (slice 0 10 (toISOString t))
  | Some InvalidDate => None
  end.

(** Every comparison with the NaN of an invalid date is false. *)
Definition formatRelative (now : Z) (d : option date) : option string :=
  match d with
  | None => Some "—"
  | Some InvalidDate => Some "just now"
  | Some (Time t) =>
      let ms := (now - t)%Z in
      if (ms <? 0)%Z then formatDate d
      else if (1 <=? ms / (24 * 3600 * 1000))%Z then Some (pretty (ms / (24 * 3600 * 1000))%Z ++ "d ago")%string
      else if (1 <=? ms / (3600 * 1000))%Z then Some (pretty (ms / (3600 * 1000))%Z ++ "h ago")%string
      else if (1 <=? ms / 60000)%Z then Some (pretty (ms / 60000)%Z ++ "m ago")%string
      else Some "just now"
  end.

(** [err.message || String(err)]. *)
Definition errorMessage (e : js_error) : string := or_str (err_message e) (err_name e).

Record kv_row := mk_kv { kv_k : string; kv_v : string; kv_cls : list string }.
Definition KV (k v : string) (mono : bool) (variant : option string) : kv_row :=
  mk_kv k v (["v"] ++ (if mono then ["mono"] else []) ++ match variant with Some c => [c] | None => [] end).

Record button := mk_button { b_label : string; b_disabled : bool }.

(** ** System information *)

Inductive info_body :=
| InfoEmpty (text : string)
| InfoStrip (rows : list kv_row) (unavailable : option string).

Record info_panel := {
  ip_chip : option string; ip_refresh : button; ip_error : option string; ip_body : info_body
}.

Definition ok_crit (b : bool) : option string := Some (if b then "ok" else "crit").

Definition SystemInfoPanel (l : loader (system_info plain)) : info_panel :=
  {| ip_chip := (λ i : system_info plain, if sysupgradeCapable i then "Sysupgrade Capable" else "Not Sysupgrade Capable") <$> value l;
     ip_refresh := mk_button "Refresh" (loading l);
     ip_error := errorMessage <$> load_error l;
     ip_body :=
       match value l with
       | None => InfoEmpty (if loading l then "Loading…" else "No system info available.")
       | Some i =>
           let capable := sysupgradeCapable i in
           let why := sysupgradeCapableReason i in
           InfoStrip
             ([KV "Hostname" (or_str (hostname i) "—") false None;
               KV "Model" (or_str (model i) "—") false None;
               KV "Board" (or_str (boardName i) "—") true None;
               KV "Target" (or_str (target i) "—") true None;
               KV "OpenMANET" (or_str (openmanetVersion i) "unknown") false
                 (Some (if decide (openmanetVersion i = "") then "muted" else "accent"));
               KV "Distribution" (or_str (String.concat " " (filter (λ s, s ≠ "") [distribution i; sys_release i])) "—")
                 false None;
               KV "Kernel" (or_str (kernel i) "—") false None;
               KV "Architecture" (or_str (architecture i) "—") false None;
               KV "Build Date" (or_str (buildDate i) "—") false None;
               KV "Rootfs" (or_str (rootfsType i) "—") false (ok_crit capable)]
              ++ (if negb capable && negb (bool_decide (why = "")) then [KV "Reason" why false (Some "crit")] else []))
             (if capable then None else Some (or_str why "This device cannot run sysupgrade."))
       end |}.

(** ** The releases table *)

Inductive cell := Text (s : string) | Chip (cls text : string) | SelectedChip | InstallButton (disabled : bool).

(** A column whose cells may throw. *)
Abbreviation fallible := (option cell).

Section Releases.
Context (now : Z) (selectedTag : option string) (disabled : bool).

(** [selectedTag && tag === selectedTag] *)
Definition is_selected (u : offer) : bool :=
  match truthy selectedTag with Some t => bool_decide (offer_tag u ?? "" = t) | None => false end.
Definition selectedClass (u : offer) : string := if is_selected u then "selected" else "".

Definition release_column (k l : string) (cls head : option string) (f : offer → fallible)
  : column offer fallible := mk_column k l cls head (Some selectedClass) f.

Definition published (u : offer) : fallible :=
  match u_release u.2 ≫= publishedAt with
  | None => Some (Text "—")
  | d => a ← formatDate d; b ← formatRelative now d; Some (Text (a ++ " · " ++ b))
  end.

Definition releaseColumns : list (column offer fallible) :=
  [release_column "tag" "Tag" (Some "release-tag") None (λ u, Some (Text (offer_tag u ?? "")));
   release_column "published" "Published" (Some "mono") None published;
   release_column "type" "Type" None None
     (λ u, Some (if (prerelease <$> u_release u.2) ?? false then Chip "warn" "Pre-release" else Chip "ok" "Stable"));
   release_column "asset" "Asset" (Some "mono asset-cell") None (λ u, Some (Text (or_str (offer_asset u ?? "") "—")));
   release_column "size" "Size" (Some "num") (Some "num")
     (λ u, Some (Text (formatBytes (Some ((a_sizeBytes <$> matchedAsset u.2) ?? 0%Z)))));
   release_column "action" "Action" None None
     (λ u, Some (if is_selected u then SelectedChip else InstallButton disabled))].

Definition release_key (u : offer) (i : nat) : string := offer_tag u ?? pretty i.
End Releases.

(** What is drawn of a table: nothing when a cell throws. *)
Definition draw_cell (c : string * fallible) : option (string * cell) := (λ x, (c.1, x)) <$> c.2.
Definition draw (t : data_table fallible) : option (data_table cell) :=
  match t with
  | EmptyTable l => Some (EmptyTable l)
  | Table head body cards =>
      body ← mapM (λ r, (λ cs, (r.1, cs)) <$> mapM draw_cell r.2) body;
      cards ← mapM (λ c,
        title ← draw_cell (card_title c);
        kvs ← mapM (λ b, (λ x, (b.1, x)) <$> draw_cell b.2) (card_body c);
        Some (mk_card (card_key c) title kvs)) cards;
      Some (Table head body cards)
  end.

Record updates_panel := {
  au_chip : string; prerelease_box : bool * bool; check_button : button;
  fetched_row : option string; au_error : option string; au_body : string + data_table cell
}.

Definition fetchedAt (p : page) : option date := value (updates p) ≫= snd.

Definition fetched_text (now : Z) (d : option date) : option (option string) :=
  match d with
  | None => Some None
  | d => a ← formatDate d; b ← formatRelative now d; Some (Some (a ++ " · " ++ b)%string)
  end.

Definition releases_table (now : Z) (p : page) : option (data_table fallible) :=
  dataTable (releaseColumns now (selectedTag p) (installDisabled p)) (listed p) release_key "" None.

Definition releases_body (now : Z) (p : page) : option (string + data_table cell) :=
  match listed p with
  | [] => Some (inl (if loading (updates p) then "Checking for updates…"
                     else match fetchedAt p with
                          | Some _ => "Up to date — no newer firmware available for this hardware."
                          | None => "Click “Check for Updates” to query GitHub."
                          end))
  | _ => t ← releases_table now p; inr <$> draw t
  end.

Definition AvailableUpdatesPanel (now : Z) (p : page) : option updates_panel :=
  let l := updates p in
  let busy := installDisabled p || loading l in
  fetched ← fetched_text now (fetchedAt p);
  body ← releases_body now p;
  Some {| au_chip :=
            if loading l then "Checking…" else if inFlight p then "Upgrade in progress"
            else match listed p with [] => "Up to date" | us => (pretty (length us) ++ " newer")%string end;
          prerelease_box := (includePrerelease p, busy);
          check_button := mk_button (if loading l then "Checking…" else "Check for Updates") busy;
          fetched_row := fetched; au_error := errorMessage <$> load_error l; au_body := body |}.

(** ** Alerts and the install form *)

Inductive alert :=
| NoImageMetadata | IncompatibleImage (supports device note : string) | CompatNote (note : string)
| PreflightFailed (why : string) | OptionConflict | PreflightBlocks (why : string)
| WipeConfiguration | HeadsUp | StartFailed (msg : string).
#[export] Instance alert_eq_dec : EqDecision alert.
Proof. solve_decision. Defined.

Record checkbox := mk_check { c_label : string; c_checked : bool; c_disabled : bool }.

Definition option_label (k : option_key) : string :=
  match k with
  | KNoPreserveConfig => "Preserve configuration" | KTestOnly => "Test only (-T)"
  | KVerbose => "Verbose (-v)" | KQuiet => "Quiet (-q)" | KForce => "Force (-F)"
  end.
Definition unknown_label : string := "Allow install with unknown current version".
Definition skip_label : string := "Skip preflight (install despite -T failure)".

Definition options_row (o : install_options) (busy : bool) : list checkbox :=
  [mk_check "Preserve configuration" (negb (noPreserveConfig o)) busy;
   mk_check "Test only (-T)" (testOnly o) busy;
   mk_check "Verbose (-v)" (verbose o) busy;
   mk_check "Quiet (-q)" (quiet o) busy;
   mk_check "Force (-F)" (force o) busy].

Definition unknown_box (p : page) : list checkbox :=
  if unknownVersion p
  then [mk_check unknown_label (forceUnknown (sel p)) (startBusy (sel p))] else [].

Definition config_alert (o : install_options) : alert := if noPreserveConfig o then WipeConfiguration else HeadsUp.
Definition start_alert (s : selection) : list alert :=
  match startError s with Some e => [StartFailed (errorMessage e)] | None => [] end.

Record install_form := {
  f_name : string; f_size : option string; f_sha : option string;
  f_checks : list checkbox; f_alerts : list alert; f_cancel : button; f_install : button
}.

Definition StagedImageInstallForm (i : image) (p : page) : install_form :=
  let s := sel p in let o := options s in
  let preflightBlock := negb (preflightOk i) && negb (skipPreflight s) in
  {| f_name := filename i;
     f_size := if (0 <? sizeBytes i)%Z then Some (formatBytes (Some (sizeBytes i))) else None;
     f_sha := if decide (sha256 i = "") then None else Some (sha256 i);
     f_checks := options_row o (startBusy s) ++ unknown_box p
       ++ (if preflightOk i then []
           else [mk_check skip_label (skipPreflight s) (startBusy s)]);
     f_alerts := (if optionConflict s then [OptionConflict] else [])
       ++ (if preflightBlock then [PreflightBlocks (or_str (preflightError i) "unknown")] else [])
       ++ [config_alert o] ++ start_alert s;
     f_cancel := mk_button "Cancel" (startBusy s);
     f_install := mk_button "Install — Device Will Reboot" (startBusy s || optionConflict s || preflightBlock) |}.

Inductive notes_view := NotesLoading | NotesError (msg : string) | Notes (blocks : list block) | NoNotes.

Record upgrade_card := {
  u_tag : string; u_asset : string; u_size : option string; u_notes : notes_view;
  u_checks : list checkbox; u_alerts : list alert; u_cancel : button; u_install : button
}.

Definition ConfirmUpgradeCard (u : offer) (p : page) : upgrade_card :=
  let s := sel p in let o := options s in let d := det p in
  let size := (a_sizeBytes <$> matchedAsset u.2) ?? 0%Z in
  let notes := renderReleaseNotes
    (Some (String.list_ascii_of_string ((body <$> release_of d) ?? ((body <$> u_release u.2) ?? "")))) in
  {| u_tag := offer_tag u ?? ""; u_asset := offer_asset u ?? "";
     u_size := if (0 <? size)%Z then Some (formatBytes (Some size)) else None;
     u_notes :=
       if releaseLoading d then NotesLoading
       else match releaseError d with
            | Some e => NotesError (errorMessage e)
            | None => match notes with [] => NoNotes | b => Notes b end
            end;
     u_checks := options_row o (startBusy s) ++ unknown_box p;
     u_alerts := (if optionConflict s then [OptionConflict] else []) ++ [config_alert o] ++ start_alert s;
     u_cancel := mk_button "Cancel" (startBusy s);
     u_install := mk_button "Install — Device Will Reboot" (startBusy s || optionConflict s) |}.

(** ** The local image *)

Inductive staged_foot := StagedButtons (discard install : button) | StagedForm (f : install_form).

Inductive upload_view :=
| UploadProgress (file : string) (percent width : Z) (bytes : option string) (err : option string)
| UploadEmpty (text : string)
| UploadStaged (strip : list kv_row) (compat : list kv_row) (alerts : list alert) (foot : staged_foot).

Record upload_panel := {
  lp_chip : string; lp_input_disabled : bool; lp_choose : option button; lp_cancel : option button;
  lp_error : option string; lp_body : upload_view
}.

Definition supports_text (i : image) : string := join ", " (supportedDevices i).

Definition staged_alerts (i : image) : list alert :=
  let msg := compatMessage i in
  (if metadataPresent i then [] else [NoImageMetadata])
  ++ (if metadataPresent i && negb (imageCompatible i)
      then [IncompatibleImage (or_str (supports_text i) "no devices") (or_str (deviceCompat i) "unknown") msg] else [])
  ++ (if negb (bool_decide (msg = "")) && imageCompatible i then [CompatNote msg] else [])
  ++ (if preflightOk i then []
      else [PreflightFailed (or_str (preflightError i) "sysupgrade -T returned a non-zero exit.")]).

Definition staged_strip (i : image) (uploaded : string) : list kv_row :=
  [KV "Filename" (or_str (filename i) "—") true None;
   KV "Size" (formatBytes (Some (sizeBytes i))) true None;
   KV "SHA-256" (or_str (sha256 i) "—") true (Some "accent");
   KV "Compatibility" (compatVerdictLabel i) true (Some (compatVerdictVariant i));
   KV "Preflight" (if preflightOk i then "pass" else "fail") false (ok_crit (preflightOk i));
   KV "Uploaded" uploaded false None].

Definition compat_detail (i : image) : list kv_row :=
  if metadataPresent i then
    [KV "Device" (or_str (deviceCompat i) "—") true None;
     KV "Image supports" (or_str (supports_text i) "—") true None]
    ++ (if bool_decide (compatVersion i = "") || bool_decide (compatVersion i = "1.0") then []
        else [KV "compat_version" (compatVersion i) true (Some "warn")])
  else [].

(** [Math.round((loaded / total) * 100)]. *)
Definition upload_percent (st : upload_state) : Z :=
  if (0 <? total st)%Z
  then Math_round (fmul (fdiv (of_int (loaded st)) (of_int (total st))) (of_int 100)) ?? 0%Z else 0%Z.

Definition bar_width (percent : Z) : Z := Z.max 0 (Z.min 100 percent).

Definition UploadFirmwarePanel (now : Z) (p : page) : option upload_panel :=
  let st := uploadState (upl p) in
  let disabled := installDisabled p in
  body ←
    (if uploading p then
       Some (UploadProgress (up_filename st) (upload_percent st) (bar_width (upload_percent st))
               (if (0 <? total st)%Z
                then Some (formatBytes (Some (loaded st)) ++ " / " ++ formatBytes (Some (total st)))%string else None)
               (errorMessage <$> up_error st))
     else match value (staged p) with
          | None => Some (UploadEmpty (if loading (staged p) then "Loading…"
                            else "No image staged. Pick a local .img / .img.gz / .bin to upload."))
          | Some i =>
              uploaded ← formatRelative now (uploadedAt i);
              Some (UploadStaged (staged_strip i uploaded) (compat_detail i) (staged_alerts i)
                (if installSelected p then StagedForm (StagedImageInstallForm i p)
                 else StagedButtons (mk_button "Discard" (disabled || inFlight p))
                        (mk_button "Install Staged Image" (disabled || inFlight p))))
          end);
  Some {| lp_chip :=
            if uploading p then "Uploading…"
            else match value (staged p) with
                 | Some i => if preflightOk i then "Image staged" else "Staged · preflight failed"
                 | None => "Empty"
                 end;
          lp_input_disabled := disabled || uploading p;
          lp_choose := if uploading p then None
            else Some (mk_button (match value (staged p) with Some _ => "Replace…" | None => "Choose File…" end) disabled);
          lp_cancel := if uploading p then Some (mk_button "Cancel Upload" false) else None;
          lp_error := if uploading p then None else errorMessage <$> load_error (staged p);
          lp_body := body |}.

(** ** The running upgrade *)

Inductive progress_alert := ConnectionLost | UpgradeRunning | ImageVerified | UpgradeFailed (msg : string).

Record progress_panel := {
  pp_headline : string; pp_percent : Z; pp_width : Z; pp_failed : bool; pp_meta : list (string * string);
  pp_alert : option progress_alert; pp_log : option string; pp_cancel_error : option string;
  pp_cancel : option button
}.

Definition some_text (k s : string) : list (string * string) := if decide (s = "") then [] else [(k, s)].

Definition UpgradeProgressPanel (m : monitor) : option progress_panel :=
  match progress_of_page m with
  | None => None
  | Some e =>
      if bool_decide (phase e = IDLE) || bool_decide (phase e = UNSPECIFIED) then None
      else
        let failed := bool_decide (phase e = FAILED) in
        let upgrading := bool_decide (phase e = UPGRADING) in
        Some {| pp_headline := ("◇ Phase: " ++ phaseLabel (phase e) ++ if upgrading then " — Detached" else "")%string;
                pp_percent := percent e; pp_width := bar_width (percent e); pp_failed := failed;
                pp_meta :=
                  some_text "Release" (releaseTag e) ++ some_text "Asset" (assetName e)
                  ++ (if (0 <? bytesTotal e)%Z
                      then [("Bytes", (formatBytes (Some (bytesDone e)) ++ " / " ++ formatBytes (Some (bytesTotal e)))%string)]
                      else [])
                  ++ (if upgrading && (0 <? childPid e)%Z then [("Child PID", pretty (childPid e))] else [])
                  ++ (if upgrading || failed then [] else some_text "Status" (message e));
                pp_alert :=
                  if upgrading then Some (if streamLost m then ConnectionLost else UpgradeRunning)
                  else if bool_decide (phase e = READY) then Some ImageVerified
                  else if failed then Some (UpgradeFailed (or_str (ev_error e) (or_str (message e) "Unknown error.")))
                  else None;
                pp_log := if failed && negb (bool_decide (logTail e = "")) then Some (logTail e) else None;
                pp_cancel_error := errorMessage <$> cancelError m;
                pp_cancel :=
                  if bool_decide (phase e = DOWNLOADING) || bool_decide (phase e = VERIFYING)
                  then Some (mk_button (if cancelBusy m then "Cancelling…" else "Cancel Upgrade") (cancelBusy m))
                  else None |}
  end.

(** ** Factory reset *)

Record reset_form := {
  rf_placeholder : string; rf_typed : string; rf_match : bool; rf_wrong : bool; rf_ack : bool; rf_busy : bool;
  rf_error : option string; rf_cancel : button; rf_confirm : button
}.

Inductive reset_body := ResetTriggered | ResetUnavailable | ResetBegin (b : button) | ResetForm (f : reset_form).

Inductive reset_panel :=
| ResetLoading
| ResetLoadError (msg : string)
| ResetPanel (chips : list string) (strip : list kv_row) (rb : reset_body).

Definition no_capability : capability plain := Build_capability plain false "" "" "" "" "".

Definition reset_strip (c : capability plain) : list kv_row :=
  let capable := capable c in
  [KV "Hostname" (or_str (cap_hostname c) "—") true None;
   KV "Overlay" (or_str (overlayMountpoint c) (if capable then "" else "none")) true (ok_crit capable);
   KV "Backing FS" (or_str (backingFs c) "—") true None;
   KV "Helper" (or_str (firstbootPath c) (if capable then "/sbin/firstboot" else "/sbin/firstboot (missing)")) true
     (if capable then None else Some "muted");
   KV "Mode" (if capable then "wipe-in-place + reboot" else "—") true None;
   KV (if capable then "Capability" else "Reason") (if capable then "ok" else or_str (reason c) "unknown") true
     (ok_crit capable)].

Definition FactoryResetPanel (p : page) : reset_panel :=
  let r := rst p in
  match value (cap p), loading (cap p), load_error (cap p) with
  | None, true, _ => ResetLoading
  | None, false, Some e => ResetLoadError (errorMessage e)
  | oc, _, _ =>
      let c := oc ?? no_capability in
      let matches := hostnameMatches c (resetTypedHostname r) in
      let arm := capable c && matches && resetAck r && negb (resetBusy r) in
      ResetPanel
        (if resetTriggered r then ["Resetting"]
         else if capable c then ["Available"; if arm then "Armed" else "Destructive"] else ["Not Available"])
        (if resetTriggered r then [] else reset_strip c)
        (if resetTriggered r then ResetTriggered
         else if negb (capable c) then ResetUnavailable
         else if negb (resetExpanded r) then ResetBegin (mk_button "Begin reset…" (resetBusy r))
         else ResetForm
           {| rf_placeholder := cap_hostname c; rf_typed := resetTypedHostname r; rf_match := matches;
              rf_wrong := negb matches && negb (bool_decide (resetTypedHostname r = "")); rf_ack := resetAck r;
              rf_busy := resetBusy r; rf_error := errorMessage <$> resetError r;
              rf_cancel := mk_button "Cancel" (resetBusy r);
              rf_confirm := mk_button (if resetBusy r then "Resetting…" else "Reset to factory defaults") (negb arm) |})
  end.

(** ** The page *)

Record page_view := {
  v_info : info_panel; v_updates : option updates_panel; v_upload : option upload_panel;
  v_card : option upgrade_card; v_progress : option progress_panel; v_reset : reset_panel
}.

Definition render_page (now : Z) (p : page) : option page_view :=
  let capable := sysupgrade_capable p in
  us ← (if capable then Some <$> AvailableUpdatesPanel now p else Some None);
  up ← (if capable then Some <$> UploadFirmwarePanel now p else Some None);
  Some {| v_info := SystemInfoPanel (info p); v_updates := us; v_upload := up;
          v_card := match selectionSource (sel p), selected (sel p) with
                    | Some SRelease, Some u => if capable && negb (inFlight p) then Some (ConfirmUpgradeCard u p) else None
                    | _, _ => None
                    end;
          v_progress := UpgradeProgressPanel (mon p); v_reset := FactoryResetPanel p |}.

(** ** What the page offers *)

Definition enabled (b : button) : Prop := b_disabled b = false.

Definition on_form (v : page_view) (P : install_form → Prop) : Prop :=
  ∃ u strip detail alerts f, v_upload v = Some u ∧ lp_body u = UploadStaged strip detail alerts (StagedForm f) ∧ P f.
Definition on_buttons (v : page_view) (P : button → button → Prop) : Prop :=
  ∃ u strip detail alerts d i,
    v_upload v = Some u ∧ lp_body u = UploadStaged strip detail alerts (StagedButtons d i) ∧ P d i.
Definition on_card (v : page_view) (P : upgrade_card → Prop) : Prop := ∃ c, v_card v = Some c ∧ P c.
Definition on_reset_form (v : page_view) (P : reset_form → Prop) : Prop :=
  ∃ chips strip f, v_reset v = ResetPanel chips strip (ResetForm f) ∧ P f.
Definition has_box (l : string) (checks : list checkbox) : Prop :=
  ∃ b, b ∈ checks ∧ c_label b = l ∧ c_disabled b = false.

(** The control an event of the operator comes from is shown and enabled. *)
Definition offers (v : page_view) (e : event) : Prop :=
  match e with
  | ClickRefresh => enabled (ip_refresh (v_info v))
  | ClickCheck => ∃ u, v_updates v = Some u ∧ enabled (check_button u)
  | TogglePrerelease _ => ∃ u, v_updates v = Some u ∧ (prerelease_box u).2 = false
  | ClickInstall row =>
      ∃ u head body cards key cells cls, v_updates v = Some u ∧ au_body u = inr (Table head body cards)
        ∧ body !! row = Some (key, cells) ∧ (cls, InstallButton false) ∈ cells
  | ClickInstallStaged => on_buttons v (λ _ i, enabled i)
  | ClickDiscard => on_buttons v (λ d _, enabled d)
  | ClickCancelSelection => on_form v (λ f, enabled (f_cancel f)) ∨ on_card v (λ c, enabled (u_cancel c))
  | ToggleOption k _ =>
      on_form v (λ f, has_box (option_label k) (f_checks f)) ∨ on_card v (λ c, has_box (option_label k) (u_checks c))
  | ToggleForceUnknown _ =>
      on_form v (λ f, has_box unknown_label (f_checks f)) ∨ on_card v (λ c, has_box unknown_label (u_checks c))
  | ToggleSkipPreflight _ => on_form v (λ f, has_box skip_label (f_checks f))
  | ClickConfirm => on_form v (λ f, enabled (f_install f)) ∨ on_card v (λ c, enabled (u_install c))
  | PickFile _ _ => ∃ u, v_upload v = Some u ∧ lp_input_disabled u = false
  | ClickCancelUpload => ∃ u b, v_upload v = Some u ∧ lp_cancel u = Some b ∧ enabled b
  | ClickCancelUpgrade => ∃ x b, v_progress v = Some x ∧ pp_cancel x = Some b ∧ enabled b
  | ClickBeginReset => ∃ chips strip b, v_reset v = ResetPanel chips strip (ResetBegin b) ∧ enabled b
  | ClickCancelReset => on_reset_form v (λ f, enabled (rf_cancel f))
  | TypeHostname _ | ToggleAck _ => on_reset_form v (λ f, rf_busy f = false)
  | ClickConfirmReset => on_reset_form v (λ f, enabled (rf_confirm f))
  | _ => True
  end.

(** ** Inversion of the view *)

Lemma render_fields now p v :
  render_page now p = Some v →
  v_updates v = (if sysupgrade_capable p then AvailableUpdatesPanel now p else None)
  ∧ v_upload v = (if sysupgrade_capable p then UploadFirmwarePanel now p else None)
  ∧ (sysupgrade_capable p = true → is_Some (AvailableUpdatesPanel now p) ∧ is_Some (UploadFirmwarePanel now p))
  ∧ v_card v = (if card_shown p then (λ u, ConfirmUpgradeCard u p) <$> selected (sel p) else None)
  ∧ v_progress v = UpgradeProgressPanel (mon p) ∧ v_reset v = FactoryResetPanel p ∧ v_info v = SystemInfoPanel (info p).
Proof.
  unfold render_page, card_shown. intros H.
  destruct (sysupgrade_capable p) eqn:Ec.
  - destruct (AvailableUpdatesPanel now p) as [us|]; [|done]. destruct (UploadFirmwarePanel now p) as [up|]; [|done].
    cbn in H. injection H as <-. cbn. split_and!; try done.
    destruct (selectionSource (sel p)) as [[]|]; [|by destruct (selected (sel p))|by destruct (selected (sel p))].
    destruct (selected (sel p)); [|done]. cbn. by destruct (inFlight p).
  - cbn in H. injection H as <-. cbn. split_and!; try done.
    rewrite andb_false_r. by destruct (selectionSource (sel p)) as [[]|], (selected (sel p)).
Qed.

(** The body of the local image panel. *)
Lemma upload_panel_body now p u :
  UploadFirmwarePanel now p = Some u →
  lp_input_disabled u = installDisabled p || uploading p
  ∧ lp_cancel u = (if uploading p then Some (mk_button "Cancel Upload" false) else None)
  ∧ (uploading p = false → ∀ i, value (staged p) = Some i →
      ∃ uploaded, lp_body u = UploadStaged (staged_strip i uploaded) (compat_detail i) (staged_alerts i)
        (if installSelected p then StagedForm (StagedImageInstallForm i p)
         else StagedButtons (mk_button "Discard" (installDisabled p || inFlight p))
                (mk_button "Install Staged Image" (installDisabled p || inFlight p))))
  ∧ (∀ strip detail alerts foot, lp_body u = UploadStaged strip detail alerts foot →
      uploading p = false ∧ ∃ i, value (staged p) = Some i ∧ alerts = staged_alerts i).
Proof.
  unfold UploadFirmwarePanel. intros H.
  destruct (uploading p) eqn:Eu; cbn in H.
  - injection H as <-. by cbn; split_and!.
  - destruct (value (staged p)) as [i|] eqn:Ei; cbn in H.
    + destruct (formatRelative now (uploadedAt i)) as [t|] eqn:Et; [|done]. cbn in H. injection H as <-.
      cbn. split_and!; [done..| |].
      * intros _ j [= <-]. by exists t.
      * intros s0 d0 a0 f0 [= <- <- <- <-]. split; [done|]. by exists i.
    + injection H as <-. by cbn; split_and!.
Qed.

Lemma updates_controls now p u :
  AvailableUpdatesPanel now p = Some u →
  b_disabled (check_button u) = installDisabled p || loading (updates p)
  ∧ (prerelease_box u).2 = installDisabled p || loading (updates p).
Proof.
  unfold AvailableUpdatesPanel. intros H. destruct (fetched_text _ _); [|done].
  cbn [mbind option_bind] in H. destruct (releases_body _ _); [|done]. by injection H as <-.
Qed.

Lemma draw_cells r cs : mapM draw_cell r = Some cs → ∀ k c, (k, Some c) ∈ r → (k, c) ∈ cs.
Proof.
  intros H%mapM_Some k c Hin. apply list_elem_of_lookup in Hin as [i Hi].
  destruct (Forall2_lookup_l _ _ _ _ _ H Hi) as (y & Hy & He). cbn in He. injection He as <-.
  by eapply list_elem_of_lookup_2.
Qed.

Lemma draw_table head body cards t :
  draw (Table head body cards) = Some t →
  ∃ body' cards', t = Table head body' cards'
  ∧ Forall2 (λ r r', r'.1 = r.1 ∧ mapM draw_cell r.2 = Some r'.2) body body'.
Proof.
  cbn [draw]. intros H. destruct (mapM _ body) as [b|] eqn:Eb; [|done]. cbn in H.
  destruct (mapM _ cards) as [c|]; [|done]. cbn in H. injection H as <-. exists b, c. split; [done|].
  apply mapM_Some in Eb. eapply Forall2_impl; [exact Eb|]. intros [k cs] r'. cbn.
  destruct (mapM draw_cell cs) as [cs'|]; [|done]. by intros [= <-].
Qed.

Lemma releases_body_eq now p :
  listed p ≠ [] →
  let columns := releaseColumns now (selectedTag p) (installDisabled p) in
  ∃ first, first ∈ columns ∧
  releases_body now p = inr <$> draw (Table (map label columns)
    (imap (λ i r, (release_key r i, map (styled r) columns)) (listed p))
    (imap (make_card release_key columns (titleCol columns first None)) (listed p))).
Proof.
  intros El columns. unfold releases_body, releases_table. fold columns.
  eexists. split; [|destruct (listed p); [done|by erewrite dataTable_eq by done]]. by left.
Qed.

(** The table of the releases: a row for each, and the button of the last column. *)
Lemma action_cell now p u row o :
  AvailableUpdatesPanel now p = Some u → listed p !! row = Some o → row_selected p o = false →
  ∃ head body cards key cells cls, au_body u = inr (Table head body cards)
    ∧ body !! row = Some (key, cells) ∧ (cls, InstallButton (installDisabled p)) ∈ cells.
Proof.
  unfold AvailableUpdatesPanel. intros H Ho Hs.
  destruct (fetched_text now (fetchedAt p)) as [fetched|]; [|done]. cbn [mbind option_bind] in H.
  destruct (releases_body now p) as [b|] eqn:Eb; [|done]. cbn in H. injection H as <-. cbn [au_body].
  destruct (releases_body_eq now p) as (first & _ & He); [by intros El; rewrite El in Ho|]. rewrite He in Eb. clear He.
  destruct (draw _) as [t|] eqn:Et; [|done]. injection Eb as <-.
  apply draw_table in Et as (body & cards' & -> & Hb).
  destruct (Forall2_lookup_l _ _ _ row (release_key o row, map (styled o) (releaseColumns now (selectedTag p) (installDisabled p))) Hb)
    as ([k cells] & Hk & _ & He2); [by rewrite list_lookup_imap, Ho|].
  eexists _, _, _, k, cells, _. split_and!; [done|done|]. eapply draw_cells; [exact He2|].
  apply list_elem_of_fmap. eexists. split; [|by do 5 right; left]. unfold styled, release_column. cbn [render].
  change (is_selected (selectedTag p) o) with (row_selected p o). by rewrite Hs.
Qed.

(** ** Properties *)

Lemma when_guarded b f p (P : Prop) : (b = true → P) → ¬ P → when b f p = p.
Proof. destruct b; [|done]. intros H Hn. by destruct Hn; apply H. Qed.

Lemma staged_shown_inv p :
  staged_shown p = true → sysupgrade_capable p = true ∧ uploading p = false ∧ ∃ i, value (staged p) = Some i.
Proof.
  unfold staged_shown. rewrite !andb_true_iff, negb_true_iff. intros [[? ?] [i Hi]%bool_decide_eq_true].
  split_and!; [done..|by exists i].
Qed.

Section Offers.
Context (now : Z) (p : page) (v : page_view) (Hv : render_page now p = Some v).

Lemma shown_upload : sysupgrade_capable p = true → ∃ u, v_upload v = Some u ∧ UploadFirmwarePanel now p = Some u.
Proof. intros Hc. destruct (render_fields _ _ _ Hv) as (_ & E & H & _). rewrite E, Hc. by destruct (H Hc) as [_ [u ->]]; exists u. Qed.

Lemma shown_updates : sysupgrade_capable p = true → ∃ u, v_updates v = Some u ∧ AvailableUpdatesPanel now p = Some u.
Proof. intros Hc. destruct (render_fields _ _ _ Hv) as (E & _ & H & _). rewrite E, Hc. by destruct (H Hc) as [[u ->] _]; exists u. Qed.

Lemma shown_staged :
  staged_shown p = true →
  ∃ u i strip, v_upload v = Some u ∧ value (staged p) = Some i
  ∧ lp_body u = UploadStaged strip (compat_detail i) (staged_alerts i)
      (if installSelected p then StagedForm (StagedImageInstallForm i p)
       else StagedButtons (mk_button "Discard" (installDisabled p || inFlight p))
              (mk_button "Install Staged Image" (installDisabled p || inFlight p))).
Proof.
  intros (Hc & Hu & i & Hi)%staged_shown_inv. destruct (shown_upload Hc) as (u & E & Hup).
  destruct (upload_panel_body _ _ _ Hup) as (_ & _ & H & _). destruct (H Hu i Hi) as (t & Ht).
  exists u, i, (staged_strip i t). by rewrite Ht.
Qed.

Lemma shown_form :
  form_shown p = true →
  ∃ u i strip, v_upload v = Some u ∧ value (staged p) = Some i
  ∧ lp_body u = UploadStaged strip (compat_detail i) (staged_alerts i) (StagedForm (StagedImageInstallForm i p)).
Proof.
  unfold form_shown. intros [Hs Hl]%andb_true_iff. destruct (shown_staged Hs) as (u & i & strip & ? & ? & Hb).
  exists u, i, strip. by rewrite Hl in Hb.
Qed.

Lemma shown_card : card_shown p = true → ∃ o, selected (sel p) = Some o ∧ v_card v = Some (ConfirmUpgradeCard o p).
Proof.
  intros Hc. destruct (render_fields _ _ _ Hv) as (_ & _ & _ & E & _). rewrite E, Hc.
  unfold card_shown in Hc. rewrite !andb_true_iff in Hc. destruct Hc as [[[_ [o Ho]%bool_decide_eq_true] _] _].
  exists o. by rewrite Ho.
Qed.

Lemma form_offers (P : install_form → Prop) :
  form_shown p = true → (∀ i, value (staged p) = Some i → P (StagedImageInstallForm i p)) → on_form v P.
Proof. intros (u & i & strip & Hu & Hi & Hb)%shown_form H. eexists u, _, _, _, _. by split_and!; [..|apply H]. Qed.

Lemma card_offers (P : upgrade_card → Prop) : card_shown p = true → (∀ o, P (ConfirmUpgradeCard o p)) → on_card v P.
Proof. intros (o & _ & Hc)%shown_card H. by eexists. Qed.

(** A control that the form and the card have both. *)
Lemma option_offers (P : install_form → Prop) (Q : upgrade_card → Prop) :
  option_shown p = true →
  (startBusy (sel p) = false → (∀ i, P (StagedImageInstallForm i p)) ∧ (∀ o, Q (ConfirmUpgradeCard o p))) →
  on_form v P ∨ on_card v Q.
Proof.
  unfold option_shown. intros [[Hs|Hs]%orb_true_iff Hb%negb_true_iff]%andb_true_iff H; destruct (H Hb) as [H1 H2];
    [left; by apply form_offers|right; by apply card_offers].
Qed.

Lemma button_offers (P : button → button → Prop) :
  staged_shown p = true → installSelected p = false →
  P (mk_button "Discard" (installDisabled p || inFlight p)) (mk_button "Install Staged Image" (installDisabled p || inFlight p)) →
  on_buttons v P.
Proof.
  intros (u & i & strip & Hu & Hi & Hb)%shown_staged Hl H. rewrite Hl in Hb. by eexists u, _, _, _, _, _.
Qed.

Lemma reset_offers (P : reset_form → Prop) :
  reset_form_shown p = true →
  (∀ f, rf_cancel f = mk_button "Cancel" (resetBusy (rst p)) → rf_busy f = resetBusy (rst p) →
     b_disabled (rf_confirm f) = negb (armed p) → P f) →
  on_reset_form v P.
Proof.
  unfold reset_form_shown, reset_capable, armed. rewrite !andb_true_iff, negb_true_iff. intros [[Hc Ht] He].
  unfold on_reset_form. destruct (render_fields _ _ _ Hv) as (_ & _ & _ & _ & _ & -> & _). unfold FactoryResetPanel.
  destruct (value (cap p)) as [c|]; [|done]. cbn [default id]. rewrite Ht, !Hc, He. cbn [negb andb].
  intros H. destruct (loading (cap p)); eexists _, _, _; (split; [done|]); by apply H.
Qed.

Lemma begin_offers :
  reset_capable p = true → resetTriggered (rst p) = false → resetExpanded (rst p) = false →
  ∃ chips strip, v_reset v = ResetPanel chips strip (ResetBegin (mk_button "Begin reset…" (resetBusy (rst p)))).
Proof.
  unfold reset_capable. intros Hc Ht He.
  destruct (render_fields _ _ _ Hv) as (_ & _ & _ & _ & _ & -> & _). unfold FactoryResetPanel.
  destruct (value (cap p)) as [c|]; [|done]. cbn [default id]. rewrite Ht, !Hc, He. cbn [negb].
  destruct (loading (cap p)); by eexists _, _.
Qed.

Lemma cancel_offers :
  panel_shown (mon p) = true → cancelable (mon p) = true →
  ∃ x b, v_progress v = Some x ∧ pp_cancel x = Some b ∧ b_disabled b = cancelBusy (mon p).
Proof.
  destruct (render_fields _ _ _ Hv) as (_ & _ & _ & _ & -> & _). unfold panel_shown, cancelable, UpgradeProgressPanel.
  destruct (progress_of_page (mon p)) as [e|]; [|done]. intros H1%negb_true_iff H2.
  rewrite H1. eexists _, _. split; [done|]. cbn [pp_cancel]. by rewrite H2.
Qed.
End Offers.

Lemma option_box o k busy : ∃ b, b ∈ options_row o busy ∧ c_label b = option_label k ∧ c_disabled b = busy.
Proof.
  destruct k; unfold options_row; [exists (mk_check "Preserve configuration" (negb (noPreserveConfig o)) busy)
    |exists (mk_check "Test only (-T)" (testOnly o) busy)|exists (mk_check "Force (-F)" (force o) busy)
    |exists (mk_check "Quiet (-q)" (quiet o) busy)|exists (mk_check "Verbose (-v)" (verbose o) busy)];
    (split; [rewrite !elem_of_cons; tauto|done]).
Qed.

Lemma has_box_app l checks checks' : has_box l checks → has_box l (checks ++ checks').
Proof. intros (b & Hb & ? & ?). exists b. split_and!; [apply elem_of_app; by left|done..]. Qed.

Lemma unknown_has_box p checks checks' :
  unknownVersion p = true → startBusy (sel p) = false → has_box unknown_label (checks ++ unknown_box p ++ checks').
Proof.
  intros Hu Hb. unfold unknown_box. rewrite Hu, Hb. exists (mk_check unknown_label (forceUnknown (sel p)) false).
  split; [|done]. rewrite !elem_of_app, list_elem_of_singleton. tauto.
Qed.

(** Nothing happens that is not offered: an event of the operator that no shown and
    enabled control can cause leaves the page as it is. *)
Theorem not_offered JSON_parse parseDate now p v e :
  render_page now p = Some v → ¬ offers v e → handle JSON_parse parseDate e p = p.
Proof.
  intros Hv Hn. pose proof (render_fields _ _ _ Hv) as (_ & _ & _ & _ & _ & _ & Ei).
  destruct e; try (by destruct Hn); cbn [handle]; try (eapply when_guarded; [|exact Hn]); cbn [offers].
  - rewrite Ei. intros H%negb_true_iff. exact H.
  - intros [Hc Hb%negb_true_iff]%andb_true_iff. destruct (shown_updates now p v Hv Hc) as (u & Hu & Hp). exists u.
    split; [done|]. unfold enabled. by rewrite (proj1 (updates_controls _ _ _ Hp)).
  - intros [Hc Hb%negb_true_iff]%andb_true_iff. destruct (shown_updates now p v Hv Hc) as (u & Hu & Hp). exists u.
    split; [done|]. by rewrite (proj2 (updates_controls _ _ _ Hp)).
  - unfold click_install. destruct (listed p !! row) as [o|] eqn:Eo; [|done]. eapply when_guarded; [|exact Hn].
    rewrite !andb_true_iff, !negb_true_iff. intros [[Hc Hd] Hs]. cbn [offers].
    destruct (shown_updates now p v Hv Hc) as (u & Hu & Hp).
    destruct (action_cell _ _ _ _ _ Hp Eo Hs) as (head & body & cards & k & cells & cls & H1 & H2 & H3).
    rewrite Hd in H3. by eexists u, head, body, cards, k, cells, cls.
  - rewrite !andb_true_iff, !negb_true_iff. intros [[Hs Hl] Hd]. apply (button_offers now p v Hv); [exact Hs|exact Hl|exact Hd].
  - intros Ho. apply (option_offers now p v Hv); [done|]. intros Hb. split; intros ?; exact Hb.
  - intros Ho. apply (option_offers now p v Hv); [done|]. intros Hb.
    split; intros ?; apply has_box_app; rewrite Hb; destruct (option_box (options (sel p)) key false) as (b & ?); by exists b.
  - intros [Ho Hu]%andb_true_iff. apply (option_offers now p v Hv); [done|]. intros Hb.
    split; intros ?; [by apply unknown_has_box|]. rewrite <- (app_nil_r (u_checks _)). cbn [u_checks ConfirmUpgradeCard].
    rewrite <- app_assoc. by apply unknown_has_box.
  - rewrite !andb_true_iff, negb_true_iff. intros [[Hf Hb] Hi]. apply (form_offers now p v Hv); [done|].
    intros i Hi'. rewrite Hi' in Hi. unfold StagedImageInstallForm. cbn [f_checks].
    rewrite (proj1 (negb_true_iff _) Hi), Hb. exists (mk_check skip_label (skipPreflight (sel p)) false).
    split; [|done]. rewrite !elem_of_app, list_elem_of_singleton. tauto.
  - intros [Hc|Hc]%orb_true_iff; [left|right].
    + unfold form_confirm_enabled in Hc. apply andb_true_iff in Hc as [Hf Hg%negb_true_iff].
      apply (form_offers now p v Hv); [done|]. intros i Hi. unfold preflightBlock in Hg. by rewrite Hi in Hg.
    + unfold card_confirm_enabled in Hc. apply andb_true_iff in Hc as [Hf Hg%negb_true_iff].
      by apply (card_offers now p v Hv).
  - intros [Hc Hb%negb_true_iff]%andb_true_iff. destruct (shown_upload now p v Hv Hc) as (u & Hu & Hp). exists u.
    split; [done|]. by rewrite (proj1 (upload_panel_body _ _ _ Hp)).
  - intros [Hc Hb]%andb_true_iff. destruct (shown_upload now p v Hv Hc) as (u & Hu & Hp).
    destruct (upload_panel_body _ _ _ Hp) as (_ & H & _). rewrite Hb in H. by eexists u, _.
  - rewrite !andb_true_iff, !negb_true_iff. intros [[Hs Hl] Hd]. apply (button_offers now p v Hv); [exact Hs|exact Hl|exact Hd].
  - rewrite !andb_true_iff, negb_true_iff. intros [[H1 H2] H3].
    destruct (cancel_offers now p v Hv H1 H2) as (x & b & ? & ? & Hb). exists x, b. split_and!; [done..|]. unfold enabled. by rewrite Hb.
  - rewrite !andb_true_iff, !negb_true_iff. intros [[[Hc Ht] He] Hb].
    destruct (begin_offers now p v Hv Hc Ht He) as (chips & strip & Hr). by eexists _, _, _.
  - intros [Hs Hb%negb_true_iff]%andb_true_iff. apply (reset_offers now p v Hv); [done|]. by intros f -> _ _.
  - intros [Hs Hb%negb_true_iff]%andb_true_iff. apply (reset_offers now p v Hv); [done|]. by intros f _ -> _.
  - intros [Hs Hb%negb_true_iff]%andb_true_iff. apply (reset_offers now p v Hv); [done|]. by intros f _ -> _.
  - intros [Hs Ha]%andb_true_iff. apply (reset_offers now p v Hv); [done|]. intros f _ _ H. unfold enabled. by rewrite H, Ha.
Qed.

(** *** The daemon's checks

    What [StartUpgrade] and [StartLocalUpgrade] of the manager look at before
    they start anything: whether the running version parses, the staged image's
    preflight, and whether an upgrade is running. *)
Inductive manager_error :=
| ErrOptionConflict | ErrUnknownCurrentVersion | ErrNoStagedImage | ErrStagedPreflightFailed | ErrBusy.

Record upgrade_manager := { versionParses : bool; stagedPreflightOK : option bool; managerBusy : bool }.

Definition manager_StartUpgrade (m : upgrade_manager) (o : install_options) (forceUnknown : bool) : option manager_error :=
  if testOnly o && force o then Some ErrOptionConflict
  else if negb (versionParses m) && negb forceUnknown then Some ErrUnknownCurrentVersion
  else if managerBusy m then Some ErrBusy else None.

Definition manager_StartLocalUpgrade (m : upgrade_manager) (o : install_options) (skipPreflight forceUnknown : bool)
    : option manager_error :=
  if testOnly o && force o then Some ErrOptionConflict
  else if negb (versionParses m) && negb forceUnknown then Some ErrUnknownCurrentVersion
  else match stagedPreflightOK m with
       | None => Some ErrNoStagedImage
       | Some ok =>
           if negb ok && negb skipPreflight then Some ErrStagedPreflightFailed
           else if managerBusy m then Some ErrBusy else None
       end.

(** What the box with a label shows, if there is one. *)
Definition box_value (l : string) (checks : list checkbox) : option bool :=
  c_checked <$> head (filter (λ b, c_label b = l) checks).
Definition ticked (l : string) (checks : list checkbox) : bool := default false (box_value l checks).

(** What the operator is told of the options that a click sends: each one's box
    shows it (the box of the unknown version while the version is unknown),
    they do not conflict, and the alert says whether the configuration is wiped. *)
Definition told (o : install_options) (unknown force_unknown : bool) (checks : list checkbox) (alerts : list alert) : Prop :=
  box_value (option_label KNoPreserveConfig) checks = Some (negb (noPreserveConfig o))
  ∧ box_value (option_label KTestOnly) checks = Some (testOnly o)
  ∧ box_value (option_label KVerbose) checks = Some (verbose o)
  ∧ box_value (option_label KQuiet) checks = Some (quiet o)
  ∧ box_value (option_label KForce) checks = Some (force o)
  ∧ box_value unknown_label checks = (if unknown then Some force_unknown else None)
  ∧ testOnly o && force o = false
  ∧ (WipeConfiguration ∈ alerts ↔ noPreserveConfig o = true) ∧ (HeadsUp ∈ alerts ↔ noPreserveConfig o = false).

(** What the staged image's panel warns of. *)
Definition warned (i : image) (skipPreflight : bool) (alerts : list alert) : Prop :=
  (metadataPresent i = false → NoImageMetadata ∈ alerts)
  ∧ (metadataPresent i = true → imageCompatible i = false → ∃ s d n, IncompatibleImage s d n ∈ alerts)
  ∧ (preflightOk i = false → skipPreflight = true ∧ ∃ why, PreflightFailed why ∈ alerts).

Lemma staged_alerts_warned i skip : negb (preflightOk i) && negb skip = false → warned i skip (staged_alerts i).
Proof.
  intros H. unfold warned, staged_alerts. split_and!.
  - intros ->. by left.
  - intros -> ->. eexists _, _, _. by left.
  - intros E. rewrite E in *. cbn in H. apply negb_false_iff in H. split; [done|]. eexists. rewrite !elem_of_app.
    right. right. right. by left.
Qed.

Lemma config_alert_told o (l : list alert) (s : selection) :
  WipeConfiguration ∉ l → HeadsUp ∉ l →
  let alerts := l ++ [config_alert o] ++ start_alert s in
  (WipeConfiguration ∈ alerts ↔ noPreserveConfig o = true) ∧ (HeadsUp ∈ alerts ↔ noPreserveConfig o = false).
Proof.
  intros H1 H2 alerts. subst alerts. unfold config_alert, start_alert.
  destruct (noPreserveConfig o), (startError s); cbn; set_solver.
Qed.

Lemma boxes_told o busy p (rest : list checkbox) :
  Forall (λ b, c_label b = skip_label) rest →
  let checks := options_row o busy ++ unknown_box p ++ rest in
  box_value (option_label KNoPreserveConfig) checks = Some (negb (noPreserveConfig o))
  ∧ box_value (option_label KTestOnly) checks = Some (testOnly o)
  ∧ box_value (option_label KVerbose) checks = Some (verbose o)
  ∧ box_value (option_label KQuiet) checks = Some (quiet o)
  ∧ box_value (option_label KForce) checks = Some (force o)
  ∧ box_value unknown_label checks = (if unknownVersion p then Some (forceUnknown (sel p)) else None)
  ∧ box_value skip_label checks = c_checked <$> head rest.
Proof.
  intros Hr checks. subst checks. unfold unknown_box, box_value.
  assert (∀ l, l ≠ skip_label → filter (λ b, c_label b = l) rest = []) as Hn.
  { intros l Hl. induction Hr as [|b rest Hb Hr IH]; [done|]. by rewrite filter_cons_False by congruence. }
  assert (filter (λ b, c_label b = skip_label) rest = rest) as Hs.
  { clear Hn. induction Hr as [|b rest Hb Hr IH]; [done|]. by rewrite filter_cons_True, IH by done. }
  rewrite !filter_app, Hs, (Hn unknown_label) by done.
  by destruct (unknownVersion p).
Qed.

Lemma form_told p i :
  let f := StagedImageInstallForm i p in
  b_disabled (f_install f) = false →
  told (options (sel p)) (unknownVersion p) (forceUnknown (sel p)) (f_checks f) (f_alerts f)
  ∧ box_value skip_label (f_checks f) = (if preflightOk i then None else Some (skipPreflight (sel p)))
  ∧ negb (preflightOk i) && negb (skipPreflight (sel p)) = false.
Proof.
  intros f. subst f. unfold StagedImageInstallForm. cbn [f_install f_checks f_alerts b_disabled].
  rewrite !orb_false_iff. intros [[Hb Ho] Hp]. unfold told. rewrite Ho, Hp.
  destruct (boxes_told (options (sel p)) (startBusy (sel p)) p
    (if preflightOk i then [] else [mk_check skip_label (skipPreflight (sel p)) (startBusy (sel p))]))
    as (B1 & B2 & B3 & B4 & B5 & B6 & B7); [destruct (preflightOk i); by repeat constructor|].
  split_and!; try done.
  - apply (config_alert_told _ [] (sel p)); set_solver.
  - apply (config_alert_told _ [] (sel p)); set_solver.
  - rewrite B7. by destruct (preflightOk i).
Qed.

Lemma card_told p u :
  b_disabled (u_install (ConfirmUpgradeCard u p)) = false →
  told (options (sel p)) (unknownVersion p) (forceUnknown (sel p)) (u_checks (ConfirmUpgradeCard u p))
    (u_alerts (ConfirmUpgradeCard u p)).
Proof.
  unfold ConfirmUpgradeCard. cbn [u_install u_checks u_alerts b_disabled].
  rewrite !orb_false_iff. intros [Hb Ho]. unfold told. rewrite Ho.
  destruct (boxes_told (options (sel p)) (startBusy (sel p)) p []) as (B1 & B2 & B3 & B4 & B5 & B6 & _);
    [done|]. rewrite app_nil_r in *.
  split_and!; try done.
  - apply (config_alert_told _ [] (sel p)); set_solver.
  - apply (config_alert_told _ [] (sel p)); set_solver.
Qed.

(** A permission whose box is not shown is one the manager does not look at. *)
Lemma local_as_ticked m o unknown f (checks : list checkbox) (alerts : list alert) (ok skip : bool) :
  told o unknown f checks alerts → box_value skip_label checks = (if ok then None else Some skip : option bool) →
  versionParses m = negb unknown → stagedPreflightOK m = Some ok →
  manager_StartLocalUpgrade m o skip f
  = manager_StartLocalUpgrade m o (ticked skip_label checks) (ticked unknown_label checks).
Proof.
  intros (_ & _ & _ & _ & _ & Hu & _) Hs Hm Hp. unfold manager_StartLocalUpgrade, ticked.
  rewrite Hu, Hs, Hm, Hp. by destruct unknown, ok.
Qed.

Lemma release_as_ticked m o unknown f (checks : list checkbox) (alerts : list alert) :
  told o unknown f checks alerts → versionParses m = negb unknown →
  manager_StartUpgrade m o f = manager_StartUpgrade m o (ticked unknown_label checks).
Proof.
  intros (_ & _ & _ & _ & _ & Hu & _) Hm. unfold manager_StartUpgrade, ticked.
  rewrite Hu, Hm. by destruct unknown.
Qed.

Lemma on_form_inv now p v P :
  render_page now p = Some v → on_form v P →
  ∃ u i strip, v_upload v = Some u ∧ value (staged p) = Some i ∧ selectionSource (sel p) = Some SLocal
  ∧ lp_body u = UploadStaged strip (compat_detail i) (staged_alerts i) (StagedForm (StagedImageInstallForm i p))
  ∧ P (StagedImageInstallForm i p).
Proof.
  intros Hv (u & strip & d & al & f & Hu & Hb & HP). pose proof Hu as Hu'.
  destruct (render_fields _ _ _ Hv) as (_ & E & _). rewrite E in Hu'. destruct (sysupgrade_capable p); [|done].
  destruct (upload_panel_body _ _ _ Hu') as (_ & _ & H1 & H2). destruct (H2 _ _ _ _ Hb) as (Hn & i & Hi & _).
  destruct (H1 Hn i Hi) as (t & Ht). unfold installSelected in Ht.
  case_bool_decide as Hl; rewrite Ht in Hb; [|done].
  injection Hb as _ _ _ <-. exists u, i, (staged_strip i t). by rewrite Ht.
Qed.

Lemma on_card_inv now p v P :
  render_page now p = Some v → on_card v P →
  ∃ o, selectionSource (sel p) = Some SRelease ∧ selected (sel p) = Some o
  ∧ v_card v = Some (ConfirmUpgradeCard o p) ∧ P (ConfirmUpgradeCard o p).
Proof.
  intros Hv (c & Hc & HP). pose proof Hc as Hc'. destruct (render_fields _ _ _ Hv) as (_ & _ & _ & E & _).
  rewrite E in Hc'. unfold card_shown in Hc'. case_bool_decide as Hs; [|done].
  destruct (selected (sel p)) as [o|]; [|by destruct (_ && _) in Hc']. exists o.
  destruct (_ && _) in Hc'; [|done]. injection Hc' as <-. done.
Qed.

(** C38: what is sent is what is shown.  When the install button is enabled, a click sends
    the release and asset of the card, or the staged image of the form, and the box of
    every option shows the value sent; the alert says whether the configuration is wiped, and
    an image without metadata, for other devices or refused by the preflight is
    shown as such, the last only with the box ticked that skips the preflight.  When
    nothing can be sent, the reason is shown.  Two permissions have a box only while they
    are needed, and one that was ticked before is sent on without it
    ([unknown_box_hidden], [kept_skip_preflight]): the permission to install over an unknown
    version, whose box is there exactly while the version is unknown, and the one to skip
    the preflight, whose box is there exactly for an image that failed it.  On a daemon in
    the state the page shows, such a leftover changes nothing: its checks answer as they
    would to exactly the ticked boxes. *)
Theorem install_as_shown now p v :
  render_page now p = Some v → offers v ClickConfirm →
  let (s, r) := handleConfirm (value (staged p)) (sel p) in
  match r with
  | Some (StartUpgrade t a o f) =>
      on_card v (λ c, u_tag c = t ∧ u_asset c = a ∧ t ≠ "" ∧ a ≠ "" ∧ told o (unknownVersion p) f (u_checks c) (u_alerts c)
        ∧ ∀ m, versionParses m = negb (unknownVersion p) →
            manager_StartUpgrade m o f = manager_StartUpgrade m o (ticked unknown_label (u_checks c)))
  | Some (StartLocalUpgrade o f skip) =>
      ∃ u strip detail alerts form i, v_upload v = Some u ∧ lp_body u = UploadStaged strip detail alerts (StagedForm form)
        ∧ value (staged p) = Some i ∧ f_name form = filename i
        ∧ told o (unknownVersion p) f (f_checks form) (f_alerts form) ∧ warned i skip alerts
        ∧ box_value skip_label (f_checks form) = (if preflightOk i then None else Some skip)
        ∧ ∀ m, versionParses m = negb (unknownVersion p) → stagedPreflightOK m = Some (preflightOk i) →
            manager_StartLocalUpgrade m o skip f
            = manager_StartLocalUpgrade m o (ticked skip_label (f_checks form)) (ticked unknown_label (f_checks form))
  | None => startError s ≠ None
  end.
Proof.
  intros Hv [Hf|Hc]; unfold handleConfirm, confirm_call.
  - destruct (on_form_inv _ _ _ _ Hv Hf) as (u & i & strip & Hu & Hi & Hs & Hb & He). rewrite Hs, Hi.
    destruct (form_told p i He) as (Ht & Hk & Hw). eexists u, _, _, _, _, i. split_and!; [done..| |done|].
    + by apply staged_alerts_warned.
    + intros m Hm Hp. by eapply local_as_ticked.
  - destruct (on_card_inv _ _ _ _ Hv Hc) as (o & Hs & Ho & Hcard & He). rewrite Hs, Ho.
    destruct (truthy (offer_tag o)) as [t|] eqn:Et; [|done]. destruct (truthy (offer_asset o)) as [a|] eqn:Ea; [|done].
    apply truthy_Some in Et as [Et Ht], Ea as [Ea Ha].
    eexists. split; [done|]. pose proof (card_told p o He) as Hc'.
    split_and!; [cbn; by rewrite Et|cbn; by rewrite Ea|done..|]. intros m Hm. by eapply release_as_ticked.
Qed.

(** ** Renders that throw *)

Lemma formatRelative_some now d : is_Some (formatRelative now d).
Proof. destruct d as [[t|]|]; cbn; [|done..]. repeat case_match; done. Qed.

Lemma formatDate_none d : formatDate d = None ↔ d = Some InvalidDate.
Proof. by destruct d as [[t|]|]. Qed.

Lemma fetched_text_none now d : fetched_text now d = None ↔ d = Some InvalidDate.
Proof.
  destruct (formatRelative_some now d) as [r Hr].
  destruct d as [[t|]|]; unfold fetched_text; [|done..]. rewrite Hr. done.
Qed.

Lemma published_none now u : published now u = None ↔ u_release u.2 ≫= publishedAt = Some InvalidDate.
Proof.
  unfold published. destruct (u_release u.2 ≫= publishedAt) as [d|]; [|done].
  destruct (formatRelative_some now (Some d)) as [r Hr]. destruct d as [t|]; [|done]. rewrite Hr. done.
Qed.

Definition cell_ok (c : string * fallible) : Prop := is_Some c.2.

Lemma mapM_some {A B} (f : A → option B) l : is_Some (mapM f l) ↔ Forall (λ x, is_Some (f x)) l.
Proof. split; [apply mapM_is_Some_1|apply mapM_is_Some_2]. Qed.

Lemma draw_cell_ok c : is_Some (draw_cell c) ↔ cell_ok c.
Proof. unfold draw_cell, cell_ok. by rewrite fmap_is_Some. Qed.

Lemma both_some {A B C} (x : option A) (y : option B) (f : A → B → C) :
  is_Some (a ← x; b ← y; Some (f a b)) ↔ is_Some x ∧ is_Some y.
Proof. destruct x, y; cbn; rewrite !is_Some_alt; tauto. Qed.

Lemma draw_some head body cards :
  is_Some (draw (Table head body cards))
  ↔ Forall (λ r, Forall cell_ok r.2) body
    ∧ Forall (λ c, cell_ok (card_title c) ∧ Forall (λ b, cell_ok b.2) (card_body c)) cards.
Proof.
  assert (∀ r : string * list (string * fallible), is_Some ((λ cs, (r.1, cs)) <$> mapM draw_cell r.2) ↔ Forall cell_ok r.2) as H1.
  { intros r. rewrite fmap_is_Some, mapM_some. apply Forall_iff. intros c. apply draw_cell_ok. }
  assert (∀ c : card (cell := fallible), is_Some (
      title ← draw_cell (card_title c);
      kvs ← mapM (λ b, (λ x, (b.1, x)) <$> draw_cell b.2) (card_body c);
      Some (mk_card (card_key c) title kvs))
    ↔ cell_ok (card_title c) ∧ Forall (λ b, cell_ok b.2) (card_body c)) as H2.
  { intros c. rewrite (both_some _ _ (λ t k, mk_card (card_key c) t k)), draw_cell_ok, mapM_some. apply and_iff_compat_l.
    apply Forall_iff. intros b. rewrite fmap_is_Some. apply draw_cell_ok. }
  rewrite <- (Forall_iff _ _ _ H1), <- (Forall_iff _ _ _ H2), <- !mapM_some. cbn [draw].
  apply (both_some _ _ (λ b c, Table head b c)).
Qed.

Lemma Forall_imap {A B} (P : B → Prop) (f : nat → A → B) l :
  Forall P (imap f l) ↔ ∀ i x, l !! i = Some x → P (f i x).
Proof.
  rewrite Forall_lookup. split.
  - intros H i x Hx. apply (H i). by rewrite list_lookup_imap, Hx.
  - intros H i y. rewrite list_lookup_imap. destruct (l !! i) as [x|] eqn:E; [|done]. intros [= <-]. by apply H.
Qed.

Lemma titleCol_elem {row cell} (columns : list (column row cell)) first k :
  first ∈ columns → titleCol columns first k ∈ columns.
Proof.
  intros Hf. unfold titleCol. destruct (List.find _ columns) as [c|] eqn:E; [|done].
  by apply find_some in E as [?%list_elem_of_In _].
Qed.

Lemma columns_ok now tag dis u :
  (∀ c, c ∈ releaseColumns now tag dis → cell_ok (styled u c)) ↔ is_Some (published now u).
Proof.
  rewrite <- Forall_forall. unfold releaseColumns. rewrite !Forall_cons, Forall_nil. unfold cell_ok. cbn.
  split; [tauto|]. intros H. split_and!; try done; by eexists.
Qed.

Lemma releases_drawn now p : is_Some (releases_body now p) ↔ ∀ u, u ∈ listed p → is_Some (published now u).
Proof.
  destruct (decide (listed p = [])) as [E|E].
  { unfold releases_body. rewrite E. split; [by intros _ u ?%elem_of_nil|by eexists]. }
  destruct (releases_body_eq now p E) as (first & Hfirst & ->). rewrite fmap_is_Some, draw_some, !Forall_imap. split.
  - intros [H _] u [i Hi]%list_elem_of_lookup. apply (columns_ok now (selectedTag p) (installDisabled p)).
    intros c Hc. specialize (H i u Hi). cbn [snd] in H. rewrite Forall_forall in H. by apply H, list_elem_of_fmap_2.
  - intros H. split.
    + intros i u Hu. cbn [snd]. rewrite Forall_forall. intros x (c & -> & Hc)%list_elem_of_fmap.
      apply (columns_ok now (selectedTag p) (installDisabled p)); [|done]. apply H. by eapply list_elem_of_lookup_2.
    + intros i u Hu. assert (is_Some (published now u)) as Hp by (apply H; by eapply list_elem_of_lookup_2).
      pose proof (proj2 (columns_ok now (selectedTag p) (installDisabled p) u) Hp) as Hall. cbn [card_title card_body make_card].
      split; [by apply Hall, titleCol_elem|]. rewrite Forall_forall. intros x (c & -> & [_ Hc]%list_elem_of_filter)%list_elem_of_fmap.
      by apply Hall.
Qed.

Lemma upload_drawn now p : is_Some (UploadFirmwarePanel now p).
Proof.
  unfold UploadFirmwarePanel. destruct (uploading p); [by eexists|]. destruct (value (staged p)) as [i|]; [|by eexists].
  destruct (formatRelative_some now (uploadedAt i)) as [t ->]. by eexists.
Qed.

(** The page is drawn unless a date it prints is not one: the time of the list, or
    the publication of a release on it.  The time of an upload never stops it. *)
Theorem page_throws now p :
  render_page now p = None
  ↔ sysupgrade_capable p = true
    ∧ (fetchedAt p = Some InvalidDate
       ∨ ∃ u, u ∈ listed p ∧ u_release u.2 ≫= publishedAt = Some InvalidDate).
Proof.
  assert (is_Some (AvailableUpdatesPanel now p) ↔ fetchedAt p ≠ Some InvalidDate
    ∧ ∀ u, u ∈ listed p → u_release u.2 ≫= publishedAt ≠ Some InvalidDate) as Hu.
  { rewrite <- (fetched_text_none now). rewrite <- not_eq_None_Some in *.
    assert ((∀ u, u ∈ listed p → u_release u.2 ≫= publishedAt ≠ Some InvalidDate) ↔ is_Some (releases_body now p)) as ->.
    { rewrite releases_drawn. apply forall_proper. intros u. by rewrite <- not_eq_None_Some, published_none. }
    unfold AvailableUpdatesPanel. destruct (fetched_text now (fetchedAt p)), (releases_body now p); cbn; rewrite ?is_Some_alt; naive_solver. }
  unfold render_page. destruct (sysupgrade_capable p); [|by split; [|intros [? _]]].
  destruct (upload_drawn now p) as [up ->]. destruct (AvailableUpdatesPanel now p) as [us|] eqn:Ea; cbn; split; try done.
  - intros [_ Hd]. destruct (proj1 Hu ltac:(done)) as [H1 H2]. destruct Hd as [Hd|(u & Hin & Hd)]; [done|by destruct (H2 u Hin)].
  - intros _. split; [done|]. destruct (decide (fetchedAt p = Some InvalidDate)) as [?|Hf]; [by left|right].
    destruct (decide (Exists (λ u : offer, u_release u.2 ≫= publishedAt = Some InvalidDate) (listed p))) as [He|Hn];
      [by apply Exists_exists in He|].
    destruct (proj2 Hu) as [? ?]; [|done]. split; [done|]. intros u Hin He. apply Hn, Exists_exists. by exists u.
Qed.

(** ** What else the panels promise *)

(** A running or failed upgrade is always shown, with a bar that fits and the name of
    its phase; once the flash runs it says so and can no longer be cancelled, and a
    failure has a text. *)
Theorem upgrade_shown m e :
  progress_of_page m = Some e → ACTIVE_PHASES (phase e) = true ∨ phase e = FAILED →
  ∃ x, UpgradeProgressPanel m = Some x ∧ (0 <= pp_width x <= 100)%Z ∧ phaseLabel (phase e) ≠ "—"
  ∧ (phase e = UPGRADING → pp_cancel x = None ∧ pp_alert x = Some (if streamLost m then ConnectionLost else UpgradeRunning))
  ∧ (phase e = FAILED ↔ ∃ msg, pp_alert x = Some (UpgradeFailed msg))
  ∧ ∀ msg, pp_alert x = Some (UpgradeFailed msg) → msg ≠ "".
Proof.
  intros He Hp. unfold UpgradeProgressPanel. rewrite He.
  assert (phase e = CHECKING ∨ phase e = DOWNLOADING ∨ phase e = VERIFYING ∨ phase e = READY ∨ phase e = UPGRADING
    ∨ phase e = FAILED) as Hph.
  { destruct Hp as [Hp%bool_decide_eq_true|Hp]; [|tauto]. rewrite !elem_of_cons, elem_of_nil in Hp. tauto. }
  assert (∀ percent, 0 <= bar_width percent <= 100)%Z as Hw by (unfold bar_width; intros; lia).
  assert (∀ a b : string, b ≠ "" → or_str a b ≠ "") as Hor by (intros a b Hb; unfold or_str; by case_decide).
  destruct Hph as [Hq|[Hq|[Hq|[Hq|[Hq|Hq]]]]]; rewrite Hq; eexists; (split; [reflexivity|]); cbn [pp_width pp_alert pp_cancel];
    (split; [apply Hw|]); (split; [done|]); (split; [by intros ?|]);
    (split; [split; [try done; by eexists|try (intros [msg Hm]; try done; by destruct (streamLost m))]|]);
    intros msg Hm; try done; try (by destruct (streamLost m)).
  injection Hm as <-. by repeat apply Hor.
Qed.

(** Exactly the selected release says so, and a button that is shown enabled installs. *)
Theorem table_actions now tag dis u :
  let cells := map (styled u) (releaseColumns now tag dis) in
  ((∃ cls, (cls, Some SelectedChip) ∈ cells) ↔ is_selected tag u = true)
  ∧ ∀ cls d, (cls, Some (InstallButton d)) ∈ cells → is_selected tag u = false ∧ d = dis.
Proof.
  intros cells. assert (∀ c x, (c, Some x) ∈ cells → (x = SelectedChip ∨ ∃ d, x = InstallButton d) →
    x = if is_selected tag u then SelectedChip else InstallButton dis) as H.
  { intros c x Hin Hx. subst cells. unfold releaseColumns in Hin. cbn [map] in Hin. unfold styled, release_column in Hin.
    cbn [render] in Hin. rewrite !elem_of_cons, elem_of_nil in Hin. unfold published in Hin.
    destruct Hx as [->|[d ->]]; destruct Hin as [Hin|[Hin|[Hin|[Hin|[Hin|[Hin|[]]]]]]]; simplify_eq; try done;
      repeat (case_match; simplify_option_eq; try done). }
  split.
  - split.
    + intros [c Hc]. specialize (H _ _ Hc ltac:(by left)). by destruct (is_selected tag u).
    + intros Hs. eexists. subst cells. apply list_elem_of_fmap. eexists. split; [|by do 5 right; left].
      unfold styled, release_column. cbn [render]. by rewrite Hs.
  - intros c d Hc. specialize (H _ _ Hc ltac:(right; by eexists)). destruct (is_selected tag u); [done|]. by injection H as ->.
Qed.

Theorem install_as_shown_witness :
  let p := run_page (sample_start false ++ [ClickInstallStaged; ToggleSkipPreflight true; ToggleOption KNoPreserveConfig true])
             SettingsFirmware in
  ∃ v u strip detail alerts form why, render_page 0 p = Some v
  ∧ (handleConfirm (value (staged p)) (sel p)).2
    = Some (StartLocalUpgrade (Build_install_options true false false false false) false true)
  ∧ v_upload v = Some u ∧ lp_body u = UploadStaged strip detail alerts (StagedForm form)
  ∧ WipeConfiguration ∈ f_alerts form ∧ PreflightFailed why ∈ alerts.
Proof.
  intros p. assert (is_Some (render_page 0 p)) as [v Hv] by (vm_compute; by eexists).
  assert (value (staged p) = Some (sample_image false)) as Hi by (vm_compute; reflexivity).
  assert (offers v ClickConfirm) as Ho.
  { left. apply (form_offers 0 p v Hv); [vm_compute; reflexivity|]. intros i Hi'. rewrite Hi in Hi'.
    injection Hi' as <-. vm_compute. reflexivity. }
  pose proof (install_as_shown 0 p v Hv Ho) as H.
  assert (handleConfirm (value (staged p)) (sel p)
    = (set_start None true (sel p), Some (StartLocalUpgrade (Build_install_options true false false false false) false true)))
    as E by (vm_compute; reflexivity).
  clearbody p. rewrite E in H. destruct H as (u & strip & detail & alerts & form & i & Hu & Hb & Hi' & _ & Ht & Hw & _).
  rewrite Hi in Hi'. injection Hi' as <-. destruct Hw as (_ & _ & Hw). destruct (Hw eq_refl) as (_ & why & Hin).
  exists v, u, strip, detail, alerts, form, why. split; [exact Hv|]. split; [rewrite E; reflexivity|].
  split; [exact Hu|]. split; [exact Hb|]. split; [by apply Ht|exact Hin].
Defined.

(** ** What the panels get wrong *)

(** The permission to install over an unknown version is kept, and sent, when a
    refresh tells the version: its box is no longer shown. *)
Theorem unknown_box_hidden :
  let info v := Build_system_info plain "node-1" "" "" "" "" "" "" "" v "" "" "" true "" "" in
  let p := run_page ([InfoSettled (inl (Some (info ""))); StagedSettled (inl (Some (sample_image true))); ClickInstallStaged;
             ToggleForceUnknown true; ClickRefresh; InfoSettled (inl (Some (info "1.2.0")))]) SettingsFirmware in
  (handleConfirm (value (staged p)) (sel p)).2 = Some (StartLocalUpgrade DEFAULT_OPTIONS true false) ∧ unknown_box p = [].
Proof. vm_compute. done. Qed.

(** The same of the permission to skip the preflight, ticked for an image that
    failed and sent for the next one, which passed. *)
Theorem kept_skip_preflight :
  let p := run_page (sample_start false ++ [ClickInstallStaged; ToggleSkipPreflight true;
             PickFile "new.img" 2048; UploadEvent 0 (sample_body true)]) SettingsFirmware in
  (handleConfirm (value (staged p)) (sel p)).2 = Some (StartLocalUpgrade DEFAULT_OPTIONS false true)
  ∧ ∃ i, value (staged p) = Some i ∧ preflightOk i = true
     ∧ box_value skip_label (f_checks (StagedImageInstallForm i p)) = None.
Proof. vm_compute. split; [done|]. by eexists. Qed.

(** A version that is there but is not one the daemon can parse: the page shows no
    box, the daemon asks for the permission, and the image cannot be installed. *)
Theorem unparsable_version_refused :
  let info := Build_system_info plain "node-1" "" "" "" "" "" "" "" "snapshot" "" "" "" true "" "" in
  let p := run_page [InfoSettled (inl (Some info)); StagedSettled (inl (Some (sample_image true))); ClickInstallStaged;
             ToggleForceUnknown true] SettingsFirmware in
  (handleConfirm (value (staged p)) (sel p)).2 = Some (StartLocalUpgrade DEFAULT_OPTIONS false false)
  ∧ unknown_box p = []
  ∧ manager_StartLocalUpgrade {| versionParses := false; stagedPreflightOK := Some true; managerBusy := false |}
      DEFAULT_OPTIONS false false = Some ErrUnknownCurrentVersion.
Proof. vm_compute. done. Qed.

(** An upload whose time cannot be read was uploaded "just now". *)
Theorem upload_time_just_now now : formatRelative now (Some InvalidDate) = Some "just now".
Proof. done. Qed.

(** A page with one update, selected, and a staged image. *)
Example example_view :
  let p := run_page (sample_start true ++ [ClickInstall 0]) SettingsFirmware in
  (λ v, (au_chip <$> v_updates v, lp_chip <$> v_upload v, u_tag <$> v_card v, v_reset v)) <$> render_page 0 p
  = Some (Some "1 newer", Some "Image staged", Some "v1.3.0", ResetLoading)
  ∧ formatRelative 1000 (Some (Time 951782400000)) = Some "2000-02-29"
  ∧ formatRelative 951868800001 (Some (Time 951782400000)) = Some "1d ago".
Proof. vm_compute. done. Qed.
