(* ===== verification/NetworkPage.v ===== *)
(** [pages/SettingsNetwork.jsx] and [hooks/useNetworkInterfaces.js]: the table of
    interfaces and the DHCP panel.  A missing field of a message is [None]. *)
From S2P Require Import Prelude JsString JsNumber JsList DataTable.
Open Scope js_scope.

(** ** The interface table *)

Record net_iface := {
  if_name : string; if_type : Z; if_status : Z; ipAddress : string; macAddress : string;
  rxBytes : option Z; txBytes : option Z; mtu : Z
}.
Record iface_snapshot := mk_snapshot { s_interfaces : list net_iface; s_error : option string }.

(** The store's fetcher: the response, or the message of what was thrown. *)
Definition fetch_interfaces (r : option (list net_iface) + option string) : iface_snapshot :=
  match r with
  | inl l => mk_snapshot (l ?? []) None
  | inr msg => mk_snapshot [] (Some (msg ?? "Failed to load interfaces"))
  end.

Definition IFACE_TYPE_LABELS (t : Z) : option string :=
  match t with
  | 0 => Some "Unknown" | 1 => Some "Bridge" | 2 => Some "Ethernet" | 3 => Some "WiFi AP"
  | 4 => Some "HaLow Mesh" | 5 => Some "Batman" | 6 => Some "Loopback" | 7 => Some "VXLAN"
  | _ => None
  end%Z.

Definition IFACE_STATUS_UP : Z := 1.

Definition formatBytes (bytes : option Z) : string :=
  match bytes with
  | None => "—"
  | Some n =>
      let by_ (k : Z) := fdiv (of_int n) (of_int k) in
      (if n =? 0 then "0 B"
       else if n <? 1024 then pretty n ++ " B"
       else if n <? 1024 * 1024 then toFixed 1 (by_ 1024) ++ " KB"
       else if n <? 1024 * 1024 * 1024 then toFixed 1 (by_ (1024 * 1024)) ++ " MB"
       else toFixed 2 (by_ (1024 * 1024 * 1024)) ++ " GB")%Z%string
  end.

Definition is_up (i : net_iface) : bool := (if_status i =? IFACE_STATUS_UP)%Z.

Definition plain_column {R} (key label : string) (cls : option string) (head : option string)
    (render : R → string) : column R string := mk_column key label cls head None render.

Definition INTERFACE_COLUMNS : list (column net_iface string) :=
  [plain_column "name" "Name" (Some "iface-name") None if_name;
   plain_column "type" "Type" None None (λ i, IFACE_TYPE_LABELS (if_type i) ?? "Unknown");
   plain_column "status" "Status" None None (λ i, if is_up i then "Up" else "Down");
   plain_column "ip" "IP" (Some "mono") None (λ i, or_str (ipAddress i) "—");
   plain_column "mac" "MAC" (Some "mono") None (λ i, or_str (macAddress i) "—");
   plain_column "rx" "RX" (Some "num") (Some "num") (λ i, formatBytes (rxBytes i));
   plain_column "tx" "TX" (Some "num") (Some "num") (λ i, formatBytes (txBytes i));
   plain_column "mtu" "MTU" (Some "num") (Some "num")
     (λ i, if decide (mtu i = 0%Z) then "—" else pretty (mtu i))].

Record interfaces_panel := {
  ip_chip : option (nat * nat); ip_refresh_disabled : bool; ip_error : option string;
  ip_table : option (option (data_table string))
}.

Definition InterfacesPanel (snapshot : option iface_snapshot) : interfaces_panel :=
  let loading := match snapshot with None => true | Some _ => false end in
  let interfaces := (s_interfaces <$> snapshot) ?? [] in
  let upCount := length (filter (λ i, is_up i = true) interfaces) in
  {| ip_chip := if negb loading && (0 <? length interfaces)%nat then Some (upCount, length interfaces) else None;
     ip_refresh_disabled := loading;
     ip_error := snapshot ≫= s_error;
     ip_table := if loading then None
                 else Some (dataTable INTERFACE_COLUMNS interfaces (λ i _, if_name i)
                              "No interfaces found." None) |}.

(** ** Leases *)

Record lease := {
  l_hostname : string; l_mac : option string; l_ip : option string; l_expiresSeconds : Z
}.

Definition STATIC_LEASE_COLUMNS : list (column lease string) :=
  [plain_column "hostname" "Hostname" None None (λ r, or_str (l_hostname r) "—");
   plain_column "macAddress" "MAC" (Some "mono") None (λ r, l_mac r ?? "—");
   plain_column "ipAddress" "IP" (Some "mono") None (λ r, l_ip r ?? "—")].

Definition ACTIVE_LEASE_COLUMNS : list (column lease string) :=
  [plain_column "hostname" "Hostname" None None (λ r, or_str (l_hostname r) "—");
   plain_column "macAddress" "MAC" (Some "mono") None (λ r, l_mac r ?? "—");
   plain_column "ipAddress" "IP" (Some "mono") None (λ r, l_ip r ?? "—");
   plain_column "expiresSeconds" "Expires" (Some "num") (Some "num")
     (λ r, (pretty (l_expiresSeconds r) ++ "s")%string)].

Definition LeasesTable (columns : list (column lease string)) (rows : list lease) : option (data_table string) :=
  dataTable columns rows (λ r i, l_mac r ?? pretty (Z.of_nat i)) "No entries." None.

(** ** The DHCP panel *)

Record dhcp_config := {
  interfaceName : string; rangeStart : string; rangeEnd : string; leaseTime : string;
  dnsForwardingEnabled : bool; activeLeaseCount : option Z
}.

(** [loads]: calls of [load] whose three requests are not all settled. *)
Record dhcp := mk_dhcp {
  config : option dhcp_config;
  activeLeases : list lease;
  staticLeases : list lease;
  loading : bool;
  showActive : bool;
  showStatic : bool;
  error : option string;
  loads : nat
}.

Definition load (p : dhcp) : dhcp :=
  mk_dhcp (config p) (activeLeases p) (staticLeases p) true (showActive p) (showStatic p) (error p) (S (loads p)).

(** Mounting: the first render, then the effect. *)
Definition DHCPPanel : dhcp := load (mk_dhcp None [] [] true false false None 0).

(** What a settled list request leaves in its state. *)
Definition leases_settled (r : option (list lease) + unit) (old : list lease) : list lease :=
  match r with inl l => l ?? [] | inr _ => old end.

(** The continuation of [Promise.allSettled]; a configuration may be absent from
    its response. *)
Definition loaded (cfg : option dhcp_config + option string) (act sta : option (list lease) + unit)
    (p : dhcp) : dhcp :=
  mk_dhcp (match cfg with inl c => c | inr _ => None end)
    (leases_settled act (activeLeases p)) (leases_settled sta (staticLeases p)) false
    (showActive p) (showStatic p)
    (match cfg with inl _ => None | inr msg => Some (msg ?? "Failed to load DHCP config") end)
    (pred (loads p)).

Inductive dhcp_body :=
| Loading | NotConfigured
| Configured (c : dhcp_config) (active static : option (option (data_table string))).

Definition body (p : dhcp) : dhcp_body :=
  if loading p then Loading
  else match config p with
  | None => NotConfigured
  | Some c =>
      Configured c
        (if showActive p then Some (LeasesTable ACTIVE_LEASE_COLUMNS (activeLeases p)) else None)
        (if showStatic p then Some (LeasesTable STATIC_LEASE_COLUMNS (staticLeases p)) else None)
  end.

Inductive dhcp_event :=
| Refresh | Loaded (cfg : option dhcp_config + option string) (act sta : option (list lease) + unit)
| ToggleActive | ToggleStatic.

Definition dhcp_enabled (e : dhcp_event) (p : dhcp) : Prop :=
  match e with
  | Refresh => loading p = false
  | Loaded _ _ _ => 0 < loads p
  | _ => ∃ c a s, body p = Configured c a s
  end.

Definition dhcp_fire (e : dhcp_event) (p : dhcp) : dhcp :=
  match e with
  | Refresh => load p
  | Loaded cfg act sta => loaded cfg act sta p
  | ToggleActive => mk_dhcp (config p) (activeLeases p) (staticLeases p) (loading p)
      (negb (showActive p)) (showStatic p) (error p) (loads p)
  | ToggleStatic => mk_dhcp (config p) (activeLeases p) (staticLeases p) (loading p)
      (showActive p) (negb (showStatic p)) (error p) (loads p)
  end.

Definition dhcp_step (p p' : dhcp) : Prop := ∃ e, dhcp_enabled e p ∧ p' = dhcp_fire e p.
Definition dhcp_reachable : dhcp → Prop := rtc dhcp_step DHCPPanel.

(** ** Properties *)

Record dhcp_inv (p : dhcp) : Prop := {
  di_single : loads p = if loading p then 1 else 0;
  di_error : error p ≠ None → config p = None
}.

Lemma dhcp_reachable_inv p : dhcp_reachable p → dhcp_inv p.
Proof.
  revert p. apply rtc_ind_r; [by split|]. intros p p' _ (e & He & ->) [H1 H2].
  destruct e; cbn in *; split; cbn; try done.
  - by rewrite H1, He.
  - rewrite H1. by destruct (loading p).
  - by destruct cfg.
Qed.

(** Loads do not overlap, so what is shown is what the last refresh brought: its
    configuration, and each list of leases unless only that request failed.  An
    error comes with no configuration, and a panel that is not loading shows a body
    that the answer decides alone. *)
Theorem dhcp_loads p cfg act sta :
  dhcp_reachable p →
  (loading p = true ↔ loads p = 1) ∧ loads p <= 1 ∧ (error p ≠ None → config p = None)
  ∧ let q := dhcp_fire (Loaded cfg act sta) p in
    loads q = 0 ∧ (body q = NotConfigured ↔ ∀ c, cfg ≠ inl (Some c))
    ∧ (∀ c, cfg = inl (Some c) → ∃ a s, body q = Configured c a s)
    ∧ (∀ l, act = inl (Some l) → activeLeases q = l) ∧ (∀ l, sta = inl (Some l) → staticLeases q = l).
Proof.
  intros [H1 H2]%dhcp_reachable_inv. split_and!.
  - rewrite H1. by destruct (loading p).
  - rewrite H1. destruct (loading p); lia.
  - done.
  - split_and!; cbn.
    + rewrite H1. by destruct (loading p).
    + destruct cfg as [[c|]|]; cbn; split; try done; naive_solver.
    + intros c ->. by eexists _, _.
    + by intros l ->.
    + by intros l ->.
Qed.

(** A failed load is shown twice: as the error, and as a server that is not
    configured; lists that failed to load stay as they were, without a sign. *)
Theorem failed_load_not_configured p msg :
  let q := dhcp_fire (Loaded (inr msg) (inr tt) (inr tt)) p in
  body q = NotConfigured ∧ error q ≠ None ∧ activeLeases q = activeLeases p.
Proof. done. Qed.

Theorem lease_failure_silent p c sta :
  let q := dhcp_fire (Loaded (inl (Some c)) (inr tt) sta) p in
  error q = None ∧ activeLeases q = activeLeases p.
Proof. done. Qed.

(** The columns can be read as cards, and the chip counts the table's "Up" cells. *)
Theorem interface_columns : NoDup (map key INTERFACE_COLUMNS) ∧ NoDup (map key ACTIVE_LEASE_COLUMNS)
  ∧ NoDup (map key STATIC_LEASE_COLUMNS).
Proof. split_and!; apply (bool_decide_unpack _); vm_compute; reflexivity. Qed.

Theorem interfaces_chip s n m :
  ip_chip (InterfacesPanel (Some s)) = Some (n, m) →
  m = length (s_interfaces s) ∧ n <= m
  ∧ n = length (filter (λ i, (if is_up i then "Up" else "Down") = "Up") (s_interfaces s)).
Proof.
  unfold InterfacesPanel. cbn [ip_chip fmap option_fmap option_map default].
  destruct (_ && _); [|done]. intros [= <- <-]. split_and!; [done|apply length_filter|].
  f_equal. apply list_filter_iff. intros i. by destruct (is_up i).
Qed.

Example example_bytes :
  map (λ n, formatBytes (Some n)) [0; 1023; 1536; 5 * 1024 * 1024; 3 * 1024 * 1024 * 1024]%Z
  = ["0 B"; "1023 B"; "1.5 KB"; "5.0 MB"; "3.00 GB"].
Proof. vm_compute. reflexivity. Qed.
