(* ===== verification/DashboardPanels.v ===== *)
(** The panels of [pages/Dashboard.jsx]: the interfaces shown and their order, the
    address in the top bar, the figures, tables and alerts of the page.

    The snapshots of the shared stores are arguments.  The clock's text (the
    browser's locale) is not modelled. *)
From S2P Require Import Prelude JsString JsNumber JsList DataTable Topology MeshApi DashboardView Dashboard NetworkPage.
Open Scope js_scope.

(** ** Addresses *)

Fixpoint digit_run (s : string) : string * string :=
  match s with
  | EmptyString => ("", "")
  | String c s' =>
      match digit_of c with
      | Some _ => let (d, r) := digit_run s' in (String c d, r)
      | None => ("", s)
      end
  end.

(** [\d+], and [\.\d+]. *)
Definition match_group (s : string) : option (string * string) :=
  let (d, r) := digit_run s in if decide (d = "") then None else Some (d, r).
Definition match_dot (s : string) : option (string * string) :=
  match s with String "." r => match_group r | _ => None end.

(** [/\d+\.\d+\.\d+\.\d+(\/\d+)?/] at the start of [s]. *)
Definition ip_at (s : string) : option string :=
  '(a, s) ← match_group s; '(b, s) ← match_dot s; '(c, s) ← match_dot s; '(d, s) ← match_dot s;
  let ip := (a ++ "." ++ b ++ "." ++ c ++ "." ++ d)%string in
  Some match s with
       | String "/" r => match match_group r with Some (m, _) => (ip ++ "/" ++ m)%string | None => ip end
       | _ => ip
       end.

(** [s.match(...)]: the first match. *)
Fixpoint find_ip (s : string) : option string :=
  match ip_at s with
  | Some m => Some m
  | None => match s with String _ s' => find_ip s' | EmptyString => None end
  end.

(** [s.split(sep)[0]]. *)
Definition first_part (sep s : string) : string :=
  match String.index 0 sep s with Some n => String.substring 0 n s | None => s end.

Definition extractAddr (detail : string) : string :=
  if decide (detail = "") then "—"
  else match find_ip detail with Some m => m | None => or_str (trim (first_part "—" detail)) detail end.

(** ** Data *)

Record summary_entry := mk_summary { se_connected : bool; se_detail : string }.

(** The answer of [getDashboardStatus]; texts that are missing are empty. *)
Record dash_data := {
  dd_hostname : string; dd_model : string; dd_kernel : string; dd_firmware : string; dd_architecture : string;
  dd_cpuLoadPercent : option number; dd_cpuTempCelsius : option number; dd_uptime : option Z;
  dd_memoryUsedBytes : option Z; dd_memoryTotalBytes : option Z;
  dd_overlayUsedBytes : option Z; dd_overlayTotalBytes : option Z;
  dd_entries : list summary_entry
}.

(** [data] and [loading]. *)
Record data_state := mk_data { ds_data : option dash_data; ds_loading : bool }.
Definition no_data : data_state := mk_data None true.
(** [fetchStatus]; [None] is a call that failed. *)
Definition fetchStatus (resp : option dash_data) (s : data_state) : data_state :=
  mk_data (match resp with Some d => Some d | None => ds_data s end) false.

(** ** Interfaces *)

Definition LOOPBACK : Z := 6.
Definition IFACE_STATUS_DOWN : Z := 2.

Definition ROLE_BY_TYPE (t : Z) : string :=
  match t with
  | 1 => "bridge" | 2 => "uplink" | 3 => "AP" | 4 => "mesh radio" | 5 => "mesh" | 7 => "BLOS" | _ => ""
  end%Z.
Definition roleForInterface (i : net_iface) : string := or_str (ROLE_BY_TYPE (if_type i)) "—".

Record badge := mk_badge { bg_cls : string; bg_dot : string; bg_label : string }.
Definition statusBadge (status : Z) : badge :=
  if decide (status = IFACE_STATUS_UP) then mk_badge "badge-ok" "ok" "UP"
  else if decide (status = IFACE_STATUS_DOWN) then mk_badge "badge-crit" "crit" "DOWN"
  else mk_badge "badge-warn" "warn" "IDLE".

(** A cell: the classes of a dot before it, the text, and a line below it. *)
Record dash_cell := mk_cell { ce_dots : list string; ce_text : string; ce_below : string }.
Definition text_cell (s : string) : dash_cell := mk_cell [] s "".

Definition dash_column {R} (k l : string) (cls : option string) (f : R → string) : column R dash_cell :=
  mk_column k l cls None None (λ r, text_cell (f r)).

Definition INTERFACE_COLUMNS : list (column net_iface dash_cell) :=
  [mk_column "name" "Iface" None None None (λ i, mk_cell [bg_dot (statusBadge (if_status i))] (if_name i) "");
   dash_column "addr" "Addr" (Some "mono") (λ i, or_str (ipAddress i) "—");
   mk_column "state" "State" None None (Some (λ i, bg_cls (statusBadge (if_status i))))
     (λ i, text_cell (bg_label (statusBadge (if_status i))));
   dash_column "role" "Role" None roleForInterface;
   dash_column "rx" "RX" (Some "mono") (λ i, DashboardView.formatBytes (rxBytes i));
   dash_column "tx" "TX" (Some "mono") (λ i, DashboardView.formatBytes (txBytes i))].

Definition meshPeerColumns (now : Z) : list (column peer_row dash_cell) :=
  [dash_column "name" "Node" None r_name;
   dash_column "mac" "MAC" (Some "mono") (λ p, or_str (r_mac p) "—");
   dash_column "hops" "Hops" None (λ p, pretty (r_hops p));
   dash_column "throughput" "Throughput" None (λ p, formatMbps (Some (r_throughput p)));
   mk_column "txRate" "TX Rate" None None None
     (λ p, mk_cell [] (formatLinkRate (r_tx p)) (formatLinkRateDetail (r_tx p) (r_txIface p)));
   dash_column "rssi" "RSSI" None (λ p, if decide (r_rssi p = 0%Z) then "—" else pretty (r_rssi p));
   mk_column "sig" "Signal" None None None (λ p, mk_cell (r_sig p) "" "");
   dash_column "last" "Last" None (λ p, formatLast (Some (r_lastMs p)) now)].

Section Panels.
Context (localeCompare : string → string → Z).

Definition up_rank (i : net_iface) : Z := if is_up i then 0 else 1.
Definition iface_compare (a b : net_iface) : Z :=
  if decide (up_rank a = up_rank b) then localeCompare (if_name a) (if_name b) else (up_rank a - up_rank b)%Z.

Definition visibleInterfaces (l : list net_iface) : list net_iface :=
  sort iface_compare (filter (λ i, if_type i ≠ LOOPBACK) l).

Definition interfaces_table (l : list net_iface) : option (@data_table dash_cell) :=
  dataTable INTERFACE_COLUMNS (visibleInterfaces l) (λ i _, if_name i) "No network data" None.
End Panels.

(** The entry's address, when it is one to show. *)
Definition entry_addr (e : summary_entry) : option string :=
  if se_connected e then
    let addr := extractAddr (se_detail e) in
    if decide (addr = "" ∨ addr = "—") then None else Some addr
  else None.

Definition iface_addr (i : net_iface) : option string :=
  if is_up i then
    if decide (if_type i = LOOPBACK) then None
    else if decide (ipAddress i = "") then None else Some (ipAddress i)
  else None.

Definition primaryIp (entries : list summary_entry) (interfaces : list net_iface) : string :=
  match omap entry_addr entries with
  | addr :: _ => addr
  | [] => match omap iface_addr interfaces with addr :: _ => addr | [] => "—" end
  end.

(** ** Figures *)

Definition hopsAvg (rows : list peer_row) : string :=
  match rows with
  | [] => "—"
  | _ => toFixed 1 (fdiv (of_int (foldl (λ a p, (a + r_hops p)%Z) 0%Z rows)) (of_int (Z.of_nat (length rows))))
  end.

Definition throughputTotal (l : list neighbor) : string :=
  formatMbps (Some (foldl (λ a n, (a + (throughput n ?? 0))%Z) 0%Z l)).

Definition linkQuality (history : list Z) : Z := last history ?? 0%Z.
Definition lqClass (lq : Z) : string :=
  if (80 <=? lq)%Z then "ok" else if (50 <=? lq)%Z then "" else "warn".
(** The heights of the bars, in percent. *)
Definition spark_bars (history : list Z) : list Z :=
  match history with [] => [2%Z] | _ => map (Z.max 2) history end.

(** [cpuTemp != null && cpuTemp > 0]. *)
Definition temperature (cpuTemp : option number) : option number :=
  match cpuTemp with Some t => if flt (of_int 0) t then Some t else None | None => None end.
Definition tempClass (cpuTemp : option number) : string :=
  match temperature cpuTemp with
  | None => ""
  | Some t => if fle (of_int 85) t then "crit" else if fle (of_int 70) t then "warn" else ""
  end.
Definition tempLabel (cpuTemp : option number) : string :=
  match temperature cpuTemp with None => "—" | Some t => (toFixed 1 t ++ " °C")%string end.

(** [PbarRow]; its callers all give a detail. *)
Record pbar := mk_pbar { pb_label : string; pb_class : string; pb_detail : string }.
Definition PbarRow (label : string) (pct : number) (detail : string) : pbar :=
  mk_pbar label (if fle (of_int 90) pct then "crit" else if fle (of_int 70) pct then "warn" else "") detail.

Definition used_bar (label : string) (used total : option Z) : pbar :=
  PbarRow label (of_int (memPct used total))
    (DashboardView.formatBytes used ++ " / " ++ DashboardView.formatBytes total).

Definition resources (d : option dash_data) : list pbar :=
  let cpu := (d ≫= dd_cpuLoadPercent) ?? of_int 0 in
  [PbarRow "CPU" cpu (toFixed 2 cpu ++ "%");
   used_bar "MEM" (d ≫= dd_memoryUsedBytes) (d ≫= dd_memoryTotalBytes);
   used_bar "OVERLAY" (d ≫= dd_overlayUsedBytes) (d ≫= dd_overlayTotalBytes)].

Definition device_lines (d : option dash_data) : list (string * string) :=
  let text f := or_str ((f <$> d) ?? "") "—" in
  [("Uptime", formatUptime (d ≫= dd_uptime)); ("Model", text dd_model); ("Kernel", text dd_kernel);
   ("Firmware", text dd_firmware); ("Arch", text dd_architecture); ("Temp", tempLabel (d ≫= dd_cpuTempCelsius))].

(** ** The page *)

(** What the shared stores know of the receiver and the tunnel. *)
Record chips := { ch_fixType : option Z; ch_satellitesUsed : option Z; ch_blosEnabled : bool; ch_blosPeers : nat }.

Record page_view := mk_view {
  pv_node : string; pv_ip : string; pv_chips : list (string * string);
  pv_peers : nat * string * string * string; pv_quality : string * Z * list Z;
  pv_peer_table : option (@data_table dash_cell); pv_ack_disabled : bool; pv_alerts : list (alert_level * string);
  pv_resources : list pbar; pv_device : list (string * string);
  pv_interfaces : option (@data_table dash_cell)
}.

Definition status_chips (meshUp : bool) (c : chips) : list (string * string) :=
  let gpsFix := (2 <=? ch_fixType c ?? 0)%Z in
  [(if meshUp then "ok" else "crit", "MESH " ++ (if meshUp then "UP" else "DOWN"));
   (if gpsFix then "ok" else "warn",
    "GPS " ++ (if gpsFix then "LOCK · " ++ pretty (ch_satellitesUsed c ?? 0%Z) ++ " SATS" else "NO FIX"))]%string
  ++ (if ch_blosEnabled c
      then [(if (0 <? ch_blosPeers c)%nat then "ok" else "warn", "BLOS · " ++ pretty (Z.of_nat (ch_blosPeers c)) ++ " PEERS")]%string
      else []).

(** [None] while the first answer is awaited. *)
Definition dashboard_view (localeCompare : string → string → Z) (s : data_state) (ifaces : list net_iface)
    (history : list Z) (c : chips) (p : dashboard) : option page_view :=
  if ds_loading s then None
  else
    let d := ds_data s in
    let hostname := or_str ((dd_hostname <$> d) ?? "") "NODE" in
    let meshUp := (connected <$> (meshData p ≫= ms_status)) ?? false in
    let visible := visibleAlerts p in
    Some (mk_view (toUpperCase hostname) (primaryIp ((dd_entries <$> d) ?? []) ifaces) (status_chips meshUp c)
      (length (rows p), gatewayName ((dd_hostname <$> d) ?? "") p, hopsAvg (rows p),
       throughputTotal ((meshData p ≫= ms_neighbors) ?? []))
      (lqClass (linkQuality history), linkQuality history, spark_bars history)
      (dataTable (meshPeerColumns (now p)) (rows p) (λ r _, r_key r) "No neighbors reporting" None)
      (bool_decide (ackableCount p = 0))
      (match visible with [] => [(LevelOk, "NO ACTIVE ALERTS")] | _ => map (λ a, (level a, text a)) visible end)
      (resources d) (device_lines d) (interfaces_table localeCompare ifaces)).

(** ** Addresses: laws *)

Definition no_digit_first (s : string) : Prop :=
  match s with String c _ => digit_of c = None | EmptyString => True end.

Lemma digit_run_app d r : all_digits d → no_digit_first r → digit_run (d ++ r)%string = (d, r).
Proof.
  intros Hd Hr. induction d as [|c d IH].
  - change ("" +:+ r) with r. destruct r as [|c r]; [done|]. cbn in *. by rewrite Hr.
  - apply Forall_cons in Hd as [[v Hc] Hd]. change (String c d +:+ r) with (String c (d +:+ r)).
    cbn [digit_run]. by rewrite Hc, (IH Hd).
Qed.

Lemma match_group_pretty (n : N) r : no_digit_first r → match_group (pretty n ++ r)%string = Some (pretty n, r).
Proof.
  intros Hr. destruct (pretty_N_text n) as (Hd & _ & c & s & Hne). unfold match_group.
  rewrite digit_run_app by done. by rewrite Hne.
Qed.

(** An address as the daemon writes it, with or without the length of its prefix. *)
Definition slash (prefix : option N) : string := match prefix with Some m => ("/" ++ pretty m)%string | None => "" end.
Definition addr_text (a b c d : N) (prefix : option N) : string :=
  (pretty a ++ "." ++ pretty b ++ "." ++ pretty c ++ "." ++ pretty d ++ slash prefix)%string.

Lemma append_empty (s : string) : s +:+ "" = s.
Proof. induction s as [|c s IH]; [done|]. change (String c s +:+ "") with (String c (s +:+ "")). by rewrite IH. Qed.

Lemma append_assoc (a b c : string) : (a +:+ b) +:+ c = a +:+ (b +:+ c).
Proof.
  induction a as [|x a IH]; [done|]. change (String x a +:+ b) with (String x (a +:+ b)).
  change (String x (a +:+ b) +:+ c) with (String x ((a +:+ b) +:+ c)). by rewrite IH.
Qed.

Lemma match_dot_pretty (n : N) r : no_digit_first r → match_dot ("." +:+ (pretty n +:+ r)) = Some (pretty n, r).
Proof. apply match_group_pretty. Qed.

Lemma ip_at_addr_text a b c d prefix : ip_at (addr_text a b c d prefix) = Some (addr_text a b c d prefix).
Proof.
  unfold ip_at, addr_text. rewrite match_group_pretty by done. cbn [mbind option_bind].
  do 2 (rewrite match_dot_pretty by done; cbn [mbind option_bind]).
  rewrite match_dot_pretty by (by destruct prefix). cbn [mbind option_bind].
  destruct prefix as [m|]; cbn [slash]; [|by rewrite append_empty].
  change ("/" +:+ pretty m) with (String "/" (pretty m)). cbn iota.
  assert (match_group (pretty m) = Some (pretty m, "")) as ->.
  { rewrite <- (append_empty (pretty m)) at 1. by rewrite match_group_pretty. }
  f_equal. by rewrite !append_assoc.
Qed.

(** The addresses of the daemon are shown as they are. *)
Theorem extractAddr_address a b c d prefix : extractAddr (addr_text a b c d prefix) = addr_text a b c d prefix.
Proof.
  unfold extractAddr. assert (find_ip (addr_text a b c d prefix) = Some (addr_text a b c d prefix)) as E.
  { unfold find_ip. destruct (addr_text a b c d prefix) eqn:Ed; by rewrite <- Ed, ip_at_addr_text. }
  rewrite E. case_decide as H0; [|done]. exfalso. unfold addr_text in H0.
  destruct (pretty_N_text a) as (_ & _ & x & s & Hne). by rewrite Hne in H0.
Qed.

(** ** Interfaces: laws *)

Lemma iface_compare_laws localeCompare : cmp_laws localeCompare → cmp_laws (iface_compare localeCompare).
Proof.
  intros [Ht Htr]. unfold iface_compare, up_rank. split.
  - intros x y. specialize (Ht (if_name x) (if_name y)).
    destruct (is_up x), (is_up y); repeat case_decide; try done; lia.
  - intros x y z. specialize (Htr (if_name x) (if_name y) (if_name z)).
    destruct (is_up x), (is_up y), (is_up z); repeat case_decide; try done; lia.
Qed.

(** The panel shows every interface but the loopback once, those that are up first,
    and by name among equals. *)
Theorem interfaces_in_order localeCompare l :
  cmp_laws localeCompare →
  visibleInterfaces localeCompare l ≡ₚ filter (λ i, if_type i ≠ LOOPBACK) l
  ∧ ∀ j k a b, j < k → visibleInterfaces localeCompare l !! j = Some a → visibleInterfaces localeCompare l !! k = Some b →
      (is_up b = true → is_up a = true)
      ∧ (is_up a = is_up b → (localeCompare (if_name a) (if_name b) <= 0)%Z).
Proof.
  intros Hl. unfold visibleInterfaces. split; [apply sort_perm|]. intros j k a b Hjk Ha Hb.
  pose proof (sort_sorted _ (filter (λ i, if_type i ≠ LOOPBACK) l) (iface_compare_laws _ Hl)) as Hs.
  pose proof (sorted_lookup _ _ _ _ _ _ Hs Ha Hb Hjk) as H. cbn in H. unfold iface_compare, up_rank in H.
  destruct (is_up a), (is_up b); (case_decide; [|done || lia]); auto; lia.
Qed.

(** ** The address in the top bar *)

(** The list of the kernel is read only when no connected entry has a text. *)
Theorem primaryIp_cases entries interfaces :
  (∃ e, e ∈ entries ∧ se_connected e = true ∧ primaryIp entries interfaces = extractAddr (se_detail e))
  ∨ (∀ e, e ∈ entries → se_connected e = true → extractAddr (se_detail e) = "" ∨ extractAddr (se_detail e) = "—")
    ∧ ((∃ i, i ∈ interfaces ∧ is_up i = true ∧ if_type i ≠ LOOPBACK ∧ ipAddress i ≠ "" ∧ primaryIp entries interfaces = ipAddress i)
       ∨ (∀ i, i ∈ interfaces → is_up i = true → if_type i ≠ LOOPBACK → ipAddress i = "") ∧ primaryIp entries interfaces = "—").
Proof.
  unfold primaryIp. destruct (omap entry_addr entries) as [|addr l] eqn:E.
  - right. split.
    + intros e He Hc. destruct (entry_addr e) as [x|] eqn:Ex.
      * assert (x ∈ omap entry_addr entries) as Hx by (apply list_elem_of_omap; eauto). rewrite E in Hx.
        by apply elem_of_nil in Hx.
      * unfold entry_addr in Ex. rewrite Hc in Ex. by case_decide.
    + destruct (omap iface_addr interfaces) as [|addr l] eqn:Ei; [right; split; [|done]|left].
      * intros i Hi Hu Ht. destruct (iface_addr i) as [x|] eqn:Ex.
        -- assert (x ∈ omap iface_addr interfaces) as Hx by (apply list_elem_of_omap; eauto). rewrite Ei in Hx.
           by apply elem_of_nil in Hx.
        -- unfold iface_addr in Ex. rewrite Hu, decide_False in Ex by done. by case_decide.
      * assert (addr ∈ omap iface_addr interfaces) as Hx by (rewrite Ei; by left).
        apply list_elem_of_omap in Hx as (i & Hi & Ex). exists i. unfold iface_addr in Ex.
        destruct (is_up i) eqn:Hu; [|done]. repeat case_decide; try done. by injection Ex as <-.
  - left. assert (addr ∈ omap entry_addr entries) as Hx by (rewrite E; by left).
    apply list_elem_of_omap in Hx as (e & He & Ex). exists e. unfold entry_addr in Ex.
    destruct (se_connected e) eqn:Hc; [|done]. case_decide; [done|]. by injection Ex as <-.
Qed.

(** A device that is only in the mesh: the daemon says so of the mesh interface in
    words, and the top bar shows the first of them for an address, although an
    interface that is up has one. *)
Theorem words_for_an_address :
  let entries := [mk_summary false "Disconnected"; mk_summary true "Connected — 3 neighbors"] in
  let bridge := {| if_name := "br-ahwlan"; if_type := 1; if_status := 1; ipAddress := "10.41.25.72/16"; macAddress := "";
                   rxBytes := None; txBytes := None; mtu := 1500 |} in
  primaryIp entries [bridge] = "Connected" ∧ primaryIp [] [bridge] = "10.41.25.72/16".
Proof. by vm_compute. Qed.

(** ** The page: laws *)

Lemma memPct_range used total : (0 <= memPct used total <= 100)%Z.
Proof. unfold memPct. destruct (_ <=? 0)%Z; lia. Qed.

(** Nothing is shown before the first answer, which may be a failure, and the panel
    keeps the last data after that. *)
Theorem dashboard_shown localeCompare (resps : list (option dash_data)) ifaces history c p :
  let s := foldl (λ s r, fetchStatus r s) no_data resps in
  (dashboard_view localeCompare s ifaces history c p = None ↔ resps = [])
  ∧ ds_data s = last (omap id resps).
Proof.
  induction resps as [|r resps IH] using rev_ind; cbn zeta; [done|].
  rewrite foldl_snoc. destruct IH as [_ IH]. set (s := foldl _ _ _) in *. split.
  - unfold dashboard_view. cbn [fetchStatus ds_loading]. split; [done|]. intros E. by destruct resps.
  - cbn [fetchStatus ds_data]. rewrite omap_app. destruct r as [d|]; cbn.
    + by rewrite last_snoc.
    + by rewrite app_nil_r.
Qed.
