(* ===== verification/CommsPanel.v ===== *)
(** The parts of [pages/Comms.jsx] around the talk protocol, with
    [components/ChannelGrid.jsx] and [components/Transcript.jsx]: logs, volume,
    channel names, the reception markers, and the switch of the captions.

    Each part keeps its own state, in a Module of its own; no handler touches two of
    them, except that most append to the log. *)
From S2P Require Import Prelude JsString JsNumber JsList Constants.
Open Scope js_scope.

(** ** Bounded lists *)

(** [next = [...prev, x]], cut to its last [n] entries. *)
Definition push_capped {A} (n : nat) (prev : list A) (x : A) : list A :=
  let next := prev ++ [x] in if (n <? length next)%nat then last_n n next else next.

Lemma push_capped_last {A} n (l : list A) : foldl (push_capped (S n)) [] l = last_n (S n) l.
Proof.
  induction l as [|x l IH] using rev_ind; [done|]. rewrite foldl_app. cbn [foldl]. rewrite IH.
  rewrite <- last_n_snoc_trim. unfold push_capped. cbv zeta.
  destruct (Nat.ltb_spec (S n) (length (last_n (S n) l ++ [x]))); [done|].
  by rewrite (last_n_all (S n) (_ ++ _)).
Qed.

Definition MAX_LOGS : nat := 80.
Definition MAX_CHAT : nat := 200.

(** [addLog(msg, cls)] at the local time [ts]. *)
Definition addLog (ts msg : string) (cls : option string) (logs : list (string * string))
  : list (string * string) :=
  push_capped MAX_LOGS logs (("[" ++ ts ++ "] " ++ msg)%string, cls ?? "").

Record chat_msg := { c_ch : Z; c_ip : string; c_text : string; c_ts : string }.
Definition add_chat (m : chat_msg) (l : list chat_msg) : list chat_msg := push_capped MAX_CHAT l m.

(** The log is the last eighty lines, the transcript the last two hundred. *)
Theorem log_windows (entries : list (string * string * option string)) (ms : list chat_msg) :
  foldl (λ l e, addLog e.1.1 e.1.2 e.2 l) [] entries
    = last_n 80 (map (λ e, (("[" ++ e.1.1 ++ "] " ++ e.1.2)%string, e.2 ?? "")) entries)
  ∧ foldl (λ l m, add_chat m l) [] ms = last_n 200 ms.
Proof.
  split; [|exact (push_capped_last 199 ms)]. rewrite <- (push_capped_last 79).
  enough (∀ l, foldl (λ l e, addLog e.1.1 e.1.2 e.2 l) l entries
    = foldl (push_capped 80) l (map (λ e, (("[" ++ e.1.1 ++ "] " ++ e.1.2)%string, e.2 ?? "")) entries)) as H
    by apply H.
  induction entries as [|e es IH]; intros l; [done|]. cbn [foldl map]. by rewrite IH.
Qed.

(** ** Volume *)

Module Volume.

(** Of the audio engine: the gain of its output node once [initAudio] made one,
    and the microphone gain, both in percent. *)
Record engine := mk_engine { gain : option Z; micGain : Z }.

Definition setVolume (v : Z) (e : engine) : engine :=
  mk_engine (match gain e with Some _ => Some v | None => None end) (micGain e).
Definition setMicGain (v : Z) (e : engine) : engine := mk_engine (gain e) v.

(** [initAudio]: a second call finds the context there. *)
Definition audio_started (e : engine) : engine :=
  match gain e with Some _ => e | None => mk_engine (Some 80%Z) (micGain e) end.

Record volume := mk_volume {
  speakerVol : Z; speakerVolPrev : Z; muted : bool; micVol : Z; eng : engine
}.

(** Mounting the page over the engine as it is. *)
Definition CommsPage (e : engine) : volume := mk_volume 80 80 false 80 e.

Definition handleSpeakerChange (val : Z) (p : volume) : volume :=
  mk_volume val (speakerVolPrev p) (if (0 <? val)%Z && muted p then false else muted p) (micVol p)
    (setVolume val (eng p)).

Definition handleMicChange (val : Z) (p : volume) : volume :=
  mk_volume (speakerVol p) (speakerVolPrev p) (muted p) val (setMicGain val (eng p)).

Definition toggleMute (p : volume) : volume :=
  if muted p then
    mk_volume (speakerVolPrev p) (speakerVolPrev p) false (micVol p) (setVolume (speakerVolPrev p) (eng p))
  else mk_volume 0 (speakerVol p) true (micVol p) (setVolume 0 (eng p)).

Inductive event := Speaker (v : Z) | Mic (v : Z) | Mute | AudioStarts.

(** The sliders run from 0 to 200. *)
Definition enabled (e : event) : Prop :=
  match e with Speaker v | Mic v => (0 <= v <= 200)%Z | _ => True end.

Definition fire (p : volume) (e : event) : volume :=
  match e with
  | Speaker v => handleSpeakerChange v p
  | Mic v => handleMicChange v p
  | Mute => toggleMute p
  | AudioStarts => mk_volume (speakerVol p) (speakerVolPrev p) (muted p) (micVol p) (audio_started (eng p))
  end.

Definition in_range (p : volume) : Prop :=
  (0 <= speakerVol p <= 200)%Z ∧ (0 <= speakerVolPrev p <= 200)%Z ∧ (muted p = true → speakerVol p = 0%Z).

Definition in_step (p : volume) : Prop := ∀ g, gain (eng p) = Some g → g = speakerVol p.

Lemma fire_in_range p e : enabled e → in_range p → in_range (fire p e).
Proof.
  intros He (H1 & H2 & H3). destruct e; unfold in_range; cbn in *.
  - split_and!; try lia. destruct (0 <? v)%Z eqn:E, (muted p); bool_simpl; cbn; intros; try done; lia.
  - done.
  - unfold toggleMute. destruct (muted p); cbn; split_and!; try lia; done.
  - done.
Qed.

Lemma fire_in_step p e : gain (eng p) ≠ None → in_step p → in_step (fire p e).
Proof.
  intros Hg Hs g. destruct e; cbn.
  - unfold setVolume. destruct (gain (eng p)); cbn; [by intros [= <-]|done].
  - apply Hs.
  - unfold toggleMute, setVolume. destruct (muted p), (gain (eng p)); cbn; try done; by intros [= <-].
  - unfold audio_started. destruct (gain (eng p)) eqn:E; [|done]. apply Hs.
Qed.

Lemma gain_kept p e : gain (eng p) ≠ None → gain (eng (fire p e)) ≠ None.
Proof.
  intros Hg. destruct e; cbn; unfold toggleMute; try destruct (muted p); cbn;
    unfold setVolume, audio_started; by destruct (gain (eng p)) eqn:E; cbn; rewrite ?E.
Qed.

(** The sliders stay in range, a muted page shows zero, and once the audio runs,
    what is heard is what is shown, whatever the operator does; muting twice gives
    the volume back. *)
Theorem volume_shown (p : volume) es :
  in_range p → Forall enabled es →
  let q := foldl fire p es in
  in_range q
  ∧ (gain (eng p) = Some (speakerVol p) → gain (eng q) = Some (speakerVol q))
  ∧ (muted q = false → speakerVol (toggleMute (toggleMute q)) = speakerVol q ∧ muted (toggleMute (toggleMute q)) = false).
Proof.
  intros Hr Hes q. split_and!.
  - subst q. revert p Hr. induction Hes as [|e es He Hes IH]; intros p Hr; [done|]. cbn. by apply IH, fire_in_range.
  - intros Hg. assert (gain (eng q) ≠ None ∧ in_step q) as [H1 H2].
    { subst q. apply (foldl_inv (λ p, gain (eng p) ≠ None ∧ in_step p)).
      - intros p' e [? ?]. split; [by apply gain_kept|by apply fire_in_step].
      - rewrite Hg. split; [done|]. intros g. rewrite Hg. by intros [= <-]. }
    destruct (gain (eng q)) as [g|] eqn:E; [|done]. by rewrite (H2 g E).
  - intros Hm. unfold toggleMute at 2 4. by rewrite Hm.
Qed.

Theorem volume_shown_witness :
  let p := CommsPage (mk_engine (Some 80%Z) 80) in
  gain (eng (foldl fire p [Mute; Speaker 120; Mic 50])) = Some 120%Z.
Proof.
  intros p. destruct (volume_shown p [Mute; Speaker 120; Mic 50]) as (_ & H & _).
  - unfold in_range. cbn. split_and!; [lia..|done].
  - repeat constructor; cbn; lia.
  - exact (H eq_refl).
Defined.

(** Before the audio runs nothing takes the volume: a page muted then is heard at
    80 percent as soon as it starts. *)
Theorem muted_before_start :
  let q := foldl fire (CommsPage (mk_engine None 80)) [Mute; AudioStarts] in
  muted q = true ∧ speakerVol q = 0%Z ∧ gain (eng q) = Some 80%Z.
Proof. done. Qed.

(** The engine outlives the page: coming back to it shows 80 percent, not muted,
    over whatever the engine was left at. *)
Theorem volume_forgotten_on_return e :
  speakerVol (CommsPage e) = 80%Z ∧ muted (CommsPage e) = false ∧ eng (CommsPage e) = e.
Proof. done. Qed.
End Volume.

(** ** Channel names *)

Module Names.

Definition channel_text (prefix : string) (c : Z) : string := (prefix ++ pretty c)%string.

(** [channelAliases] and its copy in [localStorage]; [None] is a text that does
    not parse, or [null]. *)
Record names := mk_names { channelAliases : gmap Z string; stored : option (gmap Z string) }.

Definition load_names (stored : option (gmap Z string)) : names := mk_names (stored ?? ∅) stored.

Definition handleAliasChange (c : Z) (name : string) (p : names) : names :=
  let trimmed := trim name in
  let next :=
    if decide (trimmed ≠ "" ∧ trimmed ≠ channel_text "Ch " c)
    then <[c := trimmed]> (channelAliases p) else delete c (channelAliases p) in
  mk_names next (Some next).

(** [getLabel] of the grid. *)
Definition getLabel (p : names) (c : Z) : string :=
  or_str (channelAliases p !! c ?? "") (channel_text "Ch " c).

(** The cell being renamed. *)
Record naming := mk_naming { n_names : names; editingCh : option Z }.

Inductive naming_event := DoubleClick (c : Z) | Enter (text : string) | Blur (text : string) | Escape.

Definition commitAlias (c : Z) (value : string) (p : naming) : naming :=
  mk_naming (handleAliasChange c value (n_names p)) None.

(** The input exists for the edited channel only. *)
Definition naming_fire (p : naming) (e : naming_event) : naming :=
  match e, editingCh p with
  | DoubleClick c, _ => mk_naming (n_names p) (Some c)
  | (Enter t | Blur t), Some c => commitAlias c t p
  | Escape, Some _ => mk_naming (n_names p) None
  | _, None => p
  end.

(** Renaming: the label is the trimmed text, or the channel's own name when that is
    empty; no other label changes; and what is stored gives the same labels when
    the page is opened again. *)
Theorem rename_label (c c' : Z) (name : string) (p : names) :
  let q := handleAliasChange c name p in
  getLabel q c = or_str (trim name) (channel_text "Ch " c)
  ∧ (c' ≠ c → getLabel q c' = getLabel p c')
  ∧ ∀ c'', getLabel (load_names (stored q)) c'' = getLabel q c''.
Proof.
  unfold handleAliasChange, getLabel, or_str. cbv zeta. cbn [channelAliases stored load_names default]. split_and!.
  - destruct (decide (trim name ≠ "" ∧ _)) as [[Hne _]|Hn]; [by rewrite lookup_insert_eq|].
    rewrite lookup_delete_eq. cbn. repeat case_decide; try done.
    destruct (decide (trim name = channel_text "Ch " c)) as [->|]; [done|]. exfalso. by apply Hn.
  - intros Hne. destruct (decide (trim name ≠ "" ∧ _));
      [by rewrite lookup_insert_ne|by rewrite lookup_delete_ne].
  - done.
Qed.

(** Leaving an edit with Escape changes no name; Enter and then leaving the cell
    commits once. *)
Theorem rename_committed_once (p : naming) c t t' :
  let q := naming_fire p (DoubleClick c) in
  n_names (naming_fire q Escape) = n_names p
  ∧ naming_fire (naming_fire q (Enter t)) (Blur t') = naming_fire q (Enter t).
Proof. done. Qed.
End Names.

(** ** Reception *)

Module Reception.

Record rx := mk_rx {
  rxLastTime : gmap Z Z;
  rxLastSource : option (Z * string * Z);
  rxSource : option (Z * string);
  replayAvailable : gmap Z bool;
  rxActive : gmap Z bool
}.

Definition rx_init : rx := mk_rx ∅ None None ∅ ∅.

(** The WebSocket's [rxAudio]; the decoder takes it from there. *)
Definition rxAudio (c now : Z) (p : rx) : rx :=
  mk_rx (<[c := now]> (rxLastTime p)) (rxLastSource p) (rxSource p) (replayAvailable p) (rxActive p).

(** The markers of [onPcm]. *)
Definition onPcm (c : Z) (srcIP : string) (now : Z) (p : rx) : rx :=
  mk_rx (<[c := now]> (rxLastTime p)) (Some (c, srcIP, now)) (Some (c, srcIP))
    (if replayAvailable p !! c ?? false then replayAvailable p else <[c := true]> (replayAvailable p))
    (rxActive p).

Definition rxSourceExpireTick (now : Z) (p : rx) : rx :=
  match rxLastSource p with
  | Some (_, _, ts) =>
      if (2000 <? now - ts)%Z
      then mk_rx (rxLastTime p) None None (replayAvailable p) (rxActive p) else p
  | None => p
  end.

(** Zero and absent are falsy. *)
Definition active_flag (now : Z) (p : rx) (c : Z) : bool :=
  let last := rxLastTime p !! c ?? 0%Z in
  negb (bool_decide (last = 0%Z)) && (now - last <? 500)%Z.

Definition refresh_step (now : Z) (p : rx) (acc : gmap Z bool * bool) (c : channel_def) : gmap Z bool * bool :=
  let flag := active_flag now p (ch c) in
  (<[ch c := flag]> acc.1, acc.2 || negb (Bool.eqb flag (rxActive p !! ch c ?? false))).

(** [changed ? next : prev]. *)
Definition refreshRxActive (channels : list channel_def) (now : Z) (p : rx) : rx :=
  let (next, changed) := foldl (refresh_step now p) (∅, false) channels in
  mk_rx (rxLastTime p) (rxLastSource p) (rxSource p) (replayAvailable p) (if changed then next else rxActive p).

Definition shown_active (p : rx) (c : Z) : bool := rxActive p !! c ?? false.

Inductive rx_event :=
| Frame (c now : Z) | Pcm (c : Z) (ip : string) (now : Z) | Expire (now : Z) | RefreshActive (now : Z).

Definition rx_fire (p : rx) (e : rx_event) : rx :=
  match e with
  | Frame c now => rxAudio c now p
  | Pcm c ip now => onPcm c ip now p
  | Expire now => rxSourceExpireTick now p
  | RefreshActive now => refreshRxActive CHANNELS_DEF now p
  end.

Lemma refresh_fold now p l acc :
  let r := foldl (refresh_step now p) acc l in
  (∀ c, r.1 !! c = if decide (c ∈ map ch l) then Some (active_flag now p c) else acc.1 !! c)
  ∧ (r.2 = false → ∀ c, c ∈ map ch l → rxActive p !! c ?? false = active_flag now p c)
  ∧ (r.2 = false → acc.2 = false)
  ∧ ((∀ c, c ∈ map ch l → rxActive p !! c ?? false = active_flag now p c) → acc.2 = false → r.2 = false).
Proof.
  revert acc. induction l as [|x l IH]; intros acc; cbn [foldl map].
  { split_and!; [|by intros _ c ?%elem_of_nil|done|done]. intros c.
    by rewrite decide_False by apply not_elem_of_nil. }
  destruct (IH (refresh_step now p acc x)) as (H1 & H2 & H3 & H4). cbv zeta in *. split_and!.
  - intros c. rewrite H1. unfold refresh_step. cbn [fst]. destruct (decide (c ∈ map ch l)) as [Hin|Hin].
    + by rewrite decide_True by by right.
    + destruct (decide (c = ch x)) as [->|Hne].
      * by rewrite lookup_insert_eq, decide_True by left.
      * rewrite lookup_insert_ne by done. rewrite decide_False; [done|]. by rewrite elem_of_cons; intros [?|?].
  - intros Hr c [->|Hin]%elem_of_cons; [|by apply H2]. specialize (H3 Hr). cbn in H3. bool_simpl.
    symmetry. by apply Bool.eqb_prop.
  - intros Hr. specialize (H3 Hr). cbn in H3. by bool_simpl.
  - intros Hall Ha. apply H4; [intros c Hc; apply Hall; by right|]. cbn. rewrite Ha, Hall by left. cbn.
    by rewrite Bool.eqb_reflx.
Qed.

(** The dots of the grid: after a refresh a channel's dot is lit exactly when a
    frame came in the last half second, and the state object is replaced only when
    a dot flips. *)
Theorem rx_dots now p c :
  c ∈ map ch CHANNELS_DEF →
  shown_active (rx_fire p (RefreshActive now)) c = active_flag now p c
  ∧ ((∀ c', c' ∈ map ch CHANNELS_DEF → shown_active p c' = active_flag now p c') →
     rxActive (rx_fire p (RefreshActive now)) = rxActive p).
Proof.
  intros Hc. destruct (refresh_fold now p CHANNELS_DEF (∅, false)) as (H1 & H2 & H3 & H4).
  unfold rx_fire, refreshRxActive, shown_active. cbv zeta in *.
  destruct (foldl (refresh_step now p) (∅, false) CHANNELS_DEF) as [next changed]. cbn [fst snd rxActive] in *.
  split.
  - destruct changed; [by rewrite H1, decide_True|by apply H2].
  - intros Hall. by rewrite H4.
Qed.

(** The marker of the speaker is that of the last decoded frame, is always gone at
    the first tick more than two seconds after it, and never before. *)
Theorem rx_marker es :
  let p := foldl rx_fire rx_init es in
  rxSource p = (λ s, (s.1.1, s.1.2)) <$> rxLastSource p
  ∧ ∀ now, rxSource (rx_fire p (Expire now)) =
      match rxLastSource p with
      | Some (c, ip, ts) => if (2000 <? now - ts)%Z then None else Some (c, ip)
      | None => None
      end.
Proof.
  intros p. assert (rxSource p = (λ s, (s.1.1, s.1.2)) <$> rxLastSource p) as Hp.
  { subst p. apply (foldl_inv (λ p, rxSource p = (λ s, (s.1.1, s.1.2)) <$> rxLastSource p)); [|done].
    intros q e Hq. destruct e; cbn [rx_fire]; [done|done| |].
    - unfold rxSourceExpireTick. destruct (rxLastSource q) as [[[? ?] ?]|] eqn:E; [|by rewrite E].
      case_match; [done|by rewrite E].
    - unfold refreshRxActive. by destruct (foldl _ _ _). }
  split; [done|]. intros now. cbn [rx_fire]. unfold rxSourceExpireTick.
  destruct (rxLastSource p) as [[[c ip] ts]|] eqn:E; [|by rewrite Hp].
  destruct (2000 <? now - ts)%Z; [done|by rewrite Hp].
Qed.
End Reception.

(** ** The switch of the captions *)

Module Captions.

(** The awaits of [handleWhisperToggle]: both belong to a click that switched the
    captions on. *)
Inductive cont := CheckAvailable | InitWhisper.
#[export] Instance cont_eq_dec : EqDecision cont.
Proof. solve_decision. Defined.

(** [whisperEnabled] and its ref; [ready] is [isReady()] of the service. *)
Record captions := mk_captions { on : bool; whisperStatus : string; ready : bool; conts : list cont }.

Definition captions_init (ready : bool) : captions := mk_captions false "" ready [].

Definition not_downloaded : string := "Whisper model not downloaded — go to Settings to download".

Definition last_status (enabled : bool) (p : captions) : string :=
  if enabled then (if ready p then "Whisper ready" else "Loading model...") else "".

Definition handleWhisperToggle (p : captions) : captions :=
  let enabled := negb (on p) in
  let p := mk_captions enabled (whisperStatus p) (ready p) (conts p) in
  if enabled && negb (ready p) then mk_captions enabled (whisperStatus p) (ready p) (conts p ++ [CheckAvailable])
  else mk_captions enabled (last_status enabled p) (ready p) (conts p).

(** The await at index [i] resolved. *)
Definition drop_cont (i : nat) (p : captions) : list cont := take i (conts p) ++ drop (S i) (conts p).

Definition check_resumed (i : nat) (available : bool) (p : captions) : captions :=
  if available then mk_captions (on p) (whisperStatus p) (ready p) (drop_cont i p ++ [InitWhisper])
  else mk_captions false not_downloaded (ready p) (drop_cont i p).

(** [initWhisper] set the service ready when it succeeded. *)
Definition init_resumed (i : nat) (ok : bool) (p : captions) : captions :=
  if ok then
    let p := mk_captions (on p) (whisperStatus p) true (drop_cont i p) in
    mk_captions (on p) (last_status true p) (ready p) (conts p)
  else mk_captions false (whisperStatus p) (ready p) (drop_cont i p).

Inductive captions_event :=
| Toggle | Checked (i : nat) (available : bool) | Initialised (i : nat) (ok : bool) | OnStatus (msg : string).

Definition captions_enabled (e : captions_event) (p : captions) : Prop :=
  match e with
  | Toggle => True
  | Checked i _ => conts p !! i = Some CheckAvailable
  | Initialised i _ => conts p !! i = Some InitWhisper
  | OnStatus _ => InitWhisper ∈ conts p
  end.

Definition captions_fire (e : captions_event) (p : captions) : captions :=
  match e with
  | Toggle => handleWhisperToggle p
  | Checked i a => check_resumed i a p
  | Initialised i ok => init_resumed i ok p
  | OnStatus msg => mk_captions (on p) msg (ready p) (conts p)
  end.

Definition captions_step (p p' : captions) : Prop := ∃ e, captions_enabled e p ∧ p' = captions_fire e p.
Definition captions_reachable (r : bool) : captions → Prop := rtc captions_step (captions_init r).

(** [whisperTick] only does something when both hold. *)
Definition transcribing (p : captions) : bool := on p && ready p.

(** The switch never stays on without the model: in every reachable state it is on
    only if the service is ready or a load is on its way, and a click while the
    service is ready takes effect at once, status included. *)
Theorem captions_switch r p :
  captions_reachable r p →
  (on p = true → ready p = true ∨ conts p ≠ [])
  ∧ (ready p = true → let q := captions_fire Toggle p in
       on q = negb (on p) ∧ conts q = conts p ∧ transcribing q = negb (on p)
       ∧ whisperStatus q = if on p then "" else "Whisper ready").
Proof.
  intros Hr. split.
  - revert p Hr. apply (rtc_ind_r (λ p, on p = true → ready p = true ∨ conts p ≠ [])); [done|].
    intros p p' _ (e & He & ->) Hp. destruct e as [|i a|i ok|msg]; cbn in *.
    + unfold handleWhisperToggle. cbv zeta. cbn [ready]. destruct (on p); cbn [negb andb]; [done|].
      destruct (ready p) eqn:E; cbn; [by left|]. intros _. right. by destruct (conts p).
    + unfold check_resumed. destruct a; [|done]. intros _. right. cbn. by destruct (drop_cont i p).
    + unfold init_resumed. destruct ok; [by left|done].
    + done.
  - intros Hrd. cbn. unfold handleWhisperToggle, last_status, transcribing. cbn [ready].
    rewrite Hrd. by destruct (on p).
Qed.

Theorem captions_switch_witness :
  on (foldl (λ p e, captions_fire e p) (captions_init false) [Toggle; Checked 0 true; Initialised 0 true]) = true
  ∧ transcribing (foldl (λ p e, captions_fire e p) (captions_init false)
      [Toggle; Checked 0 true; Initialised 0 true; Toggle]) = false.
Proof.
  split; [reflexivity|].
  set (p := foldl (λ p e, captions_fire e p) (captions_init false) [Toggle; Checked 0 true; Initialised 0 true]).
  assert (captions_reachable false p) as Hr.
  { eapply rtc_l; [by exists Toggle|]. eapply rtc_l; [by exists (Checked 0 true)|].
    eapply rtc_l; [by exists (Initialised 0 true)|]. apply rtc_refl. }
  destruct (proj2 (captions_switch false p Hr) eq_refl) as (_ & _ & H & _). exact H.
Defined.

(** A load that ends after the captions were switched off still reports that they
    are ready, and two clicks during a load start a second one. *)
Theorem ready_shown_while_off :
  let p := foldl (λ p e, captions_fire e p) (captions_init false)
             [Toggle; Toggle; Checked 0 true; Initialised 0 true] in
  on p = false ∧ whisperStatus p = "Whisper ready".
Proof. done. Qed.

Theorem two_loads :
  conts (foldl (λ p e, captions_fire e p) (captions_init false) [Toggle; Toggle; Toggle; Checked 0 true; Checked 0 true])
  = [InitWhisper; InitWhisper].
Proof. done. Qed.
End Captions.

(** ** What the page derives *)

Definition on_channel (m : gmap Z bool) (c : channel_def) : bool := m !! ch c ?? false.

Definition activeCh (txEnabled rxEnabled : gmap Z bool) : Z :=
  match List.find (on_channel txEnabled) CHANNELS_DEF with
  | Some c => ch c
  | None => match List.find (on_channel rxEnabled) CHANNELS_DEF with Some c => ch c | None => 1 end
  end%Z.

(** The channel table has no names. *)
Definition activeChName (aliases : gmap Z string) (c : Z) : string :=
  let alias := aliases !! c ?? "" in
  if decide (alias = "") then ("CH " ++ pretty c)%string else toUpperCase alias.

Definition rxSourceTag (aliases : gmap Z string) (source : option (Z * string)) : option string :=
  (λ s, or_str (toUpperCase (aliases !! s.1 ?? "")) ("CH " ++ pretty s.1)%string) <$> source.

(** [handleReplay]: what is played, and the log line. *)
Definition handleReplay {A} (c : Z) (pcm : option (list A)) (aliases : gmap Z string) : option (list A) * string :=
  match pcm with
  | None => (None, "No audio to replay on Ch " ++ pretty c)%string
  | Some l =>
      (Some l, ("Replaying " ++ toFixed 1 (fdiv (of_int (length l)) (of_int 48000)) ++ "s on "
                ++ or_str (aliases !! c ?? "") ("Ch " ++ pretty c))%string)
  end.

(** The talk is shown on the first channel that sends, else the first that
    receives, else the first. *)
Theorem active_channel tx rx :
  let c := activeCh tx rx in
  c ∈ map ch CHANNELS_DEF
  ∧ (tx !! c ?? false = false → ∀ c', c' ∈ map ch CHANNELS_DEF → tx !! c' ?? false = false)
  ∧ (∀ c', c' ∈ map ch CHANNELS_DEF → tx !! c' ?? false = true → (c <= c')%Z).
Proof.
  assert (∀ P : Z → Prop, (∀ c', c' ∈ map ch CHANNELS_DEF → P c') ↔ P 1 ∧ P 2 ∧ P 3 ∧ P 4 ∧ P 5)%Z as Hall.
  { intros P. cbn. split; [intros H; split_and!; apply H; set_solver|].
    intros (?&?&?&?&?) c'. rewrite !elem_of_cons, elem_of_nil. naive_solver. }
  cbv zeta. rewrite !Hall. unfold activeCh, on_channel. cbn.
  destruct (tx !! 1%Z ?? false) eqn:E1; [cbn; rewrite E1; split_and!; [set_solver|done|lia..]|].
  destruct (tx !! 2%Z ?? false) eqn:E2; [cbn; rewrite E2; split_and!; try done; try lia; set_solver|].
  destruct (tx !! 3%Z ?? false) eqn:E3; [cbn; rewrite E3; split_and!; try done; try lia; set_solver|].
  destruct (tx !! 4%Z ?? false) eqn:E4; [cbn; rewrite E4; split_and!; try done; try lia; set_solver|].
  destruct (tx !! 5%Z ?? false) eqn:E5; [cbn; rewrite E5; split_and!; try done; try lia; set_solver|].
  split_and!; try done. repeat case_match; set_solver.
Qed.

(** ** The transcript *)

(** [text.includes(sub)] *)
Fixpoint includes (sub s : string) : bool :=
  String.prefix sub s || match s with EmptyString => false | String _ s' => includes sub s' end.

Inductive severity := Crit | Warn.

(** The two regular expressions are alternatives of plain words. *)
Definition defaultSeverity (text : string) : option severity :=
  let t := toLowerCase text in
  if existsb (λ w, includes w t) ["losing"; "lost"; "dropped"; "dropping"; "critical"; "down"; "offline"]
  then Some Crit
  else if existsb (λ w, includes w t) ["battery"; "degraded"; "warn"; "heads up"; "reconverging"; "reconnect"]
  then Some Warn
  else None.

(** The source of a compact row, and whether a message of the full list is hidden. *)
Definition transcript_source (aliases : gmap Z string) (m : chat_msg) : string :=
  or_str (c_ip m) (or_str (aliases !! c_ch m ?? "") ("CH " ++ pretty (c_ch m))%string).
Definition transcript_hidden (activeFilter : Z) (m : chat_msg) : bool :=
  negb (activeFilter =? 0)%Z && negb (c_ch m =? activeFilter)%Z.

Lemma includes_spec sub s : includes sub s = true ↔ ∃ p q, s = (p ++ sub ++ q)%string.
Proof.
  assert (∀ u v, String.prefix u v = true ↔ ∃ q, v = (u ++ q)%string) as Hpre.
  { intros u. induction u as [|c u IH]; intros v; [split; [by exists v|by destruct v]|].
    destruct v as [|c' v]; [split; [done|by intros (? & ?)]|]. cbn. destruct (ascii_dec c c') as [->|Hne].
    - rewrite IH. split; intros (q & Hq); exists q; [by rewrite Hq|by injection Hq].
    - split; [done|]. intros (q & Hq). by injection Hq. }
  induction s as [|c s IH]; cbn [includes]; rewrite orb_true_iff, Hpre.
  - split; [intros [(q & ->)|]; [by exists "", q|done]|]. intros (p & q & Hs). left. exists q. by destruct p.
  - rewrite IH. split.
    + intros [(q & ->)|(p & q & ->)]; [by exists "", q|by exists (String c p), q].
    + intros ([|c' p] & q & Hs); [left; by exists q|right]. injection Hs as -> ->. by exists p, q.
Qed.

(** A message is marked critical exactly when one of the words occurs in it, in any
    case; whatever is longer keeps the mark. *)
Theorem severity_crit text :
  defaultSeverity text = Some Crit ↔
  ∃ w p q, w ∈ ["losing"; "lost"; "dropped"; "dropping"; "critical"; "down"; "offline"]
    ∧ toLowerCase text = (p ++ w ++ q)%string.
Proof.
  unfold defaultSeverity. set (ws := ["losing"; _; _; _; _; _; _]). case_match eqn:E.
  - split; [|done]. intros _. apply existsb_exists in E as (w & Hw%list_elem_of_In & (p & q & Ht)%includes_spec).
    by exists w, p, q.
  - split; [by case_match|]. intros (w & p & q & Hw & Ht). exfalso. revert E. apply not_false_iff_true.
    apply existsb_exists. exists w. split; [by apply list_elem_of_In|]. apply includes_spec. by exists p, q.
Qed.

(** "shutdown" is not a lost link, but it is marked as one. *)
Example severity_of_shutdown : defaultSeverity "Scheduled shutdown test" = Some Crit.
Proof. reflexivity. Qed.
