(* ===== verification/MeshShare.v ===== *)
(** The two ends of sharing a mesh by QR code: [components/MeshJoinQR.jsx] shows this
    node's credentials, [components/QrScanInput.jsx] takes a code from a photograph
    or from pasted text.  Decoding a photograph is the browser's and jsQR's; what
    they answer is an argument. *)
From S2P Require Import Prelude JsString JsNumber JsList MeshJoin.
Open Scope js_scope.

(** ** Scanning *)

Module Scan.

Definition MAX_EDGE : Z := 1024.

Definition fmin (x y : number) : number := if flt y x then y else x.

(** The size a photograph is decoded at. *)
Definition scaled (width height : Z) : Z * Z :=
  let scale := fmin (of_int 1) (fdiv (of_int MAX_EDGE) (of_int (Z.max width height))) in
  (Z.max 1 (Math_round (fmul (of_int width) scale) ?? 1%Z),
   Z.max 1 (Math_round (fmul (of_int height) scale) ?? 1%Z)).

Inductive scan_error := JoinError (e : join_error) | OtherError (message : string).

(** What the browser makes of a file: it cannot be loaded, or a bitmap, whether a
    canvas could be had, and what jsQR reads. *)
Inductive photo :=
| Unreadable (message : string)
| Bitmap (canvas : bool) (code : option string).

Definition decodeImageFile (f : photo) : string + scan_error :=
  match f with
  | Unreadable message => inr (OtherError message)
  | Bitmap false _ => inr (JoinError NoCanvas)
  | Bitmap true None => inr (JoinError NoQr)
  | Bitmap true (Some data) => inl data
  end.

Definition messageFor (err : scan_error) : string :=
  match err with
  | JoinError e => MESH_JOIN_ERROR_MESSAGES e
  | OtherError message => ("Could not read the photo: " ++ message)%string
  end.

Section Input.
Context {B : Type} (base64Decode : string → option B) (fromBinary : B → option MeshJoinPayload).
(** The property [disabled]. *)
Context (disabled : bool).

(** [decoding] counts the photographs on their way; [decoded] and [reported] are
    the calls of [onDecoded] and [onError]. *)
Record scan := mk_scan {
  busy : bool; pasteOpen : bool; pasteText : string; error : option string;
  decoding : nat; decoded : list MeshJoinPayload; reported : list string
}.

Definition QrScanInput : scan := mk_scan false false "" None 0 [] [].

Definition fail (err : scan_error) (p : scan) : scan :=
  mk_scan (busy p) (pasteOpen p) (pasteText p) (Some (messageFor err)) (decoding p) (decoded p)
    (reported p ++ [messageFor err]).

(** [deliver], and whether it returned. *)
Definition deliver (text : string) (p : scan) : scan + join_error :=
  match decodeMeshJoinText base64Decode fromBinary (Some text) with
  | inl payload =>
      inl (mk_scan (busy p) (pasteOpen p) (pasteText p) None (decoding p) (decoded p ++ [payload]) (reported p))
  | inr e => inr e
  end.

Definition set_busy (b : bool) (e : option string) (n : nat) (p : scan) : scan :=
  mk_scan b (pasteOpen p) (pasteText p) e n (decoded p) (reported p).

(** [onFile] up to its await; without a file nothing happens. *)
Definition onFile (file : bool) (p : scan) : scan :=
  if file then set_busy true None (S (decoding p)) p else p.

(** The rest of [onFile], with its [finally]. *)
Definition file_decoded (f : photo) (p : scan) : scan :=
  let p := set_busy (busy p) (error p) (pred (decoding p)) p in
  let p := match decodeImageFile f with
           | inl text => match deliver text p with inl q => q | inr e => fail (JoinError e) p end
           | inr err => fail err p
           end in
  set_busy false (error p) (decoding p) p.

Definition usePasted (p : scan) : scan :=
  match deliver (pasteText p) p with
  | inl q => mk_scan (busy q) false "" (error q) (decoding q) (decoded q) (reported q)
  | inr e => fail (JoinError e) p
  end.

Definition locked (p : scan) : bool := disabled || busy p.
Definition canUsePaste (p : scan) : bool := negb (bool_decide (trim (pasteText p) = "")) && negb (busy p).

Inductive scan_event := File (present : bool) | Decoded (f : photo) | TogglePaste | Type_ (s : string) | UsePasted.

Definition scan_enabled (e : scan_event) (p : scan) : Prop :=
  match e with
  | File _ | TogglePaste => locked p = false
  | Decoded _ => 0 < decoding p
  | Type_ _ => pasteOpen p = true
  | UsePasted => pasteOpen p = true ∧ canUsePaste p = true
  end.

Definition scan_fire (e : scan_event) (p : scan) : scan :=
  match e with
  | File b => onFile b p
  | Decoded f => file_decoded f p
  | TogglePaste => mk_scan (busy p) (negb (pasteOpen p)) (pasteText p) (error p) (decoding p) (decoded p) (reported p)
  | Type_ s => mk_scan (busy p) (pasteOpen p) s (error p) (decoding p) (decoded p) (reported p)
  | UsePasted => usePasted p
  end.

Definition scan_step (p p' : scan) : Prop := ∃ e, scan_enabled e p ∧ p' = scan_fire e p.
Definition scan_reachable : scan → Prop := rtc scan_step QrScanInput.

Record scan_inv (p : scan) : Prop := {
  si_single : decoding p = (if busy p then 1 else 0);
  si_decoded : Forall (λ x, ∃ text, decodeMeshJoinText base64Decode fromBinary (Some text) = inl x) (decoded p)
}.

Lemma deliver_inv text p q : scan_inv p → deliver text p = inl q → scan_inv q.
Proof.
  intros [H1 H2]. unfold deliver. destruct (decodeMeshJoinText _ _ _) as [x|] eqn:E; [|done].
  intros [= <-]. split; [done|]. apply Forall_app_2; [done|]. constructor; [by exists text|done].
Qed.

Lemma scan_fire_inv e p : scan_enabled e p → scan_inv p → scan_inv (scan_fire e p).
Proof.
  intros He Hp. pose proof Hp as [H1 H2]. destruct e as [b|f| |s|]; cbn in *.
  - destruct b; [|done]. unfold locked in He. bool_simpl. split; [|done]. cbn. rewrite H1.
    by destruct (busy p).
  - unfold file_decoded. set (p0 := set_busy (busy p) (error p) (pred (decoding p)) p).
    assert (decoding p0 = 0) as Hd by (cbn; rewrite H1; by destruct (busy p)).
    destruct (decodeImageFile f) as [text|err]; [|by split].
    unfold deliver. destruct (decodeMeshJoinText _ _ _) as [x|e] eqn:E; [|by split].
    split; [done|]. apply Forall_app_2; [done|]. constructor; [by exists text|done].
  - by split.
  - by split.
  - unfold usePasted. destruct (deliver (pasteText p) p) as [q|e] eqn:E; [|by split].
    pose proof (deliver_inv _ _ _ Hp E) as [Q1 Q2]. by split.
Qed.

(** Scanning.  In every reachable state at most one photograph is being decoded,
    exactly then the input is busy, and only decoded codes are delivered.  An
    attempt has one of two ends: the payload is delivered once and no error shows,
    or nothing is delivered, the message is shown and reported, and pasted text is
    kept for correction. *)
Theorem scan_attempts p :
  scan_reachable p →
  decoding p <= 1 ∧ (busy p = true ↔ decoding p = 1)
  ∧ (∀ x, x ∈ decoded p → ∃ text, decodeMeshJoinText base64Decode fromBinary (Some text) = inl x)
  ∧ (let q := usePasted p in
     (∃ x, decoded q = decoded p ++ [x] ∧ error q = None ∧ pasteText q = "" ∧ pasteOpen q = false)
     ∨ (∃ e, decoded q = decoded p ∧ error q = Some (MESH_JOIN_ERROR_MESSAGES e)
          ∧ reported q = reported p ++ [MESH_JOIN_ERROR_MESSAGES e] ∧ pasteText q = pasteText p))
  ∧ (∀ f, let q := file_decoded f p in busy q = false ∧
     ((∃ x, decoded q = decoded p ++ [x] ∧ error q = None)
      ∨ (∃ m, decoded q = decoded p ∧ error q = Some m ∧ reported q = reported p ++ [m]))).
Proof.
  intros Hr. assert (scan_inv p) as [H1 H2].
  { revert p Hr. apply rtc_ind_r; [by split|]. intros p p' _ (e & He & ->). by apply scan_fire_inv. }
  split_and!.
  - rewrite H1. destruct (busy p); lia.
  - rewrite H1. by destruct (busy p).
  - by apply Forall_forall.
  - cbv zeta. unfold usePasted, deliver. destruct (decodeMeshJoinText _ _ _) as [x|e].
    + left. by exists x.
    + right. by exists e.
  - intros f. cbv zeta. unfold file_decoded, deliver. split; [done|].
    destruct (decodeImageFile f) as [text|err]; [destruct (decodeMeshJoinText _ _ _) as [x|e]|].
    + left. by exists x.
    + right. by eexists.
    + right. by eexists.
Qed.

(** The page's [disabled] does not reach an open paste field. *)
Theorem paste_ignores_disabled p :
  pasteOpen p = true → busy p = false → trim (pasteText p) ≠ "" → scan_enabled UsePasted p.
Proof. intros Ho Hb Ht. split; [done|]. unfold canUsePaste. by rewrite Hb, bool_decide_false. Qed.
End Input.

Example scaled_photo : scaled 4032 3024 = (1024, 768)%Z ∧ scaled 640 480 = (640, 480)%Z ∧ scaled 100000 1 = (1024, 1)%Z.
Proof. vm_compute. done. Qed.
End Scan.

(** ** Sharing *)

Module Share.

Record qr_response := { payload : MeshJoinPayload; svg : string }.

(** [err instanceof ConnectError && err.code === Code.FailedPrecondition], or any
    other error with its message. *)
Inductive qr_error := FailedPrecondition | QrError (message : string).

Record share_state := mk_state { loading : bool; error : option string; empty : bool; resp : option qr_response }.

(** [pending] counts the requests on their way. *)
Record share := mk_share { state : share_state; reveal : bool; pending : nat }.

Definition load (p : share) : share :=
  mk_share (mk_state true None (empty (state p)) (resp (state p))) (reveal p) (S (pending p)).

(** Mounting, and every change of [refreshKey]. *)
Definition MeshJoinQR : share := load (mk_share (mk_state true None false None) false 0).

Definition settled_state (r : qr_response + qr_error) : share_state :=
  match r with
  | inl x => mk_state false None false (Some x)
  | inr FailedPrecondition => mk_state false None true None
  | inr (QrError message) => mk_state false (Some message) false None
  end.

Definition loaded (r : qr_response + qr_error) (p : share) : share :=
  mk_share (settled_state r) (reveal p) (pred (pending p)).

Definition MASK : string := "••••••••".
Definition secret (p : share) (value : string) : string := if reveal p then value else MASK.

Definition tuning (c : MeshCredentials) : string :=
  (pretty (channel c) ++ " · " ++ pretty (bandwidthMhz c) ++ " MHz · " ++ or_str (countryCode c) "—")%string.

(** What is rendered: the rows' values. *)
Record mesh_rows := {
  r_source : string; r_meshId : string; r_passphrase : string; r_channel : string;
  r_backhaul : option (string * string * string)
}.

Inductive share_view := Loading | NoMesh | Failed (message : string) | Rows (svg : string) (rows : option mesh_rows).

(** A response without a radio would throw; the decoder never gives one. *)
Definition rows_of (p : share) (x : MeshJoinPayload) : option mesh_rows :=
  (λ h, {| r_source := or_str (sourceHostname x) "—"; r_meshId := meshId h;
           r_passphrase := secret p (passphrase h); r_channel := tuning h;
           r_backhaul := (λ b, (meshId b, secret p (passphrase b), tuning b)) <$> backhaul x |}) <$> halow x.

Definition render (p : share) : share_view :=
  let s := state p in
  match loading s, resp s with
  | true, None => Loading
  | _, _ =>
      if empty s then NoMesh
      else match (error s : option string) with
           | Some m => if decide (m = "") then
                         match resp s with Some x => Rows (svg x) (rows_of p (payload x)) | None => Loading end
                       else Failed m
           | None => match resp s with Some x => Rows (svg x) (rows_of p (payload x)) | None => Loading end
           end
  end.

Inductive share_event := RefreshKey | Loaded (r : qr_response + qr_error) | ToggleReveal.

Definition share_enabled (e : share_event) (p : share) : Prop :=
  match e with
  | RefreshKey => True
  | Loaded _ => 0 < pending p
  | ToggleReveal => ∃ s r, render p = Rows s r
  end.

Definition share_fire (p : share) (e : share_event) : share :=
  match e with
  | RefreshKey => load p
  | Loaded r => loaded r p
  | ToggleReveal => mk_share (state p) (negb (reveal p)) (pending p)
  end.

Definition share_step (p p' : share) : Prop := ∃ e, share_enabled e p ∧ p' = share_fire p e.
Definition share_reachable : share → Prop := rtc share_step MeshJoinQR.

(** Until the operator reveals them, no passphrase is rendered; a load that failed
    shows no credentials; and while a refresh is on its way the ones at hand stay. *)
Theorem secrets_masked p svg rows :
  render p = Rows svg (Some rows) → reveal p = false →
  r_passphrase rows = MASK ∧ (∀ i s t, r_backhaul rows = Some (i, s, t) → s = MASK).
Proof.
  intros Hr Hm. assert (∃ x, rows_of p x = Some rows) as (x & Hx).
  { unfold render in Hr. repeat case_match; simplify_eq; eauto. }
  unfold rows_of in Hx. destruct (halow x) as [h|]; [|done]. injection Hx as <-. cbn. unfold secret. rewrite Hm.
  split; [done|]. intros i s t. destruct (backhaul x); [|done]. by intros [= _ <- _].
Qed.

Theorem secrets_masked_witness :
  let c := {| meshId := "m"; passphrase := "secret12"; encryption := SAE; bandwidthMhz := 2; channel := 6; countryCode := "US" |} in
  let x := {| payload := {| sourceHostname := "n"; halow := Some c; backhaul := None |}; svg := "<svg/>" |} in
  ∃ rows, render (share_fire MeshJoinQR (Loaded (inl x))) = Rows "<svg/>" (Some rows) ∧ r_passphrase rows = MASK.
Proof.
  intros c x. eexists. split; [reflexivity|].
  eapply (proj1 (secrets_masked (share_fire MeshJoinQR (Loaded (inl x))) "<svg/>" _ eq_refl eq_refl)).
Defined.

(** A page that loads says so or shows the last response, and one that does not has
    a result; every load in flight is accounted for. *)
Theorem share_loads p :
  share_reachable p →
  (loading (state p) = true → 0 < pending p)
  ∧ (loading (state p) = false → render p ≠ Loading ∨ error (state p) = Some "").
Proof.
  intros Hr. assert ((loading (state p) = true → 0 < pending p)
    ∧ (loading (state p) = false → empty (state p) = true ∨ error (state p) ≠ None ∨ resp (state p) ≠ None)) as [H1 H2].
  { revert p Hr. apply (rtc_ind_r (λ p, (loading (state p) = true → 0 < pending p)
      ∧ (loading (state p) = false → empty (state p) = true ∨ error (state p) ≠ None ∨ resp (state p) ≠ None))).
    - split; [cbn; lia|done].
    - intros p p' _ (e & He & ->) [H1 H2]. destruct e as [|r|]; cbn; [split; [lia|done]| |by split].
      destruct r as [x|[]]; cbn; (split; [done|]); auto. }
  split; [done|]. intros Hl. unfold render. rewrite Hl.
  destruct (H2 Hl) as [He|[He|He]].
  - rewrite He. left. by destruct (resp (state p)).
  - destruct (error (state p)) as [m|]; [|done]. destruct (decide (m = "")) as [->|]; [by right|].
    left. by destruct (empty (state p)).
  - left. destruct (resp (state p)); [|done]. destruct (empty (state p)); [done|].
    destruct (error (state p)); [|done]. by case_decide.
Qed.

(** Two refreshes are not ordered: the answer to the first, arriving last, is the
    one that stays. *)
Theorem older_answer_stays x y :
  let p := foldl share_fire MeshJoinQR [RefreshKey; Loaded (inl y); Loaded (inl x)] in
  pending p = 0 ∧ resp (state p) = Some x.
Proof. done. Qed.
End Share.
