(* ===== verification/Login.v ===== *)
(** [pages/LoginPage.jsx] with [login] of [contexts/AuthContext.jsx]: the form, its
    request, and what it does to the session of [SetupShell]. *)
From S2P Require Import Prelude JsList SetupShell.
Open Scope js_scope.

(** The answer to [/auth/login]: the request or the body's JSON threw (with a
    message), or [resp.ok] with the body's [error]. *)
Inductive login_reply := Threw (message : string) | Replied (ok : bool) (error : option string).

(** [login]: it returns, or throws a message. *)
Definition login (r : login_reply) : unit + string :=
  match r with
  | Threw message => inr message
  | Replied true _ => inl tt
  | Replied false error => inr (or_str (error ?? "") "Login failed")
  end.

(** [requests] are the credentials sent; the last one is on its way while
    [submitting]. *)
Record login_page := mk_login {
  username : string; password : string; error : string; submitting : bool;
  requests : list (string * string); session_auth : auth; path : string
}.

Definition LoginPage (a : auth) : login_page := mk_login "" "" "" false [] a "/login".

Definition handleSubmit (p : login_page) : login_page :=
  if decide (username p = "") then
    mk_login (username p) (password p) "Please enter operator" (submitting p) (requests p) (session_auth p) (path p)
  else
    mk_login (username p) (password p) "" true (requests p ++ [(username p, password p)]) (session_auth p) (path p).

(** The rest of [handleSubmit]; [login] set the user it was called with. *)
Definition login_settled (r : login_reply) (p : login_page) : login_page :=
  match login r, last (requests p) with
  | inl _, Some (u, _) =>
      mk_login (username p) (password p) (error p) false (requests p) (auth_step (session_auth p) (LoggedIn u)) "/"
  | inl _, None => p
  | inr message, _ =>
      mk_login (username p) (password p) (or_str message "Authentication failed") false (requests p)
        (auth_step (session_auth p) LoginRefused) (path p)
  end.

Inductive login_event := TypeUser (s : string) | TypePassword (s : string) | Submit | Settled (r : login_reply).

(** The fields and the button are disabled while submitting. *)
Definition login_enabled (e : login_event) (p : login_page) : Prop :=
  match e with Settled _ => submitting p = true | _ => submitting p = false end.

Definition login_fire (e : login_event) (p : login_page) : login_page :=
  match e with
  | TypeUser s => mk_login s (password p) (error p) (submitting p) (requests p) (session_auth p) (path p)
  | TypePassword s => mk_login (username p) s (error p) (submitting p) (requests p) (session_auth p) (path p)
  | Submit => handleSubmit p
  | Settled r => login_settled r p
  end.

Definition login_step (p p' : login_page) : Prop := ∃ e, login_enabled e p ∧ p' = login_fire e p.
Definition login_reachable (a : auth) : login_page → Prop := rtc login_step (LoginPage a).

Record login_inv (a : auth) (p : login_page) : Prop := {
  li_names : Forall (λ r, r.1 ≠ "") (requests p);
  li_pending : submitting p = true → requests p ≠ [];
  li_session : path p = "/login" ∧ session_auth p = a
    ∨ path p = "/" ∧ ∃ r, r ∈ requests p ∧ user (session_auth p) = Some r.1
}.

Lemma login_fire_inv a e p : login_enabled e p → login_inv a p → login_inv a (login_fire e p).
Proof.
  intros He [H1 H2 H3]. destruct e as [s|s| |r]; cbn in He |- *; try by split.
  - unfold handleSubmit. case_decide as Hu; split; cbn; try done.
    + by apply Forall_app_2; [|constructor].
    + intros _. by destruct (requests p).
    + destruct H3 as [?|(? & r & Hr & ?)]; [by left|right]. split; [done|]. exists r. split; [|done].
      apply elem_of_app. by left.
  - unfold login_settled. destruct (login r) as [[]|m].
    + destruct (last (requests p)) as [[u w]|] eqn:E; [|by split]. split; cbn; [done|done|].
      right. split; [done|]. exists (u, w). split; [|done]. apply last_Some in E as (l & ->).
      apply elem_of_app. right. by left.
    + by split.
Qed.

(** Signing in.  No request goes out without an operator's name, one is on its way
    exactly while the form is locked, and the page is left exactly when the server
    accepted: then the operator is signed in under a name that was sent. *)
Theorem login_session a p :
  login_reachable a p →
  Forall (λ r, r.1 ≠ "") (requests p)
  ∧ (path p = "/" → isAuthenticated (session_auth p) = true)
  ∧ (path p ≠ "/" → session_auth p = a)
  ∧ (submitting p = true → ∀ error, path (login_fire (Settled (Replied true error)) p) = "/")
  ∧ (∀ m, let q := login_fire (Settled (Threw m)) p in path q = path p ∧ error q ≠ "" ∧ submitting q = false).
Proof.
  intros Hr. assert (login_inv a p) as [H1 H2 H3].
  { revert p Hr. apply rtc_ind_r; [split; [constructor|done|by left]|].
    intros p p' _ (e & He & ->). by apply login_fire_inv. }
  split_and!.
  - done.
  - intros Hp. destruct H3 as [[Hq _]|(_ & r & Hin & Hu)]; [by rewrite Hp in Hq|].
    unfold isAuthenticated. rewrite Hu. rewrite Forall_forall in H1. by rewrite bool_decide_false by by apply H1.
  - intros Hp. by destruct H3 as [[_ ?]|[? _]].
  - intros Hs e. cbn. unfold login_settled. cbn. destruct (last (requests p)) as [[u w]|] eqn:E; [done|].
    apply last_None in E. by destruct (H2 Hs).
  - intros m. cbn. unfold login_settled. cbn. split_and!; [done| |done].
    unfold or_str. by case_decide.
Qed.

(** After an accepted sign-in the route of the page shows the dashboard, if the gate is open. *)
Theorem login_lands `{PathDecoder} p u g :
  isAuthenticated (auth_step (session_auth p) (LoggedIn u)) = true → loading (session_auth p) = false →
  g = Some WizardHidden ∨ g = Some WizardDismissed →
  settle 2 g (auth_step (session_auth p) (LoggedIn u)) "/login" = Some (DashboardPage, "/").
Proof.
  intros Ha Hl Hg. set (s := auth_step _ _) in *. assert (loading s = false) as Hs by done.
  destruct (routes_root s) as (page & Hr & ->). unfold ProtectedRoute in Hr. rewrite Hs, Ha in Hr.
  pose proof (routes_login s) as Hn. rewrite Ha in Hn.
  clearbody s.
  assert (∀ q, starts_with SETUP_PATH_PREFIX q = false → SetupGate g s q = routes s q) as Hq
    by (intros q Hq; destruct Hg as [-> | ->]; cbn [SetupGate]; [by rewrite Hq|done]).
  cbn [settle]. by rewrite (Hq "/login"), Hn, (Hq "/"), Hr by done.
Qed.
