(* ===== verification/Logs.v ===== *)
(** [pages/SettingsLogs.jsx]: the log viewer, on top of [VisibleInterval].

    One event of the page is one step: the handler, the render it causes, the
    layout effect and the passive effects, in React's order.  A request stays
    [outstanding] until the environment answers it, so answers may come in any
    order and after the source changed.  The page keeps ghost histories of the
    requests made ([calls]) and the files offered ([downloads]); how tall a text
    is laid out is a parameter. *)
From S2P Require Import Prelude JsString VisibleInterval.

Definition MAX_LINES : Z := 1000.
Definition INTERVAL_OPTIONS : list Z := [0; 2000; 5000; 10000; 30000; 60000]%Z.
Definition DEFAULT_INTERVAL_MS : Z := 10000.
Definition SCROLL_TOLERANCE_PX : Z := 24.

(** [SOURCES] by their ids. *)
Inductive log_source := Logread | Dmesg.

#[export] Instance log_source_eq : EqDecision log_source.
Proof. solve_decision. Defined.

Definition source_label (s : log_source) : string :=
  match s with Logread => "logread" | Dmesg => "dmesg" end.
Definition source_proto (s : log_source) : Z :=
  match s with Logread => 1 | Dmesg => 2 end.

(** [Number(raw)] reads decimal integers; any other text counts as not a number,
    which ends on the default like every number that is no option. *)
Definition loadInitialInterval (stored : option string) : Z :=
  match stored with
  | None => DEFAULT_INTERVAL_MS
  | Some raw =>
      match Number_of_string raw with
      | None => DEFAULT_INTERVAL_MS
      | Some n =>
          if (n <? 0)%Z then DEFAULT_INTERVAL_MS
          else if decide (n ∈ INTERVAL_OPTIONS) then n else DEFAULT_INTERVAL_MS
      end
  end.

(** ** [stripAnsi] *)

Definition ESC : ascii := ascii_of_nat 27.
(** [[0-9;?]]. *)
Definition is_param (c : ascii) : bool :=
  let n := nat_of_ascii c in ((48 <=? n) && (n <=? 57) || (n =? 59) || (n =? 63))%nat.
(** [[A-Za-z]]. *)
Definition is_letter (c : ascii) : bool :=
  let n := nat_of_ascii c in ((65 <=? n) && (n <=? 90) || (97 <=? n) && (n <=? 122))%nat.

(** The length of [[0-9;?]*[A-Za-z]] at the start of a text. *)
Fixpoint csi_tail (s : string) : option nat :=
  match s with
  | EmptyString => None
  | String c s' =>
      if is_param c then S <$> csi_tail s' else if is_letter c then Some 1 else None
  end.
(** The length of a match of [ANSI_RE] at the start of a text. *)
Definition ansi_at (s : string) : option nat :=
  match s with
  | String e (String b s') =>
      if decide (e = ESC ∧ b = "["%char) then (λ n, 2 + n) <$> csi_tail s' else None
  | _ => None
  end.

(** [s.replace(ANSI_RE, '')], from left to right; [skip] characters belong to the
    match being removed. *)
Fixpoint strip_from (skip : nat) (s : string) : string :=
  match s with
  | EmptyString => EmptyString
  | String c s' =>
      match skip with
      | S k => strip_from k s'
      | O => match ansi_at s with
             | Some n => strip_from (pred n) s'
             | None => String c (strip_from 0 s')
             end
      end
  end.
Definition stripAnsi (s : string) : string := strip_from 0 s.

(** ** Download *)

(** The local fields of a [Date]. *)
Record date_fields := { d_year : Z; d_month : Z; d_day : Z; d_hours : Z; d_minutes : Z; d_seconds : Z }.

Definition pad2 (n : Z) : string := padStart0 2 (pretty n).

Definition filenameTimestamp (d : date_fields) : string :=
  (pretty (d_year d) ++ pad2 (d_month d + 1)%Z ++ pad2 (d_day d) ++ "-"
   ++ pad2 (d_hours d) ++ pad2 (d_minutes d) ++ pad2 (d_seconds d))%string.

(** [lines.join('\n')]. *)
Definition newline : string := String (ascii_of_nat 10) "".
Fixpoint join_lines (l : list string) : string :=
  match l with
  | [] => EmptyString
  | [s] => s
  | s :: l' => (s ++ newline ++ join_lines l')%string
  end.

(** ** The page *)

(** [GetLogsResponse], and how the call can fail: [e?.message] or [String(e)]. *)
Record logs_response := { r_lines : option (list string); r_collectedAt : option Z; r_truncated : bool }.
Inductive logs_failure :=
| FailedPrecondition
| OtherFailure (message asString : string).

Record content := mk_content {
  lines : list string;
  collectedAt : option Z;
  truncated : bool;
  loading : bool;
  error : option string
}.

Record scrolling := mk_scrolling {
  manualLock : bool;
  atBottom : bool;
  showJumpChip : bool;
  scrollTop : Z
}.

Record logs_page := mk_logs {
  sourceId : log_source;
  intervalMs : Z;
  shown : content;
  scroll : scrolling;
  hook : visible_interval log_source;
  docVisible : bool;
  mounted : bool;
  storage : option string;
  calls : list log_source;
  outstanding : list nat;
  downloads : list (string * string)
}.

Definition set_source (s : log_source) (p : logs_page) : logs_page :=
  mk_logs s (intervalMs p) (shown p) (scroll p) (hook p) (docVisible p) (mounted p) (storage p)
    (calls p) (outstanding p) (downloads p).
Definition set_interval (ms : Z) (p : logs_page) : logs_page :=
  mk_logs (sourceId p) ms (shown p) (scroll p) (hook p) (docVisible p) (mounted p) (storage p)
    (calls p) (outstanding p) (downloads p).
Definition set_shown (c : content) (p : logs_page) : logs_page :=
  mk_logs (sourceId p) (intervalMs p) c (scroll p) (hook p) (docVisible p) (mounted p) (storage p)
    (calls p) (outstanding p) (downloads p).
Definition set_scroll (s : scrolling) (p : logs_page) : logs_page :=
  mk_logs (sourceId p) (intervalMs p) (shown p) s (hook p) (docVisible p) (mounted p) (storage p)
    (calls p) (outstanding p) (downloads p).
Definition set_hook (h : visible_interval log_source) (p : logs_page) : logs_page :=
  mk_logs (sourceId p) (intervalMs p) (shown p) (scroll p) h (docVisible p) (mounted p) (storage p)
    (calls p) (outstanding p) (downloads p).
Definition set_visible (b : bool) (p : logs_page) : logs_page :=
  mk_logs (sourceId p) (intervalMs p) (shown p) (scroll p) (hook p) b (mounted p) (storage p)
    (calls p) (outstanding p) (downloads p).
Definition set_mounted (b : bool) (p : logs_page) : logs_page :=
  mk_logs (sourceId p) (intervalMs p) (shown p) (scroll p) (hook p) (docVisible p) b (storage p)
    (calls p) (outstanding p) (downloads p).
Definition set_storage (raw : option string) (p : logs_page) : logs_page :=
  mk_logs (sourceId p) (intervalMs p) (shown p) (scroll p) (hook p) (docVisible p) (mounted p) raw
    (calls p) (outstanding p) (downloads p).
Definition set_calls (cs : list log_source) (o : list nat) (p : logs_page) : logs_page :=
  mk_logs (sourceId p) (intervalMs p) (shown p) (scroll p) (hook p) (docVisible p) (mounted p)
    (storage p) cs o (downloads p).
Definition set_downloads (l : list (string * string)) (p : logs_page) : logs_page :=
  mk_logs (sourceId p) (intervalMs p) (shown p) (scroll p) (hook p) (docVisible p) (mounted p)
    (storage p) (calls p) (outstanding p) l.

Section page.
  (** The height of the scroll region, and of a text laid out in it. *)
  Context (clientHeight : Z) (heightOf : string → Z).

(** The text of the [<pre>]. *)
Definition view_text (p : logs_page) : string :=
  if bool_decide (lines (shown p) = []) && negb (loading (shown p))
     && bool_decide (error (shown p) = None)
  then ("No " ++ source_label (sourceId p) ++ " entries to display.")%string
  else join_lines (lines (shown p)).

(** [el.scrollHeight], and the largest [el.scrollTop] the browser keeps. *)
Definition scrollHeight (p : logs_page) : Z := Z.max clientHeight (heightOf (view_text p)).
Definition maxTop (p : logs_page) : Z := scrollHeight p - clientHeight.

Definition set_top (v : Z) (p : logs_page) : logs_page :=
  set_scroll (mk_scrolling (manualLock (scroll p)) (atBottom (scroll p)) (showJumpChip (scroll p))
    (Z.max 0 (Z.min v (maxTop p)))) p.
Definition set_anchor (b : bool) (p : logs_page) : logs_page :=
  set_scroll (mk_scrolling (manualLock (scroll p)) b (negb b) (scrollTop (scroll p))) p.

(** The layout effect; its dependencies are [lines] and [manualLock]. *)
Definition layout_effect (p : logs_page) : logs_page :=
  if manualLock (scroll p) then p
  else if atBottom (scroll p) then set_top (scrollHeight p) p else p.

(** A render: the browser keeps the scroll offset within the new text, then the
    layout effect runs when a dependency changed. *)
Definition commit (changed : bool) (p : logs_page) : logs_page :=
  let p := set_top (scrollTop (scroll p)) p in if changed then layout_effect p else p.

(** [fetchLogs] up to its await; the closure it is called on carries its source. *)
Definition fetchLogs (src : log_source) (p : logs_page) : logs_page :=
  set_calls (calls p ++ [src]) (outstanding p ++ [length (calls p)]) p.

(** Calls the hook made, each running the callback it saved. *)
Definition run_hook (r : visible_interval log_source * list log_source) (p : logs_page) : logs_page :=
  foldl (λ p src, fetchLogs src p) (set_hook (fst r) p) (snd r).

(** The rest of [fetchLogs]. *)
Definition logs_arrived (r : logs_response) (p : logs_page) : logs_page :=
  commit true (set_shown (mk_content (map stripAnsi (r_lines r ?? [])%js) (r_collectedAt r)
    (r_truncated r) false None) p).
Definition failure_text (src : log_source) (e : logs_failure) : string :=
  match e with
  | FailedPrecondition => source_label src ++ " is not available on this host."
  | OtherFailure message asString =>
      "Failed to load " ++ source_label src ++ ": "
      ++ (if decide (message = "") then asString else message)
  end%string.
Definition logs_failed (src : log_source) (e : logs_failure) (p : logs_page) : logs_page :=
  commit false (set_shown (mk_content (lines (shown p)) (collectedAt (shown p))
    (truncated (shown p)) false (Some (failure_text src e))) p).

(** The effect on [sourceId]: its state changes, before the render they cause. *)
Definition source_effect (p : logs_page) : logs_page :=
  set_shown (mk_content [] None false true (error (shown p))) (set_anchor true p).

(** The effect that loads once when polling is off. *)
Definition initial_load_effect (p : logs_page) : logs_page :=
  if decide (intervalMs p = 0%Z) then fetchLogs (sourceId p) p else p.

(** The effects after a change of [intervalMs] or of [fetchLogs]. *)
Definition polling_effects (p : logs_page) : logs_page :=
  initial_load_effect
    (run_hook (rerun (sourceId p) (intervalMs p) (docVisible p) (hook p)) p).

Definition SettingsLogs (stored : option string) (visible : bool) : logs_page :=
  let ms := loadInitialInterval stored in
  let p := mk_logs Logread ms (mk_content [] None false true None)
             (mk_scrolling false true false 0) (useVisibleInterval Logread) visible true stored
             [] [] [] in
  let p := source_effect (commit true p) in
  commit true (initial_load_effect (run_hook (interval_effect ms visible (hook p)) p)).

Definition handleSourceChange (s : log_source) (p : logs_page) : logs_page :=
  if decide (sourceId p = s) then p
  else commit true (polling_effects (source_effect (commit false (set_source s p)))).

(** [persisted]: whether [localStorage] took the value. *)
Definition handleIntervalChange (next : Z) (persisted : bool) (p : logs_page) : logs_page :=
  let p := if persisted then set_storage (Some (pretty next)) p else p in
  if decide (intervalMs p = next) then p
  else polling_effects (commit false (set_interval next p)).

Definition handleManualRefresh (p : logs_page) : logs_page :=
  fetchLogs (sourceId p) (commit false (set_anchor true p)).

Definition handleToggleLock (p : logs_page) : logs_page :=
  commit true (set_scroll (mk_scrolling (negb (manualLock (scroll p))) (atBottom (scroll p))
    (showJumpChip (scroll p)) (scrollTop (scroll p))) p).

Definition handleScroll (p : logs_page) : logs_page :=
  let distanceFromBottom := (scrollHeight p - scrollTop (scroll p) - clientHeight)%Z in
  commit false (set_anchor (distanceFromBottom <? SCROLL_TOLERANCE_PX)%Z p).

Definition handleJumpToBottom (p : logs_page) : logs_page :=
  commit false (set_top (scrollHeight p) (set_anchor true p)).

Definition handleDownload (now : date_fields) (p : logs_page) : logs_page :=
  match lines (shown p) with
  | [] => p
  | _ => set_downloads (downloads p ++
           [((source_label (sourceId p) ++ "-" ++ filenameTimestamp now ++ ".log")%string,
             (join_lines (lines (shown p)) ++ newline)%string)]) p
  end.

(** Unmounting runs the hook's cleanup; later state changes are ignored. *)
Definition unmount (p : logs_page) : logs_page :=
  set_mounted false (set_hook (interval_cleanup (hook p)) p).

Inductive logs_event :=
| SelectSource (s : log_source)
| SelectInterval (ms : Z) (persisted : bool)
| ManualRefresh
| ToggleLock
| JumpToBottom
| Download (now : date_fields)
| UserScroll (v : Z)
| ScrollEvent
| Visibility (visible : bool)
| IntervalFires
| Answer (id : nat) (r : logs_response + logs_failure)
| Unmount.

(** What the page renders enabled, and what the browser and the server can do. *)
Definition logs_enabled (e : logs_event) (p : logs_page) : Prop :=
  match e with
  | Answer id _ => id ∈ outstanding p
  | Visibility _ => True
  | IntervalFires => intervals (hook p) ≠ ∅
  | SelectInterval ms _ => mounted p = true ∧ ms ∈ INTERVAL_OPTIONS
  | JumpToBottom => mounted p = true ∧ showJumpChip (scroll p) = true
  | Download _ => mounted p = true ∧ lines (shown p) ≠ []
  | _ => mounted p = true
  end.

Definition answered (id : nat) (p : logs_page) : logs_page :=
  set_calls (calls p) (filter (λ i, i ≠ id) (outstanding p)) p.

Definition logs_fire (e : logs_event) (p : logs_page) : logs_page :=
  match e with
  | SelectSource s => handleSourceChange s p
  | SelectInterval ms persisted => handleIntervalChange ms persisted p
  | ManualRefresh => handleManualRefresh p
  | ToggleLock => handleToggleLock p
  | JumpToBottom => handleJumpToBottom p
  | Download now => handleDownload now p
  | UserScroll v => handleScroll (set_top v p)
  | ScrollEvent => handleScroll p
  | Visibility visible =>
      let p := set_visible visible p in run_hook (visibilitychange visible (hook p)) p
  | IntervalFires => run_hook (hook p, tick (hook p)) p
  | Answer id r =>
      let src := (calls p !! id ?? Logread)%js in
      let p := answered id p in
      if mounted p then
        match r with inl r => logs_arrived r p | inr e => logs_failed src e p end
      else p
  | Unmount => unmount p
  end.

Definition logs_step (p p' : logs_page) : Prop := ∃ e, logs_enabled e p ∧ p' = logs_fire e p.

Definition logs_reachable (stored : option string) (visible : bool) : logs_page → Prop :=
  rtc logs_step (SettingsLogs stored visible).

(** ** Normal forms of the operations *)

Definition with_top (v : Z) (p : logs_page) : logs_page :=
  set_scroll (mk_scrolling (manualLock (scroll p)) (atBottom (scroll p)) (showJumpChip (scroll p)) v) p.

Lemma maxTop_nonneg p : (0 ≤ maxTop p)%Z.
Proof. unfold maxTop, scrollHeight. lia. Qed.

Lemma commit_eq ch p : ∃ v, commit ch p = with_top v p ∧ (0 ≤ v ≤ maxTop p)%Z.
Proof.
  pose proof (maxTop_nonneg p). unfold commit, layout_effect. cbn.
  destruct ch; [|exists (Z.max 0 (Z.min (scrollTop (scroll p)) (maxTop p))); split; [done|lia]].
  destruct (manualLock (scroll p)) eqn:E.
  { exists (Z.max 0 (Z.min (scrollTop (scroll p)) (maxTop p))). split; [|lia].
    unfold with_top, set_top, set_scroll. by rewrite E. }
  destruct (atBottom (scroll p)) eqn:E'.
  - exists (Z.max 0 (Z.min (scrollHeight p) (maxTop p))). split; [|lia].
    unfold with_top, set_top, set_scroll, maxTop, scrollHeight, view_text. cbn. by rewrite ?E, ?E'.
  - exists (Z.max 0 (Z.min (scrollTop (scroll p)) (maxTop p))). split; [|lia].
    unfold with_top, set_top, set_scroll. by rewrite E, E'.
Qed.

(** [b] new requests of [src]. *)
Definition requested (b : bool) (src : log_source) (p : logs_page) : logs_page :=
  set_calls (calls p ++ (if b then [src] else []))
    (outstanding p ++ (if b then [length (calls p)] else [])) p.

Lemma run_hook_eq r (b : bool) src p :
  snd r = (if b then [src] else []) → run_hook r p = requested b src (set_hook (fst r) p).
Proof.
  intros H. unfold run_hook, requested. rewrite H.
  destruct b; cbn; unfold fetchLogs, set_calls; cbn; by rewrite ?app_nil_r.
Qed.

(** Whether a change of the source or of the cadence asks for the logs. *)
Definition loads (visible : bool) (ms : Z) : bool := visible || bool_decide (ms = 0%Z).

Lemma initial_load_eq (visible : bool) p :
  (0 ≤ intervalMs p)%Z →
  initial_load_effect (requested (visible && (0 <? intervalMs p)%Z) (sourceId p) p)
  = requested (loads visible (intervalMs p)) (sourceId p) p.
Proof.
  intros H0. unfold initial_load_effect, loads. cbn. case_decide as H.
  - rewrite H, (bool_decide_true _ eq_refl). cbn. rewrite andb_false_r, orb_true_r.
    unfold fetchLogs, requested, set_calls. cbn. by rewrite !app_nil_r.
  - rewrite (bool_decide_false _ H), (proj2 (Z.ltb_lt _ _)), andb_true_r, orb_false_r by lia. done.
Qed.

Lemma polling_eq r p :
  snd r = (if docVisible p && (0 <? intervalMs p)%Z then [sourceId p] else []) →
  (0 ≤ intervalMs p)%Z →
  initial_load_effect (run_hook r p)
  = requested (loads (docVisible p) (intervalMs p)) (sourceId p) (set_hook (fst r) p).
Proof.
  intros Ht H0. rewrite (run_hook_eq _ _ _ _ Ht). by apply (initial_load_eq _ (set_hook _ p)).
Qed.

(** ** Invariants *)

(** A request for the selected source is on its way. *)
Definition asked (p : logs_page) : Prop :=
  ∃ id, id ∈ outstanding p ∧ calls p !! id = Some (sourceId p).

Record mounted_inv (p : logs_page) : Prop := {
  mi_hook : hook_ok (intervalMs p) (docVisible p) (hook p);
  mi_saved : savedCallback (hook p) = sourceId p;
  mi_option : intervalMs p ∈ INTERVAL_OPTIONS;
  mi_chip : showJumpChip (scroll p) = negb (atBottom (scroll p));
  mi_loading : loading (shown p) = true → asked p ∨ docVisible p = false ∧ (0 < intervalMs p)%Z
}.

Definition logs_inv (p : logs_page) : Prop :=
  if mounted p then mounted_inv p else intervals (hook p) = ∅ ∧ listeners (hook p) = 0.

Lemma option_nonneg ms : ms ∈ INTERVAL_OPTIONS → (0 ≤ ms)%Z.
Proof. unfold INTERVAL_OPTIONS. rewrite !elem_of_cons, elem_of_nil. lia. Qed.

Lemma loadInitialInterval_option stored : loadInitialInterval stored ∈ INTERVAL_OPTIONS.
Proof.
  assert (DEFAULT_INTERVAL_MS ∈ INTERVAL_OPTIONS) by (apply (bool_decide_unpack _); done).
  unfold loadInitialInterval. by repeat case_match.
Qed.

Lemma asked_requested p src h :
  sourceId p = src → asked (requested true src (set_hook h p)).
Proof.
  intros <-. exists (length (calls p)). cbn. split; [set_solver|].
  by rewrite list_lookup_middle.
Qed.

Lemma asked_mono (b : bool) src p h : asked p → asked (requested b src (set_hook h p)).
Proof.
  intros (id & Hin & Hl). exists id. cbn. split; [set_solver|]. by apply lookup_app_l_Some.
Qed.

Lemma loads_or_hidden visible ms :
  (0 ≤ ms)%Z → loads visible ms = true ∨ visible = false ∧ (0 < ms)%Z.
Proof.
  intros. unfold loads. destruct visible; [by left|]. case_bool_decide; [by left|]. right.
  split; [done|lia].
Qed.

(** What starts polling establishes the invariant, whatever the page showed. *)
Lemma polling_inv r p :
  hook_ok (intervalMs p) (docVisible p) (fst r) → savedCallback (fst r) = sourceId p →
  snd r = (if docVisible p && (0 <? intervalMs p)%Z then [sourceId p] else []) →
  intervalMs p ∈ INTERVAL_OPTIONS → showJumpChip (scroll p) = negb (atBottom (scroll p)) →
  mounted_inv (initial_load_effect (run_hook r p)).
Proof.
  intros Hh Hs Ht Ho Hc. pose proof (option_nonneg _ Ho) as H0. rewrite (polling_eq _ _ Ht H0).
  split; try done. intros _. destruct (loads_or_hidden (docVisible p) _ H0) as [->|H]; [left|by right].
  by apply asked_requested.
Qed.

Lemma polling_effects_inv ms0 p :
  hook_ok ms0 (docVisible p) (hook p) → intervalMs p ∈ INTERVAL_OPTIONS →
  showJumpChip (scroll p) = negb (atBottom (scroll p)) → mounted_inv (polling_effects p).
Proof.
  intros (Hh & Ht & Hs)%(rerun_ok (sourceId p) _ (intervalMs p)) Ho Hc. by apply polling_inv.
Qed.

Lemma with_top_inv v p : mounted_inv p → mounted_inv (with_top v p).
Proof. by intros []. Qed.

Lemma commit_inv ch p : mounted_inv p → mounted_inv (commit ch p).
Proof. destruct (commit_eq ch p) as (v & -> & _). apply with_top_inv. Qed.

Lemma requested_inv (b : bool) p h :
  hook_ok (intervalMs p) (docVisible p) h → savedCallback h = sourceId p →
  intervalMs p ∈ INTERVAL_OPTIONS → showJumpChip (scroll p) = negb (atBottom (scroll p)) →
  (loading (shown p) = true → asked p ∨ docVisible p = false ∧ (0 < intervalMs p)%Z ∨ b = true) →
  mounted_inv (requested b (sourceId p) (set_hook h p)).
Proof.
  intros Hh Hs Ho Hc Hl. split; try done. cbn. intros [H|[H| ->]]%Hl.
  - left. by apply asked_mono.
  - by right.
  - left. by apply asked_requested.
Qed.

Lemma SettingsLogs_inv stored visible : mounted_inv (SettingsLogs stored visible).
Proof.
  unfold SettingsLogs. cbv zeta. apply commit_inv.
  edestruct (commit_eq true) as (v & -> & _).
  pose proof (loadInitialInterval_option stored) as Ho.
  destruct (useVisibleInterval_ok Logread (loadInitialInterval stored) visible) as (Hh & Ht & Hs).
  by apply polling_inv.
Qed.

(** ** Steps *)

(** What each event asks the server for: the selected source, on a change of the
    source or the cadence (unless the tab is hidden and polling will load it),
    on Refresh, on every interval and when a polling tab becomes visible. *)
Definition new_requests (e : logs_event) (p : logs_page) : list log_source :=
  let load (b : bool) s := if b then [s] else [] in
  match e with
  | SelectSource s =>
      load (bool_decide (sourceId p ≠ s) && loads (docVisible p) (intervalMs p)) s
  | SelectInterval ms _ =>
      load (bool_decide (intervalMs p ≠ ms) && loads (docVisible p) ms) (sourceId p)
  | ManualRefresh | IntervalFires => [sourceId p]
  | Visibility visible =>
      load (mounted p && (negb (docVisible p) && visible && (0 <? intervalMs p)%Z)) (sourceId p)
  | _ => []
  end.

(** An operation that only renders. *)
Lemma render_step ch p p' :
  mounted_inv p' → calls p' = calls p → mounted p' = true →
  mounted_inv (commit ch p') ∧ calls (commit ch p') = calls p ++ [] ∧ mounted (commit ch p') = true.
Proof.
  intros Hi Hc Hm. split; [by apply commit_inv|]. destruct (commit_eq ch p') as (v & -> & _).
  by rewrite app_nil_r.
Qed.

Lemma set_anchor_inv b p : mounted_inv p → mounted_inv (set_anchor b p).
Proof. by intros []. Qed.

Lemma content_inv lines at_ trunc err p :
  mounted_inv p → mounted_inv (set_shown (mk_content lines at_ trunc false err) p).
Proof. by intros []. Qed.

Lemma polling_effects_calls ms0 p :
  hook_ok ms0 (docVisible p) (hook p) → intervalMs p ∈ INTERVAL_OPTIONS →
  calls (polling_effects p)
    = calls p ++ (if loads (docVisible p) (intervalMs p) then [sourceId p] else [])
  ∧ mounted (polling_effects p) = mounted p.
Proof.
  intros (_ & Ht & _)%(rerun_ok (sourceId p) _ (intervalMs p)) Ho%option_nonneg.
  unfold polling_effects. by rewrite (polling_eq _ _ Ht Ho).
Qed.

Lemma handleSourceChange_step s p :
  mounted_inv p → mounted p = true →
  mounted_inv (handleSourceChange s p)
  ∧ calls (handleSourceChange s p) = calls p ++ new_requests (SelectSource s) p
  ∧ mounted (handleSourceChange s p) = true.
Proof.
  intros Hi Hm. unfold handleSourceChange, new_requests. case_decide as Hs.
  { rewrite bool_decide_false by tauto. by rewrite app_nil_r. }
  rewrite bool_decide_true by done. destruct (commit_eq false (set_source s p)) as (v & -> & _).
  destruct Hi as [Hh _ Ho Hc _]. set (q := source_effect _).
  assert (mounted_inv (polling_effects q)) as Hi by by apply (polling_effects_inv (intervalMs p)).
  destruct (polling_effects_calls (intervalMs p) q Hh Ho) as [Hcs Hm'].
  split; [by apply commit_inv|]. destruct (commit_eq true (polling_effects q)) as (v' & -> & _).
  cbn. by rewrite Hcs, Hm'.
Qed.

Lemma handleIntervalChange_step ms b p :
  mounted_inv p → mounted p = true → ms ∈ INTERVAL_OPTIONS →
  mounted_inv (handleIntervalChange ms b p)
  ∧ calls (handleIntervalChange ms b p) = calls p ++ new_requests (SelectInterval ms b) p
  ∧ mounted (handleIntervalChange ms b p) = true.
Proof.
  intros Hi Hm Hms. unfold handleIntervalChange. set (q := if b then _ else p).
  assert (mounted_inv q ∧ sourceId q = sourceId p ∧ docVisible q = docVisible p
    ∧ intervalMs q = intervalMs p ∧ calls q = calls p ∧ mounted q = mounted p)
    as ([Hh Hsv Ho Hc Hl] & Hs & Hv & Hn & Hcs & Hm').
  { subst q. destruct Hi. by destruct b. }
  clearbody q. unfold new_requests. rewrite Hn. case_decide as Heq.
  { rewrite bool_decide_false by tauto. rewrite app_nil_r. split; [|by rewrite Hm'].
    by split. }
  rewrite bool_decide_true by done. destruct (commit_eq false (set_interval ms q)) as (v & -> & _).
  set (q' := with_top v (set_interval ms q)).
  destruct (polling_effects_calls (intervalMs q) q' Hh Hms) as [Hcs' Hm''].
  split; [by apply (polling_effects_inv (intervalMs q))|].
  rewrite Hcs', Hm''. cbn. by rewrite Hcs, Hv, Hs, Hm'.
Qed.

Lemma Visibility_step visible p :
  mounted_inv p → mounted p = true →
  let p' := logs_fire (Visibility visible) p in
  mounted_inv p' ∧ calls p' = calls p ++ new_requests (Visibility visible) p ∧ mounted p' = true.
Proof.
  intros [Hh Hs Ho Hc Hl] Hm. unfold logs_fire, new_requests. cbv zeta. rewrite Hm.
  destruct (visibilitychange_ok _ _ visible _ Hh) as (Hh' & Ht & Hs').
  change (hook (set_visible visible p)) with (hook p).
  rewrite Hs in Ht, Hs'. rewrite (run_hook_eq _ _ _ _ Ht). split; [|done].
  apply (requested_inv _ (set_visible visible p)); try done.
  intros [H|[H1 H2]]%Hl; [by left|right]. cbn.
  rewrite H1, (proj2 (Z.ltb_lt _ _)) by done. destruct visible; [by right|by left].
Qed.

Lemma Answer_step id r p :
  mounted_inv p → mounted p = true →
  let p' := logs_fire (Answer id r) p in
  mounted_inv p' ∧ calls p' = calls p ++ [] ∧ mounted p' = true.
Proof.
  intros [Hh Hs Ho Hc Hl] Hm. unfold logs_fire. cbv zeta.
  change (mounted (answered id p)) with (mounted p). rewrite Hm.
  destruct r; (apply render_step; [by split|done|done]).
Qed.

Lemma logs_fire_mounted e p :
  mounted_inv p → mounted p = true → logs_enabled e p → e ≠ Unmount →
  mounted_inv (logs_fire e p) ∧ calls (logs_fire e p) = calls p ++ new_requests e p
  ∧ mounted (logs_fire e p) = true.
Proof.
  intros Hi Hm He Hne. destruct e; cbn [logs_fire].
  - by apply handleSourceChange_step.
  - destruct He. by apply handleIntervalChange_step.
  - unfold handleManualRefresh, new_requests. destruct (commit_eq false (set_anchor true p)) as (v & -> & _).
    split; [|done]. change (fetchLogs (sourceId p) (with_top v (set_anchor true p)))
      with (requested true (sourceId p) (set_hook (hook p) (with_top v (set_anchor true p)))).
    destruct Hi. apply (requested_inv true (with_top v (set_anchor true p))); auto.
  - apply render_step; [by destruct Hi|done|done].
  - apply render_step; [by destruct Hi|done|done].
  - unfold handleDownload, new_requests. rewrite app_nil_r. destruct (lines (shown p)); [done|].
    split; [by destruct Hi|done].
  - apply render_step; [by destruct Hi|done|done].
  - apply render_step; [by destruct Hi|done|done].
  - by apply Visibility_step.
  - unfold tick. rewrite (mi_saved _ Hi). split; [|done].
    change (run_hook (hook p, [sourceId p]) p) with (requested true (sourceId p) (set_hook (hook p) p)).
    destruct Hi. apply requested_inv; auto.
  - by apply Answer_step.
  - done.
Qed.

Lemma logs_fire_unmounted e p :
  mounted p = false → intervals (hook p) = ∅ → listeners (hook p) = 0 → logs_enabled e p →
  let p' := logs_fire e p in
  mounted p' = false ∧ intervals (hook p') = ∅ ∧ listeners (hook p') = 0
  ∧ shown p' = shown p ∧ calls p' = calls p ++ new_requests e p.
Proof.
  intros Hm Hi Hl He p'. subst p'. unfold logs_enabled in He. rewrite Hm in He.
  destruct e; try done; try by destruct He.
  - cbn [logs_fire new_requests]. unfold visibilitychange. change (listeners (hook (set_visible visible p)))
      with (listeners (hook p)). rewrite Hl, Hm. by rewrite app_nil_r.
  - cbn [logs_fire new_requests]. change (mounted (answered id p)) with (mounted p).
    rewrite app_nil_r, Hm. done.
Qed.

Lemma logs_fire_inv e p :
  logs_inv p → logs_enabled e p →
  logs_inv (logs_fire e p) ∧ calls (logs_fire e p) = calls p ++ new_requests e p.
Proof.
  unfold logs_inv. destruct (mounted p) eqn:Hm; intros Hi He.
  - assert (e = Unmount ∨ e ≠ Unmount) as [->|Hne] by (destruct e; auto; by right).
    + cbn. rewrite app_nil_r. destruct Hi as [Hh _ _ _ _].
      by destruct (interval_cleanup_clear _ _ _ Hh) as (_ & ? & ? & _).
    + destruct (logs_fire_mounted e p Hi Hm He Hne) as (H1 & H2 & ->). done.
  - destruct Hi as [Hi Hl]. destruct (logs_fire_unmounted e p Hm Hi Hl He) as (-> & ? & ? & _ & ?). done.
Qed.

Lemma SettingsLogs_mounted stored visible : mounted (SettingsLogs stored visible) = true.
Proof.
  unfold SettingsLogs. cbv zeta. edestruct (commit_eq true) as (v & -> & _).
  edestruct (commit_eq true) as (v' & -> & _).
  pose proof (option_nonneg _ (loadInitialInterval_option stored)) as H0.
  destruct (useVisibleInterval_ok Logread (loadInitialInterval stored) visible) as (_ & Ht & _).
  match goal with |- context [run_hook ?r ?q] => by rewrite (polling_eq r q Ht H0) end.
Qed.

Lemma logs_reachable_inv stored visible p : logs_reachable stored visible p → logs_inv p.
Proof.
  revert p. apply rtc_ind_r.
  - unfold logs_inv. rewrite SettingsLogs_mounted. apply SettingsLogs_inv.
  - intros p p' _ (e & He & ->) Hi. by apply logs_fire_inv.
Qed.

End page.

(** ** What the page guarantees *)

(** In every state the page reaches, from any stored cadence and however the
    server's answers are ordered: one interval of the chosen cadence runs exactly
    while the tab is visible and polling is on, and none after the page is left;
    the hook fetches the selected source; the jump chip is the negation of the
    bottom lock; while the page says it is loading, a request for the selected
    source is on its way or the hidden tab will make one when it is shown; and
    every event makes exactly the requests listed for it. *)
Theorem logs_polling clientHeight heightOf stored visible p :
  logs_reachable clientHeight heightOf stored visible p →
  (if mounted p then
     ((docVisible p = true ∧ (0 < intervalMs p)%Z →
       ∃ i, intervals (hook p) = {[ i := intervalMs p ]})
      ∧ (docVisible p = false ∨ intervalMs p = 0%Z → intervals (hook p) = ∅))
     ∧ savedCallback (hook p) = sourceId p
     ∧ intervalMs p ∈ INTERVAL_OPTIONS
     ∧ showJumpChip (scroll p) = negb (atBottom (scroll p))
     ∧ (loading (shown p) = true →
        (∃ id, id ∈ outstanding p ∧ calls p !! id = Some (sourceId p))
        ∨ docVisible p = false ∧ (0 < intervalMs p)%Z)
   else intervals (hook p) = ∅ ∧ listeners (hook p) = 0)
  ∧ ∀ e, logs_enabled e p →
      calls (logs_fire clientHeight heightOf e p) = calls p ++ new_requests e p.
Proof.
  intros Hi%logs_reachable_inv. split; [|intros e He; by apply logs_fire_inv].
  unfold logs_inv in Hi. destruct (mounted p); [|done].
  destruct Hi as [[Hoff Hv Hh] Hs Ho Hc Hl]. split_and!; try done.
  - intros [Hvis Hms]. destruct (Hv Hms Hvis) as (i & _ & Hi & _). by exists i.
  - pose proof (option_nonneg _ Ho). intros [Hvis|Hms]; [|by apply Hoff; lia].
    destruct (decide (0 < intervalMs p)%Z); [by apply Hh|by apply Hoff; lia].
Qed.

Lemma logs_polling_witness :
  let p0 := SettingsLogs 100 (λ _, 0%Z) (Some "0") true in
  let p := logs_fire 100 (λ _, 0%Z) (SelectSource Dmesg) p0 in
  calls p = [Logread; Dmesg]
  ∧ calls (logs_fire 100 (λ _, 0%Z) (SelectInterval 2000 true) p) = [Logread; Dmesg; Dmesg].
Proof.
  intros p0 p. split; [vm_compute; reflexivity|].
  assert (logs_reachable 100 (λ _, 0%Z) (Some "0") true p) as Hp.
  { eapply rtc_l; [|apply rtc_refl]. exists (SelectSource Dmesg). split; [|done]. vm_compute. reflexivity. }
  pose proof (logs_polling 100 (λ _, 0%Z) (Some "0") true p Hp) as [_ H].
  rewrite (H (SelectInterval 2000 true)); [vm_compute; reflexivity|].
  split; [vm_compute; reflexivity|]. apply (bool_decide_unpack _). vm_compute. reflexivity.
Defined.

(** *** Escape sequences *)

Definition chars (s : string) : list ascii := String.list_ascii_of_string s.

Lemma csi_tail_params ps l rest :
  Forall (λ c, is_param c = true) (chars ps) → is_letter l = true →
  csi_tail (ps ++ String l rest) = Some (S (String.length ps)).
Proof.
  intros Hp Hl. induction ps as [|c ps IH]; simpl.
  - rewrite Hl. destruct (is_param l) eqn:E; [|done]. revert Hl E. unfold is_letter, is_param.
    intros H1 H2. exfalso. revert H1 H2. generalize (nat_of_ascii l). intros n H1 H2.
    rewrite !orb_true_iff, !andb_true_iff, !Nat.leb_le in H1.
    rewrite !orb_true_iff, !andb_true_iff, !Nat.leb_le, !Nat.eqb_eq in H2. lia.
  - apply Forall_cons in Hp as [-> Hp]. by rewrite IH.
Qed.

Lemma strip_skip s rest : strip_from (String.length s) (s ++ rest) = stripAnsi rest.
Proof. by induction s. Qed.

(** One escape sequence and the text up to the next. *)
Record ansi_segment := { a_params : string; a_final : ascii; a_text : string }.
Definition no_esc (s : string) : Prop := Forall (λ c, c ≠ ESC) (chars s).
Definition segment_ok (g : ansi_segment) : Prop :=
  Forall (λ c, is_param c = true) (chars (a_params g)) ∧ is_letter (a_final g) = true
  ∧ no_esc (a_text g).
Fixpoint coloured (l : list ansi_segment) : string :=
  match l with
  | [] => ""
  | g :: l => String ESC (String "[" (a_params g ++ String (a_final g) (a_text g ++ coloured l)))
  end.
Fixpoint plain (l : list ansi_segment) : string :=
  match l with [] => "" | g :: l => (a_text g ++ plain l)%string end.

Lemma strip_text t rest : no_esc t → stripAnsi (t ++ rest) = (t ++ stripAnsi rest)%string.
Proof.
  unfold stripAnsi, no_esc. induction t as [|c t IH]; intros H; [done|].
  apply Forall_cons in H as [Hc H]. specialize (IH H). simpl in *. rewrite IH.
  destruct (t ++ rest)%string; [done|]. by rewrite decide_False by tauto.
Qed.

Lemma strip_segment ps l rest :
  Forall (λ c, is_param c = true) (chars ps) → is_letter l = true →
  stripAnsi (String ESC (String "[" (ps ++ String l rest))) = stripAnsi rest.
Proof.
  intros Hp Hl. unfold stripAnsi at 1. cbn [strip_from ansi_at].
  rewrite decide_True, (csi_tail_params _ _ _ Hp Hl) by done. cbn.
  change (S (String.length ps)) with (1 + String.length ps).
  assert (∀ s, strip_from (1 + String.length s) (s ++ String l rest)%string = stripAnsi rest) as H
    by by induction s.
  apply H.
Qed.

(** What a console writer colours is shown as it would be without colours. *)
Theorem strip_colours t l :
  no_esc t → Forall segment_ok l → stripAnsi (t ++ coloured l) = (t ++ plain l)%string.
Proof.
  intros Ht Hl. rewrite strip_text by done. f_equal.
  induction Hl as [|g l (Hp & Hf & Hx) Hl IH]; [done|]. cbn [coloured plain].
  by rewrite strip_segment, strip_text, IH.
Qed.

(** One pass only: what a removal brings together is not looked at again. *)
Example strip_one_pass :
  stripAnsi (String ESC (String ESC "[0m[0m")) = String ESC "[0m".
Proof. reflexivity. Qed.

(** *** Cadence and reading position *)

(** A reload polls at the cadence that was last stored. *)
Theorem interval_reload clientHeight heightOf ms p :
  ms ∈ INTERVAL_OPTIONS →
  loadInitialInterval (storage (handleIntervalChange clientHeight heightOf ms true p)) = ms.
Proof.
  intros Hms. assert (storage (handleIntervalChange clientHeight heightOf ms true p) = Some (pretty ms))
    as ->.
  { unfold handleIntervalChange. case_decide; [done|].
    edestruct (commit_eq clientHeight heightOf false) as (v & -> & _).
    unfold polling_effects, run_hook, initial_load_effect.
    set (q := foldl _ _ _). assert (storage q = Some (pretty ms)) as Hq.
    { apply (foldl_inv (λ q, storage q = Some (pretty ms))); [|done]. by intros. }
    by case_decide. }
  unfold loadInitialInterval. rewrite Number_pretty.
  pose proof (option_nonneg _ Hms). rewrite (proj2 (Z.ltb_ge ms 0)) by lia. by rewrite decide_True.
Qed.

(** New content scrolls into view when the page is anchored and not locked;
    otherwise the reading position stays, up to the end of a shorter text. *)
Theorem arrival_scroll clientHeight heightOf r p :
  let p' := logs_arrived clientHeight heightOf r p in
  (0 ≤ clientHeight)%Z → (0 ≤ scrollTop (scroll p))%Z →
  scrollTop (scroll p')
  = (if negb (manualLock (scroll p)) && atBottom (scroll p) then maxTop clientHeight heightOf p'
     else Z.min (scrollTop (scroll p)) (maxTop clientHeight heightOf p')).
Proof.
  intros p' Hclient H0. subst p'. unfold logs_arrived. set (c := mk_content _ _ _ _ _).
  assert (maxTop clientHeight heightOf (commit clientHeight heightOf true (set_shown c p))
    = maxTop clientHeight heightOf (set_shown c p)) as Hm.
  { by destruct (commit_eq clientHeight heightOf true (set_shown c p)) as (v & -> & _). }
  rewrite !Hm. clear Hm.
  pose proof (maxTop_nonneg clientHeight heightOf (set_shown c p)) as Hn.
  unfold commit, layout_effect. cbn [scroll set_top set_scroll manualLock atBottom].
  change (scroll (set_shown c p)) with (scroll p). generalize dependent c. intros.
  destruct (manualLock (scroll p)); cbn; [lia|].
  destruct (atBottom (scroll p)); cbn; [|lia].
  change (scrollHeight clientHeight heightOf _) with (scrollHeight clientHeight heightOf (set_shown c p)).
  change (maxTop clientHeight heightOf _) with (maxTop clientHeight heightOf (set_shown c p)).
  unfold maxTop, scrollHeight in *. lia.
Qed.

(** ** Runs *)

Definition run_logs (es : list logs_event) (p : logs_page) : logs_page :=
  foldl (λ p e, logs_fire 400 (λ _, 0%Z) e p) p es.

(** With polling off, an answer for the source the operator left is shown under
    the one selected now, and stays. *)
Theorem late_answer_shown :
  let p := run_logs [SelectSource Dmesg; Answer 1 (inl {| r_lines := Some ["dmesg line"];
                       r_collectedAt := None; r_truncated := false |});
                     Answer 0 (inl {| r_lines := Some ["logread line"];
                       r_collectedAt := None; r_truncated := false |})]
             (SettingsLogs 400 (λ _, 0%Z) (Some "0") true) in
  sourceId p = Dmesg ∧ lines (shown p) = ["logread line"] ∧ outstanding p = [].
Proof. vm_compute. done. Qed.

(** Changing the source clears the lines but not the error of the other source. *)
Theorem stale_error_kept :
  let p := run_logs [Answer 0 (inr FailedPrecondition); SelectSource Dmesg]
             (SettingsLogs 400 (λ _, 0%Z) None true) in
  sourceId p = Dmesg ∧ error (shown p) = Some "logread is not available on this host.".
Proof. vm_compute. done. Qed.

(** Refresh leaves the scroll lock engaged. *)
Theorem refresh_keeps_lock :
  let p := run_logs [ToggleLock; ManualRefresh] (SettingsLogs 400 (λ _, 0%Z) None true) in
  manualLock (scroll p) = true.
Proof. vm_compute. done. Qed.
