(* ===== verification/Gnss.v ===== *)
(** [utils/gnss.js] and the state of [pages/GpsStatus.jsx]: labels and severities,
    the fix rate, freshness texts, the window of fix times, and the form of the
    GNSS configuration.

    Times are whole milliseconds; [None] is an invalid date or NaN.  The panels
    of the page are in [GpsView]. *)
From S2P Require Import Prelude JsString.
From Stdlib Require Import QArith.

Local Open Scope Z_scope.

(** ** Constellations *)

Inductive constellation := GPS | SBAS | GALILEO | BEIDOU | IMES | QZSS | GLONASS | IRNSS.

#[export] Instance constellation_eq : EqDecision constellation.
Proof. solve_decision. Defined.

(** [None] is a missing number or one that is not finite. *)
Definition prnToConstellation (prn : option Z) : constellation :=
  match prn with
  | None => GPS
  | Some prn =>
      if (1 <=? prn) && (prn <=? 32) then GPS
      else if (33 <=? prn) && (prn <=? 64) then SBAS
      else if (65 <=? prn) && (prn <=? 96) then GLONASS
      else if (193 <=? prn) && (prn <=? 200) then QZSS
      else if (201 <=? prn) && (prn <=? 237) then BEIDOU
      else if (301 <=? prn) && (prn <=? 336) then GALILEO
      else GPS
  end.

Definition CONSTELLATION_BY_ENUM (c : Z) : option constellation :=
  match c with
  | 1 => Some GPS | 2 => Some SBAS | 3 => Some GALILEO | 4 => Some BEIDOU
  | 5 => Some IMES | 6 => Some QZSS | 7 => Some GLONASS | 8 => Some IRNSS
  | _ => None
  end.

Record satellite := { sat_prn : option Z; sat_constellation : Z; sat_used : bool }.

Definition satelliteConstellation (sat : satellite) : constellation :=
  match CONSTELLATION_BY_ENUM (sat_constellation sat) with
  | Some c => c
  | None => prnToConstellation (sat_prn sat)
  end.

(** ** Severities *)

Inductive severity := Neutral | Ok | Warn | Crit.

(** [None] is a missing number or one that is not finite. *)
Definition dopSeverity (dop : option Q) : severity :=
  match dop with
  | None => Neutral
  | Some d =>
      if Qle_bool d 0 then Neutral else if Qle_bool d 2 then Ok else if Qle_bool d 5 then Warn else Crit
  end.

Definition snrBadge (snr : option Q) : severity :=
  match snr with
  | None => Neutral
  | Some s => if Qle_bool 30 s then Ok else if Qle_bool 15 s then Warn else Crit
  end.

Definition fixColor (fixType : Z) : severity :=
  if fixType =? 3 then Ok else if fixType =? 2 then Warn else Crit.

(** ** Times *)

(** What the helpers accept as a time. *)
Inductive timestamp :=
| TsNull
| TsDate (ms : option Z)
| TsProto (seconds nanos : Z)
| TsText (s : string).

(** [new Date(ms)]: a date beyond 8.64e15 ms is invalid. *)
Definition new_Date (ms : Z) : option Z :=
  if Z.abs ms <=? 8640000000000000 then Some ms else None.

Section dates.
  (** The runtime's parser of date texts. *)
  Context (parseDate : string → option Z).

Definition timestampToDate (ts : timestamp) : option (option Z) :=
  match ts with
  | TsNull => None
  | TsDate d => Some d
  | TsProto seconds nanos => Some (new_Date (seconds * 1000 + nanos / 1000000))
  | TsText s => match parseDate s with Some ms => Some (Some ms) | None => None end
  end.

Definition formatAgo (ts : timestamp) (now : Z) : option string :=
  match timestampToDate ts with
  | Some (Some t) =>
      let deltaMs := now - t in
      if deltaMs <? 1500 then Some "just now"%string
      else
        let s := deltaMs / 1000 in
        if s <? 60 then Some (pretty s ++ "s ago")%string
        else
          let m := s / 60 in
          if m <? 60 then Some (pretty m ++ "m ago")%string
          else
            let h := m / 60 in
            if h <? 24 then Some (pretty h ++ "h ago")%string
            else Some (pretty (h / 24) ++ "d ago")%string
  | _ => None
  end.
End dates.

(** ** Fix rate *)

(** [ms[i] - ms[i - 1]] for each [i], those above 0. *)
Fixpoint deltas (ms : list Z) : list Z :=
  match ms with
  | a :: (b :: _) as l => if 0 <? b - a then (b - a) :: deltas l else deltas l
  | _ => []
  end.

(** The sorts compare numbers. *)
Definition sort_numbers : list Z → list Z := merge_sort Z.le.

(** [1000 / medianMs] against 7.5, 3.5 and 1.5. *)
Definition rate_of (medianMs : Z) : Z :=
  if 15 * medianMs <=? 2000 then 10
  else if 7 * medianMs <=? 2000 then 5
  else if 3 * medianMs <=? 2000 then 2
  else 1.

Definition computeFixRateHz (timestamps : list (option Z)) : option Z :=
  if (length timestamps <? 2)%nat then None
  else
    let ms := omap id timestamps in
    if (length ms <? 2)%nat then None
    else
      let ds := sort_numbers (deltas (sort_numbers ms)) in
      match ds !! (length ds / 2)%nat with
      | None => None
      | Some medianMs => if medianMs <=? 0 then None else Some (rate_of medianMs)
      end.

(** ** The page *)

Definition FIX_RATE_SAMPLES : nat := 6.

(** The effect on every status: [arr] is the window of fix times. *)
Definition record_fix (parseDate : string → option Z) (lastUpdate : timestamp) (arr : list Z) : list Z :=
  match timestampToDate parseDate lastUpdate with
  | Some (Some d) =>
      if decide (last arr = Some d) then arr
      else
        let arr := arr ++ [d] in
        if (FIX_RATE_SAMPLES <? length arr)%nat then tail arr else arr
  | _ => arr
  end.

Record gnss_settings := { enableGps : bool; source : Z }.
Record output_protocols := { sendAsNmea : bool; sendAsCot : bool; cotUid : string }.
Record gnss_config := mk_config { settings : option gnss_settings; outputProtocols : option output_protocols }.

Record gps_page := mk_gps {
  config : option gnss_config;
  loading : bool;
  saving : bool;
  error : option string;
  success : option string;
  fixTimes : list Z;
  fixRate : option Z;
  requests : list gnss_config
}.

(** One toggle or field of the output panel. *)
Inductive config_edit :=
| EditEnable (v : bool) | EditSource (v : Z)
| EditNmea (v : bool) | EditCot (v : bool) | EditUid (v : string).

(** Message fields that were not sent are the defaults of their types. *)
Definition edit_settings (f : gnss_settings → gnss_settings) (c : gnss_config) : gnss_config :=
  mk_config (Some (f (settings c ?? {| enableGps := false; source := 0 |})%js)) (outputProtocols c).
Definition edit_output (f : output_protocols → output_protocols) (c : gnss_config) : gnss_config :=
  mk_config (settings c)
    (Some (f (outputProtocols c ?? {| sendAsNmea := false; sendAsCot := false; cotUid := "" |})%js)).

(** [{ ...config, [section]: { ...config[section], [key]: val } }]. *)
Definition apply_edit (e : config_edit) : gnss_config → gnss_config :=
  match e with
  | EditEnable v => edit_settings (λ s, {| enableGps := v; source := source s |})
  | EditSource v => edit_settings (λ s, {| enableGps := enableGps s; source := v |})
  | EditNmea v => edit_output (λ o, {| sendAsNmea := v; sendAsCot := sendAsCot o; cotUid := cotUid o |})
  | EditCot v => edit_output (λ o, {| sendAsNmea := sendAsNmea o; sendAsCot := v; cotUid := cotUid o |})
  | EditUid v => edit_output (λ o, {| sendAsNmea := sendAsNmea o; sendAsCot := sendAsCot o; cotUid := v |})
  end.

Definition GpsStatusPage : gps_page := mk_gps None true false None None [] None [].

Definition set_config (c : option gnss_config) (p : gps_page) : gps_page :=
  mk_gps c (loading p) (saving p) (error p) (success p) (fixTimes p) (fixRate p) (requests p).
Definition set_error (e : option string) (p : gps_page) : gps_page :=
  mk_gps (config p) (loading p) (saving p) e (success p) (fixTimes p) (fixRate p) (requests p).
Definition set_success (s : option string) (p : gps_page) : gps_page :=
  mk_gps (config p) (loading p) (saving p) (error p) s (fixTimes p) (fixRate p) (requests p).
Definition set_saving (b : bool) (p : gps_page) : gps_page :=
  mk_gps (config p) (loading p) b (error p) (success p) (fixTimes p) (fixRate p) (requests p).
Definition set_loading (b : bool) (p : gps_page) : gps_page :=
  mk_gps (config p) b (saving p) (error p) (success p) (fixTimes p) (fixRate p) (requests p).
Definition set_fix (arr : list Z) (rate : option Z) (p : gps_page) : gps_page :=
  mk_gps (config p) (loading p) (saving p) (error p) (success p) arr rate (requests p).
Definition sent (c : gnss_config) (p : gps_page) : gps_page :=
  mk_gps (config p) (loading p) (saving p) (error p) (success p) (fixTimes p) (fixRate p)
    (requests p ++ [c]).

(** A new status: the render computes the rate from the window as it is, then
    the effect records the status's own time. *)
Definition status_arrived (parseDate : string → option Z) (lastUpdate : timestamp) (p : gps_page)
  : gps_page :=
  set_fix (record_fix parseDate lastUpdate (fixTimes p))
    (computeFixRateHz (map Some (fixTimes p))) p.

(** [fetchConfig] settled: the configuration, or the error's message. *)
Definition config_settled (r : gnss_config + string) (p : gps_page) : gps_page :=
  set_loading false
    match r with
    | inl c => set_error None (set_config (Some c) p)
    | inr msg => set_error (Some ("Failed to load GNSS config: " ++ msg)%string) p
    end.

(** Editing without a configuration throws in the handler: nothing changes. *)
Definition edit_config (e : config_edit) (p : gps_page) : gps_page :=
  match config p with None => p | Some c => set_config (Some (apply_edit e c)) p end.

(** [null_error] is the runtime's text for reading a property of [null]. *)
Definition handleSave (null_error : string) (p : gps_page) : gps_page :=
  let p := set_success None (set_error None (set_saving true p)) in
  match config p with
  | None => set_saving false (set_error (Some ("Failed to save GNSS config: " ++ null_error)%string) p)
  | Some c => sent c p
  end.

(** The answer of [updateGNSSConfig]; a success starts another [fetchConfig]. *)
Definition save_settled (r : bool * string + string) (p : gps_page) : gps_page :=
  set_saving false
    match r with
    | inl (true, message) =>
        set_success (Some (if decide (message = "") then "GNSS configuration updated." else message)%string) p
    | inl (false, message) =>
        set_error (Some ("Failed to save GNSS config: "
          ++ (if decide (message = "") then "Update failed" else message))%string) p
    | inr msg => set_error (Some ("Failed to save GNSS config: " ++ msg)%string) p
    end.

(** ** Fix rate: laws *)

#[export] Instance Zle_dec_total : Total Z.le.
Proof. intros x y. lia. Qed.

Lemma sort_numbers_perm l l' : l ≡ₚ l' → sort_numbers l = sort_numbers l'.
Proof.
  intros H. unfold sort_numbers.
  apply (Sorted_unique Z.le); [apply Sorted_merge_sort; apply _..|].
  by rewrite !merge_sort_Permutation.
Qed.

Lemma sort_numbers_sorted l : Sorted Z.le l → sort_numbers l = l.
Proof.
  intros H. apply (Sorted_unique Z.le); [apply Sorted_merge_sort; apply _|done|].
  apply merge_sort_Permutation.
Qed.

(** The order the timestamps come in is immaterial. *)
Theorem computeFixRateHz_perm l l' : l ≡ₚ l' → computeFixRateHz l = computeFixRateHz l'.
Proof.
  intros H. unfold computeFixRateHz.
  assert (omap id l ≡ₚ omap id l') as Ho by by rewrite H.
  by rewrite (Permutation_length H), (Permutation_length Ho), (sort_numbers_perm _ _ Ho).
Qed.

Lemma deltas_positive l : Forall (λ d, 0 < d) (deltas l).
Proof.
  induction l as [|a [|b l] IH]; simpl; [constructor..|].
  destruct (Z.ltb_spec 0 (b - a)); [by constructor|done].
Qed.

Lemma deltas_nil l : Sorted Z.le l → (deltas l = [] ↔ ∀ a b, a ∈ l → b ∈ l → a = b).
Proof.
  induction l as [|a [|b l] IH]; intros Hs.
  - split; [set_solver|done].
  - split; [set_solver|done].
  - apply Sorted_inv in Hs as [Hs Hab%HdRel_inv]. specialize (IH Hs). cbn [deltas].
    destruct (Z.ltb_spec 0 (b - a)).
    + split; [done|]. intros H'. specialize (H' a b ltac:(set_solver) ltac:(set_solver)). lia.
    + fold (deltas (b :: l)) in *. rewrite IH. assert (a = b) as -> by lia. set_solver.
Qed.

(** There is no rate exactly when the valid timestamps do not include two
    different ones, and a rate is one of four. *)
Theorem computeFixRateHz_none l :
  computeFixRateHz l = None ↔ ∀ a b, Some a ∈ l → Some b ∈ l → a = b.
Proof.
  unfold computeFixRateHz. set (ms := omap id l).
  assert (∀ a, a ∈ ms ↔ Some a ∈ l) as Hms.
  { intros a. subst ms. rewrite list_elem_of_omap. split; [intros (x & Hx & Hid); change (x = Some a) in Hid; by subst|by eexists]. }
  assert (length ms ≤ length l)%nat as Hlen.
  { subst ms. clear. induction l as [|x l IH]; [done|]. destruct x; cbn [omap list_omap id length]; lia. }
  assert ((length ms < 2)%nat → ∀ a b, Some a ∈ l → Some b ∈ l → a = b) as Hshort.
  { intros Hl a b Ha%Hms Hb%Hms. destruct ms as [|x [|y ms']]; simpl in Hl; [set_solver|set_solver|lia]. }
  destruct (Nat.ltb_spec (length l) 2); [split; [intros _; apply Hshort; lia|done]|].
  destruct (Nat.ltb_spec (length ms) 2); [split; [intros _; by apply Hshort|done]|].
  assert ((∀ a b, a ∈ sort_numbers ms → b ∈ sort_numbers ms → a = b)
    ↔ (∀ a b, Some a ∈ l → Some b ∈ l → a = b)) as Hiff.
  { unfold sort_numbers. split; intros Heq a b; [rewrite <- !Hms|rewrite !merge_sort_Permutation, !Hms];
      [|apply Heq]. intros Ha Hb. apply Heq; by rewrite merge_sort_Permutation. }
  rewrite <- Hiff. rewrite <- deltas_nil by (apply Sorted_merge_sort; apply _).
  pose proof (deltas_positive (sort_numbers ms)) as Hpos. clear Hiff.
  set (ds := deltas (sort_numbers ms)) in *.
  assert (sort_numbers ds ≡ₚ ds) as Hp by apply merge_sort_Permutation.
  rewrite <- Hp in Hpos. pose proof (Permutation_length Hp) as Hl.
  destruct (sort_numbers ds !! (length (sort_numbers ds) / 2)%nat) as [m|] eqn:Hm.
  - rewrite Forall_forall in Hpos. specialize (Hpos m (list_elem_of_lookup_2 _ _ _ Hm)).
    rewrite (proj2 (Z.leb_gt m 0)) by lia. split; [done|]. intros Hnil.
    assert (sort_numbers ds = []) as E by (apply nil_length_inv; by rewrite Hl, Hnil).
    by rewrite E in Hm.
  - split; [|done]. intros _. apply lookup_ge_None_1 in Hm. destruct ds as [|d ds]; [done|].
    exfalso. rewrite Hl in Hm. cbn [length] in Hm.
    pose proof (Nat.div_lt (S (length ds)) 2 ltac:(lia) ltac:(lia)). lia.
Qed.

(** Steady fixes give the rate of their period, in whatever order they come. *)
Theorem computeFixRateHz_steady t0 period n l :
  0 < period → (2 ≤ n)%nat → l ≡ₚ map (λ i : nat, Some (t0 + period * i)) (seq 0 n) →
  computeFixRateHz l = Some (rate_of period).
Proof.
  intros Hp Hn ->%computeFixRateHz_perm. unfold computeFixRateHz.
  rewrite length_map, length_seq, (proj2 (Nat.ltb_ge _ _)) by done.
  assert (∀ k s, omap id (map (λ i : nat, Some (t0 + period * i)) (seq s k))
    = map (λ i : nat, t0 + period * i) (seq s k)) as ->.
  { induction k as [|k IH]; intros s; simpl; [done|]. by rewrite IH. }
  rewrite length_map, length_seq, (proj2 (Nat.ltb_ge _ _)) by done.
  assert (∀ k s, Sorted Z.le (map (λ i : nat, t0 + period * i) (seq s k))
    ∧ deltas (map (λ i : nat, t0 + period * i) (seq s k)) = replicate (pred k) period) as H.
  { induction k as [|k IH]; intros s; [split; constructor|]. destruct (IH (S s)) as [IH1 IH2].
    cbn [seq map]. split.
    - constructor; [done|]. destruct k; simpl; constructor. nia.
    - destruct k as [|k]; [done|]. cbn [seq map deltas]. cbn [seq map] in IH2. cbn [deltas].
      replace (t0 + period * S s - (t0 + period * s)) with period by lia.
      rewrite (proj2 (Z.ltb_lt 0 period)) by done. cbn [pred replicate]. f_equal. exact IH2. }
  destruct (H n 0%nat) as [H1 H2]. rewrite (sort_numbers_sorted _ H1), H2.
  rewrite sort_numbers_sorted.
  - rewrite length_replicate, lookup_replicate_2 by (apply Nat.div_lt; lia).
    by rewrite (proj2 (Z.leb_gt period 0)) by done.
  - generalize (pred n). clear. induction n as [|n IH]; simpl; [constructor|]. constructor; [done|].
    destruct n; simpl; constructor. lia.
Qed.

(** ** The window of fix times *)

(** The dates of a run of statuses, each kept when it differs from the one
    before it. *)
Fixpoint fix_history (parseDate : string → option Z) (h : list Z) (tss : list timestamp) : list Z :=
  match tss with
  | [] => h
  | ts :: tss =>
      fix_history parseDate
        match timestampToDate parseDate ts with
        | Some (Some d) => if decide (last h = Some d) then h else h ++ [d]
        | _ => h
        end tss
  end.

Lemma last_last_n {A} n (l : list A) : (0 < n)%nat → last (last_n n l) = last l.
Proof.
  intros Hn. unfold last_n. destruct l as [|x l] using rev_ind; [by rewrite drop_nil|].
  rewrite drop_app_le, !last_snoc by (rewrite length_app; simpl; lia). done.
Qed.

Lemma record_fix_last_n parseDate ts h :
  record_fix parseDate ts (last_n FIX_RATE_SAMPLES h)
  = last_n FIX_RATE_SAMPLES (fix_history parseDate h [ts]).
Proof.
  unfold record_fix, FIX_RATE_SAMPLES. cbn [fix_history]. destruct (timestampToDate parseDate ts) as [[d|]|]; [|done..].
  rewrite last_last_n by lia. case_decide; [done|].
  rewrite <- (last_n_snoc_trim 5 h d). set (w := last_n 6 h).
  assert (length w ≤ 6)%nat by (subst w; rewrite last_n_length; lia).
  destruct (Nat.ltb_spec 6 (length (w ++ [d]))) as [Hl|Hl].
  - unfold last_n at 1. rewrite length_app in *. simpl in *.
    replace (length w + 1 - 6)%nat with 1%nat by lia. by destruct (w ++ [d]).
  - by rewrite last_n_all.
Qed.

(** The page holds the last six different fix times, whatever it was sent. *)
Theorem fix_window parseDate tss p :
  fixTimes p = [] →
  fixTimes (foldl (λ p ts, status_arrived parseDate ts p) p tss)
  = last_n FIX_RATE_SAMPLES (fix_history parseDate [] tss).
Proof.
  intros Hp. change (@nil Z) with (last_n FIX_RATE_SAMPLES (@nil Z)) in Hp.
  revert p Hp. generalize (@nil Z). induction tss as [|ts tss IH]; intros h p Hp; [done|].
  cbn [foldl]. rewrite (IH (fix_history parseDate h [ts])); [done|].
  cbn [fixTimes status_arrived set_fix]. by rewrite Hp, record_fix_last_n.
Qed.

(** A receiver with one fix every [period] ms: from the third status on the page
    shows the rate of that period. *)
Theorem steady_rate_shown parseDate t0 period n p :
  0 < period → (3 ≤ n)%nat → fixTimes p = [] →
  fixRate (foldl (λ p i, status_arrived parseDate (TsDate (Some (t0 + period * Z.of_nat i))) p) p (seq 0 n))
  = Some (rate_of period).
Proof.
  intros Hp Hn Hw. destruct n as [|n]; [lia|]. rewrite seq_S, foldl_snoc. cbn [fixRate status_arrived set_fix].
  set (q := foldl _ p _).
  assert (fixTimes q = last_n FIX_RATE_SAMPLES (map (λ i : nat, t0 + period * i) (seq 0 n))) as ->.
  { assert (∀ m, fix_history parseDate [] (map (λ i : nat, TsDate (Some (t0 + period * i))) (seq 0 m))
      = map (λ i : nat, t0 + period * i) (seq 0 m)) as Hh.
    { assert (∀ l1 l2 h, fix_history parseDate h (l1 ++ l2)
        = fix_history parseDate (fix_history parseDate h l1) l2) as Happ
        by (induction l1 as [|x l1 IH1]; intros l2 h; [done|apply IH1]).
      induction m as [|m IH]; [done|]. rewrite seq_S, !map_app, Happ, IH. cbn.
      rewrite decide_False; [done|]. intros Hl. destruct m as [|m]; [done|].
      rewrite seq_S, map_app in Hl. cbn [map] in Hl. rewrite last_snoc in Hl. injection Hl. nia. }
    rewrite <- Hh, <- (fix_window parseDate _ p Hw). f_equal. subst q. generalize p. generalize (seq 0 n).
    clear. induction l as [|i l IH]; intros p; [done|apply IH]. }
  unfold last_n. rewrite length_map, length_seq.
  set (k := (n - FIX_RATE_SAMPLES)%nat).
  rewrite skipn_map, skipn_seq. simpl.
  apply (computeFixRateHz_steady (t0 + period * k) period (n - k)); [done| |].
  - subst k. unfold FIX_RATE_SAMPLES. lia.
  - assert (∀ m s, map (λ i : nat, Some (t0 + period * i)) (seq (k + s) m)
      = map (λ i : nat, Some (t0 + period * k + period * i)) (seq s m)) as H.
    { induction m as [|m IH]; intros s; [done|]. cbn [seq map]. rewrite <- (IH (S s)).
      f_equal; [f_equal; lia|]. by replace (k + S s)%nat with (S (k + s)) by lia. }
    rewrite map_map, <- H. by rewrite Nat.add_0_r.
Qed.

(** ** Freshness *)

Inductive ago_unit := Seconds | Minutes | Hours | Days.
Definition unit_ms (u : ago_unit) : Z :=
  match u with Seconds => 1000 | Minutes => 60000 | Hours => 3600000 | Days => 86400000 end.
Definition unit_limit (u : ago_unit) : option Z :=
  match u with Seconds | Minutes => Some 60 | Hours => Some 24 | Days => None end.
Definition unit_text (u : ago_unit) : string :=
  match u with Seconds => "s ago" | Minutes => "m ago" | Hours => "h ago" | Days => "d ago" end.

(** An age is shown in whole units of the largest unit that fits, rounded down;
    times in the future are "just now". *)
Theorem formatAgo_text parseDate ts t now :
  timestampToDate parseDate ts = Some (Some t) →
  (now - t < 1500 → formatAgo parseDate ts now = Some "just now"%string)
  ∧ (1500 ≤ now - t →
     ∃ n u, formatAgo parseDate ts now = Some (pretty n ++ unit_text u)%string
       ∧ 1 ≤ n ∧ (∀ limit, unit_limit u = Some limit → n < limit)
       ∧ n * unit_ms u ≤ now - t < (n + 1) * unit_ms u).
Proof.
  intros Ht. unfold formatAgo. rewrite Ht. set (d := now - t). clearbody d. cbv zeta. split; intros Hd.
  { by rewrite (proj2 (Z.ltb_lt _ _)). }
  rewrite (proj2 (Z.ltb_ge _ _)) by done.
  pose proof (Z.div_mod d 1000 ltac:(lia)). pose proof (Z.mod_pos_bound d 1000 ltac:(lia)).
  set (s := d / 1000) in *. destruct (Z.ltb_spec s 60).
  { exists s, Seconds. split; [done|]. simpl. split; [lia|]. split; [by intros ? [= <-]|lia]. }
  pose proof (Z.div_mod s 60 ltac:(lia)). pose proof (Z.mod_pos_bound s 60 ltac:(lia)).
  set (m := s / 60) in *. destruct (Z.ltb_spec m 60).
  { exists m, Minutes. split; [done|]. simpl. split; [lia|]. split; [by intros ? [= <-]|lia]. }
  pose proof (Z.div_mod m 60 ltac:(lia)). pose proof (Z.mod_pos_bound m 60 ltac:(lia)).
  set (h := m / 60) in *. destruct (Z.ltb_spec h 24).
  { exists h, Hours. split; [done|]. simpl. split; [lia|]. split; [by intros ? [= <-]|lia]. }
  pose proof (Z.div_mod h 24 ltac:(lia)). pose proof (Z.mod_pos_bound h 24 ltac:(lia)).
  exists (h / 24), Days. split; [done|]. simpl. split; [lia|]. split; [done|lia].
Qed.

(** ** The configuration form *)

Lemma edits_config es c p :
  config p = Some c →
  config (foldl (λ p e, edit_config e p) p es) = Some (foldl (λ c e, apply_edit e c) c es)
  ∧ requests (foldl (λ p e, edit_config e p) p es) = requests p.
Proof.
  revert c p. induction es as [|e es IH]; intros c p Hc; [done|]. cbn [foldl].
  destruct (IH (apply_edit e c) (edit_config e p)) as [H1 H2].
  - unfold edit_config. by rewrite Hc.
  - rewrite H1, H2. split; [done|]. unfold edit_config. by rewrite Hc.
Qed.

(** Saving sends the loaded configuration with every edit made since, and a
    failed save leaves the form as it is. *)
Theorem save_sends_edits null_error es c p e :
  config p = Some c →
  let q := foldl (λ p e, edit_config e p) p es in
  requests (handleSave null_error q) = requests p ++ [foldl (λ c e, apply_edit e c) c es]
  ∧ config (save_settled (inr e) (handleSave null_error q)) = config q.
Proof.
  intros Hc q. destruct (edits_config es c p Hc) as [H1 H2]. fold q in H1, H2. unfold handleSave.
  cbn [config set_success set_error set_saving]. rewrite H1. cbn. by rewrite H1, H2.
Qed.

(** ** Behaviours worth knowing *)

Definition no_dates : string → option Z := λ _, None.

(** The signal table names a satellite by its number even when the receiver said
    what it is, so it disagrees with the filter of the sky plot. *)
Theorem table_ignores_receiver :
  let sat := {| sat_prn := Some 5; sat_constellation := 3; sat_used := true |} in
  satelliteConstellation sat = GALILEO ∧ prnToConstellation (sat_prn sat) = GPS.
Proof. done. Qed.

(** The second status brings the second fix time, but its render was computed
    before the window had it. *)
Theorem rate_one_status_behind :
  let p := foldl (λ p t, status_arrived no_dates (TsDate (Some t)) p) GpsStatusPage [0; 1000] in
  fixTimes p = [0; 1000] ∧ fixRate p = None ∧ computeFixRateHz (map Some (fixTimes p)) = Some 1.
Proof. vm_compute. done. Qed.

(** An edit made while a save is in flight is lost when the configuration is
    fetched again. *)
Theorem edit_during_save_lost :
  let c := mk_config None None in
  let p := handleSave "" (config_settled (inl c) GpsStatusPage) in
  let p := edit_config (EditUid "ALPHA") p in
  let p := config_settled (inl c) (save_settled (inl (true, ""%string)) p) in
  config p = Some c ∧ success p = Some "GNSS configuration updated."%string.
Proof. vm_compute. done. Qed.
