(* ===== verification/GpsView.v ===== *)
(** The panels of [pages/GpsStatus.jsx], and the choices of [components/SkyPlot.jsx]:
    the view of the globe with its gestures, the filter of the sky plot, the signal
    table, position and fix quality texts, the controls of the output panel, the
    top bar and the copy of the MGRS reference.

    Numbers of the receiver are doubles ([JsNumber]).  The drawing of the globe and
    the coordinates of the sky plot (trigonometric functions) are not modelled. *)
From S2P Require Import Prelude JsString JsNumber JsList Numeric DataTable Gnss.
From Stdlib Require Import QArith Qminmax Qround Floats.SpecFloat.

Local Open Scope Z_scope.
Local Open Scope js_scope.

(** ** Doubles of this page *)

Definition fzero : number := S754_zero false.

Definition isNaN (x : number) : bool := match x with S754_nan => true | _ => false end.

(** [Math.max] and [Math.min] of two numbers. *)
Definition Math_max (a b : number) : number :=
  if isNaN a || isNaN b then S754_nan else if flt a b then b else a.
Definition Math_min (a b : number) : number :=
  if isNaN a || isNaN b then S754_nan else if flt b a then b else a.

(** [x === 0]. *)
Definition is_zero (x : number) : bool := match x with S754_zero _ => true | _ => false end.

(** ** Texts *)

Definition FIX_LABELS (fixType : Z) : string :=
  if decide (fixType = 2) then "2D" else if decide (fixType = 3) then "3D" else "No Fix".
Definition FIX_SUBTITLE (fixType : Z) : string :=
  if decide (fixType = 2) then "2D FIX" else if decide (fixType = 3) then "3D FIX" else "NO FIX".

Definition formatDMS (deg : option number) (posSign negSign : string) : string :=
  match deg with
  | None => "—"
  | Some deg =>
      match finite_value deg with
      | None => "—"
      | Some _ =>
          let abs := SFabs deg in
          let d := floor abs in
          let mf := fmul (fsub abs (of_int d)) (of_int 60) in
          let m := floor mf in
          let s := fmul (fsub mf (of_int m)) (of_int 60) in
          let suffix := if fle fzero deg then posSign else negSign in
          (pretty d ++ "° " ++ padStart0 2 (pretty m) ++ "′ " ++ padStart0 5 (toFixed 2 s) ++ "″ " ++ suffix)%string
      end
  end.

(** [x != null ? `${x.toFixed(digits)}${unit}` : '—'] *)
Definition fixed_or_dash (digits : nat) (unit : string) (x : option number) : string :=
  match x with Some x => (toFixed digits x ++ unit)%string | None => "—" end.

(** [dop != null && dop > 0 ? dop.toFixed(1) : '—'] *)
Definition dop_text (dop : option number) : string :=
  match dop with Some d => if flt fzero d then toFixed 1 d else "—" | None => "—" end.

Definition severity_of (dop : option number) : severity := dopSeverity (dop ≫= finite_value).

Definition estimateCEP95 (hdop : option number) : option number :=
  match hdop with
  | Some h =>
      match finite_value h with
      | Some _ => if fle h fzero then None else Some (fmul h (decimal 46 1))
      | None => None
      end
  | None => None
  end.

Record position := mk_position {
  latitude : option number; longitude : option number; altitude : option number;
  speed : option number; heading : option number;
  hdop : option number; pdop : option number; fixType : option Z
}.

(** [if (!head || /^\d+$/.test(head) || head === 'LOCALHOST')] *)
Definition nodeName (hostname : string) : string :=
  let name := toUpperCase (head (JsList.split "."%char hostname) ?? "") in
  if decide (name = "" ∨ is_Some (read_unsigned name) ∨ name = "LOCALHOST") then "NODE" else name.

(** ** The globe *)

Definition GLOBE_MIN : Z := 180.
Definition GLOBE_MAX : Z := 300.
Definition MIN_ZOOM : number := decimal 8 1.
Definition MAX_ZOOM : number := of_int 4.

Record view := mk_view { v_lat : number; v_lon : number; v_zoom : number }.

(** [viewRef], [dragRef], [globeSize], [centeredRef] and the property [position]. *)
Record globe := mk_globe {
  g_view : view; g_drag : option (number * number); g_size : Z; g_centered : bool;
  g_position : option position
}.

Definition start_view : view := mk_view (of_int 20) fzero (of_int 1).
Definition GlobePanel : globe := mk_globe start_view None GLOBE_MAX false None.

Definition set_view (v : view) (g : globe) : globe :=
  mk_globe v (g_drag g) (g_size g) (g_centered g) (g_position g).
Definition set_drag (d : option (number * number)) (g : globe) : globe :=
  mk_globe (g_view g) d (g_size g) (g_centered g) (g_position g).
Definition set_size (n : Z) (g : globe) : globe :=
  mk_globe (g_view g) (g_drag g) n (g_centered g) (g_position g).

(** [hasPos], with the coordinates it allows to be used. *)
Definition hasPos (p : option position) : option (number * number) :=
  match p ≫= latitude, p ≫= longitude with
  | Some lat, Some lon => if is_zero lat && is_zero lon then None else Some (lat, lon)
  | _, _ => None
  end.

(** The width of the container; [Math.round] of an exact number. *)
Definition apply_width (w : Q) (g : globe) : globe :=
  if Qle_bool w 0 then g
  else set_size (Qfloor (Qmax (inject_Z GLOBE_MIN) (Qmin (inject_Z GLOBE_MAX) w) + (1 # 2))) g.

(** A render with a new [position], and its centring effect. *)
Definition new_position (p : option position) (g : globe) : globe :=
  match hasPos p with
  | Some (lat, lon) =>
      if g_centered g then mk_globe (g_view g) (g_drag g) (g_size g) true p
      else mk_globe (mk_view lat lon (v_zoom (g_view g))) (g_drag g) (g_size g) true p
  | None => mk_globe (g_view g) (g_drag g) (g_size g) (g_centered g) p
  end.

Definition zoom_by (delta : number) (v : view) : view :=
  mk_view (v_lat v) (v_lon v) (Math_min MAX_ZOOM (Math_max MIN_ZOOM (fmul (v_zoom v) delta))).

Definition onWheel (deltaY : number) (g : globe) : globe :=
  set_view (zoom_by (if flt fzero deltaY then decimal 9 1 else decimal 11 1) (g_view g)) g.

Definition onPointerDown (x y : number) : globe → globe := set_drag (Some (x, y)).

Definition drag_view (dx dy : number) (v : view) : view :=
  let sensitivity := fdiv (decimal 3 1) (v_zoom v) in
  mk_view (Math_max (of_int (-85)) (Math_min (of_int 85) (fadd (v_lat v) (fmul dy sensitivity))))
    (fsub (v_lon v) (fmul dx sensitivity)) (v_zoom v).

Definition onPointerMove (x y : number) (g : globe) : globe :=
  match g_drag g with
  | None => g
  | Some (x0, y0) => set_view (drag_view (fsub x x0) (fsub y y0) (g_view g)) (set_drag (Some (x, y)) g)
  end.

Definition onPointerUp : globe → globe := set_drag None.

Definition resetView : globe → globe := set_view start_view.
Definition centerView (g : globe) : globe :=
  match hasPos (g_position g) with
  | Some (lat, lon) => set_view (mk_view lat lon (v_zoom (g_view g))) g
  | None => g
  end.

Inductive globe_event :=
| NewPosition (p : option position) | Width (w : Q) | Wheel (deltaY : number)
| PointerDown (x y : number) | PointerMove (x y : number) | PointerUp
| ResetView | CenterView.

Definition globe_fire (e : globe_event) : globe → globe :=
  match e with
  | NewPosition p => new_position p
  | Width w => apply_width w
  | Wheel d => onWheel d
  | PointerDown x y => onPointerDown x y
  | PointerMove x y => onPointerMove x y
  | PointerUp => onPointerUp
  | ResetView => resetView
  | CenterView => centerView
  end.

Definition globe_run (es : list globe_event) (g : globe) : globe := foldl (λ g e, globe_fire e g) g es.

(** The line under the globe. *)
Definition globe_coord (p : option position) : string :=
  match hasPos p with
  | Some (lat, lon) =>
      (toFixed 4 lat ++ " " ++ (if fle fzero lat then "N" else "S") ++ " · "
       ++ toFixed 4 (SFabs lon) ++ " " ++ (if fle fzero lon then "E" else "W")
       ++ match p ≫= altitude with Some alt => " · " ++ toFixed 1 alt ++ " m" | None => "" end)%string
  | None => "No position data"
  end.

(** ** Sky plot *)

Record sky_sat := mk_sky { sv : satellite; azimuth : option number; elevation : option number; snr : option number }.

Record satellite_status := mk_status {
  satellites : option (list sky_sat); satellitesInView : option Z; satellitesUsed : option Z;
  ss_lastUpdate : timestamp
}.

(** [`${prn}`]. *)
Definition prn_text (s : sky_sat) : string := match sat_prn (sv s) with Some n => pretty n | None => "undefined" end.

Definition satFillClass (s : sky_sat) : string :=
  if sat_used (sv s) then "skyplot-sat used"
  else if fle (of_int 30) (snr s ?? fzero) then "skyplot-sat"
  else "skyplot-sat weak".

(** Both coordinates are numbers. *)
Definition placed (s : sky_sat) : Prop := is_Some (azimuth s) ∧ is_Some (elevation s).
#[export] Instance placed_dec s : Decision (placed s).
Proof. unfold placed. apply _. Defined.

(** The class and the label of each dot. *)
Definition SkyPlot (sats : list sky_sat) : list (string * string) :=
  map (λ s, (satFillClass s, prn_text s)) (filter placed sats).

(** [None] is ['all']. *)
Definition BAND_OPTIONS : list (option constellation * string) :=
  [(None, "ALL BANDS"); (Some GPS, "GPS"); (Some GLONASS, "GLONASS"); (Some GALILEO, "GALILEO");
   (Some BEIDOU, "BEIDOU"); (Some QZSS, "QZSS"); (Some SBAS, "SBAS")]%string.

Definition band_sats (band : option constellation) (sats : list sky_sat) : list sky_sat :=
  match band with
  | None => sats
  | Some c => filter (λ s, satelliteConstellation (sv s) = c) sats
  end.

Definition sats_of (st : option satellite_status) : list sky_sat := (st ≫= satellites) ?? [].

Record sky_panel := mk_sky_panel { sky_title : string; sky_dots : list (string * string); sky_updated : string }.

Section SkyPlotPanel.
  Context (parseDate : string → option Z) (now : Z).

Definition SkyPlotPanel (bandFilter : option constellation) (st : option satellite_status) : sky_panel :=
  let sats := sats_of st in
  let filteredSats := band_sats bandFilter sats in
  let inView : Z :=
    match bandFilter with
    | None => (st ≫= satellitesInView) ?? Z.of_nat (length sats)
    | Some _ => Z.of_nat (length filteredSats)
    end in
  mk_sky_panel ("Sky Plot · " ++ pretty inView ++ " Sats") (SkyPlot filteredSats)
    ("Updated " ++ (formatAgo parseDate ((ss_lastUpdate <$> st) ?? TsNull) now ?? "—")).
End SkyPlotPanel.

(** ** Satellite table *)

Definition constellation_text (c : constellation) : string :=
  match c with
  | GPS => "GPS" | SBAS => "SBAS" | GALILEO => "GALILEO" | BEIDOU => "BEIDOU" | IMES => "IMES"
  | QZSS => "QZSS" | GLONASS => "GLONASS" | IRNSS => "IRNSS"
  end.

Definition snr_class (s : sky_sat) : string :=
  match snrBadge (snr s ≫= finite_value) with
  | Ok => "badge-ok" | Warn => "badge-warn" | Crit => "badge-crit" | Neutral => ""
  end.

Definition plain_column (k l : string) (f : sky_sat → string) : column sky_sat string :=
  mk_column k l None None None f.
Definition badge_column (k l : string) (cls f : sky_sat → string) : column sky_sat string :=
  mk_column k l None None (Some cls) f.

Definition SNR_COLUMNS : list (column sky_sat string) :=
  [plain_column "prn" "PRN" prn_text;
   plain_column "constellation" "Constellation" (λ s, constellation_text (prnToConstellation (sat_prn (sv s))));
   plain_column "elev" "Elev" (λ s, fixed_or_dash 0 "°" (elevation s));
   plain_column "azim" "Azim"
     (λ s, match azimuth s with Some a => (padStart0 3 (toFixed 0 a) ++ "°")%string | None => "—" end);
   badge_column "snr" "SNR" snr_class (λ s, fixed_or_dash 0 "" (snr s));
   badge_column "used" "Used" (λ s, if sat_used (sv s) then "badge-ok" else "badge-crit")
     (λ s, if sat_used (sv s) then "✓" else "✗")]%string.

(** The [USED] filter, or all. *)
Definition snr_rows (only_used : bool) (st : option satellite_status) : list sky_sat :=
  if only_used then filter (λ s, sat_used (sv s) = true) (sats_of st) else sats_of st.

Definition SatelliteSnrPanel (only_used : bool) (st : option satellite_status) : option (@data_table string) :=
  dataTable SNR_COLUMNS (snr_rows only_used st) (λ s i, (prn_text s ++ "-" ++ pretty (Z.of_nat i))%string)
    "No satellite data available." None.

(** ** Position and fix quality *)

Definition PositionPanel (p : option position) (mgrs : option string) : list (string * string) :=
  [("Latitude", formatDMS (p ≫= latitude) "N" "S");
   ("Longitude", formatDMS (p ≫= longitude) "E" "W");
   ("Alt · MSL", fixed_or_dash 1 " m" (p ≫= altitude));
   ("MGRS", mgrs ?? "—");
   ("Heading · Speed",
    fixed_or_dash 0 "°" (p ≫= heading) ++ " · " ++ fixed_or_dash 1 " m/s" (p ≫= speed))]%string.

Definition fix_type (p : option position) : Z := (p ≫= fixType) ?? 0.

Record fix_panel := mk_fix {
  big_num : string * severity; fixed : bool; hdop_cell : string * severity; pdop_cell : string * severity;
  cep95 : string
}.

Definition FixQualityPanel (p : option position) : fix_panel :=
  mk_fix (FIX_LABELS (fix_type p), fixColor (fix_type p)) (2 <=? fix_type p)
    (dop_text (p ≫= hdop), severity_of (p ≫= hdop)) (dop_text (p ≫= pdop), severity_of (p ≫= pdop))
    (fixed_or_dash 1 " m" (estimateCEP95 (p ≫= hdop))).

(** ** Output panel *)

Definition SOURCE_OPTIONS : list (Z * string) :=
  [(1, "INTERNAL · LOCAL RECEIVER"); (2, "EXTERNAL · EUD (ATAK) VIA COT")]%string.

Record toggle := mk_toggle { tg_on : bool; tg_label : string; tg_flip : bool → config_edit }.

(** What [onClick] of a toggle hands on. *)
Definition tg_click (t : toggle) : config_edit := tg_flip t (negb (tg_on t)).

Record output_panel := mk_output {
  toggles : list toggle; source_value : Z; source_label : string; uid_value : string;
  source_hint : bool; save_button : string * bool
}.

(** The missing sections of a configuration are empty objects. *)
Definition OutputProtocolsPanel (config : option gnss_config) (saving : bool) : output_panel :=
  let st := config ≫= settings in
  let out := config ≫= outputProtocols in
  let value := (source <$> st) ?? 1 in
  mk_output
    [mk_toggle ((enableGps <$> st) ?? false) "GPS Enabled" EditEnable;
     mk_toggle ((sendAsNmea <$> out) ?? false) "NMEA Out" EditNmea;
     mk_toggle ((sendAsCot <$> out) ?? false) "CoT Out" EditCot]
    value
    ((snd <$> List.find (λ o, o.1 =? value) SOURCE_OPTIONS) ?? "—")
    ((cotUid <$> out) ?? "")
    (bool_decide (source <$> st = Some 2))
    (if saving then "SAVING…" else "SAVE GNSS CONFIG", saving).

(** ** The page around the panels *)

Definition has_satellites (st : option satellite_status) : Z :=
  (st ≫= satellitesInView) ?? Z.of_nat (length (sats_of st)).

Record topbar := mk_topbar { tb_ip : string; tb_hdop : severity * string; tb_pdop : severity * string; tb_rate : string }.

Definition top_bar (p : option position) (st : option satellite_status) (rate : option Z) : topbar :=
  mk_topbar
    (FIX_SUBTITLE (fix_type p) ++ " · " ++ pretty ((st ≫= satellitesUsed) ?? 0) ++ "/"
     ++ pretty (has_satellites st) ++ " SATS")%string
    (severity_of (p ≫= hdop), ("HDOP " ++ dop_text (p ≫= hdop))%string)
    (severity_of (p ≫= pdop), ("PDOP " ++ dop_text (p ≫= pdop))%string)
    ("GPGGA " ++ match rate with Some hz => (pretty hz ++ "HZ") | None => "—" end)%string.

(** [disabled] of [CENTER]. *)
Definition center_disabled (p : option position) : bool :=
  match p ≫= latitude with
  | None => true
  | Some lat => is_zero lat && match p ≫= longitude with Some lon => is_zero lon | None => false end
  end.

(** [handleCopyMgrs] when the clipboard has answered: the text, or an error's
    message.  A success leaves a timer of 1500 ms. *)
Definition copy_settled (r : string + string) (p : gps_page) : gps_page :=
  match r with
  | inl mgrs => set_success (Some ("MGRS copied: " ++ mgrs)%string) p
  | inr msg => set_error (Some ("Clipboard unavailable: " ++ msg)%string) p
  end.
Definition copy_timer : gps_page → gps_page := set_success None.

(** The alerts above the panels. *)
Definition page_alerts (p : gps_page) : list (string * string) :=
  match error p with Some e => if decide (e = "") then [] else [("crit", e)] | None => [] end
  ++ match success p with Some s => if decide (s = "") then [] else [("ok", s)] | None => [] end.

(** ** Doubles: what the bounds need *)

Lemma shr_1_nonneg r : 0 <= shr_m r → 0 <= shr_m (shr_1 r).
Proof. destruct r as [[|[p|p|]|[p|p|]] b c]; cbn; lia. Qed.

Lemma iter_shr_nonneg n r : 0 <= shr_m r → 0 <= shr_m (iter_pos shr_1 n r).
Proof. revert r. induction n as [n IH|n IH|]; intros r Hr; cbn; auto using shr_1_nonneg. Qed.

Lemma shr_fexp_nonneg m e l : 0 <= m → 0 <= shr_m (shr_fexp 53 1024 m e l).1.
Proof.
  intros Hm. unfold shr_fexp, shr.
  assert (0 <= shr_m (shr_record_of_loc m l)) by by destruct l as [|[]].
  destruct (fexp _ _ _ - e)%Z; cbn [fst]; auto using iter_shr_nonneg.
Qed.

(** Rounding a natural number of units gives a number. *)
Lemma binary_round_aux_number s m e l : 0 <= m → isNaN (binary_round_aux 53 1024 s m e l) = false.
Proof.
  intros Hm. unfold binary_round_aux.
  pose proof (shr_fexp_nonneg m e l Hm) as H1. destruct (shr_fexp _ _ m e l) as [r1 e1]. cbn [fst] in H1.
  assert (0 <= round_nearest_even (shr_m r1) (loc_of_shr_record r1)) as H2.
  { unfold round_nearest_even. destruct (loc_of_shr_record r1) as [|[]]; try destruct (Z.even _); lia. }
  pose proof (shr_fexp_nonneg _ e1 loc_Exact H2) as H3.
  destruct (shr_fexp _ _ _ e1 loc_Exact) as [r2 e2]. cbn [fst] in H3.
  destruct (shr_m r2); [done| |lia]. by destruct (_ <=? _).
Qed.

Lemma flt_total a b : isNaN a = false → isNaN b = false → flt a b = false → fle b a = true.
Proof.
  assert (∀ m m', Pos.compare_cont Eq m' m = CompOpp (Pos.compare_cont Eq m m')) as Hm
    by (intros m m'; by rewrite Pos.compare_cont_antisym).
  unfold flt, fle. destruct a as [[]|[]| |[] m e], b as [[]|[]| |[] m' e']; try done; cbn;
    intros _ _; rewrite (Z.compare_antisym e e'), (Hm m m');
    destruct (e ?= e'); cbn; try done; by destruct (Pos.compare_cont Eq m m').
Qed.

Lemma flt_irrefl a : flt a a = false.
Proof.
  assert (∀ m, Pos.compare_cont Eq m m = Eq) as Hm by (intros m; apply Pos.compare_cont_refl).
  unfold flt. destruct a as [[]|[]| |[] m e]; try done; cbn; by rewrite Z.compare_refl, Hm.
Qed.

Lemma flt_fle a b : flt a b = true → fle a b = true.
Proof. unfold flt, fle. by destruct (SFcompare a b) as [[]|]. Qed.

(** [Math.min(hi, Math.max(lo, x))], and the other nesting. *)
Lemma max_range lo x : isNaN lo = false → isNaN x = false →
  fle lo (Math_max lo x) = true ∧ isNaN (Math_max lo x) = false.
Proof.
  intros Hl Hx. unfold Math_max. rewrite Hl, Hx. cbn [orb].
  destruct (flt lo x) eqn:E; [by split; [apply flt_fle|]|]. split; [|done].
  by apply flt_total; [..|apply flt_irrefl].
Qed.

Lemma min_range hi x : isNaN hi = false → isNaN x = false →
  fle (Math_min hi x) hi = true ∧ isNaN (Math_min hi x) = false.
Proof.
  intros Hl Hx. unfold Math_min. rewrite Hl, Hx. cbn [orb].
  destruct (flt x hi) eqn:E; [by split; [apply flt_fle|]|]. split; [|done].
  by apply flt_total; [..|apply flt_irrefl].
Qed.

Lemma clamp_max_first lo hi x :
  fle lo hi = true → isNaN lo = false → isNaN hi = false → isNaN x = false →
  fle lo (Math_min hi (Math_max lo x)) = true ∧ fle (Math_min hi (Math_max lo x)) hi = true.
Proof.
  intros Hlh Hl Hh Hx. destruct (max_range lo x Hl Hx) as [H1 H2].
  split; [|by apply min_range]. unfold Math_min. rewrite Hh, H2. cbn [orb]. by destruct (flt _ hi).
Qed.

Lemma clamp_min_first lo hi x :
  fle lo hi = true → isNaN lo = false → isNaN hi = false → isNaN x = false →
  fle lo (Math_max lo (Math_min hi x)) = true ∧ fle (Math_max lo (Math_min hi x)) hi = true.
Proof.
  intros Hlh Hl Hh Hx. destruct (min_range hi x Hh Hx) as [H1 H2].
  split; [by apply max_range|]. unfold Math_max. rewrite Hl, H2. cbn [orb]. by destruct (flt lo _).
Qed.

(** ** The globe: laws *)

Definition in_range (lo x hi : number) : Prop := fle lo x = true ∧ fle x hi = true.

(** A latitude that one of the positions of [es] brought. *)
Definition reported (es : list globe_event) (lat : number) : Prop :=
  ∃ p lon, NewPosition p ∈ es ∧ hasPos p = Some (lat, lon).

Lemma in_zoom_finite z : in_range MIN_ZOOM z MAX_ZOOM → ∃ m e, z = S754_finite false m e.
Proof. intros [H1 H2]. destruct z as [|[]| |[] m e]; try done. by exists m, e. Qed.

Lemma zoom_by_range d v :
  in_range MIN_ZOOM (v_zoom v) MAX_ZOOM → d = decimal 9 1 ∨ d = decimal 11 1 →
  in_range MIN_ZOOM (v_zoom (zoom_by d v)) MAX_ZOOM.
Proof.
  intros (m & e & Hz)%in_zoom_finite Hd. cbn [zoom_by v_zoom]. rewrite Hz.
  apply clamp_max_first; [by vm_compute..|].
  by destruct Hd as [-> | ->]; apply binary_round_aux_number.
Qed.

Lemma drag_lat_range dx dy v :
  let lat := v_lat (drag_view dx dy v) in
  isNaN lat = true ∨ in_range (of_int (-85)) lat (of_int 85).
Proof.
  cbn [drag_view v_lat]. set (x := fadd _ _). destruct (isNaN x) eqn:E.
  - left. unfold Math_min. rewrite E. by destruct (isNaN _).
  - right. by apply clamp_min_first; [vm_compute..|].
Qed.

Lemma apply_width_range w g :
  GLOBE_MIN <= g_size g <= GLOBE_MAX → GLOBE_MIN <= g_size (apply_width w g) <= GLOBE_MAX.
Proof.
  intros Hg. unfold apply_width. destruct (Qle_bool w 0); [done|]. cbn [g_size set_size].
  set (q := Qmax _ _).
  assert (inject_Z GLOBE_MIN <= q)%Q as H1 by apply Q.le_max_l.
  assert (q <= inject_Z GLOBE_MAX)%Q as H2 by (apply Q.max_lub; [done|apply Q.le_min_l]).
  split.
  - rewrite <- (Qfloor_Z GLOBE_MIN). apply Qfloor_resp_le. eapply Qle_trans; [exact H1|].
    rewrite <- (Qplus_0_r q) at 1. apply Qplus_le_compat; [apply Qle_refl|done].
  - replace GLOBE_MAX with (Qfloor (inject_Z GLOBE_MAX + (1 # 2))) by done.
    apply Qfloor_resp_le, Qplus_le_compat; [done|apply Qle_refl].
Qed.

(** The latitude the globe may look at: the one it starts with, one the receiver
    reported, or one a drag left, which is bounded. *)
Definition lat_ok (es : list globe_event) (lat : number) : Prop :=
  lat = of_int 20 ∨ reported es lat ∨ isNaN lat = true ∨ in_range (of_int (-85)) lat (of_int 85).

Record globe_ok (es : list globe_event) (g : globe) : Prop := {
  ok_zoom : in_range MIN_ZOOM (v_zoom (g_view g)) MAX_ZOOM;
  ok_size : GLOBE_MIN <= g_size g <= GLOBE_MAX;
  ok_lat : lat_ok es (v_lat (g_view g));
  ok_position p : hasPos (g_position g) = Some p → reported es p.1
}.

Lemma reported_mono es es' lat : reported es lat → reported (es ++ es') lat.
Proof. intros (p & lon & Hp & Hl). exists p, lon. split; [set_solver|done]. Qed.

Lemma globe_ok_fire es e g : globe_ok es g → globe_ok (es ++ [e]) (globe_fire e g).
Proof.
  intros [Hz Hs Hl Hp].
  assert (lat_ok (es ++ [e]) (v_lat (g_view g))) as Hl'
    by (destruct Hl as [?|[?|?]]; [by left|right; left; by apply reported_mono|by right; right]).
  assert (∀ p, hasPos (g_position g) = Some p → reported (es ++ [e]) p.1) as Hp'
    by (intros; by apply reported_mono, Hp).
  destruct e as [p|w|d|x y|x y| | |]; cbn [globe_fire].
  - assert (∀ q, hasPos p = Some q → reported (es ++ [NewPosition p]) q.1) as Hq
      by (intros [lat lon] H; exists p, lon; split; [set_solver|done]).
    unfold new_position. destruct (hasPos p) as [[lat lon]|] eqn:E.
    + specialize (Hq _ eq_refl) as Hr. destruct (g_centered g); constructor; try done; cbn.
      * intros q. rewrite E. auto.
      * by right; left.
      * intros q. rewrite E. auto.
    + constructor; try done. cbn. intros q. by rewrite E.
  - pose proof (apply_width_range w g Hs) as Hw. unfold apply_width in *. destruct (Qle_bool w 0); by constructor.
  - constructor; try done. apply zoom_by_range; [done|]. destruct (flt _ _); auto.
  - by constructor.
  - unfold onPointerMove. destruct (g_drag g) as [[x0 y0]|]; [|by constructor].
    constructor; try done. right; right. apply drag_lat_range.
  - by constructor.
  - constructor; try done. by left.
  - unfold centerView. destruct (hasPos (g_position g)) as [[lat lon]|] eqn:E; [|constructor; try done; intros q; by rewrite E].
    constructor; try done; [right; left; by apply (Hp' (lat, lon))|]. cbn. by rewrite E.
Qed.

(** Whatever is scrolled, dragged, resized or received, the zoom stays between 0.8
    and 4, the canvas between 180 and 300 pixels, and the latitude looked at is
    within 85 degrees unless it is one the receiver reported. *)
Theorem globe_bounds es : globe_ok es (globe_run es GlobePanel).
Proof.
  assert (globe_ok [] GlobePanel) as H0
    by (constructor; [by vm_compute|by vm_compute|by left|done]).
  unfold globe_run. induction es as [|e es IH] using rev_ind; [done|].
  rewrite foldl_snoc. by apply globe_ok_fire.
Qed.

Definition no_fix_yet (e : globe_event) : Prop :=
  match e with NewPosition p => hasPos p = None | CenterView => False | _ => True end.
(** Events that are not the user's. *)
Definition passive (e : globe_event) : Prop :=
  match e with NewPosition _ | Width _ => True | _ => False end.

Lemma uncentered_run es g :
  Forall no_fix_yet es → g_centered g = false → g_centered (globe_run es g) = false.
Proof.
  intros Hes. revert g. induction Hes as [|e es He Hes IH]; intros g Hg; [done|]. apply IH.
  destruct e; cbn in *; try done.
  - unfold new_position. by rewrite He.
  - unfold apply_width. by destruct (Qle_bool w 0).
  - unfold onPointerMove. by destruct (g_drag g) as [[]|].
Qed.

Lemma centered_run es g :
  Forall passive es → g_centered g = true → g_view (globe_run es g) = g_view g.
Proof.
  intros Hes. revert g. induction Hes as [|e es He Hes IH]; intros g Hg; [done|].
  cbn [globe_run foldl]. change (foldl _ ?h es) with (globe_run es h).
  destruct e as [p|w| | | | | |]; try done; cbn [globe_fire].
  - unfold new_position. rewrite Hg. destruct (hasPos p) as [[]|]; by rewrite IH.
  - unfold apply_width. destruct (Qle_bool w 0); by rewrite IH.
Qed.

(** The first position centres the view, with the zoom the user chose, and the
    positions after it leave the view alone. *)
Theorem first_fix_centers es p lat lon es' :
  Forall no_fix_yet es → hasPos p = Some (lat, lon) → Forall passive es' →
  g_view (globe_run (es ++ NewPosition p :: es') GlobePanel)
  = mk_view lat lon (v_zoom (g_view (globe_run es GlobePanel))).
Proof.
  intros Hes Hp Hes'. unfold globe_run. rewrite foldl_app. cbn [foldl].
  fold (globe_run es GlobePanel). fold (globe_run es' (globe_fire (NewPosition p) (globe_run es GlobePanel))).
  pose proof (uncentered_run es GlobePanel Hes eq_refl) as Hc. revert Hc.
  generalize (globe_run es GlobePanel) as g. intros g Hc.
  assert (globe_fire (NewPosition p) g
    = mk_globe (mk_view lat lon (v_zoom (g_view g))) (g_drag g) (g_size g) true p) as ->
    by (cbn; unfold new_position; by rewrite Hp, Hc).
  by rewrite centered_run.
Qed.

Definition a_position (lat lon : Z) : option position :=
  Some (mk_position (Some (of_int lat)) (Some (of_int lon)) None None None None None (Some 3)).

Lemma first_fix_centers_witness :
  g_view (globe_run ([NewPosition None; Wheel (of_int (-3))] ++ NewPosition (a_position 45 7) :: [NewPosition (a_position 46 8)])
    GlobePanel) = mk_view (of_int 45) (of_int 7) (v_zoom (g_view (globe_run [NewPosition None; Wheel (of_int (-3))] GlobePanel))).
Proof. apply first_fix_centers; [by repeat constructor|reflexivity|by repeat constructor]. Defined.

(** The [CENTER] button is live exactly when there is a position to go to, and then
    it goes there. *)
Theorem center_button p lat lon g :
  p ≫= latitude = Some lat → p ≫= longitude = Some lon → g_position g = p →
  (center_disabled p = true → globe_fire CenterView g = g)
  ∧ (center_disabled p = false →
     g_view (globe_fire CenterView g) = mk_view lat lon (v_zoom (g_view g))).
Proof.
  intros Hlat Hlon Hg. unfold center_disabled. cbn [globe_fire]. unfold centerView, hasPos.
  rewrite Hg, Hlat, Hlon. by destruct (is_zero lat && is_zero lon).
Qed.

Lemma center_button_witness :
  (center_disabled (a_position 45 7) = true →
    globe_fire CenterView (globe_run [NewPosition (a_position 45 7)] GlobePanel)
    = globe_run [NewPosition (a_position 45 7)] GlobePanel)
  ∧ (center_disabled (a_position 45 7) = false →
     g_view (globe_fire CenterView (globe_run [NewPosition (a_position 45 7)] GlobePanel))
     = mk_view (of_int 45) (of_int 7) (v_zoom (g_view (globe_run [NewPosition (a_position 45 7)] GlobePanel)))).
Proof. by apply center_button. Defined.

(** ** The panels: laws *)

Definition named_bands : list constellation := omap fst BAND_OPTIONS.

Lemma filter_by_key {A K} `{EqDecision K} (f : A → K) (ks : list K) (l : list A) :
  NoDup ks → concat (map (λ k, filter (λ x, f x = k) l) ks) ≡ₚ filter (λ x, f x ∈ ks) l.
Proof.
  induction 1 as [|k ks Hk _ IH]; cbn [map concat].
  - induction l as [|x l IH]; [done|]. rewrite filter_cons_False; [done|]. apply not_elem_of_nil.
  - rewrite IH. clear IH. induction l as [|x l IH]; [done|]. rewrite !(filter_cons _ x).
    destruct (decide (f x = k)) as [He|He].
    + rewrite (decide_False (P := f x ∈ ks)) by congruence.
      rewrite (decide_True (P := f x ∈ k :: ks)) by (rewrite elem_of_cons; by left).
      cbn [app]. by rewrite IH.
    + destruct (decide (f x ∈ ks)) as [Hi|Hi].
      * rewrite (decide_True (P := f x ∈ k :: ks)) by (rewrite elem_of_cons; by right).
        by rewrite <- Permutation_middle, IH.
      * rewrite (decide_False (P := f x ∈ k :: ks)) by (rewrite elem_of_cons; tauto). done.
Qed.

(** The bands divide the satellites: each one is under exactly one band, except
    those of IMES and IRNSS, which only [ALL BANDS] shows. *)
Theorem bands_divide sats :
  concat (map (λ c, band_sats (Some c) sats) named_bands)
  ≡ₚ filter (λ s, satelliteConstellation (sv s) ∉ [IMES; IRNSS]) sats.
Proof.
  etrans; [apply (filter_by_key (λ s, satelliteConstellation (sv s)))|].
  - apply (bool_decide_unpack (NoDup named_bands)). by vm_compute.
  - rewrite (list_filter_iff _ (λ s, satelliteConstellation (sv s) ∉ [IMES; IRNSS])); [done|].
    intros s. generalize (satelliteConstellation (sv s)). intros c.
    apply (bool_decide_unpack (c ∈ named_bands ↔ c ∉ [IMES; IRNSS])). by destruct c.
Qed.

(** What the output panel shows of each control. *)
Record shown := mk_shown { sh_gps : bool; sh_nmea : bool; sh_cot : bool; sh_source : Z; sh_uid : string }.

Definition shown_of (o : output_panel) : shown :=
  let on k := (tg_on <$> toggles o !! k) ?? false in
  mk_shown (on 0%nat) (on 1%nat) (on 2%nat) (source_value o) (uid_value o).

Definition show_edit (e : config_edit) (s : shown) : shown :=
  match e with
  | EditEnable v => mk_shown v (sh_nmea s) (sh_cot s) (sh_source s) (sh_uid s)
  | EditNmea v => mk_shown (sh_gps s) v (sh_cot s) (sh_source s) (sh_uid s)
  | EditCot v => mk_shown (sh_gps s) (sh_nmea s) v (sh_source s) (sh_uid s)
  | EditSource v => mk_shown (sh_gps s) (sh_nmea s) (sh_cot s) v (sh_uid s)
  | EditUid v => mk_shown (sh_gps s) (sh_nmea s) (sh_cot s) (sh_source s) v
  end.

Definition page_panel (p : gps_page) : output_panel := OutputProtocolsPanel (config p) (saving p).

(** On a configuration with its settings, as the server sends it, an edit shows in
    its own control and in no other; clicking a toggle twice is no edit. *)
Theorem output_controls_take e c st p :
  config p = Some c → settings c = Some st →
  shown_of (page_panel (edit_config e p)) = show_edit e (shown_of (page_panel p)).
Proof.
  intros Hc Hs. unfold page_panel, edit_config. rewrite Hc. destruct c as [s' o']. cbn in Hs. subst s'.
  destruct e, o'; reflexivity.
Qed.

Definition a_config : gnss_config :=
  mk_config (Some {| enableGps := true; source := 1 |})
    (Some {| sendAsNmea := false; sendAsCot := true; cotUid := "ALPHA" |}).
Definition a_page : gps_page := config_settled (inl a_config) GpsStatusPage.

Lemma output_controls_take_witness :
  shown_of (page_panel (edit_config (EditSource 2) a_page)) = show_edit (EditSource 2) (shown_of (page_panel a_page)).
Proof. by apply (output_controls_take _ a_config {| enableGps := true; source := 1 |}). Defined.

Lemma toggle_twice c st p t :
  config p = Some c → settings c = Some st → is_Some (outputProtocols c) →
  t ∈ toggles (page_panel p) →
  edit_config (tg_flip t (tg_on t)) (edit_config (tg_click t) p) = p.
Proof.
  intros Hc Hs [o Ho] Ht. destruct p as [cfg]. cbn in Hc. subst cfg. destruct c as [s' o'].
  cbn in Hs, Ho. subst s' o'. destruct st, o. unfold page_panel in Ht. cbn in Ht.
  rewrite !elem_of_cons in Ht. by destruct Ht as [->|[->|[->|Ht%elem_of_nil]]].
Qed.

(** The save button is the only way to send, and what is saved is what is shown. *)
Theorem save_sends_shown null_error c st p :
  config p = Some c → settings c = Some st →
  ∃ sent_config, requests (handleSave null_error p) = requests p ++ [sent_config]
    ∧ shown_of (OutputProtocolsPanel (Some sent_config) false) = shown_of (page_panel p)
    ∧ save_button (page_panel (handleSave null_error p)) = ("SAVING…"%string, true).
Proof.
  intros Hc Hs. exists c. unfold page_panel. rewrite Hc. unfold handleSave. cbn. rewrite Hc. by cbn.
Qed.

(** For every kind of fix of the protocol the big label, its colour and the line
    below agree on whether there is one. *)
Theorem fix_panel_consistent p :
  0 <= fix_type p <= 3 →
  let f := FixQualityPanel p in
  (fixed f = true ↔ (big_num f).1 ≠ "No Fix"%string) ∧ (fixed f = true ↔ (big_num f).2 ≠ Crit)
  ∧ (fixed f = true ↔ FIX_SUBTITLE (fix_type p) ≠ "NO FIX"%string).
Proof.
  intros H. cbn [FixQualityPanel fixed big_num fst snd].
  assert (fix_type p = 0 ∨ fix_type p = 1 ∨ fix_type p = 2 ∨ fix_type p = 3) as Hc by lia.
  destruct Hc as [-> | [-> | [-> | ->]]]; by vm_compute.
Qed.

(** A position and its mirror image read the same but for the letter. *)
Theorem formatDMS_mirror x q pos neg :
  finite_value x = Some q → is_zero x = false →
  formatDMS (Some (SFopp x)) pos neg = formatDMS (Some x) neg pos.
Proof.
  intros Hf Hz. destruct x as [|[]| |s m e]; try done.
  unfold formatDMS. cbn [finite_value SFopp SFabs]. by destruct s.
Qed.

(** The table shows the used satellites under [USED], in the order of the status,
    and never fails. *)
Theorem snr_table only_used st :
  match SatelliteSnrPanel only_used st with
  | Some (EmptyTable _) => snr_rows only_used st = []
  | Some (Table labels body cards) =>
      labels = map label SNR_COLUMNS ∧ length cards = length body
      ∧ map (λ r, r.2 !! 0%nat) body = map (λ s, Some ("", prn_text s)%string) (snr_rows only_used st)
  | None => False
  end.
Proof.
  unfold SatelliteSnrPanel. destruct (snr_rows only_used st) as [|s l] eqn:E; [done|].
  cbn [dataTable SNR_COLUMNS]. split_and!; [done|by rewrite !length_imap|].
  rewrite <- E. clear. generalize (snr_rows only_used st) as l. intros l.
  apply list_eq. intros i. rewrite !list_lookup_fmap, list_lookup_imap. by destruct (l !! i).
Qed.

(** ** Behaviours worth knowing *)

(** Seconds are rounded after the minutes were cut off. *)
Example dms_sixty_seconds :
  formatDMS (Some (decimal 12999999999 9)) "N" "S" = "12° 59′ 60.00″ N"%string.
Proof. vm_compute. reflexivity. Qed.

Example dms_plain : formatDMS (Some (decimal (-4512345) 5)) "N" "S" = "45° 07′ 24.42″ S"%string.
Proof. vm_compute. reflexivity. Qed.

(** A wheel that only scrolls sideways zooms in. *)
Theorem sideways_wheel_zooms :
  let g := globe_fire (Wheel fzero) GlobePanel in
  flt (v_zoom (g_view GlobePanel)) (v_zoom (g_view g)) = true.
Proof. by vm_compute. Qed.

(** The timer of a copy takes down the message of a save that came after it. *)
Theorem copy_timer_hides_save :
  let p := copy_settled (inl "33TWN 12345 67890"%string) a_page in
  let p := save_settled (inl (true, ""%string)) (handleSave "" p) in
  page_alerts p = [("ok", "GNSS configuration updated.")]%string
  ∧ page_alerts (copy_timer p) = [].
Proof. by vm_compute. Qed.

(** The plot labels and keys its dots by the number alone, so two satellites of
    different systems can share a key. *)
Theorem sky_keys_collide :
  let sat c := mk_sky {| sat_prn := Some 5; sat_constellation := c; sat_used := true |}
                 (Some (of_int 10)) (Some (of_int 40)) None in
  let sats := [sat 1; sat 3] in
  map (λ s, satelliteConstellation (sv s)) sats = [GPS; GALILEO]
  ∧ map snd (SkyPlot sats) = ["5"; "5"]%string.
Proof. by vm_compute. Qed.
