(* ===== verification/Mgrs.v ===== *)
(** [utils/mgrs.js]: from a position to its MGRS reference, and a reader of such
    references that recovers the position.

    The code is written once over an arithmetic ([Arith], [Rounding], [MathLib]) and
    read twice: on doubles, where it runs, and on the real numbers, where the series
    of [latLonToUTM] is bounded.  What rounding adds is not in the theorem on the
    reals: [rounded_up_to_zone_61] shows where a rounded sum changes the zone. *)
From S2P Require Import Prelude JsString JsNumber Numeric.
From Stdlib Require Import Floats.SpecFloat Reals Ratan Machin Lra.

Local Close Scope R_scope.

(** ** The functions of [Math] *)

(** [remainder] is the operator [%]; [isFinite] is [Number.isFinite]. *)
Class MathLib (N : Type) := {
  Math_PI : N; Math_sin : N → N; Math_cos : N → N; Math_tan : N → N; Math_sqrt : N → N;
  remainder : N → N → N; isFinite : N → bool
}.

Definition LAT_BANDS : string := "CDEFGHJKLMNPQRSTUVWX".
Definition ROW_LETTERS_ODD : string := "ABCDEFGHJKLMNPQRSTUV".
Definition ROW_LETTERS_EVEN : string := "FGHJKLMNPQRSTUVABCDE".
(** [COL_LETTERS[i]]; a zone gives the indices 0 to 2. *)
Definition COL_LETTERS (i : Z) : string :=
  if decide (i = 0%Z) then "ABCDEFGH" else if decide (i = 1%Z) then "JKLMNPQR" else "STUVWXYZ".

(** [s[i]]; [None] is [undefined]. *)
Definition char_at (s : string) (i : Z) : option ascii :=
  if (i <? 0)%Z then None else String.get (Z.to_nat i) s.
(** A character in a template string. *)
Definition show_char (c : option ascii) : string :=
  match c with Some c => String c "" | None => "undefined" end.

(** [n.toString().padStart(5, '0').slice(0, precision)]. *)
Definition metres_part (n : Z) (precision : nat) : string :=
  String.substring 0 precision (padStart0 5 (pretty n)).

Definition row_set (zone : Z) : string :=
  if decide (Z.rem zone 2 = 1%Z) then ROW_LETTERS_ODD else ROW_LETTERS_EVEN.

Declare Scope num_scope.
Delimit Scope num_scope with num.
Notation "x + y" := (add x y) : num_scope.
Notation "x - y" := (sub x y) : num_scope.
Notation "x * y" := (mul x y) : num_scope.
Notation "x / y" := (div x y) : num_scope.
Notation "x < y" := (lt x y) : num_scope.
Notation "x <= y" := (le x y) : num_scope.
Notation "# z" := (int z) (at level 1, format "# z") : num_scope.

Section position.
Context {num : Type} `{Arith num, Rounding num, MathLib num}.
Local Open Scope num_scope.

Definition DEG2RAD : num := Math_PI / #180.

Definition latBand (lat : num) : option ascii :=
  if (lat < #(-80)) || (#84 <= lat) then None
  else if #72 <= lat then Some "X"%char
  else char_at LAT_BANDS (floor ((lat + #80) / #8)).

(** [a <= x && x < b]. *)
Definition within (a : Z) (x : num) (b : Z) : bool := (#a <= x) && (x < #b).

Definition utmZone (lat lon : num) : Z :=
  let zone := (floor ((lon + #180) / #6)%num + 1)%Z in
  let zone := if within 56 lat 64 && within 3 lon 12 then 32%Z else zone in
  if within 72 lat 84 then
    if within 0 lon 9 then 31%Z
    else if within 9 lon 21 then 33%Z
    else if within 21 lon 33 then 35%Z
    else if within 33 lon 42 then 37%Z
    else zone
  else zone.

(** The constants of [latLonToUTM]. *)
Definition utm_a : num := #6378137.
Definition utm_f : num := #1 / lit 298257223563 9.
Definition utm_k0 : num := lit 9996 4.
Definition utm_e2 : num := #2 * utm_f - utm_f * utm_f.
Definition utm_ep2 : num := utm_e2 / (#1 - utm_e2).

(** [M], the length of the meridian to the latitude. *)
Definition meridian (phi : num) : num :=
  let e2 := utm_e2 in
  utm_a * (
    (#1 - e2 / #4 - #3 * e2 * e2 / #64 - #5 * e2 * e2 * e2 / #256) * phi
    - (#3 * e2 / #8 + #3 * e2 * e2 / #32 + #45 * e2 * e2 * e2 / #1024) * Math_sin (#2 * phi)
    + (#15 * e2 * e2 / #256 + #45 * e2 * e2 * e2 / #1024) * Math_sin (#4 * phi)
    - (#35 * e2 * e2 * e2 / #3072) * Math_sin (#6 * phi)).

Definition utm_easting (N T C A : num) : num :=
  let ep2 := utm_ep2 in
  let A2 := A * A in
  let A3 := A2 * A in
  let A4 := A3 * A in
  let A5 := A4 * A in
  utm_k0 * N * (
    A + (#1 - T + C) * A3 / #6
    + (#5 - #18 * T + T * T + #72 * C - #58 * ep2) * A5 / #120)
  + #500000.

(** Before the 10,000 km of the southern half. *)
Definition utm_northing (M N tanPhi T C A : num) : num :=
  let ep2 := utm_ep2 in
  let A2 := A * A in
  let A3 := A2 * A in
  let A4 := A3 * A in
  let A5 := A4 * A in
  let A6 := A5 * A in
  utm_k0 * (M + N * tanPhi * (
    A2 / #2 + (#5 - T + #9 * C + #4 * C * C) * A4 / #24
    + (#61 - #58 * T + T * T + #600 * C - #330 * ep2) * A6 / #720)).

Definition latLonToUTM (lat lon : num) : Z * num * num :=
  let zone := utmZone lat lon in
  let lambda0 := (#((zone - 1) * 6 - 180 + 3)) * DEG2RAD in
  let phi := lat * DEG2RAD in
  let lambda := lon * DEG2RAD in
  let sinPhi := Math_sin phi in
  let cosPhi := Math_cos phi in
  let tanPhi := Math_tan phi in
  let N := utm_a / Math_sqrt (#1 - utm_e2 * sinPhi * sinPhi) in
  let T := tanPhi * tanPhi in
  let C := utm_ep2 * cosPhi * cosPhi in
  let A := cosPhi * (lambda - lambda0) in
  let M := meridian phi in
  let northing := utm_northing M N tanPhi T C A in
  (zone, utm_easting N T C A, if lat < #0 then northing + #10000000 else northing).

Definition utmToMGRS (zone : Z) (easting northing lat : num) (precision : nat) : option string :=
  match latBand lat with
  | None => None
  | Some band =>
      let colSet := COL_LETTERS (Z.rem (zone - 1) 3) in
      let colIdx := (floor (easting / #100000)%num - 1)%Z in
      if (colIdx <? 0)%Z || (Z.of_nat (String.length colSet) <=? colIdx)%Z then None
      else
        let colLetter := show_char (char_at colSet colIdx) in
        let rowLetter := show_char (char_at (row_set zone) (Z.rem (floor (northing / #100000)%num) 20)) in
        let eastingMod := floor (remainder easting #100000) in
        let northingMod := floor (remainder northing #100000) in
        Some (pretty zone ++ String band "" ++ " " ++ colLetter ++ rowLetter ++ " "
              ++ metres_part eastingMod precision ++ " " ++ metres_part northingMod precision)%string
  end.

(** [None] for a missing coordinate. *)
Definition latLonToMGRS (lat lon : option num) (precision : Z) : option string :=
  match lat, lon with
  | Some lat, Some lon =>
      if negb (isFinite lat) || negb (isFinite lon) then None
      else if (lat < #(-80)) || (#84 <= lat) then None
      else if (lon < #(-180)) || (#180 <= lon) then None
      else if (precision <? 1)%Z || (5 <? precision)%Z then None
      else
        let '(zone, easting, northing) := latLonToUTM lat lon in
        utmToMGRS zone easting northing lat (Z.to_nat precision)
  | _, _ => None
  end.
End position.

(** ** On doubles *)

(** [x % y], exact; the sign is the dividend's. *)
Definition frem (x y : number) : number :=
  match x, y with
  | S754_finite sx mx ex, S754_finite _ my ey =>
      let e := Z.min ex ey in
      let r := (Z.pos mx * 2 ^ (ex - e)) mod (Z.pos my * 2 ^ (ey - e)) in
      let r := binary_normalize 53 1024 r e false in
      if sx then SFopp r else r
  | (S754_finite _ _ _ | S754_zero _), S754_infinity _ => x
  | S754_zero _, S754_finite _ _ _ => x
  | _, _ => S754_nan
  end%Z.

(** The trigonometric functions are those of the engine, which the language only asks
    to be approximations; the rest is exact. *)
Section doubles.
Context (sin cos tan : number → number).

Definition doubles_math : MathLib number :=
  {| Math_PI := S754_finite false 7074237752028440 (-51);
     Math_sin := sin; Math_cos := cos; Math_tan := tan; Math_sqrt := SFsqrt 53 1024;
     remainder := frem;
     isFinite x := match x with S754_finite _ _ _ | S754_zero _ => true | _ => false end |}.
End doubles.

(** An engine to run the code with: forty terms of the series. *)
Fixpoint alternating (n : nat) (k : Z) (term x2 : number) : number :=
  match n with
  | O => S754_zero false
  | S n => fadd term (alternating n (k + 2) (SFopp (fdiv (fmul term x2) (of_int ((k + 1) * (k + 2))))) x2)
  end.
Definition series_sin (x : number) : number := alternating 40 1 x (fmul x x).
Definition series_cos (x : number) : number := alternating 40 0 (of_int 1) (fmul x x).
Definition series_tan (x : number) : number := fdiv (series_sin x) (series_cos x).

Definition series_math : MathLib number := doubles_math series_sin series_cos series_tan.

Definition reference (lat lon : number) (precision : Z) : option string :=
  latLonToMGRS (H1 := series_math) (Some lat) (Some lon) precision.

(** The fixtures of __tests__/utils/mgrs.test.js, and its limits. *)
Example test_fixtures :
  reference (decimal 388976 4) (decimal (-770365) 4) 5 = Some "18S UJ 23394 07384"
  ∧ reference (of_int 0) (of_int 0) 5 = Some "31N AA 66021 00000"
  ∧ reference (decimal 515007 4) (decimal (-1246) 4) 5 = Some "30U XC 99567 09427"
  ∧ reference (decimal (-338568) 4) (decimal 1512153 4) 5 = Some "56H LH 34900 52288"
  ∧ reference (decimal (-339249) 4) (decimal 184241 4) 5 = Some "34H BH 61881 43182"
  ∧ reference (of_int 84) (of_int 0) 5 = None ∧ reference (of_int 0) (of_int 180) 5 = None
  ∧ reference (of_int 0) (of_int 0) 6 = None.
Proof. vm_compute. split_and!; reflexivity. Qed.

(** The greatest double below 180: adding 180 rounds to 360, and the zone is one that
    does not exist, whatever the engine's functions. *)
Theorem rounded_up_to_zone_61 :
  let lon := S754_finite false 6333186975989759 (-45) in
  lt lon (of_int 180) = true ∧ (∀ lat, within 56 lat 64 = false → within 72 lat 84 = false → utmZone lat lon = 61%Z)
  ∧ reference (of_int 0) lon 5 = Some "61N AA 66021 00000".
Proof.
  intros lon. split_and!; [by vm_compute| |by vm_compute]. intros lat H1 H2. unfold utmZone. rewrite H1, H2. by vm_compute.
Qed.

(** ** Reading a reference *)

(** The specification the references are held against: a reader that knows only
    the format and the letter tables. *)
Record mgrs_square := { sq_zone : Z; sq_band : ascii; sq_easting : Z; sq_northing : Z }.

Fixpoint span_digits (s : string) : string * string :=
  match s with
  | EmptyString => ("", "")
  | String c s' =>
      match digit_of c with
      | Some _ => let (d, r) := span_digits s' in (String c d, r)
      | None => ("", s)
      end
  end.

Fixpoint index_of (c : ascii) (s : string) : option Z :=
  match s with
  | EmptyString => None
  | String d s' => if decide (c = d) then Some 0%Z else Z.succ <$> index_of c s'
  end.

(** Metres from [k] digits, the missing lower digits being 0. *)
Definition read_metres (s : string) : option Z :=
  (λ n, n * 10 ^ (5 - Z.of_nat (String.length s)))%Z <$> read_unsigned s.

Definition read_mgrs (s : string) : option mgrs_square :=
  let (z, s1) := span_digits s in
  zone ← read_unsigned z;
  match s1 with
  | String band (String " " (String col (String row (String " " s2)))) =>
      let (e, s3) := span_digits s2 in
      match s3 with
      | String " " n =>
          c ← index_of col (COL_LETTERS (Z.rem (zone - 1) 3));
          r ← index_of row (row_set zone);
          em ← read_metres e;
          nm ← read_metres n;
          Some {| sq_zone := zone; sq_band := band;
                  sq_easting := (c + 1) * 100000 + em; sq_northing := r * 100000 + nm |}
      | _ => None
      end
  | _ => None
  end.

(** [x] with the digits below the precision dropped. *)
Definition truncated (precision x : Z) : Z := (x - x `mod` 10 ^ (5 - precision))%Z.

(** ** Letters and digits *)

Lemma char_at_some s i :
  (0 ≤ i < Z.of_nat (String.length s))%Z → is_Some (char_at s i).
Proof.
  intros H. unfold char_at. rewrite (proj2 (Z.ltb_ge i 0)) by lia.
  destruct H as [H0 H]. apply Z2Nat.inj_lt in H; [|lia|lia]. rewrite Nat2Z.id in H.
  generalize dependent (Z.to_nat i). clear. intros n. revert n.
  induction s as [|c s IH]; intros [|n] H; simpl in *; [lia|lia|done|apply IH; lia].
Qed.

(** A letter's place in a table without repetition. *)
Lemma index_of_char_at s i c :
  NoDup (String.list_ascii_of_string s) → char_at s i = Some c → index_of c s = Some i.
Proof.
  unfold char_at. destruct (Z.ltb_spec i 0); [done|]. intros Hn.
  rewrite <- (Z2Nat.id i) at 2 by lia. generalize (Z.to_nat i). clear i H. intros n. revert n.
  induction s as [|d s IH]; intros n Hc; [by destruct n|]. apply NoDup_cons in Hn as [Hd Hn].
  destruct n as [|n]; simpl in *.
  - injection Hc as ->. by rewrite decide_True.
  - rewrite decide_False.
    + rewrite (IH Hn n Hc). simpl. f_equal. lia.
    + intros ->. apply Hd. clear -Hc. revert n Hc.
      induction s as [|e s IH]; intros [|n] Hc; simpl in *; [done|done|injection Hc as ->; left|].
      right. by apply (IH n).
Qed.

Lemma col_table i : NoDup (String.list_ascii_of_string (COL_LETTERS i)) ∧ String.length (COL_LETTERS i) = 8.
Proof. unfold COL_LETTERS. repeat case_decide; (split; [apply (bool_decide_unpack _)|]; vm_compute; done). Qed.

Lemma row_table z : NoDup (String.list_ascii_of_string (row_set z)) ∧ String.length (row_set z) = 20.
Proof. unfold row_set. case_decide; (split; [apply (bool_decide_unpack _)|]; vm_compute; done). Qed.

(** ** Texts *)

Lemma span_digits_app d c s :
  all_digits d → digit_of c = None → span_digits (d ++ String c s) = (d, String c s).
Proof.
  intros Hd Hc. induction d as [|x d IH].
  - change ("" ++ String c s)%string with (String c s). cbn [span_digits]. by rewrite Hc.
  - apply Forall_cons in Hd as [[v Hx] Hd].
    change ((String x d ++ String c s)%string) with (String x (d ++ String c s)).
    cbn [span_digits]. by rewrite Hx, (IH Hd).
Qed.

Lemma metres_digits n p :
  (0 ≤ n < 100000)%Z → p ≤ 5 →
  metres_part n p = digits_of p (Z.to_N n / 10 ^ N.of_nat (5 - p)) "".
Proof.
  intros Hn Hp. unfold metres_part. rewrite <- (Z2N.id n) at 1 by lia.
  assert (pretty (Z.of_N (Z.to_N n)) = pretty (Z.to_N n)) as -> by (by destruct (Z.to_N n)).
  rewrite padStart0_pretty; [|lia|apply N2Z.inj_lt; rewrite Z2N.id by lia; simpl; lia].
  replace 5 with ((5 - p) + p) at 1 by lia. apply slice_digits.
Qed.

Lemma metres_text n p :
  (0 ≤ n < 100000)%Z → 1 ≤ p ≤ 5 →
  all_digits (metres_part n p) ∧ read_metres (metres_part n p) = Some (truncated p n).
Proof.
  intros Hn Hp. rewrite metres_digits by lia. set (m := (Z.to_N n / _)%N).
  split; [by apply digits_of_digits, Forall_nil|]. unfold read_metres.
  rewrite digits_of_length, Nat.add_0_r.
  assert (m < 10 ^ N.of_nat p)%N as Hm.
  { apply N.Div0.div_lt_upper_bound. rewrite <- N.pow_add_r, <- Nat2N.inj_add.
    replace (5 - p + p) with 5 by lia. apply N2Z.inj_lt. rewrite Z2N.id by lia. simpl. lia. }
  assert (read_unsigned (digits_of p m "") = Some (Z.of_N m)) as ->.
  { pose proof (read_digits_of p m 0 "" Hm) as H. pose proof (digits_of_length p m "") as Hl.
    unfold read_unsigned. destruct (digits_of p m ""); [simpl in Hl; lia|]. rewrite H. done. }
  simpl. f_equal. unfold truncated. subst m.
  rewrite N2Z.inj_div, Z2N.id, N2Z.inj_pow, Z.mod_eq by
    (lia || (apply Z.pow_nonzero; lia)).
  rewrite nat_N_Z, Nat2Z.inj_sub by lia. change (Z.of_N 10) with 10%Z. change (Z.of_nat 5) with 5%Z.
  lia.
Qed.

Lemma band_not_digit (i : Z) c : char_at LAT_BANDS i = Some c → digit_of c = None.
Proof.
  unfold char_at. destruct (_ <? 0)%Z; [done|]. intros H.
  assert (c ∈ String.list_ascii_of_string LAT_BANDS) as Hc.
  { revert H. generalize (Z.to_nat i) LAT_BANDS. intros n s. revert n.
    induction s as [|d s IH]; intros [|n] H; simpl in *; [done..|injection H as ->; left|].
    right. by apply (IH n). }
  clear H. revert c Hc. apply Forall_forall. repeat constructor.
Qed.

Lemma letters_not_digits {num} `{Arith num, Rounding num} (lat : num) c :
  latBand lat = Some c → digit_of c = None.
Proof.
  unfold latBand. destruct (_ || _); [done|]. destruct (le _ _); [by intros [= <-]|].
  apply band_not_digit.
Qed.

Lemma read_pretty z :
  (1 ≤ z)%Z → all_digits (pretty z) ∧ read_unsigned (pretty z) = Some z.
Proof.
  intros Hz. destruct z as [|p|p]; [lia| |lia].
  change (pretty (Z.pos p)) with (pretty (N.pos p)). destruct (pretty_N_text (N.pos p)) as (? & ? & _). done.
Qed.

(** What a reference says, for the zone, band and whole metres it was made from. *)
Definition square_of (zone : Z) (band : ascii) (easting northing precision : Z) : mgrs_square :=
  {| sq_zone := zone; sq_band := band;
     sq_easting := truncated precision easting;
     sq_northing := truncated precision northing `mod` 2000000 |}.

Lemma truncated_split p x :
  (1 ≤ p ≤ 5)%Z → truncated p x = (x / 100000 * 100000 + truncated p (x mod 100000))%Z.
Proof.
  intros Hp. unfold truncated. pose proof (Z.div_mod x 100000 ltac:(lia)).
  rewrite <- (Znumtheory.Zmod_div_mod (10 ^ (5 - p)) 100000 x); [lia|apply Z.pow_pos_nonneg; lia|lia|].
  exists (10 ^ p)%Z. rewrite <- Z.pow_add_r by lia. by replace (p + (5 - p))%Z with 5%Z by lia.
Qed.

Lemma truncated_bounds p x : (0 ≤ x < 100000)%Z → (1 ≤ p ≤ 5)%Z → (0 ≤ truncated p x < 100000)%Z.
Proof.
  intros Hx Hp. unfold truncated.
  assert (0 < 10 ^ (5 - p))%Z as H0 by (apply Z.pow_pos_nonneg; lia).
  pose proof (Z.mod_pos_bound x _ H0). pose proof (Z.mod_le x _ (proj1 Hx) H0). lia.
Qed.

(** [m] is the whole metres of [x], as the code splits them. *)
Definition metres_of {num} `{Arith num, Rounding num, MathLib num} (x : num) (m : Z) : Prop :=
  floor (div x (int 100000)) = (m / 100000)%Z ∧ floor (remainder x (int 100000)) = (m mod 100000)%Z.

Lemma utmToMGRS_read {num} `{Arith num, Rounding num, MathLib num} zone (ex nx lat : num) band easting northing (p : nat) :
  (1 ≤ zone ≤ 60)%Z → latBand lat = Some band → metres_of ex easting → metres_of nx northing →
  (100000 ≤ easting < 900000)%Z → (0 ≤ northing)%Z → 1 ≤ p ≤ 5 →
  ∃ s, utmToMGRS zone ex nx lat p = Some s
    ∧ read_mgrs s = Some (square_of zone band easting northing (Z.of_nat p)).
Proof.
  intros Hz Hb [Hx1 Hx2] [Hy1 Hy2] He Hn Hp. unfold utmToMGRS. rewrite Hb, Hx1, Hx2, Hy1, Hy2.
  assert (0 ≤ easting / 100000 - 1 < 8)%Z as Hc.
  { assert (1 ≤ easting / 100000 < 9)%Z; [|lia].
    split; [apply Z.div_le_lower_bound|apply Z.div_lt_upper_bound]; lia. }
  destruct (col_table (Z.rem (zone - 1) 3)) as [Hcn Hcl].
  rewrite Hcl, (proj2 (Z.ltb_ge _ 0)), (proj2 (Z.leb_gt _ _)) by lia. cbn [orb].
  destruct (char_at_some (COL_LETTERS (Z.rem (zone - 1) 3)) (easting / 100000 - 1)%Z
    ltac:(rewrite Hcl; lia)) as [col Hcol].
  destruct (row_table zone) as [Hrn Hrl].
  assert (0 ≤ Z.rem (northing / 100000) 20 < 20)%Z as Hr
    by (apply Z.rem_bound_pos; [apply Z.div_pos; lia|lia]).
  destruct (char_at_some (row_set zone) _ ltac:(rewrite Hrl; exact Hr)) as [row Hrow].
  rewrite Hcol, Hrow. eexists. split; [done|].
  pose proof (Z.mod_pos_bound easting 100000 ltac:(lia)) as Hem.
  pose proof (Z.mod_pos_bound northing 100000 ltac:(lia)) as Hnm.
  destruct (metres_text _ p Hem Hp) as [Hed Her]. destruct (metres_text _ p Hnm Hp) as [_ Hnr].
  generalize dependent (metres_part (easting mod 100000) p).
  generalize dependent (metres_part (northing mod 100000) p). intros n Hnr e Hed Her.
  destruct (read_pretty zone ltac:(lia)) as [Hzd Hzr].
  change (read_mgrs (pretty zone ++ String band (String " " (String col (String row (String " " (e ++ String " " n))))))
    = Some (square_of zone band easting northing (Z.of_nat p))).
  unfold read_mgrs. rewrite span_digits_app by (eauto using letters_not_digits).
  rewrite Hzr. cbn [mbind option_bind].
  rewrite span_digits_app by done.
  rewrite (index_of_char_at _ _ _ Hcn Hcol), (index_of_char_at _ _ _ Hrn Hrow), Her, Hnr. simpl. f_equal.
  unfold square_of. f_equal.
  - rewrite (truncated_split _ easting) by lia. lia.
  - rewrite (truncated_split _ northing) by lia.
    rewrite Z.rem_mod_nonneg by (lia || (apply Z.div_pos; lia)).
    pose proof (truncated_bounds (Z.of_nat p) _ Hnm ltac:(lia)) as Ht.
    pose proof (Z.div_mod (northing / 100000) 20 ltac:(lia)).
    pose proof (Z.mod_pos_bound (northing / 100000) 20 ltac:(lia)).
    apply (Z.mod_unique _ _ (northing / 100000 / 20)); lia.
Qed.

(** ** On the real numbers *)

Section reals.
Local Open Scope R_scope.

#[local] Instance reals : Arith R :=
  {| lit n k := IZR n / IZR (10 ^ k); add := Rplus; sub := Rminus; mul := Rmult; div := Rdiv;
     lt x y := if Rlt_dec x y then true else false; le x y := if Rle_dec x y then true else false |}.

#[local] Instance reals_round : Rounding R := {| floor := Int_part; round x := Int_part (x + 1 / 2) |}.

(** [%] drops the whole part of the quotient towards 0. *)
#[local] Instance reals_math : MathLib R :=
  {| Math_PI := PI; Math_sin := sin; Math_cos := cos; Math_tan := tan; Math_sqrt := sqrt;
     remainder x y := x - y * IZR (if Rlt_dec (x / y) 0 then - Int_part (- (x / y)) else Int_part (x / y));
     isFinite _ := true |}.

Lemma int_R z : @int R _ z = IZR z.
Proof. change (IZR z / 1 = IZR z). lra. Qed.

Lemma lt_R (x y : R) : lt x y = true ↔ x < y.
Proof. cbn. by destruct (Rlt_dec x y). Qed.
Lemma le_R (x y : R) : le x y = true ↔ x <= y.
Proof. cbn. by destruct (Rle_dec x y). Qed.
Lemma nlt_R (x y : R) : lt x y = false ↔ y <= x.
Proof. rewrite <- not_true_iff_false, lt_R. split; lra. Qed.
Lemma nle_R (x y : R) : le x y = false ↔ y < x.
Proof. rewrite <- not_true_iff_false, le_R. split; lra. Qed.

Lemma floor_R (x : R) (z : Z) : IZR z <= x < IZR z + 1 ↔ floor x = z.
Proof.
  change (floor x) with (Int_part x). pose proof (base_Int_part x) as [H1 H2]. split; [|intros <-; lra].
  intros [H3 H4]. apply Z.le_antisymm; apply Z.lt_succ_r, lt_IZR; rewrite succ_IZR; lra.
Qed.

Lemma within_R a (x : R) b : within a x b = true ↔ IZR a <= x < IZR b.
Proof. unfold within. rewrite andb_true_iff, le_R, lt_R, !int_R. done. Qed.
Lemma within_false a (x : R) b : within a x b = false → x < IZR a ∨ IZR b <= x.
Proof. unfold within. rewrite andb_false_iff, nle_R, nlt_R, !int_R. done. Qed.

(** The floor of a number that is not negative splits as the number does. *)
Lemma metres_R (x : R) : 0 <= x → metres_of x (floor x).
Proof.
  intros Hx. pose proof (proj2 (floor_R x _) eq_refl) as [H1 H2].
  assert (0 <= floor x)%Z as H0 by (apply Z.lt_succ_r, lt_IZR; rewrite succ_IZR; lra).
  assert (floor (div x (int 100000)) = floor x / 100000)%Z as Hq.
  { apply floor_R. rewrite int_R. change (div x 100000) with (x / 100000).
    pose proof (Z.div_mod (floor x) 100000 ltac:(lia)) as Hd.
    pose proof (Z.mod_pos_bound (floor x) 100000 ltac:(lia)) as [Hm1 Hm2].
    apply (f_equal IZR) in Hd. rewrite plus_IZR, mult_IZR in Hd.
    apply IZR_le in Hm1. assert (IZR (floor x `mod` 100000) <= 99999) by (apply IZR_le; lia). lra. }
  split; [done|]. assert (Int_part (x / 100000) = floor x / 100000)%Z as Hq' by (rewrite <- Hq, int_R; done).
  apply floor_R. cbn [remainder reals_math]. rewrite int_R.
  destruct (Rlt_dec _ _) as [Hl|_].
  { exfalso. assert (0 <= x / 100000) by lra. lra. }
  rewrite Hq', Z.mod_eq by lia. rewrite minus_IZR, mult_IZR. lra.
Qed.

(** *** Zones and bands *)

Definition in_range (lat lon : R) : Prop := -80 <= lat < 84 ∧ -180 <= lon < 180.

Ltac degrees_lra := split; [lia|]; rewrite ?plus_IZR, ?minus_IZR, ?mult_IZR, ?minus_IZR; lra.

Lemma utmZone_plain (lon : R) :
  let z := (floor (div (add lon (int 180)) (int 6)) + 1)%Z in
  IZR ((z - 1) * 6 - 180) <= lon < IZR ((z - 1) * 6 - 180) + 6.
Proof.
  intros z. pose proof (proj2 (floor_R (div (add lon (int 180)) (int 6)) _) eq_refl) as H.
  rewrite minus_IZR, mult_IZR. unfold z. rewrite Z.add_simpl_r.
  revert H. generalize (floor (div (add lon (int 180)) (int 6))). intros k. rewrite !int_R. cbn. lra.
Qed.

(** The zone is 1 to 60; its central meridian is 3 degrees away at most, or 6 degrees
    where the zones are widened, which is north of 56 degrees. *)
Lemma utmZone_R (lat lon : R) :
  in_range lat lon →
  let z := utmZone lat lon in
  let d := lon - IZR ((z - 1) * 6 - 180 + 3) in
  (1 <= z <= 60)%Z ∧ -6 <= d <= 6 ∧ (lat < 56 → -3 <= d <= 3).
Proof.
  intros [Hlat Hlon]. pose proof (utmZone_plain lon) as Hz.
  assert (∀ z, IZR ((z - 1) * 6 - 180) <= lon < IZR ((z - 1) * 6 - 180) + 6 →
    let d := lon - IZR ((z - 1) * 6 - 180 + 3) in
    (1 <= z <= 60)%Z ∧ -6 <= d <= 6 ∧ (lat < 56 → -3 <= d <= 3)) as Hplain.
  { intros z Hd d. unfold d. rewrite plus_IZR. split; [|lra].
    assert (IZR ((z - 1) * 6 - 180) < 180 ∧ -186 < IZR ((z - 1) * 6 - 180)) as [Ha%lt_IZR Hb%lt_IZR] by lra. lia. }
  cbv zeta. unfold utmZone. cbv zeta.
  destruct (within 72 lat 84) eqn:E1.
  - apply within_R in E1.
    destruct (within 0 lon 9) eqn:E2; [apply within_R in E2; degrees_lra|].
    destruct (within 9 lon 21) eqn:E3; [apply within_R in E3; degrees_lra|].
    destruct (within 21 lon 33) eqn:E4; [apply within_R in E4; degrees_lra|].
    destruct (within 33 lon 42) eqn:E5; [apply within_R in E5; degrees_lra|].
    destruct (within 56 lat 64) eqn:E6; [apply within_R in E6; lra|]. cbn [andb]. by apply Hplain.
  - destruct (within 56 lat 64 && within 3 lon 12) eqn:E2; [|by apply Hplain].
    apply andb_true_iff in E2 as [E2%within_R E3%within_R]. degrees_lra.
Qed.

Lemma latBand_R (lat : R) : -80 <= lat < 84 → is_Some (latBand lat).
Proof.
  intros H. unfold latBand. rewrite !int_R, (proj2 (nlt_R _ _)), (proj2 (nle_R _ _)) by lra. cbn [orb].
  destruct (le 72 lat) eqn:E; [done|]. apply nle_R in E. apply char_at_some.
  pose proof (proj2 (floor_R (div (add lat 80) 8) _) eq_refl) as [H1 H2].
  revert H1 H2. generalize (floor (div (add lat 80) 8)). intros k. cbn. intros H1 H2.
  assert (IZR k < 20 ∧ -1 < IZR k) as [Ha%lt_IZR Hb%lt_IZR] by lra. lia.
Qed.

(** *** The series *)

Lemma PI_bounds : 3.14 <= PI <= 3.15.
Proof.
  pose proof (PI_2_3_7_ineq 1) as H. cbn in H. unfold tg_alt, PI_2_3_7_tg, Ratan_seq in H. cbn in H. lra.
Qed.

(** The constants. *)
Lemma constants :
  let e2 := @utm_e2 R _ in let ep2 := @utm_ep2 R _ in
  @utm_k0 R _ = 0.9996 ∧ @utm_a R _ = 6378137 ∧ 0.0066 <= e2 <= 0.0067 ∧ 0 <= ep2 <= 0.0068.
Proof.
  cbv zeta. assert (0.0066 <= @utm_e2 R _ <= 0.0067) as He.
  { unfold utm_e2, utm_f. rewrite !int_R. cbn [add sub mul div lit reals].
    change (IZR (10 ^ 9)) with 1000000000. lra. }
  assert (@utm_ep2 R _ * (1 - @utm_e2 R _) = @utm_e2 R _) as Hp.
  { unfold utm_ep2. rewrite int_R. cbn [sub div reals]. field. lra. }
  split; [|split; [|split; [done|nra]]].
  - unfold utm_k0. cbn [lit reals]. change (IZR (10 ^ 4)) with 10000. lra.
  - apply int_R.
Qed.

Lemma abs_sin_le x : - Rabs x <= sin x <= Rabs x.
Proof.
  assert (∀ y, 0 <= y → - y <= sin y <= y) as H.
  { intros y [Hy| <-]; [|rewrite sin_0; lra]. split; [|by apply Rlt_le, sin_lt_x].
    destruct (Rle_dec y PI) as [Hp|Hp]; [pose proof (sin_ge_0 y); lra|].
    pose proof (SIN_bound y). pose proof PI_bounds. lra. }
  unfold Rabs. destruct (Rcase_abs x); [|apply H; lra].
  pose proof (H (- x) ltac:(lra)) as Hx. rewrite sin_neg in Hx. lra.
Qed.

(** The series of the easting and northing with the powers of the cosine taken out:
    [u] is the square of the cosine, [p] the constant [ep2]. *)
Definition east_factor (d u p : R) : R :=
  1 + d ^ 2 * (2 * u - 1 + p * u ^ 2) / 6
    + d ^ 4 * (5 * u ^ 2 - 18 * u * (1 - u) + (1 - u) ^ 2 + (72 * p * u - 58 * p) * u ^ 2) / 120.
Definition north_factor (d u p : R) : R :=
  1 / 2 + d ^ 2 * (6 * u - 1 + (9 * p * u + 4 * (p * u) ^ 2) * u) / 24
    + d ^ 4 * (61 * u ^ 2 - 58 * u * (1 - u) + (1 - u) ^ 2 + (600 * p * u - 330 * p) * u ^ 2) / 720.

Lemma series_factors s c d p N M :
  0 < c → s ^ 2 + c ^ 2 = 1 → p = @utm_ep2 R _ →
  let t := s / c in let A := c * d in
  @utm_easting R _ N (t * t) (p * c * c) A = 0.9996 * N * (c * d) * east_factor d (c ^ 2) p + 500000
  ∧ @utm_northing R _ M N t (t * t) (p * c * c) A
    = 0.9996 * (M + N * s * c * d ^ 2 * north_factor d (c ^ 2) p).
Proof.
  intros Hc Hs Hp t A. assert (s ^ 2 = 1 - c ^ 2) as Hs' by lra.
  unfold utm_easting, utm_northing. destruct constants as (-> & _). rewrite <- Hp, !int_R.
  cbn [add sub mul div reals]. cbv zeta. unfold east_factor, north_factor. rewrite <- Hs'.
  replace (2 * c ^ 2 - 1) with (c ^ 2 - s ^ 2) by lra. replace (6 * c ^ 2 - 1) with (5 * c ^ 2 - s ^ 2) by lra.
  unfold t, A. split; field; lra.
Qed.

Lemma mul_bounds x w X l h : 0 <= x <= X → l <= w <= h → l <= 0 <= h → X * l <= x * w <= X * h.
Proof. intros. split; nra. Qed.

Lemma factor_bounds d u p :
  - 0.105 <= d <= 0.105 → 0 <= u <= 1 → 0 <= p <= 0.0068 →
  0 <= east_factor d u p <= 1.003 ∧ 0 <= north_factor d u p <= 0.51.
Proof.
  intros Hd Hu Hp. unfold east_factor, north_factor.
  assert (0 <= d ^ 2 <= 0.011026) as Hd2 by nra.
  assert (0 <= d ^ 4 <= 0.000122) as Hd4 by (replace (d ^ 4) with (d ^ 2 * d ^ 2) by ring; nra).
  assert (0 <= u ^ 2 <= 1) as Hu2 by nra. assert (0 <= p * u <= 0.0068) as Hpu by nra.
  assert (0 <= p * u ^ 2 <= 0.0068) as Hpu2 by nra.
  assert (0 <= u * (1 - u) <= 1) as Huu by nra. assert (0 <= (1 - u) ^ 2 <= 1) as Hvv by nra.
  assert (-1 <= 2 * u - 1 + p * u ^ 2 <= 1.0068) as H1 by lra.
  assert (-19 <= 5 * u ^ 2 - 18 * u * (1 - u) + (1 - u) ^ 2 + (72 * p * u - 58 * p) * u ^ 2 <= 7) as H2 by nra.
  assert (-1 <= 6 * u - 1 + (9 * p * u + 4 * (p * u) ^ 2) * u <= 6) as H3 by nra.
  assert (-61 <= 61 * u ^ 2 - 58 * u * (1 - u) + (1 - u) ^ 2 + (600 * p * u - 330 * p) * u ^ 2 <= 70) as H4 by nra.
  generalize dependent (2 * u - 1 + p * u ^ 2).
  generalize dependent (5 * u ^ 2 - 18 * u * (1 - u) + (1 - u) ^ 2 + (72 * p * u - 58 * p) * u ^ 2).
  generalize dependent (6 * u - 1 + (9 * p * u + 4 * (p * u) ^ 2) * u).
  generalize dependent (61 * u ^ 2 - 58 * u * (1 - u) + (1 - u) ^ 2 + (600 * p * u - 330 * p) * u ^ 2).
  intros w4 H4 w3 H3 w2 H2 w1 H1. generalize dependent (d ^ 2). generalize dependent (d ^ 4).
  intros a Ha b Hb.
  pose proof (mul_bounds b w1 _ _ _ Hb H1 ltac:(lra)). pose proof (mul_bounds b w3 _ _ _ Hb H3 ltac:(lra)).
  pose proof (mul_bounds a w2 _ _ _ Ha H2 ltac:(lra)). pose proof (mul_bounds a w4 _ _ _ Ha H4 ltac:(lra)). lra.
Qed.

(** The meridian's length grows with the latitude, almost as it does on a sphere. *)
Lemma meridian_R phi :
  0 <= phi → 0 <= @meridian R _ _ phi <= 6420000 * phi ∧ - 6420000 * phi <= @meridian R _ _ (- phi) <= 0.
Proof.
  intros Hphi. destruct constants as (_ & Ha & He & _). unfold meridian. rewrite Ha, !int_R.
  cbn [add sub mul div Math_sin reals reals_math]. generalize dependent (@utm_e2 R _). intros e He. cbv zeta.
  assert (∀ x, 0 <= x → - x <= sin x <= x) as Hs.
  { intros x Hx. pose proof (abs_sin_le x) as H. by rewrite Rabs_pos_eq in H. }
  assert (∀ k, sin (k * - phi) = - sin (k * phi)) as Hn
    by (intros k; rewrite <- sin_neg; f_equal; ring).
  rewrite !Hn. pose proof (Hs (2 * phi) ltac:(lra)) as H2. pose proof (Hs (4 * phi) ltac:(lra)) as H4.
  pose proof (Hs (6 * phi) ltac:(lra)) as H6. clear Hs Hn Ha.
  assert (0 <= e * e <= 0.00004489) as Hee by nra. assert (0 <= e * e * e <= 0.0000004) as Heee by nra.
  set (w1 := 1 - e / 4 - 3 * e * e / 64 - 5 * e * e * e / 256).
  set (w2 := 3 * e / 8 + 3 * e * e / 32 + 45 * e * e * e / 1024).
  set (w4 := 15 * e * e / 256 + 45 * e * e * e / 1024). set (w6 := 35 * e * e * e / 3072).
  assert (0.99 <= w1 <= 1) as Hw1 by (unfold w1; lra). assert (0 <= w2 <= 0.0026) as Hw2 by (unfold w2; lra).
  assert (0 <= w4 <= 0.00001) as Hw4 by (unfold w4; lra). assert (0 <= w6 <= 0.00001) as Hw6 by (unfold w6; lra).
  clearbody w1 w2 w4 w6.
  generalize dependent (sin (2 * phi)). generalize dependent (sin (4 * phi)). generalize dependent (sin (6 * phi)).
  intros s6 H6 s4 H4 s2 H2.
  assert (0.99 * phi <= w1 * phi <= phi) by nra.
  assert (- 0.0026 * (2 * phi) <= w2 * s2 <= 0.0026 * (2 * phi)) by nra.
  assert (- 0.00001 * (4 * phi) <= w4 * s4 <= 0.00001 * (4 * phi)) by nra.
  assert (- 0.00001 * (6 * phi) <= w6 * s6 <= 0.00001 * (6 * phi)) by nra.
  clear -H H0 H1 H3 Hphi. lra.
Qed.

(** The radius of curvature. *)
Lemma radius_R s :
  -1 <= s <= 1 →
  0 <= div (@utm_a R _) (Math_sqrt (sub (int 1) (mul (mul utm_e2 s) s))) <= 6400000.
Proof.
  intros Hs. destruct constants as (_ & -> & He & _). rewrite int_R.
  cbn [sub mul div Math_sqrt reals reals_math]. generalize dependent (@utm_e2 R _). intros e He.
  assert (0 <= s * s <= 1) as Hss by nra. assert (0.9933 <= 1 - e * s * s <= 1) as Hr by nra.
  assert (0.9966 <= sqrt (1 - e * s * s)) as Hq.
  { rewrite <- (sqrt_square 0.9966) by lra. apply sqrt_le_1; lra. }
  split; [apply Rle_mult_inv_pos; lra|].
  apply (Rmult_le_reg_r (sqrt (1 - e * s * s))); [lra|].
  replace (6378137 / sqrt (1 - e * s * s) * sqrt (1 - e * s * s)) with 6378137 by (field; lra). lra.
Qed.

(** North of 56 degrees the wider zones are narrow enough. *)
Lemma cos_56 phi : 56 * (PI / 180) <= phi <= 84 * (PI / 180) → cos phi <= 0.562.
Proof.
  intros Hphi. pose proof PI_bounds as HP.
  pose proof (cos_decr_1 0.9768 phi ltac:(lra) ltac:(lra) ltac:(lra) ltac:(lra) ltac:(lra)) as Hd.
  pose proof (cos_bound 0.9768 0 ltac:(lra) ltac:(lra)) as [_ Hc].
  unfold cos_approx, cos_term in Hc. cbn in Hc. lra.
Qed.

(** [A] and the factors of a position: the easting stays 120 km within the zone's eight
    columns, and the northing is not negative. *)
Lemma projection_bounds s c d p N M phi :
  0 < c <= 1 → s ^ 2 + c ^ 2 = 1 → p = @utm_ep2 R _ → 0 <= N <= 6400000 →
  -0.105 <= d <= 0.105 → -0.0592 <= c * d <= 0.0592 →
  120000 <= @utm_easting R _ N (s / c * (s / c)) (p * c * c) (c * d) <= 880000
  ∧ (0 <= s → 0 <= M → 0 <= @utm_northing R _ M N (s / c) (s / c * (s / c)) (p * c * c) (c * d))
  ∧ (s <= 0 → 0 <= phi → - 6420000 * phi <= M → 
     - 6420000 * phi - 20300 <= @utm_northing R _ M N (s / c) (s / c * (s / c)) (p * c * c) (c * d)).
Proof.
  intros Hc Hs Hp HN Hd Hcd.
  destruct (series_factors s c d p N M (proj1 Hc) Hs Hp) as [-> ->].
  assert (0 <= c ^ 2 <= 1) as Hu by nra. assert (-1 <= s <= 1) as Hs1 by nra.
  assert (0 <= p <= 0.0068) as Hpb by (rewrite Hp; apply constants).
  destruct (factor_bounds d (c ^ 2) p Hd Hu Hpb) as [Hg Hh].
  generalize dependent (east_factor d (c ^ 2) p). generalize dependent (north_factor d (c ^ 2) p).
  intros h Hh g Hg.
  pose proof (mul_bounds N (c * d) _ _ _ HN Hcd ltac:(lra)) as H1.
  pose proof (mul_bounds g (N * (c * d)) _ _ _ Hg H1 ltac:(lra)) as H2.
  split; [lra|].
  assert (0 <= c * d ^ 2 <= 0.105 * 0.0592) as Hcd2.
  { split; [nra|]. replace (c * d ^ 2) with ((c * d) * d) by ring. generalize dependent (c * d). intros; nra. }
  pose proof (mul_bounds h (c * d ^ 2) 0.51 0 (0.105 * 0.0592) Hh Hcd2 ltac:(lra)) as H3.
  pose proof (mul_bounds N (h * (c * d ^ 2)) _ _ _ HN H3 ltac:(lra)) as H4.
  replace (N * s * c * d ^ 2 * h) with (s * (N * (h * (c * d ^ 2)))) by ring.
  generalize dependent (N * (h * (c * d ^ 2))). intros k Hk. split; intros; nra.
Qed.

(** The projection of a position in range. *)
Lemma latLonToUTM_R (lat lon : R) :
  in_range lat lon →
  ∃ easting northing, latLonToUTM lat lon = (utmZone lat lon, easting, northing)
    ∧ 120000 <= easting <= 880000 ∧ 0 <= northing.
Proof.
  intros Hr. destruct (utmZone_R lat lon Hr) as (_ & Hd & Hd'). destruct Hr as [Hlat _].
  pose proof PI_bounds as HP. unfold latLonToUTM. cbv zeta. eexists _, _. split; [done|].
  unfold DEG2RAD. rewrite !int_R. cbn [mul sub div add Math_sin Math_cos Math_tan Math_PI reals reals_math].
  set (phi := lat * (PI / 180)). generalize dependent (IZR ((utmZone lat lon - 1) * 6 - 180 + 3)). intros l0 Hd Hd'.
  replace (lon * (PI / 180) - l0 * (PI / 180)) with ((lon - l0) * (PI / 180)) by ring.
  set (d := (lon - l0) * (PI / 180)).
  assert (0.017 <= PI / 180 <= 0.0175) as Hk by lra.
  assert (-80 * (PI / 180) <= phi <= 84 * (PI / 180)) as Hphi
    by (split; apply Rmult_le_compat_r; lra).
  assert (-0.105 <= d <= 0.105) as Hd1 by (unfold d; nra).
  assert (0 < cos phi) as Hc by (apply cos_gt_0; lra).
  pose proof (COS_bound phi) as Hc1. pose proof (SIN_bound phi) as Hs1.
  pose proof (sin2_cos2 phi) as Hsc. rewrite !Rsqr_pow2 in Hsc.
  assert (-0.0592 <= cos phi * d <= 0.0592) as Hcd.
  { destruct (Rlt_dec lat 56) as [Hl|Hl].
    - specialize (Hd' Hl). assert (-0.0525 <= d <= 0.0525) by (unfold d; nra). nra.
    - assert (56 * (PI / 180) <= phi) as Hp56 by (apply Rmult_le_compat_r; lra).
      pose proof (cos_56 phi (conj Hp56 (proj2 Hphi))). nra. }
  pose proof (radius_R (sin phi) Hs1) as HN. rewrite int_R in HN. cbn [sub mul div Math_sqrt reals reals_math] in HN.
  change (tan phi) with (sin phi / cos phi).
  destruct (projection_bounds (sin phi) (cos phi) d utm_ep2 _ (meridian phi) (- phi)
    ltac:(lra) Hsc eq_refl HN Hd1 Hcd) as (He & Hn & Hs).
  split; [exact He|]. destruct (lt lat 0) eqn:E; [apply lt_R in E|apply nlt_R in E].
  - assert (- 1.4 <= phi <= 0) as Hphi' by (split; [lra|unfold phi; nra]).
    assert (sin phi <= 0) as Hneg.
    { pose proof (sin_ge_0 (- phi) ltac:(lra) ltac:(lra)). rewrite sin_neg in *. lra. }
    destruct (meridian_R (- phi) ltac:(lra)) as [_ [Hm _]]. rewrite Ropp_involutive in Hm.
    specialize (Hs Hneg ltac:(lra) Hm). match type of Hs with _ <= ?n => change (0 <= n + 10000000) end. lra.
  - assert (0 <= phi <= 1.48) as Hphi' by (split; [unfold phi; nra|lra]).
    destruct (meridian_R phi ltac:(lra)) as [[Hm _] _]. apply Hn; [apply sin_ge_0; lra|done].
Qed.

(** C30: Over the real numbers, with no rounding: a position gets a reference exactly
    when its latitude is in [-80, 84), its longitude in [-180, 180) and the precision 1
    to 5.  The zone is then 1 to 60, the series gives an easting within the zone's
    eight columns, 20 km from their ends at least, and a northing that is not negative;
    reading the reference back gives the zone, the band, and their whole metres (the
    northing up to the 2000 km after which the row letters repeat) truncated to the
    precision.  On doubles a sum may round up to the next zone or band. *)
Theorem mgrs_reference (lat lon : R) (precision : Z) :
  (in_range lat lon ∧ (1 ≤ precision ≤ 5)%Z →
     ∃ zone band easting northing s,
       latLonToUTM lat lon = (zone, easting, northing) ∧ latBand lat = Some band
       ∧ (1 ≤ zone ≤ 60)%Z ∧ (120000 <= easting <= 880000)%R ∧ (0 <= northing)%R
       ∧ latLonToMGRS (Some lat) (Some lon) precision = Some s
       ∧ read_mgrs s = Some (square_of zone band (Int_part easting) (Int_part northing) precision))
  ∧ (¬ (in_range lat lon ∧ (1 ≤ precision ≤ 5)%Z) → latLonToMGRS (Some lat) (Some lon) precision = None).
Proof.
  unfold latLonToMGRS. cbn [negb isFinite reals_math orb]. rewrite !int_R. split.
  - intros [Hr Hp]. destruct (latLonToUTM_R lat lon Hr) as (e & n & Hu & He & Hn). rewrite Hu.
    destruct (utmZone_R lat lon Hr) as [Hz _]. destruct (latBand_R lat (proj1 Hr)) as [band Hb].
    assert (∃ k : nat, precision = Z.of_nat k ∧ 1 ≤ k ≤ 5) as (k & -> & Hk)
      by (exists (Z.to_nat precision); lia).
    destruct (utmToMGRS_read (utmZone lat lon) e n lat band (Int_part e) (Int_part n) k) as (s & Hs & Hrd); try done.
    + apply metres_R. lra.
    + by apply metres_R.
    + split; [apply le_IZR|apply lt_IZR]; pose proof (base_Int_part e); [|lra].
      apply Rnot_lt_le. intros Hlt%lt_IZR. assert (IZR (Int_part e) <= 99999)%R by (apply IZR_le; lia). lra.
    + pose proof (base_Int_part n). apply Z.lt_succ_r, lt_IZR. rewrite succ_IZR. lra.
    + destruct Hr as [Hlat Hlon].
      rewrite (proj2 (nlt_R lat _)), (proj2 (nle_R _ lat)), (proj2 (nlt_R lon _)), (proj2 (nle_R _ lon)) by lra.
      rewrite (proj2 (Z.ltb_ge _ 1)), (proj2 (Z.ltb_ge 5 _)), Nat2Z.id by lia. cbn [orb].
      by exists (utmZone lat lon), band, e, n, s.
  - intros Hout. destruct (lt lat _) eqn:E1; [done|]. destruct (le _ lat) eqn:E2; [done|].
    destruct (lt lon _) eqn:E3; [done|]. destruct (le _ lon) eqn:E4; [done|]. cbn [orb].
    destruct (Z.ltb_spec precision 1), (Z.ltb_spec 5 precision); cbn [orb]; try done.
    apply nlt_R in E1, E3. apply nle_R in E2, E4. exfalso. apply Hout. split; [done|lia].
Qed.

(** Washington, 38.9 N 77.04 W: zone 18, band S, to 10 metres. *)
Lemma mgrs_reference_witness :
  ∃ easting northing s,
    latLonToUTM 38.9 (-77.04) = (18%Z, easting, northing)
    ∧ latLonToMGRS (Some 38.9) (Some (-77.04)) 4 = Some s
    ∧ read_mgrs s = Some (square_of 18 "S" (Int_part easting) (Int_part northing) 4).
Proof.
  destruct (proj1 (mgrs_reference 38.9 (-77.04) 4) ltac:(split; [split; lra|lia]))
    as (zone & band & e & n & s & Hu & Hb & _ & _ & _ & Hs & Hr).
  assert (zone = 18%Z) as ->.
  { assert (zone = utmZone 38.9 (-77.04)) as -> by (unfold latLonToUTM in Hu; by injection Hu).
    assert (∀ a b, 39 <= IZR a → within a 38.9 b = false) as Hw.
    { intros a b Ha. unfold within. rewrite (proj2 (nle_R _ _)); [done|]. rewrite int_R. lra. }
    unfold utmZone. rewrite !Hw by lra. cbn [andb].
    assert (floor (div (add (-77.04) (int 180)) (int 6)) = 17%Z) as ->; [|done].
    apply floor_R. rewrite !int_R. cbn [add div reals]. lra. }
  assert (band = "S"%char) as ->.
  { revert Hb. unfold latBand. rewrite !int_R, (proj2 (nlt_R _ _)), (proj2 (nle_R 84 _)), (proj2 (nle_R 72 _)) by lra.
    cbn [orb]. assert (floor (div (add 38.9 80) 8) = 14%Z) as ->; [|by intros [= <-]].
    apply floor_R. cbn [add div reals]. lra. }
  by exists e, n, s.
Defined.

End reals.
