(* ===== verification/Wireless.v ===== *)
(** [pages/SettingsWireless.jsx] and [pages/SettingsWireless.power.js]: the
    radio cards of the wireless settings and the join flow of a scanned code.

    A [RadioCard] holds a draft of its radio's settings; the page holds the
    scan, fills the drafts from it and sends what the operator reviewed.  The
    page's [cards] state mirrors each card's draft and options after every
    commit, so the model reads them from the cards.  What is rendered, and the
    tables of stations, are in [WirelessView]. *)
From S2P Require Import Prelude JsString MeshJoin.
Open Scope js_scope.

(** ** Transmit power *)

Inductive power_level := Low | Medium | High | Max.
#[export] Instance power_level_eq_dec : EqDecision power_level.
Proof. solve_decision. Defined.

Definition POWER_LEVELS : list (power_level * Z) :=
  [(Low, 10%Z); (Medium, 17%Z); (High, 23%Z); (Max, 30%Z)].

(** One turn of the loop of [dBmToLevel]: the later level wins a tie. *)
Definition closer (dBm : Z) (best p : power_level * Z) : power_level * Z :=
  if (Z.abs (dBm - p.2) <=? Z.abs (dBm - best.2))%Z then p else best.

(** [None] is a reading that is missing. *)
Definition dBmToLevel (dBm : option Z) : power_level :=
  match dBm with
  | None => Medium
  | Some d => (foldl (closer d) (Low, 10%Z) POWER_LEVELS).1
  end.

Definition levelToDbm (level : power_level) : Z :=
  match List.find (λ p, bool_decide (p.1 = level)) POWER_LEVELS with
  | Some p => p.2
  | None => 17
  end.

(** ** Radio settings *)

Definition BAND_S1G : Z := 4.
Definition MESH_RSSI_DEFAULT_DBM : Z := -80.

Inductive WifiMode := MODE_UNSPECIFIED | AP | MESH | STA | ADHOC | MONITOR.
#[export] Instance WifiMode_eq_dec : EqDecision WifiMode.
Proof. solve_decision. Defined.

Definition isMeshMode (m : WifiMode) : bool := bool_decide (m = MESH).

(** [RadioSettings]; the optional fields of the message are options. *)
Record settings := mk_settings {
  s_ssid : string; s_meshId : option string; s_password : option string; s_channel : string;
  s_bandwidth : WifiHTMode; s_txPower : Z; s_country : option string;
  s_encryption : WifiEncryption; s_disabled : option bool; s_mode : WifiMode;
  s_meshRssiThreshold : option Z
}.
#[export] Instance settings_eq_dec : EqDecision settings.
Proof. solve_decision. Defined.

Record radio_status := { st_active : bool; st_txPower : Z }.

Record avail_opts := {
  av_channels : list string; av_bandwidths : list WifiHTMode; av_encryptions : list WifiEncryption
}.
Definition no_opts : avail_opts := {| av_channels := []; av_bandwidths := []; av_encryptions := [] |}.

Definition set_txPower (v : Z) (s : settings) : settings :=
  mk_settings (s_ssid s) (s_meshId s) (s_password s) (s_channel s) (s_bandwidth s) v
    (s_country s) (s_encryption s) (s_disabled s) (s_mode s) (s_meshRssiThreshold s).

Definition seedTxPowerForDisplay (s : option settings) (status : option radio_status)
    : option settings :=
  match s with
  | None => None
  | Some s =>
      if (0 <? s_txPower s)%Z then Some s
      else
        match status with
        | Some st =>
            if (0 <? st_txPower st)%Z
            then Some (set_txPower (levelToDbm (dBmToLevel (Some (st_txPower st)))) s)
            else Some (set_txPower (levelToDbm Medium) s)
        | None => Some (set_txPower (levelToDbm Medium) s)
        end
  end.

(** The comparison behind the Save button. *)
Definition settings_equiv (a b : settings) : Prop :=
  s_ssid a = s_ssid b
  ∧ (s_meshId a ?? "") = (s_meshId b ?? "")
  ∧ (s_password a ?? "") = (s_password b ?? "")
  ∧ s_channel a = s_channel b
  ∧ s_bandwidth a = s_bandwidth b
  ∧ s_txPower a = s_txPower b
  ∧ (s_country a ?? "") = (s_country b ?? "")
  ∧ s_encryption a = s_encryption b
  ∧ (s_disabled a ?? false) = (s_disabled b ?? false)
  ∧ s_mode a = s_mode b
  ∧ s_meshRssiThreshold a = s_meshRssiThreshold b.
#[export] Instance settings_equiv_dec a b : Decision (settings_equiv a b).
Proof. unfold settings_equiv. apply _. Defined.

Definition settingsEqual (a b : option settings) : bool :=
  match a, b with
  | Some a, Some b => bool_decide (settings_equiv a b)
  | None, None => true
  | _, _ => false
  end.

Record fields := {
  f_mode : WifiMode; f_meshId : string; f_ssid : string; f_password : string;
  f_encryption : WifiEncryption; f_channel : string; f_bandwidth : WifiHTMode;
  f_country : string; f_disabled : bool
}.

Definition fieldsFromCredentials (c : MeshCredentials) (av : avail_opts) : fields :=
  {| f_mode := MESH; f_meshId := meshId c; f_ssid := meshId c; f_password := passphrase c;
     f_encryption := encryption c; f_channel := pretty (channel c);
     f_bandwidth := htModeForBandwidth (bandwidthMhz c) (av_bandwidths av);
     f_country := countryCode c; f_disabled := false |}.

(** [{ ...prev, ...prefill.fields }] *)
Definition merge_fields (f : fields) (prev : settings) : settings :=
  mk_settings (f_ssid f) (Some (f_meshId f)) (Some (f_password f)) (f_channel f) (f_bandwidth f)
    (s_txPower prev) (Some (f_country f)) (f_encryption f) (Some (f_disabled f)) (f_mode f)
    (s_meshRssiThreshold prev).

Definition or_zero (n : option Z) : Z := n ?? 0%Z.

Definition credentialsFromDraft (draft : option settings) : MeshCredentials :=
  match draft with
  | None => Build_MeshCredentials "" "" ENC_UNSPECIFIED 0 0 ""
  | Some d =>
      {| meshId := s_meshId d ?? ""; passphrase := s_password d ?? "";
         encryption := s_encryption d; bandwidthMhz := bandwidthMhzForHTMode (s_bandwidth d);
         channel := or_zero (Number_of_string (s_channel d));
         countryCode := toUpperCase (s_country d ?? "") |}
  end.

(** ** A radio card *)

Record radio := { r_name : string; r_band : Z }.
Definition isS1G (r : radio) : bool := bool_decide (r_band r = BAND_S1G).

Record card := mk_card {
  status : option radio_status; original : option settings; draft : option settings;
  availOpts : avail_opts; loading : bool; saving : bool; card_error : option string;
  success : bool; appliedPrefillNonce : option Z; reload_timers : nat
}.

(** The card of the first render; [loadCard] has begun. *)
Definition RadioCard : card := mk_card None None None no_opts true false None false None 0.

Definition set_draft (d : option settings) (c : card) : card :=
  mk_card (status c) (original c) d (availOpts c) (loading c) (saving c) (card_error c)
    (success c) (appliedPrefillNonce c) (reload_timers c).
Definition set_loading (b : bool) (c : card) : card :=
  mk_card (status c) (original c) (draft c) (availOpts c) b (saving c) (card_error c)
    (success c) (appliedPrefillNonce c) (reload_timers c).
Definition set_messages (e : option string) (ok : bool) (c : card) : card :=
  mk_card (status c) (original c) (draft c) (availOpts c) (loading c) (saving c) e ok
    (appliedPrefillNonce c) (reload_timers c).
Definition set_saving (b : bool) (c : card) : card :=
  mk_card (status c) (original c) (draft c) (availOpts c) (loading c) b (card_error c)
    (success c) (appliedPrefillNonce c) (reload_timers c).
Definition set_nonce (n : Z) (c : card) : card :=
  mk_card (status c) (original c) (draft c) (availOpts c) (loading c) (saving c) (card_error c)
    (success c) (Some n) (reload_timers c).
Definition set_timers (n : nat) (c : card) : card :=
  mk_card (status c) (original c) (draft c) (availOpts c) (loading c) (saving c) (card_error c)
    (success c) (appliedPrefillNonce c) n.

(** [loadCard] up to its calls, and once both have settled ([None]: rejected). *)
Definition loadCard (c : card) : card := set_loading true c.

Definition load_settled (statusRes : option (option radio_status))
    (settingsRes : option (option settings * avail_opts)) (c : card) : card :=
  let statusVal := statusRes ≫= id in
  let c := match statusVal with
           | Some st => mk_card (Some st) (original c) (draft c) (availOpts c) (loading c)
                          (saving c) (card_error c) (success c) (appliedPrefillNonce c)
                          (reload_timers c)
           | None => c
           end in
  let c := match settingsRes with
           | Some (s, av) =>
               let s := seedTxPowerForDisplay s statusVal in
               mk_card (status c) s s av (loading c) (saving c) (card_error c) (success c)
                 (appliedPrefillNonce c) (reload_timers c)
           | None => c
           end in
  set_loading false (set_messages None (success c) c).

(** [update(field, value)] from the card's controls. *)
Inductive edit :=
| ESsid (s : string) | EMeshId (s : string) | EPassword (s : string) | EChannel (s : string)
| EBandwidth (m : WifiHTMode) | EEncryption (e : WifiEncryption) | ECountry (s : string)
| EThreshold (t : option Z) | ETxPower (dBm : Z) | EDisabled (b : bool).

Definition update (e : edit) (s : settings) : settings :=
  let '(mk_settings ssid mid pw ch bw tx co enc dis mode thr) := s in
  match e with
  | ESsid v => mk_settings v mid pw ch bw tx co enc dis mode thr
  | EMeshId v => mk_settings ssid (Some v) pw ch bw tx co enc dis mode thr
  | EPassword v => mk_settings ssid mid (Some v) ch bw tx co enc dis mode thr
  | EChannel v => mk_settings ssid mid pw v bw tx co enc dis mode thr
  | EBandwidth v => mk_settings ssid mid pw ch v tx co enc dis mode thr
  | EEncryption v => mk_settings ssid mid pw ch bw tx co v dis mode thr
  | ECountry v => mk_settings ssid mid pw ch bw tx (Some (toUpperCase v)) enc dis mode thr
  | EThreshold v => mk_settings ssid mid pw ch bw tx co enc dis mode v
  | ETxPower v => mk_settings ssid mid pw ch bw v co enc dis mode thr
  | EDisabled v => mk_settings ssid mid pw ch bw tx co enc (Some v) mode thr
  end.

Definition stored_floor (original : option settings) : option Z := original ≫= s_meshRssiThreshold.

Definition updateMode (original : option settings) (newMode : WifiMode) (prev : settings) : settings :=
  if isMeshMode newMode then
    mk_settings (s_ssid prev)
      (if decide (s_meshId prev ?? "" = "") then Some (s_ssid prev) else s_meshId prev)
      (s_password prev) (s_channel prev) (s_bandwidth prev) (s_txPower prev) (s_country prev) SAE
      (s_disabled prev) newMode
      (match s_meshRssiThreshold prev with
       | None => Some (stored_floor original ?? MESH_RSSI_DEFAULT_DBM)
       | t => t
       end)
  else
    mk_settings (s_ssid prev) (s_meshId prev) (s_password prev) (s_channel prev)
      (s_bandwidth prev) (s_txPower prev) (s_country prev) (s_encryption prev) (s_disabled prev)
      newMode (stored_floor original).

(** The payload of [save]. *)
Definition save_payload (original : option settings) (draft : settings) : settings :=
  let ssid := match s_meshId draft with
              | Some m => if isMeshMode (s_mode draft) && negb (bool_decide (m = "")) then m
                          else s_ssid draft
              | None => s_ssid draft
              end in
  mk_settings ssid (s_meshId draft) (s_password draft) (s_channel draft) (s_bandwidth draft)
    (s_txPower draft) (s_country draft) (s_encryption draft) (s_disabled draft) (s_mode draft)
    (if decide (s_meshRssiThreshold draft = stored_floor original) then None
     else s_meshRssiThreshold draft).

(** The rest of [save], and the timer it leaves. *)
Definition save_settled (r : option string) (c : card) : card :=
  set_saving false
    (match r with
     | None => set_timers (S (reload_timers c)) (set_messages (card_error c) true c)
     | Some e => set_messages (Some e) (success c) c
     end).

Definition cancel (c : card) : card := set_messages None false (set_draft (original c) c).

(** What the card renders. *)
Definition dirty (c : card) : bool := negb (settingsEqual (original c) (draft c)).
Definition mesh_card (c : card) : bool :=
  match draft c with Some d => isMeshMode (s_mode d) | None => false end.
Definition showFloor (r : radio) (c : card) : bool := mesh_card c && negb (isS1G r).

(** ** The page *)

Record join_state := {
  j_source : string; j_halowRadio : string; j_backhaulRadio : string; j_hasBackhaul : bool;
  j_nonce : Z; j_prefills : list (string * fields)
}.

Record join_request := {
  jr_source : string; jr_halow : MeshCredentials; jr_backhaul : option MeshCredentials;
  jr_halowRadio : string; jr_backhaulRadio : string
}.

Record joinStatus := { busy : bool; ok : bool; join_error : option string }.
Definition join_idle : joinStatus := {| busy := false; ok := false; join_error := None |}.

Record wireless := mk_wireless {
  radios : list radio; page_loading : bool; cards : gmap string card; join : option join_state;
  joinStatus_of : joinStatus; refreshKey : nat;
  join_requests : list join_request;            (* applyMeshJoin calls *)
  join_pending : nat;                           (* the ones not answered *)
  saves : list (string * settings)              (* updateRadioSettings calls *)
}.

Definition SettingsWireless : wireless := mk_wireless [] true ∅ None join_idle 0 [] 0 [].

Definition set_cards (cs : gmap string card) (p : wireless) : wireless :=
  mk_wireless (radios p) (page_loading p) cs (join p) (joinStatus_of p) (refreshKey p)
    (join_requests p) (join_pending p) (saves p).
Definition set_join (j : option join_state) (st : joinStatus) (p : wireless) : wireless :=
  mk_wireless (radios p) (page_loading p) (cards p) j st (refreshKey p) (join_requests p) (join_pending p) (saves p).
Definition bump_refresh (p : wireless) : wireless :=
  mk_wireless (radios p) (page_loading p) (cards p) (join p) (joinStatus_of p) (S (refreshKey p))
    (join_requests p) (join_pending p) (saves p).

(** The order of [radios.sort]: S1G first, then by band; the sort is stable. *)
Definition radio_before (a b : radio) : bool :=
  if isS1G a && negb (isS1G b) then true
  else if isS1G b && negb (isS1G a) then false
  else (r_band a <=? r_band b)%Z.

Fixpoint insert_radio (r : radio) (l : list radio) : list radio :=
  match l with
  | [] => [r]
  | x :: l' => if radio_before r x then r :: l else x :: insert_radio r l'
  end.
Definition sort_radios (l : list radio) : list radio := foldr insert_radio [] l.

(** [fetchRadios]: each radio's card mounts and loads. *)
Definition radios_settled (r : list radio + string) (p : wireless) : wireless :=
  match r with
  | inl rs =>
      let rs := sort_radios rs in
      mk_wireless rs false
        (list_to_map (map (λ r, (r_name r, cards p !! r_name r ?? RadioCard)) rs)) (join p)
        (joinStatus_of p) (refreshKey p) (join_requests p) (join_pending p) (saves p)
  | inr _ =>
      mk_wireless (radios p) false (cards p) (join p) (joinStatus_of p) (refreshKey p)
        (join_requests p) (join_pending p) (saves p)
  end.

(** [cards[name]?.draft] and [cards[name]?.availOpts]. *)
Definition draft_of (p : wireless) (name : string) : option settings := cards p !! name ≫= draft.
Definition opts_of (p : wireless) (name : string) : avail_opts := (availOpts <$> cards p !! name) ?? no_opts.

Definition is_mesh_draft (p : wireless) (name : string) : bool :=
  match draft_of p name with Some d => isMeshMode (s_mode d) | None => false end.

Definition halowRadio (p : wireless) : option radio := List.find isS1G (radios p).
Definition backhaulRadio (p : wireless) : option radio :=
  List.find (λ r, negb (isS1G r) && is_mesh_draft p (r_name r)) (radios p).

(** A scanned payload that decoded, so with its HaLow credentials. *)
Definition handleDecoded (payload : MeshJoinPayload) (now : Z) (p : wireless) : wireless :=
  match halow payload with
  | None => p
  | Some hc =>
      let prefill := λ r c, (r_name r, fieldsFromCredentials c (opts_of p (r_name r))) in
      let prefills :=
        (match halowRadio p with Some r => [prefill r hc] | None => [] end)
        ++ (match backhaul payload, backhaulRadio p with
            | Some c, Some r => [prefill r c]
            | _, _ => []
            end) in
      set_join
        (Some {| j_source := sourceHostname payload;
                 j_halowRadio := (r_name <$> halowRadio p) ?? "";
                 j_backhaulRadio := (r_name <$> backhaulRadio p) ?? "";
                 j_hasBackhaul := bool_decide (is_Some (backhaul payload));
                 j_nonce := now; j_prefills := prefills |})
        join_idle p
  end.

Fixpoint assoc {A} (k : string) (l : list (string * A)) : option A :=
  match l with
  | [] => None
  | (k', v) :: l' => if decide (k = k') then Some v else assoc k l'
  end.

(** The effect of [RadioCard] on its [prefill]. *)
Definition prefill_effect (j : option join_state) (name : string) (c : card) : card :=
  match j with
  | None => c
  | Some j =>
      match assoc name (j_prefills j), draft c with
      | Some f, Some d =>
          if decide (appliedPrefillNonce c = Some (j_nonce j)) then c
          else set_nonce (j_nonce j) (set_draft (Some (merge_fields f d)) c)
      | _, _ => c
      end
  end.

(** The options a draft is checked against: [Number] of the channels, the
    non-zero widths of the modes. *)
Definition issue_opts (p : wireless) (name : string) (halow : bool) : check_opts :=
  {| isHalow := halow;
     bandwidths := filter (λ w, w ≠ 0%Z)
                     (bandwidthMhzForHTMode <$> av_bandwidths (opts_of p name));
     channels := Number_of_string <$> av_channels (opts_of p name);
     countries := []; countryMaxLen := 2 |}.

Definition check_radio (p : wireless) (name : string) (halow : bool) : list string :=
  match draft_of p name with
  | None => [(name ++ ": still loading - wait a moment")%string]
  | Some d =>
      map (λ i, (name ++ ": " ++ i_message i)%string)
        (checkMeshCredentials (Some (credentialsFromDraft (Some d))) (issue_opts p name halow))
  end.

Definition issues (p : wireless) : list string :=
  match join p with
  | None => []
  | Some j =>
      (if bool_decide (j_halowRadio j = "") then [] else check_radio p (j_halowRadio j) true)
      ++ (if bool_decide (j_backhaulRadio j = "") then []
          else check_radio p (j_backhaulRadio j) false)
  end.

(** [doJoin] up to its call; its own guards come first. *)
Definition join_request_of (p : wireless) : option join_request :=
  match join p with
  | None => None
  | Some j =>
      if decide (j_halowRadio j = "") then None
      else
        let halowDraft := draft_of p (j_halowRadio j) in
        let backhaulDraft := if decide (j_backhaulRadio j = "") then None
                             else draft_of p (j_backhaulRadio j) in
        match halowDraft with
        | None => None
        | Some _ =>
            if decide (j_backhaulRadio j ≠ "" ∧ backhaulDraft = None) then None
            else Some {| jr_source := j_source j; jr_halow := credentialsFromDraft halowDraft;
                         jr_backhaul := if decide (j_backhaulRadio j = "") then None
                                        else Some (credentialsFromDraft backhaulDraft);
                         jr_halowRadio := j_halowRadio j; jr_backhaulRadio := j_backhaulRadio j |}
        end
  end.

Definition doJoin (p : wireless) : wireless :=
  match join_request_of p with
  | None => p
  | Some r =>
      mk_wireless (radios p) (page_loading p) (cards p) (join p)
        {| busy := true; ok := false; join_error := None |} (refreshKey p)
        (join_requests p ++ [r]) (S (join_pending p)) (saves p)
  end.

Definition set_pending (n : nat) (p : wireless) : wireless :=
  mk_wireless (radios p) (page_loading p) (cards p) (join p) (joinStatus_of p) (refreshKey p)
    (join_requests p) n (saves p).

Definition join_settled (r : option string) (p : wireless) : wireless :=
  match r with
  | None => bump_refresh (set_join None {| busy := false; ok := true; join_error := None |} p)
  | Some e => set_join (join p) {| busy := false; ok := false; join_error := Some e |} p
  end.

Definition join_shown (p : wireless) : bool :=
  match join p with Some j => negb (bool_decide (j_halowRadio j = "")) | None => false end.
Definition join_enabled (p : wireless) : bool :=
  join_shown p && bool_decide (issues p = []) && negb (busy (joinStatus_of p)).

(** *** Events *)

Inductive event :=
| RadiosSettled (r : list radio + string)
| LoadSettled (name : string) (statusRes : option (option radio_status))
    (settingsRes : option (option settings * avail_opts))
| Edit (name : string) (e : edit)
| EditMode (name : string) (m : WifiMode)
| ToggleEnabled (name : string)
| ClickSave (name : string)
| SaveSettled (name : string) (r : option string)
| ReloadTimer (name : string)
| ClickCancel (name : string)
| ClickRefresh
| Decoded (payload : MeshJoinPayload) (now : Z)
| ClickJoin
| JoinSettled (r : option string).

Definition on_card (name : string) (f : card → card) (p : wireless) : wireless :=
  set_cards (alter f name (cards p)) p.

Definition on_draft (f : settings → settings) (c : card) : card := set_draft (f <$> draft c) c.

Definition radio_named (p : wireless) (name : string) : option radio :=
  List.find (λ r, bool_decide (r_name r = name)) (radios p).

(** A control of a card that has loaded and has a draft. *)
Definition editable (c : card) : bool := negb (loading c) && bool_decide (is_Some (draft c)).

Definition mode_control (p : wireless) (name : string) : bool :=
  match radio_named p name with Some r => negb (isS1G r) | None => false end.

Definition floor_control (p : wireless) (name : string) (c : card) : bool :=
  match radio_named p name with Some r => showFloor r c | None => false end.

(** The control of a field is rendered. *)
Definition edit_control (p : wireless) (name : string) (e : edit) (c : card) : bool :=
  editable c
  && match e with
     | EThreshold _ => floor_control p name c
     | EMeshId _ => mesh_card c
     | ESsid _ => negb (mesh_card c)
     | _ => true
     end.

Definition edit_card (p : wireless) (name : string) (e : edit) (c : card) : card :=
  if edit_control p name e c then on_draft (update e) c else c.

Definition edit_mode (p : wireless) (name : string) (m : WifiMode) (c : card) : card :=
  if editable c && mode_control p name then on_draft (updateMode (original c) m) c else c.

Definition toggleEnabled (c : card) : card :=
  if loading c then c
  else on_draft (λ d, update (EDisabled (negb (s_disabled d ?? false))) d) c.

(** [save] up to its call. *)
Definition click_save (name : string) (p : wireless) : wireless :=
  match cards p !! name with
  | Some c =>
      match draft c with
      | Some d =>
          if negb (loading c) && dirty c && negb (saving c) then
            mk_wireless (radios p) (page_loading p)
              (<[name := set_saving true (set_messages None false c)]> (cards p)) (join p)
              (joinStatus_of p) (refreshKey p) (join_requests p)
              (join_pending p) (saves p ++ [(name, save_payload (original c) d)])
          else p
      | None => p
      end
  | None => p
  end.

Definition reload_timer (c : card) : card :=
  match reload_timers c with
  | O => c
  | S n => loadCard (set_timers n c)
  end.

Definition handle (e : event) (p : wireless) : wireless :=
  match e with
  | RadiosSettled r => if page_loading p then radios_settled r p else p
  | LoadSettled name st se => on_card name (load_settled st se) p
  | Edit name e => on_card name (edit_card p name e) p
  | EditMode name m => on_card name (edit_mode p name m) p
  | ToggleEnabled name => on_card name toggleEnabled p
  | ClickSave name => click_save name p
  | SaveSettled name r => on_card name (λ c, if saving c then save_settled r c else c) p
  | ReloadTimer name => on_card name reload_timer p
  | ClickCancel name =>
      on_card name (λ c, if negb (loading c) && dirty c && negb (saving c) then cancel c else c) p
  | ClickRefresh => if page_loading p then p else bump_refresh p
  | Decoded payload now => if page_loading p then p else handleDecoded payload now p
  | ClickJoin => if join_enabled p then doJoin p else p
  | JoinSettled r =>
      match join_pending p with
      | O => p
      | S n => join_settled r (set_pending n p)
      end
  end.

(** The cards' effects: reload when [refreshKey] changed, then the prefill. *)
Definition run_effects (old p : wireless) : wireless :=
  let reloaded := if decide (refreshKey old = refreshKey p) then cards p else loadCard <$> cards p in
  set_cards (map_imap (λ name c, Some (prefill_effect (join p) name c)) reloaded) p.

Definition fire (e : event) (p : wireless) : wireless := run_effects p (handle e p).
Definition step (p p' : wireless) : Prop := ∃ e, p' = fire e p.

(** ** Power levels *)

Lemma level_intervals (d : Z) :
  dBmToLevel (Some d)
  = if (d <=? 13)%Z then Low else if (d <=? 19)%Z then Medium
    else if (d <=? 26)%Z then High else Max.
Proof.
  unfold dBmToLevel, POWER_LEVELS. cbn [foldl]. unfold closer. cbn [fst snd].
  repeat (case_match; bool_simpl; cbn [fst snd] in *); try reflexivity; lia.
Qed.

(** The level shown for a reading is the nearest one, the stronger of two
    equally near; the level of a level's own power is itself. *)
Theorem power_nearest (d : Z) (l : power_level) (v : Z) :
  (l, v) ∈ POWER_LEVELS →
  let best := levelToDbm (dBmToLevel (Some d)) in
  (Z.abs (d - best) ≤ Z.abs (d - v))%Z
  ∧ (Z.abs (d - best) = Z.abs (d - v) → v ≤ best)%Z
  ∧ dBmToLevel (Some (levelToDbm l)) = l ∧ levelToDbm l = v.
Proof.
  intros H best. assert (dBmToLevel (Some (levelToDbm l)) = l ∧ levelToDbm l = v) as Hl.
  { unfold POWER_LEVELS in H. rewrite !elem_of_cons in H.
    destruct H as [[= -> ->]|[[= -> ->]|[[= -> ->]|[[= -> ->]|H]]]]; [done..|].
    by apply not_elem_of_nil in H. }
  split_and!; [| |apply Hl|apply Hl]; subst best; destruct Hl as [_ <-]; rewrite level_intervals;
    destruct l; repeat (case_match; bool_simpl);
    change (levelToDbm Low) with 10%Z; change (levelToDbm Medium) with 17%Z;
    change (levelToDbm High) with 23%Z; change (levelToDbm Max) with 30%Z; lia.
Qed.

(** ** Lists of radios *)

Definition s1g_first (l : list radio) : Prop :=
  ∃ l1 l2, l = l1 ++ l2 ∧ Forall (λ r, isS1G r = true) l1 ∧ Forall (λ r, isS1G r = false) l2.

Lemma insert_radio_perm r l : insert_radio r l ≡ₚ r :: l.
Proof.
  induction l as [|x l IH]; simpl; [done|]. destruct (radio_before r x); [done|].
  rewrite IH. apply Permutation_swap.
Qed.

Lemma sort_radios_perm l : sort_radios l ≡ₚ l.
Proof. induction l as [|r l IH]; simpl; [done|]. by rewrite insert_radio_perm, IH. Qed.

Lemma insert_radio_s1g r l : s1g_first l → s1g_first (insert_radio r l).
Proof.
  intros (l1 & l2 & -> & H1 & H2). destruct (isS1G r) eqn:Hr.
  - exists (r :: l1), l2. split_and!; [|by constructor|done].
    destruct l1 as [|x l1]; [destruct l2 as [|x l2]|]; simpl; unfold radio_before; rewrite ?Hr; simpl.
    + done.
    + apply Forall_cons in H2 as [-> _]. done.
    + apply Forall_cons in H1 as [Hx _]. rewrite Hx. simpl.
      unfold isS1G in Hr, Hx. bool_simpl. rewrite Hr, Hx. done.
  - assert (∃ l2', insert_radio r l2 = l2' ∧ Forall (λ r, isS1G r = false) l2') as (l2' & He & Hf).
    { eexists. split; [done|]. rewrite insert_radio_perm. by constructor. }
    exists l1, l2'. split_and!; [|done|done]. subst l2'.
    induction H1 as [|x l1 Hx _ IH]; [done|]. simpl. unfold radio_before.
    rewrite Hr, Hx. simpl. by rewrite IH.
Qed.

Lemma sort_radios_s1g l : s1g_first (sort_radios l).
Proof. induction l as [|r l IH]; simpl; [by exists [], []|]. by apply insert_radio_s1g. Qed.

(** ** Effects *)

Lemma wireless_effects_frame old p :
  let q := run_effects old p in
  radios q = radios p ∧ join q = join p ∧ page_loading q = page_loading p
  ∧ join_requests q = join_requests p ∧ saves q = saves p
  ∧ ∀ name, cards q !! name = prefill_effect (join p) name <$>
      (if decide (refreshKey old = refreshKey p) then cards p else loadCard <$> cards p) !! name.
Proof.
  unfold run_effects. split_and!; try done. intros name. simpl. rewrite map_lookup_imap.
  by destruct (_ !! name).
Qed.

(** A scan lands once in each draft that has loaded. *)
Definition scan_landed (p : wireless) : Prop :=
  ∀ j name c, join p = Some j → cards p !! name = Some c →
    is_Some (assoc name (j_prefills j)) → is_Some (draft c) →
    appliedPrefillNonce c = Some (j_nonce j).

Lemma prefill_effect_landed j name c :
  is_Some (assoc name (j_prefills j)) → is_Some (draft (prefill_effect (Some j) name c)) →
  appliedPrefillNonce (prefill_effect (Some j) name c) = Some (j_nonce j).
Proof.
  intros [f Hf]. unfold prefill_effect. rewrite Hf. destruct (draft c) as [d|] eqn:Hd.
  - case_decide as Hn; [done|]. done.
  - rewrite Hd. by intros [? ?].
Qed.

Lemma scan_landed_fire e p : scan_landed (fire e p).
Proof.
  intros j name c Hj Hc. unfold fire in *.
  destruct (wireless_effects_frame p (handle e p)) as (_ & Hjq & _ & _ & _ & Hcq).
  rewrite Hjq in Hj. rewrite Hcq, Hj in Hc. apply fmap_Some in Hc as (c0 & _ & ->).
  apply prefill_effect_landed.
Qed.

Lemma prefill_effect_id p name c :
  scan_landed p → cards p !! name = Some c → is_Some (draft c) →
  ∀ c', appliedPrefillNonce c' = appliedPrefillNonce c → prefill_effect (join p) name c' = c'.
Proof.
  intros Hs Hc Hd c' Hn. unfold prefill_effect. destruct (join p) as [j|] eqn:Hj; [|done].
  destruct (assoc name (j_prefills j)) as [f|] eqn:Hf; [|done].
  destruct (draft c'); [|done]. by rewrite decide_True by (rewrite Hn; eapply Hs; eauto).
Qed.

(** ** Well-formed pages *)

Record wf (p : wireless) : Prop := {
  wf_cards : ∀ name, is_Some (cards p !! name) ↔ name ∈ r_name <$> radios p;
  wf_first : s1g_first (radios p);
  wf_loading : page_loading p = true → join p = None;
  wf_join : ∀ j, join p = Some j →
    (j_halowRadio j ≠ "" → ∃ r, r ∈ radios p ∧ isS1G r = true ∧ r_name r = j_halowRadio j)
    ∧ (j_backhaulRadio j ≠ "" → ∃ r, r ∈ radios p ∧ isS1G r = false ∧ r_name r = j_backhaulRadio j)
    ∧ (∀ name, is_Some (assoc name (j_prefills j)) →
         (name = j_halowRadio j ∨ name = j_backhaulRadio j) ∧ name ∈ r_name <$> radios p)
}.

Lemma wf_ext p q :
  radios q = radios p → (page_loading q = true → page_loading p = true) →
  (join q = None ∨ join q = join p) →
  (∀ name, is_Some (cards q !! name) ↔ is_Some (cards p !! name)) → wf p → wf q.
Proof.
  intros H1 H2 H3 H4 [W1 W2 W3 W4]. split.
  - intros name. by rewrite H4, W1, H1.
  - by rewrite H1.
  - intros Hl. destruct H3 as [|H3]; [done|]. rewrite H3. auto.
  - intros j Hj. destruct H3 as [H3|H3]; [congruence|]. rewrite H1. apply W4. congruence.
Qed.

Lemma on_card_some f name k p : is_Some (cards (on_card name f p) !! k) ↔ is_Some (cards p !! k).
Proof.
  simpl. destruct (decide (name = k)) as [->|Hne]; [rewrite lookup_alter_eq|by rewrite lookup_alter_ne].
  by rewrite fmap_is_Some.
Qed.

Lemma radios_settled_wf r p : wf p → page_loading p = true → wf (radios_settled r p).
Proof.
  intros [W1 W2 W3 W4] Hl. destruct r as [rs|e]; simpl; [|by split].
  split; simpl; [|apply sort_radios_s1g|done|intros j Hj; by rewrite W3 in Hj].
  intros name. rewrite <- elem_of_dom, dom_list_to_map_L, elem_of_list_to_set. 
  rewrite <- list_fmap_compose. done.
Qed.

Lemma find_Some {A} (f : A → bool) l x : List.find f l = Some x → x ∈ l ∧ f x = true.
Proof. intros [H1 H2]%find_some. by rewrite list_elem_of_In. Qed.

Lemma assoc_elem {A} k (l : list (string * A)) : is_Some (assoc k l) → k ∈ l.*1.
Proof.
  induction l as [|[k' v] l IH]; simpl; [by intros [? ?]|]. case_decide; [intros; subst; left|].
  intros. right. auto.
Qed.

Lemma handleDecoded_wf payload now p : wf p → page_loading p = false → wf (handleDecoded payload now p).
Proof.
  intros [W1 W2 W3 W4] Hl. unfold handleDecoded. destruct (halow payload) as [hc|]; [|by split].
  split; simpl; [done|done|congruence|]. intros j [= <-]. simpl.
  assert (∀ r, halowRadio p = Some r → r ∈ radios p ∧ isS1G r = true) as Hh
    by (intros r Hr; by apply find_Some in Hr).
  assert (∀ r, backhaulRadio p = Some r → r ∈ radios p ∧ isS1G r = false) as Hb.
  { intros r [H1 H2]%find_Some. split; [done|]. by destruct (isS1G r). }
  split_and!.
  - destruct (halowRadio p) as [r|]; simpl; [|done]. exists r. by destruct (Hh r eq_refl).
  - destruct (backhaulRadio p) as [r|]; simpl; [|done]. exists r. by destruct (Hb r eq_refl).
  - intros name Hn%assoc_elem. rewrite fmap_app, elem_of_app in Hn.
    destruct Hn as [Hn|Hn].
    + destruct (halowRadio p) as [r|]; simpl in Hn; [|by apply not_elem_of_nil in Hn].
      apply list_elem_of_singleton in Hn as ->. split; [by left|].
      apply list_elem_of_fmap_2. by apply Hh.
    + destruct (backhaul payload), (backhaulRadio p) as [r|]; simpl in Hn;
        try (by apply not_elem_of_nil in Hn).
      apply list_elem_of_singleton in Hn as ->. split; [by right|].
      apply list_elem_of_fmap_2. by apply Hb.
Qed.

Lemma wf_handle e p : wf p → wf (handle e p).
Proof.
  intros H. destruct e; simpl; try (apply (wf_ext p); auto using on_card_some; done).
  - destruct (page_loading p) eqn:Hl; [by apply radios_settled_wf|done].
  - unfold click_save. repeat case_match; try done. apply (wf_ext p); auto. simpl.
    intros k. destruct (decide (name = k)) as [->|Hne];
      [rewrite lookup_insert_eq|by rewrite lookup_insert_ne]. split; eauto.
  - case_match; [done|]. by apply (wf_ext p); auto.
  - case_match; [done|]. by apply handleDecoded_wf.
  - case_match; [|done]. unfold doJoin. case_match; [|done]. by apply (wf_ext p); auto.
  - case_match; [done|]. destruct r; simpl; by apply (wf_ext p); auto.
Qed.

Lemma wf_fire e p : wf p → wf (fire e p).
Proof.
  intros H%(wf_handle e). unfold fire.
  destruct (wireless_effects_frame p (handle e p)) as (Hr & Hj & Hl & _ & _ & Hc).
  eapply wf_ext; [exact Hr|by rewrite Hl|by right|intros name|exact H].
  rewrite Hc, fmap_is_Some. case_decide; [done|]. by rewrite lookup_fmap, fmap_is_Some.
Qed.

Lemma wf_init : wf SettingsWireless ∧ scan_landed SettingsWireless.
Proof.
  split; [|done]. split; simpl; try done; [|by exists [], []].
  intros name. rewrite lookup_empty. split; [by intros [? ?]|by intros ?%not_elem_of_nil].
Qed.

Lemma wf_reachable p : rtc step SettingsWireless p → wf p ∧ scan_landed p.
Proof.
  revert p. apply rtc_ind_r; [apply wf_init|]. intros p q _ [e ->] [H _].
  split; [by apply wf_fire|apply scan_landed_fire].
Qed.

(** ** Properties *)

(** C29: in every state the page reaches, the cards are those of its radios, the
    HaLow radios come first, a scan names a HaLow radio and a backhaul radio of
    the page (or none) and fills only those, once: an edit made after the scan
    landed stays exactly what the operator typed. *)
Theorem wireless_wellformed p :
  rtc step SettingsWireless p →
  wf p
  ∧ ∀ name e c d, cards p !! name = Some c → draft c = Some d → edit_control p name e c = true →
      draft_of (fire (Edit name e) p) name = Some (update e d).
Proof.
  intros [H Hs]%wf_reachable. split; [done|]. intros name e c d Hc Hd He. unfold draft_of, fire.
  destruct (wireless_effects_frame p (handle (Edit name e) p)) as (_ & _ & _ & _ & _ & Hq).
  rewrite Hq. simpl. rewrite decide_True by done. rewrite lookup_alter_eq, Hc. simpl.
  unfold edit_card. rewrite He.
  rewrite (prefill_effect_id p name c Hs Hc (mk_is_Some _ _ Hd)) by done. simpl. by rewrite Hd.
Qed.

Lemma check_radio_nil p name hl d :
  draft_of p name = Some d → check_radio p name hl = [] →
  acceptable (credentialsFromDraft (Some d)) (issue_opts p name hl).
Proof. intros Hd. unfold check_radio. rewrite Hd. by intros H%fmap_nil_inv%check_nil. Qed.

Lemma join_enabled_checked p r :
  join_enabled p = true → join_request_of p = Some r →
  (∃ d, draft_of p (jr_halowRadio r) = Some d ∧ jr_halow r = credentialsFromDraft (Some d)
        ∧ acceptable (jr_halow r) (issue_opts p (jr_halowRadio r) true))
  ∧ (if decide (jr_backhaulRadio r = "") then jr_backhaul r = None
     else ∃ d, draft_of p (jr_backhaulRadio r) = Some d
               ∧ jr_backhaul r = Some (credentialsFromDraft (Some d))
               ∧ acceptable (credentialsFromDraft (Some d)) (issue_opts p (jr_backhaulRadio r) false)).
Proof.
  unfold join_enabled, join_shown, join_request_of, issues.
  destruct (join p) as [j|]; [|done]. intros He. bool_simpl.
  rewrite decide_False by done. rewrite bool_decide_false in * by done.
  match goal with H : _ ++ _ = [] |- _ => apply app_nil in H as [Hh Hb] end.
  destruct (draft_of p (j_halowRadio j)) as [d|] eqn:Hd; [|done].
  destruct (decide (j_backhaulRadio j = "")) as [Hn|Hn].
  - rewrite decide_False by tauto. intros [= <-]. simpl. rewrite decide_True by done.
    split; [|done]. exists d. split_and!; [done|done|by apply check_radio_nil].
  - rewrite bool_decide_false in Hb by done.
    destruct (draft_of p (j_backhaulRadio j)) as [d'|] eqn:Hd'.
    + rewrite decide_False by (intros [_ ?]; done). intros [= <-]. simpl.
      rewrite decide_False by done. split.
      * exists d. split_and!; [done|done|by apply check_radio_nil].
      * exists d'. split_and!; [done|done|by apply check_radio_nil].
    + unfold check_radio in Hb. by rewrite Hd' in Hb.
Qed.

Lemma handle_join_requests e p :
  e ≠ ClickJoin → join_requests (handle e p) = join_requests p.
Proof.
  intros He. destruct e; try done; simpl; unfold radios_settled, click_save, handleDecoded, join_settled;
    by repeat case_match.
Qed.

(** C28: the page asks to join a mesh only when the operator presses the enabled
    Join button, and then with credentials every target radio accepts: they are
    those of the drafts on the screen, each checked against the options of its
    radio, the backhaul's present exactly when a backhaul radio is named. *)
Theorem join_checked e p :
  join_requests (fire e p) = join_requests p
  ∨ e = ClickJoin ∧ busy (joinStatus_of p) = false
    ∧ ∃ r, join_requests (fire e p) = join_requests p ++ [r]
      ∧ (∃ d, draft_of p (jr_halowRadio r) = Some d ∧ jr_halow r = credentialsFromDraft (Some d)
              ∧ acceptable (jr_halow r) (issue_opts p (jr_halowRadio r) true))
      ∧ (if decide (jr_backhaulRadio r = "") then jr_backhaul r = None
         else ∃ d, draft_of p (jr_backhaulRadio r) = Some d
                   ∧ jr_backhaul r = Some (credentialsFromDraft (Some d))
                   ∧ acceptable (credentialsFromDraft (Some d))
                       (issue_opts p (jr_backhaulRadio r) false)).
Proof.
  unfold fire. destruct (wireless_effects_frame p (handle e p)) as (_ & _ & _ & -> & _).
  destruct e; try (left; by apply handle_join_requests). simpl.
  destruct (join_enabled p) eqn:He; [|by left]. unfold doJoin.
  destruct (join_request_of p) as [r|] eqn:Hr; [|by left]. right.
  split; [done|]. split; [unfold join_enabled in He; by bool_simpl|].
  exists r. split; [done|]. by apply join_enabled_checked.
Qed.

Lemma handle_saves e p :
  (∀ name, e ≠ ClickSave name) → saves (handle e p) = saves p.
Proof.
  intros He. destruct e; try done; simpl; unfold radios_settled, doJoin, handleDecoded, join_settled;
    try (by repeat case_match). by destruct (He name).
Qed.

(** A radio is written only by the Save button of a card with changes and no
    save outstanding.  What is written is the draft, except that a mesh radio is
    named by its mesh ID, and that the admission floor is left out unless it was
    changed to a value; changes that compare equal never arm the button. *)
Theorem save_sends e p :
  saves (fire e p) = saves p
  ∨ ∃ name c d o, e = ClickSave name ∧ cards p !! name = Some c ∧ draft c = Some d
      ∧ saving c = false ∧ original c = o ∧ settingsEqual o (Some d) = false
      ∧ saves (fire e p) = saves p ++ [(name, save_payload o d)]
      ∧ let w := save_payload o d in
        (∀ t, s_meshRssiThreshold w = Some t ↔
           s_meshRssiThreshold d = Some t ∧ stored_floor o ≠ Some t)
        ∧ (s_mode d = MESH → s_meshId d ?? "" ≠ "" → Some (s_ssid w) = s_meshId d)
        ∧ (s_mode d ≠ MESH → s_ssid w = s_ssid d)
        ∧ mk_settings (s_ssid d) (s_meshId w) (s_password w) (s_channel w) (s_bandwidth w)
            (s_txPower w) (s_country w) (s_encryption w) (s_disabled w) (s_mode w)
            (s_meshRssiThreshold d) = d.
Proof.
  unfold fire. destruct (wireless_effects_frame p (handle e p)) as (_ & _ & _ & _ & -> & _).
  destruct e; try (left; apply handle_saves; discriminate). simpl. unfold click_save.
  destruct (cards p !! name) as [c|] eqn:Hc; [|by left].
  destruct (draft c) as [d|] eqn:Hd; [|by left].
  destruct (_ && _) eqn:He; [|by left]. right. exists name, c, d, (original c).
  unfold dirty in He. rewrite Hd in He. bool_simpl. split_and!; try done; simpl.
  - intros t. case_decide as Ht; [split; [done|intros [? ?]; congruence]|].
    split; [intros Hw; split; [done|congruence]|by intros [? _]].
  - intros -> Hm. destruct (s_meshId d) as [m|]; [|done]. simpl in *.
    rewrite bool_decide_false by done. done.
  - intros Hm. unfold isMeshMode. rewrite bool_decide_false by done. simpl. by destruct (s_meshId d).
  - by destruct d.
Qed.

(** ** A scan, all the way to the request *)

Definition shared (c : MeshCredentials) : MeshCredentials :=
  {| meshId := meshId c; passphrase := passphrase c; encryption := encryption c;
     bandwidthMhz := bandwidthMhz c; channel := channel c;
     countryCode := toUpperCase (countryCode c) |}.

Lemma credentials_filled c av d :
  bandwidthMhz c ∈ known_widths →
  credentialsFromDraft (Some (merge_fields (fieldsFromCredentials c av) d)) = shared c.
Proof.
  intros Hw. unfold credentialsFromDraft, shared. simpl. f_equal.
  - apply (ht_mode_roundtrip _ _ NOHT Hw).
  - by rewrite Number_pretty.
Qed.

Lemma same_radio (l : list radio) a b :
  NoDup (r_name <$> l) → a ∈ l → b ∈ l → r_name a = r_name b → a = b.
Proof.
  intros Hn [i Hi]%list_elem_of_lookup_1 [j Hj]%list_elem_of_lookup_1 He.
  assert (i = j) as ->; [|congruence].
  apply (NoDup_lookup (r_name <$> l) i j (r_name a)); [done|..];
    rewrite list_lookup_fmap, ?Hi, ?Hj; simpl; congruence.
Qed.

#[local] Arguments credentialsFromDraft : simpl never.

(** The draft of a radio the scan fills. *)
Lemma decoded_draft p payload now hc name f c d :
  halow payload = Some hc →
  (∀ j, join (handleDecoded payload now p) = Some j →
     j_nonce j = now ∧ assoc name (j_prefills j) = Some f) →
  page_loading p = false → cards p !! name = Some c → draft c = Some d →
  appliedPrefillNonce c ≠ Some now →
  draft_of (fire (Decoded payload now) p) name = Some (merge_fields f d).
Proof.
  intros Hh Hj Hl Hc Hd Hn. unfold draft_of, fire.
  destruct (wireless_effects_frame p (handle (Decoded payload now) p)) as (_ & _ & _ & _ & _ & Hq).
  rewrite Hq. simpl. rewrite Hl. unfold handleDecoded in *. rewrite Hh in *. simpl in *.
  rewrite decide_True by done. rewrite Hc. simpl.
  destruct (Hj _ eq_refl) as [_ Ha]. simpl in Ha. rewrite Ha, Hd, decide_False by done. done.
Qed.

(** C27: scanning another node's code and pressing Join without an edit asks for
    exactly what that node shared, the country code in capitals: the HaLow
    credentials on the HaLow radio and, when the code has a backhaul and a radio
    of the page is in mesh mode, the backhaul's on that one.  Each target must
    have loaded, and the widths be ones the settings can express. *)
Theorem scan_join_roundtrip p payload now hc h dh :
  page_loading p = false → NoDup (r_name <$> radios p) → "" ∉ r_name <$> radios p →
  (∀ name c, cards p !! name = Some c → appliedPrefillNonce c ≠ Some now) →
  halow payload = Some hc → bandwidthMhz hc ∈ known_widths →
  halowRadio p = Some h → draft_of p (r_name h) = Some dh →
  (∀ b, backhaulRadio p = Some b →
     ∃ bc, backhaul payload = Some bc ∧ bandwidthMhz bc ∈ known_widths) →
  ∃ r, join_request_of (fire (Decoded payload now) p) = Some r
    ∧ jr_source r = sourceHostname payload
    ∧ jr_halowRadio r = r_name h ∧ jr_halow r = shared hc
    ∧ jr_backhaulRadio r = (r_name <$> backhaulRadio p) ?? ""
    ∧ jr_backhaul r = (match backhaulRadio p with
                       | Some _ => shared <$> backhaul payload
                       | None => None
                       end).
Proof.
  intros Hl Hnd Hne Hfresh Hhp Hwh Hh Hdh Hb.
  pose proof (find_Some _ _ _ Hh) as [Hhin Hhs].
  assert (r_name h ≠ "") as Hhn by (intros He; by apply Hne; rewrite <- He; apply list_elem_of_fmap_2).
  apply bind_Some in Hdh as (ch & Hch & Hdh).
  set (fh := fieldsFromCredentials hc (opts_of p (r_name h))).
  assert (draft_of (fire (Decoded payload now) p) (r_name h) = Some (merge_fields fh dh)) as Hd1.
  { apply (decoded_draft p payload now hc _ fh ch dh); auto; [|by apply (Hfresh (r_name h))].
    unfold handleDecoded. rewrite Hhp, Hh. intros j [= <-]. simpl. by rewrite decide_True. }
  unfold join_request_of.
  destruct (wireless_effects_frame p (handle (Decoded payload now) p)) as (_ & Hj & _).
  fold (fire (Decoded payload now) p) in Hj. rewrite Hj. clear Hj.
  simpl handle. rewrite Hl. unfold handleDecoded at 1. rewrite Hhp, Hh. simpl.
  rewrite decide_False, Hd1 by done.
  destruct (backhaulRadio p) as [b|] eqn:Hbr; simpl.
  - destruct (Hb b eq_refl) as (bc & Hbp & Hwb).
    pose proof (find_Some _ _ _ Hbr) as [Hbin Hbs].
    apply andb_true_iff in Hbs as [Hbs Hbm]. unfold is_mesh_draft in Hbm.
    destruct (draft_of p (r_name b)) as [db|] eqn:Hdb; [|done].
    apply bind_Some in Hdb as (cb & Hcb & Hdb).
    assert (r_name h ≠ r_name b) as Hhb.
    { intros He. apply (same_radio _ _ _ Hnd Hhin Hbin) in He. subst b. by rewrite Hhs in Hbs. }
    assert (r_name b ≠ "") as Hbn
      by (intros He; by apply Hne; rewrite <- He; apply list_elem_of_fmap_2).
    set (fb := fieldsFromCredentials bc (opts_of p (r_name b))).
    assert (draft_of (fire (Decoded payload now) p) (r_name b) = Some (merge_fields fb db)) as Hd2.
    { apply (decoded_draft p payload now hc _ fb cb db); auto; [|by apply (Hfresh (r_name b))].
      unfold handleDecoded. rewrite Hhp, Hh, Hbp, Hbr. intros j [= <-]. simpl.
      rewrite decide_False by done. by rewrite decide_True. }
    rewrite (decide_False (P := r_name b = "")), Hd2 by done.
    rewrite decide_False by (intros [_ ?]; done).
    eexists. split; [done|].
    cbn [jr_source jr_halowRadio jr_halow jr_backhaulRadio jr_backhaul].
    rewrite decide_False, Hbp by done.
    split_and!; [done|done|by apply credentials_filled|done|].
    by apply (f_equal Some), credentials_filled.
  - eexists. split; [done|].
    cbn [jr_source jr_halowRadio jr_halow jr_backhaulRadio jr_backhaul].
    split_and!; [done|done|by apply credentials_filled|done|done].
Qed.

(** ** Runs *)

Definition run_page (es : list event) (p : wireless) : wireless := foldl (λ p e, fire e p) p es.

Lemma wireless_run_rtc es p : rtc step p (run_page es p).
Proof.
  unfold run_page. revert p. induction es as [|e es IH]; intros p; simpl; [done|].
  eapply rtc_l; [by exists e|apply IH].
Qed.

Definition sample_settings (m : WifiMode) (enc : WifiEncryption) (tx : Z) : settings :=
  mk_settings "net" None None "6" HT20 tx (Some "US") enc None m None.
Definition sample_opts : avail_opts :=
  {| av_channels := ["1"; "6"; "11"]; av_bandwidths := [HT20; HT40]; av_encryptions := [SAE; PSK2] |}.
Definition halow_opts : avail_opts :=
  {| av_channels := ["12"; "28"]; av_bandwidths := [S1G_2MHZ; S1G_4MHZ]; av_encryptions := [SAE] |}.
Definition sample_creds : MeshCredentials :=
  {| meshId := "field-mesh"; passphrase := "correct horse"; encryption := SAE; bandwidthMhz := 2;
     channel := 28; countryCode := "us" |}.
Definition sample_payload : MeshJoinPayload :=
  {| sourceHostname := "node-1"; halow := Some sample_creds; backhaul := None |}.

(** A node with a HaLow radio and a 2.4 GHz radio in the given mode. *)
Definition sample_start (m : WifiMode) : list event :=
  [RadiosSettled (inl [{| r_name := "radio1"; r_band := 1 |}; {| r_name := "radio0"; r_band := 4 |}]);
   LoadSettled "radio0" None (Some (Some (sample_settings MESH SAE 20), halow_opts));
   LoadSettled "radio1" None (Some (Some (sample_settings m PSK2 0), sample_opts))].

Lemma wireless_wellformed_witness :
  let p := run_page (sample_start AP ++ [Decoded sample_payload 1]) SettingsWireless in
  draft_of (fire (Edit "radio0" (EChannel "12")) p) "radio0"
  = Some (update (EChannel "12")
      (merge_fields (fieldsFromCredentials sample_creds halow_opts) (sample_settings MESH SAE 20))).
Proof.
  intros p. destruct (wireless_wellformed p (wireless_run_rtc _ _)) as [_ H].
  destruct (cards p !! "radio0") as [c|] eqn:Hc; [|vm_compute in Hc; discriminate Hc].
  apply (H "radio0" (EChannel "12") c); [exact Hc|..];
    vm_compute in Hc; injection Hc as <-; reflexivity.
Defined.

Lemma scan_join_roundtrip_witness :
  let p := run_page (sample_start AP) SettingsWireless in
  ∃ r, join_request_of (fire (Decoded sample_payload 1) p) = Some r ∧ jr_halow r = shared sample_creds.
Proof.
  intros p.
  destruct (scan_join_roundtrip p sample_payload 1 sample_creds {| r_name := "radio0"; r_band := 4 |}
    (sample_settings MESH SAE 20)) as (r & H & _ & _ & Hc & _).
  - reflexivity.
  - apply (bool_decide_unpack _). vm_compute. reflexivity.
  - apply (bool_decide_unpack _). vm_compute. reflexivity.
  - intros name c Hc. assert (appliedPrefillNonce c = None) as ->; [|discriminate].
    assert (map_Forall (λ _ c, appliedPrefillNonce c = None) (cards p)) as Hall
      by (apply (bool_decide_unpack _); vm_compute; reflexivity).
    exact (Hall name c Hc).
  - reflexivity.
  - apply (bool_decide_unpack _). vm_compute. reflexivity.
  - vm_compute. reflexivity.
  - vm_compute. reflexivity.
  - intros b Hb. vm_compute in Hb. discriminate Hb.
  - exists r. split; [exact H|exact Hc].
Defined.

(** ** What the page gets wrong *)

(** Saving any change of a radio whose power is unset writes the power that was
    seeded for display. *)
Theorem seeded_power_is_written :
  let p := run_page (sample_start AP ++ [Edit "radio1" (EChannel "11"); ClickSave "radio1"])
             SettingsWireless in
  (λ w, (w.1, s_txPower w.2)) <$> saves p = [("radio1", 17%Z)].
Proof. by vm_compute. Qed.

(** Switching an access point to mesh and back does not give its settings back:
    the draft is dirty, and saving makes the access point WPA3 only. *)
Theorem mode_round_trip_dirty :
  let p := run_page (sample_start AP ++ [EditMode "radio1" MESH; EditMode "radio1" AP;
             ClickSave "radio1"]) SettingsWireless in
  (λ w, (s_mode w.2, s_encryption w.2)) <$> saves p = [(AP, SAE)].
Proof. by vm_compute. Qed.

(** A code without a backhaul, scanned on a node whose 2.4 GHz radio is in mesh
    mode: the radio is named as filled, and its own draft, which never has a
    password, blocks the join. *)
Theorem halow_only_scan_blocked :
  let p := run_page (sample_start MESH ++ [Decoded sample_payload 1]) SettingsWireless in
  (j_backhaulRadio <$> join p) = Some "radio1"
  ∧ "radio1: Passphrase must be 8–63 characters." ∈ issues p ∧ join_enabled p = false.
Proof. split_and!; [by vm_compute|by apply (bool_decide_unpack _); vm_compute|by vm_compute]. Qed.

(** Refreshing after a scan reloads the drafts and drops the scanned values; the
    scan is still shown as filled, and is not filled again. *)
Theorem refresh_drops_scan :
  let p := run_page (sample_start AP ++ [Decoded sample_payload 1; ClickRefresh;
             LoadSettled "radio0" None (Some (Some (sample_settings MESH SAE 20), halow_opts))])
             SettingsWireless in
  draft_of p "radio0" = Some (sample_settings MESH SAE 20) ∧ join_shown p = true.
Proof. by vm_compute. Qed.

(** A scan made while a join is in flight is dropped when the join succeeds. *)
Theorem join_drops_new_scan :
  let p := run_page (sample_start AP ++ [Decoded sample_payload 1; ClickJoin;
             Decoded sample_payload 2; JoinSettled None]) SettingsWireless in
  join p = None ∧ length (join_requests p) = 1.
Proof. by vm_compute. Qed.
