(* ===== verification/CommsView.v ===== *)
(** What the page [pages/Comms.jsx] shows around the talk protocol: the received
    waveform ([components/RxWaveform.jsx]), the level meter
    ([components/MicMeter.jsx]), the audio controls and the audio devices
    ([components/AudioControls.jsx], [services/audioEngine.js]), both views of the
    channel grid ([components/ChannelGrid.jsx]), the full transcript
    ([components/Transcript.jsx]), the push-to-talk button and the status lines.

    Levels and canvas coordinates are over [Arith]: doubles to run, rationals for
    the bounds. *)
From S2P Require Import Prelude JsString JsNumber JsList Constants CommsPanel Numeric.
From Stdlib Require Import QArith Qround Lqa.

Local Close Scope Q_scope.
Open Scope js_scope.

(** ** The received waveform *)

Section Waveform.
Context {N : Type} `{Arith N}.

Definition RX_WAVE_HISTORY : nat := 200.

(** [rxWaveDataRef] and [rxWaveWritePosRef]; the samples are single precision
    already, so storing a peak does not round it. *)
Record wave := mk_wave { rxWaveData : list N; rxWaveWritePos : nat }.

Definition wave_init : wave := mk_wave (replicate RX_WAVE_HISTORY (int 0)) 0.

(** The peak of a decoded frame. *)
Definition peak_of (pcm : list N) : N :=
  foldl (λ peak x, let v := Math_abs x in if lt peak v then v else peak) (int 0) pcm.

Definition wave_push (peak : N) (w : wave) : wave :=
  mk_wave (<[rxWaveWritePos w `mod` RX_WAVE_HISTORY := peak]> (rxWaveData w)) (S (rxWaveWritePos w)).

(** The slot drawn as bar [i]. *)
Definition wave_index (currentPos : nat) (i : nat) : nat :=
  Z.to_nat (Z.rem (currentPos - RX_WAVE_HISTORY + i + RX_WAVE_HISTORY * 2) RX_WAVE_HISTORY).

Definition wave_bars (w : wave) : list N :=
  map (λ i, rxWaveData w !! wave_index (rxWaveWritePos w) i ?? int 0) (seq 0 RX_WAVE_HISTORY).

(** A bar on a canvas of [W] by [H] pixels: its [x], and both ends. *)
Definition bar_line (W H' : N) (i : nat) (amp : N) : N * N * N :=
  let midY := div H' (int 2) in
  (mul (div (int i) (int RX_WAVE_HISTORY)) W, sub midY (mul amp midY), add midY (mul amp midY)).

Definition draw (W H' : N) (w : wave) : list (N * N * N) := imap (bar_line W H') (wave_bars w).
End Waveform.
Arguments wave : clear implicits.

(** ** The level meter *)

Section Meter.
Context {N : Type} `{Arith N} `{Rounding N}.
(** [(20 * Math.log10(x)).toFixed(0)] *)
Context (decibels : N → string).

(** [m_level] is [levelRef]; the animation loop runs exactly while [m_show]. *)
Record meter := mk_meter { m_level : N; m_show : bool; m_smooth : N; m_pct : N; m_db : string }.

(** The first render, with its effects. *)
Definition MicMeter (level : N) (active voxEnabled : bool) : meter :=
  mk_meter level (active || voxEnabled) (int 0) (int 0) "".

(** A render with new props: the refs, and the effect on [showMeter]. *)
Definition meter_render (level : N) (active voxEnabled : bool) (m : meter) : meter :=
  let showMeter := active || voxEnabled in
  mk_meter level showMeter (if negb showMeter then int 0 else m_smooth m) (m_pct m) (m_db m).

(** [update], one animation frame. *)
Definition update (m : meter) : meter :=
  let smooth :=
    if lt (m_smooth m) (m_level m) then m_level m
    else add (mul (m_smooth m) (lit 85 2)) (mul (m_level m) (lit 15 2)) in
  mk_meter (m_level m) (m_show m) smooth (Math_min (int 100) (mul smooth (int 300)))
    (if lt (lit 1 4) smooth then (decibels smooth ++ " dB")%string else "").

Inductive meter_event := MeterProps (level : N) (active voxEnabled : bool) | Frame.

Definition meter_fire (m : meter) (e : meter_event) : meter :=
  match e with
  | MeterProps level active vox => meter_render level active vox m
  | Frame => if m_show m then update m else m
  end.

Definition visiblePct (m : meter) : N := if m_show m then m_pct m else int 0.
Definition visibleDb (m : meter) : string := if m_show m then m_db m else "".

Inductive tier := SegOk | SegWarn | SegCrit.

Definition lit_segments (segments : nat) (m : meter) : Z :=
  round (mul (div (visiblePct m) (int 100)) (int segments)).

Definition seg_tier (segments i : nat) : tier :=
  if (segments - 2 <=? i)%Z then SegCrit
  else if (floor (mul (int segments) (lit 6 1)) <=? i)%Z then SegWarn else SegOk.

(** The segments, each with whether it is on. *)
Definition meter_segments (segments : nat) (m : meter) : list (tier * bool) :=
  map (λ i : nat, (seg_tier segments i, (i <? lit_segments segments m)%Z)) (seq 0 segments).

Definition meter_label (m : meter) : string := or_str (visibleDb m) "—".
End Meter.
Arguments meter : clear implicits.
Arguments meter_event : clear implicits.

(** ** Audio devices *)

(** [enumerateDevices] and [setOutputDevice] of the engine, the handlers of the page
    and the controls.  [sink] is what the context plays on and [micId] the engine's
    [selectedMicId], which outlives the page; [enums] and [sinks] are the calls that
    have not settled. *)
Module Devices.

Inductive device_kind := AudioInput | AudioOutput | OtherKind.
#[export] Instance device_kind_eq_dec : EqDecision device_kind.
Proof. solve_decision. Defined.
Record device := mk_device { kind : device_kind; deviceId : string; label : string }.

(** The answer of the browser; [None] when it fails or offers no devices. *)
Definition enumerateDevices (answer : option (list device)) : list device * list device :=
  match answer with
  | Some devices =>
      (filter (λ d, kind d = AudioInput) devices, filter (λ d, kind d = AudioOutput) devices)
  | None => ([], [])
  end.

Record page := mk_page {
  audioDevices : list device * list device;
  selectedOutput : string;
  selectedMic : string;
  listening : bool;
  enums : nat;
  sinks : list (string * list device);
  sink : string;
  micId : string;
  log : list string
}.

(** The page opens while the engine has a microphone and a sink. *)
Definition open (sink micId : string) : page := mk_page ([], []) "" "" false 0 [] sink micId [].

Definition set_log (l : string) (p : page) : page :=
  mk_page (audioDevices p) (selectedOutput p) (selectedMic p) (listening p) (enums p) (sinks p) (sink p)
    (micId p) (log p ++ [l]).
Definition set_enums (l : bool) (n : nat) (p : page) : page :=
  mk_page (audioDevices p) (selectedOutput p) (selectedMic p) l n (sinks p) (sink p) (micId p) (log p).

(** [devices.find(...)?.label || deviceId] *)
Definition name_of (devices : list device) (id : string) : string :=
  or_str ((label <$> List.find (λ d, bool_decide (deviceId d = id)) devices) ?? "") id.

(** The effect on [audioStatus]. *)
Definition audio_ready (mediaDevices : bool) (p : page) : page := set_enums mediaDevices (S (enums p)) p.

Definition enumerated (answer : option (list device)) (p : page) : page :=
  mk_page (enumerateDevices answer) (selectedOutput p) (selectedMic p) (listening p) (pred (enums p))
    (sinks p) (sink p) (micId p) (log p).

(** [handleOutputChange] up to its await; the list of names is that of its render.
    A context without [setSinkId] answers at once. *)
Definition handleOutputChange (id : string) (p : page) : page :=
  mk_page (audioDevices p) id (selectedMic p) (listening p) (enums p) (sinks p ++ [(id, (audioDevices p).2)])
    (sink p) (micId p) (log p).

(** [setOutputDevice] settles, then the rest of the handler; [None] is a context
    without [setSinkId], [Some (Some e)] a rejection. *)
Definition sink_settled (i : nat) (outcome : option (option string)) (p : page) : page :=
  match sinks p !! i with
  | None => p
  | Some (id, names) =>
      let p' := mk_page (audioDevices p) (selectedOutput p) (selectedMic p) (listening p) (enums p)
        (delete i (sinks p)) (match outcome with Some None => id | _ => sink p end) (micId p) (log p) in
      match outcome with
      | Some None => set_log ("Output: " ++ name_of names id) p'
      | Some (Some e) => set_log ("Output device error: " ++ e) p'
      | None => p'
      end%string
  end.

(** [handleMicDeviceChange] *)
Definition handleMicDeviceChange (id : string) (p : page) : page :=
  set_log ("Mic: " ++ name_of (audioDevices p).1 id)
    (mk_page (audioDevices p) (selectedOutput p) id (listening p) (enums p) (sinks p) (sink p) id (log p)).

Inductive event :=
| AudioReady (mediaDevices : bool) | DeviceChange | Enumerated (answer : option (list device))
| PickOutput (id : string) | SinkSettled (i : nat) (outcome : option (option string)) | PickMic (id : string).

Definition fire (p : page) (e : event) : page :=
  match e with
  | AudioReady md => audio_ready md p
  | DeviceChange => if listening p then set_enums true (S (enums p)) p else p
  | Enumerated answer => if decide (enums p = 0%nat) then p else enumerated answer p
  | PickOutput id => handleOutputChange id p
  | SinkSettled i outcome => sink_settled i outcome p
  | PickMic id => handleMicDeviceChange id p
  end.

(** The options of a selector of the panel; it is absent without devices. *)
Definition device_options (prefix : string) (devices : list device) : list (string * string) :=
  map (λ d, (deviceId d, or_str (label d) (prefix ++ String.substring 0 8 (deviceId d))%string)) devices.

Definition AudioControls (p : page)
  : option (string * list (string * string)) * option (string * list (string * string)) :=
  let '(inputs, outputs) := audioDevices p in
  let shown (value prefix : string) (devices : list device) :=
    if (0 <? length devices)%nat then Some (value, device_options prefix devices) else None in
  (shown (selectedOutput p) "Speaker " outputs, shown (selectedMic p) "Mic " inputs).

End Devices.

(** ** Voice activation *)

(** [voxPct], what the threshold slider shows; a threshold is not negative. *)
Definition voxPct (voxThreshold : number) : option Z :=
  Math_round (fmul (if flt (of_int 0) voxThreshold then voxThreshold else decimal 15 2) (of_int 100)).

(** The slider moved to [v], from 0 to 50. *)
Definition onVoxThresholdChange (v : Z) : number := fdiv (of_int v) (of_int 100).

(** [level > thresh] in [voxTick]. *)
Definition vox_loud (level thresh : number) : bool := flt thresh level.

(** ** The channel grid *)

Module Grid.
Import CommsPanel.Names.

Record grid_props := mk_grid {
  channels : list channel_def;
  rxEnabled : gmap Z bool;
  txEnabled : gmap Z bool;
  rxActive : gmap Z bool;
  aliases : naming;
  replayAvailable : gmap Z bool
}.

Definition flag (m : gmap Z bool) (c : Z) : bool := m !! c ?? false.

(** The name of a channel: the input of a rename with its text, or the name. *)
Inductive cell := Input (defaultValue : string) | Name (text : string).

Record entry := mk_entry {
  e_ch : Z; active : bool; dot : bool; cell_of : cell; port : option Z;
  rx_on : bool; tx_on : bool; replay_disabled : bool
}.

Definition name_cell (p : grid_props) (c : Z) : cell :=
  let text := getLabel (n_names (aliases p)) c in
  if decide (editingCh (aliases p) = Some c) then Input text else Name text.

(** A row of the list. *)
Definition list_row (p : grid_props) (d : channel_def) : entry :=
  let c := ch d in
  mk_entry c false (flag (rxActive p) c) (name_cell p c) (Some (Constants.port d))
    (flag (rxEnabled p) c) (flag (txEnabled p) c) (negb (flag (replayAvailable p) c)).

(** A tile. *)
Definition tile (p : grid_props) (d : channel_def) : entry :=
  let c := ch d in
  mk_entry c (flag (rxEnabled p) c || flag (txEnabled p) c) (flag (rxActive p) c)
    (match name_cell p c with Name t => Name (toUpperCase t) | i => i end) None
    (flag (rxEnabled p) c) (flag (txEnabled p) c) (negb (flag (replayAvailable p) c)).

Definition ChannelGrid (tiles : bool) (p : grid_props) : list entry :=
  map ((if tiles then tile else list_row) p) (channels p).

Inductive button := RxPill | TxPill | Replay.
Inductive action := ToggleRx (c : Z) | ToggleTx (c : Z) | ReplayCh (c : Z) | RxAll (on : bool) | TxAll (on : bool).

(** A click on a button of an entry; a disabled button answers nothing. *)
Definition entry_click (b : button) (e : entry) : option action :=
  match b with
  | RxPill => Some (ToggleRx (e_ch e))
  | TxPill => Some (ToggleTx (e_ch e))
  | Replay => if replay_disabled e then None else Some (ReplayCh (e_ch e))
  end.

(** The row under the channels. *)
Definition bulk_buttons : list (string * action) :=
  [("RX ALL", RxAll true); ("RX NONE", RxAll false); ("TX ALL", TxAll true); ("TX NONE", TxAll false)].
End Grid.

(** ** Push to talk, status and transcript *)

(** [components/PttButton.jsx]: the text under the button. *)
Inductive tx_info := TxNone | TxAllChannels | TxChannels (labels : string).
Definition txInfoContent (txChannels : option (list Z)) (channelAliases : gmap Z string) : tx_info :=
  match txChannels with
  | None | Some [] => TxNone
  | Some l =>
      if decide (length l = 5%nat) then TxAllChannels
      else TxChannels (join ", " (map (λ c, or_str (channelAliases !! c ?? "") ("Ch " ++ pretty c)%string) l))
  end.

(** The channels handed to the button: those that send. *)
Definition tx_channels (txEnabled : gmap Z bool) : list Z :=
  filter (λ c, txEnabled !! c ?? false = true) (map ch CHANNELS_DEF).

(** [components/StatusBar.jsx] *)
Inductive dot_colour := DotGreen | DotYellow | DotRed.
Definition dotClass (status : string) : dot_colour :=
  if decide (status = "connected") then DotGreen
  else if decide (status = "connecting") then DotYellow else DotRed.
Definition statusLabel (status : string) : string :=
  if decide (status = "connected") then "Connected"
  else if decide (status = "connecting") then "Connecting..." else "Disconnected".
Definition StatusBar (wsStatus audioStatus : string) : (dot_colour * string) * (dot_colour * string) :=
  ((dotClass wsStatus, statusLabel wsStatus),
   (if decide (audioStatus = "Audio ready") then DotGreen else DotRed, audioStatus)).

(** The full transcript: the filter's options and the rows, each with whether it
    is hidden. *)
Definition filter_options (channelAliases : gmap Z string) : list (Z * string) :=
  (0%Z, "All Channels") :: map (λ c : Z, (c, or_str (channelAliases !! c ?? "") ("Ch " ++ pretty c)%string)) [1; 2; 3; 4; 5]%Z.
Definition transcript_rows (activeFilter : Z) (messages : list chat_msg) : list (chat_msg * bool * option severity) :=
  map (λ m, (m, transcript_hidden activeFilter m, defaultSeverity (c_text m))) messages.
(** The rows of the compact transcript. *)
Definition compact_rows (channelAliases : gmap Z string) (messages : list chat_msg)
  : list (string * string * string * option severity) :=
  map (λ m, (c_ts m, transcript_source channelAliases m, c_text m, defaultSeverity (c_text m))) messages.

(** The top bar of the page. *)
Definition hostTag (nodes : option (list (option string))) : string :=
  match nodes with
  | Some (first :: _) => or_str (toUpperCase (first ?? "")) "—"
  | _ => "—"
  end.
Inductive chip := ChipOk | ChipWarn | ChipCrit.
Record top_bar := mk_top_bar { node_id : string; channel_text : string; chips : list (chip * string) }.
Definition comms_top_bar (nodes : option (list (option string))) (channel : Z) (name : string)
    (codec : string) (ptimeMs rttMs : Z) (wsConnected audioOn : bool) (peersOnChannel : Z) : top_bar :=
  mk_top_bar ("NODE-" ++ hostTag nodes)
    ("CH " ++ pretty channel ++ " · " ++ name ++ (if decide (codec = "") then " · —" else " · " ++ codec)
       ++ " · PTIME " ++ (if decide (ptimeMs = 0%Z) then "—" else pretty ptimeMs) ++ "MS")
    [ (if wsConnected then ChipOk else ChipCrit, "WS " ++ if wsConnected then "UP" else "DOWN");
      (if audioOn then ChipOk else ChipWarn, "AUDIO " ++ if audioOn then "ON" else "OFF");
      (if decide (0 < peersOnChannel)%Z then ChipOk else ChipWarn, pretty peersOnChannel ++ " PEERS ON CH");
      (if decide (0 < rttMs < 500)%Z then ChipOk else ChipWarn,
       "LAT " ++ if decide (0 < rttMs)%Z then pretty rttMs ++ "MS" else "—") ]%string.

Definition pttLabel (pttActive : bool) (channel : Z) (name : string) : string :=
  if pttActive then ("TRANSMITTING · CH " ++ pretty channel ++ " " ++ name)%string else "TX · HOLD".
Definition ptt_ring (pttActive : bool) : string := if pttActive then "TX · ON" else "TX · HOLD".

(** The log panel: a change of the lines scrolls to the end unless the lock is on.
    Lines are [(text, class)]; [scrollHeight] is the browser's, which also clamps
    [scrollTop]. *)
Section LogPanel.
Context (scrollHeight : list (string * string) → Z).

Record log_panel := mk_log_panel { scrollLocked : bool; lines : list (string * string); scrollTop : Z }.
Inductive log_event := LogLine (ts msg : string) (cls : option string) | ToggleScrollLock | ClearLogs | UserScroll (top : Z).

Definition set_lines (l : list (string * string)) (p : log_panel) : log_panel :=
  mk_log_panel (scrollLocked p) l (if scrollLocked p then scrollTop p else scrollHeight l).

Definition log_fire (p : log_panel) (e : log_event) : log_panel :=
  match e with
  | LogLine ts msg cls => set_lines (addLog ts msg cls (lines p)) p
  | ToggleScrollLock => mk_log_panel (negb (scrollLocked p)) (lines p) (scrollTop p)
  | ClearLogs => set_lines [] p
  | UserScroll top => mk_log_panel (scrollLocked p) (lines p) top
  end.
End LogPanel.

(** ** The waveform is the last two hundred peaks *)

Section Waveform_facts.
Context {N : Type} `{Arith N}.

Lemma wave_index_spec (pos i : nat) :
  (i < RX_WAVE_HISTORY)%nat → wave_index pos i = ((pos + i) `mod` RX_WAVE_HISTORY)%nat.
Proof.
  unfold wave_index, RX_WAVE_HISTORY. intros Hi. rewrite Z.rem_mod_nonneg by lia.
  replace (pos - 200%nat + i + 200%nat * 2)%Z with ((pos + i)%nat + 1 * 200%nat)%Z by lia.
  rewrite Z.mod_add by lia. rewrite <- Nat2Z.inj_mod. apply Nat2Z.id.
Qed.

(** Slot [k] holds the newest peak whose number is [k] modulo the size. *)
Lemma wave_slots (ps : list N) :
  let w := foldl (λ w p, wave_push p w) wave_init ps in
  length (rxWaveData w) = RX_WAVE_HISTORY ∧ rxWaveWritePos w = length ps
  ∧ ∀ i, (i < RX_WAVE_HISTORY)%nat →
      rxWaveData w !! ((length ps + i) `mod` RX_WAVE_HISTORY)%nat
        = (replicate RX_WAVE_HISTORY (int 0) ++ ps) !! (length ps + i)%nat.
Proof.
  induction ps as [|p ps IH] using rev_ind.
  - cbn zeta. split_and!; [done|done|]. intros i Hi. cbn [length foldl]. rewrite app_nil_r.
    by rewrite Nat.add_0_l, Nat.mod_small.
  - cbv zeta in *. rewrite foldl_app. cbn [foldl]. destruct IH as (Hl & Hp & Hs).
    set (w := foldl _ _ ps) in *. unfold wave_push. cbn [rxWaveData rxWaveWritePos]. rewrite length_insert, length_app, Hp. cbn [length].
    split_and!; [done|lia|]. intros i Hi.
    assert (0 < RX_WAVE_HISTORY)%nat as Hpos by (unfold RX_WAVE_HISTORY; lia).
    set (R := RX_WAVE_HISTORY) in *. clearbody R.
    destruct (decide (S i = R)) as [Heq|Hne].
    + replace (length ps + 1 + i)%nat with (length ps + 1 * R)%nat by lia. rewrite Nat.Div0.mod_add.
      rewrite list_lookup_insert_eq by (rewrite Hl; apply Nat.mod_upper_bound; lia).
      rewrite app_assoc, lookup_app_r; rewrite length_app, length_replicate; [|lia].
      by replace (length ps + 1 * R - (R + length ps))%nat with 0%nat by lia.
    + rewrite list_lookup_insert_ne.
      * replace (length ps + 1 + i)%nat with (length ps + S i)%nat by lia. rewrite Hs by lia.
        rewrite app_assoc, (lookup_app_l _ [p]); [done|]. rewrite length_app, length_replicate. lia.
      * intros Heq.
        assert ((length ps + 1 + i - length ps) `mod` R = 0)%nat as Hm.
        { apply Nat2Z.inj. rewrite Nat2Z.inj_mod, Nat2Z.inj_sub by lia.
          apply (f_equal Z.of_nat) in Heq. rewrite !Nat2Z.inj_mod in Heq.
          rewrite Zminus_mod, <- Heq, Z.sub_diag. done. }
        rewrite Nat.mod_small in Hm by lia. lia.
Qed.

(** The waveform shows the last two hundred peaks, the oldest at the left, silence
    before the first. *)
Theorem waveform_window (ps : list N) :
  wave_bars (foldl (λ w p, wave_push p w) wave_init ps)
    = last_n RX_WAVE_HISTORY (replicate RX_WAVE_HISTORY (int 0) ++ ps).
Proof.
  destruct (wave_slots ps) as (Hl & Hp & Hs). cbv zeta in *. unfold wave_bars. rewrite Hp.
  set (w := foldl _ _ ps) in *. unfold last_n. rewrite length_app, length_replicate.
  apply list_eq. intros i. rewrite lookup_drop, list_lookup_fmap.
  replace (RX_WAVE_HISTORY + length ps - RX_WAVE_HISTORY + i)%nat with (length ps + i)%nat by lia.
  destruct (decide (i < RX_WAVE_HISTORY)%nat) as [Hi|Hi].
  - rewrite lookup_seq_lt by done. cbn [fmap option_fmap option_map]. rewrite Nat.add_0_l, wave_index_spec, Hs by done.
    destruct (lookup_lt_is_Some_2 (replicate RX_WAVE_HISTORY (int 0) ++ ps) (length ps + i)) as [x Hx].
    { rewrite length_app, length_replicate. lia. }
    by rewrite Hx.
  - rewrite lookup_seq_ge by lia. symmetry. apply lookup_ge_None_2. rewrite length_app, length_replicate. lia.
Qed.
End Waveform_facts.

Section Exact_views.
Local Open Scope Q_scope.

Lemma peak_range (pcm : list Q) :
  Forall (λ x, -(1) <= x <= 1) pcm → 0 <= peak_of pcm <= 1 ∧ Forall (λ x, x <= peak_of pcm ∧ - x <= peak_of pcm) pcm.
Proof.
  unfold peak_of. induction pcm as [|x pcm IH] using rev_ind; [intros _; split; [cbn [foldl]; eval_ints; lra|constructor]|].
  rewrite Forall_app, Forall_singleton, foldl_app. intros [Hf Hx]. cbn beta in Hx. cbn [foldl]. destruct (IH Hf) as [Hp Hall].
  set (p := foldl _ _ pcm) in *. cbv zeta. destruct (abs_Q x) as [Ha Hax].
  destruct (lt p (Math_abs x)) eqn:E; [apply lt_Q in E|apply nlt_Q in E].
  - split; [destruct Hax; lra|]. rewrite Forall_app, Forall_singleton. split; [|destruct Hax; lra].
    eapply Forall_impl; [exact Hall|]. cbn. intros y [? ?]. lra.
  - split; [done|]. rewrite Forall_app, Forall_singleton. split; [exact Hall|destruct Hax; lra].
Qed.

(** Every bar of the waveform lies on the canvas, symmetric about its middle, and
    the peak of a frame bounds each of its samples. *)
Theorem bars_on_canvas (W H' amp : Q) (i : nat) (pcm : list Q) :
  0 <= W → 0 <= H' → (i < RX_WAVE_HISTORY)%nat → Forall (λ x, -(1) <= x <= 1) pcm → amp = peak_of pcm →
  let '(x, y1, y2) := bar_line W H' i amp in
  0 <= x <= W ∧ 0 <= y1 ∧ y1 <= y2 ∧ y2 <= H' ∧ y1 + y2 == H'
  ∧ Forall (λ s, s <= amp ∧ - s <= amp) pcm.
Proof.
  intros HW HH Hi Hpcm ->. destruct (peak_range pcm Hpcm) as [[Ha1 Ha2] Hall].
  set (a := peak_of pcm) in *. clearbody a. unfold bar_line. cbv zeta.
  change (div H' (int 2)) with (H' * (1 # 2)).
  change (div (int i) (int RX_WAVE_HISTORY)) with ((Z.of_nat i # 1) / (Z.of_nat RX_WAVE_HISTORY # 1)).
  assert (0 <= (Z.of_nat i # 1) / (Z.of_nat RX_WAVE_HISTORY # 1) <= 1) as [Hx1 Hx2].
  { unfold RX_WAVE_HISTORY in *. split; [apply Qle_shift_div_l|apply Qle_shift_div_r]; unfold Qlt, Qle; cbn; lia. }
  set (u := (Z.of_nat i # 1) / _) in *. clearbody u. unfold mul, sub, add. cbn [rationals].
  assert (0 <= a * (H' * (1 # 2)) <= H' * (1 # 2)) as [Hlo Hhi] by (split; nra).
  split_and!; try lra; try nra; exact Hall.
Qed.

(** *** The meter *)

Section Meter_facts.
Context (decibels : Q → string).

Definition level_ok (e : meter_event Q) : Prop :=
  match e with MeterProps level _ _ => 0 <= level <= 1 | Frame => True end.

Definition meter_inv (m : meter Q) : Prop :=
  (0 <= m_level m <= 1) ∧ (0 <= m_smooth m <= 1) ∧ (0 <= m_pct m <= 100 # 1).

Lemma update_frame (m : meter Q) :
  meter_inv m →
  meter_inv (update decibels m) ∧ m_level m <= m_smooth (update decibels m)
  ∧ (m_level m <= m_smooth m → m_smooth (update decibels m) - m_level m == (85 # 100) * (m_smooth m - m_level m)).
Proof.
  intros (Hl & Hs & Hp). unfold meter_inv, update. cbv zeta. cbn [m_level m_smooth m_pct].
  set (s := if lt (m_smooth m) (m_level m) then _ else _).
  assert (0 <= s <= 1 ∧ m_level m <= s ∧ (m_level m <= m_smooth m → s - m_level m == (85 # 100) * (m_smooth m - m_level m)))
    as (Hs' & Hle & Hrel).
  { subst s. destruct (lt _ _) eqn:E; [apply lt_Q in E; split_and!; lra|apply nlt_Q in E].
    unfold add, mul, lit. cbn [rationals]. change (Z.to_pos (10 ^ 2)) with 100%positive. split_and!; lra. }
  clearbody s. split_and!; try tauto; try lra.
  - unfold Math_min. destruct (lt _ _); [|eval_ints; lra]. unfold mul. cbn [rationals]. eval_ints. lra.
  - destruct (min_Q (int 100) (mul s (int 300))) as [Hm _]. eval_ints. exact Hm.
Qed.

Lemma meter_reach level active vox es :
  0 <= level <= 1 → Forall level_ok es → meter_inv (foldl (meter_fire decibels) (MicMeter level active vox) es).
Proof.
  intros Hl. induction es as [|e es IH] using rev_ind; [intros _; repeat split; cbn [MicMeter m_level m_smooth m_pct foldl]; eval_ints; lra|].
  rewrite Forall_app, Forall_singleton, foldl_app. intros [Hf He]. cbn [foldl]. destruct (IH Hf) as (H1 & H2 & H3).
  set (m := foldl _ _ es) in *. destruct e as [l a v|]; cbn [meter_fire level_ok] in *.
  - unfold meter_render, meter_inv. cbv zeta. cbn [m_level m_smooth m_pct]. split_and!; try tauto; try lra.
    all: destruct (a || v); cbn [negb]; eval_ints; lra.
  - destruct (m_show m); [|done]. by apply update_frame.
Qed.

(** The meter, over any renders and frames with levels of a microphone: the bar is
    between nothing and full, at most all segments are lit, and a meter that is not
    shown shows nothing. *)
Theorem meter_bounds level active vox es (segments : nat) :
  0 <= level <= 1 → Forall level_ok es →
  let m := foldl (meter_fire decibels) (MicMeter level active vox) es in
  0 <= visiblePct m <= 100 # 1
  ∧ (0 <= lit_segments segments m <= segments)%Z
  ∧ (m_show m = false → visiblePct m == 0 ∧ meter_label m = "—"
       ∧ Forall (λ s, s.2 = false) (meter_segments segments m)).
Proof.
  intros Hl Hes m. destruct (meter_reach level active vox es Hl Hes) as (_ & _ & Hp). fold m in Hp.
  assert (0 <= visiblePct m <= 100 # 1) as Hv by (unfold visiblePct; destruct (m_show m); eval_ints; [done|lra]).
  assert (0 <= lit_segments segments m <= segments)%Z as Hlit.
  { unfold lit_segments. apply round_Q. change (div (visiblePct m) (int 100)) with (visiblePct m * (1 # 100)).
    change (mul (visiblePct m * (1 # 100)) (int segments)) with (visiblePct m * (1 # 100) * inject_Z segments).
    change (inject_Z 0) with 0. assert (0 <= inject_Z segments) by (unfold Qle, inject_Z; cbn; lia). split; nra. }
  split_and!; try tauto; try lia; try lra. intros Hs. unfold visiblePct, meter_label, visibleDb. rewrite Hs.
  split_and!; [eval_ints; lra|done|]. unfold meter_segments, lit_segments, visiblePct. rewrite Hs.
  apply Forall_fmap, Forall_true. intros i. cbn [compose snd].
  apply Z.ltb_ge. enough (0 <= round (mul (div (int (N := Q) 0) (int 100)) (int segments)) <= 0)%Z by lia.
  apply round_Q. split; unfold Qle; cbn; lia.
Qed.

(** Fast attack, slow release: a frame brings the needle to the level at once, or
    15 hundredths of the way down; from a third of full scale on the bar is full. *)
Theorem meter_follows level active vox es :
  0 <= level <= 1 → Forall level_ok es →
  let m := foldl (meter_fire decibels) (MicMeter level active vox) es in
  m_show m = true →
  let m' := meter_fire decibels m Frame in
  m_level m <= m_smooth m'
  ∧ (m_smooth m < m_level m → m_smooth m' = m_level m)
  ∧ (m_level m <= m_smooth m → m_smooth m' - m_level m == (85 # 100) * (m_smooth m - m_level m))
  ∧ ((1 # 3) <= m_level m → visiblePct m' == 100 # 1).
Proof.
  intros Hl Hes m Hs. pose proof (meter_reach level active vox es Hl Hes) as Hi. fold m in Hi.
  destruct (update_frame m Hi) as (Hi' & Hle & Hrel). cbn [meter_fire]. rewrite Hs. split_and!; try tauto.
  - intros Hlt. unfold update. cbv zeta. cbn [m_smooth]. apply lt_Q in Hlt. by rewrite Hlt.
  - intros Hthird. unfold visiblePct. change (m_show (update decibels m)) with (m_show m). rewrite Hs.
    change (m_pct (update decibels m)) with (Math_min (int 100) (mul (m_smooth (update decibels m)) (int 300))).
    set (s := m_smooth _) in *. clearbody s. unfold Math_min. destruct (lt _ _) eqn:E; [|eval_ints; lra].
    apply lt_Q in E. unfold mul in *. cbn [rationals] in *. eval_ints. lra.
Qed.
End Meter_facts.
End Exact_views.

(** The segments of the page's meter, full: nine, then five, then two. *)
Example meter_tiers :
  map (seg_tier (N := number) 16) (seq 0 16)
    = (replicate 9 SegOk ++ replicate 5 SegWarn ++ replicate 2 SegCrit)%list.
Proof. vm_compute. reflexivity. Qed.

(** What is lit is a prefix of the bar. *)
Theorem meter_prefix {N} `{Arith N} `{!Rounding N} (segments i j : nat) (m : meter N) a b :
  meter_segments segments m !! i = Some a → meter_segments segments m !! j = Some b →
  (i <= j)%nat → b.2 = true → a.2 = true.
Proof.
  unfold meter_segments. intros Hi Hj Hij. apply list_lookup_fmap_Some in Hi as (x & -> & Hx).
  apply list_lookup_fmap_Some in Hj as (y & -> & Hy). apply lookup_seq in Hx as [-> _]. apply lookup_seq in Hy as [-> _].
  cbn. rewrite !Z.ltb_lt. lia.
Qed.

(** A meter that is shown again starts with the level it had when it was hidden, until
    the first frame. *)
Example meter_stale_level :
  let dB (_ : number) := "-6" in
  let m0 := MicMeter (decimal 5 1) true false in
  let m := foldl (meter_fire dB) m0 [Frame; MeterProps (of_int 0) false false; MeterProps (of_int 0) true false] in
  lit_segments 16 m = 16%Z ∧ lit_segments 16 (meter_fire dB m Frame) = 0%Z.
Proof. vm_compute. done. Qed.

(** ** Devices *)

Section Devices_facts.
Import Devices.

(** Calls of [setSinkId] that succeed, in the order they were made. *)
Definition calm (e : Devices.event) : Prop :=
  match e with SinkSettled i outcome => i = 0%nat ∧ outcome = Some None | _ => True end.

(** The devices a list offers are those of its kind, in the browser's order. *)
Definition split_by_kind (ds : list device * list device) : Prop :=
  Forall (λ d, kind d = AudioInput) ds.1 ∧ Forall (λ d, kind d = AudioOutput) ds.2.

Definition devices_inv (sink0 mic0 : string) (p : Devices.page) : Prop :=
  split_by_kind (audioDevices p)
  ∧ (micId p = selectedMic p ∨ (selectedMic p = "" ∧ micId p = mic0)).

Definition sinks_inv (sink0 : string) (p : Devices.page) : Prop :=
  (last (map fst (sinks p)) ?? sink p = selectedOutput p)
  ∨ (selectedOutput p = "" ∧ sinks p = [] ∧ sink p = sink0).

Lemma filter_kind k (l : list device) : Forall (λ d, kind d = k) (filter (λ d, kind d = k) l).
Proof. apply Forall_forall. intros d Hd. by apply list_elem_of_filter in Hd as [? _]. Qed.

Lemma devices_fire s0 m0 p e : devices_inv s0 m0 p → devices_inv s0 m0 (Devices.fire p e).
Proof.
  intros [Hk Hm]. destruct e as [md| |answer|id|i outcome|id]; cbn [Devices.fire]; try done.
  - by destruct (listening p).
  - destruct (decide _); [done|]. split; [|done]. cbn. destruct answer as [ds|]; [|split; constructor].
    split; apply filter_kind.
  - unfold sink_settled. destruct (sinks p !! i) as [[id names]|]; [|done]. by destruct outcome as [[?|]|].
  - split; [done|by left].
Qed.

Lemma sinks_fire s0 p e : calm e → sinks_inv s0 p → sinks_inv s0 (Devices.fire p e).
Proof.
  intros Hc Hs. destruct e as [md| |answer|id|i outcome|id]; cbn [Devices.fire]; try done.
  - by destruct (listening p).
  - by destruct (decide _).
  - left. cbn [handleOutputChange sinks sink selectedOutput]. rewrite map_app. cbn [map fst]. by rewrite last_snoc.
  - destruct Hc as [-> ->]. unfold sink_settled. destruct (sinks p) as [|[id names] l] eqn:El; [done|]. cbn.
    left. cbn. destruct Hs as [Hs|(? & Hs & _)]; [|by rewrite El in Hs]. rewrite El in Hs. destruct l as [|x l]; [exact Hs|]. cbn [map fst] in *.
    rewrite !last_cons in *. by destruct (last (map fst l)).
Qed.

(** The device controls.  Whatever happens, each selector offers devices of its kind
    only, and a microphone picked on this page is the one the engine will open; as long
    as the context accepts the outputs, one after the other, the output on display is
    the one that plays, or will when the last call settles. *)
Theorem devices_in_step (sink0 mic0 : string) (es : list Devices.event) :
  let p := foldl Devices.fire (Devices.open sink0 mic0) es in
  split_by_kind (audioDevices p)
  ∧ (selectedMic p ≠ "" → micId p = selectedMic p)
  ∧ (Forall calm es → selectedOutput p ≠ "" → last (map fst (sinks p)) ?? sink p = selectedOutput p).
Proof.
  cbv zeta. assert (devices_inv sink0 mic0 (foldl Devices.fire (Devices.open sink0 mic0) es)) as [Hk Hm].
  { induction es as [|e es IH] using rev_ind; [split; [split; constructor|by right]|]. rewrite foldl_app. by apply devices_fire. }
  split_and!; [done|by destruct Hm as [->|[-> ?]]|]. intros Hc Hne.
  assert (sinks_inv sink0 (foldl Devices.fire (Devices.open sink0 mic0) es)) as [Hs|(? & _)]; [|done..].
  clear Hk Hm Hne. induction es as [|e es IH] using rev_ind; [by right|].
  rewrite Forall_app, Forall_singleton in Hc. rewrite foldl_app. apply sinks_fire; naive_solver.
Qed.

(** An output that is refused stays on display. *)
Example refused_output_shown :
  let speaker := mk_device AudioOutput "usb" "Headset" in
  let p := foldl Devices.fire (Devices.open "" "")
    [AudioReady true; Enumerated (Some [speaker]); PickOutput "usb"; SinkSettled 0 (Some (Some "NotFoundError"))] in
  AudioControls p = (Some ("usb", [("usb", "Headset")]), None)
  ∧ sink p = "" ∧ log p = ["Output device error: NotFoundError"].
Proof. vm_compute. done. Qed.

(** The engine keeps its devices when the page is left; the page opened again shows
    none of them. *)
Example reopened_selectors :
  let mic := mk_device AudioInput "usb" "Headset" in
  let p := foldl Devices.fire (Devices.open "" "usb") [AudioReady true; Enumerated (Some [mic])] in
  AudioControls p = (None, Some ("", [("usb", "Headset")])) ∧ micId p = "usb".
Proof. vm_compute. done. Qed.
End Devices_facts.

(** ** The threshold *)

(** The slider comes back to where it was moved, except at zero. *)
Theorem threshold_shown (v : Z) : (1 <= v <= 50)%Z → voxPct (onVoxThresholdChange v) = Some v.
Proof.
  intros Hv. assert (Forall (λ v, voxPct (onVoxThresholdChange v) = Some v) (map Z.of_nat (seq 1 50))) as H.
  { apply (bool_decide_unpack _). vm_compute. exact I. }
  rewrite Forall_forall in H. apply H. apply list_elem_of_fmap. exists (Z.to_nat v). rewrite Z2Nat.id by lia.
  split; [done|]. apply elem_of_seq. lia.
Qed.

(** At zero the slider jumps to 15 while any sound at all keys the radio. *)
Example threshold_zero :
  voxPct (onVoxThresholdChange 0) = Some 15%Z
  ∧ vox_loud (decimal 1 6) (onVoxThresholdChange 0) = true
  ∧ vox_loud (decimal 14 2) (onVoxThresholdChange 15) = false.
Proof. vm_compute. done. Qed.

(** ** The grid *)

Section Grid_facts.
Import CommsPanel.Names Grid.

(** Both views of the grid: the same channels in the same order, with the same dots,
    switches and replay buttons, and so the same actions; the tiles only print the
    names in capitals.  At most one name is being edited, and it is shown with its
    present text. *)
Theorem tiles_as_list (p : grid_props) :
  let rows := ChannelGrid false p in let tiles := ChannelGrid true p in
  map e_ch tiles = map e_ch rows ∧ map dot tiles = map dot rows
  ∧ map rx_on tiles = map rx_on rows ∧ map tx_on tiles = map tx_on rows
  ∧ (∀ b, map (entry_click b) tiles = map (entry_click b) rows)
  ∧ Forall (λ e, active e = rx_on e || tx_on e) tiles
  ∧ Forall2 (λ t r, match cell_of t, cell_of r with
                    | Input a, Input b => a = b | Name a, Name b => a = toUpperCase b | _, _ => False end) tiles rows
  ∧ Forall (λ e, ∀ t, cell_of e = Input t →
      editingCh (aliases p) = Some (e_ch e) ∧ t = getLabel (n_names (aliases p)) (e_ch e)) (tiles ++ rows).
Proof.
  unfold ChannelGrid. cbv zeta. rewrite !map_map. split_and!; try done.
  - intros b. by rewrite !map_map; destruct b.
  - by apply Forall_fmap, Forall_true.
  - apply Forall2_fmap, Forall_Forall2_diag, Forall_true. intros d. cbn. unfold name_cell. by destruct (decide _).
  - apply Forall_app; split; apply Forall_fmap, Forall_true; intros d t; cbn; unfold name_cell;
      (destruct (decide _); [|done]); by intros [= <-].
Qed.
End Grid_facts.

(** ** Button, transcript and log *)

(** The text under the push-to-talk button: "none" exactly when nothing sends, and
    "All channels" exactly when every channel of the table does. *)
Theorem tx_info_exact tx aliases :
  let channels := map ch CHANNELS_DEF in
  (txInfoContent (Some (tx_channels tx)) aliases = TxNone ↔ ∀ c, c ∈ channels → tx !! c ?? false = false)
  ∧ (txInfoContent (Some (tx_channels tx)) aliases = TxAllChannels ↔ ∀ c, c ∈ channels → tx !! c ?? false = true).
Proof.
  assert (∀ P : Z → Prop, (∀ c, c ∈ map ch CHANNELS_DEF → P c) ↔ P 1 ∧ P 2 ∧ P 3 ∧ P 4 ∧ P 5)%Z as Hall.
  { intros P. cbn. split; [intros H; split_and!; apply H; set_solver|].
    intros (?&?&?&?&?) c. rewrite !elem_of_cons, elem_of_nil. naive_solver. }
  cbv zeta. rewrite !Hall. unfold tx_channels. cbn [CHANNELS_DEF map ch].
  rewrite !filter_cons, filter_nil.
  destruct (tx !! 1%Z ?? false), (tx !! 2%Z ?? false), (tx !! 3%Z ?? false), (tx !! 4%Z ?? false), (tx !! 5%Z ?? false);
    repeat (destruct (decide _); [|done] || destruct (decide _); [done|]); cbn; naive_solver.
Qed.

(** With a channel chosen the full transcript shows exactly the messages of that
    channel, with "All Channels" every one; and each option of the filter is a channel
    of the table or none. *)
Theorem transcript_filtered (c : Z) (messages : list chat_msg) aliases :
  let shown := map (λ r, r.1.1) (filter (λ r, r.1.2 = false) (transcript_rows c messages)) in
  shown = (if decide (c = 0)%Z then messages else filter (λ m, c_ch m = c) messages)
  ∧ map fst (filter_options aliases) = 0%Z :: map ch CHANNELS_DEF.
Proof.
  split; [|done]. unfold transcript_rows, transcript_hidden. destruct (decide (c = 0%Z)) as [->|Hc].
  - induction messages as [|m l IH]; [done|]. cbn [map]. rewrite filter_cons. cbn [fst snd].
    rewrite decide_True by done. cbn [map fst]. by rewrite IH.
  - rewrite (proj2 (Z.eqb_neq c 0)) by done. cbn [negb andb].
    induction messages as [|m l IH]; [done|]. cbn [map]. rewrite !filter_cons. cbn [fst snd].
    destruct (decide (c_ch m = c)) as [Hm|Hm].
    + rewrite (proj2 (Z.eqb_eq _ _) Hm), decide_True by done. cbn [map fst]. by rewrite IH.
    + rewrite (proj2 (Z.eqb_neq _ _) Hm), decide_False by done. exact IH.
Qed.

(** Lines never move a locked view, and leave an unlocked one at the end; the lock
    loses no line. *)
Theorem log_follows scrollHeight (p : log_panel) (ls : list (string * string * option string)) :
  let p' := foldl (λ p l, log_fire scrollHeight p (LogLine l.1.1 l.1.2 l.2)) p ls in
  scrollLocked p' = scrollLocked p
  ∧ scrollTop p' = (if scrollLocked p || bool_decide (ls = []) then scrollTop p else scrollHeight (lines p'))
  ∧ lines p' = foldl (λ l e, addLog e.1.1 e.1.2 e.2 l) (lines p) ls.
Proof.
  cbv zeta. induction ls as [|l ls IH] using rev_ind; [by cbn; rewrite orb_true_r|].
  rewrite !foldl_app. destruct IH as (Hl & Ha & Hls).
  set (q := foldl (λ p l, log_fire _ _ _) p ls) in *. clearbody q.
  cbn [foldl log_fire set_lines scrollLocked scrollTop lines]. rewrite Hl, Hls.
  split_and!; [done| |done]. rewrite bool_decide_eq_false_2 by (by destruct ls).
  rewrite orb_false_r. destruct (scrollLocked p); [exact Ha|done].
Qed.
