(* ===== verification/AudioGraph.v ===== *)
(** The audio graph of [services/audioEngine.js]: the nodes that [initAudio],
    [startMic], [startMicMonitor] and [playBuffer] create and connect, their gains,
    and what [stopMic] takes apart.

    A node is known by its number, the destination is node 0; the references of the
    module may be overwritten while old nodes stay connected, as when two requests
    for the microphone overlap.  Gains are in percent.  [limits] says whether the
    browser offers [createDynamicsCompressor]. *)
From S2P Require Import Prelude.
From stdpp Require Import relations.

Section AudioGraph.
Context (limits : bool).

(** What a node was created for. *)
Inductive role :=
| Destination | Speaker | RxLimiter | Decoder | Buffer
| MicSource | MicGain | MicLimiter | MicProcessor | MicSilent.
#[export] Instance role_eq_dec : EqDecision role.
Proof. solve_decision. Defined.

Record node := mk_node { role_of : role; gain : Z }.

Record graph := mk_graph {
  nodes : list node;
  edges : list (nat * nat);
  gainNode : option nat;
  rxLimiter : option nat;
  decoderNode : option nat;
  micSource : option nat;
  micGainNode : option nat;
  micLimiter : option nat;
  micProcessor : option nat;
  micSilentGain : option nat;
  micGain : Z
}.

(** Before [initAudio] there is no context; its destination is node 0. *)
Definition no_audio : graph := mk_graph [] [] None None None None None None None None 80.

Definition audioCtx (g : graph) : bool := bool_decide (nodes g ≠ []).

(** *** The API of the graph *)

Definition set_nodes (n : list node) (g : graph) : graph :=
  mk_graph n (edges g) (gainNode g) (rxLimiter g) (decoderNode g) (micSource g) (micGainNode g) (micLimiter g)
    (micProcessor g) (micSilentGain g) (micGain g).
Definition set_edges (e : list (nat * nat)) (g : graph) : graph :=
  mk_graph (nodes g) e (gainNode g) (rxLimiter g) (decoderNode g) (micSource g) (micGainNode g) (micLimiter g)
    (micProcessor g) (micSilentGain g) (micGain g).
Definition set_speaker (s r d : option nat) (g : graph) : graph :=
  mk_graph (nodes g) (edges g) s r d (micSource g) (micGainNode g) (micLimiter g) (micProcessor g)
    (micSilentGain g) (micGain g).
Definition set_mic (s gn l p z : option nat) (g : graph) : graph :=
  mk_graph (nodes g) (edges g) (gainNode g) (rxLimiter g) (decoderNode g) s gn l p z (micGain g).

(** [audioCtx.create...()]: the new node is the last one. *)
Definition create (r : role) (v : Z) (g : graph) : graph := set_nodes (nodes g ++ [mk_node r v]) g.
Definition fresh (g : graph) : nat := length (nodes g).
(** [a.connect(b)]; connecting twice is connecting once. *)
Definition connect (a b : nat) (g : graph) : graph :=
  if decide ((a, b) ∈ edges g) then g else set_edges (edges g ++ [(a, b)]) g.
(** [a.disconnect()]: every connection out of [a]. *)
Definition disconnect (a : nat) (g : graph) : graph := set_edges (filter (λ e, e.1 ≠ a) (edges g)) g.
Definition set_gain (a : nat) (v : Z) (g : graph) : graph :=
  set_nodes (alter (λ n, mk_node (role_of n) v) a (nodes g)) g.

(** *** The engine *)

(** [createLimiter()] between two nodes, or their direct connection. *)
Definition through_limiter (r : role) (a b : nat) (g : graph) : graph * option nat :=
  if limits then
    let l := fresh g in (connect l b (connect a l (create r 100 g)), Some l)
  else (connect a b g, None).

(** The graph part of [initAudio]; the worklet node or the script processor. *)
Definition initAudio (g : graph) : graph :=
  if audioCtx g then g
  else
    let s := S (fresh g) in
    let g1 := create Speaker 80 (create Destination 100 g) in
    let '(g2, l) := through_limiter RxLimiter s 0 g1 in
    let d := fresh g2 in
    set_speaker (Some s) l (Some d) (connect d s (create Decoder 100 g2)).

Definition setVolume (v : Z) (g : graph) : graph :=
  match gainNode g with Some s => set_gain s v g | None => g end.

Definition setMicGain (v : Z) (g : graph) : graph :=
  let g' := mk_graph (nodes g) (edges g) (gainNode g) (rxLimiter g) (decoderNode g) (micSource g)
              (micGainNode g) (micLimiter g) (micProcessor g) (micSilentGain g) v in
  match micGainNode g with Some n => set_gain n v g' | None => g' end.

(** [connectMicChain()] from the source to the processor. *)
Definition connectMicChain (src proc : nat) (g : graph) : graph * nat * option nat :=
  let n := fresh g in
  let g1 := connect src n (create MicGain (micGain g) g) in
  let '(g2, l) := through_limiter MicLimiter n proc g1 in
  (g2, n, l).

(** A stream was granted to [startMic] or [startMicMonitor]. *)
Definition mic_opened (g : graph) : graph :=
  if audioCtx g then
    let src := fresh g in
    let proc := S src in
    let '(g1, n, l) := connectMicChain src proc (create MicProcessor 100 (create MicSource 100 g)) in
    let z := fresh g1 in
    let g2 := connect z 0 (connect proc z (create MicSilent 0 g1)) in
    set_mic (Some src) (Some n) l (Some proc) (Some z) g2
  else g.

Definition disconnect_ref (a : option nat) (g : graph) : graph :=
  match a with Some a => disconnect a g | None => g end.

Definition stopMic (g : graph) : graph :=
  set_mic None None None None None
    (disconnect_ref (micSource g) (disconnect_ref (micGainNode g) (disconnect_ref (micLimiter g)
      (disconnect_ref (micProcessor g) (disconnect_ref (micSilentGain g) g))))).

(** [playBuffer(pcm)]: a source that plays into the speaker gain, or nothing. *)
Definition playBuffer (length : nat) (g : graph) : graph :=
  match gainNode g with
  | Some s => if decide (length = 0) then g else let b := fresh g in connect b s (create Buffer 100 g)
  | None => g
  end.

Inductive call := InitAudio | SetVolume (v : Z) | SetMicGain (v : Z) | MicOpened | StopMic | PlayBuffer (length : nat).

Definition fire (g : graph) (c : call) : graph :=
  match c with
  | InitAudio => initAudio g
  | SetVolume v => setVolume v g
  | SetMicGain v => setMicGain v g
  | MicOpened => mic_opened g
  | StopMic => stopMic g
  | PlayBuffer n => playBuffer n g
  end.

(** ** Every connection is one of these *)

Definition allowed (a b : role) : bool :=
  match a, b with
  | MicSource, MicGain => true
  | MicGain, MicLimiter => limits
  | MicGain, MicProcessor => negb limits
  | MicLimiter, MicProcessor | MicProcessor, MicSilent | MicSilent, Destination => true
  | (Decoder | Buffer), Speaker => true
  | Speaker, RxLimiter => limits
  | Speaker, Destination => negb limits
  | RxLimiter, Destination => true
  | _, _ => false
  end.

Definition has_role (g : graph) (r : role) (a : nat) : Prop := role_of <$> nodes g !! a = Some r.
Definition edge (g : graph) (a b : nat) : Prop := (a, b) ∈ edges g.

(** A reference is to a node of its role. *)
Definition ref_ok (g : graph) (r : role) (a : option nat) : Prop :=
  match a with Some a => has_role g r a | None => True end.

Record wf (g : graph) : Prop := mk_wf {
  wf_edges : ∀ a b, edge g a b → ∃ r r', has_role g r a ∧ has_role g r' b ∧ allowed r r' = true;
  wf_silent : ∀ a n, nodes g !! a = Some n → role_of n = MicSilent → gain n = 0%Z;
  wf_dest : nodes g ≠ [] → has_role g Destination 0;
  wf_speaker : ref_ok g Speaker (gainNode g);
  wf_mic : ref_ok g MicGain (micGainNode g)
}.

Lemma has_role_create g r v a r' : has_role g r' a → has_role (create r v g) r' a.
Proof.
  unfold has_role, create. cbn [nodes set_nodes]. intros H.
  rewrite lookup_app. by destruct (nodes g !! a).
Qed.
Lemma has_role_fresh g r v : has_role (create r v g) r (fresh g).
Proof. unfold has_role, create, fresh. cbn [nodes set_nodes]. by rewrite list_lookup_middle. Qed.
Lemma has_role_connect g a b r c : has_role (connect a b g) r c ↔ has_role g r c.
Proof. unfold connect. by destruct (decide _). Qed.
Lemma has_role_gain g a v r c : has_role (set_gain a v g) r c ↔ has_role g r c.
Proof.
  unfold has_role, set_gain. cbn [nodes set_nodes]. rewrite list_lookup_alter.
  destruct (decide (a = c)) as [->|Hne]; [by destruct (nodes g !! c)|done].
Qed.
Lemma edge_connect g a b c d : edge (connect a b g) c d ↔ edge g c d ∨ (c, d) = (a, b).
Proof.
  unfold connect, edge. destruct (decide _) as [Hin|Hin]; [|cbn; set_solver].
  split; [by left|]. by intros [?|[= -> ->]].
Qed.

Lemma wf_create g r v : r ≠ MicSilent ∨ v = 0%Z → nodes g ≠ [] ∨ r = Destination → wf g → wf (create r v g).
Proof.
  intros Hv Hd [He Hs Hdest H1 H2]. split.
  - intros a b Hab. destruct (He a b Hab) as (p & q & Hp & Hq & Ha). exists p, q.
    split_and!; [by apply has_role_create..|done].
  - intros a n Ha Hr. cbn in Ha. apply lookup_app_Some in Ha as [Ha|[_ Ha]]; [by eapply Hs|].
    apply list_lookup_singleton_Some in Ha as [_ <-]. cbn in *. naive_solver.
  - intros _. destruct (decide (nodes g = [])) as [Hn|Hn]; [|by apply has_role_create, Hdest].
    destruct Hd as [?| ->]; [done|]. unfold has_role, create. cbn. by rewrite Hn.
  - cbn. destruct (gainNode g); [by apply has_role_create|done].
  - cbn. destruct (micGainNode g); [by apply has_role_create|done].
Qed.

Lemma wf_connect g a b r r' :
  has_role g r a → has_role g r' b → allowed r r' = true → wf g → wf (connect a b g).
Proof.
  intros Ha Hb Hal [He Hs Hdest H1 H2]. assert (nodes (connect a b g) = nodes g) as Hn by (unfold connect; by destruct (decide _)).
  split; rewrite ?Hn; try done.
  - intros c d Hcd. apply edge_connect in Hcd as [Hcd|[= -> ->]].
    + destruct (He c d Hcd) as (p & q & ?). exists p, q. by rewrite !has_role_connect.
    + exists r, r'. by rewrite !has_role_connect.
  - intros. by apply has_role_connect, Hdest.
  - unfold ref_ok in *. replace (gainNode (connect a b g)) with (gainNode g) by (unfold connect; by destruct (decide _)).
    destruct (gainNode g); [by apply has_role_connect|done].
  - unfold ref_ok in *. replace (micGainNode (connect a b g)) with (micGainNode g) by (unfold connect; by destruct (decide _)).
    destruct (micGainNode g); [by apply has_role_connect|done].
Qed.
Lemma wf_edges_sub g e : (∀ p, p ∈ e → p ∈ edges g) → wf g → wf (set_edges e g).
Proof. intros Hsub [He Hs Hd H1 H2]. split; try done. intros a b Hab. apply (He a b), Hsub, Hab. Qed.

Lemma wf_disconnect a g : wf g → wf (disconnect_ref a g).
Proof.
  destruct a as [a|]; [|done]. apply wf_edges_sub. intros p Hp. by apply list_elem_of_filter in Hp as [_ ?].
Qed.

Lemma wf_set_speaker s l d g : ref_ok g Speaker s → wf g → wf (set_speaker s l d g).
Proof. intros Hr [He Hs Hd H1 H2]. by split. Qed.
Lemma wf_set_mic s n l p z g : ref_ok g MicGain n → wf g → wf (set_mic s n l p z g).
Proof. intros Hr [He Hs Hd H1 H2]. by split. Qed.

Lemma wf_set_gain a v r g : has_role g r a → r ≠ MicSilent → wf g → wf (set_gain a v g).
Proof.
  intros Ha Hr [He Hs Hd H1 H2]. split.
  - intros c d Hcd. destruct (He c d Hcd) as (p & q & ?). exists p, q. by rewrite !has_role_gain.
  - intros b n Hb Hn. cbn [set_gain nodes set_nodes] in Hb. rewrite list_lookup_alter in Hb.
    destruct (decide (a = b)) as [->|]; [|by eapply Hs]. unfold has_role in Ha.
    destruct (nodes g !! b) as [n0|]; [|done]. injection Hb as <-. injection Ha as Ha. cbn in Hn. congruence.
  - intros Hn. apply has_role_gain, Hd. intros Hg. apply Hn. cbn [set_gain nodes set_nodes]. by rewrite Hg.
  - unfold ref_ok in *. cbn. destruct (gainNode g); [by apply has_role_gain|done].
  - unfold ref_ok in *. cbn. destruct (micGainNode g); [by apply has_role_gain|done].
Qed.

(** *** The handlers *)

Definition keeps (g g' : graph) : Prop := ∀ r a, has_role g r a → has_role g' r a.

Lemma wf_limiter r ra rb a b g :
  r ≠ MicSilent → nodes g ≠ [] → has_role g ra a → has_role g rb b →
  (limits = true → allowed ra r = true ∧ allowed r rb = true) → (limits = false → allowed ra rb = true) →
  wf g → let g' := (through_limiter r a b g).1 in wf g' ∧ keeps g g'.
Proof.
  intros Hr Hn Ha Hb Hl1 Hl2 Hw. unfold through_limiter. destruct limits eqn:E; cbv zeta; cbn [fst].
  - destruct Hl1 as [A1 A2]; [done|]. assert (has_role (create r 100 g) r (fresh g)) as Hf by apply has_role_fresh.
    split.
    + apply (wf_connect _ _ _ r rb); [by apply has_role_connect|by apply has_role_connect, has_role_create|done|].
      apply (wf_connect _ _ _ ra r); [by apply has_role_create|done..|]. apply wf_create; auto.
    + intros q c Hc. by apply has_role_connect, has_role_connect, has_role_create.
  - split; [by apply (wf_connect _ _ _ ra rb); auto|]. intros q c Hc. by apply has_role_connect.
Qed.

Lemma nodes_has g r a : has_role g r a → nodes g ≠ [].
Proof. unfold has_role. by intros H Hn; rewrite Hn in H. Qed.

Lemma wf_no_audio : wf no_audio.
Proof. split; try done. intros a b Hab. by apply elem_of_nil in Hab. Qed.

Lemma fresh_create g r v : fresh (create r v g) = S (fresh g).
Proof. unfold fresh, create. cbn. rewrite length_app. cbn. lia. Qed.

Lemma wf_initAudio g : wf g → wf (initAudio g).
Proof.
  intros Hw. unfold initAudio, audioCtx. case_bool_decide as Hn; [done|].
  assert (nodes g = []) as Hnil by (by destruct (nodes g)). cbv zeta.
  assert (fresh g = 0) as Hf0 by (unfold fresh; by rewrite Hnil). rewrite Hf0.
  set (g1 := create Speaker 80 (create Destination 100 g)).
  assert (has_role g1 Destination 0) as Hd by (apply has_role_create; rewrite <- Hf0; apply has_role_fresh).
  assert (has_role g1 Speaker 1) as Hs.
  { replace 1 with (fresh (create Destination 100 g)) by (by rewrite fresh_create, Hf0). apply has_role_fresh. }
  assert (wf g1) as Hw1.
  { apply wf_create; [by left|left; eapply nodes_has, has_role_fresh|]. apply wf_create; auto. }
  destruct (wf_limiter RxLimiter Speaker Destination 1 0 g1) as [Hw2 Hk];
    [done|by eapply nodes_has|done..|cbn; by intros ->|cbn; by intros ->|done|].
  destruct (through_limiter _ _ _ g1) as [g2 l]. cbn [fst] in *. cbv zeta.
  apply wf_set_speaker; [by apply has_role_connect, has_role_create, Hk|].
  apply (wf_connect _ _ _ Decoder Speaker);
    [apply has_role_fresh|by apply has_role_create, Hk|done|].
  apply wf_create; [by left|left; eapply nodes_has, Hk, Hd|done].
Qed.

Lemma wf_mic_opened g : wf g → wf (mic_opened g).
Proof.
  intros Hw. unfold mic_opened, audioCtx. case_bool_decide as Hn; [|done]. cbv zeta. unfold connectMicChain. cbv zeta.
  pose proof (wf_dest g Hw Hn) as Hdest.
  set (g0 := create MicProcessor 100 (create MicSource 100 g)).
  assert (has_role g0 MicSource (fresh g)) as Hsrc by apply has_role_create, has_role_fresh.
  assert (has_role g0 MicProcessor (S (fresh g))) as Hproc by (rewrite <- (fresh_create g MicSource 100); apply has_role_fresh).
  assert (wf g0) as Hw0 by (apply wf_create; [by left|left; by eapply nodes_has, has_role_fresh|]; apply wf_create; auto).
  assert (nodes g0 ≠ []) as Hn0 by (by eapply nodes_has).
  set (ga := create MicGain (micGain g0) g0). set (n := fresh g0).
  assert (keeps g0 ga) as Hka by (intros r a; apply has_role_create).
  assert (has_role ga MicGain n) as Hgn by apply has_role_fresh.
  assert (wf ga) as Hwa by (apply wf_create; auto).
  set (gb := connect (fresh g) n ga).
  assert (wf gb) as Hwb by (apply (wf_connect _ _ _ MicSource MicGain); auto).
  destruct (wf_limiter MicLimiter MicGain MicProcessor n (S (fresh g)) gb) as [Hwc Hkc];
    [done|eapply nodes_has, has_role_connect, Hgn|by apply has_role_connect|by apply has_role_connect, Hka|cbn; by intros ->|cbn; by intros ->|done|].
  destruct (through_limiter _ _ _ gb) as [gc l]. cbn [fst] in *.
  assert (keeps g0 gc) as Hk by (intros r a Ha; by apply Hkc, has_role_connect, Hka).
  assert (has_role gc MicGain n) as Hgc by (by apply Hkc, has_role_connect).
  apply wf_set_mic; [by apply has_role_connect, has_role_connect, has_role_create|].
  apply (wf_connect _ _ _ MicSilent Destination);
    [apply has_role_connect, has_role_fresh|apply has_role_connect, has_role_create, Hk, has_role_create, has_role_create, Hdest|done|].
  apply (wf_connect _ _ _ MicProcessor MicSilent); [by apply has_role_create, Hk|apply has_role_fresh|done|].
  apply wf_create; [by right|left; by eapply nodes_has|done].
Qed.

Lemma graph_wf_fire g c : wf g → wf (fire g c).
Proof.
  intros Hw. destruct c as [|v|v| | |n]; cbn [fire].
  - by apply wf_initAudio.
  - unfold setVolume. pose proof (wf_speaker g Hw) as Hs. destruct (gainNode g) as [s|]; [|done].
    by apply (wf_set_gain _ _ Speaker).
  - unfold setMicGain. assert (wf (mk_graph (nodes g) (edges g) (gainNode g) (rxLimiter g) (decoderNode g) (micSource g)
      (micGainNode g) (micLimiter g) (micProcessor g) (micSilentGain g) v)) as Hw' by (by destruct Hw).
    pose proof (wf_mic g Hw) as Hm. cbv zeta. destruct (micGainNode g) as [n|]; [|done].
    by apply (wf_set_gain _ _ MicGain).
  - by apply wf_mic_opened.
  - apply wf_set_mic; [done|]. by repeat apply wf_disconnect.
  - unfold playBuffer. pose proof (wf_speaker g Hw) as Hs. destruct (gainNode g) as [s|]; [|done].
    destruct (decide _); [done|]. cbv zeta. apply (wf_connect _ _ _ Buffer Speaker);
      [apply has_role_fresh|by apply has_role_create|done|]. apply wf_create; [by left|left; by eapply nodes_has|done].
Qed.

Lemma wf_run cs : wf (foldl fire no_audio cs).
Proof.
  induction cs as [|c cs IH] using rev_ind; [apply wf_no_audio|]. rewrite foldl_app. by apply graph_wf_fire.
Qed.

(** ** What is heard, and what is sent *)

(** [b] is reached from [a] over connections into nodes with [P]. *)
Definition reaches (g : graph) (P : node → Prop) : nat → nat → Prop :=
  rtc (λ x y, edge g x y ∧ ∀ n, nodes g !! y = Some n → P n).

(** Following connections that avoid what [P] forbids stays among the roles [S]. *)
Lemma confined g (P : node → Prop) (S : role → bool) a b r :
  wf g → (∀ r r' n, S r = true → allowed r r' = true → role_of n = r' →
            (r' = MicSilent → gain n = 0%Z) → P n → S r' = true) →
  has_role g r a → S r = true → reaches g P a b → ∃ r', has_role g r' b ∧ S r' = true.
Proof.
  intros Hw Hstep Ha Hr Hab. revert r Ha Hr. induction Hab as [a|a c b [He Hp] Hcb IH]; intros r Ha Hr; [by exists r|].
  destruct (wf_edges g Hw a c He) as (p & q & Hpa & Hqc & Hal). unfold has_role in Ha, Hpa, Hqc.
  rewrite Ha in Hpa. injection Hpa as <-. apply (IH q); [done|].
  destruct (nodes g !! c) as [n|] eqn:En; [|done]. injection Hqc as Hq.
  apply (Hstep r q n); [done..| |by apply Hp]. intros ->. by apply (wf_silent g Hw c).
Qed.

(** C40: whatever is called, in any order and however often, the microphone is never heard,
    for every way from its source to the destination leads through a node of gain zero. *)
Theorem mic_not_heard (cs : list call) a b :
  let g := foldl fire no_audio cs in
  has_role g MicSource a → reaches g (λ n, gain n ≠ 0%Z) a b → ¬ has_role g Destination b.
Proof.
  intros g Ha Hab Hb.
  destruct (confined g (λ n, gain n ≠ 0%Z)
    (λ r, match r with MicSource | MicGain | MicLimiter | MicProcessor => true | _ => false end) a b MicSource)
    as (r & Hr & HS); [apply wf_run| |done..|].
  - intros r r' n HS Hal Hn Hz HP. destruct r'; try done; destruct r; try done. by specialize (Hz eq_refl).
  - unfold has_role in *. rewrite Hb in Hr. by injection Hr as <-.
Qed.

(** Where the browser has a compressor, everything that is played passes the limiter
    of the speaker, and everything that is recorded that of the microphone. *)
Theorem amplified_is_limited (cs : list call) a b r :
  limits = true →
  let g := foldl fire no_audio cs in
  has_role g r a →
  (r = Decoder ∨ r = Buffer ∨ r = Speaker →
     reaches g (λ n, role_of n ≠ RxLimiter) a b → ¬ has_role g Destination b)
  ∧ (r = MicSource → reaches g (λ n, role_of n ≠ MicLimiter) a b → ¬ has_role g MicProcessor b).
Proof.
  intros Hl g Ha. split.
  - intros Hr Hab Hb. destruct (confined g (λ n, role_of n ≠ RxLimiter)
      (λ r, match r with Decoder | Buffer | Speaker => true | _ => false end) a b r)
      as (q & Hq & HS); [apply wf_run| |done|by destruct Hr as [->|[->| ->]]|done|].
    + intros p p' n HS Hal Hn _ HP. unfold allowed in Hal. rewrite Hl in Hal. subst p'.
      by destruct p, (role_of n).
    + unfold has_role in *. rewrite Hb in Hq. by injection Hq as <-.
  - intros -> Hab Hb. destruct (confined g (λ n, role_of n ≠ MicLimiter)
      (λ r, match r with MicSource | MicGain => true | _ => false end) a b MicSource)
      as (q & Hq & HS); [apply wf_run| |done..|].
    + intros p p' n HS Hal Hn _ HP. unfold allowed in Hal. rewrite Hl in Hal. subst p'.
      by destruct p, (role_of n).
    + unfold has_role in *. rewrite Hb in Hq. by injection Hq as <-.
Qed.

(** ** The chain of the microphone *)

Definition is_mic (r : role) : bool :=
  match r with MicSource | MicGain | MicLimiter | MicProcessor | MicSilent => true | _ => false end.
Definition mic_at (g : graph) (a : nat) : bool :=
  match nodes g !! a with Some n => is_mic (role_of n) | None => false end.

(** The connections out of nodes of the microphone, as they were made. *)
Definition mic_part (g : graph) : list (nat * nat) := filter (λ e, mic_at g e.1 = true) (edges g).

(** A stream is granted only when the module holds none. *)
Definition calm_step (g g' : graph) : Prop := ∃ c, (c = MicOpened → micSource g = None) ∧ g' = fire g c.

(** The whole chain while the module holds a microphone, and nothing without. *)
Definition chain (g : graph) : Prop :=
  match micSource g with
  | None => mic_part g = []
  | Some s => ∃ n p z,
      micGainNode g = Some n ∧ micProcessor g = Some p ∧ micSilentGain g = Some z
      ∧ gain <$> nodes g !! n = Some (micGain g)
      ∧ (is_Some (micLimiter g) ↔ limits = true)
      ∧ mic_part g = (s, n) :: (match micLimiter g with Some l => [(n, l); (l, p)] | None => [(n, p)] end)
                       ++ [(p, z); (z, 0)]
  end.

Lemma mic_at_role g r a : has_role g r a → mic_at g a = is_mic r.
Proof. unfold has_role, mic_at. destruct (nodes g !! a); [by intros [= <-]|done]. Qed.

Lemma mic_part_ext g g' :
  edges g' = edges g → (∀ a b, edge g a b → mic_at g' a = mic_at g a) → mic_part g' = mic_part g.
Proof.
  unfold mic_part, edge. intros ->. generalize (edges g). intros l. induction l as [|[a b] l IH]; intros H; [done|].
  rewrite !filter_cons. cbn [fst]. rewrite (H a b) by set_solver. rewrite IH by set_solver. done.
Qed.

Lemma mic_part_create g r v : wf g → mic_part (create r v g) = mic_part g.
Proof.
  intros Hw. apply mic_part_ext; [done|]. intros a b He. destruct (wf_edges g Hw a b He) as (p & _ & Hp & _).
  by rewrite (mic_at_role g p), (mic_at_role _ p) by (try apply has_role_create; done).
Qed.

Lemma mic_part_gain g a v : mic_part (set_gain a v g) = mic_part g.
Proof.
  apply mic_part_ext; [done|]. intros b _ _. unfold mic_at, set_gain. cbn [nodes set_nodes].
  rewrite list_lookup_alter. destruct (decide (a = b)) as [->|]; [by destruct (nodes g !! b)|done].
Qed.

Lemma mic_at_connect g a b c : mic_at (connect a b g) c = mic_at g c.
Proof. unfold connect. by destruct (decide _). Qed.

Lemma mic_part_connect g a b l :
  mic_at g a = true → mic_part g = l → (a, b) ∉ l → mic_part (connect a b g) = l ++ [(a, b)].
Proof.
  intros Ha <- Hin. unfold connect. destruct (decide _) as [He|He].
  - exfalso. apply Hin. unfold mic_part. apply list_elem_of_filter. done.
  - unfold mic_part. cbn [edges set_edges]. rewrite filter_app, filter_cons. cbn [fst].
    change (mic_at (set_edges _ g) a) with (mic_at g a). rewrite Ha. by rewrite decide_True by done.
Qed.

Lemma mic_part_other g a b : mic_at g a = false → mic_part (connect a b g) = mic_part g.
Proof.
  intros Ha. unfold connect. destruct (decide _); [done|]. unfold mic_part. cbn [edges set_edges].
  rewrite filter_app, filter_cons. cbn [fst]. change (mic_at (set_edges _ g) a) with (mic_at g a).
  rewrite Ha, decide_False by done. rewrite filter_nil, app_nil_r. done.
Qed.

Lemma mic_part_disconnect a g :
  mic_part (disconnect_ref a g) = filter (λ e, Some e.1 ≠ a) (mic_part g).
Proof.
  destruct a as [a|]; cbn [disconnect_ref].
  - unfold mic_part, disconnect. cbn [edges set_edges]. rewrite !list_filter_filter. apply list_filter_iff.
    intros e. change (mic_at (set_edges _ g) e.1) with (mic_at g e.1). naive_solver congruence.
  - symmetry. apply filter_all, Forall_true. done.
Qed.

Lemma edge_source g a b : wf g → edge g a b → a < fresh g.
Proof.
  intros Hw He. destruct (wf_edges g Hw a b He) as (r & _ & Hr & _). unfold has_role in Hr.
  apply lookup_lt_is_Some. by destruct (nodes g !! a).
Qed.

Definition opened_nodes (g : graph) : list node :=
  [mk_node MicSource 100; mk_node MicProcessor 100; mk_node MicGain (micGain g)]
    ++ (if limits then [mk_node MicLimiter 100] else []) ++ [mk_node MicSilent 0].
Definition opened_edges (k : nat) : list (nat * nat) :=
  (k, k + 2) :: if limits then [(k + 2, k + 3); (k + 3, k + 1); (k + 1, k + 4); (k + 4, 0)]
                else [(k + 2, k + 1); (k + 1, k + 3); (k + 3, 0)].

Lemma connect_new g0 g (e : list (nat * nat)) a b :
  wf g0 → edges g = edges g0 ++ e → fresh g0 ≤ a → Forall (λ p, p ≠ (a, b)) e →
  connect a b g = set_edges (edges g0 ++ (e ++ [(a, b)])) g.
Proof.
  intros Hw He Ha Hin. unfold connect. rewrite decide_False; [by rewrite He, app_assoc|].
  rewrite He, elem_of_app. intros [H|H].
  - apply edge_source in H; [lia|done].
  - rewrite Forall_forall in Hin. by apply (Hin _ H).
Qed.

Lemma fresh_edges e g : fresh (set_edges e g) = fresh g.
Proof. done. Qed.

#[local] Ltac fresh_ids := repeat first [rewrite fresh_edges | rewrite fresh_create].
(** A connection between numbers that are not connected yet, behind those of [e]. *)
#[local] Ltac new_edge g e a :=
  rewrite (connect_new g _ e a); [|done|done|unfold fresh in *; lia|repeat constructor; intros [=]; lia]; cbn [app].

Lemma set_edges_edges e e' g : set_edges e (set_edges e' g) = set_edges e g.
Proof. done. Qed.
Lemma create_edges r v e g : create r v (set_edges e g) = set_edges e (create r v g).
Proof. done. Qed.
Lemma create_nodes r v l g : create r v (set_nodes l g) = set_nodes (l ++ [mk_node r v]) g.
Proof. done. Qed.
Lemma create_first r v g : create r v g = set_nodes (nodes g ++ [mk_node r v]) g.
Proof. done. Qed.
Lemma micGain_nodes l g : micGain (set_nodes l g) = micGain g.
Proof. done. Qed.

(** New nodes and connections in one step each. *)
#[local] Ltac merge_new :=
  rewrite ?create_edges, ?set_edges_edges, (create_first MicSource), ?create_nodes, ?micGain_nodes, <- !app_assoc; cbn [app].

(** The graph after a stream was granted. *)
Lemma mic_opened_eq g :
  wf g → audioCtx g = true →
  let k := fresh g in let z := (if limits then k + 4 else k + 3) in
  mic_opened g =
    set_mic (Some k) (Some (k + 2)) (if limits then Some (k + 3) else None) (Some (k + 1)) (Some z)
      (set_edges (edges g ++ opened_edges k) (set_nodes (nodes g ++ opened_nodes g) g)).
Proof.
  intros Hw Hctx k z. unfold mic_opened. rewrite Hctx. unfold connectMicChain, through_limiter, opened_edges, opened_nodes, z.
  fresh_ids. fold k. replace (S k) with (k + 1) by lia. replace (S (k + 1)) with (k + 2) by lia. cbv zeta.
  rewrite (connect_new g _ [] k); [|done|cbn; by rewrite app_nil_r|done|done]. cbn [app].
  destruct limits eqn:El; cbv zeta; fresh_ids; fold k;
    replace (S (S (S k))) with (k + 3) by lia;
    new_edge g [(k, k + 2)] (k + 2).
  - new_edge g [(k, k + 2); (k + 2, k + 3)] (k + 3).
    fresh_ids. fold k. replace (S (S (S (S k)))) with (k + 4) by lia.
    new_edge g [(k, k + 2); (k + 2, k + 3); (k + 3, k + 1)] (k + 1).
    new_edge g [(k, k + 2); (k + 2, k + 3); (k + 3, k + 1); (k + 1, k + 4)] (k + 4).
    merge_new. reflexivity.
  - fresh_ids. fold k. replace (S (S (S k))) with (k + 3) by lia.
    new_edge g [(k, k + 2); (k + 2, k + 1)] (k + 1).
    new_edge g [(k, k + 2); (k + 2, k + 1); (k + 1, k + 3)] (k + 3).
    merge_new. reflexivity.
Qed.

Lemma lookup_opened g i : (nodes g ++ opened_nodes g) !! (fresh g + i) = opened_nodes g !! i.
Proof. unfold fresh. rewrite lookup_app_r by lia. f_equal. lia. Qed.

Lemma mic_opened_part g :
  wf g → audioCtx g = true → mic_part g = [] → mic_part (mic_opened g) = opened_edges (fresh g).
Proof.
  intros Hw Hctx H0. rewrite mic_opened_eq by done. cbv zeta. set (k := fresh g).
  set (g' := set_mic _ _ _ _ _ _). unfold mic_part.
  change (edges g') with (edges g ++ opened_edges k). rewrite filter_app.
  assert (∀ i, mic_at g' (k + i) = match opened_nodes g !! i with Some n => is_mic (role_of n) | None => false end) as Hm.
  { intros i. unfold mic_at. change (nodes g') with (nodes g ++ opened_nodes g). unfold k. by rewrite lookup_opened. }
  assert (filter (λ e, mic_at g' e.1 = true) (edges g) = []) as ->.
  { rewrite <- H0. unfold mic_part. change (edges g) with (edges (set_edges (edges g) g)).
    apply (mic_part_ext (set_edges (edges g) g) (set_edges (edges g) g')); [done|]. intros a b Hab.
    unfold mic_at. cbn [nodes set_edges]. change (nodes g') with (nodes g ++ opened_nodes g).
    apply (edge_source g) in Hab; [|done]. by rewrite lookup_app_l. }
  cbn [app]. apply filter_all. replace k with (k + 0) by lia.
  unfold opened_edges, opened_nodes in *. destruct limits; repeat constructor; cbn [fst];
    rewrite <- ?Nat.add_assoc, Hm; done.
Qed.

Lemma chain_opened g : wf g → audioCtx g = true → mic_part g = [] → chain (mic_opened g).
Proof.
  intros Hw Hctx H0. pose proof (mic_opened_part g Hw Hctx H0) as Hp. rewrite mic_opened_eq in * by done. cbv zeta in *.
  set (g' := set_mic _ _ _ _ _ _) in *. unfold chain. change (micSource g') with (Some (fresh g)). cbv iota.
  exists (fresh g + 2), (fresh g + 1), (if limits then fresh g + 4 else fresh g + 3). rewrite Hp.
  change (nodes g') with (nodes g ++ opened_nodes g). rewrite lookup_opened. subst g'. cbn [micGainNode micProcessor micSilentGain micLimiter set_mic].
  unfold opened_edges, opened_nodes. by destruct limits; split_and!.
Qed.

Lemma audioCtx_nil g : audioCtx g = false → nodes g = [].
Proof. unfold audioCtx. intros H%bool_decide_eq_false. destruct (nodes g); [done|]. by exfalso; apply H. Qed.

(** Changes elsewhere leave the chain. *)
Lemma chain_same g g' :
  mic_part g' = mic_part g → micSource g' = micSource g → micGainNode g' = micGainNode g → micLimiter g' = micLimiter g →
  micProcessor g' = micProcessor g → micSilentGain g' = micSilentGain g → micGain g' = micGain g →
  (∀ n, micGainNode g = Some n → gain <$> nodes g' !! n = gain <$> nodes g !! n) → chain g → chain g'.
Proof.
  unfold chain. intros -> -> -> -> -> -> -> Hg. destruct (micSource g); [|done].
  intros (n1 & p & z1 & Hn & Hp & Hz & Hgn & Hl). exists n1, p, z1. rewrite (Hg n1 Hn). done.
Qed.

Lemma chain_fire g c : wf g → (c = MicOpened → micSource g = None) → chain g → chain (fire g c).
Proof.
  intros Hw Hcalm Hc. destruct c as [|v|v| | |n]; cbn [fire].
  - unfold initAudio. destruct (audioCtx g) eqn:Hctx; [done|]. apply audioCtx_nil in Hctx.
    assert (edges g = []) as He.
    { destruct (edges g) as [|[a b] l] eqn:E; [done|]. exfalso. assert (edge g a b) as Hab by (unfold edge; rewrite E; set_solver).
      apply edge_source in Hab; [|done]. unfold fresh in Hab. rewrite Hctx in Hab. cbn in Hab. lia. }
    destruct g. cbn in Hctx, He. subst. unfold chain in *. cbn in Hc. unfold through_limiter.
    destruct micSource0 as [s|]; [by destruct Hc as (? & ? & ? & _ & _ & _ & _ & _ & Hc)|].
    destruct limits; vm_compute; done.
  - unfold setVolume. pose proof (wf_speaker g Hw) as Hs. destruct (gainNode g) as [s|]; [|done].
    apply (chain_same g); try done; [apply mic_part_gain|]. intros n Hn. pose proof (wf_mic g Hw) as Hm. rewrite Hn in Hm.
    cbn [set_gain nodes set_nodes]. rewrite list_lookup_alter_ne; [done|]. intros ->. unfold ref_ok, has_role in *. congruence.
  - unfold setMicGain. cbv zeta. pose proof (wf_mic g Hw) as Hm. destruct (micGainNode g) as [n|] eqn:En.
    + unfold chain in *. cbn [micSource set_gain set_nodes micGainNode micProcessor micSilentGain micGain micLimiter nodes].
      rewrite mic_part_gain.
      destruct (micSource g); [|exact Hc]. destruct Hc as (n' & p & z & Hn & Hp & Hz & Hgn & Hl).
      rewrite En in Hn. injection Hn as <-. destruct Hl as [Hl Hp']. exists n, p, z. split_and!; [done..| | |]; try done.
      rewrite list_lookup_alter_eq. unfold ref_ok, has_role in Hm. by destruct (nodes g !! n).
    + unfold chain in *. cbn [micSource micGainNode]. destruct (micSource g); [|exact Hc].
      destruct Hc as (n' & ? & ? & Hn & _). congruence.
  - destruct (audioCtx g) eqn:Hctx; [|unfold mic_opened; by rewrite Hctx].
    apply chain_opened; [done..|]. unfold chain in Hc. by rewrite Hcalm in Hc.
  - unfold chain. cbn [stopMic set_mic micSource]. unfold stopMic.
    assert (∀ s n l p z h, mic_part (set_mic s n l p z h) = mic_part h) as Hset by done. rewrite Hset, !mic_part_disconnect.
    unfold chain in Hc. destruct (micSource g) as [s|]; [|by rewrite Hc].
    destruct Hc as (n & p & z & Hn & Hp & Hz & _ & _ & ->). rewrite Hn, Hp, Hz. clear.
    apply elem_of_nil_inv. intros e. rewrite !list_elem_of_filter. intros (? & ? & ? & ? & ? & He).
    destruct (micLimiter g); cbn in He; rewrite !elem_of_cons, elem_of_nil in He; naive_solver.
  - unfold playBuffer. pose proof (wf_speaker g Hw) as Hs. destruct (gainNode g) as [s|]; [|done].
    destruct (decide _); [done|]. cbv zeta.
    assert (∀ h a b, nodes (connect a b h) = nodes h) as Hnodes by (intros h a b; unfold connect; by destruct (decide _)).
    apply (chain_same g); try (unfold connect; by destruct (decide _)).
    + rewrite mic_part_other; [by apply mic_part_create|]. by rewrite (mic_at_role _ Buffer) by apply has_role_fresh.
    + intros n' Hn. rewrite Hnodes. cbn [create nodes set_nodes]. pose proof (wf_mic g Hw) as Hm. rewrite Hn in Hm.
      unfold ref_ok, has_role in Hm. rewrite lookup_app. by destruct (nodes g !! n').
    + done.
Qed.

(** The microphone, when a stream is only granted to a module that holds none: while
    it is held its source leads through the gain node, set to the gain of the slider,
    and the limiter where there is one, to the processor and the silent node, and
    nothing else of any microphone is connected; when it was given back, nothing of it
    is. *)
Theorem mic_chain (g : graph) : rtc calm_step no_audio g → chain g.
Proof.
  intros H. enough (wf g ∧ chain g) by tauto. revert g H.
  apply (rtc_ind_r (λ g, wf g ∧ chain g)).
  - split; [apply wf_no_audio|done].
  - intros h h' _ (c & Hc & ->) [Hw Hch]. split; [by apply graph_wf_fire|by apply chain_fire].
Qed.
End AudioGraph.

(** The way from the source of the microphone to its gain node. *)
Lemma mic_not_heard_witness :
  let g := foldl (fire true) no_audio [InitAudio; MicOpened] in
  has_role g MicSource 4 ∧ reaches g (λ n, gain n ≠ 0%Z) 4 6 ∧ ¬ has_role g Destination 6.
Proof.
  assert (has_role (foldl (fire true) no_audio [InitAudio; MicOpened]) MicSource 4) as Ha by reflexivity.
  assert (reaches (foldl (fire true) no_audio [InitAudio; MicOpened]) (λ n, gain n ≠ 0%Z) 4 6) as Hr.
  { apply rtc_once. split; [unfold edge; apply (bool_decide_unpack _); vm_compute; exact I|]. by intros n [= <-]. }
  split_and!; [exact Ha|exact Hr|]. exact (mic_not_heard true [InitAudio; MicOpened] 4 6 Ha Hr).
Defined.

(** Two streams granted to overlapping requests: the chain of the first stays when
    the microphone is given back. *)
Example overlapping_chains :
  let g := foldl (fire true) no_audio [InitAudio; MicOpened; MicOpened; StopMic] in
  micSource g = None ∧ mic_part g = [(4, 6); (6, 7); (7, 5); (5, 8); (8, 0)].
Proof. vm_compute. done. Qed.
