(* ===== verification/Charts.v ===== *)
(** The two small charts: the bars of [SparkBars] ([pages/BLOS.jsx]) and the line of
    [components/Sparkline.jsx], as the heights and points they draw.  On exact numbers
    every bar is within its limits and every point of the line on the canvas. *)
From S2P Require Import Prelude JsNumber Numeric.
From Stdlib Require Import QArith Lqa.

Local Close Scope Q_scope.

Section Charts.
Context {N : Type} `{Arith N}.

(** [Math.max(...l)] and [Math.min(...l)] of a list that is not empty. *)
Definition max_of (a : N) (l : list N) : N := foldl Math_max a l.
Definition min_of (a : N) (l : list N) : N := foldl Math_min a l.

(** [SparkBars]: the heights in percent; nothing without data. *)
Definition SparkBars (data : list N) : option (list N) :=
  match data with
  | [] => None
  | v :: l =>
      let max := Math_max (max_of v l) (int 1) in
      Some (map (λ v, Math_max (int 2) (mul (div v max) (int 100))) data)
  end.

(** [Sparkline]: the points of the line, drawn from two samples on; [range] is 1 when
    all samples are equal. *)
Definition Sparkline (width height : N) (min max : option N) (data : list N) : option (list (N * N)) :=
  match data with
  | [] | [_] => None
  | v :: l =>
      let lo := default (min_of v l) min in
      let hi := default (max_of v l) max in
      let range := if nonzero (sub hi lo) then sub hi lo else int 1 in
      let last := int (length data - 1) in
      Some (imap (λ i v, (mul (div (int i) last) width,
                          sub (sub height (mul (div (sub v lo) range) (sub height (int 2)))) (int 1))) data)
  end.
End Charts.

Section Exact_charts.
Local Open Scope Q_scope.

Lemma max_of_ge (a : Q) l : a <= max_of a l ∧ Forall (λ x, x <= max_of a l) l.
Proof.
  unfold max_of. revert a. induction l as [|x l IH]; intros a; [split; [cbn; lra|constructor]|].
  cbn [foldl]. destruct (max_Q a x) as (Ha & Hx & _). destruct (IH (Math_max a x)) as [H1 H2].
  split; [lra|]. constructor; [lra|done].
Qed.
Lemma min_of_le (a : Q) l : min_of a l <= a ∧ Forall (λ x, min_of a l <= x) l.
Proof.
  unfold min_of. revert a. induction l as [|x l IH]; intros a; [split; [cbn; lra|constructor]|].
  cbn [foldl]. destruct (min_Q a x) as (Ha & Hx & _). destruct (IH (Math_min a x)) as [H1 H2].
  split; [lra|]. constructor; [lra|done].
Qed.

Lemma part_of_range (x lo hi : Q) : 0 < hi - lo → lo <= x <= hi → 0 <= (x - lo) / (hi - lo) <= 1.
Proof. intros Hr Hx. split; [apply Qle_shift_div_l|apply Qle_shift_div_r]; lra. Qed.

(** The bars stand between two percent and the whole height; a sample that is not less
    gets a bar that is not lower; and a sample that is the greatest, if at least 1,
    fills the chart. *)
Theorem spark_bars (data : list Q) (bars : list Q) :
  SparkBars data = Some bars → Forall (λ v, 0 <= v) data →
  length bars = length data
  ∧ Forall (λ h, (2 # 1) <= h <= (100 # 1)) bars
  ∧ ∀ i j v w h k, data !! i = Some v → data !! j = Some w → bars !! i = Some h → bars !! j = Some k →
      v <= w → h <= k.
Proof.
  destruct data as [|v0 l]; [done|]. cbn [SparkBars]. intros Heq Hpos. apply (inj Some) in Heq as <-.
  set (m := Math_max (max_of v0 l) (int 1)).
  assert (1 <= m ∧ Forall (λ x, x <= m) (v0 :: l)) as [Hm Hle].
  { destruct (max_Q (max_of v0 l) (int 1)) as (H1 & H2 & _). fold m in H1, H2. destruct (max_of_ge v0 l) as [H3 H4].
    split; [eval_ints; exact H2|]. constructor; [lra|]. eapply Forall_impl; [exact H4|]. cbn. intros. lra. }
  clearbody m. set (f := λ v, Math_max (int 2) (mul (div v m) (int 100))).
  assert (∀ x, x <= m → (2 # 1) <= f x <= (100 # 1)) as Hf.
  { intros x Hx. unfold f. destruct (max_Q (int 2) (mul (div x m) (int 100))) as (H1 & _ & Hc).
    split; [exact H1|]. assert (x / m <= 1) by (apply Qle_shift_div_r; [lra|by rewrite Qmult_1_l]).
    destruct Hc as [-> | ->]; [eval_ints; lra|]. unfold mul, div. cbn [rationals]. eval_ints. lra. }
  split; [by rewrite length_map|]. split.
  - apply Forall_fmap. eapply Forall_impl; [exact Hle|]. exact Hf.
  - intros i j v w h k Hi Hj Hh Hk Hvw. apply list_lookup_fmap_Some in Hh as (v' & -> & Hv').
    apply list_lookup_fmap_Some in Hk as (w' & -> & Hw'). rewrite Hi in Hv'. rewrite Hj in Hw'.
    injection Hv' as <-. injection Hw' as <-. fold (f v) (f w).
    assert (v / m <= w / m) as Hd by (apply Qmult_le_compat_r; [done|apply Qinv_le_0_compat; lra]).
    unfold f. destruct (max_Q (int 2) (mul (div v m) (int 100))) as (_ & _ & [->| ->]);
      destruct (max_Q (int 2) (mul (div w m) (int 100))) as (H1 & H2 & _); [done|].
    eapply Qle_trans; [|exact H2]. unfold mul, div. cbn [rationals]. eval_ints. lra.
Qed.

Lemma imap_lookup_Some {A B} (f : nat → A → B) l i y :
  imap f l !! i = Some y → ∃ x, l !! i = Some x ∧ y = f i x.
Proof. rewrite list_lookup_imap. destruct (l !! i) as [x|]; [|done]. intros [= <-]. by exists x. Qed.

(** The line: one point a sample, from the left edge to the right one, and every point
    at least a pixel from the top and the bottom, when the limits, if given, enclose
    the samples. *)
Theorem sparkline_on_canvas (width height : Q) (min max : option Q) (data : list Q) points :
  Sparkline width height min max data = Some points → 0 <= width → (2 # 1) <= height →
  (∀ a, min = Some a → Forall (λ v, a <= v) data) → (∀ b, max = Some b → Forall (λ v, v <= b) data) →
  length points = length data
  ∧ ∀ i p, points !! i = Some p →
      0 <= p.1 <= width ∧ 1 <= p.2 <= height - 1
      ∧ (i = 0%nat → p.1 == 0) ∧ (S i = length data → p.1 == width).
Proof.
  destruct data as [|v0 [|v1 l]]; [done..|]. cbn [Sparkline]. set (data := v0 :: v1 :: l). intros Heq Hw Hh Hmin Hmax. apply (inj Some) in Heq as <-.
  set (lo := default _ min). set (hi := default _ max).
  assert (Forall (λ v, lo <= v ∧ v <= hi) data) as Hin.
  { apply Forall_and. split.
    - unfold lo. destruct min as [a|]; [by apply Hmin|]. cbn [default]. destruct (min_of_le v0 (v1 :: l)). by constructor.
    - unfold hi. destruct max as [b|]; [by apply Hmax|]. cbn [default]. destruct (max_of_ge v0 (v1 :: l)). by constructor. }
  clearbody lo hi. clear Hmin Hmax. set (range := if nonzero (sub hi lo) then _ else _).
  assert (∀ v, lo <= v → v <= hi → 0 <= (v - lo) / range <= 1) as Hy.
  { intros v H1 H2. unfold range, nonzero, sub. cbn [rationals].
    destruct (lt (hi - lo) (int 0)) eqn:E1; [apply lt_Q in E1; eval_ints; lra|]. apply nlt_Q in E1.
    destruct (lt (int 0) (hi - lo)) eqn:E2; cbn [orb].
    - apply lt_Q in E2. apply part_of_range; [eval_ints; lra|split; lra].
    - apply nlt_Q in E2. split; [apply Qle_shift_div_l|apply Qle_shift_div_r]; eval_ints; lra. }
  clearbody range. split; [by rewrite length_imap|]. intros i p Hp.
  apply imap_lookup_Some in Hp as (v & Hv & ->). rewrite Forall_forall in Hin.
  destruct (Hin v) as [H1 H2]; [by eapply list_elem_of_lookup_2|]. specialize (Hy v H1 H2).
  apply lookup_lt_Some in Hv. cbn [fst snd].
  change (div (int i) (int (length data - 1))) with ((Z.of_nat i # 1) / (Z.of_nat (length data) - 1 # 1)).
  change (div (sub v lo) range) with ((v - lo) / range). set (y := (v - lo) / range) in *. clearbody y.
  set (n := (length data : nat)) in *. assert (2 <= n)%nat as Hn by (unfold n, data; cbn; lia). clearbody n. clear data Hin.
  set (u := (Z.of_nat i # 1) / (Z.of_nat n - 1 # 1)).
  assert (0 < (Z.of_nat n - 1 # 1)) as Hpos by (unfold Qlt; cbn; lia).
  assert (0 <= u <= 1) as Hu.
  { unfold u. split; [apply Qle_shift_div_l|apply Qle_shift_div_r]; unfold Qle; cbn; try lia. done. done. }
  unfold mul, sub. cbn [rationals]. change (int 2) with (2 # 1). change (int 1) with (1 # 1). split_and!; try nra.
  - intros Hi. assert (u == 0) as ->; [|lra]. unfold u. by rewrite Hi.
  - intros Hi. assert (u == 1) as ->; [|lra]. unfold u.
    replace (Z.of_nat i) with (Z.of_nat n - 1)%Z by lia. apply Qmult_inv_r. lra.
Qed.
End Exact_charts.
