(* ===== verification/BlosView.v ===== *)
(** The panels of [pages/BLOS.jsx]: what is shown of a status, its peers and the event
    log, over the page of [Blos].

    [blos_detail] holds the fields of the status that only the panels read; the page
    takes it from the same snapshot. *)
From S2P Require Import Prelude JsString JsNumber JsList Numeric Blos Charts.

Open Scope js_scope.

(** ** Data *)

Record identity := { overlayIps : list string; dnsName : string; hostname : string; connectedSince : option Z }.
Record derp := { region : string; latencyMs : Z; d_path : string; d_endpoint : string; keepaliveSeconds : option Z }.
Record network := { exitNode : bool; advertisedRoutes : list string; aclTags : list string }.
Record blos_detail := {
  message : string;
  ident : option identity;
  relay : option derp;
  rxBytesTotal : option Z;
  txBytesTotal : option Z;
  net : option network
}.
Record peer_detail := {
  p_dnsName : string; p_ips : list string; p_endpoint : string; p_path : string;
  p_rxBytes : option Z; p_txBytes : option Z; p_lastSeen : option Z
}.

(** [x || '—'] *)
Definition or_dash (s : string) : string := or_str s "—".
(** [l?.join(', ') || '—'] *)
Definition join_or_dash (l : option (list string)) : string := or_dash ((join ", " <$> l) ?? "").

Definition EVENT_KIND_LABELS (kind : Z) : option string :=
  nth_error [Some "STATE"; Some "PEER+"; Some "PEER-"; Some "ONLINE"; Some "OFFLINE"; Some "DERP"; Some "KA"]
    (Z.to_nat (kind - 1)) ≫= λ l, if decide (0 < kind)%Z then l else None.

(** ** Panels *)

Inductive tone := Plain | Ok | Warn | Crit.

Record kv := mk_kv { k : string; v : string; tone_of : tone }.
Definition plain_kv (k v : string) : kv := mk_kv k v Plain.

Record peer_row := {
  r_online : bool; r_host : string; r_ip : string; r_endpoint : string; r_path : string * tone;
  r_rx : string; r_tx : string; r_seen : string
}.

Record event_row := { e_kind : string; e_subject : string; e_message : string }.

Record panels := {
  tunnel : string * tone;
  status_message : option string;
  tunnel_kvs : list kv;
  rx_panel : string * option (list number) * string;
  tx_panel : string * option (list number) * string;
  derp_kvs : list kv;
  peers_count : nat;
  peers_panel : string + list peer_row;
  acl_kvs : list kv;
  events_panel : string + list event_row
}.

Definition peer_view (now : Z) (p : blos_peer * peer_detail) : peer_row :=
  let d := p.2 in
  {| r_online := p_online p.1;
     r_host := or_str (p_hostname p.1) (or_dash (stripTrailingDot (p_dnsName d)));
     r_ip := or_dash (head (p_ips d) ?? "");
     r_endpoint := or_dash (p_endpoint d);
     r_path := (or_dash (p_path d), if decide (p_path d = "derp") then Warn else Plain);
     r_rx := formatBytes (p_rxBytes d); r_tx := formatBytes (p_txBytes d);
     r_seen := formatLastSeen (p_lastSeen d) now |}.

Definition event_view (e : blos_event) : event_row :=
  {| e_kind := EVENT_KIND_LABELS (ev_kind e) ?? "EVT"; e_subject := or_dash (ev_subject e); e_message := ev_message e |}.

Definition derp_view (d : option derp) : list kv :=
  let f {A} (g : derp → A) := g <$> d in
  [ plain_kv "Region" (or_dash (f region ?? ""));
    plain_kv "Latency" (match f latencyMs with Some l => if decide (l = 0%Z) then "—" else (pretty l ++ " ms")%string | None => "—" end);
    mk_kv "Path" (or_dash (f d_path ?? "")) (if decide (f d_path = Some "derp") then Warn else Plain);
    plain_kv "Endpoint" (or_dash (f d_endpoint ?? ""));
    plain_kv "Keepalive" (match d ≫= keepaliveSeconds with
                          | Some s => if decide (s = 0%Z) then "—" else (pretty s ++ "s")%string | None => "—" end) ].

(** The page after loading; [rx] and [tx] are the series of the two charts. *)
Definition blos_panels (p : blos_page) (d : option blos_detail) (peers : list (blos_peer * peer_detail))
    (rx tx : list number) (now : Z) : panels :=
  let enabled := running p in
  let idt := d ≫= ident in
  let rate (f : blos_status → option Z) := formatKbps (status_of p ≫= f) in
  {| tunnel := if enabled then ("Enabled", Ok) else ("Disabled", Crit);
     status_message := d ≫= λ d, if decide (message d = "") then None else Some (message d);
     tunnel_kvs :=
       [ plain_kv "Overlay IP" (or_dash ((idt ≫= λ i, head (overlayIps i)) ?? ""));
         plain_kv "Hostname" (or_str (stripTrailingDot ((dnsName <$> idt) ?? "")) (or_dash ((hostname <$> idt) ?? "")));
         plain_kv "Since" (formatSince (idt ≫= connectedSince) now) ];
     rx_panel := (rate rxBytesPerSec, SparkBars rx, formatBytes (d ≫= rxBytesTotal));
     tx_panel := (rate txBytesPerSec, SparkBars tx, formatBytes (d ≫= txBytesTotal));
     derp_kvs := derp_view (d ≫= relay);
     peers_count := length peers;
     peers_panel :=
       match peers with
       | [] => inl (if enabled then "No overlay peers yet." else "BLOS is disabled.")
       | _ => inr (map (peer_view now) peers)
       end;
     acl_kvs :=
       [ plain_kv "Exit node" (if ((λ n, exitNode n) <$> (d ≫= net)) ?? false then "Yes" else "No");
         plain_kv "Subnet routes" (join_or_dash (advertisedRoutes <$> (d ≫= net)));
         plain_kv "Tags" (join_or_dash (aclTags <$> (d ≫= net))) ];
     events_panel :=
       match events p with
       | [] => inl (if enabled then "Waiting for events…" else "BLOS is disabled.")
       | l => inr (map event_view (reverse l))
       end |}.

(** The configuration form, with its controls. *)
Record form := { toggle_label : string; save_label : string; save_disabled : bool; banners : list (string * tone) }.

(** [x && <div>{x}</div>] *)
Definition banner (t : tone) (x : option string) : list (string * tone) :=
  match x with Some s => if decide (s = "") then [] else [(s, t)] | None => [] end.

Definition config_form (p : blos_page) : form :=
  {| toggle_label := if enableBlos p then "On" else "Off";
     save_label := if saving p then "Saving…" else "Update BLOS Config";
     save_disabled := saving p;
     banners :=
       banner Crit (match saveError p with Some e => Some e | None => snapshot p ≫= s_error end)
       ++ banner Ok (success p) |}.

(** The buttons of the page and what a click does; the one of the toolbar has no
    handler. *)
Definition buttons (p : blos_page) : list (string * bool * option blos_action) :=
  [ ("ROTATE KEY", false, None);
    (toggle_label (config_form p), false, Some Toggle);
    (save_label (config_form p), save_disabled (config_form p), Some Save) ].

Definition click (p : blos_page) (label : string) : option blos_action :=
  (List.find (λ b, bool_decide (b.1.1 = label) && negb b.1.2) (buttons p)) ≫= snd.

(** The series of the charts, in samples and milliseconds. *)
Definition TRAFFIC_HISTORY_CAP : nat := 12.
Definition STATUS_INTERVAL : Z := 10000.

(** ** Properties *)

Lemma app_suffix_ne (a b : string) : b ≠ "" → (a ++ b)%string ≠ "".
Proof. by destruct a. Qed.
Lemma or_dash_ne s : or_dash s ≠ "".
Proof. unfold or_dash, or_str. by destruct (decide (s = "")). Qed.
Lemma or_str_ne s d : d ≠ "" → or_str s d ≠ "".
Proof. unfold or_str. by destruct (decide (s = "")). Qed.
Lemma formatBytes_ne n : formatBytes n ≠ "".
Proof. destruct n as [[|z|z]|]; cbn [formatBytes]; try done; repeat case_match; by apply app_suffix_ne. Qed.
Lemma formatSince_ne t now : formatSince t now ≠ "".
Proof.
  destruct t as [[|z|z]|]; cbn [formatSince]; try done; cbv zeta; repeat case_match; by repeat apply app_suffix_ne.
Qed.
Lemma formatLastSeen_ne t now : formatLastSeen t now ≠ "".
Proof.
  destruct t as [[|z|z]|]; cbn [formatLastSeen]; try done; cbv zeta; repeat case_match; by repeat apply app_suffix_ne.
Qed.

#[local] Hint Resolve or_dash_ne or_str_ne formatBytes_ne formatSince_ne formatLastSeen_ne : core.

(** No row of the panels is blank, whatever the daemon leaves out: what is missing is
    a dash. *)
Theorem no_blank_values p d peers rx tx now :
  let q := blos_panels p d peers rx tx now in
  Forall (λ r, v r ≠ "") (tunnel_kvs q ++ derp_kvs q ++ acl_kvs q)
  ∧ (∀ rows, peers_panel q = inr rows → length rows = length peers
       ∧ Forall (λ r, r_host r ≠ "" ∧ r_ip r ≠ "" ∧ r_endpoint r ≠ "" ∧ (r_path r).1 ≠ ""
                      ∧ r_rx r ≠ "" ∧ r_tx r ≠ "" ∧ r_seen r ≠ "") rows).
Proof.
  cbv zeta. split.
  - cbn [blos_panels tunnel_kvs derp_kvs acl_kvs derp_view app]. unfold plain_kv. repeat constructor; cbn [v]; auto.
    + by repeat case_match; try apply app_suffix_ne.
    + by repeat case_match; try apply app_suffix_ne.
    + by case_match.
    + unfold join_or_dash. auto.
    + unfold join_or_dash. auto.
  - intros rows. cbn [blos_panels peers_panel]. destruct peers as [|x l]; [done|]. intros Heq. apply (inj inr) in Heq as <-.
    split; [by rewrite length_map|]. apply Forall_fmap, Forall_true. intros y. cbn. split_and!; auto.
Qed.

Lemma last_of_window {A} n (l : list A) : last_n n l ≠ [] → last (last_n n l) = last l.
Proof.
  unfold last_n. intros Hne. rewrite <- (take_drop (length l - n) l) at 3.
  destruct (drop (length l - n) l) as [|x t] using rev_ind; [done|]. by rewrite app_assoc, !last_snoc.
Qed.

(** The event log shows the last fifty events, the newest first; it is empty exactly
    when nothing was received, and the text then tells a tunnel that is down from one
    that is silent. *)
Theorem newest_first p d peers rx tx now :
  blos_reachable p →
  match events_panel (blos_panels p d peers rx tx now) with
  | inl text => received p = [] ∧ (text = "Waiting for events…" ↔ running p = true)
  | inr rows => rows = map event_view (reverse (last_n MAX_EVENTS (received p)))
      ∧ head rows = event_view <$> last (received p) ∧ received p ≠ []
  end.
Proof.
  intros [_ He _ _]%blos_reachable_inv. cbn [blos_panels events_panel].
  destruct (events p) as [|e l] eqn:El.
  - split; [|by destruct (running p)]. symmetry in He. apply (f_equal length) in He. rewrite last_n_length in He.
    apply length_zero_iff_nil. unfold MAX_EVENTS in He. cbn [length] in He. lia.
  - rewrite He. split_and!; [done| |].
    + assert (∀ r : list blos_event, head (map event_view r) = event_view <$> head r) as Hh by (by intros []).
      rewrite Hh, head_reverse. f_equal. apply last_of_window. by rewrite <- He.
    + intros Hn. by rewrite Hn in He.
Qed.

(** What the banners say: the failure of the last save, else that of the last poll,
    then the success; saving can be asked for exactly when no save is under way, and
    nothing else on the page sends a request. *)
Theorem form_shown p e :
  saveError p = Some e → e ≠ "" →
  (e, Crit) ∈ banners (config_form p)
  ∧ (saving p = false → click p (save_label (config_form p)) = Some Save)
  ∧ (saving p = true → ∀ l, click p l ≠ Some Save)
  ∧ click p "ROTATE KEY" = None.
Proof.
  intros He Hne. unfold click, buttons, config_form, banner. cbn. rewrite He. rewrite decide_False by done. split_and!.
  - set_solver.
  - intros ->. by destruct (enableBlos p).
  - intros -> l. rewrite !andb_true_r, andb_false_r. repeat case_match; done.
  - by destruct (enableBlos p), (saving p).
Qed.

(** The charts are headed by the last minute and hold the samples of two. *)
Example chart_window : (TRAFFIC_HISTORY_CAP * STATUS_INTERVAL)%Z = 120000%Z.
Proof. reflexivity. Qed.

(** The button that would rotate the key does nothing. *)
Example rotate_key_dead : ∀ p, click p "ROTATE KEY" = None.
Proof. intros p. unfold click, buttons, config_form. cbn. by destruct (enableBlos p), (saving p). Qed.
