(* ===== verification/AppShell.v ===== *)
(** The frame around the pages: [Layout.jsx] (sidebar and bottom tabs), the tabs of
    [pages/SettingsLayout.jsx], [components/NavIcon.jsx] and
    [components/SetupDismissBanner.jsx].

    Which page a link leads to is decided by the routes of [SetupShell].  The width of
    the window is the browser's; the resize handler and its timer are events. *)
From S2P Require Import Prelude JsString Constants MeshJoin Setup SetupApply SetupShell.

Open Scope js_scope.

(** ** Navigation *)

Record nav_item := mk_item { to : string; label : string; short : string; icon : string }.

Definition NAV_GROUPS : list (string * list nav_item) :=
  [ ("Operations",
     [ mk_item "/" "Dashboard" "Home" "dashboard"; mk_item "/comms" "Comms" "Comms" "comms";
       mk_item "/topology" "Topology" "Topo" "topology"; mk_item "/gps" "GPS / GNSS" "GPS" "gps";
       mk_item "/blos" "BLOS" "BLOS" "blos" ]);
    ("System", [ mk_item "/settings" "Settings" "Config" "settings" ]) ].

(** The tabs of the bottom bar have no long name, those of the sheet no short one. *)
Definition PRIMARY_TABS : list nav_item :=
  [ mk_item "/" "" "Home" "dashboard"; mk_item "/comms" "" "Comms" "comms";
    mk_item "/topology" "" "Topo" "topology"; mk_item "/gps" "" "GPS" "gps" ].
Definition OVERFLOW_TABS : list nav_item :=
  [ mk_item "/blos" "BLOS" "" "blos"; mk_item "/settings" "Settings" "" "settings" ].

(** The names of [ICONS]; it has no prototype, so no other name is found. *)
Definition ICONS : list string :=
  ["dashboard"; "comms"; "topology"; "gps"; "blos"; "settings"; "more"; "signout"].
Definition NavIcon (name : string) : option string :=
  if decide (name ∈ ICONS) then Some name else None.

(** ** The layout *)

Definition MOBILE_BREAKPOINT : Z := 768.

(** [innerWidth] is the window's; [listening] once the effects have run; [timer] is a
    pending one of [onResize]; [logouts] counts the calls of [logout]. *)
Record layout := mk_layout {
  collapsed : bool;
  isMobile : bool;
  sheetOpen : bool;
  innerWidth : Z;
  listening : bool;
  timer : bool;
  path : string;
  logouts : nat
}.

(** The first render. *)
Definition Layout (w : Z) (path : string) : layout :=
  mk_layout false (w <=? MOBILE_BREAKPOINT)%Z false w false false path 0.

Definition set_ui (c sh : bool) (l : layout) : layout :=
  mk_layout c (isMobile l) sh (innerWidth l) (listening l) (timer l) (path l) (logouts l).
Definition set_window (mob : bool) (w : Z) (li ti : bool) (l : layout) : layout :=
  mk_layout (collapsed l) mob (sheetOpen l) w li ti (path l) (logouts l).

Definition navigate (to : string) (l : layout) : layout :=
  mk_layout (collapsed l) (isMobile l) (sheetOpen l) (innerWidth l) (listening l) (timer l) to (logouts l).
Definition logout (l : layout) : layout :=
  mk_layout (collapsed l) (isMobile l) (sheetOpen l) (innerWidth l) (listening l) (timer l) (path l) (S (logouts l)).

(** The window changed its width: [onResize], once its listener is there. *)
Definition resized (w : Z) (l : layout) : layout :=
  set_window (isMobile l) w (listening l) (timer l || listening l) l.

(** The timer of [onResize]. *)
Definition resize_timer (l : layout) : layout :=
  if timer l then set_window (innerWidth l <=? MOBILE_BREAKPOINT)%Z (innerWidth l) (listening l) false l else l.

Inductive control := Link (item : nav_item) (closes : bool) | SignOut (closes : bool) | More | Scrim | Collapse.

(** What is on the page, in its order. *)
Definition controls (l : layout) : list control :=
  if isMobile l then
    (if sheetOpen l then Scrim :: map (λ i, Link i true) OVERFLOW_TABS ++ [SignOut true] else [])
    ++ map (λ i, Link i false) PRIMARY_TABS ++ [More]
  else Collapse :: concat (map (λ g, map (λ i, Link i false) g.2) NAV_GROUPS) ++ [SignOut false].

Definition click (c : control) (l : layout) : layout :=
  match c with
  | Link i closes => navigate (to i) (set_ui (collapsed l) (if closes then false else sheetOpen l) l)
  | SignOut closes => logout (set_ui (collapsed l) (if closes then false else sheetOpen l) l)
  | More => set_ui (collapsed l) (negb (sheetOpen l)) l
  | Scrim => set_ui (collapsed l) false l
  | Collapse => set_ui (negb (collapsed l)) (sheetOpen l) l
  end.

Inductive event := Effects | Resize (w : Z) | Timer | Click (c : control).

Definition enabled (e : event) (l : layout) : Prop :=
  match e with
  | Effects => listening l = false
  | Timer => timer l = true
  | Click c => c ∈ controls l
  | Resize _ => True
  end.

Definition fire (e : event) (l : layout) : layout :=
  match e with
  | Effects => set_window (isMobile l) (innerWidth l) true (timer l) l
  | Resize w => resized w l
  | Timer => resize_timer l
  | Click c => click c l
  end.

(** The text of a link, and its icon. *)
Definition link_text (l : layout) (i : nav_item) : option string :=
  if isMobile l then Some (if decide (short i = "") then label i else short i)
  else if collapsed l then None else Some (label i).

(** The part of an element's class that says whether the sheet is open. *)
Definition more_active (l : layout) : bool := sheetOpen l.

(** ** Settings tabs *)

Record tab := mk_tab { t_to : string; t_label : string; t_end : bool }.
Definition TABS : list tab :=
  [ mk_tab "/settings" "General" true; mk_tab "/settings/wireless" "Wireless" false;
    mk_tab "/settings/network" "Network" false; mk_tab "/settings/firmware" "Firmware" false;
    mk_tab "/settings/terminal" "Terminal" false; mk_tab "/settings/logs" "Logs" false ].

(** [aria-selected] *)
Definition tab_active (pathname : string) (t : tab) : bool :=
  if t_end t then bool_decide (pathname = t_to t) else starts_with (t_to t) pathname.

(** ** Banner *)

(** The banner of an unfinished setup: its text, and where its link leads. *)
Definition SetupDismissBanner (s : session) : option (string * string) :=
  if isSetupDismissed s
  then Some ("Device not configured — mesh, network and password are not set.", "/setup") else None.
(** A click on the link. *)
Definition banner_click (s : session) : session * string := (resumeSetup s, "/setup").

(** ** Properties *)

(** Every glyph of the navigation exists. *)
Theorem icons_exist :
  Forall (λ i, NavIcon (icon i) = Some (icon i)) (concat (map snd NAV_GROUPS) ++ PRIMARY_TABS ++ OVERFLOW_TABS)
  ∧ NavIcon "more" = Some "more" ∧ NavIcon "signout" = Some "signout".
Proof. split; [repeat constructor|done]. Qed.

(** The mobile bars hold the entries of the sidebar, each once, with the same names and
    icons. *)
Theorem same_destinations :
  map to (PRIMARY_TABS ++ OVERFLOW_TABS) = map to (concat (map snd NAV_GROUPS))
  ∧ map icon (PRIMARY_TABS ++ OVERFLOW_TABS) = map icon (concat (map snd NAV_GROUPS))
  ∧ NoDup (map to (concat (map snd NAV_GROUPS)))
  ∧ Forall2 (λ a b, short a = short b ∨ label a = label b) (PRIMARY_TABS ++ OVERFLOW_TABS) (concat (map snd NAV_GROUPS)).
Proof.
  split_and!; [done|done|apply (bool_decide_unpack _); vm_compute; exact I|].
  repeat constructor; by (left + right).
Qed.

(** A run of clicks, each on something that is there. *)
#[export] Instance nav_item_eq_dec : EqDecision nav_item.
Proof. solve_decision. Defined.
#[export] Instance control_eq_dec : EqDecision control.
Proof. solve_decision. Defined.

Fixpoint clicks (cs : list control) (l : layout) : option layout :=
  match cs with
  | [] => Some l
  | c :: cs => if decide (c ∈ controls l) then clicks cs (click c l) else None
  end.

Definition entries : list nav_item := concat (map snd NAV_GROUPS).

Lemma clicks_one c l : c ∈ controls l → clicks [c] l = Some (click c l).
Proof. intros H. cbn. by rewrite decide_True. Qed.

Lemma sheet_clicks c l :
  isMobile l = true → (sheetOpen l = true → c ∈ controls l) →
  (∀ l', isMobile l' = true → sheetOpen l' = true → c ∈ controls l') →
  ∃ cs l1, length cs ≤ 2 ∧ clicks cs l = Some (click c l1) ∧ logouts l1 = logouts l.
Proof.
  intros Hm _ Hc. destruct (sheetOpen l) eqn:Hs.
  - exists [c], l. split_and!; [cbn; lia|by apply clicks_one, Hc|done].
  - exists [More; c], (click More l). split_and!; [cbn; lia| |done].
    cbn [clicks]. rewrite decide_True by (unfold controls; rewrite Hm, Hs; cbn [app]; set_solver).
    rewrite decide_True; [done|]. apply Hc; [done|]. cbn. by rewrite Hs.
Qed.

(** Every entry of the navigation is at most two clicks away, and so is signing out, in
    every state of the frame. *)
Theorem two_clicks (l : layout) :
  (∀ i, i ∈ entries → ∃ cs l', length cs ≤ 2 ∧ clicks cs l = Some l' ∧ path l' = to i ∧ logouts l' = logouts l)
  ∧ ∃ cs l', length cs ≤ 2 ∧ clicks cs l = Some l' ∧ logouts l' = S (logouts l).
Proof.
  destruct (isMobile l) eqn:Hm.
  - split.
    + intros i Hi. destruct (decide (to i ∈ map to PRIMARY_TABS)) as [Hp|Hp].
      * apply list_elem_of_fmap in Hp as (j & Hj & Hin). exists [Link j false], (click (Link j false) l).
        split_and!; [cbn; lia| |by rewrite Hj|done]. apply clicks_one. unfold controls. rewrite Hm.
        apply elem_of_app. right. apply elem_of_app. left. apply list_elem_of_fmap. by exists j.
      * assert (∃ j, j ∈ OVERFLOW_TABS ∧ to j = to i) as (j & Hin & Hj).
        { unfold entries, NAV_GROUPS in Hi. cbn in Hi. rewrite !elem_of_cons, elem_of_nil in Hi.
          destruct Hi as [->|[->|[->|[->|[->|[->|[]]]]]]]; try (exfalso; apply Hp; cbn; set_solver);
            [exists (mk_item "/blos" "BLOS" "" "blos")|exists (mk_item "/settings" "Settings" "" "settings")];
            (split; [unfold OVERFLOW_TABS; set_solver|done]). }
        destruct (sheet_clicks (Link j true) l Hm) as (cs & l1 & Hlen & Hrun & Hl).
        { intros Hs. unfold controls. rewrite Hm, Hs. apply elem_of_app. left. right. apply elem_of_app. left.
          apply list_elem_of_fmap. by exists j. }
        { intros l' Hm' Hs'. unfold controls. rewrite Hm', Hs'. apply elem_of_app. left. right. apply elem_of_app. left.
          apply list_elem_of_fmap. by exists j. }
        exists cs, (click (Link j true) l1). by rewrite <- Hj.
    + destruct (sheet_clicks (SignOut true) l Hm) as (cs & l1 & Hlen & Hrun & Hl).
      { intros Hs. unfold controls. rewrite Hm, Hs. apply elem_of_app. left. right. apply elem_of_app. right. by left. }
      { intros l' Hm' Hs'. unfold controls. rewrite Hm', Hs'. apply elem_of_app. left. right. apply elem_of_app. right. by left. }
      exists cs, (click (SignOut true) l1). split_and!; [done..|]. cbn. by rewrite Hl.
  - split.
    + intros i Hi. exists [Link i false], (click (Link i false) l). split_and!; [cbn; lia| |done|done]. apply clicks_one.
      unfold controls. rewrite Hm. right. apply elem_of_app. left.
      unfold entries, NAV_GROUPS in Hi. cbn in Hi |- *. set_solver.
    + exists [SignOut false], (click (SignOut false) l). split_and!; [cbn; lia| |done]. apply clicks_one.
      unfold controls. rewrite Hm. right. apply elem_of_app. right. by left.
Qed.

(** With a session and an open gate, each entry and each tab of the settings leads to
    its page, and every protected page is behind one of them. *)
Theorem pages_linked `{PathDecoder} (a : auth) (g : gate) :
  loading a = false → isAuthenticated a = true → g = WizardHidden ∨ g = WizardDismissed →
  (∀ p, p ∈ map to entries ++ map t_to TABS →
     ∃ page, settle 2 (Some g) a p = Some (page, p) ∧ (p, page) ∈ protected_pages)
  ∧ ∀ r, r ∈ protected_pages → r.1 ∈ map to entries ++ map t_to TABS.
Proof.
  intros Hl Ha Hg. split.
  - intros p Hp. assert (∃ page, (p, page) ∈ protected_pages) as (page & Hin).
    { unfold entries, NAV_GROUPS, TABS in Hp. cbn in Hp. rewrite !elem_of_cons, elem_of_nil in Hp.
      repeat destruct Hp as [->|Hp]; try done; eexists; unfold protected_pages; rewrite !elem_of_cons; naive_solver. }
    exists page. split; [|done]. unfold protected_pages in Hin. rewrite !elem_of_cons, elem_of_nil in Hin.
    assert (∀ q pg, routes a q = ProtectedRoute a (Show pg) → starts_with SETUP_PATH_PREFIX q = false →
      settle 2 (Some g) a q = Some (pg, q)) as Hs.
    { intros q pg Hq Hpre. cbn [settle]. unfold SetupGate. rewrite Hpre, Hq. unfold ProtectedRoute.
      rewrite Hl, Ha. by destruct Hg as [-> | ->]. }
    repeat destruct Hin as [[= -> ->]|Hin]; try done; (apply Hs; [by rewrite routes_plain|done]).
  - intros r Hr. unfold protected_pages in Hr. rewrite !elem_of_cons, elem_of_nil in Hr.
    repeat destruct Hr as [->|Hr]; try done; cbn; set_solver.
Qed.

(** *** The tabs of the settings *)

Lemma starts_with_chain p q s :
  starts_with p s = true → starts_with q s = true → starts_with p q = true ∨ starts_with q p = true.
Proof.
  rewrite !starts_with_app. revert q s. induction p as [|c p IH]; intros q s [t ->] [u Hu]; [left; by exists q|].
  destruct q as [|d q]; [right; by exists (String c p)|]. injection Hu as -> Hu.
  destruct (IH q (p ++ t)%string) as [[r ->]|[r ->]]; [by exists t|by exists u|left; by exists r|right; by exists r].
Qed.

(** At most one tab is marked, whatever the address; on the six addresses of the
    settings it is the tab of that page. *)
Theorem one_tab (pathname : string) :
  (∀ s t, s ∈ TABS → t ∈ TABS → tab_active pathname s = true → tab_active pathname t = true → s = t)
  ∧ ∀ t, t ∈ TABS → tab_active (t_to t) t = true.
Proof.
  assert (∀ s t, s ∈ TABS → t ∈ TABS → t_end s = false → starts_with (t_to s) (t_to t) = true → s = t) as Hpre.
  { intros s t Hs Ht. unfold TABS in *. rewrite !elem_of_cons, elem_of_nil in Hs, Ht.
    repeat destruct Hs as [->|Hs]; try done; repeat destruct Ht as [->|Ht]; done. }
  assert (∀ s, s ∈ TABS → t_end s = true → t_to s = "/settings") as Hend.
  { intros s Hs. unfold TABS in Hs. rewrite !elem_of_cons, elem_of_nil in Hs. by repeat destruct Hs as [->|Hs]. }
  assert (∀ s, s ∈ TABS → t_end s = true → s = mk_tab "/settings" "General" true) as Hgen.
  { intros s Hs. unfold TABS in Hs. rewrite !elem_of_cons, elem_of_nil in Hs. by repeat destruct Hs as [->|Hs]. }
  split.
  - intros s t Hs Ht. unfold tab_active. destruct (t_end s) eqn:Es, (t_end t) eqn:Et.
    + intros _ _. by rewrite (Hgen s), (Hgen t).
    + intros ->%bool_decide_eq_true Hp. symmetry. by apply Hpre.
    + intros Hp ->%bool_decide_eq_true. by apply Hpre.
    + intros H1 H2. destruct (starts_with_chain _ _ _ H1 H2) as [H|H]; [by apply Hpre|symmetry; by apply Hpre].
  - intros t Ht. unfold TABS in Ht. rewrite !elem_of_cons, elem_of_nil in Ht. by repeat destruct Ht as [->|Ht].
Qed.

(** With a slash at the end the general page has no marked tab. *)
Example trailing_slash : filter (λ t, tab_active "/settings/" t = true) TABS = [].
Proof. reflexivity. Qed.

(** *** The width *)

(** The window changes its width only after the effects have run. *)
Definition step (l l' : layout) : Prop :=
  ∃ e, enabled e l ∧ (∀ w, e = Resize w → listening l = true) ∧ l' = fire e l.

(** The frame follows the window: without a pending timer it is the one for the
    present width, and the timer makes it so, with nothing left pending. *)
Theorem layout_follows w p l :
  rtc step (Layout w p) l →
  (timer l = false → isMobile l = (innerWidth l <=? MOBILE_BREAKPOINT)%Z)
  ∧ isMobile (resize_timer l) = (innerWidth l <=? MOBILE_BREAKPOINT)%Z
  ∧ timer (resize_timer l) = false.
Proof.
  intros H. assert (timer l = false → isMobile l = (innerWidth l <=? MOBILE_BREAKPOINT)%Z) as Hi.
  { revert l H.
    apply (rtc_ind_r (λ l, timer l = false → isMobile l = (innerWidth l <=? MOBILE_BREAKPOINT)%Z)); [done|].
    intros l l' _ (e & He & Hr & ->) IH.
    destruct e as [|w'| |c]; cbn [fire]; [done| |unfold resize_timer; destruct (timer l); [done|]; intros _; by apply IH|destruct c; exact IH].
    unfold resized, set_window. cbn. rewrite (Hr w') by done. by rewrite orb_true_r. }
  split; [done|]. unfold resize_timer. destruct (timer l) eqn:Ht; [done|]. by rewrite Hi.
Qed.

(** A change between the first render and its effects is missed. *)
Example resize_before_effects :
  let l := fire Effects (fire (Resize 400) (Layout 1200 "/")) in
  isMobile l = false ∧ timer l = false ∧ innerWidth l = 400%Z.
Proof. done. Qed.

(** The sheet stays open behind the sidebar and is there again when the window gets
    narrow. *)
Example sheet_survives :
  let wide := foldl (λ l e, fire e l) (Layout 400 "/") [Effects; Click More; Resize 1200; Timer] in
  let narrow := foldl (λ l e, fire e l) wide [Click (Link (mk_item "/gps" "" "GPS" "gps") false); Resize 400; Timer] in
  isMobile wide = false ∧ sheetOpen narrow = true ∧ path narrow = "/gps".
Proof. done. Qed.

(** *** The banner *)

(** Where storage works, following the banner removes it. *)
Theorem banner_resumes s t : SetupDismissBanner s = Some t →
  SetupDismissBanner (banner_click s).1 = None ∧ (banner_click s).2 = t.2.
Proof.
  unfold SetupDismissBanner, banner_click, isSetupDismissed, resumeSetup. destruct (storage_ok s); [|done].
  destruct (stored s); [|done]. by intros [= <-].
Qed.
