(* ===== verification/TopologyPanels.v ===== *)
(** The panels of [pages/Topology.jsx] around the map: top bar, header, legend,
    selection, counts and the changes of the last minute.  They print what
    [TopologyPage] and the view of [Topology] hold. *)
From S2P Require Import Prelude JsString JsNumber JsList Topology MeshApi TopologyPage.

Open Scope js_scope.

Definition POLL_INTERVAL : Z := 5000.

(** ** What a panel shows *)

Inductive style := Normal | StyleOk | StyleWarn | StyleAccent | StyleMuted.
Record kv := mk_kv { k : string; v : string; style_of : style }.

Record header := {
  node_id : string;
  summary : string;
  h_chips : list (string * option style);
  h_crumb : string;
  badge : option (Z * Z * bool);
  my_paths_pressed : bool
}.

Section Panels.
Context (localeCompare : string → string → Z).

Abbreviation counts p := (v_counts (view localeCompare p)).

Definition num (n : nat) : string := pretty (Z.of_nat n).

(** The line break before the last part leaves no space there. *)
Definition top_summary (p : topology_page) : string :=
  let c := counts p in
  let r := remoteSegmentCount localeCompare p in
  (num (c_hosts c) ++ " host" ++ plural (c_hosts c) ++ " · " ++ num (c_links c) ++ " RF link" ++ plural (c_links c)
   ++ (if (0 <? r)%nat then " · " ++ num r ++ " remote segment" ++ plural r else "")
   ++ "· " ++ pretty (c_hopsMax c) ++ " hops max")%string.

Definition top_chips (p : topology_page) : list (string * option style) :=
  let up := meshUp localeCompare p in
  [(("MESH " ++ if up then "UP" else "DOWN")%string, Some (if up then StyleOk else StyleWarn))]
  ++ (if (0 <? c_blosLinks (counts p))%nat then [("BLOS BRIDGED", None)] else [])
  ++ (let a := v_algorithm (view localeCompare p) in if decide (a = "") then [] else [(a, None)]).

Definition page_header (p : topology_page) : header :=
  {| node_id := ("NODE-" ++ selfHost localeCompare p)%string;
     summary := top_summary p;
     h_chips := top_chips p;
     h_crumb := crumb localeCompare p;
     badge := GossipCoverageBadge (v_gossipCoverage (view localeCompare p));
     my_paths_pressed := myPathsOn p |}.

Definition legend (p : topology_page) : list kv :=
  let c := counts p in
  let r := remoteSegmentCount localeCompare p in
  [ mk_kv "Self" (selfHost localeCompare p) StyleOk;
    mk_kv "Mesh host" (num (c_hosts c) ++ " host" ++ plural (c_hosts c))%string StyleAccent;
    mk_kv "Remote mesh" (num r) (if (0 <? r)%nat then StyleWarn else Normal);
    mk_kv "— RF link" "within a segment" Normal;
    mk_kv "╌ BLOS link" "bridge between segments" Normal;
    mk_kv "q-strong" "high throughput" StyleMuted; mk_kv "q-ok" "median" StyleMuted;
    mk_kv "q-weak" "low" StyleMuted; mk_kv "q-unknown" "no metric yet" StyleMuted;
    mk_kv "MY PATHS" (if myPathsOn p then "ON · my tree highlighted" else "OFF · uniform edges") Normal ].

(** The heading of the selection, and the inspector or the hint. *)
Definition selection_panel (p : topology_page) : string * (inspector + string) :=
  match selected localeCompare p, inspected localeCompare p with
  | Some h, Some i => (("Selected · " ++ or_str (baseHostname h) (h_id h))%string, inl i)
  | _, _ => ("Selected", inr "Click a host to inspect")
  end.

Definition counts_panel (p : topology_page) : list kv :=
  let c := counts p in
  [ mk_kv "Hosts" (num (c_hosts c)) Normal;
    mk_kv "Segments" (num (length (v_segments (view localeCompare p)))) Normal;
    mk_kv "RF links" (num (c_links c)) Normal;
    mk_kv "BLOS links" (num (c_blosLinks c)) (if (0 <? c_blosLinks c)%nat then StyleWarn else Normal);
    mk_kv "Max hops" (pretty (c_hopsMax c)) Normal ]
  ++ match v_gossipCoverage (view localeCompare p) with
     | Some (published, total) =>
         if (0 <? total)%Z
         then [mk_kv "Gossip cov." (pretty published ++ " / " ++ pretty total)%string
                 (if (published * 2 <? total)%Z then StyleWarn else Normal)]
         else []
     | None => []
     end.
End Panels.

Definition delta_panel (d : option topology_delta) : list kv :=
  let text (f : topology_delta → Z) := match d with Some d => pretty (f d) | None => "—" end in
  [ mk_kv "Routes added" (text routesAdded) Normal;
    mk_kv "Routes lost" (text routesLost)
      (match d with Some d => if (0 <? routesLost d)%Z then StyleWarn else Normal | None => Normal end);
    mk_kv "Gateway changes" (text gatewayChanges) Normal;
    mk_kv "Reconverge" (formatLatency (reconvergeMs <$> d)) Normal ].

(** ** Properties *)

Section Facts.
Context (localeCompare : string → string → Z).

Definition value (key : string) (l : list kv) : option string :=
  v <$> List.find (λ r, bool_decide (k r = key)) l.

(** The counts are those of the map: the hosts it draws, the segments, and links that
    together are all the links it draws, each in its panel as in the legend. *)
Theorem counts_of_map (t : topology) meta sel fit mine :
  let p := mk_page meta (Some t) sel fit mine in
  let w := view localeCompare p in
  t_nodes t ≠ [] →
  value "Hosts" (counts_panel localeCompare p) = Some (num (length (v_hosts w)))
  ∧ value "Segments" (counts_panel localeCompare p) = Some (num (length (v_segments w)))
  ∧ value "BLOS links" (counts_panel localeCompare p) = Some (num (length (v_blosEdges w)))
  ∧ value "RF links" (counts_panel localeCompare p) = Some (num (length (concat (map seg_edges (v_segments w)))))
  ∧ value "Mesh host" (legend localeCompare p)
      = Some (num (length (v_hosts w)) ++ " host" ++ plural (length (v_hosts w)))%string.
Proof.
  intros p w Hn. destruct (view_fields localeCompare t Hn) as (_ & _ & _ & Hc). fold w in Hc.
  pose proof (view_edges localeCompare t Hn) as Hp. cbv zeta in Hp. change (buildTopologyView localeCompare (Some t)) with w in *.
  destruct (topology_edges localeCompare t Hn) as (_ & _ & _ & Hsum). change (buildTopologyView localeCompare (Some t)) with w in *.
  apply Permutation_length in Hp. rewrite length_app in Hp.
  assert (c_hosts (v_counts w) = length (v_hosts w) ∧ c_blosLinks (v_counts w) = length (v_blosEdges w)) as [Hh Hb] by (by rewrite Hc).
  assert (c_links (v_counts w) = length (concat (map seg_edges (v_segments w)))) as Hl by lia.
  unfold value, counts_panel, legend. fold w. cbn -[num w plural]. fold w. by rewrite Hh, Hb, Hl.
Qed.

(** The panel says what is selected exactly when it inspects it. *)
Theorem selection_shown p :
  match selection_panel localeCompare p with
  | (title, inl i) => ∃ h, selected localeCompare p = Some h ∧ h ∈ v_hosts (view localeCompare p)
      ∧ title = ("Selected · " ++ or_str (baseHostname h) (h_id h))%string ∧ inspected localeCompare p = Some i
  | (title, inr _) => selected localeCompare p = None ∧ title = "Selected"
  end.
Proof.
  unfold selection_panel. destruct (inspected localeCompare p) as [i|] eqn:Ei; unfold inspected in Ei;
    destruct (selected localeCompare p) as [h|] eqn:Es; try done.
  exists h. split_and!; [done|by apply (selection_follows localeCompare p h)|done|done].
Qed.

(** The badge of the header and the row of the counts come and go together, with the
    same numbers and the same warning. *)
Theorem coverage_twice p :
  match badge (page_header localeCompare p) with
  | Some (published, total, warns) =>
      List.find (λ r, bool_decide (k r = "Gossip cov.")) (counts_panel localeCompare p)
        = Some (mk_kv "Gossip cov." (pretty published ++ " / " ++ pretty total)%string (if warns then StyleWarn else Normal))
  | None => value "Gossip cov." (counts_panel localeCompare p) = None
  end.
Proof.
  unfold page_header, counts_panel, value. cbn [badge]. unfold GossipCoverageBadge.
  destruct (v_gossipCoverage _) as [[published total]|]; [|done].
  destruct (Z.leb_spec total 0), (Z.ltb_spec 0 total); try lia; by cbn.
Qed.

(** Without a delta every row is a dash; with one a positive loss of routes warns. *)
Theorem delta_rows d :
  match d with
  | None => Forall (λ r, v r = "—" ∧ style_of r = Normal) (delta_panel d)
  | Some d' => map v (delta_panel d) = [pretty (routesAdded d'); pretty (routesLost d'); pretty (gatewayChanges d');
                                        formatLatency (Some (reconvergeMs d'))]
      ∧ ((0 < routesLost d')%Z ↔ StyleWarn ∈ map style_of (delta_panel d))
  end.
Proof.
  destruct d as [d|]; [|repeat constructor]. split; [done|]. cbn. destruct (Z.ltb_spec 0 (routesLost d)).
  - split; [intros _; set_solver|done].
  - split; [lia|]. rewrite !elem_of_cons, elem_of_nil. naive_solver.
Qed.
End Facts.
