(* ===== verification/WirelessView.v ===== *)
(** What [pages/SettingsWireless.jsx] renders: the radio cards with their fields and
    buttons, the power selector, the tables of connected stations with their loading,
    and the panel that joins a mesh.  State and handlers are those of [Wireless]. *)
From S2P Require Import Prelude JsString JsNumber JsList MeshJoin DataTable Wireless.

Open Scope js_scope.

(** ** Labels *)

Definition BAND_LABELS (band : Z) : option string :=
  nth_error ["?"; "2.4 GHz"; "5 GHz"; "6 GHz"; "Sub-1 GHz"; "60 GHz"] (Z.to_nat band)
  ≫= λ l, if decide (0 ≤ band)%Z then Some l else None.

Definition MODE_OPTIONS : list (WifiMode * string) :=
  [(AP, "Access Point"); (MESH, "Mesh"); (STA, "Station"); (ADHOC, "Ad-Hoc"); (MONITOR, "Monitor")].

(** The numbers of the enums, as [String] prints them. *)
Definition encryption_number (e : WifiEncryption) : Z :=
  match e with
  | ENC_UNSPECIFIED => 0 | SAE => 1 | PSK2 => 2 | PSK => 3 | PSK_MIXED => 4 | ENC_NONE => 5 | OWE => 6 | SAE_MIXED => 7
  end.
Definition ENCRYPTION_LABELS (e : WifiEncryption) : option string :=
  match e with
  | ENC_UNSPECIFIED => Some "Unspecified" | SAE => Some "WPA3-SAE" | PSK2 => Some "WPA2-PSK" | PSK => Some "WPA-PSK"
  | PSK_MIXED => Some "PSK Mixed" | ENC_NONE => Some "None" | OWE => Some "OWE" | SAE_MIXED => None
  end.
Definition HT_MODE_LABELS (m : WifiHTMode) : string :=
  match m with
  | HT_UNSPECIFIED => "—" | NOHT => "No HT" | HT20 => "HT20" | HT40_MINUS => "HT40-" | HT40_PLUS => "HT40+"
  | HT40 => "HT40" | VHT20 => "VHT20" | VHT40 => "VHT40" | VHT80 => "VHT80" | VHT160 => "VHT160" | HE20 => "HE20"
  | HE40 => "HE40" | HE80 => "HE80" | HE160 => "HE160" | S1G_1MHZ => "S1G 1 MHz" | S1G_2MHZ => "S1G 2 MHz"
  | S1G_4MHZ => "S1G 4 MHz" | S1G_8MHZ => "S1G 8 MHz"
  end.

(** ** The admission floor *)

Definition dbm_text (d : Z) : string := (pretty d ++ " dBm")%string.
Definition MESH_RSSI_OPTIONS : list (option Z * string) :=
  map (λ d, (Some d, if decide (d = MESH_RSSI_DEFAULT_DBM) then (dbm_text d ++ " (default)")%string else dbm_text d))
    [-85; -80; -75; -70]%Z.
Definition MESH_RSSI_UNSET_OPTION : option Z * string :=
  (None, ("Not set (daemon default " ++ dbm_text MESH_RSSI_DEFAULT_DBM ++ ")")%string).

Definition meshRssiOptions (current : option Z) : list (option Z * string) :=
  match current with
  | None => MESH_RSSI_UNSET_OPTION :: MESH_RSSI_OPTIONS
  | Some d =>
      if decide (Some d ∈ map fst MESH_RSSI_OPTIONS) then MESH_RSSI_OPTIONS
      else (Some d, (dbm_text d ++ " (current)")%string) :: MESH_RSSI_OPTIONS
  end.

(** ** Transmit power *)

Definition level_label (l : power_level) : string :=
  match l with Low => "Low" | Medium => "Medium" | High => "High" | Max => "Max" end.

Record power_button := { b_level : power_level; b_dBm : Z; b_checked : bool }.
(** The radio buttons, each with the power it asks for, and the line below. *)
Definition PowerSelector (valueDbm : option Z) : list power_button * string :=
  let selected := dBmToLevel valueDbm in
  (map (λ p, {| b_level := p.1; b_dBm := p.2; b_checked := bool_decide (selected = p.1) |}) POWER_LEVELS,
   ("Selected: " ++ level_label selected ++ " · " ++ dbm_text (levelToDbm selected))%string).

(** ** Stations *)

Record station := {
  st_hostname : string; macAddress : option string; signalDbm : Z;
  rxRateBps : option Z; txRateBps : option Z; throughputMbps : option number
}.
Inductive kind := Clients | Peers.

Definition formatBitrate (bps : option Z) : string :=
  match bps with
  | None | Some 0%Z => "—"
  | Some b =>
      let mbps := fdiv (of_int b) (of_int 1000000) in
      if fle (of_int 1) mbps then (toFixed 1 mbps ++ " Mbps")%string
      else (toFixed 0 (fdiv (of_int b) (of_int 1000)) ++ " Kbps")%string
  end.

Definition col (key label : string) (className : option string) (f : station → string) : column station string :=
  mk_column key label className className None f.

Definition stationColumns (k : kind) : list (column station string) :=
  [ col "name" (match k with Clients => "Hostname" | Peers => "Peer" end) None (λ r, or_str (st_hostname r) "—");
    mk_column "mac" "MAC" (Some "mono") None None (λ r, macAddress r ?? "");
    col "signal" "Signal" None (λ r, dbm_text (signalDbm r)) ]
  ++ match k with
     | Clients => [ col "rx" "Rx" (Some "num") (λ r, formatBitrate (rxRateBps r));
                    col "tx" "Tx" (Some "num") (λ r, formatBitrate (txRateBps r)) ]
     | Peers => [ col "throughput" "Throughput" (Some "num")
                    (λ r, (((λ t, toFixed 1 t) <$> throughputMbps r) ?? "0.0") ++ " Mbps")%string ]
     end.

Definition ConnectedTable (rows : option (list station)) (k : kind) : option (data_table string) :=
  dataTable (stationColumns k) (rows ?? []) (λ r i, macAddress r ?? pretty (Z.of_nat i))
    (match k with Clients => "No connected clients." | Peers => "No mesh peers." end) None.

(** [expanded], [clients] and [peers] of a card; [loads] are the calls of
    [loadConnected] that have not settled. *)
Record stations := mk_stations {
  expanded : bool; clients : option (list station); peers : option (list station); loads : nat
}.
Definition no_stations : stations := mk_stations false None None 0.

(** The disclosure button, and the effect on [expanded]. *)
Definition toggle_expanded (s : stations) : stations :=
  let e := negb (expanded s) in
  mk_stations e (clients s) (peers s) (if e then S (loads s) else loads s).

(** [loadConnected] settles; [None] is a call that failed. *)
Definition connected_loaded (c p : option (option (list station))) (s : stations) : stations :=
  match loads s with
  | O => s
  | S n => mk_stations (expanded s) (match c with Some l => Some (l ?? []) | None => clients s end)
             (match p with Some l => Some (l ?? []) | None => peers s end) n
  end.

(** Its heading and, when open, the table. *)
Definition disclosure (mesh : bool) (s : stations) : string * option (option (data_table string)) :=
  let rows := if mesh then peers s else clients s in
  ((if mesh then "Mesh Peers" else "Connected Clients")
   ++ (if expanded s then match rows with Some l => " (" ++ pretty (Z.of_nat (length l)) ++ ")" | None => "" end else ""),
   if expanded s then Some (ConnectedTable rows (if mesh then Peers else Clients)) else None)%string.

(** ** A card *)

(** The texts of a radio that [Wireless.radio] leaves out, and of its status. *)
Record radio_text := { displayName : string; hardwareName : string; interfaceName : string }.
Record status_text := {
  x_ssid : string; x_mode : string; x_channel : string; x_frequency : Z; x_bandwidth : string;
  x_encryption : string; x_txPower : option Z; x_meshPeers : option Z; x_clients : option Z
}.

(** A field of the form: its label, and what it shows. *)
Inductive field_value :=
| TextInput (value : string)
| Select (value : string) (options : list string)
| Power (buttons : list power_button) (line : string).
Definition field : Type := string * field_value.

(** What [LatSelect] shows for a value: the label of its option, else a dash. *)
Definition shown_option {V} `{EqDecision V} (v : V) (options : list (V * string)) : field_value :=
  Select ((snd <$> List.find (λ o, bool_decide (o.1 = v)) options) ?? "—") (map snd options).

Definition channel_options (d : settings) (av : avail_opts) : list (string * string) :=
  match av_channels av with
  | [] => [(s_channel d, or_str (s_channel d) "—")]
  | l => map (λ c, (c, c)) l
  end.
Definition bandwidth_options (d : settings) (av : avail_opts) : list (WifiHTMode * string) :=
  match av_bandwidths av with
  | [] => [(s_bandwidth d, HT_MODE_LABELS (s_bandwidth d))]
  | l => map (λ m, (m, HT_MODE_LABELS m)) l
  end.
Definition encryption_options (av : avail_opts) : list (WifiEncryption * string) :=
  map (λ e, (e, ENCRYPTION_LABELS e ?? pretty (encryption_number e))) (av_encryptions av).

Definition card_fields (r : radio) (c : card) (d : settings) : list field :=
  let mesh := mesh_card c in
  (if isS1G r then [] else [("Mode", shown_option (s_mode d) MODE_OPTIONS)])
  ++ [ ((if mesh then "Mesh ID" else "SSID"), TextInput (if mesh then s_meshId d ?? "" else s_ssid d));
       ("Password", TextInput (s_password d ?? ""));
       ("Channel", shown_option (s_channel d) (channel_options d (availOpts c)));
       ("Bandwidth", shown_option (s_bandwidth d) (bandwidth_options d (availOpts c)));
       ("Encryption", shown_option (s_encryption d) (encryption_options (availOpts c)));
       ("Country", TextInput (toUpperCase (s_country d ?? ""))) ]
  ++ (if showFloor r c
      then [("Peer admission floor", shown_option (s_meshRssiThreshold d) (meshRssiOptions (s_meshRssiThreshold d)))]
      else [])
  ++ [("Tx Power", let p := PowerSelector (Some (s_txPower d)) in Power p.1 p.2)].

Definition status_strip (mesh : bool) (x : status_text) : list (string * string) :=
  [ ((if mesh then "Mesh ID" else "SSID"), or_str (x_ssid x) "—");
    ("Mode", or_str (x_mode x) "—");
    ("Channel", (or_str (x_channel x) "—"
                 ++ if decide (x_frequency x = 0%Z) then "" else " · " ++ pretty (x_frequency x) ++ " MHz")%string);
    ("Bandwidth", or_str (x_bandwidth x) "—");
    ("Encryption", or_str (x_encryption x) "—");
    ("Tx Power", match x_txPower x with Some p => dbm_text p | None => "—" end);
    if mesh then ("Peers", pretty (x_meshPeers x ?? 0%Z)) else ("Clients", pretty (x_clients x ?? 0%Z)) ].

Record card_view := {
  cv_name : string; cv_meta : string;
  cv_active : bool; cv_toggle : bool;
  cv_alerts : list string;
  cv_status : option (list (string * string));
  cv_fields : list field;
  cv_actions : option (string * bool);   (* Save's label, and whether both buttons are disabled *)
  cv_stations : string * option (option (data_table string))
}.

Definition radio_meta (r : radio) (t : radio_text) : string :=
  (hardwareName t ++ " · " ++ or_str (BAND_LABELS (r_band r) ?? "") "?")%string.

(** [None] while the card loads: name and hardware only. *)
Definition render_card (r : radio) (t : radio_text) (x : option status_text) (c : card) (s : stations) : option card_view :=
  if loading c then None
  else Some
    {| cv_name := or_str (displayName t) (r_name r);
       cv_meta := (radio_meta r t ++ " · iface " ++ interfaceName t)%string;
       cv_active := match status c with Some st => st_active st | None => false end;
       cv_toggle := negb ((draft c ≫= s_disabled) ?? false);
       cv_alerts := (match card_error c with Some e => if decide (e = "") then [] else [e] | None => [] end)
                    ++ (if success c then ["Settings saved. Wireless is restarting; your connection may drop if you are on this radio."] else []);
       cv_status := match status c with Some _ => status_strip (mesh_card c) <$> x | None => None end;
       cv_fields := match draft c with Some d => card_fields r c d | None => [] end;
       cv_actions := if dirty c then Some (if saving c then "Saving…" else "Save", saving c) else None;
       cv_stations := disclosure (mesh_card c) s |}.

(** ** The join panel *)

Definition BACKHAUL_SKIPPED : string :=
  "Backhaul skipped: no 2.4 GHz radio is in mesh mode. Switch one to mesh and scan again.".

Definition filledSummary (p : wireless) : option string :=
  join p ≫= λ j,
    if decide (j_halowRadio j = "") then None
    else Some ("Filled " ++ j_halowRadio j ++ " (HaLow)"
               ++ (if decide (j_backhaulRadio j = "") then "" else " and " ++ j_backhaulRadio j ++ " (backhaul)")
               ++ " from " ++ or_str (j_source j) "the code" ++ ". Review each radio, then press Join mesh.")%string.

Definition backhaulSkipped (p : wireless) : bool :=
  match join p with Some j => j_hasBackhaul j && bool_decide (j_backhaulRadio j = "") | None => false end.

Record join_panel := {
  jp_no_halow : bool; jp_filled : option string; jp_skipped : option string; jp_issues : list string;
  jp_button : option (string * bool)   (* its label, and whether it is disabled *)
}.

Definition render_join (p : wireless) : join_panel :=
  {| jp_no_halow := match join p with Some j => bool_decide (j_halowRadio j = "") | None => false end;
     jp_filled := filledSummary p;
     jp_skipped := if backhaulSkipped p then Some BACKHAUL_SKIPPED else None;
     jp_issues := issues p;
     jp_button :=
       if join_shown p then
         Some (if busy (joinStatus_of p) then "Joining…" else "Join mesh",
               negb (bool_decide (issues p = [])) || busy (joinStatus_of p))
       else None |}.

(** The page: a loading line, or the panel and the cards in the order of the radios. *)
Definition render_page (p : wireless) : option (join_panel * (string + list string)) :=
  if page_loading p then None
  else Some (render_join p,
             match radios p with [] => inl "No radios detected." | l => inr (map r_name l) end).

(** The line of a joined mesh: one part for each radio of the answer. *)
Record join_radio := { jr_name : string; jr_isBackhaul : bool; jr_skipped : option string }.
Definition join_part (r : join_radio) : string :=
  let role := if jr_isBackhaul r then "backhaul" else "HaLow" in
  match jr_skipped r with
  | Some reason => (role ++ " skipped (" ++ reason ++ ")")%string
  | None => (jr_name r ++ " (" ++ role ++ ") applied")%string
  end.
Definition joined_line (source : string) (l : list join_radio) : string :=
  ("Joined " ++ or_str source "mesh" ++ ": " ++ JsList.join ", " (map join_part l)
   ++ ". Wireless is restarting; your connection may drop.")%string.

(** ** Properties *)

Lemma length_suffix (a b : string) : (String.length b ≤ String.length (a ++ b))%nat.
Proof.
  induction a as [|c a IH]; [done|]. change (String c a ++ b)%string with (String c (a ++ b)). cbn [String.length]. lia.
Qed.

(** The admission floor in use is always among the choices, as one of them, behind the
    four of the menu; so the control never shows a dash. *)
Theorem floor_always_shown (current : option Z) :
  let opts := meshRssiOptions current in
  current ∈ map fst opts ∧ NoDup (map fst opts) ∧ MESH_RSSI_OPTIONS `sublist_of` opts
  ∧ ∃ l, shown_option current opts = Select l (map snd opts) ∧ l ≠ "—".
Proof.
  assert (NoDup (map fst MESH_RSSI_OPTIONS)) as Hnd by (apply (bool_decide_unpack _); vm_compute; exact I).
  assert (current ∈ map fst (meshRssiOptions current) ∧ NoDup (map fst (meshRssiOptions current))
    ∧ MESH_RSSI_OPTIONS `sublist_of` meshRssiOptions current) as (Hin & Hn & Hs).
  { unfold meshRssiOptions. destruct current as [d|]; [destruct (decide _) as [Hd|Hd]|].
    - by split_and!.
    - split_and!; [by left|by apply NoDup_cons|by apply sublist_cons].
    - split_and!; [by left| |by apply sublist_cons]. apply NoDup_cons. split; [|done]. cbn. set_solver. }
  cbv zeta. split_and!; [done..|]. unfold shown_option. eexists. split; [reflexivity|].
  destruct (List.find _ _) as [o|] eqn:E.
  - apply find_some in E as [Ho _]. apply list_elem_of_In in Ho. cbn. intros Heq.
    assert (Forall (λ o : option Z * string, (3 < String.length o.2)%nat) (meshRssiOptions current)) as Hall.
    { assert (Forall (λ o : option Z * string, (3 < String.length o.2)%nat) MESH_RSSI_OPTIONS) as H0
        by (repeat constructor; cbn; lia).
      unfold meshRssiOptions. destruct current as [d|]; [destruct (decide _); [done|]|]; (constructor; [|done]); cbn [snd];
        [|by apply Nat.ltb_lt]. pose proof (length_suffix (dbm_text d) " (current)") as Hlen.
      change (String.length " (current)") with 10%nat in Hlen. lia. }
    rewrite Forall_forall in Hall. specialize (Hall o Ho). rewrite Heq in Hall. cbn in Hall. lia.
  - apply list_elem_of_fmap in Hin as (o & Hc & Ho). exfalso.
    apply (find_none _ _ E) in Ho || (apply list_elem_of_In in Ho; apply (find_none _ _ E) in Ho).
    rewrite bool_decide_eq_true_2 in Ho; [done|by symmetry].
Qed.

(** The power selector has exactly one button pressed; pressing a button presses that
    one; and the line below names it. *)
Theorem power_pressed (v : option Z) (b : power_button) :
  let view x := PowerSelector x in
  length (filter (λ b, b_checked b = true) (view v).1) = 1%nat
  ∧ (b ∈ (view v).1 →
     map b_level (filter (λ b, b_checked b = true) (view (Some (b_dBm b))).1) = [b_level b]
     ∧ (view (Some (b_dBm b))).2
         = ("Selected: " ++ level_label (b_level b) ++ " · " ++ dbm_text (b_dBm b))%string).
Proof.
  cbv zeta. unfold PowerSelector. cbn [fst snd]. split.
  - unfold POWER_LEVELS. cbn [map fst snd]. by destruct (dBmToLevel v).
  - intros (x & -> & Hx)%list_elem_of_fmap. destruct x as [l d]. destruct (power_nearest d l d Hx) as (_ & _ & Hl & Hd).
    cbn [b_dBm b_level fst snd]. rewrite Hd in Hl. rewrite Hl, Hd. split; [|done].
    unfold POWER_LEVELS. cbn [map fst snd]. by destruct l.
Qed.

Lemma upper_idem c : upper (upper c) = upper c.
Proof. destruct c as [[] [] [] [] [] [] [] []]; reflexivity. Qed.
Lemma toUpperCase_idem s : toUpperCase (toUpperCase s) = toUpperCase s.
Proof.
  unfold toUpperCase. rewrite String.list_ascii_of_string_of_list_ascii, map_map. f_equal. apply map_ext, upper_idem.
Qed.

(** What is typed or chosen is what the field shows, whatever the card; the country in
    capitals. *)
Theorem typed_is_shown p name r c d e :
  draft c = Some d → loading c = false → radio_named p name = Some r → edit_control p name e c = true →
  ∃ d', draft (edit_card p name e c) = Some d' ∧
  match e with
  | ESsid v => ("SSID", TextInput v) ∈ card_fields r (edit_card p name e c) d'
  | EMeshId v => ("Mesh ID", TextInput v) ∈ card_fields r (edit_card p name e c) d'
  | EPassword v => ("Password", TextInput v) ∈ card_fields r (edit_card p name e c) d'
  | ECountry v => ("Country", TextInput (toUpperCase v)) ∈ card_fields r (edit_card p name e c) d'
  | EThreshold t => ("Peer admission floor", shown_option t (meshRssiOptions t)) ∈ card_fields r (edit_card p name e c) d'
  | ETxPower v => ("Tx Power", let q := PowerSelector (Some v) in Power q.1 q.2) ∈ card_fields r (edit_card p name e c) d'
  | EChannel v => s_channel d' = v
  | EBandwidth v => s_bandwidth d' = v
  | EEncryption v => s_encryption d' = v
  | EDisabled b => s_disabled d' = Some b
  end.
Proof.
  intros Hd Hl Hr Hc. exists (update e d). assert (draft (edit_card p name e c) = Some (update e d)) as Hd'.
  { unfold edit_card. rewrite Hc. unfold on_draft. cbn. by rewrite Hd. }
  split; [done|]. set (c' := edit_card p name e c) in *.
  assert (mesh_card c' = mesh_card c) as Hm.
  { unfold mesh_card. rewrite Hd, Hd'. by destruct d, e. }
  unfold edit_control in Hc. apply andb_true_iff in Hc as [_ Hc].
  assert (∀ s, toUpperCase (toUpperCase s) = toUpperCase s) as Hup by apply toUpperCase_idem.
  unfold card_fields. rewrite Hm. destruct d as [ssid mid pw ch bw tx co enc dis mode thr], e; cbn [update s_channel s_bandwidth s_encryption s_disabled]; try done.
  - apply negb_true_iff in Hc. rewrite Hc. set_solver.
  - rewrite Hc. set_solver.
  - set_solver.
  - cbn [s_country]. change (Some (toUpperCase s) ?? "") with (toUpperCase s). rewrite Hup. set_solver.
  - unfold floor_control in Hc. rewrite Hr in Hc.
    assert (showFloor r c' = true) as -> by (unfold showFloor in *; by rewrite Hm). set_solver.
  - set_solver.
Qed.


(** The card offers Save and Cancel exactly when its draft differs from what the daemon
    has, and a press of Save sends exactly when the button is there and not disabled. *)
Theorem save_offered p name r t x c s v :
  cards p !! name = Some c → draft c ≠ None → render_card r t x c s = Some v →
  (cv_actions v ≠ None ↔ dirty c = true)
  ∧ (saves (click_save name p) ≠ saves p ↔ ∃ label, cv_actions v = Some (label, false)).
Proof.
  intros Hc Hd Hv. unfold render_card in Hv. destruct (loading c) eqn:Hl; [done|]. injection Hv as <-. cbn [cv_actions].
  split; [by destruct (dirty c)|]. unfold click_save. rewrite Hc. destruct (draft c) as [d|]; [|done]. rewrite Hl. cbn [negb andb].
  destruct (dirty c), (saving c); cbn [negb andb].
  - split; [done|]. by intros [? [=]].
  - split; [by eexists|]. intros _ H. apply (f_equal length) in H. cbn in H. rewrite length_app in H. cbn in H. lia.
  - split; [done|]. by intros [? ?].
  - split; [done|]. by intros [? ?].
Qed.

(** The join button is there for a scan that found a HaLow radio; it is enabled exactly
    when a press would send the request, and the notes tell the two reasons a scan can
    fall short. *)
Theorem join_panel_shown p :
  let v := render_join p in
  (jp_button v ≠ None ↔ join_shown p = true)
  ∧ ((∃ l, jp_button v = Some (l, false)) ↔ join_enabled p = true)
  ∧ (jp_no_halow v = true ↔ ∃ j, join p = Some j ∧ j_halowRadio j = "")
  ∧ (jp_filled v ≠ None ↔ join_shown p = true)
  ∧ (jp_skipped v ≠ None ↔ ∃ j, join p = Some j ∧ j_hasBackhaul j = true ∧ j_backhaulRadio j = "").
Proof.
  cbv zeta. unfold render_join, join_enabled, filledSummary, backhaulSkipped, join_shown.
  cbn [jp_button jp_no_halow jp_filled jp_skipped]. destruct (join p) as [j|]; [|naive_solver]. cbn [mbind option_bind].
  split_and!.
  - by case_bool_decide.
  - case_bool_decide; cbn [negb andb]; [naive_solver|]. case_bool_decide; cbn [negb andb orb]; [|naive_solver].
    destruct (busy _); cbn; naive_solver.
  - rewrite bool_decide_eq_true. naive_solver.
  - destruct (decide (j_halowRadio j = "")) as [->|Hne]; [done|]. by rewrite bool_decide_eq_false_2.
  - split.
    + destruct (j_hasBackhaul j) eqn:E; [|done]. case_bool_decide as Hb; [|done]. intros _. by exists j.
    + intros (j' & Hj & Hh & Hb). apply (inj Some) in Hj as <-. by rewrite Hh, bool_decide_eq_true_2.
Qed.

(** Opening the disclosure asks for both lists; the heading counts the rows of its
    table; and a list that failed to load keeps its last rows. *)
Theorem stations_listed (mesh : bool) s c p :
  (expanded s = false → loads (toggle_expanded s) = S (loads s) ∧ expanded (toggle_expanded s) = true)
  ∧ (expanded s = true → loads (toggle_expanded s) = loads s)
  ∧ (loads s ≠ 0%nat → clients (connected_loaded c p s) = match c with Some l => Some (l ?? []) | None => clients s end
       ∧ peers (connected_loaded c p s) = match p with Some l => Some (l ?? []) | None => peers s end)
  ∧ (∀ rows, expanded s = true → (if mesh then peers s else clients s) = Some rows → rows ≠ [] →
       ∃ head body cards, (disclosure mesh s).2 = Some (Some (Table head body cards)) ∧ length body = length rows
         ∧ (disclosure mesh s).1 = ((if mesh then "Mesh Peers" else "Connected Clients")
              ++ " (" ++ pretty (Z.of_nat (length rows)) ++ ")")%string).
Proof.
  split_and!.
  - intros He. unfold toggle_expanded. by rewrite He.
  - intros He. unfold toggle_expanded. by rewrite He.
  - intros Hl. unfold connected_loaded. by destruct (loads s).
  - intros rows He Hr Hne. unfold disclosure. rewrite He, Hr. unfold ConnectedTable. cbn [default].
    destruct (table_complete (stationColumns (if mesh then Peers else Clients)) rows
      (λ r i, macAddress r ?? pretty (Z.of_nat i)) (match (if mesh then Peers else Clients) with Clients => "No connected clients." | Peers => "No mesh peers." end) None)
      as [_ H]. destruct H as (head & body & cs & Ht & _ & Hb & _); [done|by destruct mesh|].
    exists head, body, cs. split_and!; [|done|done]. cbn [snd]. by f_equal.
Qed.

(** Mixed WPA2 and WPA3, which the setup wizard offers and the daemon reads back, has no
    label here. *)
Example sae_mixed_unlabelled :
  encryption_options {| av_channels := []; av_bandwidths := []; av_encryptions := [PSK2; SAE_MIXED] |}
    = [(PSK2, "WPA2-PSK"); (SAE_MIXED, "7")].
Proof. reflexivity. Qed.

(** Without a list from the daemon the channel keeps its value, the encryption does
    not. *)
Example no_options_shown :
  let d := mk_settings "m" None None "36" HT20 17 None PSK2 None AP None in
  shown_option (s_channel d) (channel_options d no_opts) = Select "36" ["36"]
  ∧ shown_option (s_encryption d) (encryption_options no_opts) = Select "—" [].
Proof. done. Qed.

(** Just below a megabit. *)
Example thousand_kbps : formatBitrate (Some 999999%Z) = "1000 Kbps" ∧ formatBitrate (Some 1000000%Z) = "1.0 Mbps".
Proof. vm_compute. done. Qed.
