(* ===== verification/TerminalPage.v ===== *)
(** [components/Terminal.jsx] and [pages/SettingsTerminal.jsx]: the terminal page.

    A [term_host] is one mount of [Terminal]: its screen, its observer and its socket.  The
    page holds at most one; the others are past, some of them with a socket that is
    still closing.  What [fit] measures is the browser's and comes with the event; the
    terminal itself (xterm) is the list of what was written to it. *)
From S2P Require Import Prelude JsString.

Open Scope js_scope.

(** ** The socket and the terminal *)

Inductive readyState := CONNECTING | OPEN | CLOSING | CLOSED.
#[export] Instance readyState_eq_dec : EqDecision readyState.
Proof. solve_decision. Defined.

Inductive frame := Binary (bytes : string) | Text (text : string).

(** One mount of [Terminal].  [owner] is the page its [onClose] belongs to; [received]
    is a history of the frames the socket delivered. *)
Record term_host := mk_term_host {
  size : Z * Z; written : list string; disposed : bool; observing : bool;
  ws : readyState; sent : list frame; received : list frame; owner : nat
}.

Definition set_readyState (s : readyState) (h : term_host) : term_host :=
  mk_term_host (size h) (written h) (disposed h) (observing h) s (sent h) (received h) (owner h).
Definition fit_size (z : Z * Z) (h : term_host) : term_host :=
  mk_term_host z (written h) (disposed h) (observing h) (ws h) (sent h) (received h) (owner h).
Definition write (t : string) (h : term_host) : term_host :=
  mk_term_host (size h) (written h ++ [t]) (disposed h) (observing h) (ws h) (sent h) (received h) (owner h).
Definition socket_send (f : frame) (h : term_host) : term_host :=
  mk_term_host (size h) (written h) (disposed h) (observing h) (ws h) (sent h ++ [f]) (received h) (owner h).
Definition receive (f : frame) (h : term_host) : term_host :=
  mk_term_host (size h) (written h) (disposed h) (observing h) (ws h) (sent h) (received h ++ [f]) (owner h).

(** [JSON.stringify({ type: 'resize', cols, rows })]; 034 is the quotation mark. *)
Definition quoted (s : string) : string := (String "034" s ++ String "034" "")%string.
Definition resize_text (z : Z * Z) : string :=
  ("{" ++ quoted "type" ++ ":" ++ quoted "resize" ++ "," ++ quoted "cols" ++ ":" ++ pretty z.1
   ++ "," ++ quoted "rows" ++ ":" ++ pretty z.2 ++ "}")%string.

Definition sendResize (h : term_host) : term_host :=
  if decide (ws h = OPEN) then socket_send (Text (resize_text (size h))) h else h.

(** The mount effect; [z] is the size after [fit]. *)
Definition Terminal (page : nat) (z : Z * Z) : term_host := mk_term_host z [] false true CONNECTING [] [] page.

Definition onopen (h : term_host) : term_host := sendResize (set_readyState OPEN h).

Definition onmessage (f : frame) (h : term_host) : term_host :=
  match f with Text _ => receive f h | Binary b => write b (receive f h) end.

Definition crlf : string := String "013" (String "010" "").
Definition closed_line (code : Z) (reason : string) : string :=
  (crlf ++ "[session closed: " ++ (if decide (reason = "") then pretty code else reason) ++ "]" ++ crlf)%string.
Definition onclose (code : Z) (reason : string) (h : term_host) : term_host := write (closed_line code reason) (set_readyState CLOSED h).

(** [term.onData], with the UTF-8 bytes of what was typed. *)
Definition onData (d : string) (h : term_host) : term_host :=
  if decide (ws h = OPEN) then socket_send (Binary d) h else h.

(** The observer; [None] when [fit] throws. *)
Definition onResize (z : option (Z * Z)) (h : term_host) : term_host :=
  sendResize (match z with Some z => fit_size z h | None => h end).

(** [ws.close]: of a socket that is closing or closed it does nothing. *)
Definition ws_close (s : readyState) : readyState :=
  match s with CONNECTING | OPEN => CLOSING | CLOSING | CLOSED => s end.
Definition cleanup (h : term_host) : term_host :=
  mk_term_host (size h) (written h) true false (ws_close (ws h)) (sent h) (received h) (owner h).

(** ** The page *)

(** [present]: the page is mounted, [instance] counts its mounts; [past] are the
    terminals that were unmounted. *)
Record tty := mk_tty {
  closedEvent : option (Z * string); reconnectKey : nat;
  present : bool; instance : nat; terminal : option term_host; past : list term_host
}.

Definition no_page : tty := mk_tty None 0 false 0 None [].

Definition buildWsUrl (protocol host : string) : string :=
  ((if decide (protocol = "https:") then "wss" else "ws") ++ "://" ++ host ++ "/api/terminal/ws")%string.

Definition SettingsTerminal (z : Z * Z) (w : tty) : tty :=
  mk_tty None 0 true (S (instance w)) (Some (Terminal (S (instance w)) z)) (past w).

Definition unmount (w : tty) : tty :=
  mk_tty (closedEvent w) (reconnectKey w) (present w) (instance w) None
    (past w ++ map cleanup (option_list (terminal w))).

(** [handleClose] of the page [o], and the render that puts the banner in the
    terminal's place.  Of a page that is gone it sets nothing. *)
Definition handleClose (o : nat) (code : Z) (reason : string) (w : tty) : tty :=
  if present w && bool_decide (o = instance w) then
    unmount (mk_tty (Some (code, reason)) (reconnectKey w) (present w) (instance w) (terminal w) (past w))
  else w.

Definition reconnect (z : Z * Z) (w : tty) : tty :=
  mk_tty None (S (reconnectKey w)) (present w) (instance w) (Some (Terminal (instance w) z)) (past w).

Definition leave_page (w : tty) : tty :=
  let w := unmount w in mk_tty (closedEvent w) (reconnectKey w) false (instance w) (terminal w) (past w).

(** [on_close] of the terminal on the page, and of a past one. *)
Definition terminal_closed (code : Z) (reason : string) (w : tty) : tty :=
  match terminal w with
  | Some h =>
      handleClose (owner h) code reason
        (mk_tty (closedEvent w) (reconnectKey w) (present w) (instance w) (Some (onclose code reason h)) (past w))
  | None => w
  end.
Definition past_closed (i : nat) (code : Z) (reason : string) (w : tty) : tty :=
  match past w !! i with
  | Some h =>
      handleClose (owner h) code reason
        (mk_tty (closedEvent w) (reconnectKey w) (present w) (instance w) (terminal w)
           (<[i := onclose code reason h]> (past w)))
  | None => w
  end.

Inductive event :=
| Enter (z : Z * Z) | Leave | Reconnect (z : Z * Z)
| Opened | Message (f : frame) | ClosingStarted | Closed (code : Z) (reason : string)
| Typed (d : string) | Resized (z : option (Z * Z))
| PastClosed (i : nat) (code : Z) (reason : string).

Definition on_mounted (f : term_host → term_host) (w : tty) : tty :=
  mk_tty (closedEvent w) (reconnectKey w) (present w) (instance w) (f <$> terminal w) (past w).

Definition fire (e : event) (w : tty) : tty :=
  match e with
  | Enter z => SettingsTerminal z w
  | Leave => leave_page w
  | Reconnect z => reconnect z w
  | Opened => on_mounted onopen w
  | Message f => on_mounted (onmessage f) w
  | ClosingStarted => on_mounted (set_readyState CLOSING) w
  | Closed code reason => terminal_closed code reason w
  | Typed d => on_mounted (onData d) w
  | Resized z => on_mounted (onResize z) w
  | PastClosed i code reason => past_closed i code reason w
  end.

(** A socket reports to a page in the order of its states; the button is in the banner. *)
Definition enabled (e : event) (w : tty) : bool :=
  match e, terminal w with
  | Enter _, _ => negb (present w)
  | Leave, _ => present w
  | Reconnect _, _ => present w && bool_decide (is_Some (closedEvent w))
  | Opened, Some h => bool_decide (ws h = CONNECTING)
  | (Message _ | ClosingStarted), Some h => bool_decide (ws h = OPEN)
  | Closed _ _, Some h => bool_decide (ws h ≠ CLOSED)
  | Typed _, Some h => negb (disposed h)
  | Resized _, Some h => observing h
  | PastClosed i _ _, _ => match past w !! i with Some h => bool_decide (ws h = CLOSING) | None => false end
  | _, None => false
  end.

Definition step (w w' : tty) : Prop := ∃ e, enabled e w = true ∧ w' = fire e w.

(** In development React's strict mode runs the effects of a new [Terminal] twice, with
    the cleanup between. *)
Definition strict_remount (z : Z * Z) (w : tty) : tty :=
  let w := unmount w in
  mk_tty (closedEvent w) (reconnectKey w) (present w) (instance w) (Some (Terminal (instance w) z)) (past w).

(** What the page shows: the banner's text, or the terminal. *)
Definition closed_banner (code : Z) (reason : string) : string :=
  (if decide (code = 1008%Z) then "Terminal session is already in use elsewhere. Close the other session and try Reconnect."
   else "Session closed (code " ++ pretty code ++ (if decide (reason = "") then "" else ": " ++ reason) ++ ").")%string.
Definition render (w : tty) : string + option term_host :=
  match closedEvent w with Some (code, reason) => inl (closed_banner code reason) | None => inr (terminal w) end.

(** ** Properties *)

Definition output (l : list frame) : list string :=
  omap (λ f, match f with Binary b => Some b | Text _ => None end) l.
Definition last_text (l : list frame) : option string :=
  last (omap (λ f, match f with Text t => Some t | Binary _ => None end) l).

(** A terminal whose socket has not closed: its screen is what the socket delivered,
    nothing is sent before the connection is open, and from then on the shell was told
    the present size before anything else. *)
Definition term_host_ok (h : term_host) : Prop :=
  disposed h = false ∧ observing h = true ∧ ws h ≠ CLOSED ∧ written h = output (received h)
  ∧ (ws h = CONNECTING → sent h = [] ∧ received h = [])
  ∧ (ws h = OPEN → last_text (sent h) = Some (resize_text (size h)) ∧ ∃ t l, sent h = Text t :: l).

Lemma last_text_snoc l t : last_text (l ++ [Text t]) = Some t.
Proof. unfold last_text. rewrite omap_app. cbn. apply last_snoc. Qed.
Lemma last_text_binary l b : last_text (l ++ [Binary b]) = last_text l.
Proof. unfold last_text. rewrite omap_app. cbn. by rewrite app_nil_r. Qed.
Lemma output_snoc l f : output (l ++ [f]) = output l ++ output [f].
Proof. apply omap_app. Qed.

Lemma Terminal_ok o z : term_host_ok (Terminal o z).
Proof. unfold term_host_ok. cbn. by split_and!. Qed.

Lemma opened_ok h : ws h = CONNECTING → term_host_ok h → term_host_ok (onopen h).
Proof.
  intros Hc (Hd & Ho & _ & Hw & Hs & _). destruct (Hs Hc) as [Hs' Hr]. unfold onopen, sendResize, term_host_ok.
  rewrite decide_True by done. cbn. rewrite Hs'. split_and!; try done. intros _. by split; [|eexists _, _].
Qed.
Lemma message_ok f h : ws h = OPEN → term_host_ok h → term_host_ok (onmessage f h).
Proof.
  intros Hc (Hd & Ho & _ & Hw & _ & Hs). unfold term_host_ok.
  destruct f; cbn; rewrite Hc, output_snoc, Hw; cbn; rewrite ?app_nil_r; by split_and!; auto.
Qed.
Lemma closing_ok h : term_host_ok h → term_host_ok (set_readyState CLOSING h).
Proof. intros (Hd & Ho & _ & Hw & _ & _). unfold term_host_ok. cbn. by split_and!. Qed.
Lemma typed_ok d h : term_host_ok h → term_host_ok (onData d h).
Proof.
  intros H. unfold onData. case_decide as Ho; [|done]. destruct H as (Hd & Hob & Hn & Hw & Hc & Hs).
  unfold term_host_ok. cbn. destruct (Hs Ho) as (Hl & t & l & Hh). split_and!; try done; intros ?; [congruence|].
  rewrite last_text_binary, Hl, Hh. by split; [|eexists _, _].
Qed.
Lemma resized_ok z h : term_host_ok h → term_host_ok (onResize z h).
Proof.
  intros H. unfold onResize. set (h' := match z with Some z => fit_size z h | None => h end).
  assert (sent h' = sent h ∧ ws h' = ws h ∧ disposed h' = disposed h ∧ observing h' = observing h
    ∧ written h' = written h ∧ received h' = received h) as (E1 & E2 & E3 & E4 & E5 & E6) by by destruct z.
  destruct H as (Hd & Hob & Hn & Hw & Hc & Hs). unfold sendResize, term_host_ok. rewrite E2. case_decide as Ho; cbn; rewrite E1, ?E2, E3, E4, E5, E6.
  - destruct (Hs Ho) as (_ & t & l & Hh). split_and!; try done; intros ?; [congruence|]. rewrite last_text_snoc, Hh.
    by split; [|eexists _, _].
  - split_and!; try done.
Qed.

(** The page: the banner exactly when it holds no terminal; what was unmounted is
    disposed of, and of this page closed. *)
Definition past_ok (w : tty) (h : term_host) : Prop :=
  disposed h = true ∧ observing h = false ∧ (ws h = CLOSING ∨ ws h = CLOSED)
  ∧ (owner h ≤ instance w)%nat ∧ (present w = true → owner h = instance w → ws h = CLOSED).
Lemma past_ok_same w w' P :
  instance w' = instance w → present w' = present w → Forall (past_ok w) P → Forall (past_ok w') P.
Proof. intros Hi Hp H. eapply Forall_impl; [exact H|]. intros h. unfold past_ok. by rewrite Hi, Hp. Qed.

Definition tty_inv (w : tty) : Prop :=
  (∀ h, terminal w = Some h → term_host_ok h ∧ owner h = instance w ∧ present w = true ∧ closedEvent w = None)
  ∧ (terminal w = None → present w = true → is_Some (closedEvent w))
  ∧ Forall (past_ok w) (past w).

Lemma on_mounted_inv f w :
  tty_inv w → (∀ h, terminal w = Some h → term_host_ok h → term_host_ok (f h)) → (∀ h, owner (f h) = owner h) → tty_inv (on_mounted f w).
Proof.
  intros (Ht & Hn & Hp) Hf Ho. unfold on_mounted. split_and!; cbn.
  - intros h (h0 & Hh & ->)%fmap_Some. rewrite Ho. destruct (Ht h0 Hh) as (? & ? & ? & ?). split_and!; auto.
  - intros E%fmap_None. auto.
  - done.
Qed.

Lemma fire_inv e w : enabled e w = true → tty_inv w → tty_inv (fire e w).
Proof.
  intros He H. pose proof H as (Ht & Hn & Hp).
  destruct e as [z| |z| |f| |code reason|d|z|i code reason]; cbn [fire]; unfold enabled in He.
  - apply negb_true_iff in He. unfold SettingsTerminal. split_and!; cbn; [|done|].
    + intros h E. apply (inj Some) in E as <-. split_and!; [apply Terminal_ok|done..].
    + eapply Forall_impl; [exact Hp|]. cbn. intros h (? & ? & ? & ? & ?). split_and!; try done; cbn; [lia|intros _ ?; exfalso; lia].
  - unfold leave_page, unmount. split_and!; cbn; [done|done|]. apply Forall_app. split.
    + eapply Forall_impl; [exact Hp|]. cbn. intros h (? & ? & ? & ? & ?). by split_and!.
    + destruct (terminal w) as [h|]; cbn; [|done]. constructor; [|done]. unfold past_ok. cbn.
      destruct (Ht h eq_refl) as (_ & -> & _). split_and!; [done|done|destruct (ws h); cbn; auto|done|done].
  - apply andb_true_iff in He as [He [x Hx]%bool_decide_eq_true]. unfold reconnect. split_and!; cbn; [|done|done].
    intros h E. apply (inj Some) in E as <-. split_and!; [apply Terminal_ok|done..].
  - destruct (terminal w) as [h|] eqn:E; [|done]. apply bool_decide_eq_true in He. apply on_mounted_inv; [done| |].
    + intros h' E'. rewrite E in E'. apply (inj Some) in E' as <-. by apply opened_ok.
    + intros h'. unfold onopen, sendResize. by case_decide.
  - destruct (terminal w) as [h|] eqn:E; [|done]. apply bool_decide_eq_true in He. apply on_mounted_inv; [done| |by intros ?; destruct f].
    intros h' E'. rewrite E in E'. apply (inj Some) in E' as <-. by apply message_ok.
  - apply on_mounted_inv; [done| |done]. intros h _. apply closing_ok.
  - unfold terminal_closed. destruct (terminal w) as [h|] eqn:E; [|done]. destruct (Ht h eq_refl) as (_ & Ho & Hpr & _).
    unfold handleClose. cbn. rewrite Hpr, Ho, bool_decide_eq_true_2 by done. cbn. split_and!; cbn; [done|done|].
    apply Forall_app. split; [by apply (past_ok_same w)|]. constructor; [|done]. unfold past_ok. cbn. rewrite Ho. split_and!; try done. by right.
  - apply on_mounted_inv; [done| |]; intros h; [intros _; apply typed_ok|]. unfold onData. by case_decide.
  - apply on_mounted_inv; [done| |]; intros h; [intros _; apply resized_ok|]. unfold onResize, sendResize. by case_decide; destruct z.
  - unfold past_closed. destruct (past w !! i) as [h|] eqn:E; [|done]. apply bool_decide_eq_true in He.
    pose proof (proj1 (Forall_lookup _ _) Hp i h E) as (Hd & Hob & _ & Hle & Hcl).
    unfold handleClose. cbn. destruct (present w) eqn:Hpr; cbn.
    + rewrite bool_decide_eq_false_2 by (intros Hi; rewrite (Hcl eq_refl Hi) in He; done).
      split_and!; cbn; [done|done|]. apply Forall_insert; [by apply (past_ok_same w)|]. unfold past_ok. cbn. split_and!; try done. by right.
    + split_and!; cbn; rewrite ?Hpr; [done|done|]. apply Forall_insert; [by apply (past_ok_same w)|]. unfold past_ok. cbn. split_and!; try done. by right.
Qed.

Lemma tty_reachable w : rtc step no_page w → tty_inv w.
Proof.
  revert w. apply rtc_ind_r; [by split_and!|]. intros w1 w2 _ (e & He & ->) IH. by apply fire_inv.
Qed.

(** The screen shows what the daemon's shell wrote, in order and nothing else; while the
    connection is open the shell has been told the present size, before any input. *)
Theorem session_screen w h :
  rtc step no_page w → terminal w = Some h →
  written h = output (received h)
  ∧ (ws h = OPEN → last_text (sent h) = Some (resize_text (size h)) ∧ ∃ t l, sent h = Text t :: l)
  ∧ (ws h = CONNECTING → sent h = []).
Proof. intros H Hh. destruct (tty_reachable w H) as [Ht _]. destruct (Ht h Hh) as ((_ & _ & _ & ? & Hc & ?) & _). naive_solver. Qed.

Definition open_socket (h : term_host) : bool := bool_decide (ws h = CONNECTING ∨ ws h = OPEN).

Lemma none_open l : Forall (λ h, ws h = CLOSING ∨ ws h = CLOSED) l → filter open_socket l = [].
Proof.
  induction 1 as [|h l Hh _ IH]; [done|]. rewrite filter_cons_False; [done|]. unfold open_socket.
  rewrite bool_decide_eq_false_2; [by intros []|]. by destruct Hh as [-> | ->]; intros [|].
Qed.

(** One session at a time: of all the sockets ever opened at most one, the one on the
    page, is not closed or closing; on the page there is a terminal or a banner, never
    both. *)
Theorem one_session w :
  rtc step no_page w →
  filter open_socket (option_list (terminal w) ++ past w) = filter open_socket (option_list (terminal w))
  ∧ (present w = true → (terminal w = None ↔ is_Some (closedEvent w)))
  ∧ (present w = false → terminal w = None).
Proof.
  intros H. destruct (tty_reachable w H) as (Ht & Hn & Hp). split_and!.
  - rewrite filter_app, (none_open (past w)); [by rewrite app_nil_r|].
    eapply Forall_impl; [exact Hp|]. by intros h (_ & _ & Hw & _).
  - intros Hpr. split; [by auto|]. intros [x Hx]. destruct (terminal w) as [h|]; [|done].
    destruct (Ht h eq_refl) as (_ & _ & _ & E). congruence.
  - intros Hpr. destruct (terminal w) as [h|]; [|done]. destruct (Ht h eq_refl) as (_ & _ & E & _). congruence.
Qed.

(** A session that ends leaves its reason on the page and its last line on the screen,
    and the button starts a new one, with nothing of the old. *)
Theorem closed_then_reconnect w h code reason z :
  rtc step no_page w → terminal w = Some h →
  let w' := fire (Closed code reason) w in
  enabled (Closed code reason) w = true
  ∧ render w' = inl (closed_banner code reason)
  ∧ (∃ h', last (past w') = Some h' ∧ ws h' = CLOSED ∧ disposed h' = true ∧ written h' = output (received h) ++ [closed_line code reason])
  ∧ enabled (Reconnect z) w' = true
  ∧ render (fire (Reconnect z) w') = inr (Some (Terminal (instance w) z)).
Proof.
  intros H Hh. destruct (tty_reachable w H) as [Ht _]. destruct (Ht h Hh) as ((_ & _ & Hc & Hw & _) & Ho & Hpr & _).
  cbn [fire enabled]. unfold terminal_closed, handleClose. rewrite Hh. cbn.
  rewrite Hpr, Ho, (bool_decide_eq_true_2 (instance w = instance w)) by done. cbn.
  split_and!; try done; [by apply bool_decide_eq_true|]. rewrite last_snoc. eexists. split; [reflexivity|]. cbn. by rewrite Hw.
Qed.

(** The late close of a session left behind changes nothing on a page opened since. *)
Theorem late_close_ignored w i code reason :
  rtc step no_page w → enabled (PastClosed i code reason) w = true →
  terminal (fire (PastClosed i code reason) w) = terminal w
  ∧ closedEvent (fire (PastClosed i code reason) w) = closedEvent w.
Proof.
  intros H He. destruct (tty_reachable w H) as (_ & _ & Hp). cbn [fire]. unfold enabled in He. unfold past_closed, handleClose.
  destruct (past w !! i) as [h|] eqn:E; [|done]. apply bool_decide_eq_true in He.
  destruct (proj1 (Forall_lookup _ _) Hp i h E) as (_ & _ & _ & _ & Hcl). cbn. destruct (present w); [|done].
  rewrite bool_decide_eq_false_2; [done|]. intros Hi. rewrite (Hcl eq_refl Hi) in He. done.
Qed.

(** In development the first socket is closed by the remount, and its close event, which
    still belongs to the page, puts the banner in place of the second terminal. *)
Example strict_mode_banner :
  let w := past_closed 0 1006 "" (strict_remount (80, 24)%Z (fire (Enter (80, 24)%Z) no_page)) in
  render w = inl "Session closed (code 1006)." ∧ map ws (past w) = [CLOSED; CLOSING].
Proof. vm_compute. done. Qed.

(** What is typed before the connection is open is not sent, then or later. *)
Example typed_early :
  sent <$> terminal (foldl (flip fire) no_page [Enter (80, 24)%Z; Typed "ls"; Opened; Typed "w"])
    = Some [Text (resize_text (80, 24)%Z); Binary "w"].
Proof. reflexivity. Qed.
